(* ===== verification/_CoqProject ===== *)
-Q . S2P
Prelude.v
BoolExpr.v
Kconfig.v
Timer.v
RtcTime.v
ParseNum.v
Tokens.v
Results.v
TestRun.v
Timeout.v
KVer.v
Setup.v
Zoo.v
Pan.v
Bitmask.v
BitmaskText.v
BitmaskSafe.v
DataStorage.v
MetaParse.v
MetaNorm.v
MetaLex.v
MetaFile.v
MetaMain.v
FuzzySync.v
FuzzyStat.v
Checksum.v
Bytes.v
Netlink.v
NetlinkRead.v
NetDevice.v
TimerTest.v
RandomRange.v
WriteLog.v
FileData.v
Cgroup.v
CgroupSpec.v
CgroupRequire.v
CgroupGroup.v
CgroupCleanup.v
CgroupConfig.v
NetAddr.v
NetVars.v
