(* ===== verification/Prelude.v ===== *)
(** * Verification of the Linux Test Project

    The Linux Test Project is a collection of tests for the Linux kernel, the
    library they are written against ([src/ltp_src/lib], [include]), a driver
    that runs them ([pan]) and a program that extracts their descriptions
    ([metadata]).  A test describes itself in a [struct tst_test]; the library
    checks the requirements, forks the test, watches over it, collects its
    results and exits with them; the driver runs lists of such programs, keeps
    the active ones in a file, and counts failures from their exit codes.

    The development is a shallow embedding of the parts of that system that
    compute something.  The tests themselves call the kernel, and what they
    compute is what the kernel answers; of them only the code shared by several
    tests is here.

    ** How C is modelled

    C functions are Rocq functions with the names of the source.  They return
    [res E A]: [Ok] with the result, [Err] when the code gives up by itself
    ([tst_brk], [exit], an error branch), [Fault] when its behaviour is
    undefined (an access outside of an array, signed overflow, use of something
    uninitialised) or a loop has used up its fuel.  Integers are numbers with
    the conversions of their width written out; strings are lists of
    characters, memory is lists of bytes ([Bytes]), floating point numbers are
    those of [SpecFloat].  State is passed explicitly; where several actors
    interleave (the driver and signals, the watchdog and the test, two threads)
    the program is a step relation.  The kernel and the C library's input
    functions (clock, random numbers, results of system calls, files) are
    arguments.

    ** Files

    Shared: [Prelude] (this file: the result monad, C integers and characters,
    tactics and hints), [Tokens] ([strtok]), [Bytes] (memory as bytes).

    The library, [lib/]:
    - [BoolExpr]: [tst_bool_expr.c], boolean expressions over variables.
    - [Kconfig]: [tst_kconfig.c], requirements on the kernel configuration;
      uses [BoolExpr].
    - [Timer]: [tst_timer.h] and [tst_timer.c].
    - [RtcTime]: [tst_rtctime.c] and [tst_wallclock.c].
    - [ParseNum], [Results], [TestRun], [Timeout], [Setup]: [tst_test.c], one
      file for each of its tasks; [KVer]: [tst_kvercmp.c].
    - [FuzzySync], [FuzzyStat]: [tst_fuzzy_sync.h], threads that meet in a
      race window, and the statistics that place the window.
    - [Checksum]: [tst_checksum.c].
    - [Netlink], [NetlinkRead], [NetDevice]: [tst_rtnetlink.c] and
      [tst_netdevice.c], which builds its requests with the former.
    - [TimerTest]: [tst_timer_test.c], tests of sleeping system calls.
    - [RandomRange]: [random_range.c].
    - [Cgroup]: [tst_cgroup.c], control groups for tests, with
      [testcases/lib/tst_cgctl.c]; the theorems on it are in [CgroupSpec]
      (invariant and scanning), [CgroupRequire] (requiring a controller),
      [CgroupGroup] (groups and their files), [CgroupCleanup] (what was made and
      enabled, and its removal) and [CgroupConfig] (the state as text).
    - [NetAddr]: [tst_net.c], prefixes and addresses, with
      [testcases/lib/tst_net_ip_prefix.c]; [NetVars]:
      [testcases/lib/tst_net_vars.c], the variables of network tests.

    The driver, [pan/]: [Zoo] ([zoolib.c], the active file) and [Pan]
    ([ltp-pan.c], [splitstr.c]).

    Metadata, [metadata/]: [DataStorage] ([data_storage.h]), [MetaParse]
    ([metaparse.c]), and the theorems on it in [MetaNorm] (the hash and the
    normalisation), [MetaLex] (source texts as items, tokens, arrays, the test
    structure), [MetaFile] (directives, headers and documentation) and [MetaMain]
    (the program, with one of the tests as the example).

    Code shared by tests: [Bitmask], [BitmaskText], [BitmaskSafe]
    ([testcases/kernel/controllers/cpuset/cpuset_lib/libbitmask.c]), [WriteLog]
    and [FileData] ([testcases/kernel/fs/doio]).

    ** What the theorems show

    - Requirements.  The parser of boolean expressions accepts exactly the
      grammar and builds the tree of the grammar; the evaluator computes
      three-valued logic; the check of the kernel configuration accepts exactly
      when every expression is true of the configuration, and rejects bad
      expressions.  A plain name is true when it is [y] or [m], and values are
      compared up to a blank.
    - Running.  The exit code of a test tells what its functions reported, as an
      executable specification follows the scripts; the set-up accepts consistent
      descriptions only, and acquires and mounts what they ask for; a test that
      does not give a sign of life is killed; the driver accounts for every
      command it started, with signals between its steps and in its wait (one
      during the start of a test is undefined behaviour), and runs a list in
      sequence as written; the active file contains exactly the running
      processes.
    - Time and numbers.  Conversions of dates, arithmetic on time values, kernel
      versions, parsing of numbers, checksums (against the bitwise definition
      and for detecting bursts), random numbers (in range, and every value is
      reached), verdicts of timer tests.
    - Threads.  The two threads of a race never leave a meeting one apart
      (safety), they get out of it under fairness (liveness), and the loops end
      within their time.
    - Networking.  What is put into a netlink message is what a reader finds,
      and every answer is matched with its request; the device functions send
      the requests they should.  Netmask, broadcast address, network and host
      part that are given to shell tests are those of the addresses, for IPv4
      with 24 bits of prefix or more and for IPv6, as [inet_ntop] prints it and
      where it can be shortened in one way only, with 16 or more, and read back
      as such.
    - Control groups.  Whatever the kernel answers, requiring controllers stays
      within its tables and gives up only for a reason that it names; a group
      that was set up serves every controller from the hierarchy it is attached
      to, in directories that were made there after the controller was enabled;
      files are found by their name in either version; cleaning up removes and
      unmounts what was made and mounted and nothing of others (a directory of
      the test that was there before apart), also by another process that is
      given the state as text.
      The calls made are the trace of the state; the hypotheses on the kernel
      are that mount paths fit in [PATH_MAX], and for what was made and for the
      clean up that its list of controllers does not change and descriptor 0 is
      in use.
    - Data structures and text.  Bit masks refine numbers, all programs on them
      are free of undefined behaviour up to the limits of the functions on text,
      their text forms can be read back; metadata are extracted from the source
      of a test, with its comments, directives and headers, into JSON as
      specified, and the extraction terminates on every input whose comments are
      closed.
    - Files.  The log of writes is scanned as it was written, across the
      boundaries of buffers; data written with a generator passes its check in
      any pieces, and the first difference is found.

    Where the code violates what it means to do, the theorem has the exact
    condition, and an [Example] in the file shows the violation.

    ** Bounds and fuel

    Loops that are not structural have fuel.  Fuel is a parameter of the
    function, and its theorem holds for every fuel above an explicit bound (the
    length of the input, the number of steps that remain), or the definition
    takes a fuel that is proved to suffice ([parselist_terminates],
    [metaparse_terminates], [pattern_correct]).  Sizes
    fixed by the code (line buffers, stacks, the hash of [data_storage.h]) are
    those of the code.  [long] is a parameter where the source is compiled for
    32 and 64 bits ([Timer], [Bitmask]), and has 64 bits elsewhere.

    ** Not modelled

    - The tests ([testcases/], about nine tenths of the code): each is a sequence
      of system calls with the answers expected from a kernel.
    - Wrappers that make one system call and report its failure ([safe_*.c],
      [tst_safe_*.c]), queries of the system ([tst_kernel.c], [tst_cpu.c],
      [tst_virt.c] and the like), devices and mounts ([tst_device.c],
      [tst_mkfs.c]), temporary directories: their answers are inputs of [Setup]
      and [TestRun].
    - The interface for tests that are not converted ([tst_res.c],
      [parse_opts.c], [tlibio.c]), and the small libraries in [libs/].
    - Scripts ([runltp], [testscripts], [docparse]), the test descriptions in
      [runtest], and the tools in [tools/] and [utils/].
    - Within the modelled files: output that nothing reads (help, hints, debug
      messages), freeing of memory, and locking of files. *)

From stdpp Require Import base list strings gmap.
From Stdlib Require Import ZArith Lia.

(** ** Results of C code

    [Ok a]: the code returned [a].  [Err e]: the code took an error path it
    handles itself ([tst_brk], [exit], a [goto err]).  [Fault]: the C
    behaviour is undefined from here on (an access outside an array, a read of
    an uninitialised object, a signed overflow).  Safety theorems say that
    [Fault] is not reached. *)
Inductive res (E A : Type) : Type :=
| Ok (a : A)
| Err (e : E)
| Fault.
Arguments Ok {E A} a.
Arguments Err {E A} e.
Arguments Fault {E A}.

#[export] Instance res_ret E : MRet (res E) := fun A a => Ok a.
#[export] Instance res_bind E : MBind (res E) := fun A B k m =>
  match m with Ok a => k a | Err e => Err e | Fault => Fault end.

(** An access that is [None] when it is outside its object. *)
Definition or_fault {E A} (o : option A) : res E A :=
  match o with Some a => Ok a | None => Fault end.

Lemma bind_Ok {E A B} (m : res E A) (k : A -> res E B) b :
  m ≫= k = Ok b <-> exists a, m = Ok a /\ k a = Ok b.
Proof. destruct m; simpl; split; [eauto|intros (? & [=] & ?); congruence|done|intros (? & [=] & ?)|done|intros (? & [=] & ?)]. Qed.

Lemma bind_not_Fault {E A B} (m : res E A) (k : A -> res E B) :
  m <> Fault -> (forall a, m = Ok a -> k a <> Fault) -> m ≫= k <> Fault.
Proof. destruct m; simpl; eauto. Qed.

(** ** Characters and strings

    A [char] is its code, a [cstr] the characters before the terminating NUL.
    [at_ s i] is [s[i]]: the NUL when [i] is the length of [s]. *)
Definition char_of_bytes (l : list Byte.byte) : option Z :=
  match l with [b] => Some (Z.of_N (Byte.to_N b)) | _ => None end.
Definition bytes_of_char (z : Z) : option (list Byte.byte) :=
  match Byte.of_N (Z.to_N z) with Some b => Some [b] | None => None end.
Declare Scope c_char_scope.
Delimit Scope c_char_scope with ch.
String Notation Z char_of_bytes bytes_of_char : c_char_scope.

Abbreviation cstr := (list Z).

Definition str (s : string) : cstr :=
  map (fun a => Z.of_N (Ascii.N_of_ascii a)) (String.list_ascii_of_string s).

Definition at_ (s : cstr) (i : nat) : Z := nth i s 0%Z.

Definition DQUOTE : Z := 34.
Definition BACKSLASH : Z := 92.
Definition NEWLINE : Z := 10.
Definition TAB : Z := 9.

Section CType.
Local Open Scope Z_scope.

(** <ctype.h> in the C locale. *)
Definition isspace (c : Z) : bool := (c =? 32) || ((9 <=? c) && (c <=? 13)).
Definition isdigit (c : Z) : bool := ("0"%ch <=? c) && (c <=? "9"%ch).
Definition isupper (c : Z) : bool := ("A"%ch <=? c) && (c <=? "Z"%ch).
Definition islower (c : Z) : bool := ("a"%ch <=? c) && (c <=? "z"%ch).
Definition isalnum (c : Z) : bool := isdigit c || isupper c || islower c.

(** <string.h>: [strcmp] and [strncmp] as the equality they are used for. *)
Definition streq (s t : cstr) : bool := bool_decide (s = t).
Fixpoint strneq (n : nat) (s t : cstr) : bool :=
  match n, s, t with
  | O, _, _ => true
  | _, [], [] => true
  | S n', c :: s', d :: t' => (c =? d) && strneq n' s' t'
  | _, _, _ => false
  end.

(** [starts s t]: [t] is a prefix of [s]; [strstr] as the suffix it points to. *)
Fixpoint starts (s t : cstr) {struct t} : bool :=
  match t, s with
  | [], _ => true
  | d :: t', c :: s' => (c =? d) && starts s' t'
  | _ :: _, [] => false
  end.
Fixpoint strstr (s t : cstr) : option cstr :=
  if starts s t then Some s else match s with [] => None | _ :: s' => strstr s' t end.
(** [strchr] as the suffix it points to. *)
Fixpoint strchr (s : cstr) (c : Z) : option cstr :=
  match s with
  | [] => None
  | x :: s' => if x =? c then Some s else strchr s' c
  end.
End CType.

(** The longest prefix whose characters satisfy [p], and what follows it. *)
Fixpoint prefix_len (p : Z -> bool) (s : cstr) : nat :=
  match s with [] => 0 | c :: s' => if p c then S (prefix_len p s') else 0 end.
Fixpoint skip_while (p : Z -> bool) (s : cstr) : cstr :=
  match s with [] => [] | c :: s' => if p c then skip_while p s' else s end.

(** ** Result types ([include/tst_res_flags.h]) *)
Section ResFlags.
Local Open Scope Z_scope.
Definition TPASS : Z := 0.
Definition TFAIL : Z := 1.
Definition TBROK : Z := 2.
Definition TWARN : Z := 4.
Definition TINFO : Z := 16.
Definition TCONF : Z := 32.
Definition TTYPE_MASK : Z := 63.
Definition TERRNO : Z := 256.
Definition TTERRNO : Z := 512.
Definition TRERRNO : Z := 1024.
Definition TTYPE_RESULT (ttype : Z) : Z := Z.land ttype TTYPE_MASK.
End ResFlags.

(** A line reported by [tst_res], and the reason of a [tst_brk]. *)
Definition report : Set := Z * cstr.
Definition brk : Set := Z * cstr.

(** ** Integers of a given width *)
Section Width.
Local Open Scope Z_scope.
Definition INT_MAX : Z := 2147483647.
Definition INT_MIN : Z := - 2147483648.
Definition UINT_MAX : Z := 4294967295.
Definition LLONG_MAX : Z := 9223372036854775807.
Definition LLONG_MIN : Z := - 9223372036854775808.
Definition in_int (z : Z) : bool := (INT_MIN <=? z) && (z <=? INT_MAX).
Definition in_ll (z : Z) : bool := (LLONG_MIN <=? z) && (z <=? LLONG_MAX).
(** Conversion to a signed type of [w] bits, as the supported compilers do it. *)
Definition wrap_s (w z : Z) : Z := (z + 2 ^ (w - 1)) mod 2 ^ w - 2 ^ (w - 1).
Definition wrap_u (w z : Z) : Z := z mod 2 ^ w.
End Width.

(** ** Automation *)
Create HintDb ltp.
Create Rewrite HintDb ltp_len.
#[export] Hint Rewrite @length_app @length_rev @length_cons @length_insert @length_alter
  @length_fmap : ltp_len.

(** Normalise the boolean tests of the code into arithmetic. *)
Ltac bools :=
  repeat match goal with
  | H : context [Z.eqb ?a ?b] |- _ => destruct (Z.eqb_spec a b)
  | H : context [Z.ltb ?a ?b] |- _ => destruct (Z.ltb_spec a b)
  | H : context [Z.leb ?a ?b] |- _ => destruct (Z.leb_spec a b)
  | |- context [Z.eqb ?a ?b] => destruct (Z.eqb_spec a b)
  | |- context [Z.ltb ?a ?b] => destruct (Z.ltb_spec a b)
  | |- context [Z.leb ?a ?b] => destruct (Z.leb_spec a b)
  | H : context [Nat.eqb ?a ?b] |- _ => destruct (Nat.eqb_spec a b)
  | H : context [Nat.ltb ?a ?b] |- _ => destruct (Nat.ltb_spec a b)
  | |- context [Nat.eqb ?a ?b] => destruct (Nat.eqb_spec a b)
  | |- context [Nat.ltb ?a ?b] => destruct (Nat.ltb_spec a b)
  end; cbn [andb orb negb] in *.

(** Closed comparisons of integers, by evaluation. *)
Ltac zeval := repeat split; vm_compute; (reflexivity || discriminate).

(** Case analysis on every [match] and [if] of the goal. *)
Ltac cases := repeat (case_match; simplify_eq/=).

Lemma at_app_r s t i : at_ (s ++ t) (length s + i) = at_ t i.
Proof. unfold at_. rewrite app_nth2 by lia. f_equal. lia. Qed.

Lemma at_length_cons s c t : at_ (s ++ c :: t) (length s) = c.
Proof. replace (length s) with (length s + 0) by lia. by rewrite at_app_r. Qed.

(** ** String comparison and search *)

Lemma strneq_take n s t : n <= length s -> strneq n s t = true <-> take n s = take n t.
Proof.
  revert s t. induction n as [|n IH]; intros s t Hs; [done|].
  destruct s as [|c s]; simpl in Hs; [lia|].
  destruct t as [|d t]; simpl; [done|].
  rewrite andb_true_iff, Z.eqb_eq, IH by lia.
  split; [intros [-> ->]; done|intros [= -> ->]; done].
Qed.

Lemma strneq_full s t : strneq (length s) s t = true <-> s = take (length s) t.
Proof. by rewrite strneq_take, firstn_all by lia. Qed.

Lemma starts_app s t : starts (t ++ s) t = true.
Proof. induction t as [|c t IH]; simpl; [done|]. by rewrite Z.eqb_refl. Qed.

Lemma starts_spec s t : starts s t = true <-> exists u, s = t ++ u.
Proof.
  revert s. induction t as [|d t IH]; intros s; simpl; [naive_solver|].
  destruct s as [|c s]; [naive_solver|].
  rewrite andb_true_iff, Z.eqb_eq, IH.
  split; [intros [-> [u ->]]; by exists u|intros [u [= -> ->]]; eauto].
Qed.

Lemma strstr_starts s t : starts s t = true -> strstr s t = Some s.
Proof. intros H. destruct s; simpl in *; by rewrite H. Qed.

Lemma strstr_found s t u : strstr (s ++ t ++ u) t <> None.
Proof.
  induction s as [|c s IH]; simpl.
  - rewrite strstr_starts; [done|apply starts_app].
  - by destruct (starts _ _).
Qed.

Lemma prefix_len_app p s t : forallb p s = true -> prefix_len p (s ++ t) = length s + prefix_len p t.
Proof.
  induction s as [|c s IH]; simpl; [done|]. intros [-> H]%andb_true_iff. by rewrite IH.
Qed.

Lemma prefix_len_le p s : prefix_len p s <= length s.
Proof. induction s as [|c s IH]; simpl; [done|]. destruct (p c); lia. Qed.

Lemma prefix_len_all p s : prefix_len p s = length s <-> forallb p s = true.
Proof.
  induction s as [|c s IH]; simpl; [done|]. pose proof (prefix_len_le p s).
  destruct (p c); simpl; [|split; [lia|done]]. rewrite <-IH. lia.
Qed.

Lemma forallb_take p n (s : cstr) : forallb p s = true -> forallb p (take n s) = true.
Proof.
  revert n. induction s as [|c s IH]; intros [|n]; simpl; [done..|].
  intros [-> H]%andb_true_iff. by apply IH.
Qed.

Lemma at_end s : at_ s (length s) = 0%Z.
Proof. unfold at_. apply nth_overflow. lia. Qed.

Lemma at_app_l s t i : i < length s -> at_ (s ++ t) i = at_ s i.
Proof. intros. unfold at_. by rewrite app_nth1. Qed.

Lemma at_app_0 s t : at_ (s ++ t) (length s) = at_ t 0.
Proof. rewrite <-(Nat.add_0_r (length s)) at 1. apply at_app_r. Qed.

Lemma prefix_len_stop p s c t : forallb p s = true -> p c = false ->
  prefix_len p (s ++ c :: t) = length s.
Proof. intros H Hc. rewrite prefix_len_app by done. simpl. rewrite Hc. lia. Qed.

(** The character that ends the longest prefix. *)
Lemma prefix_len_split p s : exists a b, s = a ++ b /\ length a = prefix_len p s /\
  forallb p a = true /\ match b with [] => True | c :: _ => p c = false end.
Proof.
  induction s as [|c s (a & b & -> & Ha & Hp & Hb)]; simpl; [by exists [], []|].
  destruct (p c) eqn:E.
  - exists (c :: a), b. simpl. rewrite E, Ha. auto.
  - by exists [], (c :: a ++ b).
Qed.

Lemma forallb_notin p (s : cstr) c : forallb p s = true -> p c = false -> c ∉ s.
Proof. rewrite forallb_forall. intros H Hc Hin%list_elem_of_In%H. congruence. Qed.

(** Conversions keep the values the type can represent. *)
Lemma wrap_s_id w z : (0 < w)%Z -> (- 2 ^ (w - 1) <= z < 2 ^ (w - 1))%Z -> wrap_s w z = z.
Proof.
  intros Hw Hz. unfold wrap_s.
  assert (2 ^ w = 2 * 2 ^ (w - 1))%Z by (rewrite <-Z.pow_succ_r by lia; f_equal; lia).
  rewrite Z.mod_small by lia. lia.
Qed.

Lemma wrap_u_id w z : (0 <= z < 2 ^ w)%Z -> wrap_u w z = z.
Proof. intros Hz. unfold wrap_u. by apply Z.mod_small. Qed.
