(* ===== verification/BoolExpr.v ===== *)
(** * Boolean expressions: [lib/tst_bool_expr.c]

    The tokenizer, the shunting-yard translation to postfix form with its
    syntax check, the evaluator and the error report.  A pointer into the
    parsed string is an offset; a pointer into the token array [buf] is an
    index.  The local arrays of the C code ([op_stack], [out], [stack]) are
    lists with the top first whose capacity is checked at every write, so a
    write past the array is a [Fault]. *)

From stdpp Require Import base list strings gmap.
From Stdlib Require Import ZArith Lia.
From S2P Require Import Prelude.

(** ** Data *)

Inductive tst_op : Set :=
| TST_OP_NOT
| TST_OP_AND
| TST_OP_OR
| TST_OP_VAR
| TST_OP_LPAR
| TST_OP_RPAR.

#[export] Instance tst_op_eq_dec : EqDecision tst_op.
Proof. solve_decision. Defined.

(** The [priv] pointer of a token: an error message of the parser, or (in
    [tst_kconfig.c]) an entry of the variable array. *)
Inductive tok_priv : Set :=
| PNull
| PMsg (msg : string)
| PVar (v : nat).

Record tst_expr_tok : Set := mkTok {
  op : tst_op;
  tok : nat;
  tok_len : nat;
  next : option nat;
  priv : tok_priv
}.

Record tst_expr : Set := mkExpr {
  rpn : option nat;
  buf : list tst_expr_tok
}.

(** ** Tokenizer *)
Section Tokenize.
Local Open Scope Z_scope.

Definition char_to_op (c : Z) : tst_op :=
  if c =? "("%ch then TST_OP_LPAR
  else if c =? ")"%ch then TST_OP_RPAR
  else if c =? "&"%ch then TST_OP_AND
  else if c =? "|"%ch then TST_OP_OR
  else if c =? "!"%ch then TST_OP_NOT
  else TST_OP_VAR.
End Tokenize.

(** [last] is [None] in the counting pass, else the tokens written so far. *)
Definition new_tok (expr : cstr) (last : option (list tst_expr_tok)) (t len : nat)
    : option (list tst_expr_tok) * nat :=
  if Nat.eqb len 0 then (last, 0)
  else match last with
       | None => (None, 1)
       | Some l => (Some (l ++ [mkTok (char_to_op (at_ expr t)) t len None PNull]), 1)
       end.

Definition is_op_char (c : Z) : bool :=
  bool_decide (c = "("%ch \/ c = ")"%ch \/ c = "!"%ch \/ c = "&"%ch \/ c = "|"%ch).
Definition is_blank (c : Z) : bool := bool_decide (c = TAB \/ c = " "%ch).

(** Number of characters before the next double quote or the end. *)
Fixpoint until_quote (s : cstr) : nat :=
  match s with
  | [] => 0
  | c :: s' => if bool_decide (c = DQUOTE) then 0 else S (until_quote s')
  end.

(** The [for] loop of [tokenize] at index [i]; [s] is the string from [i] on.
    [skip] counts the characters the inner [while] of the quote case has
    already stepped over. *)
Fixpoint tokenize_loop (expr s : cstr) (i j skip : nat)
    (last : option (list tst_expr_tok)) (cnt : nat)
    : nat * nat * option (list tst_expr_tok) * nat :=
  match s with
  | [] => (i, j, last, cnt)
  | c :: s' =>
      match skip with
      | S k => tokenize_loop expr s' (S i) j k last cnt
      | O =>
          if is_op_char c then
            let '(last1, n1) := new_tok expr last j (i - j) in
            let '(last2, n2) := new_tok expr last1 i 1 in
            tokenize_loop expr s' (S i) (S i) 0 last2 (cnt + n1 + n2)
          else if is_blank c then
            let '(last1, n1) := new_tok expr last j (i - j) in
            tokenize_loop expr s' (S i) (S i) 0 last1 (cnt + n1)
          else if bool_decide (c = DQUOTE) then
            let k := until_quote s' in
            let k' := if bool_decide (at_ s' k = DQUOTE) then S k else k in
            tokenize_loop expr s' (S i) j k' last cnt
          else tokenize_loop expr s' (S i) j 0 last cnt
      end
  end.

Definition tokenize (expr : cstr) (last : option (list tst_expr_tok))
    : option (list tst_expr_tok) * nat :=
  let '(i, j, last1, cnt) := tokenize_loop expr expr 0 0 0 last 0 in
  let '(last2, n) := new_tok expr last1 j (i - j) in
  (last2, cnt + n).

(** ** Shunting yard *)

Definition stack_push {A} (cap : nat) (stack : list A) (x : A) : option (list A) :=
  if Nat.ltb (length stack) cap then Some (x :: stack) else None.

Definition stack_empty {A} (stack : list A) : bool := Nat.eqb (length stack) 0.

Definition stack_pop {A} (stack : list A) : option (A * list A) :=
  match stack with [] => None | x :: rest => Some (x, rest) end.

(** [None] is [TST_OP_NONE]. *)
Definition tok_op (b : list tst_expr_tok) (i : nat) : option tst_op := op <$> b !! i.

Definition stack_peek_op (b : list tst_expr_tok) (stack : list nat) : option tst_op :=
  match stack with [] => None | i :: _ => tok_op b i end.

Definition check_one (o : option tst_op) : bool :=
  match o with
  | Some TST_OP_AND | Some TST_OP_OR | Some TST_OP_NOT | None | Some TST_OP_LPAR => false
  | _ => true
  end.

Definition check_two (o : option tst_op) : bool :=
  match o with
  | Some TST_OP_VAR | Some TST_OP_RPAR => true
  | _ => false
  end.

#[global] Arguments check_one : simpl never.
#[global] Arguments check_two : simpl never.

(** [goto err] with the token whose [priv] was set. *)
Definition sy_err : Set := nat * string.
Definition sy_state : Set := list nat * list nat.

Section ShuntingYard.
Context (b : list tst_expr_tok) (cnt : nat).

Definition push_out (out : list nat) (i : nat) : res sy_err (list nat) :=
  or_fault (stack_push (cnt + 1) out i).
Definition push_op (ops : list nat) (i : nat) : res sy_err (list nat) :=
  or_fault (stack_push cnt ops i).

(** [while (stack_peek_op(op_stack) == TST_OP_NOT) push(out, pop(op_stack))] *)
Fixpoint pop_nots (ops out : list nat) : res sy_err sy_state :=
  match ops with
  | o :: ops' =>
      if bool_decide (tok_op b o = Some TST_OP_NOT)
      then out' ← push_out out o; pop_nots ops' out'
      else Ok (ops, out)
  | [] => Ok (ops, out)
  end.

(** The [for (;;)] loop that pops everything till the left parenthesis. *)
Fixpoint pop_lpar (i : nat) (ops out : list nat) : res sy_err sy_state :=
  match ops with
  | [] => Err (i, "Missing (")
  | o :: ops' =>
      if bool_decide (tok_op b o = Some TST_OP_LPAR) then Ok (ops', out)
      else out' ← push_out out o; pop_lpar i ops' out'
  end.

Definition sy_step (i : nat) (o : tst_op) (prev : option tst_op) (st : sy_state)
    : res sy_err sy_state :=
  let '(ops, out) := st in
  match o with
  | TST_OP_VAR =>
      if check_one prev then Err (i, "Expected operation")
      else out' ← push_out out i; pop_nots ops out'
  | TST_OP_LPAR =>
      if check_one prev then Err (i, "Expected operation")
      else ops' ← push_op ops i; Ok (ops', out)
  | TST_OP_RPAR =>
      if negb (check_two prev) then Err (i, "Expected variable or )")
      else '(ops', out') ← pop_lpar i ops out; pop_nots ops' out'
  | TST_OP_NOT =>
      if check_one prev then Err (i, "Expected operation")
      else ops' ← push_op ops i; Ok (ops', out)
  | TST_OP_AND | TST_OP_OR =>
      if negb (check_two prev) then Err (i, "Expected variable or (")
      else
        '(ops', out') ←
          match stack_peek_op b ops with
          | Some TST_OP_AND | Some TST_OP_OR =>
              match stack_pop ops with
              | Some (t, rest) => out' ← push_out out t; Ok (rest, out')
              | None => Ok (ops, out)
              end
          | _ => Ok (ops, out)
          end;
        ops'' ← push_op ops' i; Ok (ops'', out')
  end.

(** The main loop over the tokens [ts], the first of which has index [i]. *)
Fixpoint sy_loop (ts : list tst_op) (i : nat) (prev : option tst_op) (st : sy_state)
    : res sy_err sy_state :=
  match ts with
  | [] => Ok st
  | o :: ts' => st' ← sy_step i o prev st; sy_loop ts' (S i) (Some o) st'
  end.

(** [while ((i = stack_pop(op_stack)))]: the remaining operations. *)
Fixpoint pop_remaining (ops out : list nat) : res sy_err (list nat) :=
  match ops with
  | [] => Ok out
  | o :: ops' =>
      if bool_decide (tok_op b o = Some TST_OP_LPAR) then Err (o, "Missing )")
      else out' ← push_out out o; pop_remaining ops' out'
  end.
End ShuntingYard.

Definition set_next (n : option nat) (t : tst_expr_tok) : tst_expr_tok :=
  mkTok (op t) (tok t) (tok_len t) n (priv t).
Definition set_priv (p : tok_priv) (t : tst_expr_tok) : tst_expr_tok :=
  mkTok (op t) (tok t) (tok_len t) (next t) p.

(** [for (j = 0; j < out_pos; j++) out[j]->next = out[j + 1]] *)
Fixpoint link_out (b : list tst_expr_tok) (out : list nat) : list tst_expr_tok :=
  match out with
  | [] => b
  | x :: rest => link_out (alter (set_next (head rest)) x b) rest
  end.

(** The whole function: on success the linked expression, on error the token
    array with the message stored in the offending token. *)
Definition shunting_yard (b : list tst_expr_tok) (cnt : nat)
    : res (list tst_expr_tok) tst_expr :=
  let r :=
    '(ops, out) ← sy_loop b cnt (op <$> b) 0 None ([], []);
    if negb (check_two (tok_op b (cnt - 1)))
    then Err (cnt - 1, "Unfinished expression")
    else
      out' ← pop_remaining b cnt ops out;
      if Nat.ltb (length out') (cnt + 1) then Ok out' else Fault in
  match r with
  | Ok out' => Ok (mkExpr (head (rev out')) (link_out b (rev out')))
  | Err (i, msg) => Err (alter (set_priv (PMsg msg)) i b)
  | Fault => Fault
  end.

(** ** Error report *)

Definition print_spaces (n : nat) : cstr := replicate n " "%ch.

Fixpoint find_priv (b : list tst_expr_tok) : option (tst_expr_tok * string) :=
  match b with
  | [] => None
  | t :: b' => match priv t with PMsg m => Some (t, m) | _ => find_priv b' end
  end.

(** What is written to [f]; [None] is the read of [buf[cnt]] past the end. *)
Definition tst_bool_expr_err (expr : cstr) (b : list tst_expr_tok) : option cstr :=
  t0 ← head b;
  '(t, err) ← find_priv b;
  let spaces := tok t - tok t0 in
  let err_len := length (str err) in
  Some (drop (tok t0) expr ++ [NEWLINE] ++ print_spaces spaces ++ ["^"%ch; NEWLINE]
        ++ (if Nat.ltb err_len spaces then print_spaces (spaces - err_len + 1) else [])
        ++ str err ++ [NEWLINE]).

(** ** Parsing a string

    [None] is the NULL result, with what was printed to stderr. [malloc_ok]
    says whether the allocation succeeds. *)
Definition tst_bool_expr_parse (malloc_ok : bool) (expr : cstr)
    : res unit (option tst_expr * cstr) :=
  let '(_, tok_cnt) := tokenize expr None in
  if Nat.eqb tok_cnt 0 then Ok (None, [])
  else if negb malloc_ok then Ok (None, [])
  else
    match fst (tokenize expr (Some [])) with
    | None => Fault
    | Some b =>
        match shunting_yard b tok_cnt with
        | Ok e => Ok (Some e, [])
        | Err b' => msg ← or_fault (tst_bool_expr_err expr b'); Ok (None, msg)
        | Fault => Fault
        end
    end.

(** ** Evaluation *)
Section Eval.
Local Open Scope Z_scope.

Definition MAX_STACK : nat := 16.

Definition c_bool (b : bool) : Z := if b then 1 else 0.
Definition c_true (z : Z) : bool := negb (z =? 0).

(** One iteration: [inl] is the [return] inside the loop. *)
Definition eval_step (map : tst_expr_tok -> Z) (t : tst_expr_tok) (stack : list Z)
    : res unit (Z + list Z) :=
  match op t with
  | TST_OP_NOT =>
      match stack with
      | x :: st => Ok (inr (c_bool (negb (c_true x)) :: st))
      | [] => Fault
      end
  | TST_OP_OR =>
      match stack with
      | x :: y :: st => Ok (inr (c_bool (c_true x || c_true y) :: st))
      | _ => Fault
      end
  | TST_OP_AND =>
      match stack with
      | x :: y :: st => Ok (inr (c_bool (c_true x && c_true y) :: st))
      | _ => Fault
      end
  | TST_OP_VAR =>
      if Nat.leb MAX_STACK (length stack) then Ok (inl (-1))
      else
        let v := map t in
        if v =? -1 then Ok (inl (-1)) else Ok (inr (v :: stack))
  | _ => Ok (inr stack)
  end.

(** The walk over the [next] links; it visits at most one token per entry of
    [buf] unless the links form a cycle, which is reported as [Fault]. *)
Fixpoint eval_loop (fuel : nat) (b : list tst_expr_tok) (map : tst_expr_tok -> Z)
    (i : option nat) (stack : list Z) : res unit Z :=
  match i with
  | None => or_fault (last stack)
  | Some k =>
      match fuel with
      | O => Fault
      | S fuel' =>
          t ← or_fault (b !! k);
          r ← eval_step map t stack;
          match r with
          | inl v => Ok v
          | inr stack' => eval_loop fuel' b map (next t) stack'
          end
      end
  end.

Definition tst_bool_expr_eval (e : tst_expr) (map : tst_expr_tok -> Z) : res unit Z :=
  eval_loop (length (buf e)) (buf e) map (rpn e) [].

(** [tst_bool_expr_print]: the tokens in postfix order, separated by a space. *)
Fixpoint print_loop (fuel : nat) (expr : cstr) (b : list tst_expr_tok) (i : option nat)
    : res unit cstr :=
  match i with
  | None => Ok []
  | Some k =>
      match fuel with
      | O => Fault
      | S fuel' =>
          t ← or_fault (b !! k);
          rest ← print_loop fuel' expr b (next t);
          Ok (take (tok_len t) (drop (tok t) expr)
              ++ (match next t with Some _ => [" "%ch] | None => [] end) ++ rest)
      end
  end.

Definition tst_bool_expr_print (expr : cstr) (e : tst_expr) : res unit cstr :=
  print_loop (length (buf e)) expr (buf e) (rpn e).
End Eval.

Example parse_ex1 :
  (r ← tst_bool_expr_parse true (str "(A | !B) & C");
   match fst r with
   | Some e => tst_bool_expr_print (str "(A | !B) & C") e
   | None => Err () end) = Ok (str "A B ! | C &").
Proof. vm_compute. reflexivity. Qed.

(** ** The grammar

    [E ::= F | E & F | E | F] and [F ::= variable | ! F | ( E )]: both binary
    operators have the same precedence and associate to the left. *)
Inductive bexp : Set :=
| BVar
| BNot (e : bexp)
| BPar (e : bexp)
| BBin (conj : bool) (a b : bexp).

Definition bin_op (conj : bool) : tst_op := if conj then TST_OP_AND else TST_OP_OR.

Definition factor (e : bexp) : bool := match e with BBin _ _ _ => false | _ => true end.

Fixpoint wf_bexp (e : bexp) : bool :=
  match e with
  | BVar => true
  | BNot e' => factor e' && wf_bexp e'
  | BPar e' => wf_bexp e'
  | BBin _ a b => wf_bexp a && factor b && wf_bexp b
  end.

Fixpoint toks (e : bexp) : list tst_op :=
  match e with
  | BVar => [TST_OP_VAR]
  | BNot e' => TST_OP_NOT :: toks e'
  | BPar e' => TST_OP_LPAR :: toks e' ++ [TST_OP_RPAR]
  | BBin c a b => toks a ++ bin_op c :: toks b
  end.

(** Postfix order as indices of tokens, [e] starting at index [k]; [body] is
    the part the loop has emitted when [e] was read, [pend] the operator that
    is still on the stack. *)
Fixpoint postfix (k : nat) (e : bexp) : list nat :=
  match e with
  | BVar => [k]
  | BNot e' => postfix (S k) e' ++ [k]
  | BPar e' => postfix (S k) e'
  | BBin _ a b => postfix k a ++ postfix (S (k + length (toks a))) b ++ [k + length (toks a)]
  end.

Definition pend (k : nat) (e : bexp) : list nat :=
  match e with BBin _ a _ => [k + length (toks a)] | _ => [] end.
Definition body (k : nat) (e : bexp) : list nat :=
  match e with
  | BBin _ a b => postfix k a ++ postfix (S (k + length (toks a))) b
  | _ => postfix k e
  end.

Lemma body_pend k e : postfix k e = body k e ++ pend k e.
Proof. destruct e; simpl; by rewrite ?app_nil_r, <-?app_assoc. Qed.

Lemma length_postfix k e : length (postfix k e) <= length (toks e).
Proof.
  revert k. induction e as [|e IH|e IH|c a IHa e IHe]; intros k; simpl;
    rewrite ?length_app; simpl.
  - lia.
  - specialize (IH (S k)). lia.
  - specialize (IH (S k)). lia.
  - specialize (IHa k). specialize (IHe (S (k + length (toks a)))). lia.
Qed.

Lemma postfix_range k e x : x ∈ postfix k e -> k <= x < k + length (toks e).
Proof.
  revert k x. induction e as [|e IH|e IH|c a IHa e IHe]; intros k x; simpl;
    rewrite ?length_app, ?elem_of_app, ?list_elem_of_singleton; simpl; rewrite ?length_app.
  - lia.
  - intros [H| ->]; [apply IH in H|]; simpl; lia.
  - intros H%IH. simpl. lia.
  - intros [H|[H| ->]]; [apply IHa in H|apply IHe in H|]; lia.
Qed.

Lemma postfix_NoDup k e : NoDup (postfix k e).
Proof.
  revert k. induction e as [|e IH|e IH|c a IHa e IHe]; intros k; simpl.
  - apply NoDup_singleton.
  - apply NoDup_app. split_and!; [done| |apply NoDup_singleton].
    intros x H%postfix_range. rewrite list_elem_of_singleton. lia.
  - done.
  - apply NoDup_app. split_and!; [done| |apply NoDup_app; split_and!; [done| |apply NoDup_singleton]].
    + intros x H%postfix_range. rewrite elem_of_app, list_elem_of_singleton.
      intros [H'%postfix_range| ->]; lia.
    + intros x H%postfix_range. rewrite list_elem_of_singleton. lia.
Qed.

(** ** Completeness of the shunting yard *)
Lemma push_ok cap (st : list nat) x : length st < cap -> stack_push cap st x = Some (x :: st).
Proof. intros H. unfold stack_push. destruct (Nat.ltb_spec (length st) cap); [done|lia]. Qed.

Section Completeness.
Context (b : list tst_expr_tok) (cnt : nat).

Definition is_not (i : nat) : Prop := tok_op b i = Some TST_OP_NOT.

(** [nots ops]: the negations on top of the stack; [denot ops]: the rest. *)
Fixpoint nots (ops : list nat) : list nat :=
  match ops with
  | o :: ops' => if bool_decide (tok_op b o = Some TST_OP_NOT) then o :: nots ops' else []
  | [] => []
  end.
Fixpoint denot (ops : list nat) : list nat :=
  match ops with
  | o :: ops' => if bool_decide (tok_op b o = Some TST_OP_NOT) then denot ops' else ops
  | [] => []
  end.

Lemma nots_denot ops : nots ops ++ denot ops = ops.
Proof. induction ops as [|o ops IH]; [done|]. simpl. case_bool_decide; simpl; congruence. Qed.

Lemma pop_nots_ok ops out :
  length out + length (nots ops) <= cnt ->
  pop_nots b cnt ops out = Ok (denot ops, rev (nots ops) ++ out).
Proof.
  revert out. induction ops as [|o ops IH]; intros out Hl; simpl in *; [done|].
  case_bool_decide; [|done]. simpl in *.
  unfold push_out. rewrite push_ok by lia. simpl.
  rewrite IH by (simpl; lia). by rewrite <-app_assoc.
Qed.

(** The top of the stack when an expression starts: empty or a parenthesis. *)
Definition fresh (ops : list nat) : Prop :=
  stack_peek_op b ops = None \/ stack_peek_op b ops = Some TST_OP_LPAR.

Lemma nots_fresh ops : fresh ops -> nots ops = [] /\ denot ops = ops.
Proof.
  intros H. destruct ops as [|o ops]; [done|]. simpl.
  case_bool_decide; [|done]. unfold fresh in H. simpl in H. destruct H; congruence.
Qed.

Definition at_toks (k : nat) (ts : list tst_op) : Prop :=
  forall i o, ts !! i = Some o -> tok_op b (k + i) = Some o.

Lemma at_toks_app k ts us :
  at_toks k (ts ++ us) <-> at_toks k ts /\ at_toks (k + length ts) us.
Proof.
  unfold at_toks. split.
  - intros H. split; intros i o Hi.
    + apply H. by apply lookup_app_l_Some.
    + rewrite <-Nat.add_assoc. apply H. rewrite lookup_app_r by lia.
      rewrite <-Hi. f_equal. lia.
  - intros [H1 H2] i o [Hi|[Hle Hi]]%lookup_app_Some; [by apply H1|].
    specialize (H2 _ _ Hi). rewrite <-H2. f_equal. lia.
Qed.

Lemma at_toks_cons k o ts :
  at_toks k (o :: ts) <-> tok_op b k = Some o /\ at_toks (S k) ts.
Proof.
  change (o :: ts) with ([o] ++ ts). rewrite at_toks_app. simpl.
  replace (k + 1) with (S k) by lia. split; intros [H1 H2]; split; try done.
  - rewrite <-(H1 0 o) by done. f_equal. lia.
  - intros i o' Hi. destruct i; [|done]. simplify_eq/=. rewrite <-H1. f_equal. lia.
Qed.

Lemma toks_nonempty e : toks e <> [].
Proof. destruct e; simpl; try done. by intros [_ ?]%app_nil. Qed.

Lemma check_two_last e : check_two (last (toks e)) = true.
Proof.
  induction e as [|e IH|e IH|c a IHa e IHe]; cbn [toks]; [done| | |].
  - rewrite last_cons. by destruct (last (toks e)).
  - by rewrite app_comm_cons, last_snoc.
  - rewrite last_app, last_cons. by destruct (last (toks e)).
Qed.

(** What reading [e] does to the state, from a state where an operand may
    start: a factor also releases the negations below it. *)
Definition reads_factor (e : bexp) : Prop :=
  forall k rest prev ops out, at_toks k (toks e) -> check_one prev = false ->
    length ops + length out <= k -> k + length (toks e) <= cnt ->
    exists p, check_two (Some p) = true /\
      sy_loop b cnt (toks e ++ rest) k prev (ops, out)
      = sy_loop b cnt rest (k + length (toks e)) (Some p)
          (denot ops, rev (nots ops) ++ rev (postfix k e) ++ out).

Definition reads_chain (e : bexp) : Prop :=
  forall k rest prev ops out, at_toks k (toks e) -> check_one prev = false ->
    fresh ops -> length ops + length out <= k -> k + length (toks e) <= cnt ->
    exists p, check_two (Some p) = true /\
      sy_loop b cnt (toks e ++ rest) k prev (ops, out)
      = sy_loop b cnt rest (k + length (toks e)) (Some p)
          (pend k e ++ ops, rev (body k e) ++ out).

Lemma factor_chain e : factor e = true -> reads_factor e -> reads_chain e.
Proof.
  intros He H k rest prev ops out Hat Hprev Hfresh Hl Hc.
  destruct (nots_fresh ops Hfresh) as [Hn Hd].
  destruct (H k rest prev ops out Hat Hprev Hl Hc) as (p & Hp & Heq).
  exists p. split; [done|]. rewrite Heq, Hn, Hd.
  by destruct e.
Qed.

Lemma length_nots ops : length (nots ops) <= length ops.
Proof. rewrite <-(nots_denot ops) at 2. rewrite length_app. lia. Qed.

Lemma reads_BVar : reads_factor BVar.
Proof.
  intros k rest prev ops out Hat Hprev Hl Hc. simpl in *.
  exists TST_OP_VAR. split; [done|]. rewrite Hprev.
  pose proof (length_nots ops). unfold push_out. rewrite push_ok by lia. simpl.
  rewrite pop_nots_ok by (simpl; lia). simpl. by replace (k + 1) with (S k) by lia.
Qed.

Lemma reads_BNot e : reads_factor e -> reads_factor (BNot e).
Proof.
  intros IH k rest prev ops out [Hk Hat]%at_toks_cons Hprev Hl Hc. simpl in *.
  rewrite Hprev. unfold push_op. rewrite push_ok by lia. simpl.
  destruct (IH (S k) rest (Some TST_OP_NOT) (k :: ops) out) as (p & Hp & Heq);
    [done|done|simpl; lia|lia|].
  exists p. split; [done|]. rewrite Heq. simpl. rewrite Hk, bool_decide_true by done.
  simpl. rewrite !rev_app_distr. simpl. rewrite <-!app_assoc. simpl. by rewrite Nat.add_succ_r.
Qed.

Lemma pop_lpar_ok i k ops out p :
  tok_op b k = Some TST_OP_LPAR -> Forall (fun x => tok_op b x <> Some TST_OP_LPAR) p ->
  length p + length out <= cnt ->
  pop_lpar b cnt i (p ++ k :: ops) out = Ok (ops, rev p ++ out).
Proof.
  intros Hk Hp. revert out. induction p as [|x p IH]; intros out Hl; simpl in *.
  - by rewrite bool_decide_true.
  - apply Forall_cons in Hp as [Hx Hp]. rewrite bool_decide_false by done.
    unfold push_out. rewrite push_ok by lia. simpl.
    rewrite IH by (done || simpl; lia). by rewrite <-app_assoc.
Qed.

(** The pending operator of an expression is the binary operator's token. *)
Lemma pend_op k e x : at_toks k (toks e) -> x ∈ pend k e ->
  exists c a e', e = BBin c a e' /\ x = k + length (toks a) /\ tok_op b x = Some (bin_op c).
Proof.
  intros Hat. destruct e as [| | |c a e']; simpl; try (by intros ?%not_elem_of_nil).
  intros ->%list_elem_of_singleton.
  apply at_toks_app in Hat as [_ [Hop _]%at_toks_cons]. eauto 10.
Qed.

Lemma bin_op_not_par c : bin_op c <> TST_OP_LPAR /\ bin_op c <> TST_OP_NOT.
Proof. by destruct c. Qed.

Lemma length_body k e : length (pend k e) + length (body k e) <= length (toks e).
Proof.
  pose proof (length_postfix k e) as H. rewrite body_pend, length_app in H. lia.
Qed.

Lemma reads_BPar e : reads_chain e -> reads_factor (BPar e).
Proof.
  intros IH k rest prev ops out Hat Hprev Hl Hc. cbn [toks] in *.
  rewrite app_comm_cons in Hat. apply at_toks_app in Hat as [[Hk Hat]%at_toks_cons Hr].
  rewrite <-app_comm_cons, <-app_assoc. simpl in *. rewrite length_app in *. simpl in *.
  rewrite Hprev. unfold push_op. rewrite push_ok by lia. simpl.
  destruct (IH (S k) (TST_OP_RPAR :: rest) (Some TST_OP_LPAR) (k :: ops) out)
    as (p & Hp & Heq); [done|done|by right|simpl; lia|lia|].
  exists TST_OP_RPAR. split; [done|]. rewrite Heq. simpl. rewrite Hp. simpl.
  pose proof (length_body (S k) e). pose proof (length_nots ops).
  rewrite pop_lpar_ok; [|done| |rewrite length_app, length_rev; lia].
  - simpl. rewrite pop_nots_ok by (rewrite !length_app, !length_rev; lia). simpl.
    rewrite body_pend, rev_app_distr, <-!app_assoc. f_equal. lia.
  - apply Forall_forall. intros x (c & a & e' & _ & _ & Hx)%pend_op; [|done].
    destruct (bin_op_not_par c). congruence.
Qed.

Lemma sy_step_bin c i prev ops out : check_two prev = true ->
  sy_step b cnt i (bin_op c) prev (ops, out)
  = '(ops', out') ←
      match stack_peek_op b ops with
      | Some TST_OP_AND | Some TST_OP_OR =>
          match stack_pop ops with
          | Some (t, rest) => out' ← push_out cnt out t; Ok (rest, out')
          | None => Ok (ops, out)
          end
      | _ => Ok (ops, out)
      end;
    ops'' ← push_op cnt ops' i; Ok (ops'', out').
Proof. intros H. destruct c; simpl; rewrite H; done. Qed.

Lemma reads_BBin c a e : reads_chain a -> reads_factor e -> reads_chain (BBin c a e).
Proof.
  intros IHa IHe k rest prev ops out Hat Hprev Hfresh Hl Hc. cbn [toks] in *.
  apply at_toks_app in Hat as [Ha [Hop He]%at_toks_cons].
  rewrite <-app_assoc. rewrite length_app in *. simpl in *.
  destruct (IHa k (bin_op c :: toks e ++ rest) prev ops out) as (p & Hp & Heq);
    [done|done|done|lia|lia|]. rewrite Heq. clear Heq.
  set (o := k + length (toks a)) in *.
  pose proof (length_body k a) as Hlen.
  assert (Hstep : sy_step b cnt o (bin_op c) (Some p) (pend k a ++ ops, rev (body k a) ++ out)
                  = Ok (o :: ops, rev (postfix k a) ++ out)).
  { assert (Hpush : push_op cnt ops o = Ok (o :: ops)) by (unfold push_op; rewrite push_ok by lia; done).
    rewrite body_pend, rev_app_distr, <-app_assoc.
    rewrite sy_step_bin by done.
    destruct a as [| | |ca a1 a2];
      [destruct Hfresh as [Hf|Hf]; simpl; rewrite Hf; simpl; rewrite Hpush; done..|].
    destruct (pend_op k (BBin ca a1 a2) (k + length (toks a1)) Ha) as (? & ? & ? & Heq' & _ & Ho);
      [by left|]. injection Heq' as <- <- <-.
    assert (Hpo : push_out cnt (rev (body k (BBin ca a1 a2)) ++ out) (k + length (toks a1))
                  = Ok ((k + length (toks a1)) :: rev (body k (BBin ca a1 a2)) ++ out)).
    { unfold push_out. rewrite push_ok; [done|]. rewrite length_app, length_rev. lia. }
    cbn [pend app stack_peek_op stack_pop]. rewrite Ho, Hpo. simpl.
    destruct ca; simpl; rewrite Hpush; done. }
  cbn [sy_loop]. rewrite Hstep. simpl.
  pose proof (length_postfix k a).
  destruct (IHe (S o) rest (Some (bin_op c)) (o :: ops) (rev (postfix k a) ++ out))
    as (q & Hq & Heq); [done|by destruct c|simpl; rewrite length_app, length_rev; lia|lia|].
  exists q. split; [done|]. rewrite Heq. simpl. rewrite Hop.
  destruct (bin_op_not_par c). rewrite bool_decide_false by congruence. simpl.
  rewrite rev_app_distr, <-app_assoc. f_equal. lia.
Qed.

Lemma reads_wf e : wf_bexp e = true -> (factor e = true -> reads_factor e) /\ reads_chain e.
Proof.
  induction e as [|e IH|e IH|c a IHa e IHe]; simpl; intros Hwf.
  - split; [intros _; apply reads_BVar|]. apply factor_chain, reads_BVar. done.
  - apply andb_prop in Hwf as [Hf Hwf]. destruct (IH Hwf) as [H _].
    specialize (reads_BNot e (H Hf)). auto using factor_chain.
  - destruct (IH Hwf) as [_ H]. specialize (reads_BPar e H). auto using factor_chain.
  - apply andb_prop in Hwf as [[Hwa Hf]%andb_prop Hwe]. split; [done|].
    apply reads_BBin; [by apply IHa|by apply IHe].
Qed.
End Completeness.

Lemma pop_remaining_ok b cnt ops out :
  Forall (fun x => tok_op b x <> Some TST_OP_LPAR) ops -> length ops + length out <= cnt ->
  pop_remaining b cnt ops out = Ok (rev ops ++ out).
Proof.
  intros Hf. revert out. induction Hf as [|x ops Hx Hf IH]; intros out Hl; simpl in *; [done|].
  rewrite bool_decide_false by done. unfold push_out. rewrite push_ok by lia. simpl.
  rewrite IH by (simpl; lia). by rewrite <-app_assoc.
Qed.

Lemma at_toks_self b : at_toks b 0 (op <$> b).
Proof. intros i o H. unfold tok_op. by rewrite <-list_lookup_fmap. Qed.

Lemma shunting_yard_complete b e :
  wf_bexp e = true -> op <$> b = toks e ->
  shunting_yard b (length b)
  = Ok (mkExpr (head (postfix 0 e)) (link_out b (postfix 0 e))).
Proof.
  intros Hwf Hb. pose proof (at_toks_self b) as Hat. rewrite Hb in Hat.
  assert (Hlen : length b = length (toks e)) by (by rewrite <-Hb, length_fmap).
  destruct (reads_wf b (length b) e Hwf) as [_ Hc].
  destruct (Hc 0 [] None [] []) as (p & Hp & Heq); [done|done|by left|done|lia|].
  unfold shunting_yard. rewrite app_nil_r in Heq. rewrite Hb, Heq. simpl.
  replace (tok_op b (length b - 1)) with (last (toks e)).
  2:{ rewrite last_lookup, <-Hb, list_lookup_fmap, length_fmap.
      unfold tok_op. by rewrite Nat.sub_1_r. }
  rewrite check_two_last. simpl. rewrite !app_nil_r.
  pose proof (length_body 0 e) as Hbody.
  rewrite pop_remaining_ok; [|apply Forall_forall|rewrite length_rev; lia].
  - simpl. rewrite <-rev_app_distr, <-body_pend, length_rev.
    pose proof (length_postfix 0 e).
    destruct (Nat.ltb_spec (length (postfix 0 e)) (length b + 1)); [|lia].
    by rewrite rev_involutive.
  - intros x (c & a & e' & _ & _ & Hx)%(pend_op b); [|done].
    destruct (bin_op_not_par c). congruence.
Qed.

(** ** Soundness: only token sequences of the grammar are accepted

    A level is what has been read since the last open parenthesis while an
    operand is expected: the left operand with its operator, if any, and the
    negations after it. *)
Record level : Set := mkLevel { acc : option (bexp * bool); neg : nat }.

Definition acc_stk (L : level) : list tst_op :=
  match acc L with Some (_, c) => [bin_op c] | None => [] end.
Definition stk (L : level) : list tst_op := replicate (neg L) TST_OP_NOT ++ acc_stk L.
Definition level_toks (L : level) : list tst_op :=
  match acc L with Some (a, c) => toks a ++ [bin_op c] | None => [] end
  ++ replicate (neg L) TST_OP_NOT.
Definition wf_level (L : level) : Prop :=
  match acc L with Some (a, _) => wf_bexp a = true | None => True end.

Fixpoint outer_toks (Ls : list level) : list tst_op :=
  match Ls with [] => [] | L :: r => outer_toks r ++ level_toks L ++ [TST_OP_LPAR] end.
Fixpoint outer_stk (Ls : list level) : list tst_op :=
  match Ls with [] => [] | L :: r => TST_OP_LPAR :: stk L ++ outer_stk r end.

Definition pend_ops (e : bexp) : list tst_op :=
  match e with BBin c _ _ => [bin_op c] | _ => [] end.

(** The level completed by a factor. *)
Definition close (L : level) (f : bexp) : bexp :=
  let f' := Nat.iter (neg L) BNot f in
  match acc L with Some (a, c) => BBin c a f' | None => f' end.

Lemma iter_BNot n f : factor f = true -> wf_bexp f = true ->
  factor (Nat.iter n BNot f) = true /\ wf_bexp (Nat.iter n BNot f) = true
  /\ toks (Nat.iter n BNot f) = replicate n TST_OP_NOT ++ toks f.
Proof.
  intros Hf Hwf. induction n as [|n (IH1 & IH2 & IH3)]; [done|].
  simpl. by rewrite IH1, IH2, IH3.
Qed.

Lemma close_spec L f : wf_level L -> factor f = true -> wf_bexp f = true ->
  wf_bexp (close L f) = true /\ toks (close L f) = level_toks L ++ toks f
  /\ pend_ops (close L f) = acc_stk L.
Proof.
  intros HL Hf Hwf. destruct (iter_BNot (neg L) f Hf Hwf) as (H1 & H2 & H3).
  unfold close, level_toks, acc_stk, wf_level in *.
  destruct (acc L) as [[a c]|]; simpl; rewrite ?HL, ?H1, ?H2, H3, <-?app_assoc; [done|].
  split_and!; [done..|]. by destruct (Nat.iter (neg L) BNot f).
Qed.

(** The tokens read, the previous token and the operators on the stack. *)
Inductive sy_inv : list tst_op -> option tst_op -> list tst_op -> Prop :=
| inv_expect L Ls p : wf_level L -> Forall wf_level Ls -> check_two p = false ->
    sy_inv (outer_toks Ls ++ level_toks L) p (stk L ++ outer_stk Ls)
| inv_have e Ls p : wf_bexp e = true -> Forall wf_level Ls -> check_one p = true ->
    sy_inv (outer_toks Ls ++ toks e) p (pend_ops e ++ outer_stk Ls).

Section Soundness.
Context (b : list tst_expr_tok) (cnt : nat).

Definition stack_ops (ops : list nat) (l : list tst_op) : Prop := tok_op b <$> ops = Some <$> l.

Fixpoint drop_nots (l : list tst_op) : list tst_op :=
  match l with TST_OP_NOT :: l' => drop_nots l' | _ => l end.
Fixpoint after_lpar (l : list tst_op) : option (list tst_op) :=
  match l with [] => None | TST_OP_LPAR :: l' => Some l' | _ :: l' => after_lpar l' end.

Lemma stack_ops_cons o ops l : stack_ops (o :: ops) l ->
  exists x l', l = x :: l' /\ tok_op b o = Some x /\ stack_ops ops l'.
Proof.
  unfold stack_ops. destruct l as [|x l]; [done|]. intros [= H1 H2]. eauto.
Qed.

Lemma stack_ops_push i o ops l : tok_op b i = Some o -> stack_ops ops l -> stack_ops (i :: ops) (o :: l).
Proof. unfold stack_ops. intros H1 H2. rewrite !fmap_cons. congruence. Qed.

Lemma stack_push_Some cap (st : list nat) x st' : stack_push cap st x = Some st' -> st' = x :: st.
Proof. unfold stack_push. case_match; congruence. Qed.

Lemma pop_nots_stack ops l out ops' out' : stack_ops ops l ->
  pop_nots b cnt ops out = Ok (ops', out') -> stack_ops ops' (drop_nots l).
Proof.
  revert l out. induction ops as [|o ops IH]; intros l out Hs; simpl.
  - intros [= <- <-]. by destruct l as [|[]].
  - destruct (stack_ops_cons _ _ _ Hs) as (x & l' & -> & Hx & Hs').
    rewrite Hx. case_bool_decide as Hd.
    + injection Hd as ->. intros (out1 & _ & H)%bind_Ok. exact (IH _ _ Hs' H).
    + intros [= <- <-]. by destruct x.
Qed.

Lemma pop_lpar_stack i ops l out ops' out' : stack_ops ops l ->
  pop_lpar b cnt i ops out = Ok (ops', out') ->
  exists l', after_lpar l = Some l' /\ stack_ops ops' l'.
Proof.
  revert l out. induction ops as [|o ops IH]; intros l out Hs; simpl; [done|].
  destruct (stack_ops_cons _ _ _ Hs) as (x & l' & -> & Hx & Hs').
  rewrite Hx. case_bool_decide as Hd.
  - injection Hd as ->. intros [= <- <-]. eauto.
  - intros (out1 & _ & H)%bind_Ok. destruct (IH _ _ Hs' H) as (l2 & ? & ?).
    exists l2. split; [|done]. by destruct x.
Qed.

Lemma drop_nots_stk L Ls : drop_nots (stk L ++ outer_stk Ls) = acc_stk L ++ outer_stk Ls.
Proof.
  unfold stk. induction (neg L) as [|n IH]; simpl; [|done].
  unfold acc_stk. destruct (acc L) as [[a []]|]; simpl; [done..|]. by destruct Ls.
Qed.

Lemma sy_step_expect L Ls p i o ops out ops' out' :
  wf_level L -> Forall wf_level Ls -> check_two p = false ->
  stack_ops ops (stk L ++ outer_stk Ls) -> tok_op b i = Some o ->
  sy_step b cnt i o p (ops, out) = Ok (ops', out') ->
  exists l, sy_inv ((outer_toks Ls ++ level_toks L) ++ [o]) (Some o) l /\ stack_ops ops' l.
Proof.
  intros HL HLs Hp Hs Hi Hstep.
  destruct o; simpl in Hstep; rewrite ?Hp in Hstep; try (by destruct (check_one p));
    destruct (check_one p); try done; apply bind_Ok in Hstep as (r & Hr & Hstep).
  - (* ! *)
    simplify_eq/=. unfold push_op in Hr. destruct (stack_push _ _ _) eqn:E; simplify_eq/=.
    apply stack_push_Some in E as ->.
    exists (stk (mkLevel (acc L) (S (neg L))) ++ outer_stk Ls). split.
    + replace ((outer_toks Ls ++ level_toks L) ++ [TST_OP_NOT])
        with (outer_toks Ls ++ level_toks (mkLevel (acc L) (S (neg L)))); [by constructor|].
      unfold level_toks; simpl. rewrite <-!app_assoc. do 2 f_equal.
      change (TST_OP_NOT :: replicate (neg L) TST_OP_NOT) with (replicate (S (neg L)) TST_OP_NOT).
      by rewrite replicate_S_end.
    + by apply stack_ops_push.
  - (* variable *)
    exists (drop_nots (stk L ++ outer_stk Ls)). split; [|by eapply pop_nots_stack].
    destruct (close_spec L BVar HL eq_refl eq_refl) as (H1 & H2 & H3).
    rewrite drop_nots_stk, <-H3, <-app_assoc. change [TST_OP_VAR] with (toks BVar).
    rewrite <-H2. by constructor.
  - (* ( *)
    simplify_eq/=. unfold push_op in Hr. destruct (stack_push _ _ _) eqn:E; simplify_eq/=.
    apply stack_push_Some in E as ->.
    exists (stk (mkLevel None 0) ++ outer_stk (L :: Ls)). split.
    + replace ((outer_toks Ls ++ level_toks L) ++ [TST_OP_LPAR])
        with (outer_toks (L :: Ls) ++ level_toks (mkLevel None 0)); [by repeat constructor|].
      simpl. by rewrite app_nil_r, <-app_assoc.
    + by apply stack_ops_push.
Qed.

Lemma after_lpar_pend e Ls : after_lpar (pend_ops e ++ outer_stk Ls)
  = match Ls with [] => None | L :: r => Some (stk L ++ outer_stk r) end.
Proof. destruct Ls, e as [| | |[] ? ?]; done. Qed.

Lemma sy_step_have e Ls p i o ops out ops' out' :
  wf_bexp e = true -> Forall wf_level Ls -> check_one p = true ->
  stack_ops ops (pend_ops e ++ outer_stk Ls) -> tok_op b i = Some o ->
  sy_step b cnt i o p (ops, out) = Ok (ops', out') ->
  exists l, sy_inv ((outer_toks Ls ++ toks e) ++ [o]) (Some o) l /\ stack_ops ops' l.
Proof.
  intros He HLs Hp Hs Hi Hstep.
  assert (Hbin : forall c, o = bin_op c ->
            exists l, sy_inv ((outer_toks Ls ++ toks e) ++ [o]) (Some o) l /\ stack_ops ops' l).
  { intros c ->. destruct (check_two p) eqn:E2; [|by destruct c; simpl in Hstep; rewrite E2 in Hstep].
    rewrite sy_step_bin in Hstep by done.
    apply bind_Ok in Hstep as ([ops1 out1] & Hpop & (ops2 & Hpush & [= <- <-])%bind_Ok).
    unfold push_op in Hpush. destruct (stack_push _ _ _) eqn:E; simplify_eq/=.
    apply stack_push_Some in E as ->.
    exists (stk (mkLevel (Some (e, c)) 0) ++ outer_stk Ls). split.
    - replace ((outer_toks Ls ++ toks e) ++ [bin_op c])
        with (outer_toks Ls ++ level_toks (mkLevel (Some (e, c)) 0))
        by (unfold level_toks; simpl; by rewrite app_nil_r, <-app_assoc).
      constructor; [done..|by destruct c].
    - assert (Hs1 : stack_ops ops1 (outer_stk Ls)).
      { destruct e as [| | |ce a1 a2]; simpl in Hs.
        4:{ destruct ops as [|t ops]; [done|]. destruct (stack_ops_cons _ _ _ Hs) as (x & l' & [= <- <-] & Hx & Hs').
            simpl in Hpop. rewrite Hx in Hpop.
            destruct ce; simpl in Hpop; apply bind_Ok in Hpop as (? & _ & [= <- <-]); done. }
        all: assert (ops1 = ops) as ->; [|done].
        all: destruct ops as [|t ops]; [by injection Hpop|].
        all: destruct (stack_ops_cons _ _ _ Hs) as (x & l' & Hl & Hx & Hs').
        all: simpl in Hpop; rewrite Hx in Hpop; destruct Ls; simplify_eq/=; done. }
      by apply stack_ops_push. }
  destruct o; [|by apply (Hbin true)|by apply (Hbin false)| | |].
  1,2,3: simpl in Hstep; by rewrite Hp in Hstep.
  clear Hbin. simpl in Hstep. destruct (check_two p); [|done]. simpl in Hstep.
  apply bind_Ok in Hstep as ([ops1 out1] & Hpop & Hstep).
  destruct (pop_lpar_stack _ _ _ _ _ _ Hs Hpop) as (l' & Hl & Hs1).
  rewrite after_lpar_pend in Hl. destruct Ls as [|L Ls]; simplify_eq/=.
  apply Forall_cons in HLs as [HL HLs].
  exists (drop_nots (stk L ++ outer_stk Ls)). split; [|by eapply pop_nots_stack].
  destruct (close_spec L (BPar e) HL eq_refl He) as (H1 & H2 & H3).
  replace (((outer_toks Ls ++ level_toks L ++ [TST_OP_LPAR]) ++ toks e) ++ [TST_OP_RPAR])
    with (outer_toks Ls ++ toks (close L (BPar e))) by (rewrite H2; simpl; by rewrite <-!app_assoc).
  rewrite drop_nots_stk, <-H3. by constructor.
Qed.

Lemma sy_loop_inv ts : forall done p l i ops out ops' out',
  at_toks b i ts -> sy_inv done p l -> stack_ops ops l ->
  sy_loop b cnt ts i p (ops, out) = Ok (ops', out') ->
  exists p' l', sy_inv (done ++ ts) p' l' /\ stack_ops ops' l' /\
                p' = match last ts with Some o => Some o | None => p end.
Proof.
  induction ts as [|o ts IH]; intros d p l i ops out ops' out' Hat Hinv Hs.
  - intros [= <- <-]. rewrite app_nil_r. eauto.
  - apply at_toks_cons in Hat as [Ho Hat]. intros ([ops1 out1] & Hstep & Hloop)%bind_Ok.
    assert (exists l1, sy_inv (d ++ [o]) (Some o) l1 /\ stack_ops ops1 l1) as (l1 & Hinv1 & Hs1).
    { destruct Hinv; [by eapply sy_step_expect|by eapply sy_step_have]. }
    destruct (IH _ _ _ _ _ _ _ _ Hat Hinv1 Hs1 Hloop) as (p' & l' & H1 & H2 & ->).
    rewrite <-app_assoc in H1. do 2 eexists. split_and!; [done|done|].
    rewrite last_cons. by destruct (last ts).
Qed.

Lemma pop_remaining_stack ops l out out' : stack_ops ops l ->
  pop_remaining b cnt ops out = Ok out' -> TST_OP_LPAR ∉ l.
Proof.
  revert l out. induction ops as [|o ops IH]; intros l out Hs; simpl.
  - intros _. destruct l; [|done]. apply not_elem_of_nil.
  - destruct (stack_ops_cons _ _ _ Hs) as (x & l' & -> & Hx & Hs').
    rewrite Hx. case_bool_decide as Hd; [done|].
    intros (out1 & _ & H)%bind_Ok. apply not_elem_of_cons. split; [congruence|eauto].
Qed.
End Soundness.

Lemma shunting_yard_sound b ex :
  shunting_yard b (length b) = Ok ex ->
  exists e, wf_bexp e = true /\ op <$> b = toks e.
Proof.
  unfold shunting_yard.
  match goal with |- context [match ?r with Ok _ => _ | Err _ => _ | Fault => _ end] =>
    destruct r as [r'|[]|] eqn:Hr end; [|done..]. intros _.
  apply bind_Ok in Hr as ([ops out] & Hloop & Hr).
  destruct (check_two _) eqn:Hlast; [|done]. simpl in Hr.
  apply bind_Ok in Hr as (out' & Hpop & _).
  destruct (sy_loop_inv b (length b) (op <$> b) [] None [] 0 [] [] ops out)
    as (p & l & Hinv & Hs & Hp); [apply at_toks_self| |done|done|].
  { by apply (inv_expect (mkLevel None 0) []). }
  simpl in Hinv. pose proof (pop_remaining_stack _ _ _ _ _ _ Hs Hpop) as Hnp.
  assert (Hp2 : check_two p = true).
  { subst p. unfold tok_op in Hlast. rewrite last_lookup, list_lookup_fmap, length_fmap.
    rewrite <-Nat.sub_1_r. by destruct (b !! _). }
  inversion Hinv as [L Ls q HL HLs Hq E1 E2 E3|e Ls q He HLs Hq E1 E2 E3]; subst.
  - congruence.
  - destruct Ls as [|L Ls]; [by exists e|].
    destruct Hnp. simpl. rewrite !elem_of_app. right. by left.
Qed.

(** ** No access outside the local arrays *)
Section NoFault.
Context (b : list tst_expr_tok) (cnt : nat).

Definition sz (st : sy_state) : nat := length (fst st) + length (snd st).

(** [r] does not fault; on success the stacks hold at most [n] tokens, on error
    the token blamed satisfies [P]. *)
Definition bounded (P : nat -> Prop) (n : nat) (r : res sy_err sy_state) : Prop :=
  match r with Ok st => sz st <= n | Err (j, _) => P j | Fault => False end.

Lemma bounded_Ok P n ops out : length ops + length out <= n -> bounded P n (Ok (ops, out)).
Proof. done. Qed.

Lemma bounded_bind P n m r (k : sy_state -> res sy_err sy_state) :
  bounded P n r -> (forall st, sz st <= n -> bounded P m (k st)) -> bounded P m (r ≫= k).
Proof. destruct r as [st|[j msg]|]; simpl; auto. Qed.

Lemma pop_nots_bounded P n ops out : length ops + length out <= n -> n <= cnt ->
  bounded P n (pop_nots b cnt ops out).
Proof.
  intros Hn Hc. revert out Hn. induction ops as [|o ops IH]; intros out Hn; simpl in *; [done|].
  case_bool_decide; [|done]. unfold push_out. rewrite push_ok by lia. simpl. apply IH. simpl. lia.
Qed.

Lemma pop_lpar_bounded (P : nat -> Prop) i n ops out : length ops + length out <= n -> n <= cnt -> P i ->
  bounded P n (pop_lpar b cnt i ops out).
Proof.
  intros Hn Hc Hi. revert out Hn. induction ops as [|o ops IH]; intros out Hn; simpl in *; [done|].
  case_bool_decide; [apply bounded_Ok; lia|].
  unfold push_out. rewrite push_ok by lia. simpl. apply IH. simpl. lia.
Qed.

Lemma sy_step_bounded (P : nat -> Prop) i o prev st : sz st <= i -> i < cnt -> P i ->
  bounded P (S i) (sy_step b cnt i o prev st).
Proof.
  intros Hs Hi HP. destruct st as [ops out]. unfold sz in Hs. simpl in Hs.
  assert (Hpush : forall ops', length ops' <= length ops -> push_op cnt ops' i = Ok (i :: ops'))
    by (intros; unfold push_op; by rewrite push_ok by lia).
  assert (Hbin : forall c, bounded P (S i) (sy_step b cnt i (bin_op c) prev (ops, out))).
  { intros c. destruct (check_two prev) eqn:E; [|by destruct c; simpl; rewrite E].
    rewrite sy_step_bin by done. apply (bounded_bind P (length ops + length out)).
    - destruct ops as [|t ops]; [by apply bounded_Ok|]. simpl in *.
      destruct (tok_op b t) as [[]|]; try (by apply bounded_Ok; simpl; lia);
        unfold push_out; simpl; rewrite push_ok by lia; apply bounded_Ok; simpl; lia.
    - intros [ops' out'] Hs'. unfold sz in Hs'. simpl in Hs'.
      unfold push_op. rewrite push_ok by lia. apply bounded_Ok. simpl. lia. }
  destruct o; [|apply (Hbin true)|apply (Hbin false)| | |]; simpl; case_match; try done.
  - rewrite Hpush by done. apply bounded_Ok. simpl. lia.
  - unfold push_out. rewrite push_ok by lia. simpl. apply pop_nots_bounded; simpl; lia.
  - rewrite Hpush by done. apply bounded_Ok. simpl. lia.
  - apply (bounded_bind P (length ops + length out)).
    + apply pop_lpar_bounded; [lia|lia|done].
    + intros [ops' out'] Hs'. unfold sz in Hs'. simpl in Hs'. apply pop_nots_bounded; lia.
Qed.

Lemma sy_loop_bounded ts i prev st : sz st <= i -> i + length ts <= cnt ->
  bounded (fun j => j < cnt) (i + length ts) (sy_loop b cnt ts i prev st).
Proof.
  revert i prev st. induction ts as [|o ts IH]; intros i prev st Hs Hc; simpl in *; [lia|].
  apply (bounded_bind _ (S i)); [apply sy_step_bounded; lia|].
  intros st' Hs'. replace (i + S (length ts)) with (S i + length ts) by lia. apply IH; lia.
Qed.

Lemma pop_remaining_bounded ops out : length ops + length out <= cnt ->
  match pop_remaining b cnt ops out with
  | Ok out' => length out' <= cnt | Err (j, _) => j < length b | Fault => False end.
Proof.
  revert out. induction ops as [|o ops IH]; intros out Hn; simpl in *; [done|].
  case_bool_decide as E.
  - unfold tok_op in E. apply fmap_Some in E as (t & Ht & _). by eapply lookup_lt_Some.
  - unfold push_out. rewrite push_ok by lia. simpl. apply IH. simpl. lia.
Qed.
End NoFault.

Lemma shunting_yard_result b : b <> [] ->
  match shunting_yard b (length b) with
  | Ok _ => True
  | Err b' => exists i msg, i < length b /\ b' = alter (set_priv (PMsg msg)) i b
  | Fault => False
  end.
Proof.
  intros Hb. unfold shunting_yard.
  pose proof (sy_loop_bounded b (length b) (op <$> b) 0 None ([], [])) as H.
  rewrite length_fmap in H. specialize (H ltac:(done) ltac:(lia)).
  destruct (sy_loop _ _ _ _ _ _) as [[ops out]|[j msg]|]; simpl in *; [|eauto|done].
  destruct (check_two _); simpl.
  - pose proof (pop_remaining_bounded b (length b) ops out H) as H'.
    destruct (pop_remaining _ _ _ _) as [out'|[j msg]|]; simpl in *; [|eauto|done].
    by destruct (Nat.ltb_spec (length out') (length b + 1)); [|lia].
  - exists (length b - 1), "Unfinished expression". split; [|done]. destruct b; [done|]. simpl. lia.
Qed.

(** ** Walking the links *)
Lemma link_out_notin b out x : x ∉ out -> link_out b out !! x = b !! x.
Proof.
  revert b. induction out as [|y out IH]; intros b Hx; simpl; [done|].
  apply not_elem_of_cons in Hx as [Hne Hx]. rewrite IH by done.
  by rewrite list_lookup_alter_ne by congruence.
Qed.

Lemma length_link_out b out : length (link_out b out) = length b.
Proof.
  revert b. induction out as [|y out IH]; intros b; simpl; [done|]. by rewrite IH, length_alter.
Qed.

Lemma link_out_lookup b pre x out : NoDup (pre ++ x :: out) -> x < length b ->
  exists t, b !! x = Some t /\ link_out b (pre ++ x :: out) !! x = Some (set_next (head out) t).
Proof.
  revert b. induction pre as [|y pre IH]; intros b Hnd Hx; simpl in *.
  - apply NoDup_cons in Hnd as [Hni Hnd]. rewrite link_out_notin by done.
    rewrite list_lookup_alter_eq. destruct (lookup_lt_is_Some_2 b x Hx) as [t Ht].
    rewrite Ht. eauto.
  - apply NoDup_cons in Hnd as [Hni Hnd].
    destruct (IH (alter (set_next (head (pre ++ x :: out))) y b) Hnd) as (t & Ht & Hl);
      [by rewrite length_alter|].
    rewrite list_lookup_alter_ne in Ht; [eauto|].
    intros ->. apply Hni. rewrite elem_of_app. right. by left.
Qed.

Lemma link_out_op b out x : tok_op (link_out b out) x = tok_op b x.
Proof.
  revert b. induction out as [|y out IH]; intros b; simpl; [done|]. rewrite IH.
  unfold tok_op. destruct (decide (x = y)) as [->|Hne].
  - rewrite list_lookup_alter_eq. by destruct (b !! y).
  - by rewrite list_lookup_alter_ne by congruence.
Qed.

(** ** Meaning of an expression

    [v i] is the value the mapping function gives to the variable token [i]. *)
Section Meaning.
Local Open Scope Z_scope.
Context (v : nat -> Z).

Fixpoint sem (k : nat) (e : bexp) : Z :=
  match e with
  | BVar => v k
  | BNot e' => c_bool (negb (c_true (sem (S k) e')))
  | BPar e' => sem (S k) e'
  | BBin true a b =>
      c_bool (c_true (sem k a) && c_true (sem (S (k + length (toks a))) b))
  | BBin false a b =>
      c_bool (c_true (sem k a) || c_true (sem (S (k + length (toks a))) b))
  end.

Fixpoint vars (k : nat) (e : bexp) : list nat :=
  match e with
  | BVar => [k]
  | BNot e' | BPar e' => vars (S k) e'
  | BBin _ a b => vars k a ++ vars (S (k + length (toks a))) b
  end.

(** No variable is undefined. *)
Definition defined (k : nat) (e : bexp) : bool := forallb (fun i => negb (v i =? -1)) (vars k e).
End Meaning.

(** Number of stack entries the evaluation needs. *)
Fixpoint depth (e : bexp) : nat :=
  match e with
  | BVar => 1
  | BNot e' | BPar e' => depth e'
  | BBin _ a b => Nat.max (depth a) (S (depth b))
  end.

Section EvalCorrect.
Context (b : list tst_expr_tok) (map : tst_expr_tok -> Z).

Definition tok_val (i : nat) : Z := from_option map 0%Z (b !! i).

(** [eval_loop] along the list of visited tokens. *)
Fixpoint eval_list (l : list nat) (stack : list Z) : res unit Z :=
  match l with
  | [] => or_fault (last stack)
  | k :: l' =>
      t ← or_fault (b !! k);
      r ← eval_step map t stack;
      match r with inl v => Ok v | inr stack' => eval_list l' stack' end
  end.

Lemma eval_list_step k l stack t r : b !! k = Some t -> eval_step map t stack = Ok r ->
  eval_list (k :: l) stack = match r with inl v => Ok v | inr st => eval_list l st end.
Proof. intros H1 H2. cbn [eval_list]. rewrite H1. simpl. by rewrite H2. Qed.

Lemma tok_op_Some k o : tok_op b k = Some o -> exists t, b !! k = Some t /\ op t = o.
Proof. unfold tok_op. intros (t & Ht & ->)%fmap_Some. eauto. Qed.

Lemma eval_list_ok e : forall k rest stack,
  at_toks b k (toks e) -> defined tok_val k e = true -> length stack + depth e <= MAX_STACK ->
  eval_list (postfix k e ++ rest) stack = eval_list rest (sem tok_val k e :: stack).
Proof.
  induction e as [|e IH|e IH|c a IHa e IHe]; intros k rest stack Hat Hdef Hd.
  - apply at_toks_cons in Hat as [(t & Ht & Ho)%tok_op_Some _].
    unfold defined, tok_val in *. simpl in Hdef, Hd |- *. unfold tok_val. rewrite Ht in *. simpl in *.
    unfold eval_step. rewrite Ho. unfold MAX_STACK in *.
    destruct (Nat.leb_spec 16 (length stack)); [lia|].
    by destruct (Z.eqb_spec (map t) (-1)).
  - apply at_toks_cons in Hat as [(t & Ht & Ho)%tok_op_Some Hat].
    cbn [postfix]. rewrite <-app_assoc, IH by done. simpl app.
    erewrite eval_list_step; [|done|unfold eval_step; by rewrite Ho]. done.
  - apply at_toks_cons in Hat as [_ [Hat _]%at_toks_app]. cbn [postfix]. by rewrite IH.
  - cbn [toks] in Hat. apply at_toks_app in Hat as [Ha [(t & Ht & Ho)%tok_op_Some He]%at_toks_cons].
    unfold defined in Hdef. cbn [vars depth] in *. rewrite forallb_app in Hdef.
    apply andb_prop in Hdef as [Hda Hde].
    cbn [postfix]. rewrite <-!app_assoc, IHa by (done || lia). rewrite IHe by (done || simpl; lia).
    simpl app. destruct c; (erewrite eval_list_step; [|done|unfold eval_step; by rewrite Ho]);
      simpl; do 3 f_equal; [by rewrite andb_comm|by rewrite orb_comm].
Qed.

Lemma eval_list_abort e : forall k rest stack,
  at_toks b k (toks e) -> length stack <= MAX_STACK ->
  defined tok_val k e = false \/ MAX_STACK < length stack + depth e ->
  eval_list (postfix k e ++ rest) stack = Ok (-1)%Z.
Proof.
  induction e as [|e IH|e IH|c a IHa e IHe]; intros k rest stack Hat Hs Hbad.
  - apply at_toks_cons in Hat as [(t & Ht & Ho)%tok_op_Some _].
    cbn [postfix app]. erewrite eval_list_step with (r := inl (-1)%Z); [done|done|].
    unfold eval_step. rewrite Ho. destruct (Nat.leb_spec MAX_STACK (length stack)); [done|].
    destruct Hbad as [Hbad|Hbad]; [|simpl in Hbad; lia].
    unfold defined, tok_val in Hbad. simpl in Hbad. rewrite Ht in Hbad. simpl in Hbad.
    by destruct (Z.eqb_spec (map t) (-1)).
  - apply at_toks_cons in Hat as [_ Hat]. cbn [postfix]. rewrite <-app_assoc. by apply IH.
  - apply at_toks_cons in Hat as [_ [Hat _]%at_toks_app]. cbn [postfix]. by apply IH.
  - cbn [toks] in Hat. apply at_toks_app in Hat as [Ha [_ He]%at_toks_cons].
    unfold defined in Hbad. cbn [vars depth] in Hbad. rewrite forallb_app in Hbad.
    fold (defined tok_val k a) (defined tok_val (S (k + length (toks a))) e) in Hbad.
    cbn [postfix]. rewrite <-!app_assoc.
    destruct (defined tok_val k a) eqn:Hda; [|by apply IHa; auto].
    destruct (Nat.le_gt_cases (length stack + depth a) MAX_STACK); [|by apply IHa; auto].
    rewrite eval_list_ok by done. simpl in Hbad.
    assert (1 <= depth a) by (clear; induction a; simpl; lia).
    apply IHe; [done|simpl; lia|]. destruct Hbad as [Hbad|Hbad]; [by left|right; simpl; lia].
Qed.

(** A list of tokens linked through [next] is what the loop visits. *)
Lemma eval_loop_list fuel l stack :
  (forall pre x post, l = pre ++ x :: post -> exists t, b !! x = Some t /\ next t = head post) ->
  length l <= fuel ->
  eval_loop fuel b map (head l) stack = eval_list l stack.
Proof.
  revert l stack. induction fuel as [|fuel IH]; intros l stack Hl Hf.
  - destruct l; [done|simpl in Hf; lia].
  - destruct l as [|x l]; [done|]. simpl.
    destruct (Hl [] x l eq_refl) as (t & Ht & Hn). rewrite Ht. simpl.
    destruct (eval_step map t stack) as [[w|st]| |]; simpl; try done.
    rewrite Hn. apply IH; [|simpl in Hf; lia].
    intros pre y post ->. by apply (Hl (x :: pre) y post).
Qed.
End EvalCorrect.

(** The expression built for the tokens [b] of [e]. *)
Definition linked (b : list tst_expr_tok) (e : bexp) : tst_expr :=
  mkExpr (head (postfix 0 e)) (link_out b (postfix 0 e)).

Lemma linked_next b e pre x post : op <$> b = toks e -> postfix 0 e = pre ++ x :: post ->
  exists t, link_out b (postfix 0 e) !! x = Some t /\ next t = head post.
Proof.
  intros Hb Heq. assert (Hx : x ∈ postfix 0 e) by (rewrite Heq, elem_of_app; right; by left).
  apply postfix_range in Hx. rewrite <-Hb, length_fmap in Hx.
  destruct (link_out_lookup b pre x post) as (t & _ & Ht); [|lia|].
  - rewrite <-Heq. apply postfix_NoDup.
  - rewrite Heq. eauto.
Qed.

Lemma at_toks_linked b e : op <$> b = toks e -> at_toks (link_out b (postfix 0 e)) 0 (toks e).
Proof. intros Hb i o Hi. rewrite link_out_op. rewrite <-Hb in Hi. by apply at_toks_self. Qed.

(** An expression whose links visit the tokens of [e] in postfix order. *)
Record shaped (ex : tst_expr) (e : bexp) : Prop := mkShaped {
  shaped_rpn : rpn ex = head (postfix 0 e);
  shaped_len : length (buf ex) = length (toks e);
  shaped_ops : at_toks (buf ex) 0 (toks e);
  shaped_next : forall pre x post, postfix 0 e = pre ++ x :: post ->
    exists t, buf ex !! x = Some t /\ next t = head post
}.

Lemma linked_shaped b e : op <$> b = toks e -> shaped (linked b e) e.
Proof.
  intros Hb. split; simpl; [done|by rewrite length_link_out, <-Hb, length_fmap| |].
  - by apply at_toks_linked.
  - intros pre x post. by apply linked_next.
Qed.

Lemma shaped_eval ex e map : shaped ex e ->
  tst_bool_expr_eval ex map
  = Ok (if defined (tok_val (buf ex) map) 0 e && (depth e <=? MAX_STACK)%nat
        then sem (tok_val (buf ex) map) 0 e else (-1)%Z).
Proof.
  intros [Hr Hl Ho Hn]. unfold tst_bool_expr_eval. rewrite Hr.
  rewrite eval_loop_list; [|done|rewrite Hl; apply length_postfix].
  rewrite <-(app_nil_r (postfix 0 e)) at 1.
  destruct (defined _ 0 e) eqn:Hdef; destruct (Nat.leb_spec (depth e) MAX_STACK); simpl;
    [by rewrite eval_list_ok|apply eval_list_abort; auto; simpl; lia..].
Qed.

(** Linking keeps the text of the tokens. *)
Lemma link_out_text b out x t : link_out b out !! x = Some t ->
  exists t0, b !! x = Some t0 /\ op t = op t0 /\ tok t = tok t0 /\ tok_len t = tok_len t0.
Proof.
  revert b. induction out as [|y out IH]; intros b; simpl; [by exists t|].
  intros (t1 & Ht1 & Ho & Hk & Hl)%IH. rewrite list_lookup_alter in Ht1.
  case_decide; [subst|naive_solver]. destruct (b !! _) as [t2|]; [|done].
  simpl in Ht1. injection Ht1 as <-. exists t2. by rewrite Ho, Hk, Hl.
Qed.

(** A token without its [priv]; changing only [priv] keeps the shape. *)
Definition core (t : tst_expr_tok) : tst_expr_tok := set_priv PNull t.

Lemma core_lookup (b b' : list tst_expr_tok) i t : core <$> b' = core <$> b -> b !! i = Some t ->
  exists t', b' !! i = Some t' /\ core t' = core t.
Proof.
  intros E Ht. assert (H : (core <$> b') !! i = Some (core t)) by (by rewrite E, list_lookup_fmap, Ht).
  rewrite list_lookup_fmap in H. apply fmap_Some in H as (t' & ? & ?). eauto.
Qed.

Lemma core_alter_priv p i (b : list tst_expr_tok) : core <$> alter (set_priv p) i b = core <$> b.
Proof.
  apply list_eq. intros j. rewrite !list_lookup_fmap, list_lookup_alter.
  case_decide; [subst|done]. by destruct (b !! _).
Qed.

Lemma core_tok_op (b b' : list tst_expr_tok) i : core <$> b' = core <$> b -> tok_op b' i = tok_op b i.
Proof.
  intros E. unfold tok_op. assert (H : op ∘ core <$> b' = op ∘ core <$> b) by (by rewrite !list_fmap_compose, E).
  apply (f_equal (.!! i)) in H. by rewrite !list_lookup_fmap in H.
Qed.

Lemma shaped_core r b b' e : core <$> b' = core <$> b -> shaped (mkExpr r b) e ->
  shaped (mkExpr r b') e.
Proof.
  intros E [Hr Hl Ho Hn]. simpl in *. split; simpl; [done| | |].
  - apply (f_equal length) in E. rewrite !length_fmap in E. congruence.
  - intros j o Hj. rewrite (core_tok_op b b') by done. by apply Ho.
  - intros pre x post H. destruct (Hn _ _ _ H) as (t & Ht & Hp).
    destruct (core_lookup _ _ _ _ E Ht) as (t' & Ht' & Hc). exists t'. split; [done|].
    by injection Hc as _ _ _ ->.
Qed.

Lemma vars_postfix k e i : i ∈ vars k e -> i ∈ postfix k e.
Proof.
  revert k. induction e as [|e IH|e IH|c a IHa e IHe]; intros k; simpl; [done| | |].
  - intros H%IH. set_solver.
  - apply IH.
  - rewrite !elem_of_app. naive_solver.
Qed.

Lemma vars_op k e i : i ∈ vars k e <-> exists j, i = k + j /\ toks e !! j = Some TST_OP_VAR.
Proof.
  revert k i. induction e as [|e IH|e IH|c a IHa e IHe]; intros k i; simpl.
  - rewrite list_elem_of_singleton. split; [intros ->; exists 0; split; [lia|done]|].
    intros (j & -> & H). destruct j; [lia|done].
  - rewrite IH. split.
    + intros (j & -> & H). exists (S j). split; [lia|done].
    + intros ([|j] & -> & H); [done|]. exists j. split; [lia|done].
  - rewrite IH. split.
    + intros (j & -> & H). exists (S j). split; [lia|]. simpl. by apply lookup_app_l_Some.
    + intros ([|j] & -> & H); [done|]. simpl in H. exists j. split; [lia|].
      apply lookup_app_Some in H as [H|[_ H]]; [done|]. by apply list_lookup_singleton_Some in H as [_ [=]].
  - rewrite elem_of_app, IHa, IHe. split.
    + intros [(j & -> & H)|(j & -> & H)].
      * exists j. split; [lia|]. by apply lookup_app_l_Some.
      * exists (length (toks a) + S j). split; [lia|]. rewrite lookup_app_r by lia.
        by replace (length (toks a) + S j - length (toks a)) with (S j) by lia.
    + intros (j & -> & H). apply lookup_app_Some in H as [H|[Hl H]]; [left; eauto|right].
      destruct (j - length (toks a)) as [|j'] eqn:E; [by destruct c|].
      exists j'. split; [lia|done].
Qed.

Lemma sem_ext v w k e : (forall i, i ∈ vars k e -> v i = w i) -> sem v k e = sem w k e.
Proof.
  revert k. induction e as [|e IH|e IH|c a IHa e IHe]; intros k H; simpl in *.
  - apply H. by left.
  - by rewrite IH.
  - by apply IH.
  - rewrite IHa, IHe; [done|..]; intros; apply H; rewrite elem_of_app; auto.
Qed.

Lemma linked_eval b e map : op <$> b = toks e ->
  tst_bool_expr_eval (linked b e) map
  = Ok (if defined (tok_val (buf (linked b e)) map) 0 e && (depth e <=? MAX_STACK)%nat
        then sem (tok_val (buf (linked b e)) map) 0 e else (-1)%Z).
Proof. intros Hb. by apply shaped_eval, linked_shaped. Qed.

(** ** The tokenizer *)

Definition tokens (expr : cstr) : list tst_expr_tok := default [] (fst (tokenize expr (Some []))).

Lemma new_tok_lockstep expr l t len :
  exists l', new_tok expr (Some l) t len = (Some (l ++ l'), length l')
          /\ new_tok expr None t len = (None, length l').
Proof.
  unfold new_tok. destruct (Nat.eqb_spec len 0); [exists []; by rewrite app_nil_r|].
  by eexists [_].
Qed.

Lemma tokenize_loop_lockstep expr s : forall i j skip l cnt,
  exists i' j' l',
    tokenize_loop expr s i j skip (Some l) cnt = (i', j', Some (l ++ l'), cnt + length l')
    /\ tokenize_loop expr s i j skip None cnt = (i', j', None, cnt + length l').
Proof.
  induction s as [|c s IH]; intros i j skip l cnt; simpl.
  { exists i, j, []. by rewrite app_nil_r, Nat.add_0_r. }
  destruct skip as [|skip]; [|apply IH].
  destruct (is_op_char c); [|destruct (is_blank c); [|by case_bool_decide; apply IH]].
  - destruct (new_tok_lockstep expr l j (i - j)) as (l1 & -> & ->).
    destruct (new_tok_lockstep expr (l ++ l1) i 1) as (l2 & -> & ->).
    destruct (IH (S i) (S i) 0 ((l ++ l1) ++ l2) (cnt + length l1 + length l2))
      as (i' & j' & l3 & -> & ->).
    exists i', j', (l1 ++ l2 ++ l3). by rewrite !length_app, <-!app_assoc, !Nat.add_assoc.
  - destruct (new_tok_lockstep expr l j (i - j)) as (l1 & -> & ->).
    destruct (IH (S i) (S i) 0 (l ++ l1) (cnt + length l1)) as (i' & j' & l3 & -> & ->).
    exists i', j', (l1 ++ l3). by rewrite !length_app, <-!app_assoc, !Nat.add_assoc.
Qed.

Lemma tokenize_spec expr :
  tokenize expr (Some []) = (Some (tokens expr), length (tokens expr))
  /\ tokenize expr None = (None, length (tokens expr)).
Proof.
  unfold tokens, tokenize.
  destruct (tokenize_loop_lockstep expr expr 0 0 0 [] 0) as (i & j & l & -> & ->).
  destruct (new_tok_lockstep expr ([] ++ l) j (i - j)) as (l' & -> & ->). simpl.
  by rewrite length_app.
Qed.

(** A token is inside the string, is not empty, has the operation of its first
    character, and an operator is one character long. *)
Definition wf_tok (expr : cstr) (t : tst_expr_tok) : Prop :=
  tok t + tok_len t <= length expr /\ 1 <= tok_len t /\
  op t = char_to_op (at_ expr (tok t)) /\ (op t <> TST_OP_VAR -> tok_len t = 1) /\
  (op t = TST_OP_VAR -> at_ expr (tok t + tok_len t) <> DQUOTE) /\
  next t = None /\ priv t = PNull.

Lemma char_to_op_var c : is_op_char c = false -> char_to_op c = TST_OP_VAR.
Proof.
  unfold is_op_char, char_to_op. intros H%bool_decide_eq_false. bools; naive_solver.
Qed.

Lemma op_char_not_var c : is_op_char c = true -> char_to_op c <> TST_OP_VAR.
Proof.
  unfold is_op_char, char_to_op. intros H%bool_decide_eq_true. bools; naive_solver.
Qed.

Lemma new_tok_wf expr l t len :
  t + len <= length expr -> (2 <= len -> is_op_char (at_ expr t) = false) ->
  (char_to_op (at_ expr t) = TST_OP_VAR -> at_ expr (t + len) <> DQUOTE) ->
  Forall (wf_tok expr) l ->
  exists l', fst (new_tok expr (Some l) t len) = Some l' /\ Forall (wf_tok expr) l'.
Proof.
  intros Hb Hop Hq Hl. unfold new_tok. destruct (Nat.eqb_spec len 0); [by exists l|].
  simpl. eexists. split; [done|]. apply Forall_app. split; [done|]. apply Forall_singleton.
  unfold wf_tok; simpl. split_and!; try done; [lia|]. intros Hne.
  destruct (Nat.eq_dec len 1); [done|]. destruct Hne. apply char_to_op_var, Hop. lia.
Qed.

Lemma tokenize_loop_wf expr s : forall i j skip l cnt i' j' l' cnt',
  s = drop i expr -> i <= length expr -> j <= i -> (j < i -> is_op_char (at_ expr j) = false) ->
  (0 < skip -> j < i) -> Forall (wf_tok expr) l ->
  tokenize_loop expr s i j skip (Some l) cnt = (i', j', Some l', cnt') ->
  i' = length expr /\ j' <= i' /\ (j' < i' -> is_op_char (at_ expr j') = false)
  /\ Forall (wf_tok expr) l'.
Proof.
  induction s as [|c s IH]; intros i j skip l cnt i' j' l' cnt' Hs Hi Hj Hop Hsk Hl; simpl.
  { intros [= <- <- <- <-]. assert (length (drop i expr) = 0) by (by rewrite <-Hs).
    rewrite length_drop in *. assert (i = length expr) by lia. auto. }
  assert (Hlen : i < length expr).
  { assert (H : length (drop i expr) = S (length s)) by (by rewrite <-Hs). rewrite length_drop in H. lia. }
  assert (Hs' : s = drop (S i) expr) by (by rewrite <-Nat.add_1_r, <-drop_drop, <-Hs).
  assert (Hc : at_ expr i = c).
  { unfold at_. rewrite <-(Nat.add_0_r i), <-nth_skipn. change (skipn i expr) with (drop i expr).
    by rewrite <-Hs. }
  assert (Hgo : forall skip', is_op_char c = false ->
      tokenize_loop expr s (S i) j skip' (Some l) cnt = (i', j', Some l', cnt') ->
      i' = length expr /\ j' <= i' /\ (j' < i' -> is_op_char (at_ expr j') = false)
      /\ Forall (wf_tok expr) l').
  { intros skip' Hnop. apply IH; try done; try lia. intros _.
    destruct (Nat.eq_dec j i) as [->|]; [by rewrite Hc|]. apply Hop. lia. }
  destruct skip as [|skip].
  2:{ apply IH; try done; try lia. intros _. apply Hop, Hsk. lia. }
  assert (Hend : c <> DQUOTE -> at_ expr (j + (i - j)) <> DQUOTE)
    by (replace (j + (i - j)) with i by lia; by rewrite Hc).
  destruct (is_op_char c) eqn:Eop; [|destruct (is_blank c) eqn:Ebl].
  - destruct (new_tok_wf expr l j (i - j)) as (l1 & E1 & Hl1);
      [lia|intros; apply Hop; lia|intros _; apply Hend; by intros ->|done|].
    destruct (new_tok expr (Some l) j (i - j)) as [? n1]. simpl in E1. subst.
    destruct (new_tok_wf expr l1 i 1) as (l2 & E2 & Hl2); [lia|lia|by intros ?%op_char_not_var|done|].
    destruct (new_tok expr (Some l1) i 1) as [? n2]. simpl in E2. subst.
    apply IH; try done; lia.
  - destruct (new_tok_wf expr l j (i - j)) as (l1 & E1 & Hl1);
      [lia|intros; apply Hop; lia|intros _; apply Hend; by intros ->|done|].
    destruct (new_tok expr (Some l) j (i - j)) as [? n1]. simpl in E1. subst.
    apply IH; try done; lia.
  - case_bool_decide; by apply Hgo.
Qed.

Lemma tokens_wf expr : Forall (wf_tok expr) (tokens expr).
Proof.
  unfold tokens, tokenize.
  destruct (tokenize_loop_lockstep expr expr 0 0 0 [] 0) as (i & j & l & Hloop & _).
  rewrite Hloop. simpl in Hloop.
  destruct (tokenize_loop_wf expr expr 0 0 0 [] 0 i j l (length l)) as (-> & Hj & Hop & Hl);
    try done; try lia.
  destruct (new_tok_wf expr l j (length expr - j)) as (l' & E & Hl');
    [lia|intros; apply Hop; lia|intros _; replace (j + (length expr - j)) with (length expr) by lia; by rewrite at_end|done|].
  destruct (new_tok expr (Some ([] ++ l)) j (length expr - j)) as [? n] eqn:En. simpl in En.
  rewrite En in E. simpl in E. by subst.
Qed.

(** *** Rendering

    A variable name: no operator or blank outside double quotes, quotes closed. *)
Fixpoint name_chars (q : bool) (s : cstr) : bool :=
  match s with
  | [] => negb q
  | c :: s' =>
      if q then name_chars (negb (bool_decide (c = DQUOTE))) s'
      else negb (is_op_char c) && negb (is_blank c) && name_chars (bool_decide (c = DQUOTE)) s'
  end.

Inductive item : Set :=
| IOp (o : tst_op)
| IName (s : cstr).

Definition op_char (o : tst_op) : Z :=
  match o with
  | TST_OP_NOT => "!"%ch | TST_OP_AND => "&"%ch | TST_OP_OR => "|"%ch
  | TST_OP_LPAR => "("%ch | TST_OP_RPAR => ")"%ch | TST_OP_VAR => 0%Z
  end.
Definition item_text (it : item) : cstr :=
  match it with IOp o => [op_char o] | IName s => s end.
Definition item_op (it : item) : tst_op := match it with IOp o => o | IName _ => TST_OP_VAR end.
Definition wf_item (it : item) : bool :=
  match it with
  | IOp o => bool_decide (o <> TST_OP_VAR)
  | IName s => bool_decide (s <> []) && name_chars false s
  end.

(** The text of the items, each followed by a blank. *)
Definition render (l : list item) : cstr := concat (map (fun it => item_text it ++ [" "%ch]) l).

Definition tok_text (expr : cstr) (t : tst_expr_tok) : cstr := take (tok_len t) (drop (tok t) expr).

Lemma tokenize_loop_skip expr t s i j last cnt :
  tokenize_loop expr (t ++ s) i j (length t) last cnt
  = tokenize_loop expr s (i + length t) j 0 last cnt.
Proof.
  revert i. induction t as [|c t IH]; intros i; simpl; [by rewrite Nat.add_0_r|].
  rewrite IH. by rewrite Nat.add_succ_r.
Qed.

Lemma name_chars_quoted s : name_chars true s = true ->
  exists t u, s = t ++ DQUOTE :: u /\ (DQUOTE ∉ t) /\ name_chars false u = true.
Proof.
  induction s as [|c s IH]; simpl; [done|]. case_bool_decide as Hc; simpl.
  - intros H. exists [], s. subst. split_and!; [done|apply not_elem_of_nil|done].
  - intros (t & u & -> & Hni & Hu)%IH. exists (c :: t), u.
    split_and!; [done|by apply not_elem_of_cons|done].
Qed.

Lemma until_quote_app t u : DQUOTE ∉ t -> until_quote (t ++ DQUOTE :: u) = length t.
Proof.
  induction t as [|c t IH]; intros Hni; simpl; [done|].
  apply not_elem_of_cons in Hni as [H1 H2]. rewrite bool_decide_false by congruence. f_equal. auto.
Qed.

Lemma tokenize_loop_name expr rest n : forall s i j last cnt,
  length s <= n -> name_chars false s = true ->
  tokenize_loop expr (s ++ rest) i j 0 last cnt
  = tokenize_loop expr rest (i + length s) j 0 last cnt.
Proof.
  induction n as [|n IH]; intros s i j last cnt Hn Hs; destruct s as [|c s]; simpl in *;
    try lia; try (by rewrite Nat.add_0_r).
  apply andb_prop in Hs as [[Hop Hbl]%andb_prop Hs].
  apply negb_true_iff in Hop, Hbl. rewrite Hop, Hbl.
  case_bool_decide as Hc.
  - destruct (name_chars_quoted s Hs) as (t & u & -> & Hni & Hu).
    rewrite <-app_assoc. simpl. rewrite until_quote_app by done.
    rewrite at_length_cons. simpl.
    rewrite length_app in *. simpl in *.
    replace (S (length t)) with (length (t ++ [DQUOTE])) by (rewrite length_app; simpl; lia).
    replace (t ++ DQUOTE :: u ++ rest) with ((t ++ [DQUOTE]) ++ u ++ rest) by (by rewrite <-app_assoc).
    rewrite tokenize_loop_skip, IH by (done || lia). f_equal. rewrite length_app. simpl. lia.
  - rewrite IH by (done || lia). f_equal. lia.
Qed.

Definition item_tok (pos : nat) (it : item) : tst_expr_tok :=
  mkTok (item_op it) pos (length (item_text it)) None PNull.
Fixpoint item_toks (pos : nat) (l : list item) : list tst_expr_tok :=
  match l with
  | [] => []
  | it :: l' => item_tok pos it :: item_toks (S (pos + length (item_text it))) l'
  end.

Lemma op_char_spec o : o <> TST_OP_VAR ->
  is_op_char (op_char o) = true /\ char_to_op (op_char o) = o.
Proof. by destruct o. Qed.

Lemma name_first c s : name_chars false (c :: s) = true -> char_to_op c = TST_OP_VAR.
Proof.
  simpl. intros [[H _]%andb_prop _]%andb_prop. apply char_to_op_var. by apply negb_true_iff.
Qed.

(** One item and the blank after it. *)
Lemma tokenize_loop_item expr it pre rest acc cnt : wf_item it = true ->
  expr = pre ++ item_text it ++ " "%ch :: rest ->
  let n := S (length pre + length (item_text it)) in
  tokenize_loop expr (item_text it ++ " "%ch :: rest) (length pre) (length pre) 0 (Some acc) cnt
  = tokenize_loop expr rest n n 0 (Some (acc ++ [item_tok (length pre) it])) (cnt + 1).
Proof.
  intros Hit Hexpr n.
  assert (Hat : at_ expr (length pre) = at_ (item_text it ++ " "%ch :: rest) 0)
    by (subst expr; rewrite <-(Nat.add_0_r (length pre)); apply at_app_r).
  destruct it as [o|s]; cbn [item_text] in *.
  - apply bool_decide_eq_true in Hit. destruct (op_char_spec o Hit) as [Hop Hc].
    simpl. rewrite Hop. unfold new_tok. rewrite !Nat.sub_diag. simpl.
    rewrite Hat. change (at_ _ 0) with (op_char o). rewrite Hc.
    unfold n; simpl. rewrite Nat.add_1_r. f_equal; lia.
  - apply andb_prop in Hit as [Hne Hs]. apply bool_decide_eq_true in Hne.
    rewrite (tokenize_loop_name expr _ (length s)) by done.
    cbn [tokenize_loop]. change (is_op_char " "%ch) with false. change (is_blank " "%ch) with true.
    cbv iota. unfold new_tok. replace (length pre + length s - length pre) with (length s) by lia.
    destruct (Nat.eqb_spec (length s) 0) as [H0|H0]; [by destruct s|].
    rewrite Hat. destruct s as [|c s]; [done|]. unfold item_tok. cbn [item_op item_text].
    by rewrite (name_first c s Hs : char_to_op (at_ ((c :: s) ++ _) 0) = _).
Qed.

Lemma tokenize_loop_render expr l : forall pre acc cnt, forallb wf_item l = true ->
  expr = pre ++ render l ->
  tokenize_loop expr (render l) (length pre) (length pre) 0 (Some acc) cnt
  = (length expr, length expr, Some (acc ++ item_toks (length pre) l), cnt + length l).
Proof.
  induction l as [|it l IH]; intros pre acc cnt Hwf Hexpr.
  { simpl. subst expr. by rewrite !app_nil_r, Nat.add_0_r. }
  apply andb_prop in Hwf as [Hit Hwf].
  change (render (it :: l)) with ((item_text it ++ [" "%ch]) ++ render l) in *.
  assert (Hnext : expr = (pre ++ item_text it ++ [" "%ch]) ++ render l)
    by (subst expr; by rewrite <-!app_assoc).
  rewrite <-app_assoc in Hexpr |- *. cbn [app] in Hexpr |- *.
  rewrite tokenize_loop_item by done.
  assert (Hlen : length (pre ++ item_text it ++ [" "%ch]) = S (length pre + length (item_text it)))
    by (rewrite !length_app; simpl; lia).
  rewrite <-Hlen, IH by done. rewrite Hlen, <-app_assoc. simpl. f_equal. lia.
Qed.

Lemma tokens_render l : forallb wf_item l = true -> tokens (render l) = item_toks 0 l.
Proof.
  intros Hwf. unfold tokens, tokenize.
  pose proof (tokenize_loop_render (render l) l [] [] 0 Hwf eq_refl) as H. simpl in H.
  rewrite H. simpl.
  unfold new_tok. by rewrite Nat.sub_diag.
Qed.

Lemma item_toks_texts l : forall pre, 
  (fun t => (op t, tok_text (pre ++ render l) t)) <$> item_toks (length pre) l
  = (fun it => (item_op it, item_text it)) <$> l.
Proof.
  induction l as [|it l IH]; intros pre; [done|]. cbn [item_toks]. rewrite !fmap_cons. f_equal.
  - unfold tok_text. simpl. rewrite drop_app_length.
    change (render (it :: l)) with ((item_text it ++ [" "%ch]) ++ render l).
    by rewrite <-app_assoc, take_app_length.
  - specialize (IH (pre ++ item_text it ++ [" "%ch])).
    change (render (it :: l)) with ((item_text it ++ [" "%ch]) ++ render l).
    rewrite <-app_assoc in IH. rewrite <-IH. f_equal. f_equal. rewrite !length_app. simpl. lia.
Qed.

(** ** Parsing *)

Lemma tokens_nil_or expr : tokens expr = [] \/ tokens expr <> [].
Proof. destruct (tokens expr); auto. Qed.

Lemma parse_unfold expr : tst_bool_expr_parse true expr
  = if Nat.eqb (length (tokens expr)) 0 then Ok (None, [])
    else match shunting_yard (tokens expr) (length (tokens expr)) with
         | Ok e => Ok (Some e, [])
         | Err b' => msg ← or_fault (tst_bool_expr_err expr b'); Ok (None, msg)
         | Fault => Fault
         end.
Proof.
  unfold tst_bool_expr_parse. destruct (tokenize_spec expr) as [H1 H2].
  rewrite H1, H2. simpl. done.
Qed.

Lemma find_priv_alter b i msg : i < length b -> Forall (fun t => priv t = PNull) b ->
  exists t, find_priv (alter (set_priv (PMsg msg)) i b) = Some (t, msg).
Proof.
  revert i. induction b as [|t b IH]; intros i Hi Hb; simpl in *; [lia|].
  apply Forall_cons in Hb as [Ht Hb]. destruct i as [|i]; simpl; [eauto|].
  rewrite Ht. apply IH; [lia|done].
Qed.

Lemma err_report expr b i msg : i < length b -> Forall (fun t => priv t = PNull) b ->
  exists out, tst_bool_expr_err expr (alter (set_priv (PMsg msg)) i b) = Some out /\ out <> [].
Proof.
  intros Hi Hb. destruct (find_priv_alter b i msg Hi Hb) as [t Ht].
  unfold tst_bool_expr_err. destruct b as [|t0 b]; [simpl in Hi; lia|].
  assert (exists t1, head (alter (set_priv (PMsg msg)) i (t0 :: b)) = Some t1) as [t1 ->]
    by (destruct i; simpl; eauto).
  simpl in *. rewrite Ht. simpl. eexists. split; [done|]. by intros [_ ?]%app_nil.
Qed.

Lemma tokens_priv expr : Forall (fun t => priv t = PNull) (tokens expr).
Proof. eapply Forall_impl; [apply tokens_wf|]. by intros t (_ & _ & _ & _ & _ & _ & ?). Qed.

Lemma parse_tree expr e : wf_bexp e = true -> op <$> tokens expr = toks e ->
  tst_bool_expr_parse true expr = Ok (Some (linked (tokens expr) e), []).
Proof.
  intros Hwf Hop. rewrite parse_unfold. rewrite (shunting_yard_complete _ e) by done.
  destruct (Nat.eqb_spec (length (tokens expr)) 0) as [E|E]; [|done].
  apply length_zero_iff_nil in E. destruct (toks_nonempty e). by rewrite <-Hop, E.
Qed.

(** Success and failure of the parser, in terms of the tokens. *)
Lemma parse_cases expr :
  (exists e, wf_bexp e = true /\ op <$> tokens expr = toks e /\
     tst_bool_expr_parse true expr = Ok (Some (linked (tokens expr) e), []))
  \/ ((forall e, wf_bexp e = true -> op <$> tokens expr <> toks e) /\
      exists msg, tst_bool_expr_parse true expr = Ok (None, msg) /\ (tokens expr <> [] -> msg <> [])).
Proof.
  rewrite parse_unfold. destruct (tokens_nil_or expr) as [Hnil|Hne].
  { right. rewrite Hnil. split; [|by exists []].
    intros e _ H. destruct (toks_nonempty e). by rewrite <-H. }
  destruct (Nat.eqb_spec (length (tokens expr)) 0) as [H0|_]; [by destruct (tokens expr)|].
  pose proof (shunting_yard_result (tokens expr) Hne) as Hres.
  destruct (shunting_yard _ _) as [ex|b'|] eqn:Hsy; [| |done].
  - left. destruct (shunting_yard_sound _ _ Hsy) as (e & Hwf & Hop).
    exists e. split_and!; [done|done|].
    rewrite (shunting_yard_complete _ e Hwf Hop) in Hsy. by injection Hsy as <-.
  - right. split.
    + intros e Hwf Hop. by rewrite (shunting_yard_complete _ e Hwf Hop) in Hsy.
    + destruct Hres as (i & msg & Hi & ->).
      destruct (err_report expr _ i msg Hi (tokens_priv expr)) as (out & -> & Hout).
      exists out. done.
Qed.

(** C1: the parser accepts exactly the strings whose tokens form an expression
    of the grammar (operands and operators alternate, parentheses match); every
    other string is rejected with NULL, and with a message unless the string
    has no token at all. *)
Theorem bool_expr_parse_grammar expr :
  match tst_bool_expr_parse true expr with
  | Ok (Some _, out) => out = [] /\ exists e, wf_bexp e = true /\ op <$> tokens expr = toks e
  | Ok (None, out) => (forall e, wf_bexp e = true -> op <$> tokens expr <> toks e)
                      /\ (tokens expr <> [] -> out <> [])
  | _ => False
  end.
Proof. destruct (parse_cases expr) as [(e & ? & ? & ->)|(? & msg & -> & ?)]; eauto. Qed.

(** C10: evaluating a parsed expression gives the value of its syntax tree, with
    [&] and [|] of equal precedence and left associative, provided no variable
    is undefined and the tree needs at most 16 stack entries; otherwise -1. *)
Theorem bool_expr_eval_correct expr ex map :
  tst_bool_expr_parse true expr = Ok (Some ex, []) ->
  exists e, wf_bexp e = true /\ op <$> tokens expr = toks e /\
    tst_bool_expr_eval ex map
    = Ok (if defined (tok_val (buf ex) map) 0 e && (depth e <=? MAX_STACK)%nat
          then sem (tok_val (buf ex) map) 0 e else (-1)%Z).
Proof.
  intros Hp. destruct (parse_cases expr) as [(e & Hwf & Hop & Heq)|(_ & msg & Heq & _)];
    rewrite Heq in Hp; [|congruence].
  injection Hp as <-. exists e. auto using linked_eval.
Qed.

Lemma bool_expr_eval_correct_witness :
  exists ex, tst_bool_expr_parse true (str "!A & (B | C)") = Ok (Some ex, []) /\
    exists e, wf_bexp e = true /\ op <$> tokens (str "!A & (B | C)") = toks e /\
      tst_bool_expr_eval ex (fun t => if Nat.eqb (tok t) 9 then 1 else 0)%Z
      = Ok (if defined (tok_val (buf ex) (fun t => if Nat.eqb (tok t) 9 then 1 else 0)%Z) 0 e
               && (depth e <=? MAX_STACK)%nat
            then sem (tok_val (buf ex) (fun t => if Nat.eqb (tok t) 9 then 1 else 0)%Z) 0 e
            else (-1)%Z).
Proof.
  eexists. split; [vm_compute; reflexivity|].
  apply bool_expr_eval_correct. vm_compute. reflexivity.
Defined.

(** For every string and allocation outcome the parser and its error report
    stay inside [op_stack], [out] and [buf]. *)
Theorem bool_expr_parse_safe malloc_ok expr : tst_bool_expr_parse malloc_ok expr <> Fault.
Proof.
  destruct malloc_ok.
  - by destruct (parse_cases expr) as [(e & _ & _ & ->)|(_ & msg & -> & _)].
  - unfold tst_bool_expr_parse. destruct (tokenize expr None). by case_match.
Qed.

(** The counting pass returns the number of tokens the second pass writes,
    so the array allocated between them has the right size; every token lies
    inside the string, is not empty, carries the operation of its first
    character, and operators are one character long. *)
Theorem tokenize_passes_agree expr :
  exists l, tokenize expr (Some []) = (Some l, length l) /\
            tokenize expr None = (None, length l) /\ Forall (wf_tok expr) l.
Proof. destruct (tokenize_spec expr) as [H1 H2]. eauto using tokens_wf. Qed.

(** Tokenizing the text of a sequence of operators and names gives that
    sequence back; names may contain quoted blanks and operators. *)
Theorem tokenize_render_roundtrip l :
  forallb wf_item l = true ->
  (fun t => (op t, tok_text (render l) t)) <$> tokens (render l)
  = (fun it => (item_op it, item_text it)) <$> l.
Proof. intros H. rewrite tokens_render by done. apply (item_toks_texts l []). Qed.

Lemma tokenize_render_roundtrip_witness :
  let l := [IName (str "CONFIG_A=y"); IOp TST_OP_AND; IOp TST_OP_NOT; IName (str "B")] in
  forallb wf_item l = true /\
  (fun t => (op t, tok_text (render l) t)) <$> tokens (render l)
  = (fun it => (item_op it, item_text it)) <$> l.
Proof. split; [reflexivity|]. apply tokenize_render_roundtrip. reflexivity. Defined.
