(* ===== verification/Kconfig.v ===== *)
(** * Kernel configuration requirements: [lib/tst_kconfig.c]

    Locating and reading the kernel configuration, the variables needed by a
    list of boolean expressions, and the check of the expressions.  The
    environment (variables, files, the kernel release) is a record; a text file
    is the list of its characters, none of which is NUL. *)

From stdpp Require Import base list strings gmap.
From Stdlib Require Import ZArith Lia.
From S2P Require Import Prelude BoolExpr.

(** ** The environment *)
Record kenv : Type := mkEnv {
  KCONFIG_SKIP_CHECK : bool;             (** the variable is set *)
  KCONFIG_PATH : option cstr;
  access_ok : cstr -> bool;              (** [access(path, F_OK) == 0] *)
  un_release : cstr;                     (** [uname] *)
  fopen : cstr -> option cstr;           (** contents of the file *)
  popen : cstr -> option cstr;           (** output of the command *)
  line_init : list Z;                    (** what [line] holds before the first [fgets] *)
  malloc_ok : bool
}.

(** ** Data ([include/tst_kconfig.h]) *)
Record tst_kconfig_var : Set := mkVar {
  v_id : cstr;
  v_id_len : nat;
  v_choice : Z;
  v_val : option cstr
}.

Definition ID_SIZE : nat := 64.
Definition LINE_SIZE : nat := 128.

Section Locate.
Context (env : kenv).

Definition kconfig_skip_check : bool * list report :=
  if KCONFIG_SKIP_CHECK env
  then (true, [(TINFO, str "Skipping kernel config check as requested")])
  else (false, []).

(** [snprintf] into a buffer of [n] bytes. *)
Definition snprintf (n : nat) (s : cstr) : cstr := take (n - 1) s.

Definition kconfig_path (path_buf_len : nat) : option cstr * list report :=
  let try (paths : list cstr) : option cstr := List.find (access_ok env) paths in
  let fallback (log : list report) : option cstr * list report :=
    if access_ok env (str "/proc/config.gz") then (Some (str "/proc/config.gz"), log)
    else
      let p1 := snprintf path_buf_len (str "/lib/modules/" ++ un_release env ++ str "/build/.config") in
      let p2 := snprintf path_buf_len (str "/lib/modules/" ++ un_release env ++ str "/config") in
      let p3 := snprintf path_buf_len (str "/boot/config-" ++ un_release env) in
      let p4 := snprintf path_buf_len (str "/lib/kernel/config-" ++ un_release env) in
      match try [p1; p2; p3; p4] with
      | Some p => (Some p, log)
      | None => (None, log ++ [(TINFO, str "Couldn't locate kernel config!")])
      end in
  match KCONFIG_PATH env with
  | Some path =>
      if access_ok env path then (Some path, [])
      else fallback [(TWARN, str "KCONFIG_PATH='" ++ path ++ str "' does not exist")]
  | None => fallback []
  end.

(** [Ok (None, _)] is the NULL result, else the contents of the stream. *)
Definition open_kconfig : res brk (option cstr * list report) :=
  let '(path, log) := kconfig_path 1024 in
  match path with
  | None => Ok (None, log)
  | Some path =>
      let log := log ++ [(TINFO, str "Parsing kernel config '" ++ path ++ str "'")] in
      let is_gzip := match strstr path (str ".gz") with Some _ => true | None => false end in
      let fp :=
        if is_gzip then popen env (snprintf 1064 (str "zcat '" ++ path ++ str "'"))
        else fopen env path in
      match fp with
      | None => Err (Z.lor TBROK TERRNO, str "Failed to open '" ++ path ++ str "'")
      | Some content => Ok (Some content, log)
      end
  end.
End Locate.

(** ** Parsing one line *)
Section ParseLine.
Local Open Scope Z_scope.

Definition is_var_char (c : Z) : bool := isupper c || isdigit c || (c =? "_"%ch).

(** [while (!isspace(val[val_len])) val_len++] over the memory from [val] to
    the end of the buffer; [None] if the loop runs past it. *)
Fixpoint find_space (mem : list Z) : option nat :=
  match mem with
  | [] => None
  | c :: mem' => if isspace c then Some 0%nat else S <$> find_space mem'
  end.

Definition set_choice (c : Z) (v : tst_kconfig_var) : tst_kconfig_var :=
  mkVar (v_id v) (v_id_len v) c (v_val v).

(** The loop over the variables.  [var] is the rest of the line from the name
    on, [tail] what the buffer holds after the NUL that ends the line. *)
Fixpoint parse_vars (is_not_set : bool) (var : cstr) (var_len : nat) (tail : list Z)
    (vars : list tst_kconfig_var) : res brk (bool * list tst_kconfig_var) :=
  match vars with
  | [] => Ok (false, [])
  | v :: vs =>
      let continue (v' : tst_kconfig_var) :=
        '(r, vs') ← parse_vars is_not_set var var_len tail vs; Ok (r, v' :: vs') in
      if negb (Nat.eqb (v_id_len v) var_len) then continue v
      else if negb (strneq var_len (v_id v) var) then continue v
      else if is_not_set then Ok (true, set_choice "n"%ch v :: vs)
      else
        match skip_while isspace (drop var_len var) with
        | [] => Ok (false, v :: vs)
        | c :: rest =>
            if negb (c =? "="%ch) then Ok (false, v :: vs)
            else
              let val := skip_while isspace rest in
              val_len ← or_fault (find_space (val ++ 0 :: tail));
              if Nat.eqb val_len 1 && (at_ val 0 =? "y"%ch) then Ok (true, set_choice "y"%ch v :: vs)
              else if Nat.eqb val_len 1 && (at_ val 0 =? "m"%ch) then Ok (true, set_choice "m"%ch v :: vs)
              else continue (mkVar (v_id v) (v_id_len v) "v"%ch (Some (take val_len val)))
        end
  end.

Definition kconfig_parse_line (line : cstr) (tail : list Z) (vars : list tst_kconfig_var)
    : res brk (bool * list tst_kconfig_var) :=
  let line := skip_while isspace line in
  let is_comment := at_ line 0 =? "#"%ch in
  if is_comment && match strstr line (str "is not set") with Some _ => false | None => true end
  then Ok (false, vars)
  else
    match strstr line (str "CONFIG_") with
    | None => Ok (false, vars)
    | Some var => parse_vars is_comment var (prefix_len is_var_char var) tail vars
    end.
End ParseLine.

(** ** Reading the file *)

(** At most [n] characters, up to and including a newline. *)
Fixpoint fgets (n : nat) (s : cstr) : cstr * cstr :=
  match n, s with
  | O, _ | _, [] => ([], s)
  | S n', c :: s' =>
      if bool_decide (c = NEWLINE) then ([c], s')
      else let '(l, r) := fgets n' s' in (c :: l, r)
  end.

(** The [while (fgets())] loop; [linebuf] is the whole array [line]. *)
Fixpoint read_loop (fuel : nat) (content : cstr) (linebuf : list Z)
    (vars : list tst_kconfig_var) (vars_found : nat) : res brk (list tst_kconfig_var) :=
  match content with
  | [] => Ok vars
  | _ =>
      match fuel with
      | O => Fault
      | S fuel' =>
          let '(line, rest) := fgets (LINE_SIZE - 1) content in
          let tail := drop (S (length line)) linebuf in
          '(r, vars') ← kconfig_parse_line line tail vars;
          let vars_found' := if r : bool then S vars_found else vars_found in
          if Nat.eqb vars_found' (length vars') then Ok vars'
          else read_loop fuel' rest (line ++ 0%Z :: tail) vars' vars_found'
      end
  end.

Definition tst_kconfig_read (env : kenv) (vars : list tst_kconfig_var)
    : res brk (list tst_kconfig_var * list report) :=
  '(fp, log) ← open_kconfig env;
  match fp with
  | None => Err (TBROK, str "Cannot parse kernel .config")
  | Some content =>
      vars' ← read_loop (S (length content)) content (line_init env) vars 0;
      Ok (vars', log)
  end.

(** ** Variables of the expressions *)

(** [while (kconfigs[++i]);] starts at index 1. *)
Definition array_len {A} (kconfigs : list A) : res brk nat :=
  match kconfigs with [] => Fault | _ => Ok (length kconfigs) end.

Fixpoint strnchr (s : cstr) (c : Z) (len : nat) : option nat :=
  match len, s with
  | O, _ => None
  | S _, [] => None
  | S len', x :: s' => if bool_decide (x = c) then Some 0 else S <$> strnchr s' c len'
  end.

Definition get_len (kconfig : cstr) (len : nat) : nat :=
  match strnchr kconfig "="%ch len with None => len | Some sep => sep end.

Definition print_err (t : cstr) (tok_len spaces : nat) (err : string) : cstr :=
  take tok_len t ++ [NEWLINE] ++ print_spaces spaces ++ ["^"%ch; NEWLINE] ++ str err
  ++ [NEWLINE; NEWLINE].

(** The scan of the name from index [i]; [s] is the text from there on.
    [inl] is a return, [inr] the index where the loop stopped. *)
Fixpoint validate_name (t s : cstr) (i len : nat) : (Z * cstr) + nat :=
  match s with
  | [] => inr i
  | c :: s' =>
      if Nat.leb len i then inl (0%Z, [])
      else if isupper c || bool_decide (c = "_"%ch) then validate_name t s' (S i) len
      else if isdigit c then validate_name t s' (S i) len
      else if bool_decide (c = "="%ch) then inr (S i)
      else inl (1%Z, print_err t len i "Unexpected character in variable name")
  end.

(** The check of the value from index [i] on. *)
Definition validate_value (t : cstr) (i len : nat) : Z * cstr :=
  if Nat.leb len i then
    if bool_decide (at_ t (i - 1) = "="%ch)
    then ((-1)%Z, print_err t len i "Missing value")
    else (0%Z, [])
  else if bool_decide (at_ t i = DQUOTE) then
    let j := S i + prefix_len (fun c => negb (bool_decide (c = DQUOTE)))
                     (take (len - S i) (drop (S i) t)) in
    if Nat.ltb j (len - 1) then (1%Z, print_err t len j "Garbage after a string")
    else if negb (bool_decide (at_ t j = DQUOTE))
    then (1%Z, print_err t len j "Untermianted string")
    else (0%Z, [])
  else
    let j := S i + prefix_len isalnum (take (len - S i) (drop (S i) t)) in
    if Nat.ltb j len
    then (1%Z, print_err t len j "Invalid character in variable value")
    else (0%Z, []).

(** [t] is the text from the token on; the result with what is printed. *)
Definition validate_var (t : cstr) (len : nat) : Z * cstr :=
  if Nat.ltb len 7 || negb (strneq 7 t (str "CONFIG_"))
  then (1%Z, print_err t len 0 "Expected CONFIG_ prefix")
  else
    match validate_name t (drop 7 t) 7 len with
    | inl r => r
    | inr i => validate_value t i len
    end.

(** The tokens visited by [for (j = expr->rpn; j; j = j->next)]. *)
Fixpoint rpn_walk (fuel : nat) (b : list tst_expr_tok) (i : option nat) : res brk (list nat) :=
  match i with
  | None => Ok []
  | Some k =>
      match fuel with
      | O => Fault
      | S fuel' => t ← or_fault (b !! k); l ← rpn_walk fuel' b (next t); Ok (k :: l)
      end
  end.
Definition rpn_list (e : tst_expr) : res brk (list nat) :=
  rpn_walk (length (buf e)) (buf e) (rpn e).

(** An expression with the string its tokens point into. *)
Definition kexpr : Set := cstr * tst_expr.

Definition is_var_tok (b : list tst_expr_tok) (i : nat) : bool :=
  bool_decide (tok_op b i = Some TST_OP_VAR).

(** [ret] accumulates with [|=]; only whether it is zero matters. *)
Fixpoint validate_vars (exprs : list kexpr) : res brk bool :=
  match exprs with
  | [] => Ok false
  | (s, e) :: es =>
      l ← rpn_list e;
      let bad i := match buf e !! i with
                   | Some t => negb (fst (validate_var (drop (tok t) s) (tok_len t)) =? 0)%Z
                   | None => false
                   end in
      rest ← validate_vars es;
      Ok (existsb bad (filter (is_var_tok (buf e)) l) || rest)
  end.

Fixpoint get_var_cnt (exprs : list kexpr) : res brk nat :=
  match exprs with
  | [] => Ok 0
  | (_, e) :: es =>
      l ← rpn_list e; n ← get_var_cnt es;
      Ok (length (filter (is_var_tok (buf e)) l) + n)
  end.

Fixpoint find_var (vars : list tst_kconfig_var) (var : cstr) : option nat :=
  match vars with
  | [] => None
  | v :: vs => if streq (v_id v) var then Some 0 else S <$> find_var vs var
  end.

(** One token of [populate_vars]; [vars] are the first [cnt] entries of the
    array of [cap] entries. *)
Definition populate_tok (cap : nat) (s : cstr) (i : nat)
    (st : list tst_expr_tok * list tst_kconfig_var)
    : res brk (list tst_expr_tok * list tst_kconfig_var) :=
  let '(b, vars) := st in
  t ← or_fault (b !! i);
  if negb (bool_decide (op t = TST_OP_VAR)) then Ok (b, vars)
  else if negb (Nat.ltb (length vars) cap) then Fault
  else
    let text := drop (tok t) s in
    let id_len := get_len text (tok_len t) in
    if Nat.leb ID_SIZE (id_len + 1) then Err (TBROK, str "kconfig var id too long!")
    else
      let v := mkVar (take id_len text) id_len 0 None in
      match find_var vars (v_id v) with
      | Some k => Ok (alter (set_priv (PVar k)) i b, vars)
      | None => Ok (alter (set_priv (PVar (length vars))) i b, vars ++ [v])
      end.

Fixpoint populate_toks (cap : nat) (s : cstr) (l : list nat)
    (st : list tst_expr_tok * list tst_kconfig_var)
    : res brk (list tst_expr_tok * list tst_kconfig_var) :=
  match l with
  | [] => Ok st
  | i :: l' => st' ← populate_tok cap s i st; populate_toks cap s l' st'
  end.

Fixpoint populate_vars (cap : nat) (exprs : list kexpr) (vars : list tst_kconfig_var)
    : res brk (list kexpr * list tst_kconfig_var) :=
  match exprs with
  | [] => Ok ([], vars)
  | (s, e) :: es =>
      l ← rpn_list e;
      '(b, vars1) ← populate_toks cap s l (buf e, vars);
      '(es', vars2) ← populate_vars cap es vars1;
      Ok ((s, mkExpr (rpn e) b) :: es', vars2)
  end.

(** ** Evaluating the expressions *)
Section Map.
Local Open Scope Z_scope.

(** [map]: the value of a variable token; [s] is the expression string. *)
Definition kconfig_map (s : cstr) (vars : list tst_kconfig_var) (t : tst_expr_tok) : Z :=
  match priv t with
  | PVar k =>
      match vars !! k with
      | None => 0
      | Some var =>
          if v_choice var =? 0 then 0
          else
            let text := drop (tok t) s in
            match strnchr text "="%ch (tok_len t) with
            | None => c_bool ((v_choice var =? "y"%ch) || (v_choice var =? "m"%ch))
            | Some sep =>
                let val := drop (S sep) text in
                let len := (tok_len t - S sep)%nat in
                let choice :=
                  if strneq len val (str "m") then "m"%ch
                  else if strneq len val (str "y") then "y"%ch
                  else if strneq len val (str "n") then "n"%ch
                  else "v"%ch in
                if negb (choice =? "v"%ch) then c_bool (v_choice var =? choice)
                else if negb (v_choice var =? "v"%ch) then 0
                else
                  match v_val var with
                  | None => 0
                  | Some w =>
                      if negb (Nat.eqb (length w) len) then 0
                      else c_bool (strneq len val w)
                  end
            end
      end
  | _ => 0
  end.
End Map.

(** What [dump_vars] reports. *)
Definition dump_var (vars : list tst_kconfig_var) (t : tst_expr_tok) : list report :=
  match priv t with
  | PVar k =>
      match vars !! k with
      | None => []
      | Some var =>
          if (v_choice var =? 0)%Z then [(TINFO, str " " ++ v_id var ++ str " Undefined")]
          else if (v_choice var =? "v"%ch)%Z
          then [(TINFO, str " " ++ v_id var ++ str "=" ++ default [] (v_val var))]
          else [(TINFO, str " " ++ v_id var ++ str "=" ++ [v_choice var])]
      end
  | _ => []
  end.

Definition dump_vars (vars : list tst_kconfig_var) (e : tst_expr) : res brk (list report) :=
  l ← rpn_list e;
  Ok ((TINFO, str "Variables:")
      :: concat (map (fun i => match buf e !! i with
                               | Some t => if bool_decide (op t = TST_OP_VAR) then dump_var vars t else []
                               | None => []
                               end) l)).

Fixpoint parse_exprs (env : kenv) (kconfigs : list cstr) : res brk (list kexpr) :=
  match kconfigs with
  | [] => Ok []
  | s :: ks =>
      match tst_bool_expr_parse (malloc_ok env) s with
      | Ok (Some e, _) => es ← parse_exprs env ks; Ok ((s, e) :: es)
      | Ok (None, _) => Err (TBROK, str "Invalid kconfig expression!")
      | _ => Fault
      end
  end.

Fixpoint eval_exprs (vars : list tst_kconfig_var) (exprs : list kexpr) : res brk (bool * list report) :=
  match exprs with
  | [] => Ok (false, [])
  | (s, e) :: es =>
      match tst_bool_expr_eval e (kconfig_map s vars) with
      | Ok val =>
          log1 ← (if (val =? 1)%Z then Ok []
                  else d ← dump_vars vars e;
                       Ok ((TINFO, str "Constraint '" ++ s ++ str "' not satisfied!") :: d));
          '(ret, log2) ← eval_exprs vars es;
          Ok (negb (val =? 1)%Z || ret, log1 ++ log2)
      | _ => Fault
      end
  end.

Definition tst_kconfig_check (env : kenv) (kconfigs : list cstr) : res brk (Z * list report) :=
  _ ← array_len kconfigs;
  let '(skip, log0) := kconfig_skip_check env in
  if skip then Ok (0%Z, log0)
  else
    exprs ← parse_exprs env kconfigs;
    bad ← validate_vars exprs;
    if bad : bool then Err (TBROK, str "Invalid kconfig variables!")
    else
      cap ← get_var_cnt exprs;
      '(exprs', vars) ← populate_vars cap exprs [];
      '(vars', log1) ← tst_kconfig_read env vars;
      '(ret, log2) ← eval_exprs vars' exprs';
      Ok (c_bool ret, log0 ++ log1 ++ log2).

Definition tst_kconfig_get (env : kenv) (confname : cstr) : res brk (Z * list report) :=
  let '(skip, log0) := kconfig_skip_check env in
  if skip then Ok (0%Z, log0)
  else if Nat.leb ID_SIZE (length confname)
  then Err (TBROK, str "Kconfig var name " ++ [DQUOTE] ++ confname ++ [DQUOTE] ++ str " too long")
  else
    '(vars, log1) ← tst_kconfig_read env [mkVar confname (length confname) 0 None];
    Ok (match vars with v :: _ => v_choice v | [] => 0%Z end, log0 ++ log1).

(** An environment whose configuration is the given text. *)
Definition env_of (content : cstr) : kenv :=
  mkEnv false None (fun p => streq p (str "/boot/config-6.1")) (str "6.1")
    (fun _ => Some content) (fun _ => None) (replicate LINE_SIZE 0%Z) true.

Example check_ex1 :
  fst <$> (match tst_kconfig_check
            (env_of (str "CONFIG_A=y" ++ [NEWLINE] ++ str "# CONFIG_B is not set" ++ [NEWLINE]
                     ++ str "CONFIG_HZ=250" ++ [NEWLINE]))
            [str "CONFIG_A & !CONFIG_B"; str "CONFIG_HZ=250"] with
          | Ok r => Some r | _ => None end) = Some 0%Z.
Proof. vm_compute. reflexivity. Qed.

(** ** Configuration files

    The lines [make config] writes: a variable with a value, a variable that is
    not set, a comment or an empty line. *)
Inductive setting : Set := SetY | SetM | SetVal (w : cstr) | NotSet.
Inductive cline : Set :=
| CSetting (name : cstr) (st : setting)
| CComment (text : cstr)
| CBlank.

Definition line_text (l : cline) : cstr :=
  match l with
  | CSetting n SetY => n ++ str "=y"
  | CSetting n SetM => n ++ str "=m"
  | CSetting n (SetVal w) => n ++ str "=" ++ w
  | CSetting n NotSet => str "# " ++ n ++ str " is not set"
  | CComment t => "#"%ch :: t
  | CBlank => []
  end.
Definition render_line (l : cline) : cstr := line_text l ++ [NEWLINE].
Definition render_config (ls : list cline) : cstr := concat (map render_line ls).

Definition wf_name (n : cstr) : bool := starts n (str "CONFIG_") && forallb is_var_char n.
(** A value is a number or a quoted string, which may hold blanks; of its text
    only the first word is read. *)
Definition first_word (w : cstr) : cstr := take (prefix_len (fun c => negb (isspace c)) w) w.
Definition wf_setting (st : setting) : bool :=
  match st with
  | SetVal w => forallb (fun c => negb (bool_decide (c = NEWLINE))) w
                && bool_decide (first_word w <> [] /\ first_word w <> str "y" /\ first_word w <> str "m")
  | _ => true
  end.
(** A line longer than the buffer is read in pieces: no piece but the first may
    name a variable, and of a variable that is looked for ([ids]) the first word
    of the value has to end in the first piece. *)
Definition wf_line (ids : list cstr) (l : cline) : bool :=
  bool_decide (strstr (drop (LINE_SIZE - 1) (render_line l)) (str "CONFIG_") = None)
  && match l with
     | CSetting n st => wf_name n && Nat.ltb (length n) 100 && wf_setting st
                        && match st with
                           | SetVal w => bool_decide (n ∈ ids -> length n + 1 + length (first_word w) < LINE_SIZE - 1)
                           | _ => true
                           end
     | CComment t => forallb (fun c => negb (bool_decide (c = NEWLINE))) t
                     && bool_decide (strstr (render_line l) (str "is not set") = None)
     | CBlank => true
     end.

Definition line_names (l : cline) : list cstr := match l with CSetting n _ => [n] | _ => [] end.
Definition names (ls : list cline) : list cstr := concat (map line_names ls).
Definition wf_config (ids : list cstr) (ls : list cline) : Prop := forallb (wf_line ids) ls = true /\ NoDup (names ls).

Fixpoint lookup_cfg (ls : list cline) (n : cstr) : option setting :=
  match ls with
  | [] => None
  | CSetting n' st :: ls' => if bool_decide (n' = n) then Some st else lookup_cfg ls' n
  | _ :: ls' => lookup_cfg ls' n
  end.

(** A variable with what the file says about it. *)
Definition set_to (st : setting) (v : tst_kconfig_var) : tst_kconfig_var :=
  match st with
  | SetY => set_choice "y"%ch v
  | SetM => set_choice "m"%ch v
  | NotSet => set_choice "n"%ch v
  | SetVal w => mkVar (v_id v) (v_id_len v) "v"%ch (Some (first_word w))
  end.
Definition settle (ls : list cline) (v : tst_kconfig_var) : tst_kconfig_var :=
  match lookup_cfg ls (v_id v) with Some st => set_to st v | None => v end.

(** The effect of one line. *)
Definition apply_line (l : cline) (v : tst_kconfig_var) : tst_kconfig_var :=
  match l with CSetting n st => if bool_decide (v_id v = n) then set_to st v else v | _ => v end.
Definition counts (st : setting) : bool := match st with SetVal _ => false | _ => true end.
Definition line_found (l : cline) (ids : list cstr) : bool :=
  match l with CSetting n st => counts st && bool_decide (n ∈ ids) | _ => false end.

(** The array of variables: distinct identifiers with their lengths. *)
Definition vars_wf (vars : list tst_kconfig_var) : Prop :=
  NoDup (v_id <$> vars) /\ Forall (fun v => v_id_len v = length (v_id v)) vars.

Lemma vars_wf_cons v vs : vars_wf (v :: vs) ->
  v_id_len v = length (v_id v) /\ (v_id v ∉ v_id <$> vs) /\ vars_wf vs.
Proof. intros [[??]%NoDup_cons [??]%Forall_cons]. done. Qed.

Lemma v_id_apply l v : v_id (apply_line l v) = v_id v /\ v_id_len (apply_line l v) = v_id_len v.
Proof. destruct l as [n [| |w|]| |]; simpl; try case_bool_decide; done. Qed.

Lemma fmap_id_apply l (vars : list tst_kconfig_var) : v_id <$> (apply_line l <$> vars) = v_id <$> vars.
Proof. rewrite <-list_fmap_compose. apply list_fmap_ext. intros ? v _. apply v_id_apply. Qed.

Lemma vars_wf_apply l vars : vars_wf vars -> vars_wf (apply_line l <$> vars).
Proof.
  intros [Hn Hf]. split; [by rewrite fmap_id_apply|]. apply Forall_fmap.
  eapply Forall_impl; [done|]. intros v Hv. simpl. by destruct (v_id_apply l v) as [-> ->].
Qed.

Lemma apply_line_notin l (vars : list tst_kconfig_var) : (forall n, n ∈ line_names l -> n ∉ v_id <$> vars) ->
  apply_line l <$> vars = vars.
Proof.
  intros H. rewrite <-(list_fmap_id vars) at 2. apply list_fmap_ext. intros i v Hv.
  destruct l as [n st| |]; simpl; try done. case_bool_decide; [subst|done].
  destruct (H (v_id v)); [set_solver|]. apply list_elem_of_fmap. exists v.
  split; [done|]. by eapply list_elem_of_lookup_2.
Qed.

Lemma strstr_none s t : strstr s t = None <-> forall a b, s <> a ++ t ++ b.
Proof.
  split.
  - intros H a b ->. by apply (strstr_found a t b).
  - intros H. induction s as [|c s IH]; simpl.
    + destruct t; [|done]. by destruct (H [] []).
    + destruct (starts (c :: s) t) eqn:E; [apply starts_spec in E as [u E]; by destruct (H [] u)|]. apply IH. intros a b ->. by apply (H (c :: a) b).
Qed.
Lemma strstr_none_take s t n : strstr s t = None -> strstr (take n s) t = None.
Proof.
  rewrite !strstr_none. intros H a b E. apply (H a (b ++ drop n s)). rewrite <-(take_drop n s) at 1. by rewrite E, <-!app_assoc.
Qed.
Lemma strstr_none_drop s t n : strstr s t = None -> strstr (drop n s) t = None.
Proof. rewrite !strstr_none. intros H a b E. apply (H (take n s ++ a) b). rewrite <-(take_drop n s) at 1. by rewrite E, <-!app_assoc. Qed.

(** *** One line *)

Lemma find_space_app w c t : forallb (fun c => negb (isspace c)) w = true -> isspace c = true ->
  find_space (w ++ c :: t) = Some (length w).
Proof.
  intros H Hc. induction w as [|d w IH]; simpl in *; [by rewrite Hc|]. apply andb_true_iff in H as [Hd H].
  destruct (isspace d); [done|]. by rewrite IH.
Qed.

Lemma first_word_spec w : exists t, w = first_word w ++ t /\ forallb (fun c => negb (isspace c)) (first_word w) = true /\
  match t with [] => True | c :: _ => isspace c = true end.
Proof.
  destruct (prefix_len_split (fun c => negb (isspace c)) w) as (a & b & E & Hl & Ha & Hb).
  assert (first_word w = a) as ->. { unfold first_word. rewrite <-Hl, E. apply take_app_length. }
  exists b. split_and!; [done|done|]. destruct b; [done|]. by apply negb_false_iff.
Qed.

Lemma skip_spaces_id c s : isspace c = false -> skip_while isspace (c :: s) = c :: s.
Proof. intros H. simpl. by rewrite H. Qed.

Lemma is_var_char_space c : is_var_char c = true -> isspace c = false.
Proof. unfold is_var_char, isspace, isupper, isdigit. bools; simpl; try done; lia. Qed.

(** What follows the name on a line that sets a variable. *)
Definition set_rest (st : setting) : cstr :=
  match st with SetY => str "=y" | SetM => str "=m" | SetVal w => str "=" ++ w
           | NotSet => str " is not set" end ++ [NEWLINE].

(** As much of it as one piece of the line holds. *)
Definition shows (st : setting) (rest : cstr) : Prop :=
  match st with
  | SetVal w => exists c u, isspace c = true /\ rest = str "=" ++ first_word w ++ c :: u
  | _ => rest = set_rest st
  end.
Definition is_unset (st : setting) : bool := match st with NotSet => true | _ => false end.

(** The name compares equal exactly to the variable with that identifier. *)
Lemma name_match v n rest : v_id_len v = length (v_id v) ->
  (negb (Nat.eqb (v_id_len v) (length n)) || negb (strneq (length n) (v_id v) (n ++ rest)))
  = negb (bool_decide (v_id v = n)).
Proof.
  intros ->. destruct (Nat.eqb_spec (length (v_id v)) (length n)) as [E|E]; simpl.
  - f_equal. apply eq_bool_prop_intro. rewrite <-E, bool_decide_spec, Is_true_true, strneq_full.
    by rewrite E, take_app_length.
  - rewrite bool_decide_eq_false_2; [done|]. congruence.
Qed.

Lemma parse_vars_skip u var len tail v vs :
  negb (Nat.eqb (v_id_len v) len) || negb (strneq len (v_id v) var) = true ->
  parse_vars u var len tail (v :: vs)
  = '(r, vs') ← parse_vars u var len tail vs; Ok (r, v :: vs').
Proof. simpl. intros H. by destruct (negb _); [|destruct (negb _)]. Qed.

Lemma parse_vars_notin u n rest tail vars : vars_wf vars -> (n ∉ v_id <$> vars) ->
  parse_vars u (n ++ rest) (length n) tail vars = Ok (false, vars).
Proof.
  induction vars as [|v vs IH]; intros Hwf Hn; [done|].
  apply vars_wf_cons in Hwf as (Hlen & _ & Hwf). rewrite fmap_cons, not_elem_of_cons in Hn.
  rewrite parse_vars_skip by (rewrite name_match, bool_decide_eq_false_2; naive_solver).
  by rewrite IH by naive_solver.
Qed.

Lemma skip_value w t : wf_setting (SetVal w) = true -> let x := first_word w in
  skip_while isspace (x ++ t) = x ++ t /\
  Nat.eqb (length x) 1 && (at_ (x ++ t) 0 =? "y"%ch)%Z = false /\
  Nat.eqb (length x) 1 && (at_ (x ++ t) 0 =? "m"%ch)%Z = false.
Proof.
  simpl. intros [_ (Hne & Hy & Hm)%bool_decide_eq_true]%andb_true_iff.
  destruct (first_word_spec w) as (_ & _ & Hs & _). destruct (first_word w) as [|c x]; [done|]. simpl in Hs |- *. apply andb_true_iff in Hs as [Hc _].
  destruct (isspace c); [done|]. split; [done|]. unfold at_. simpl.
  destruct x; [|done]. simpl. split; apply Z.eqb_neq; intros ->; done.
Qed.

(** The line sets the variable whose identifier it names. *)
Lemma parse_vars_hit st v vs rest tail : wf_setting st = true -> vars_wf (v :: vs) -> shows st rest ->
  parse_vars (is_unset st) (v_id v ++ rest) (length (v_id v)) tail (v :: vs)
  = Ok (counts st, set_to st v :: vs).
Proof.
  intros Hst Hwf Hr. pose proof Hwf as (Hlen & Hn & Hvs)%vars_wf_cons.
  pose proof (name_match v (v_id v) rest Hlen) as Hm.
  rewrite bool_decide_eq_true_2 in Hm by done. apply orb_false_iff in Hm as [Hm1 Hm2].
  cbn [parse_vars]. rewrite Hm1, Hm2.
  rewrite drop_app_length. destruct st as [| |w|]; simpl in Hr; [subst rest; done..| |subst rest; done].
  destruct Hr as (c & u & Hc & ->). apply skip_value with (t := c :: u) in Hst as H. simpl in H.
  destruct H as (E & Hy & Hm). simpl. rewrite E. rewrite <-app_assoc. simpl. destruct (first_word_spec w) as (_ & _ & Hs & _).
  rewrite find_space_app by done. simpl.
  rewrite Hy, Hm. rewrite parse_vars_notin by done. simpl. by rewrite take_app_length.
Qed.

Lemma parse_vars_set st n rest tail vars : wf_setting st = true -> vars_wf vars -> (n ∈ v_id <$> vars -> shows st rest) ->
  parse_vars (is_unset st) (n ++ rest) (length n) tail vars
  = Ok (line_found (CSetting n st) (v_id <$> vars), apply_line (CSetting n st) <$> vars).
Proof.
  intros Hst. induction vars as [|v vs IH]; intros Hwf Hr.
  - simpl. by rewrite andb_comm.
  - pose proof Hwf as (Hlen & Hn & Hvs)%vars_wf_cons. rewrite !fmap_cons in *.
    destruct (decide (v_id v = n)) as [<-|Hne].
    + rewrite parse_vars_hit by (done || apply Hr; by left). f_equal. f_equal.
      * simpl. rewrite bool_decide_eq_true_2; [by rewrite andb_true_r|by left].
      * rewrite apply_line_notin by set_solver. simpl. by rewrite bool_decide_eq_true_2.
    + rewrite parse_vars_skip by (by rewrite name_match, bool_decide_eq_false_2).
      rewrite IH by (done || (intros ?; apply Hr; by right)). simpl. rewrite (bool_decide_eq_false_2 (v_id v = n)) by done.
      f_equal. f_equal. f_equal. apply bool_decide_ext. rewrite elem_of_cons. naive_solver.
Qed.

(** What follows a name does not go on with it. *)
Definition name_ends (rest : cstr) : Prop := exists c u, rest = c :: u /\ is_var_char c = false.
Lemma name_prefix n rest : forallb is_var_char n = true -> name_ends rest ->
  prefix_len is_var_char (n ++ rest) = length n.
Proof. intros H (c & u & -> & Hc). by apply prefix_len_stop. Qed.

Lemma parse_line_name n rest tail vars : wf_name n = true -> name_ends rest ->
  kconfig_parse_line (n ++ rest) tail vars
  = parse_vars false (n ++ rest) (length n) tail vars.
Proof.
  intros [[u ->]%starts_spec Hc]%andb_true_iff Hr.
  rewrite <-(name_prefix _ rest) by done. unfold kconfig_parse_line.
  rewrite <-app_assoc. reflexivity.
Qed.

Lemma parse_line_unset n tail vars : wf_name n = true ->
  kconfig_parse_line (str "# " ++ n ++ set_rest NotSet) tail vars
  = parse_vars true (n ++ set_rest NotSet) (length n) tail vars.
Proof.
  intros [[u ->]%starts_spec Hc]%andb_true_iff.
  rewrite <-(name_prefix _ (set_rest NotSet)) by (done || by eexists _, _). unfold kconfig_parse_line.
  assert (E : strstr (str "# " ++ (str "CONFIG_" ++ u) ++ set_rest NotSet) (str "is not set") <> None).
  { unfold set_rest. change (str " is not set") with (str " " ++ str "is not set").
    rewrite !(app_assoc (str "# ")), <-(app_assoc (str " ")), !(app_assoc _ (str " ")).
    apply strstr_found. }
  change (skip_while isspace (str "# " ++ (str "CONFIG_" ++ u) ++ set_rest NotSet))
    with (str "# " ++ (str "CONFIG_" ++ u) ++ set_rest NotSet).
  destruct (strstr _ (str "is not set")); [|done]. by rewrite <-app_assoc.
Qed.

Lemma wf_line_setting ids n st : wf_line ids (CSetting n st) = true ->
  wf_name n = true /\ length n < 100 /\ wf_setting st = true /\
  match st with SetVal w => n ∈ ids -> length n + 1 + length (first_word w) < LINE_SIZE - 1 | _ => True end.
Proof.
  unfold wf_line. intros [_ [[[Hn Hl%Nat.ltb_lt]%andb_true_iff Hst]%andb_true_iff Hw]%andb_true_iff]%andb_true_iff.
  split_and!; try done. destruct st; try done. by apply bool_decide_eq_true in Hw.
Qed.

(** The first piece of a line with a value. *)
Lemma piece_shows w k : wf_setting (SetVal w) = true -> length (first_word w) < k ->
  shows (SetVal w) (str "=" ++ take k (w ++ [NEWLINE])).
Proof.
  intros Hst Hk. destruct (first_word_spec w) as (t & E & _ & Ht). exists (match t with [] => NEWLINE | c :: _ => c end).
  exists (take (k - length (first_word w) - 1) (match t with [] => [] | _ :: t => t ++ [NEWLINE] end)).
  split; [by destruct t|]. f_equal. rewrite E at 1. rewrite <-app_assoc, take_app_ge by lia. f_equal.
  set (j := k - length (first_word w) - 1). replace (k - length (first_word w)) with (S j) by lia. destruct t; cbn; by rewrite ?take_nil.
Qed.

(** [kconfig_parse_line] on the first piece of every line of a configuration
    file. *)
Lemma parse_line_ok ids l tail vars : wf_line ids l = true -> vars_wf vars -> (forall n, n ∈ v_id <$> vars -> n ∈ ids) ->
  kconfig_parse_line (take (LINE_SIZE - 1) (render_line l)) tail vars
  = Ok (line_found l (v_id <$> vars), apply_line l <$> vars).
Proof.
  intros Hl Hwf Hids. destruct l as [n st|t|].
  - apply wf_line_setting in Hl as (Hn & Hlen & Hst & Hw). unfold render_line. destruct st as [| |w|].
    1-2: rewrite take_ge by (cbn; rewrite ?length_app; cbn; unfold LINE_SIZE; lia); unfold line_text; rewrite <-app_assoc;
      rewrite parse_line_name by (done || by eexists _, _); apply parse_vars_set with (st := SetY) || apply parse_vars_set with (st := SetM); done.
    + unfold line_text. rewrite <-!app_assoc, take_app_ge by (unfold LINE_SIZE; lia).
      change (str "=" ++ w ++ [NEWLINE]) with ("="%ch :: w ++ [NEWLINE]). replace (LINE_SIZE - 1 - length n) with (S (LINE_SIZE - 1 - length n - 1)) by (unfold LINE_SIZE; lia).
      cbn [firstn]. change ("="%ch :: take ?k ?u) with (str "=" ++ take k u). rewrite parse_line_name by (done || by eexists _, _).
      apply (parse_vars_set (SetVal w)); [done|done|]. intros Hin. apply piece_shows; [done|]. specialize (Hw (Hids _ Hin)). lia.
    + rewrite take_ge by (cbn; rewrite ?length_app; cbn; unfold LINE_SIZE; lia). unfold line_text. rewrite <-!app_assoc.
      rewrite (parse_line_unset n tail vars Hn : kconfig_parse_line (str "# " ++ n ++ str " is not set" ++ [NEWLINE]) tail vars = _). by apply (parse_vars_set NotSet).
  - unfold wf_line in Hl. apply andb_true_iff in Hl as [_ [_ Hl%bool_decide_eq_true]%andb_true_iff]. unfold kconfig_parse_line.
    unfold render_line in *. cbn [line_text app] in *. change (take (LINE_SIZE - 1) ("#"%ch :: ?u)) with ("#"%ch :: take (LINE_SIZE - 2) u).
    rewrite skip_spaces_id by done. rewrite (strstr_none_take ("#"%ch :: t ++ [NEWLINE]) _ (LINE_SIZE - 1) Hl : strstr ("#"%ch :: take (LINE_SIZE - 2) (t ++ [NEWLINE])) _ = None). cbn.
    by rewrite list_fmap_id.
  - cbn. by rewrite list_fmap_id.
Qed.

(** A piece without a name changes nothing. *)
Lemma parse_piece s tail vars : strstr s (str "CONFIG_") = None -> kconfig_parse_line s tail vars = Ok (false, vars).
Proof.
  intros H. assert (Hs : strstr (skip_while isspace s) (str "CONFIG_") = None).
  { revert H. induction s as [|c s IH]; [done|]. intros H. simpl. destruct (isspace c); [|done]. apply IH. exact (strstr_none_drop (c :: s) _ 1 H). }
  unfold kconfig_parse_line. rewrite Hs. by destruct (_ && _).
Qed.

(** *** The whole file *)

Lemma fgets_line n l rest : NEWLINE ∉ l -> length l < n ->
  fgets n (l ++ NEWLINE :: rest) = (l ++ [NEWLINE], rest).
Proof.
  revert l. induction n as [|n IH]; intros l Hl Hn; [lia|]. destruct l as [|c l]; simpl; [done|].
  rewrite not_elem_of_cons in Hl. rewrite bool_decide_eq_false_2 by naive_solver.
  rewrite IH; [done|naive_solver|simpl in Hn; lia].
Qed.
Lemma fgets_long n l rest : NEWLINE ∉ l -> n <= length l -> fgets n (l ++ rest) = (take n l, drop n l ++ rest).
Proof.
  revert l. induction n as [|n IH]; intros l Hl Hn; [by destruct l|]. destruct l as [|c l]; simpl in *; [lia|].
  rewrite not_elem_of_cons in Hl. rewrite bool_decide_eq_false_2 by naive_solver.
  rewrite IH; [done|naive_solver|lia].
Qed.

(** The first piece of a line, and the rest of it. *)
Lemma fgets_piece l rest : NEWLINE ∉ l ->
  fgets (LINE_SIZE - 1) (l ++ NEWLINE :: rest)
  = (take (LINE_SIZE - 1) (l ++ [NEWLINE]), drop (LINE_SIZE - 1) (l ++ [NEWLINE]) ++ rest).
Proof.
  intros Hl. destruct (decide (length l < LINE_SIZE - 1)) as [H|H].
  - rewrite fgets_line, take_ge, drop_ge by (done || (rewrite length_app; cbn [length]; lia)). done.
  - rewrite fgets_long, take_app_le, drop_app_le by (done || lia). by rewrite <-app_assoc.
Qed.

Lemma line_text_plain ids l : wf_line ids l = true -> NEWLINE ∉ line_text l.
Proof.
  intros Hl. destruct l as [n st|t|]; [|unfold wf_line in Hl; apply andb_true_iff in Hl as [_ [Ht _]%andb_true_iff]|set_solver].
  - apply wf_line_setting in Hl as ([_ Hn]%andb_true_iff & _ & Hst & _).
    apply forallb_notin with (c := NEWLINE) in Hn; [|done].
    destruct st as [| |w|]; cbn [line_text]; rewrite ?not_elem_of_app; [set_solver..| |set_solver].
    apply andb_true_iff in Hst as [Hw _].
    apply forallb_notin with (c := NEWLINE) in Hw; [set_solver|by rewrite bool_decide_eq_true_2].
  - apply forallb_notin with (c := NEWLINE) in Ht; [set_solver|by rewrite bool_decide_eq_true_2].
Qed.

(** The further pieces of a line. *)
Lemma read_pieces rest vars found : found <> length vars -> forall n s fuel lb, length s <= n -> (s = [] \/ exists t, s = t ++ [NEWLINE] /\ NEWLINE ∉ t) ->
  strstr s (str "CONFIG_") = None -> length (s ++ rest) <= fuel ->
  exists fuel' lb', length rest <= fuel' /\ read_loop fuel (s ++ rest) lb vars found = read_loop fuel' rest lb' vars found.
Proof.
  intros Hf. induction n as [|n IH]; intros s fuel lb Hn Hs Hc Hfuel.
  { destruct s; [|cbn in Hn; lia]. by exists fuel, lb. }
  destruct Hs as [->|(t & -> & Ht)]; [by exists fuel, lb|]. rewrite <-app_assoc in *. cbn [app] in *. rewrite length_app in Hfuel. cbn [length] in Hfuel. destruct fuel as [|fuel]; [lia|].
  destruct (t ++ NEWLINE :: rest) as [|c0 r0] eqn:E0; [by destruct t|]. cbn [read_loop]. rewrite <-E0, fgets_piece by done.
  rewrite parse_piece by by apply strstr_none_take. cbn [mbind res_bind]. rewrite (proj2 (Nat.eqb_neq _ _) Hf).
  apply IH.
  - rewrite length_app in Hn. rewrite length_drop, length_app. cbn [length] in *. unfold LINE_SIZE. lia.
  - destruct (decide (length t < LINE_SIZE - 1)) as [H|H]; [left; apply drop_ge; rewrite length_app; cbn [length]; lia|right].
    exists (drop (LINE_SIZE - 1) t). rewrite drop_app_le by lia. split; [done|]. intros Hd. apply Ht. rewrite <-(take_drop (LINE_SIZE - 1) t). apply elem_of_app. by right.
  - by apply strstr_none_drop.
  - rewrite length_app, length_drop, length_app. cbn [length]. unfold LINE_SIZE. lia.
Qed.

Lemma apply_lines_id ls : forall vars : list tst_kconfig_var,
  v_id <$> fold_left (fun vs l => apply_line l <$> vs) ls vars = v_id <$> vars.
Proof. induction ls as [|l ls IH]; intros vars; simpl; [done|]. by rewrite IH, fmap_id_apply. Qed.

Lemma apply_lines_notin ls : forall vars : list tst_kconfig_var,
  (forall n, n ∈ names ls -> n ∉ v_id <$> vars) ->
  fold_left (fun vs l => apply_line l <$> vs) ls vars = vars.
Proof.
  induction ls as [|l ls IH]; intros vars H; simpl; [done|]. unfold names in H. simpl in H.
  rewrite apply_line_notin by set_solver. apply IH. set_solver.
Qed.

(** Every variable has been found once as many lines as variables counted. *)
Lemma all_found (F ids : list cstr) : NoDup F -> (forall n, n ∈ F -> n ∈ ids) ->
  length F = length ids -> forall n, n ∈ ids -> n ∈ F.
Proof.
  intros HF Hsub Hlen n Hn. rewrite list_elem_of_In in *. revert Hn.
  apply NoDup_length_incl; [by apply NoDup_ListNoDup|lia|].
  intros x Hx. apply list_elem_of_In, Hsub. by apply list_elem_of_In.
Qed.

(** The names a line adds to those found. *)
Definition found_names (l : cline) (ids : list cstr) : list cstr :=
  if line_found l ids then line_names l else [].

Lemma found_names_spec l ids F ks : NoDup (F ++ line_names l ++ ks) -> (forall n, n ∈ F -> n ∈ ids) ->
  (if line_found l ids then S (length F) else length F) = length (F ++ found_names l ids) /\
  NoDup ((F ++ found_names l ids) ++ ks) /\ (forall n, n ∈ F ++ found_names l ids -> n ∈ ids).
Proof.
  intros Hnd HF. unfold found_names. rewrite <-app_assoc. destruct (line_found l ids) eqn:E.
  - destruct l as [n st| |]; simpl in *; try done.
    apply andb_true_iff in E as [_ E%bool_decide_eq_true].
    split; [rewrite length_app; simpl; lia|]. split; [done|]. set_solver.
  - rewrite app_nil_r. split; [done|]. split; [|done]. simpl.
    eapply sublist_NoDup; [exact Hnd|]. apply sublist_app; [done|]. by apply sublist_inserts_l.
Qed.

Lemma read_loop_ok ids ls : forall fuel lb vars (F : list cstr),
  forallb (wf_line ids) ls = true -> vars_wf vars -> (forall n, n ∈ v_id <$> vars -> n ∈ ids) -> NoDup (F ++ names ls) ->
  (forall n, n ∈ F -> n ∈ v_id <$> vars) -> length (render_config ls) <= fuel ->
  read_loop fuel (render_config ls) lb vars (length F)
  = Ok (fold_left (fun vs l => apply_line l <$> vs) ls vars).
Proof.
  induction ls as [|l ls IH]; intros fuel lb vars F Hls Hwf Hall Hnd HF Hfuel; [by destruct fuel|].
  simpl in Hls. apply andb_true_iff in Hls as [Hl Hls]. pose proof (line_text_plain _ _ Hl) as Hnl.
  assert (Heq : render_config (l :: ls) = line_text l ++ NEWLINE :: render_config ls)
    by (unfold render_config, render_line; simpl; by rewrite <-app_assoc).
  rewrite Heq in *. rewrite length_app in Hfuel. simpl in Hfuel.
  destruct fuel as [|fuel]; [lia|].
  destruct (line_text l ++ NEWLINE :: render_config ls) as [|c0 r0] eqn:E0; [by destruct (line_text l)|].
  cbn [read_loop]. rewrite <-E0, fgets_piece by done. fold (render_line l). rewrite (parse_line_ok ids) by done.
  cbn [mbind res_bind fold_left].
  set (vars' := apply_line l <$> vars).
  assert (Hids : v_id <$> vars' = v_id <$> vars) by apply fmap_id_apply.
  destruct (found_names_spec l (v_id <$> vars) F (names ls) Hnd HF) as (-> & Hnd' & HF').
  destruct (Nat.eqb_spec (length (F ++ found_names l (v_id <$> vars))) (length vars')) as [E|E].
  - rewrite apply_lines_notin; [done|]. intros n Hn. rewrite Hids. intros Hin.
    apply NoDup_app in Hnd' as (HndF & Hdisj & _).
    eapply Hdisj; [|exact Hn]. eapply all_found; [done|exact HF'| |done].
    by rewrite E, <-Hids, length_fmap.
  - set (lb' := _ ++ 0%Z :: _). destruct (read_pieces (render_config ls) vars' _ E (length (drop (LINE_SIZE - 1) (render_line l))) (drop (LINE_SIZE - 1) (render_line l)) fuel lb') as (fuel' & lb2 & Hf' & ->); [done|..].
    + unfold render_line. destruct (decide (length (line_text l) < LINE_SIZE - 1)) as [H|H]; [left; apply drop_ge; rewrite length_app; cbn [length]; lia|right].
      exists (drop (LINE_SIZE - 1) (line_text l)). rewrite drop_app_le by lia. split; [done|]. intros Hd. apply Hnl. rewrite <-(take_drop (LINE_SIZE - 1) (line_text l)). apply elem_of_app. by right.
    + unfold wf_line in Hl. by apply andb_true_iff in Hl as [?%bool_decide_eq_true _].
    + unfold render_line. rewrite length_app, length_drop, length_app. cbn [length]. unfold LINE_SIZE. lia.
    + apply IH; [done|by apply vars_wf_apply|by rewrite Hids|done|by rewrite Hids|done].
Qed.

Lemma lookup_cfg_None ls n : (n ∉ names ls) -> lookup_cfg ls n = None.
Proof.
  induction ls as [|l ls IH]; [done|]. unfold names. simpl. fold (names ls).
  rewrite not_elem_of_app. intros [Hl Hls]. destruct l as [m st| |]; simpl in *; [|by apply IH..].
  rewrite bool_decide_eq_false_2 by set_solver. by apply IH.
Qed.

(** Applying the lines one after the other is looking each variable up. *)
Lemma apply_lines_settle ls : forall vars : list tst_kconfig_var, NoDup (names ls) ->
  fold_left (fun vs l => apply_line l <$> vs) ls vars = settle ls <$> vars.
Proof.
  induction ls as [|l ls IH]; intros vars Hnd; simpl; [by rewrite list_fmap_id|].
  unfold names in Hnd. simpl in Hnd. apply NoDup_app in Hnd as (_ & Hdisj & Hnd).
  rewrite IH by done. rewrite <-list_fmap_compose. apply list_fmap_ext. intros i v _. simpl.
  unfold settle. destruct (v_id_apply l v) as [-> _].
  destruct l as [n st| |]; simpl; [|done..]. destruct (decide (n = v_id v)) as [->|Hne].
  - rewrite !bool_decide_eq_true_2 by done. rewrite lookup_cfg_None; [done|].
    apply Hdisj. simpl. set_solver.
  - by rewrite !bool_decide_eq_false_2 by done.
Qed.

Lemma kconfig_read_ok env log ids ls vars : open_kconfig env = Ok (Some (render_config ls), log) ->
  wf_config ids ls -> vars_wf vars -> (forall n, n ∈ v_id <$> vars -> n ∈ ids) ->
  tst_kconfig_read env vars = Ok (settle ls <$> vars, log).
Proof.
  intros Ho [Hls Hnd] Hwf Hids. unfold tst_kconfig_read. rewrite Ho. cbn [mbind res_bind].
  rewrite (read_loop_ok ids ls _ _ vars []) by (done || set_solver || lia). simpl.
  by rewrite apply_lines_settle.
Qed.

(** ** Atoms of the expressions

    An atom is a name, or a name, [=] and a value. *)
Fixpoint split_eq (text : cstr) : cstr * option cstr :=
  match text with
  | [] => ([], None)
  | c :: t => if bool_decide (c = "="%ch) then ([], Some t)
              else let '(n, v) := split_eq t in (c :: n, v)
  end.
Definition atom_name (text : cstr) : cstr := fst (split_eq text).

Definition valid_value (v : cstr) : bool :=
  match v with
  | [] => false
  | c :: v' =>
      if bool_decide (c = DQUOTE)
      then bool_decide (prefix_len (fun c => negb (bool_decide (c = DQUOTE))) v' + 1 = length v')
      else forallb isalnum v'
  end.
Definition valid_atom (text : cstr) : bool :=
  starts text (str "CONFIG_")
  && let '(n, v) := split_eq text in
     forallb is_var_char n && match v with None => true | Some w => valid_value w end.

(** What an atom says about a configuration; a plain name holds for [y] and [m]
    only, and of a value the first word is compared. *)
Definition atom_holds (ls : list cline) (text : cstr) : bool :=
  let '(n, v) := split_eq text in
  match lookup_cfg ls n, v with
  | None, _ => false
  | Some SetY, None | Some SetM, None => true
  | Some (SetVal _), None | Some NotSet, None => false
  | Some SetY, Some w => bool_decide (w = str "y")
  | Some SetM, Some w => bool_decide (w = str "m")
  | Some NotSet, Some w => bool_decide (w = str "n")
  | Some (SetVal x), Some w => bool_decide (w = first_word x /\ w <> str "n")
  end.

Lemma split_eq_spec text :
  text = fst (split_eq text) ++ match snd (split_eq text) with None => [] | Some v => "="%ch :: v end.
Proof.
  induction text as [|c t IH]; simpl; [done|]. case_bool_decide; [by subst|].
  destruct (split_eq t) as [n v]. simpl in *. by f_equal.
Qed.

Lemma strnchr_split t len : len <= length t ->
  strnchr t "="%ch len
  = match snd (split_eq (take len t)) with
    | None => None
    | Some _ => Some (length (fst (split_eq (take len t))))
    end.
Proof.
  revert len. induction t as [|c t IH]; intros [|len] H; simpl in *; [done|lia|done|].
  case_bool_decide; [done|]. rewrite IH by lia.
  destruct (split_eq (take len t)) as [n [v|]]; done.
Qed.

Lemma get_len_name t len : len <= length t ->
  get_len t len = length (atom_name (take len t)) /\ take (get_len t len) t = atom_name (take len t).
Proof.
  intros H. assert (Hl : get_len t len = length (atom_name (take len t))).
  { unfold get_len, atom_name. rewrite strnchr_split by done.
    pose proof (split_eq_spec (take len t)) as E. destruct (split_eq _) as [n [v|]]; simpl in *; [done|].
    apply (f_equal length) in E. rewrite length_take, app_nil_r in E. lia. }
  split; [done|]. rewrite Hl. clear Hl. unfold atom_name.
  pose proof (split_eq_spec (take len t)) as E. rewrite <-(take_drop len t) at 2.
  rewrite E at 2. rewrite <-app_assoc. by rewrite take_app_length.
Qed.

Lemma strneq_value val w x : take (length w) val = w -> length x = length w ->
  strneq (length w) val x = bool_decide (w = x).
Proof.
  intros Hv Hx. apply eq_bool_prop_intro. rewrite bool_decide_spec, Is_true_true, strneq_take.
  - by rewrite Hv, <-Hx, firstn_all.
  - rewrite <-Hv, length_take at 1. lia.
Qed.

Lemma strneq_char val w c : w <> [] -> take (length w) val = w ->
  strneq (length w) val [c] = bool_decide (w = [c]).
Proof.
  intros Hw Hv. destruct w as [|d [|d' w]]; [done|by apply strneq_value|].
  destruct val as [|a [|b val]]; [done| |]; simpl; rewrite bool_decide_eq_false_2 by congruence.
  - done.
  - by rewrite andb_false_r.
Qed.

Lemma lookup_cfg_wf ids ls n st : forallb (wf_line ids) ls = true -> lookup_cfg ls n = Some st ->
  wf_setting st = true.
Proof.
  induction ls as [|l ls IH]; simpl; [done|]. intros [Hl Hls]%andb_true_iff H.
  destruct l as [m st'| |]; [|by apply IH..]. case_bool_decide; [|by apply IH].
  simplify_eq. by apply wf_line_setting in Hl as (_ & _ & ? & _).
Qed.

(** The text of a token split at its [=]. *)
Lemma tok_text_value s t w : tok t + tok_len t <= length s ->
  snd (split_eq (tok_text s t)) = Some w ->
  let n := length (fst (split_eq (tok_text s t))) in
  tok_len t - S n = length w /\ take (length w) (drop (S n) (drop (tok t) s)) = w.
Proof.
  intros Hl Hw. pose proof (split_eq_spec (tok_text s t)) as E. rewrite Hw in E. simpl.
  set (n := fst _) in *. unfold tok_text in E.
  assert (Hlen : tok_len t = length n + S (length w)).
  { apply (f_equal length) in E. rewrite length_take, length_drop, length_app in E. simpl in E. lia. }
  split; [lia|]. rewrite <-(take_drop (tok_len t) (drop (tok t) s)), E, <-app_assoc.
  rewrite <-Nat.add_1_r, <-drop_drop, drop_app_length. exact (take_app_length w _).
Qed.

(** [map] gives the truth value of the atom. *)
Lemma kconfig_map_ok ids ls s vars t k v :
  wf_config ids ls -> tok t + tok_len t <= length s -> valid_atom (tok_text s t) = true ->
  priv t = PVar k -> vars !! k = Some v -> v_id v = atom_name (tok_text s t) -> v_choice v = 0%Z ->
  kconfig_map s (settle ls <$> vars) t = c_bool (atom_holds ls (tok_text s t)).
Proof.
  intros [Hls _] Hl Hvalid Hp Hv Hid Hc. unfold kconfig_map. rewrite Hp, list_lookup_fmap, Hv. simpl.
  unfold settle, atom_holds. rewrite Hid. unfold atom_name.
  unfold valid_atom in Hvalid. apply andb_true_iff in Hvalid as [_ Hvalid].
  rewrite strnchr_split by (rewrite length_drop; lia). fold (tok_text s t).
  pose proof (tok_text_value s t) as Hval.
  destruct (split_eq (tok_text s t)) as [n [w|]]; simpl in *.
  2:{ destruct (lookup_cfg ls n) as [[| |x|]|]; simpl; rewrite ?Hc; done. }
  destruct (Hval w Hl eq_refl) as [-> Hw]. apply andb_true_iff in Hvalid as [_ Hne].
  assert (w <> []) by (intros ->; done).
  destruct (lookup_cfg ls n) as [st|] eqn:Hst; [|by rewrite Hc].
  apply (lookup_cfg_wf ids) in Hst; [|done].
  rewrite (strneq_char _ w "m"%ch), (strneq_char _ w "y"%ch), (strneq_char _ w "n"%ch) by done.
  change (str "y") with ["y"%ch]. change (str "m") with ["m"%ch]. change (str "n") with ["n"%ch].
  destruct st as [| |x|].
  3:{ simpl in Hst. apply andb_true_iff in Hst as [_ (_ & Hy & Hm)%bool_decide_eq_true].
    cbn [set_to v_choice v_val]. transitivity (c_bool (bool_decide (w = first_word x) && negb (bool_decide (w = ["n"%ch])))).
    - destruct (Nat.eqb_spec (length (first_word x)) (length w)) as [E|E].
      + rewrite strneq_value by done. repeat case_bool_decide; subst; done.
      + rewrite (bool_decide_eq_false_2 (w = first_word x)) by congruence. repeat case_bool_decide; done.
    - f_equal. repeat case_bool_decide; naive_solver. }
  all: simpl; repeat case_bool_decide; simplify_eq; done.
Qed.

(** ** Validation of the variables *)

Lemma split_eq_name n s : forallb is_var_char n = true ->
  split_eq (n ++ s) = (n ++ fst (split_eq s), snd (split_eq s)).
Proof.
  induction n as [|c n IH]; simpl; [by destruct (split_eq s)|]. intros [Hc Hn]%andb_true_iff.
  rewrite bool_decide_eq_false_2 by (intros ->; done). by rewrite IH.
Qed.

(** The scan of a name: it runs over the name characters of the token. *)
Lemma validate_name_spec t len : forall s i, len <= i + length s -> i <= len ->
  let m := prefix_len is_var_char (take (len - i) s) in
  validate_name t s i len
  = if Nat.ltb (i + m) len
    then if bool_decide (at_ s m = "="%ch) then inr (S (i + m))
         else inl (1%Z, print_err t len (i + m) "Unexpected character in variable name")
    else match drop m s with [] => inr len | _ => inl (0%Z, []) end.
Proof.
  induction s as [|c s IH]; intros i Hlen Hi; cbn [validate_name].
  - simpl in Hlen. assert (i = len) as -> by lia. rewrite Nat.sub_diag. simpl.
    by rewrite Nat.add_0_r, Nat.ltb_irrefl.
  - destruct (Nat.leb_spec len i).
    { assert (i = len) as -> by lia. rewrite Nat.sub_diag. simpl. by rewrite Nat.add_0_r, Nat.ltb_irrefl. }
    destruct (len - i) as [|k] eqn:Ek; [lia|]. simpl.
    assert (k = len - S i) as -> by lia. simpl in Hlen.
    assert (Hc : is_var_char c = (isupper c || bool_decide (c = "_"%ch)) || isdigit c).
    { unfold is_var_char. destruct (isupper c), (isdigit c), (Z.eqb_spec c "_"%ch);
        case_bool_decide; done. }
    destruct (isupper c || bool_decide (c = "_"%ch)); [|destruct (isdigit c)]; rewrite Hc; simpl.
    3:{ rewrite Nat.add_0_r. destruct (Nat.ltb_spec i len); [|lia]. unfold at_. simpl. done. }
    all: rewrite IH by lia; cbn zeta; rewrite !Nat.add_succ_r; done.
Qed.

(** The closing quote is found inside the value, or not at all. *)
Lemma quote_found w r : at_ r 0 <> DQUOTE ->
  let m := prefix_len (fun c => negb (bool_decide (c = DQUOTE))) w in
  at_ (w ++ r) m = DQUOTE <-> m < length w.
Proof.
  intros Hr. cbv zeta. destruct (prefix_len_split (fun c => negb (bool_decide (c = DQUOTE))) w)
    as (a & b & -> & <- & _ & Hb).
  rewrite <-app_assoc, at_app_0, length_app. destruct b as [|c b]; simpl.
  - split; [done|lia].
  - case_bool_decide; [|done]. unfold at_. simpl. split; [lia|done].
Qed.

Lemma validate_value_spec x w r : at_ r 0 <> DQUOTE -> last x = Some "="%ch ->
  (fst (validate_value (x ++ w ++ r) (length x) (length x + length w)) =? 0)%Z = valid_value w.
Proof.
  intros Hr Hx. unfold validate_value. destruct w as [|c w].
  - rewrite Nat.add_0_r, Nat.leb_refl. apply last_Some in Hx as [y ->].
    rewrite length_app, Nat.add_sub. simpl. rewrite <-app_assoc. simpl. by rewrite at_length_cons.
  - cbn [length]. rewrite (proj2 (Nat.leb_gt _ _)) by lia.
    change ((c :: w) ++ r) with (c :: (w ++ r)). rewrite at_length_cons.
    replace (length x + S (length w) - S (length x)) with (length w) by lia.
    replace (drop (S (length x)) (x ++ c :: w ++ r)) with (w ++ r)
      by (rewrite <-Nat.add_1_r, <-drop_drop, drop_app_length; done).
    rewrite take_app_length. cbn [valid_value]. case_bool_decide.
    + pose proof (quote_found w r Hr) as Hf. cbv zeta in Hf |- *.
      set (m := prefix_len _ w) in *.
      replace (at_ (x ++ c :: w ++ r) (S (length x) + m)) with (at_ (w ++ r) m)
        by (replace (S (length x) + m) with (length x + S m) by lia; by rewrite at_app_r).
      destruct (Nat.ltb_spec (S (length x) + m) (length x + S (length w) - 1)); cbn [fst].
      * rewrite bool_decide_eq_false_2; [done|lia].
      * case_bool_decide; cbn [negb fst]; [rewrite bool_decide_eq_true_2|rewrite bool_decide_eq_false_2];
          done || lia.
    + pose proof (prefix_len_le isalnum w). pose proof (prefix_len_all isalnum w) as Hall.
      destruct (Nat.ltb_spec (S (length x) + prefix_len isalnum w) (length x + S (length w))); cbn [fst].
      * destruct (forallb isalnum w); [|done]. destruct Hall as [_ Hall]. specialize (Hall eq_refl). lia.
      * symmetry. apply Hall. lia.
Qed.

Lemma config_prefix p r :
  Nat.ltb (length p) 7 || negb (strneq 7 (p ++ r) (str "CONFIG_")) = negb (starts p (str "CONFIG_")).
Proof.
  destruct (Nat.ltb_spec (length p) 7) as [H|H]; cbn [orb].
  - destruct (starts p (str "CONFIG_")) eqn:E; [|done].
    apply starts_spec in E as [u ->]. rewrite length_app in H. simpl in H. lia.
  - f_equal. apply eq_bool_prop_intro. rewrite !Is_true_true, strneq_take, starts_spec.
    2:{ rewrite length_app. lia. }
    rewrite take_app_le by lia. split.
    + intros E. exists (drop 7 p). change (str "CONFIG_") with (take 7 (str "CONFIG_")). rewrite <-E. symmetry. apply take_drop.
    + by intros [u ->].
Qed.

(** The token [p] followed by [r]: the name, then the value. *)
Lemma validate_after_prefix u r : let p := str "CONFIG_" ++ u in at_ r 0 <> DQUOTE ->
  (fst match validate_name (p ++ r) (u ++ r) 7 (7 + length u) with
       | inl x => x | inr i => validate_value (p ++ r) i (7 + length u) end =? 0)%Z
  = (let '(n, v) := split_eq p in
     forallb is_var_char n && match v with None => true | Some w => valid_value w end).
Proof.
  intros p Hq. rewrite validate_name_spec by (rewrite ?length_app; lia). cbv zeta.
  replace (7 + length u - 7) with (length u) by lia. rewrite take_app_length.
  destruct (prefix_len_split is_var_char u) as (a & b & -> & <- & Ha & Hb). rewrite length_app in *.
  assert (Hp : forallb is_var_char (str "CONFIG_" ++ a) = true) by done.
  unfold p. rewrite (app_assoc (str "CONFIG_") a b), split_eq_name by done. destruct b as [|c b].
  - cbn [length split_eq fst snd]. destruct (Nat.ltb_spec (7 + length a) (7 + (length a + 0))); [lia|].
    rewrite !app_nil_r, Hp.
    destruct (drop _ _); [|done]. unfold validate_value. rewrite Nat.add_0_r, Nat.leb_refl.
    rewrite bool_decide_eq_false_2; [done|]. intros E.
    assert (E' : at_ (str "CONFIG_" ++ a) (7 + length a - 1) = "="%ch).
    { rewrite <-E. symmetry. apply at_app_l. rewrite length_app. simpl. lia. }
    assert (is_var_char "="%ch = true); [|done]. rewrite <-E'. rewrite forallb_forall in Hp.
    apply Hp. unfold at_. apply nth_In. rewrite length_app. simpl. lia.
  - cbn [length]. destruct (Nat.ltb_spec (7 + length a) (7 + (length a + S (length b)))); [|lia].
    rewrite <-app_assoc, at_app_0. unfold at_ at 1. cbn [app nth split_eq]. case_bool_decide as Hc.
    + subst c. rewrite bool_decide_eq_true_2 by done. cbn [fst snd]. rewrite app_nil_r, Hp. cbn [andb].
      rewrite <-(validate_value_spec (str "CONFIG_" ++ a ++ ["="%ch]) b r) by (done || by rewrite app_assoc, last_snoc).
      rewrite !length_app. cbn [length str map String.list_ascii_of_string].
      rewrite <-!app_assoc. cbn [app]. do 3 f_equal; lia.
    + rewrite bool_decide_eq_false_2 by done. destruct (split_eq b) as [n v]. cbn [fst snd]. rewrite forallb_app. cbn [forallb]. rewrite Hb.
      by rewrite andb_false_r.
Qed.

Lemma validate_var_spec t len : len <= length t -> at_ t len <> DQUOTE ->
  (fst (validate_var t len) =? 0)%Z = valid_atom (take len t).
Proof.
  intros Hlen Hq. rewrite <-(take_drop len t) in Hq |- *. assert (Hl : length (take len t) = len)
    by (rewrite length_take; lia).
  set (p := take len t) in *. set (r := drop len t) in *. clearbody p r. subst len. clear t Hlen.
  rewrite at_app_0 in Hq. unfold validate_var, valid_atom. rewrite take_app_length, config_prefix.
  destruct (starts p (str "CONFIG_")) eqn:Es; [|done]. apply starts_spec in Es as [u ->].
  exact (validate_after_prefix u r Hq).
Qed.

(** ** The expressions after parsing *)

(** The texts of the variables of an expression. *)
Definition atoms (s : cstr) : list cstr :=
  tok_text s <$> List.filter (fun t => bool_decide (op t = TST_OP_VAR)) (tokens s).

(** [ex] is the expression [s] with tree [e], up to the [priv] of its tokens. *)
Record stage (s : cstr) (ex : tst_expr) (e : bexp) : Prop := mkStage {
  stage_tree : op <$> tokens s = toks e;
  stage_shaped : shaped ex e;
  stage_text : forall i t, buf ex !! i = Some t ->
    exists t0, tokens s !! i = Some t0 /\ op t = op t0 /\ tok t = tok t0 /\ tok_len t = tok_len t0
}.

Lemma linked_stage s e : op <$> tokens s = toks e -> stage s (linked (tokens s) e) e.
Proof.
  intros H. split; [done|by apply linked_shaped|]. intros i t. apply link_out_text.
Qed.

Lemma stage_core s r b b' e : core <$> b' = core <$> b -> stage s (mkExpr r b) e ->
  stage s (mkExpr r b') e.
Proof.
  intros E [Ht Hs Hx]. split; [done|by eapply shaped_core|]. simpl in *. intros i t' Ht'.
  destruct (core_lookup b' b i t' (eq_sym E) Ht') as (t & Hi & Hc).
  injection Hc as Ho Hk Hl _. destruct (Hx i t Hi) as (t0 & ? & ? & ? & ?).
  exists t0. split; [done|]. by rewrite <-Ho, <-Hk, <-Hl.
Qed.

Section Stage.
Context (s : cstr) (ex : tst_expr) (e : bexp) (St : stage s ex e).

Lemma rpn_walk_ok fuel l :
  (forall pre x post, l = pre ++ x :: post -> exists t, buf ex !! x = Some t /\ next t = head post) ->
  length l <= fuel -> rpn_walk fuel (buf ex) (head l) = Ok l.
Proof.
  clear St. revert l. induction fuel as [|fuel IH]; intros [|x l] Hl Hf; simpl in *; try done; [lia|].
  destruct (Hl [] x l eq_refl) as (t & -> & Hn). simpl. rewrite Hn, IH; [done| |lia].
  intros pre y post ->. by apply (Hl (x :: pre)).
Qed.

Lemma rpn_list_ok : rpn_list ex = Ok (postfix 0 e).
Proof.
  destruct (stage_shaped _ _ _ St) as [Hr Hl Ho Hn]. unfold rpn_list. rewrite Hr.
  apply rpn_walk_ok; [done|]. rewrite Hl. apply length_postfix.
Qed.

(** The variables met on the walk are those of the tree. *)
Lemma var_tok_vars i : is_var_tok (buf ex) i = true -> i ∈ vars 0 e.
Proof.
  intros (t & Ht & Ho)%bool_decide_eq_true%fmap_Some.
  destruct (stage_text _ _ _ St i t Ht) as (t0 & Ht0 & Ho0 & _). apply vars_op. exists i.
  split; [done|]. rewrite <-(stage_tree _ _ _ St), list_lookup_fmap, Ht0. simpl. by rewrite <-Ho0, Ho.
Qed.

Lemma vars_var_tok i : i ∈ vars 0 e -> exists t, buf ex !! i = Some t /\ op t = TST_OP_VAR /\
  is_var_tok (buf ex) i = true /\ tok t + tok_len t <= length s /\
  at_ s (tok t + tok_len t) <> DQUOTE /\ tok_text s t ∈ atoms s.
Proof.
  intros (j & -> & Hj)%vars_op. simpl.
  pose proof (shaped_ops _ _ (stage_shaped _ _ _ St) _ _ Hj) as (t & Ht & Ho)%fmap_Some.
  exists t. split; [done|]. split; [done|]. split.
  { apply bool_decide_eq_true. unfold tok_op. simpl in Ht. by rewrite Ht, Ho. }
  destruct (stage_text _ _ _ St _ t Ht) as (t0 & Ht0 & Ho0 & Hk & Hl).
  pose proof (tokens_wf s) as Hwf. rewrite Forall_lookup in Hwf.
  destruct (Hwf _ _ Ht0) as (Hb & _ & _ & _ & Hq & _).
  rewrite Hk, Hl. split; [done|]. split; [apply Hq; by rewrite <-Ho0|].
  unfold atoms. apply list_elem_of_fmap. exists t0. split; [unfold tok_text; by rewrite Hk, Hl|].
  apply list_elem_of_In, filter_In. split; [by eapply list_elem_of_In, list_elem_of_lookup_2|].
  apply bool_decide_eq_true. by rewrite <-Ho0.
Qed.

Lemma atoms_vars a : a ∈ atoms s -> exists i t, i ∈ vars 0 e /\ buf ex !! i = Some t /\ a = tok_text s t.
Proof.
  unfold atoms. intros (t0 & -> & Hin)%list_elem_of_fmap.
  apply list_elem_of_In, filter_In in Hin as [Hin Ho%bool_decide_eq_true].
  apply list_elem_of_In, list_elem_of_lookup in Hin as [i Hi].
  assert (Hv : i ∈ vars 0 e).
  { apply vars_op. exists i. split; [done|].
    by rewrite <-(stage_tree _ _ _ St), list_lookup_fmap, Hi; simpl; rewrite Ho. }
  destruct (vars_var_tok i Hv) as (t & Ht & _). exists i, t. split; [done|]. split; [done|].
  destruct (stage_text _ _ _ St i t Ht) as (t1 & Ht1 & _ & Hk & Hl). simplify_eq.
  unfold tok_text. by rewrite Hk, Hl.
Qed.
End Stage.

Definition staged (xs : list kexpr) (es : list bexp) : Prop :=
  Forall2 (fun x e => stage (fst x) (snd x) e) xs es.
Definition var_count (x : kexpr) (e : bexp) : nat :=
  length (List.filter (is_var_tok (buf (snd x))) (postfix 0 e)).

Lemma list_filter_bool (p : nat -> bool) l : filter p l = List.filter p l.
Proof.
  induction l as [|i l IH]; [done|]. rewrite filter_cons. simpl.
  destruct (p i) eqn:E; case_decide; simpl in *; try done; by rewrite IH.
Qed.

(** [validate_vars] accepts exactly when every atom is valid. *)
Lemma validate_vars_ok xs es : staged xs es ->
  validate_vars xs = Ok (negb (forallb (fun x => forallb valid_atom (atoms (fst x))) xs)).
Proof.
  induction 1 as [|[s ex] e xs es St _ IH]; [done|]. simpl in St |- *.
  rewrite (rpn_list_ok s ex e St). cbn [mbind res_bind]. rewrite IH. cbn [mbind res_bind]. f_equal.
  rewrite negb_andb. f_equal. rewrite list_filter_bool.
  apply eq_bool_prop_intro. rewrite !Is_true_true, existsb_exists, negb_true_iff, <-not_true_iff_false, forallb_forall.
  split.
  - intros (i & [Hi Hv]%filter_In & Hbad) Hall. apply (var_tok_vars s ex e St) in Hv.
    destruct (vars_var_tok s ex e St i Hv) as (t & Ht & _ & _ & Hb & Hq & Hin). rewrite Ht in Hbad.
    rewrite validate_var_spec in Hbad.
    + apply list_elem_of_In, Hall in Hin. unfold tok_text in Hin. by rewrite Hin in Hbad.
    + rewrite length_drop. lia.
    + unfold at_ in *. change (drop (tok t) s) with (skipn (tok t) s). by rewrite nth_skipn.
  - intros Hn. destruct (existsb (fun a => negb (valid_atom a)) (atoms s)) eqn:E.
    2:{ exfalso. apply Hn. intros a Ha. destruct (valid_atom a) eqn:Ea; [done|].
        rewrite <-not_true_iff_false, existsb_exists in E. destruct E. exists a. by rewrite Ea. }
    apply existsb_exists in E as (a & Ha%list_elem_of_In & Hbad).
    destruct (atoms_vars s ex e St a Ha) as (i & t & Hv & Ht & ->).
    destruct (vars_var_tok s ex e St i Hv) as (t' & Ht' & _ & Hvt & Hb & Hq & _). simplify_eq.
    exists i. split; [apply filter_In; split; [by apply list_elem_of_In, vars_postfix|done]|].
    rewrite Ht, validate_var_spec; [done|rewrite length_drop; lia|].
    unfold at_ in *. change (drop (tok t) s) with (skipn (tok t) s). by rewrite nth_skipn.
Qed.

Lemma get_var_cnt_ok xs es : staged xs es ->
  get_var_cnt xs = Ok (sum_list (zip_with var_count xs es)).
Proof.
  induction 1 as [|[s ex] e xs es St _ IH]; [done|]. simpl in St |- *.
  rewrite (rpn_list_ok s ex e St). cbn [mbind res_bind]. rewrite IH. cbn [mbind res_bind].
  by rewrite list_filter_bool.
Qed.

Lemma parse_exprs_ok env ks es : malloc_ok env = true ->
  Forall2 (fun s e => wf_bexp e = true /\ op <$> tokens s = toks e) ks es ->
  exists xs, parse_exprs env ks = Ok xs /\ staged xs es /\ xs.*1 = ks.
Proof.
  intros Hm. induction 1 as [|s e ks es [Hwf Hop] _ (xs & Hx & Hst & <-)]; [by exists []; repeat constructor|].
  simpl. rewrite Hm, (parse_tree s e) by done. simpl. rewrite Hx. simpl.
  eexists. split; [done|]. split; [|done]. constructor; [by apply linked_stage|done].
Qed.

(** ** Filling in the variables *)

(** The array so far: distinct names, nothing read yet. *)
Definition vars_fresh (vars : list tst_kconfig_var) : Prop :=
  vars_wf vars /\ Forall (fun v => v_choice v = 0%Z /\ v_val v = None) vars.

(** Token [t] refers to the variable of its name. *)
Definition refers (s : cstr) (vars : list tst_kconfig_var) (t : tst_expr_tok) : Prop :=
  exists k v, priv t = PVar k /\ vars !! k = Some v /\ v_id v = atom_name (tok_text s t).

Lemma refers_prefix s vars vars' t : vars `prefix_of` vars' -> refers s vars t -> refers s vars' t.
Proof. intros [w ->] (k & v & ? & Hk & ?). exists k, v. split_and!; try done. by apply lookup_app_l_Some. Qed.

Lemma find_var_spec vars n :
  match find_var vars n with
  | Some k => exists v, vars !! k = Some v /\ v_id v = n
  | None => n ∉ v_id <$> vars
  end.
Proof.
  induction vars as [|v vs IH]; simpl; [set_solver|]. unfold streq. case_bool_decide.
  - by exists v.
  - destruct (find_var vs n); simpl; [done|]. set_solver.
Qed.

Lemma vars_fresh_snoc vars n : vars_fresh vars -> (n ∉ v_id <$> vars) ->
  vars_fresh (vars ++ [mkVar n (length n) 0 None]).
Proof.
  intros [[Hn Hf] Hc] Hnin. unfold vars_fresh, vars_wf. rewrite fmap_app. simpl.
  split; [split|].
  - apply NoDup_app. split; [done|]. split; [set_solver|]. apply NoDup_singleton.
  - apply Forall_app. split; [done|]. by apply Forall_singleton.
  - apply Forall_app. split; [done|]. by apply Forall_singleton.
Qed.

(** What one token, or a list of tokens, does to the buffer and the array. *)
Definition populated (s : cstr) (l : list nat) (room : nat)
    (b : list tst_expr_tok) (vars : list tst_kconfig_var)
    (b' : list tst_expr_tok) (vars' : list tst_kconfig_var) : Prop :=
  core <$> b' = core <$> b /\ vars `prefix_of` vars' /\ vars_fresh vars' /\
  length vars' <= length vars + room /\
  (forall n, n ∈ v_id <$> vars' -> n ∈ v_id <$> vars \/ exists i t, i ∈ l /\ b !! i = Some t /\ op t = TST_OP_VAR /\ n = atom_name (tok_text s t)) /\
  (forall i, i ∉ l -> b' !! i = b !! i) /\
  (forall i t, i ∈ l -> b' !! i = Some t -> op t = TST_OP_VAR -> refers s vars' t).

Lemma populate_tok_ok cap s i b vars t : vars_fresh vars -> b !! i = Some t ->
  length vars + length (List.filter (is_var_tok b) [i]) <= cap ->
  (op t = TST_OP_VAR -> tok t + tok_len t <= length s /\
     length (atom_name (tok_text s t)) + 1 < ID_SIZE) ->
  exists b' vars', populate_tok cap s i (b, vars) = Ok (b', vars') /\
    populated s [i] (length (List.filter (is_var_tok b) [i])) b vars b' vars'.
Proof.
  intros Hfr Ht Hcap Hlen. unfold populate_tok. rewrite Ht.
  cbn [or_fault mbind res_bind List.filter] in *.
  assert (Hv : is_var_tok b i = bool_decide (op t = TST_OP_VAR)).
  { unfold is_var_tok, tok_op. rewrite Ht. simpl. apply bool_decide_ext. split; [by intros [= ->]|by intros ->]. }
  rewrite Hv in *. case_bool_decide as Ho.
  2:{ exists b, vars. split; [done|]. split_and!; try done; [simpl; lia|..].
      - intros n ?. by left.
      - intros j t' ->%list_elem_of_singleton ??. simplify_eq. }
  cbn [length negb] in *. destruct (Hlen Ho) as [Hb Hid]. rewrite (proj2 (Nat.ltb_lt _ _)) by lia.
  cbn [negb].
  destruct (get_len_name (drop (tok t) s) (tok_len t)) as [Hgl Htk]; [rewrite length_drop; lia|].
  fold (tok_text s t) in Hgl, Htk. rewrite Htk, Hgl.
  destruct (Nat.leb_spec ID_SIZE (length (atom_name (tok_text s t)) + 1)); [lia|].
  pose proof (find_var_spec vars (atom_name (tok_text s t))) as Hfind.
  assert (Hpop : forall k vars', vars `prefix_of` vars' -> vars_fresh vars' ->
      length vars' <= length vars + 1 ->
      (forall n, n ∈ v_id <$> vars' -> n ∈ v_id <$> vars \/ n = atom_name (tok_text s t)) ->
      (exists v, vars' !! k = Some v /\ v_id v = atom_name (tok_text s t)) ->
      populated s [i] 1 b vars (alter (set_priv (PVar k)) i b) vars').
  { intros k vars' Hpre Hfr' Hl' Hnew (v & Hk & Hvid). split_and!; try done.
    - apply core_alter_priv.
    - intros n [?| ->]%Hnew; [by left|right]. exists i, t. split_and!; [by apply list_elem_of_singleton|done..].
    - intros j Hj. apply list_lookup_alter_ne. set_solver.
    - intros j t' ->%list_elem_of_singleton Ht' _. rewrite list_lookup_alter_eq, Ht in Ht'.
      simpl in Ht'. injection Ht' as <-. by exists k, v. }
  destruct (find_var vars _) as [k|].
  - eexists _, _. split; [done|]. apply Hpop; [done|done|lia|by left|done].
  - eexists _, _. split; [done|]. apply Hpop.
    + by apply prefix_app_r.
    + by apply vars_fresh_snoc.
    + rewrite length_app. simpl. lia.
    + intros n. rewrite fmap_app, elem_of_app. intros [?| ->%list_elem_of_singleton]; [by left|by right].
    + eexists. split; [by apply list_lookup_middle|done].
Qed.

Lemma populated_trans s i l r1 r2 b vars b1 vars1 b2 vars2 : (i ∉ l) ->
  populated s [i] r1 b vars b1 vars1 -> populated s l r2 b1 vars1 b2 vars2 ->
  populated s (i :: l) (r1 + r2) b vars b2 vars2.
Proof.
  intros Hi (Hc1 & Hp1 & Hf1 & Hl1 & Hi1 & Hn1 & Hr1) (Hc2 & Hp2 & Hf2 & Hl2 & Hi2 & Hn2 & Hr2).
  split_and!.
  - by rewrite Hc2.
  - by etrans.
  - done.
  - lia.
  - intros n [H|(j & t & Hj & Ht & Ho & ->)]%Hi2.
    + apply Hi1 in H as [?|(j & t & ->%list_elem_of_singleton & ?)]; [by left|right]. exists i, t. split; [by left|done].
    + right. exists j, t. rewrite Hn1 in Ht by (intros ->%list_elem_of_singleton; done). split; [by right|done].
  - intros j Hj. rewrite Hn2, Hn1; set_solver.
  - intros j t [->|Hj]%elem_of_cons Ht Ho; [|by eapply Hr2].
    eapply refers_prefix; [done|]. eapply (Hr1 i); [set_solver| |done]. by rewrite <-Hn2.
Qed.

Lemma is_var_tok_core b b' : core <$> b' = core <$> b -> forall i, is_var_tok b' i = is_var_tok b i.
Proof. intros E i. unfold is_var_tok. by rewrite (core_tok_op b b'). Qed.

(** Token [t] is inside the string and its name fits the [id] array. *)
Definition tok_fits (s : cstr) (t : tst_expr_tok) : Prop :=
  op t = TST_OP_VAR ->
  tok t + tok_len t <= length s /\ length (atom_name (tok_text s t)) + 1 < ID_SIZE.

Lemma tok_fits_core s t t' : core t' = core t -> tok_fits s t -> tok_fits s t'.
Proof. intros E. injection E as Ho Hk Hl _. unfold tok_fits, tok_text. by rewrite Ho, Hk, Hl. Qed.

Lemma populate_toks_ok cap s l : forall b vars, NoDup l -> vars_fresh vars ->
  (forall i, i ∈ l -> exists t, b !! i = Some t /\ tok_fits s t) ->
  length vars + length (List.filter (is_var_tok b) l) <= cap ->
  exists b' vars', populate_toks cap s l (b, vars) = Ok (b', vars') /\
    populated s l (length (List.filter (is_var_tok b) l)) b vars b' vars'.
Proof.
  induction l as [|i l IH]; intros b vars Hnd Hfr Hl Hcap.
  { exists b, vars. split; [done|]. split_and!; try done; [lia|intros n ?; by left|set_solver]. }
  apply NoDup_cons in Hnd as [Hi Hnd].
  change (i :: l) with ([i] ++ l) in Hcap |- *. rewrite !List.filter_app, !length_app in *.
  destruct (Hl i) as (t & Ht & Hfit); [set_solver|].
  destruct (populate_tok_ok cap s i b vars t Hfr Ht) as (b1 & vars1 & H1 & P1); [lia|done|].
  pose proof P1 as (Hc & _ & Hfr1 & Hlen1 & _).
  assert (Heq : List.filter (is_var_tok b1) l = List.filter (is_var_tok b) l)
    by (apply List.filter_ext; by apply is_var_tok_core).
  destruct (IH b1 vars1) as (b2 & vars2 & H2 & P2); [done|done| |rewrite Heq; lia|].
  { intros j Hj. destruct (Hl j) as (tj & Htj & Hfj); [set_solver|].
    destruct (core_lookup _ _ _ _ Hc Htj) as (t' & ? & ?). eauto using tok_fits_core. }
  exists b2, vars2. split; [cbn [app populate_toks]; rewrite H1; exact H2|]. rewrite Heq in P2. by eapply populated_trans.
Qed.

Definition names_fit (s : cstr) : Prop :=
  forallb (fun a => Nat.ltb (length (atom_name a) + 1) ID_SIZE) (atoms s) = true.

Lemma stage_fits s ex e i : stage s ex e -> names_fit s -> i ∈ postfix 0 e ->
  exists t, buf ex !! i = Some t /\ tok_fits s t.
Proof.
  intros St Hfit Hi. destruct (stage_shaped _ _ _ St) as [_ _ _ Hn].
  apply list_elem_of_split in Hi as (pre & post & E). destruct (Hn _ _ _ E) as (t & Ht & _).
  exists t. split; [done|]. intros Ho.
  assert (Hv : i ∈ vars 0 e).
  { eapply var_tok_vars; [done|]. apply bool_decide_eq_true. unfold tok_op. by rewrite Ht, <-Ho. }
  destruct (vars_var_tok s ex e St i Hv) as (t' & Ht' & _ & _ & Hb & _ & Hin). simplify_eq.
  split; [done|]. apply Nat.ltb_lt. unfold names_fit in Hfit. rewrite forallb_forall in Hfit.
  by apply Hfit, list_elem_of_In.
Qed.

(** An expression all of whose variables refer to the array. *)
Definition resolved (vars : list tst_kconfig_var) (x : kexpr) (e : bexp) : Prop :=
  stage (fst x) (snd x) e /\
  forall i t, i ∈ BoolExpr.vars 0 e -> buf (snd x) !! i = Some t -> refers (fst x) vars t.

(** The names of the variables of the expressions. *)
Definition asked (ks : list cstr) : list cstr := concat ((fun s => atom_name <$> atoms s) <$> ks).

Lemma populate_vars_ok cap xs : forall es vars, staged xs es -> vars_fresh vars ->
  Forall (fun x => names_fit (fst x)) xs ->
  length vars + sum_list (zip_with var_count xs es) <= cap ->
  exists xs' vars', populate_vars cap xs vars = Ok (xs', vars') /\ vars `prefix_of` vars' /\
    vars_fresh vars' /\ Forall2 (resolved vars') xs' es /\ xs'.*1 = xs.*1 /\
    (forall n, n ∈ v_id <$> vars' -> n ∈ v_id <$> vars \/ n ∈ asked (xs.*1)).
Proof.
  induction xs as [|[s ex] xs IH]; intros es vars Hst Hfr Hfit Hcap.
  { apply Forall2_nil_inv_l in Hst as ->. exists [], vars. split_and!; try done. intros n ?. by left. }
  apply Forall2_cons_inv_l in Hst as (e & es' & St & Hst & ->). simpl in St, Hcap.
  apply Forall_cons in Hfit as [Hfs Hfit]. simpl in Hfs. cbn [populate_vars].
  rewrite (rpn_list_ok s ex e St). cbn [mbind res_bind].
  destruct (populate_toks_ok cap s (postfix 0 e) (buf ex) vars) as (b & vars1 & -> & P).
  { apply postfix_NoDup. } { done. } { intros i Hi. by eapply stage_fits. }
  { unfold var_count in Hcap. simpl in Hcap. lia. }
  destruct P as (Hc & Hp & Hfr1 & Hl1 & Hi1 & _ & Hr). cbn [mbind res_bind].
  destruct (IH es' vars1) as (xs' & vars2 & -> & Hp2 & Hfr2 & Hres & Hfst & Hi2); [done|done|done| |].
  { unfold var_count in Hcap at 1. simpl in Hcap. lia. }
  cbn [mbind res_bind]. eexists _, vars2. split; [done|]. split; [by etrans|]. split; [done|].
  split; [|split; [rewrite !fmap_cons; cbn [fst]; by rewrite Hfst|]]; cycle 1.
  { intros n [H|H]%Hi2; [|right; rewrite fmap_cons; apply elem_of_app; by right]. apply Hi1 in H as [?|(i & t & Hi & Ht & Ho & ->)]; [by left|right].
    rewrite fmap_cons. apply elem_of_app. left. apply list_elem_of_fmap_2. assert (Hv : i ∈ BoolExpr.vars 0 e).
    { eapply var_tok_vars; [done|]. apply bool_decide_eq_true. unfold tok_op. by rewrite Ht, <-Ho. }
    destruct (vars_var_tok s ex e St i Hv) as (t' & Ht' & _ & _ & _ & _ & Hin). by simplify_eq. }
  constructor; [|done]. destruct ex as [r b0]. simpl in *.
  assert (St' : stage s (mkExpr r b) e) by (by eapply stage_core). split; [done|]. simpl.
  intros i t Hi Ht. destruct (vars_var_tok _ _ _ St' i Hi) as (t' & Ht' & Ho & _). simpl in Ht'. simplify_eq.
  eapply refers_prefix; [done|]. eapply Hr; [|done|done]. by apply vars_postfix.
Qed.

(** ** The check as a whole *)

(** The value of expression [s] with tree [e] under a configuration. *)
Definition expr_value (ls : list cline) (s : cstr) (e : bexp) : Z :=
  sem (fun i => match tokens s !! i with
                | Some t => c_bool (atom_holds ls (tok_text s t))
                | None => 0%Z
                end) 0 e.

Definition parsed (s : cstr) (e : bexp) : Prop :=
  wf_bexp e = true /\ op <$> tokens s = toks e /\ depth e <= MAX_STACK.
Definition all_valid (s : cstr) : Prop := forallb valid_atom (atoms s) = true.

Lemma resolved_value ids ls vars s ex e i : wf_config ids ls -> vars_fresh vars -> resolved vars (s, ex) e ->
  all_valid s -> i ∈ BoolExpr.vars 0 e ->
  tok_val (buf ex) (kconfig_map s (settle ls <$> vars)) i
  = match tokens s !! i with Some t => c_bool (atom_holds ls (tok_text s t)) | None => 0%Z end.
Proof.
  intros Hcfg [_ Hfr] [St Href] Hval Hi. simpl in *.
  destruct (vars_var_tok s ex e St i Hi) as (t & Ht & Ho & _ & Hb & _ & Hin).
  destruct (stage_text _ _ _ St i t Ht) as (t0 & Ht0 & _ & Hk & Hl).
  destruct (Href i t Hi Ht) as (k & v & Hp & Hv & Hid).
  unfold tok_val. rewrite Ht, Ht0. simpl.
  replace (tok_text s t0) with (tok_text s t) by (unfold tok_text; by rewrite Hk, Hl).
  apply (kconfig_map_ok ids ls s vars t k v); try done.
  - unfold all_valid in Hval. rewrite forallb_forall in Hval. by apply Hval, list_elem_of_In.
  - rewrite Forall_lookup in Hfr. by destruct (Hfr _ _ Hv).
Qed.

Lemma resolved_eval ids ls vars s ex e : wf_config ids ls -> vars_fresh vars -> resolved vars (s, ex) e ->
  all_valid s -> depth e <= MAX_STACK ->
  tst_bool_expr_eval ex (kconfig_map s (settle ls <$> vars)) = Ok (expr_value ls s e).
Proof.
  intros Hcfg Hfr Hres Hval Hd. rewrite (shaped_eval _ e) by apply Hres.
  rewrite (proj2 (Nat.leb_le _ _) Hd), andb_true_r.
  pose proof (fun i => resolved_value ids ls vars s ex e i Hcfg Hfr Hres Hval) as Hv.
  replace (defined _ 0 e) with true; [by rewrite (sem_ext _ _ 0 e Hv)|].
  symmetry. apply forallb_forall. intros i Hi%list_elem_of_In. rewrite Hv by done.
  destruct (tokens s !! i); [|done]. by destruct (atom_holds ls _).
Qed.

Lemma eval_exprs_ok ids ls vars xs es : wf_config ids ls -> vars_fresh vars ->
  Forall2 (resolved vars) xs es -> Forall (fun x => all_valid (fst x)) xs ->
  Forall (fun e => depth e <= MAX_STACK) es ->
  exists log, eval_exprs (settle ls <$> vars) xs
    = Ok (negb (forallb (fun '(s, e) => expr_value ls s e =? 1)%Z (zip (xs.*1) es)), log).
Proof.
  intros Hcfg Hfr. induction 1 as [|[s ex] e xs es Hres _ IH]; intros Hval Hd; [by exists []|].
  apply Forall_cons in Hval as [Hv Hval]. apply Forall_cons in Hd as [Hde Hd].
  destruct (IH Hval Hd) as (log2 & Hlog2). cbn [eval_exprs].
  rewrite (resolved_eval ids ls vars s ex e) by done.
  rewrite fmap_cons. cbn [zip zip_with forallb fst]. rewrite negb_andb.
  destruct (expr_value ls s e =? 1)%Z; cbn [mbind res_bind]; [|unfold dump_vars;
    rewrite (rpn_list_ok s ex e) by apply Hres; cbn [mbind res_bind]];
    rewrite Hlog2; cbn [mbind res_bind]; by eexists.
Qed.

(** The steps of the check up to the reading of the configuration. *)
Lemma check_prepare env ks es : malloc_ok env = true -> Forall2 parsed ks es ->
  Forall all_valid ks -> Forall names_fit ks ->
  exists xs cap xs' vars, parse_exprs env ks = Ok xs /\ validate_vars xs = Ok false /\
    get_var_cnt xs = Ok cap /\ populate_vars cap xs [] = Ok (xs', vars) /\
    vars_fresh vars /\ Forall2 (resolved vars) xs' es /\ xs'.*1 = ks /\ (forall n, n ∈ v_id <$> vars -> n ∈ asked ks).
Proof.
  intros Hm Hp Hv Hfit.
  destruct (parse_exprs_ok env ks es Hm) as (xs & Hx & Hst & <-).
  { eapply Forall2_impl; [done|]. unfold parsed. naive_solver. }
  rewrite Forall_fmap in Hv, Hfit.
  destruct (populate_vars_ok (sum_list (zip_with var_count xs es)) xs es [])
    as (xs' & vars & Hpop & _ & Hfr & Hres & Hfst & Hids); [done| |done|simpl; lia|].
  { split; [|done]. split; [apply NoDup_nil_2|done]. }
  exists xs, (sum_list (zip_with var_count xs es)), xs', vars.
  split_and!; try done; [|by apply get_var_cnt_ok|intros n [[]%not_elem_of_nil|?]%Hids; done].
  rewrite (validate_vars_ok xs es) by done. f_equal. apply negb_false_iff, forallb_forall.
  intros x Hx'%list_elem_of_In. rewrite Forall_forall in Hv. by apply Hv.
Qed.

Lemma parse_exprs_cases env ks : malloc_ok env = true ->
  parse_exprs env ks = Err (TBROK, str "Invalid kconfig expression!") \/
  exists xs es, parse_exprs env ks = Ok xs /\ staged xs es /\ xs.*1 = ks /\
    Forall2 (fun s e => wf_bexp e = true /\ op <$> tokens s = toks e) ks es.
Proof.
  intros Hm. induction ks as [|s ks IH]; [right; exists [], []; repeat constructor|]. simpl. rewrite Hm.
  destruct (parse_cases s) as [(e & Hwf & Hop & ->)|(_ & msg & -> & _)]; [|by left].
  destruct IH as [->|(xs & es & -> & Hst & <- & Hall)]; [by left|]. right. simpl. eexists _, (e :: es).
  split; [done|]. split; [|split; [done|]]; constructor; try done. by apply linked_stage.
Qed.

(** ** Properties *)

(** C2: [tst_kconfig_check] decides the requirements: for expressions of the
    grammar whose variables are valid, it returns 0 exactly when every expression
    is true of the configuration, and 1 otherwise.  A plain name is true when it is
    set to [y] or [m], and a value is compared up to its first white space.  The
    file consists of settings, each name once and of less than 100 characters, of
    comments and empty lines, all of any length, of which no line names a variable
    beyond its 127th character; for the variables in the expressions the first word
    of the value ends before that. *)
Theorem kconfig_check_correct env ls log ks es :
  KCONFIG_SKIP_CHECK env = false -> malloc_ok env = true -> ks <> [] ->
  open_kconfig env = Ok (Some (render_config ls), log) -> wf_config (asked ks) ls ->
  Forall2 parsed ks es -> Forall all_valid ks -> Forall names_fit ks ->
  exists log', tst_kconfig_check env ks
    = Ok (if forallb (fun '(s, e) => expr_value ls s e =? 1)%Z (zip ks es) then 0%Z else 1%Z, log').
Proof.
  intros Hskip Hm Hne Ho Hcfg Hp Hv Hfit.
  destruct (check_prepare env ks es Hm Hp Hv Hfit)
    as (xs & cap & xs' & vars & Hx & Hval & Hcnt & Hpop & Hfr & Hres & Hfst & Hids).
  assert (Hlen : array_len ks = Ok (length ks)) by (by destruct ks).
  destruct (eval_exprs_ok (asked ks) ls vars xs' es Hcfg Hfr Hres) as (log2 & Hev).
  { rewrite <-Hfst, Forall_fmap in Hv. done. }
  { clear -Hp. induction Hp as [|?? ?? (_ & _ & ?)]; by constructor. }
  unfold tst_kconfig_check, kconfig_skip_check. rewrite Hlen, Hskip. cbn [mbind res_bind].
  rewrite Hx. cbn [mbind res_bind]. rewrite Hval. cbn [mbind res_bind]. rewrite Hcnt. cbn [mbind res_bind].
  rewrite Hpop. cbn [mbind res_bind]. rewrite (kconfig_read_ok env log (asked ks) ls vars) by (done || apply Hfr).
  cbn [mbind res_bind]. rewrite Hev, Hfst. cbn [mbind res_bind].
  exists ([] ++ log ++ log2). by case_match.
Qed.

Definition ex_config : list cline :=
  [CComment (str " Automatically generated file"); CSetting (str "CONFIG_A") SetY; CBlank;
   CSetting (str "CONFIG_B") NotSet; CSetting (str "CONFIG_HZ") (SetVal (str "250"));
   CSetting (str "CONFIG_CC") (SetVal ([DQUOTE] ++ str "gcc 12" ++ concat (replicate 13 (str " (GNU " ++ str "12.2)")) ++ [DQUOTE]));
   CSetting (str "CONFIG_C") SetM].
Definition ex_exprs : list cstr := [str "CONFIG_A & (!CONFIG_B | CONFIG_C=y)"; str "CONFIG_HZ=250"].
Definition ex_trees : list bexp := [BBin true BVar (BPar (BBin false (BNot BVar) BVar)); BVar].

Lemma kconfig_check_correct_witness :
  exists log', tst_kconfig_check (env_of (render_config ex_config)) ex_exprs
    = Ok (if forallb (fun '(s, e) => expr_value ex_config s e =? 1)%Z (zip ex_exprs ex_trees)
          then 0%Z else 1%Z, log').
Proof.
  eapply kconfig_check_correct; [done|done|done|vm_compute; reflexivity| | | |].
  - split; [vm_compute; reflexivity|]. apply (bool_decide_unpack _). vm_compute. exact I.
  - repeat constructor; vm_compute; try reflexivity; lia.
  - repeat constructor.
  - repeat constructor.
Defined.

(** C32: a list of expressions in which one does not parse, or all parse and one
    has an invalid variable, ends the test with TBROK. *)
Theorem kconfig_check_rejects env ks :
  KCONFIG_SKIP_CHECK env = false -> malloc_ok env = true ->
  Exists (fun s => (forall e, wf_bexp e = true -> op <$> tokens s <> toks e) \/ ~ all_valid s) ks ->
  tst_kconfig_check env ks = Err (TBROK, str "Invalid kconfig expression!")
  \/ tst_kconfig_check env ks = Err (TBROK, str "Invalid kconfig variables!").
Proof.
  intros Hskip Hm Hex. unfold tst_kconfig_check, kconfig_skip_check. rewrite Hskip.
  replace (array_len ks) with (Ok (E := brk) (length ks)) by (by destruct Hex). cbn [mbind res_bind].
  destruct (parse_exprs_cases env ks Hm) as [->|(xs & es & -> & Hst & Hks & Hall)]; [by left|right].
  cbn [mbind res_bind]. rewrite (validate_vars_ok xs es) by done. cbn [mbind res_bind].
  case_match eqn:Hok; [done|exfalso]. apply negb_false_iff in Hok. rewrite forallb_forall in Hok.
  apply Exists_exists in Hex as (s & Hs & Hbad). destruct Hbad as [Hbad|Hbad].
  - apply list_elem_of_lookup in Hs as [i Hi].
    destruct (Forall2_lookup_l _ _ _ _ _ Hall Hi) as (e & _ & Hwf & Hop). by apply (Hbad e).
  - rewrite <-Hks in Hs. apply list_elem_of_fmap in Hs as (x & -> & Hx).
    by apply Hbad, Hok, list_elem_of_In.
Qed.

Lemma kconfig_check_rejects_witness :
  tst_kconfig_check (env_of []) [str "CONFIG_A"; str "CONFIG_B=a-b"]
    = Err (TBROK, str "Invalid kconfig expression!")
  \/ tst_kconfig_check (env_of []) [str "CONFIG_A"; str "CONFIG_B=a-b"]
    = Err (TBROK, str "Invalid kconfig variables!").
Proof.
  apply kconfig_check_rejects; [done|done|]. right. left. right. vm_compute. discriminate.
Defined.

(** The character [tst_kconfig_get] returns for a setting. *)
Definition setting_choice (o : option setting) : Z :=
  match o with
  | None => 0%Z
  | Some SetY => "y"%ch | Some SetM => "m"%ch | Some NotSet => "n"%ch | Some (SetVal _) => "v"%ch
  end.

(** [tst_kconfig_get] returns the setting of the variable in the
    configuration, and 0 for one that the file does not mention, wherever in the
    file the line stands. *)
Theorem kconfig_get_correct env ls log n :
  KCONFIG_SKIP_CHECK env = false -> open_kconfig env = Ok (Some (render_config ls), log) ->
  wf_config [n] ls -> length n < ID_SIZE ->
  tst_kconfig_get env n = Ok (setting_choice (lookup_cfg ls n), log).
Proof.
  intros Hskip Ho Hcfg Hn. unfold tst_kconfig_get, kconfig_skip_check. rewrite Hskip.
  rewrite (proj2 (Nat.leb_gt _ _)) by done. rewrite (kconfig_read_ok env log [n] ls) by (done ||
    (split; [apply NoDup_singleton|by apply Forall_singleton])).
  cbn. unfold settle. cbn. by destruct (lookup_cfg ls n) as [[| |w|]|].
Qed.

Lemma kconfig_get_correct_witness :
  exists log, tst_kconfig_get (env_of (render_config ex_config)) (str "CONFIG_C")
    = Ok (setting_choice (lookup_cfg ex_config (str "CONFIG_C")), log).
Proof.
  eexists. eapply kconfig_get_correct; [done|vm_compute; reflexivity| |vm_compute; lia].
  split; [vm_compute; reflexivity|]. apply (bool_decide_unpack _). vm_compute. exact I.
Defined.

(** [populate_vars] fills the array counted by [get_var_cnt] without running
    over it, holds each variable once, and makes every variable token of every
    expression point to the entry with its name. *)
Theorem kconfig_vars_unique env ks es :
  malloc_ok env = true -> Forall2 parsed ks es -> Forall all_valid ks -> Forall names_fit ks ->
  exists xs cap xs' vars, parse_exprs env ks = Ok xs /\ get_var_cnt xs = Ok cap /\
    populate_vars cap xs [] = Ok (xs', vars) /\ NoDup (v_id <$> vars) /\
    Forall2 (fun x e => forall i t, i ∈ BoolExpr.vars 0 e -> buf (snd x) !! i = Some t ->
               refers (fst x) vars t) xs' es.
Proof.
  intros Hm Hp Hv Hfit.
  destruct (check_prepare env ks es Hm Hp Hv Hfit)
    as (xs & cap & xs' & vars & Hx & _ & Hcnt & Hpop & [[Hnd _] _] & Hres & _ & _).
  exists xs, cap, xs', vars. split_and!; try done.
  eapply Forall2_impl; [done|]. by intros x e [_ ?].
Qed.

Lemma kconfig_vars_unique_witness :
  exists xs cap xs' vars, parse_exprs (env_of []) ex_exprs = Ok xs /\ get_var_cnt xs = Ok cap /\
    populate_vars cap xs [] = Ok (xs', vars) /\ NoDup (v_id <$> vars) /\
    Forall2 (fun x e => forall i t, i ∈ BoolExpr.vars 0 e -> buf (snd x) !! i = Some t ->
               refers (fst x) vars t) xs' ex_trees.
Proof.
  apply kconfig_vars_unique; [done| | |]; [|repeat constructor..].
  repeat constructor; vm_compute; try reflexivity; lia.
Defined.

(** A line that is not terminated by white space (the last line of a file
    without a final newline, or the first 127 characters of a longer line) is
    misread: the scan of the value goes on into what the buffer held before, so
    [NAME=y] is taken for a value, or the scan leaves the buffer. *)
Theorem kconfig_unterminated_line n v tail :
  wf_name n = true -> v_id v = n -> v_id_len v = length n ->
  kconfig_parse_line (n ++ str "=y") tail [v]
  = match find_space tail with
    | None => Fault
    | Some _ => Ok (false, [mkVar n (length n) "v"%ch (Some (str "y"))])
    end.
Proof.
  intros Hn Hid Hlen. pose proof Hn as [[u Hu]%starts_spec Hc]%andb_true_iff.
  assert (Hp : prefix_len is_var_char (n ++ str "=y") = length n)
    by (rewrite prefix_len_app by done; simpl; lia).
  assert (Hm := name_match v n (str "=y")). rewrite bool_decide_eq_true_2 in Hm by done.
  rewrite Hid in Hm. specialize (Hm Hlen). apply orb_false_iff in Hm as [Hm1 Hm2].
  unfold kconfig_parse_line. rewrite Hu, <-app_assoc. 
  change (skip_while isspace (str "CONFIG_" ++ u ++ str "=y")) with (str "CONFIG_" ++ u ++ str "=y").
  change (at_ (str "CONFIG_" ++ u ++ str "=y") 0 =? "#"%ch)%Z with false. cbn [andb].
  rewrite strstr_starts by apply starts_app. rewrite app_assoc, <-Hu, Hp.
  cbn [parse_vars]. rewrite Hid, Hm1, Hm2, drop_app_length. simpl.
  destruct (find_space tail); simpl; [|done]. by rewrite Hlen.
Qed.

Lemma kconfig_unterminated_line_witness :
  kconfig_parse_line (str "CONFIG_A" ++ str "=y") (str "old" ++ [NEWLINE]) [mkVar (str "CONFIG_A") 8 0 None]
  = match find_space (str "old" ++ [NEWLINE]) with
    | None => Fault
    | Some _ => Ok (false, [mkVar (str "CONFIG_A") (length (str "CONFIG_A")) "v"%ch (Some (str "y"))])
    end.
Proof. apply kconfig_unterminated_line; vm_compute; reflexivity. Defined.

(** A variable with a value is false on its own. *)
Example plain_value_is_false :
  exists log, tst_kconfig_check (env_of (render_config ex_config)) [str "CONFIG_HZ"] = Ok (1%Z, log).
Proof. eexists. vm_compute. reflexivity. Qed.

(** A string with a blank is cut at the blank, so the expression that quotes it
    is not satisfied. *)
Example quoted_blank_is_cut :
  exists log, tst_kconfig_check
    (env_of (str "CONFIG_S=" ++ [DQUOTE] ++ str "a b" ++ [DQUOTE; NEWLINE]))
    [str "CONFIG_S=" ++ [DQUOTE] ++ str "a b" ++ [DQUOTE]] = Ok (1%Z, log).
Proof. eexists. vm_compute. reflexivity. Qed.
