(* ===== verification/Timer.v ===== *)
(** * Time values: [include/tst_timer.h] and [lib/tst_timer.c]

    Arithmetic on [struct tst_ts], [struct tst_its], [struct timespec] and
    [struct timeval].  [long_bits] is the width of [long], the type of the
    fields of a libc or old kernel timespec; the fields of the new kernel
    timespec have 64 bits.  A [long long] operation that overflows is a
    [Fault]; a store into a field converts to the width of the field. *)

From stdpp Require Import base list strings gmap.
From Stdlib Require Import ZArith Lia Zquot Zwf.
From S2P Require Import Prelude.

Local Open Scope Z_scope.

(** ** Data *)
Definition TST_LIBC_TIMESPEC : Z := 0.
Definition TST_KERN_OLD_TIMESPEC : Z := 1.
Definition TST_KERN_TIMESPEC : Z := 2.

Record timespec : Set := mkTimespec { tv_sec : Z; tv_nsec : Z }.
Record timeval : Set := mkTimeval { tvl_sec : Z; tvl_usec : Z }.

(** [ts] is the member of the union that [type] selects. *)
Record tst_ts : Set := mkTs { ts_type : Z; ts : timespec }.
Record tst_its : Set := mkIts { its_type : Z; it_interval : timespec; it_value : timespec }.

Abbreviation M := (res brk).

(** A [long long] value. *)
Definition ll (z : Z) : M Z := if in_ll z then Ok z else Fault.

Section Timer.
Context (long_bits : Z).

(** ** [struct timeval] *)
Definition store_long (z : Z) : Z := wrap_s long_bits z.
(** Arithmetic of type [long]. *)
Definition longv (z : Z) : M Z :=
  if (- 2 ^ (long_bits - 1) <=? z) && (z <? 2 ^ (long_bits - 1)) then Ok z else Fault.

Definition tst_timeval_to_us (t : timeval) : M Z :=
  a ← ll (tvl_sec t * 1000000); ll (a + tvl_usec t).

Definition tst_timeval_to_ms (t : timeval) : M Z :=
  a ← ll (tvl_sec t * 1000);
  b ← longv (tvl_usec t + 500);
  ll (a + Z.quot b 1000).

Definition tst_ms_to_timeval (ms : Z) : timeval :=
  mkTimeval (store_long (Z.quot ms 1000)) (store_long (Z.rem ms 1000 * 1000)).

Definition tst_us_to_timeval (us : Z) : timeval :=
  mkTimeval (store_long (Z.quot us 1000000)) (store_long (Z.rem us 1000000)).

Definition tst_timeval_diff (t1 t2 : timeval) : M timeval :=
  s ← longv (tvl_sec t1 - tvl_sec t2);
  if tvl_usec t1 <? tvl_usec t2 then
    s' ← longv (s - 1);
    d ← longv (tvl_usec t2 - tvl_usec t1);
    u ← longv (1000000 - d);
    Ok (mkTimeval s' u)
  else
    u ← longv (tvl_usec t1 - tvl_usec t2);
    Ok (mkTimeval s u).

Definition tst_timeval_diff_us (t1 t2 : timeval) : M Z :=
  d ← tst_timeval_diff t1 t2; tst_timeval_to_us d.
Definition tst_timeval_diff_ms (t1 t2 : timeval) : M Z :=
  d ← tst_timeval_diff t1 t2; tst_timeval_to_ms d.

(** ** Access to the fields *)
Definition known_type (ty : Z) : bool :=
  (ty =? TST_LIBC_TIMESPEC) || (ty =? TST_KERN_OLD_TIMESPEC) || (ty =? TST_KERN_TIMESPEC).
Definition its_known (ty : Z) : bool :=
  (ty =? TST_KERN_OLD_TIMESPEC) || (ty =? TST_KERN_TIMESPEC).
Definition invalid_type {A} (ty : Z) : M A := Err (TBROK, str "Invalid type").

(** Width of the fields. *)
Definition field_bits (ty : Z) : Z := if ty =? TST_KERN_TIMESPEC then 64 else long_bits.
Definition store (ty z : Z) : Z := wrap_s (field_bits ty) z.

(** The address of the selected member, as the type that selects it. *)
Definition tst_ts_get (t : option tst_ts) : M (option Z) :=
  match t with
  | None => Ok None
  | Some t => if known_type (ts_type t) then Ok (Some (ts_type t)) else invalid_type (ts_type t)
  end.
Definition tst_its_get (t : option tst_its) : M (option Z) :=
  match t with
  | None => Ok None
  | Some t => if its_known (its_type t) then Ok (Some (its_type t)) else invalid_type (its_type t)
  end.

Definition tst_ts_get_sec (t : tst_ts) : M Z :=
  if known_type (ts_type t) then Ok (tv_sec (ts t)) else invalid_type (ts_type t).
Definition tst_ts_get_nsec (t : tst_ts) : M Z :=
  if known_type (ts_type t) then Ok (tv_nsec (ts t)) else invalid_type (ts_type t).
Definition tst_ts_set_sec (t : tst_ts) (sec : Z) : M tst_ts :=
  if known_type (ts_type t)
  then Ok (mkTs (ts_type t) (mkTimespec (store (ts_type t) sec) (tv_nsec (ts t))))
  else invalid_type (ts_type t).
Definition tst_ts_set_nsec (t : tst_ts) (nsec : Z) : M tst_ts :=
  if known_type (ts_type t)
  then Ok (mkTs (ts_type t) (mkTimespec (tv_sec (ts t)) (store (ts_type t) nsec)))
  else invalid_type (ts_type t).

Definition tst_its_get_interval_sec (t : tst_its) : M Z :=
  if its_known (its_type t) then Ok (tv_sec (it_interval t)) else invalid_type (its_type t).
Definition tst_its_get_interval_nsec (t : tst_its) : M Z :=
  if its_known (its_type t) then Ok (tv_nsec (it_interval t)) else invalid_type (its_type t).
Definition tst_its_set_interval_sec (t : tst_its) (sec : Z) : M tst_its :=
  if its_known (its_type t)
  then Ok (mkIts (its_type t) (mkTimespec (store (its_type t) sec) (tv_nsec (it_interval t))) (it_value t))
  else invalid_type (its_type t).
Definition tst_its_set_interval_nsec (t : tst_its) (nsec : Z) : M tst_its :=
  if its_known (its_type t)
  then Ok (mkIts (its_type t) (mkTimespec (tv_sec (it_interval t)) (store (its_type t) nsec)) (it_value t))
  else invalid_type (its_type t).
Definition tst_its_get_value_sec (t : tst_its) : M Z :=
  if its_known (its_type t) then Ok (tv_sec (it_value t)) else invalid_type (its_type t).
Definition tst_its_get_value_nsec (t : tst_its) : M Z :=
  if its_known (its_type t) then Ok (tv_nsec (it_value t)) else invalid_type (its_type t).
Definition tst_its_set_value_sec (t : tst_its) (sec : Z) : M tst_its :=
  if its_known (its_type t)
  then Ok (mkIts (its_type t) (it_interval t) (mkTimespec (store (its_type t) sec) (tv_nsec (it_value t))))
  else invalid_type (its_type t).
Definition tst_its_set_value_nsec (t : tst_its) (nsec : Z) : M tst_its :=
  if its_known (its_type t)
  then Ok (mkIts (its_type t) (it_interval t) (mkTimespec (tv_sec (it_value t)) (store (its_type t) nsec)))
  else invalid_type (its_type t).

(** ** Conversions *)
Definition tst_ts_valid (t : tst_ts) : M Z :=
  nsec ← tst_ts_get_nsec t;
  if (nsec <? 0) || (nsec >=? 1000000000) then Ok (-2)
  else
    s ← tst_ts_get_sec t;
    n ← tst_ts_get_nsec t;
    if (s =? 0) && (n =? 0) then Ok (-1) else Ok 0.

Definition tst_ts_from_timespec (t : timespec) : tst_ts := mkTs TST_LIBC_TIMESPEC t.
(** Reads the libc member; with another member selected this is a different
    view of the bytes unless all members have the same layout. *)
Definition tst_ts_to_timespec (t : tst_ts) : M timespec :=
  if field_bits (ts_type t) =? long_bits then Ok (ts t) else Fault.

Definition tst_ts_to_ns (t : tst_ts) : M Z :=
  s ← tst_ts_get_sec t; a ← ll (s * 1000000000); n ← tst_ts_get_nsec t; ll (a + n).
Definition tst_ts_to_us (t : tst_ts) : M Z :=
  s ← tst_ts_get_sec t; a ← ll (s * 1000000);
  n ← tst_ts_get_nsec t; b ← ll (n + 500); ll (a + Z.quot b 1000).
Definition tst_timespec_to_us (t : timespec) : M Z := tst_ts_to_us (tst_ts_from_timespec t).
Definition tst_ts_to_ms (t : tst_ts) : M Z :=
  s ← tst_ts_get_sec t; a ← ll (s * 1000);
  n ← tst_ts_get_nsec t; b ← ll (n + 500000); ll (a + Z.quot b 1000000).
Definition tst_timespec_to_ms (t : timespec) : M Z := tst_ts_to_ms (tst_ts_from_timespec t).

(** [struct tst_ts ret = {.type = type}] *)
Definition ts_zero (ty : Z) : tst_ts := mkTs ty (mkTimespec 0 0).

Definition tst_ts_from_ns (ty ns : Z) : M tst_ts :=
  r ← tst_ts_set_sec (ts_zero ty) (Z.quot ns 1000000000);
  tst_ts_set_nsec r (Z.rem ns 1000000000).
Definition tst_ts_from_us (ty us : Z) : M tst_ts :=
  r ← tst_ts_set_sec (ts_zero ty) (Z.quot us 1000000);
  tst_ts_set_nsec r (Z.rem us 1000000 * 1000).
Definition tst_timespec_from_us (us : Z) : M timespec :=
  r ← tst_ts_from_us TST_LIBC_TIMESPEC us; tst_ts_to_timespec r.
Definition tst_ts_from_ms (ty ms : Z) : M tst_ts :=
  r ← tst_ts_set_sec (ts_zero ty) (Z.quot ms 1000);
  tst_ts_set_nsec r (Z.rem ms 1000 * 1000000).
Definition tst_timespec_from_ms (ms : Z) : M timespec :=
  r ← tst_ts_from_ms TST_LIBC_TIMESPEC ms; tst_ts_to_timespec r.

Definition tst_its_set_interval_from_us (t : tst_its) (usec : Z) : M tst_its :=
  tp ← tst_timespec_from_us usec;
  t1 ← tst_its_set_interval_sec t (tv_sec tp); tst_its_set_interval_nsec t1 (tv_nsec tp).
Definition tst_its_set_value_from_us (t : tst_its) (usec : Z) : M tst_its :=
  tp ← tst_timespec_from_us usec;
  t1 ← tst_its_set_value_sec t (tv_sec tp); tst_its_set_value_nsec t1 (tv_nsec tp).
Definition tst_its_set_interval_from_ts (t : tst_its) (x : tst_ts) : M tst_its :=
  s ← tst_ts_get_sec x; t1 ← tst_its_set_interval_sec t s;
  n ← tst_ts_get_nsec x; tst_its_set_interval_nsec t1 n.
Definition tst_its_set_value_from_ts (t : tst_its) (x : tst_ts) : M tst_its :=
  s ← tst_ts_get_sec x; t1 ← tst_its_set_value_sec t s;
  n ← tst_ts_get_nsec x; tst_its_set_value_nsec t1 n.

(** ** Comparison and arithmetic *)
Definition tst_ts_lt (t1 t2 : tst_ts) : M bool :=
  s1 ← tst_ts_get_sec t1; s2 ← tst_ts_get_sec t2;
  if s1 =? s2 then
    n1 ← tst_ts_get_nsec t1; n2 ← tst_ts_get_nsec t2; Ok (n1 <? n2)
  else Ok (s1 <? s2).
Definition tst_timespec_lt (t1 t2 : timespec) : M bool :=
  tst_ts_lt (tst_ts_from_timespec t1) (tst_ts_from_timespec t2).

Definition tst_ts_normalize (t : tst_ts) : M tst_ts :=
  sec ← tst_ts_get_sec t;
  nsec ← tst_ts_get_nsec t;
  t1 ← (if nsec >=? 1000000000 then
          s ← ll (sec + 1); t' ← tst_ts_set_sec t s;
          n ← ll (nsec - 1000000000); tst_ts_set_nsec t' n
        else Ok t);
  if nsec <? 0 then
    s ← ll (sec - 1); t' ← tst_ts_set_sec t1 s;
    n ← ll (nsec + 1000000000); tst_ts_set_nsec t' n
  else Ok t1.

Definition tst_ts_add_us (t : tst_ts) (us : Z) : M tst_ts :=
  s ← tst_ts_get_sec t; s' ← ll (s + Z.quot us 1000000);
  r ← tst_ts_set_sec (ts_zero (ts_type t)) s';
  n ← tst_ts_get_nsec t; n' ← ll (n + Z.rem us 1000000 * 1000);
  r' ← tst_ts_set_nsec r n';
  tst_ts_normalize r'.
Definition tst_timespec_add_us (t : timespec) (us : Z) : M timespec :=
  r ← tst_ts_add_us (tst_ts_from_timespec t) us; tst_ts_to_timespec r.

Definition tst_ts_sub_us (t : tst_ts) (us : Z) : M tst_ts :=
  s ← tst_ts_get_sec t; s' ← ll (s - Z.quot us 1000000);
  r ← tst_ts_set_sec (ts_zero (ts_type t)) s';
  n ← tst_ts_get_nsec t; n' ← ll (n - Z.rem us 1000000 * 1000);
  r' ← tst_ts_set_nsec r n';
  tst_ts_normalize r'.
Definition tst_timespec_sub_us (t : timespec) (us : Z) : M timespec :=
  r ← tst_ts_sub_us (tst_ts_from_timespec t) us; tst_ts_to_timespec r.

Definition tst_ts_add (t1 t2 : tst_ts) : M tst_ts :=
  a ← tst_ts_get_sec t1; b ← tst_ts_get_sec t2; s ← ll (a + b);
  r ← tst_ts_set_sec (ts_zero (ts_type t1)) s;
  c ← tst_ts_get_nsec t1; d ← tst_ts_get_nsec t2; n ← ll (c + d);
  r' ← tst_ts_set_nsec r n;
  tst_ts_normalize r'.
Definition tst_timespec_add (t1 t2 : timespec) : M timespec :=
  r ← tst_ts_add (tst_ts_from_timespec t1) (tst_ts_from_timespec t2); tst_ts_to_timespec r.

Definition tst_ts_diff (t1 t2 : tst_ts) : M tst_ts :=
  a ← tst_ts_get_sec t1; b ← tst_ts_get_sec t2; s ← ll (a - b);
  r ← tst_ts_set_sec (ts_zero (ts_type t1)) s;
  c ← tst_ts_get_nsec t1; d ← tst_ts_get_nsec t2; n ← ll (c - d);
  r' ← tst_ts_set_nsec r n;
  tst_ts_normalize r'.
Definition tst_timespec_diff (t1 t2 : timespec) : M timespec :=
  r ← tst_ts_diff (tst_ts_from_timespec t1) (tst_ts_from_timespec t2); tst_ts_to_timespec r.

Definition tst_ts_diff_ns (t1 t2 : tst_ts) : M Z := d ← tst_ts_diff t1 t2; tst_ts_to_ns d.
Definition tst_timespec_diff_ns (t1 t2 : timespec) : M Z :=
  tst_ts_diff_ns (tst_ts_from_timespec t1) (tst_ts_from_timespec t2).
Definition tst_ts_diff_us (t1 t2 : tst_ts) : M Z := d ← tst_ts_diff t1 t2; tst_ts_to_us d.
Definition tst_timespec_diff_us (t1 t2 : timespec) : M Z :=
  tst_ts_diff_us (tst_ts_from_timespec t1) (tst_ts_from_timespec t2).
Definition tst_ts_diff_ms (t1 t2 : tst_ts) : M Z := d ← tst_ts_diff t1 t2; tst_ts_to_ms d.
Definition tst_timespec_diff_ms (t1 t2 : timespec) : M Z :=
  tst_ts_diff_ms (tst_ts_from_timespec t1) (tst_ts_from_timespec t2).

Definition tst_ts_abs_diff (t1 t2 : tst_ts) : M tst_ts :=
  b ← tst_ts_lt t1 t2;
  if b : bool then tst_ts_diff t2 t1 else tst_ts_diff t1 t2.
Definition tst_ts_abs_diff_us (t1 t2 : tst_ts) : M Z := d ← tst_ts_abs_diff t1 t2; tst_ts_to_us d.
Definition tst_timespec_abs_diff_us (t1 t2 : timespec) : M Z :=
  tst_ts_abs_diff_us (tst_ts_from_timespec t1) (tst_ts_from_timespec t2).
Definition tst_ts_abs_diff_ms (t1 t2 : tst_ts) : M Z := d ← tst_ts_abs_diff t1 t2; tst_ts_to_ms d.

(** ** The timer ([lib/tst_timer.c])

    [clock_gettime] is the answer of the clock at the call: a time or an errno. *)
Record timer : Set := mkTimer { start_time : timespec; stop_time : timespec; clock_id : Z }.
Definition EINVAL : Z := 22.
Definition clock_answer : Set := timespec + Z.

Definition tst_timer_check (a : clock_answer) (st : timer) : M timer :=
  match a with
  | inl t => Ok (mkTimer t (stop_time st) (clock_id st))
  | inr errno =>
      if errno =? EINVAL then Err (TCONF, str "Clock id not supported by kernel")
      else Err (Z.lor TBROK TERRNO, str "tst_clock_gettime() failed")
  end.

Definition gettime_failed : list report := [(Z.lor TWARN TERRNO, str "tst_clock_gettime() failed")].

Definition tst_timer_start (clk_id : Z) (a : clock_answer) (st : timer) : timer * list report :=
  match a with
  | inl t => (mkTimer t (stop_time st) clk_id, [])
  | inr _ => (mkTimer (start_time st) (stop_time st) clk_id, gettime_failed)
  end.

(** [cur0] is what the uninitialised [cur_time] holds if the clock fails. *)
Definition tst_timer_expired_ms (ms : Z) (a : clock_answer) (cur0 : timespec) (st : timer)
    : M (bool * list report) :=
  let '(cur, log) := match a with inl t => (t, []) | inr _ => (cur0, gettime_failed) end in
  d ← tst_timespec_diff_ms cur (start_time st);
  Ok (d >=? ms, log).

Definition tst_timer_stop (a : clock_answer) (st : timer) : timer * list report :=
  match a with
  | inl t => (mkTimer (start_time st) t (clock_id st), [])
  | inr _ => (st, gettime_failed)
  end.

Definition tst_timer_elapsed (st : timer) : M timespec :=
  tst_timespec_diff (stop_time st) (start_time st).
Definition tst_timer_elapsed_ms (st : timer) : M Z :=
  e ← tst_timer_elapsed st; tst_timespec_to_ms e.
Definition tst_timer_elapsed_us (st : timer) : M Z :=
  e ← tst_timer_elapsed st; tst_timespec_to_us e.
End Timer.

(** ** Specification *)
Definition NS : Z := 1000000000.
Definition total (t : timespec) : Z := tv_sec t * NS + tv_nsec t.
Definition normalized (t : timespec) : bool := (0 <=? tv_nsec t) && (tv_nsec t <? NS).
(** The value with whole seconds and the rest. *)
Definition norm (s n : Z) : timespec :=
  if n >=? NS then mkTimespec (s + 1) (n - NS)
  else if n <? 0 then mkTimespec (s - 1) (n + NS)
  else mkTimespec s n.

Section Fits.
Context (long_bits : Z).

(** [z] can be stored in a field, with room for a carry. *)
Definition fits (ty z : Z) : Prop :=
  - 2 ^ (field_bits long_bits ty - 1) <= z < 2 ^ (field_bits long_bits ty - 1).
Definition room (ty z : Z) : Prop := fits ty (z - 1) /\ fits ty (z + 1).

Hypothesis Hlong : long_bits = 32 \/ long_bits = 64.

Lemma field_bits_cases ty : field_bits long_bits ty = 32 \/ field_bits long_bits ty = 64.
Proof. unfold field_bits. destruct (_ =? _); [by right|done]. Qed.

Lemma store_fits ty z : fits ty z -> store long_bits ty z = z.
Proof.
  unfold fits, store. intros H. apply wrap_s_id; [|done]. destruct (field_bits_cases ty); lia.
Qed.

Lemma fits_ll ty z : fits ty z -> in_ll z = true.
Proof.
  unfold fits, in_ll, LLONG_MIN, LLONG_MAX. destruct (field_bits_cases ty) as [->| ->]; simpl;
    intros; apply andb_true_iff; rewrite !Z.leb_le; lia.
Qed.

(** Both summands of a nanosecond addition are below one second, so the sum
    fits even a 32-bit field. *)
Lemma fits_nsec ty n : - NS <= n < 2 * NS -> fits ty n.
Proof. unfold fits, NS. destruct (field_bits_cases ty) as [->| ->]; simpl; lia. Qed.

Lemma room_fits ty z : room ty z -> fits ty z.
Proof. unfold room, fits. lia. Qed.

Lemma ll_ok z : in_ll z = true -> ll z = Ok z.
Proof. unfold ll. by intros ->. Qed.

Lemma ll_fits ty z : fits ty z -> ll z = Ok z.
Proof. intros. by eapply ll_ok, fits_ll. Qed.
End Fits.
#[export] Hint Resolve room_fits fits_nsec fits_ll : ltp.

(** ** Normalisation and the operations built on it *)
Section Arith.
Context (long_bits : Z) (Hlong : long_bits = 32 \/ long_bits = 64).
Local Abbreviation fits := (fits long_bits).
Local Abbreviation room := (room long_bits).

Lemma norm_total s n : total (norm s n) = s * NS + n.
Proof. unfold total, norm. bools; repeat case_match; simpl; lia. Qed.

Lemma norm_normalized s n : - NS <= n < 2 * NS -> normalized (norm s n) = true.
Proof.
  unfold normalized, norm, NS. intros. rewrite Z.geb_leb, andb_true_iff, Z.leb_le, Z.ltb_lt.
  destruct (Z.leb_spec 1000000000 n), (Z.ltb_spec n 0); simpl; lia.
Qed.

Lemma normalized_nsec x : normalized x = true -> 0 <= tv_nsec x < NS.
Proof. unfold normalized. intros H. apply andb_true_iff in H. lia. Qed.

(** A normalised value is determined by its total. *)
Lemma total_inj x y : normalized x = true -> normalized y = true -> total x = total y -> x = y.
Proof.
  intros Hx%normalized_nsec Hy%normalized_nsec. unfold total. destruct x as [s n], y as [s' n'].
  cbn [tv_sec tv_nsec] in *. unfold NS in *. intros. f_equal; lia.
Qed.

(** Storing seconds and nanoseconds and normalising the result. *)
Lemma set_normalize ty s n : known_type ty = true -> room ty s -> - NS <= n < 2 * NS ->
  (r ← tst_ts_set_sec long_bits (ts_zero ty) s; r' ← tst_ts_set_nsec long_bits r n;
   tst_ts_normalize long_bits r')
  = Ok (mkTs ty (norm s n)).
Proof.
  intros Hty Hs Hn. unfold tst_ts_set_sec, tst_ts_set_nsec. cbn [ts_type ts_zero]. rewrite Hty. cbn.
  rewrite Hty. cbn. unfold tst_ts_normalize, tst_ts_get_sec, tst_ts_get_nsec, tst_ts_set_sec, tst_ts_set_nsec.
  cbn. rewrite Hty. cbn.
  rewrite (store_fits _ Hlong ty s), (store_fits _ Hlong ty n) by eauto with ltp.
  destruct Hs as [Hs1 Hs2]. unfold norm. change 1000000000 with NS. rewrite Z.geb_leb.
  destruct (Z.leb_spec NS n).
  - rewrite (ll_fits _ Hlong ty (s + 1)) by done. cbn. rewrite Hty. cbn.
    assert (fits ty (n - NS)) by (apply fits_nsec; unfold NS in *; lia).
    rewrite (ll_fits _ Hlong ty (n - NS)) by done. cbn. rewrite Hty. cbn.
    destruct (Z.ltb_spec n 0); [unfold NS in *; lia|].
    by rewrite !(store_fits _ Hlong).
  - cbn. destruct (Z.ltb_spec n 0); [|done].
    rewrite (ll_fits _ Hlong ty (s - 1)) by done. cbn. rewrite Hty. cbn.
    assert (fits ty (n + NS)) by (apply fits_nsec; unfold NS in *; lia).
    rewrite (ll_fits _ Hlong ty (n + NS)) by done. cbn. rewrite Hty. cbn.
    by rewrite !(store_fits _ Hlong).
Qed.

(** A value of known type with normalised nanoseconds. *)
Definition good (t : tst_ts) : Prop := known_type (ts_type t) = true /\ normalized (ts t) = true.

Lemma good_nsec t : good t -> 0 <= tv_nsec (ts t) < NS.
Proof. intros [_ H]. by apply normalized_nsec. Qed.

(** The fields of a value of known type. *)
Lemma get_sec_ok t : good t -> tst_ts_get_sec t = Ok (tv_sec (ts t)).
Proof. intros [H _]. unfold tst_ts_get_sec. by rewrite H. Qed.
Lemma get_nsec_ok t : good t -> tst_ts_get_nsec t = Ok (tv_nsec (ts t)).
Proof. intros [H _]. unfold tst_ts_get_nsec. by rewrite H. Qed.

Lemma set_sec_ok ty x s : known_type ty = true -> fits ty s ->
  tst_ts_set_sec long_bits (mkTs ty x) s = Ok (mkTs ty (mkTimespec s (tv_nsec x))).
Proof. intros H Hs. unfold tst_ts_set_sec. cbn. by rewrite H, (store_fits _ Hlong). Qed.
Lemma set_nsec_ok ty x n : known_type ty = true -> fits ty n ->
  tst_ts_set_nsec long_bits (mkTs ty x) n = Ok (mkTs ty (mkTimespec (tv_sec x) n)).
Proof. intros H Hs. unfold tst_ts_set_nsec. cbn. by rewrite H, (store_fits _ Hlong). Qed.

(** The same with the nanoseconds read between the two stores. *)
Lemma set_normalize_seq ty s n : known_type ty = true -> room ty s -> - NS <= n < 2 * NS ->
  tst_ts_set_sec long_bits (ts_zero ty) s = Ok (mkTs ty (mkTimespec s 0)) /\
  tst_ts_set_nsec long_bits (mkTs ty (mkTimespec s 0)) n = Ok (mkTs ty (mkTimespec s n)) /\
  tst_ts_normalize long_bits (mkTs ty (mkTimespec s n)) = Ok (mkTs ty (norm s n)).
Proof.
  intros Hty Hs Hn. pose proof (set_normalize ty s n Hty Hs Hn) as H.
  assert (H1 : tst_ts_set_sec long_bits (ts_zero ty) s = Ok (mkTs ty (mkTimespec s 0)))
    by (apply set_sec_ok; eauto with ltp).
  assert (H2 : tst_ts_set_nsec long_bits (mkTs ty (mkTimespec s 0)) n = Ok (mkTs ty (mkTimespec s n)))
    by (apply set_nsec_ok; eauto with ltp).
  rewrite H1 in H. cbn [mbind res_bind] in H. rewrite H2 in H. auto.
Qed.

Lemma rem_bounds us : - 1000000 < Z.rem us 1000000 < 1000000.
Proof. pose proof (Z.rem_bound_abs us 1000000). lia. Qed.

(** The common run of the four operations: read, compute in [long long], store,
    normalise. *)
Ltac run_ts ty s n G Hr :=
  rewrite !get_sec_ok, !get_nsec_ok by done; cbn [mbind res_bind];
  rewrite (ll_fits _ Hlong ty s) by eauto with ltp; cbn [mbind res_bind];
  let H2 := fresh in
  destruct (set_normalize_seq ty s n (proj1 G) Hr) as (-> & H2 & ?); [unfold NS in *; lia|];
  cbn [mbind res_bind];
  rewrite (ll_fits _ Hlong ty n) by (apply fits_nsec; unfold NS in *; lia); cbn [mbind res_bind];
  rewrite H2; cbn [mbind res_bind]; done.

Lemma add_ok t1 t2 : good t1 -> good t2 -> room (ts_type t1) (tv_sec (ts t1) + tv_sec (ts t2)) ->
  tst_ts_add long_bits t1 t2 = Ok (mkTs (ts_type t1) (norm (tv_sec (ts t1) + tv_sec (ts t2)) (tv_nsec (ts t1) + tv_nsec (ts t2)))).
Proof.
  intros G G2 Hr. pose proof (good_nsec _ G). pose proof (good_nsec _ G2).
  unfold tst_ts_add. run_ts (ts_type t1) (tv_sec (ts t1) + tv_sec (ts t2)) (tv_nsec (ts t1) + tv_nsec (ts t2)) G Hr.
Qed.

Lemma diff_ok t1 t2 : good t1 -> good t2 -> room (ts_type t1) (tv_sec (ts t1) - tv_sec (ts t2)) ->
  tst_ts_diff long_bits t1 t2 = Ok (mkTs (ts_type t1) (norm (tv_sec (ts t1) - tv_sec (ts t2)) (tv_nsec (ts t1) - tv_nsec (ts t2)))).
Proof.
  intros G G2 Hr. pose proof (good_nsec _ G). pose proof (good_nsec _ G2).
  unfold tst_ts_diff. run_ts (ts_type t1) (tv_sec (ts t1) - tv_sec (ts t2)) (tv_nsec (ts t1) - tv_nsec (ts t2)) G Hr.
Qed.

Lemma add_us_ok t us : good t -> room (ts_type t) (tv_sec (ts t) + Z.quot us 1000000) ->
  tst_ts_add_us long_bits t us = Ok (mkTs (ts_type t) (norm (tv_sec (ts t) + Z.quot us 1000000) (tv_nsec (ts t) + Z.rem us 1000000 * 1000))).
Proof.
  intros G Hr. pose proof (good_nsec _ G). pose proof (rem_bounds us).
  unfold tst_ts_add_us. run_ts (ts_type t) (tv_sec (ts t) + Z.quot us 1000000) (tv_nsec (ts t) + Z.rem us 1000000 * 1000) G Hr.
Qed.

Lemma sub_us_ok t us : good t -> room (ts_type t) (tv_sec (ts t) - Z.quot us 1000000) ->
  tst_ts_sub_us long_bits t us = Ok (mkTs (ts_type t) (norm (tv_sec (ts t) - Z.quot us 1000000) (tv_nsec (ts t) - Z.rem us 1000000 * 1000))).
Proof.
  intros G Hr. pose proof (good_nsec _ G). pose proof (rem_bounds us).
  unfold tst_ts_sub_us. run_ts (ts_type t) (tv_sec (ts t) - Z.quot us 1000000) (tv_nsec (ts t) - Z.rem us 1000000 * 1000) G Hr.
Qed.

Lemma lt_ok t1 t2 : good t1 -> good t2 -> tst_ts_lt t1 t2 = Ok (total (ts t1) <? total (ts t2)).
Proof.
  intros G1 G2. pose proof (good_nsec _ G1). pose proof (good_nsec _ G2). unfold tst_ts_lt.
  rewrite !get_sec_ok, !get_nsec_ok by done. cbn [mbind res_bind]. unfold total, NS in *.
  destruct (Z.eqb_spec (tv_sec (ts t1)) (tv_sec (ts t2))) as [E|E]; cbn [mbind res_bind];
    f_equal; apply eq_bool_prop_intro; rewrite !Is_true_true, !Z.ltb_lt; lia.
Qed.

(** A result that is normalised and has the given total. *)
Definition computes (ty ns : Z) (r : M tst_ts) : Prop :=
  exists t, r = Ok t /\ ts_type t = ty /\ normalized (ts t) = true /\ total (ts t) = ns.

Lemma computes_norm ty s n ns : - NS <= n < 2 * NS -> s * NS + n = ns ->
  computes ty ns (Ok (mkTs ty (norm s n))).
Proof. intros Hn <-. eexists. split_and!; [done..|by apply norm_normalized|apply norm_total]. Qed.
End Arith.

(** ** Conversions *)
Section Convert.
Context (long_bits : Z) (Hlong : long_bits = 32 \/ long_bits = 64).
Local Abbreviation fits := (fits long_bits).

Lemma bind_ll z k (r : M Z) : in_ll z = true -> k z = r -> ll z ≫= k = r.
Proof. intros H <-. by rewrite ll_ok. Qed.

Lemma in_ll_between a b z : in_ll a = true -> in_ll b = true -> a <= z <= b -> in_ll z = true.
Proof. unfold in_ll, LLONG_MIN, LLONG_MAX. rewrite !andb_true_iff, !Z.leb_le. lia. Qed.

Lemma in_ll_small z : - 10 ^ 18 <= z <= 10 ^ 18 -> in_ll z = true.
Proof. unfold in_ll, LLONG_MIN, LLONG_MAX. rewrite andb_true_iff, !Z.leb_le. simpl. lia. Qed.

Lemma quot_rem_pos a b : 0 <= a -> 0 < b -> Z.quot a b = a / b /\ Z.rem a b = a mod b.
Proof. intros. split; [apply Z.quot_div_nonneg|apply Z.rem_mod_nonneg]; lia. Qed.

(** Building a value from a number of units of [u] nanoseconds, [per] of them
    in a second. *)
Lemma from_units_ok ty per u x : known_type ty = true -> 0 < per -> per * u = NS -> 0 < u ->
  0 <= x -> fits ty (x / per) ->
  (r ← tst_ts_set_sec long_bits (ts_zero ty) (Z.quot x per);
   tst_ts_set_nsec long_bits r (Z.rem x per * u))
  = Ok (mkTs ty (mkTimespec (x / per) (x mod per * u))).
Proof.
  intros Hty Hper Hu Hu0 Hx Hf. destruct (quot_rem_pos x per) as [-> ->]; [lia..|].
  unfold ts_zero. rewrite set_sec_ok by done. cbn [mbind res_bind tv_nsec tv_sec].
  pose proof (Z.mod_pos_bound x per Hper).
  rewrite set_nsec_ok; [done..|]. apply fits_nsec; [done|]. unfold NS in *. nia.
Qed.

Lemma units_normalized x per u : 0 < per -> per * u = NS -> 0 < u ->
  normalized (mkTimespec (x / per) (x mod per * u)) = true.
Proof.
  intros. pose proof (Z.mod_pos_bound x per). unfold normalized. cbn [tv_nsec].
  rewrite andb_true_iff, Z.leb_le, Z.ltb_lt. nia.
Qed.

(** A number of units converted to a value and back. *)
Lemma div_mod_units x per u half : 0 < per -> 0 < u -> 0 <= half < u -> 0 <= x ->
  Z.quot (x mod per * u + half) u = x mod per.
Proof.
  intros. pose proof (Z.mod_pos_bound x per).
  rewrite Z.quot_div_nonneg by nia. rewrite Z.div_add_l by lia. rewrite (Z.div_small half u) by lia. lia.
Qed.

(** The conversion to units of [u] nanoseconds, rounded by adding [k]. *)
Lemma to_units_ok t k per u : good t -> 0 < u -> 0 <= k <= NS ->
  - 10 ^ 18 <= tv_sec (ts t) * per <= 10 ^ 18 ->
  (s ← tst_ts_get_sec t; a ← ll (s * per);
   n ← tst_ts_get_nsec t; b ← ll (n + k); ll (a + Z.quot b u))
  = Ok (tv_sec (ts t) * per + (tv_nsec (ts t) + k) / u).
Proof.
  intros G Hu Hk Hs. pose proof (good_nsec _ G) as Hn. unfold NS in *.
  rewrite get_sec_ok, get_nsec_ok by done. cbn [mbind res_bind].
  rewrite (ll_ok (tv_sec (ts t) * per)) by (by apply in_ll_small). cbn [mbind res_bind].
  rewrite (ll_ok (tv_nsec (ts t) + k)) by (apply in_ll_small; simpl; lia). cbn [mbind res_bind].
  rewrite Z.quot_div_nonneg by lia.
  assert (0 <= (tv_nsec (ts t) + k) / u <= tv_nsec (ts t) + k).
  { split; [apply Z.div_pos; lia|]. apply Z.div_le_upper_bound; nia. }
  apply ll_ok. unfold in_ll, LLONG_MIN, LLONG_MAX. rewrite andb_true_iff, !Z.leb_le. simpl in *. lia.
Qed.

Lemma units_back ty per u k x : known_type ty = true -> 0 < per -> per * u = NS -> 0 <= k < u ->
  0 <= x <= 10 ^ 18 ->
  (s ← tst_ts_get_sec (mkTs ty (mkTimespec (x / per) (x mod per * u))); a ← ll (s * per);
   n ← tst_ts_get_nsec (mkTs ty (mkTimespec (x / per) (x mod per * u))); b ← ll (n + k);
   ll (a + Z.quot b u)) = Ok x.
Proof.
  intros Hty Hper Hu Hk Hx. pose proof (Z.mod_pos_bound x per Hper). pose proof (Z.div_mod x per ltac:(lia)).
  rewrite to_units_ok; cbn [ts tv_sec tv_nsec].
  - f_equal. rewrite <-(Z.quot_div_nonneg (x mod per * u + k) u) by nia. rewrite div_mod_units by lia. lia.
  - split; [done|]. apply units_normalized; lia.
  - lia.
  - unfold NS in *. nia.
  - assert (0 <= x / per) by (apply Z.div_pos; lia). lia.
Qed.

(** Rounding to the nearest unit. *)
Lemma round_near n u : 0 < u -> Z.even u = true -> 2 * Z.abs ((n + u / 2) / u * u - n) <= u.
Proof.
  intros Hu He. apply Zeven_bool_iff in He. destruct (Zeven_ex _ He) as [h ->].
  replace (2 * h / 2) with h by (rewrite Z.mul_comm, Z.div_mul; lia).
  pose proof (Z.mod_pos_bound (n + h) (2 * h)). pose proof (Z.div_mod (n + h) (2 * h)). lia.
Qed.
End Convert.

(** ** Properties *)

(** C29: addition and subtraction of time values: on normalised values, with the
    result in range of the fields, [tst_ts_add] and [tst_ts_diff] return a
    normalised value of the type of the first operand whose total is the sum or
    the difference, on platforms with 32-bit and 64-bit [long]; no
    intermediate result overflows. *)
Theorem ts_add_diff_correct long_bits t1 t2 :
  long_bits = 32 \/ long_bits = 64 -> good t1 -> good t2 ->
  room long_bits (ts_type t1) (tv_sec (ts t1) + tv_sec (ts t2)) ->
  room long_bits (ts_type t1) (tv_sec (ts t1) - tv_sec (ts t2)) ->
  computes (ts_type t1) (total (ts t1) + total (ts t2)) (tst_ts_add long_bits t1 t2) /\
  computes (ts_type t1) (total (ts t1) - total (ts t2)) (tst_ts_diff long_bits t1 t2).
Proof.
  intros Hl G1 G2 Ha Hd. pose proof (good_nsec _ G1). pose proof (good_nsec _ G2).
  rewrite add_ok, diff_ok by done.
  split; apply computes_norm; unfold total, NS in *; lia.
Qed.

Lemma ts_add_diff_correct_witness :
  computes TST_KERN_TIMESPEC
    (total (mkTimespec 3 999999999) + total (mkTimespec 5 2))
    (tst_ts_add 32 (mkTs TST_KERN_TIMESPEC (mkTimespec 3 999999999)) (mkTs TST_LIBC_TIMESPEC (mkTimespec 5 2)))
  /\ computes TST_KERN_TIMESPEC
    (total (mkTimespec 3 999999999) - total (mkTimespec 5 2))
    (tst_ts_diff 32 (mkTs TST_KERN_TIMESPEC (mkTimespec 3 999999999)) (mkTs TST_LIBC_TIMESPEC (mkTimespec 5 2))).
Proof.
  apply ts_add_diff_correct; [by left|done|done|zeval|zeval].
Defined.

(** [tst_ts_add_us] and [tst_ts_sub_us] add and subtract that many
    microseconds, negative numbers included, and are inverse to each other. *)
Theorem ts_add_sub_us_correct long_bits t us :
  long_bits = 32 \/ long_bits = 64 -> good t ->
  fits long_bits (ts_type t) (tv_sec (ts t) - Z.abs (Z.quot us 1000000) - 2) ->
  fits long_bits (ts_type t) (tv_sec (ts t) + Z.abs (Z.quot us 1000000) + 2) ->
  computes (ts_type t) (total (ts t) + us * 1000) (tst_ts_add_us long_bits t us) /\
  computes (ts_type t) (total (ts t) - us * 1000) (tst_ts_sub_us long_bits t us) /\
  (r ← tst_ts_add_us long_bits t us; tst_ts_sub_us long_bits r us) = Ok t.
Proof.
  intros Hl G H1 H2. pose proof (good_nsec _ G) as Hn. pose proof (rem_bounds us) as Hr.
  pose proof (Z.quot_rem us 1000000 ltac:(lia)) as Hqr.
  assert (Hroom : forall z, tv_sec (ts t) - Z.abs (Z.quot us 1000000) - 1 <= z <=
      tv_sec (ts t) + Z.abs (Z.quot us 1000000) + 1 -> room long_bits (ts_type t) z)
    by (intros z Hz; unfold room, fits in *; lia).
  rewrite add_us_ok, sub_us_ok by (try done; apply Hroom; lia).
  set (q := Z.quot us 1000000) in *. set (m := Z.rem us 1000000) in *.
  split; [apply computes_norm; unfold total, NS in *; lia|].
  split; [apply computes_norm; unfold total, NS in *; lia|]. cbn [mbind res_bind].
  assert (Hn' : normalized (norm (tv_sec (ts t) + q) (tv_nsec (ts t) + m * 1000)) = true)
    by (apply norm_normalized; unfold NS in *; lia).
  rewrite sub_us_ok; [|done|by split; [apply G|]|].
  - fold q m. f_equal. destruct t as [ty [s n]]. cbn [ts ts_type tv_sec tv_nsec] in *. f_equal.
    pose proof (norm_total (s + q) (n + m * 1000)) as Ht.
    pose proof (normalized_nsec _ Hn') as Hb. unfold total in Ht.
    apply total_inj; [apply norm_normalized; unfold NS in *; lia|apply G|].
    rewrite norm_total. unfold total. cbn [tv_sec tv_nsec]. lia.
  - cbn [ts_type ts]. apply Hroom. fold q. unfold norm. repeat case_match; cbn [tv_sec]; lia.
Qed.

Lemma ts_add_sub_us_correct_witness :
  let t := mkTs TST_LIBC_TIMESPEC (mkTimespec 10 5000) in
  computes (ts_type t) (total (ts t) + -1500000 * 1000) (tst_ts_add_us 64 t (-1500000)) /\
  computes (ts_type t) (total (ts t) - -1500000 * 1000) (tst_ts_sub_us 64 t (-1500000)) /\
  (r ← tst_ts_add_us 64 t (-1500000); tst_ts_sub_us 64 r (-1500000)) = Ok t.
Proof.
  apply ts_add_sub_us_correct; [by right|done|zeval|zeval].
Defined.

(** [tst_ts_to_us] and [tst_ts_to_ms] round a normalised value, earlier than
    the epoch or later, to the nearest microsecond or millisecond; [tst_ts_to_ns]
    is exact. *)
Theorem ts_to_units_round t :
  good t -> - 10 ^ 9 <= tv_sec (ts t) < 10 ^ 9 ->
  tst_ts_to_ns t = Ok (total (ts t)) /\
  (exists us, tst_ts_to_us t = Ok us /\ 2 * Z.abs (us * 1000 - total (ts t)) <= 1000) /\
  (exists ms, tst_ts_to_ms t = Ok ms /\ 2 * Z.abs (ms * 1000000 - total (ts t)) <= 1000000).
Proof.
  intros G Hs. pose proof (good_nsec _ G) as Hn. unfold NS in *. split; [|split].
  - unfold tst_ts_to_ns. rewrite get_sec_ok, get_nsec_ok by done. cbn [mbind res_bind].
    rewrite ll_ok by (apply in_ll_small; simpl in *; lia). cbn [mbind res_bind].
    unfold total, NS. apply ll_ok. apply in_ll_small. simpl in *. lia.
  - unfold tst_ts_to_us. rewrite to_units_ok by (try done; unfold NS; simpl in *; lia). eexists. split; [done|].
    pose proof (round_near (tv_nsec (ts t)) 1000 ltac:(lia) eq_refl) as Hr.
    change (1000 / 2) with 500 in Hr. unfold total, NS. lia.
  - unfold tst_ts_to_ms. rewrite to_units_ok by (try done; unfold NS; simpl in *; lia). eexists. split; [done|].
    pose proof (round_near (tv_nsec (ts t)) 1000000 ltac:(lia) eq_refl) as Hr.
    change (1000000 / 2) with 500000 in Hr. unfold total, NS. lia.
Qed.

Lemma ts_to_units_round_witness :
  let t := mkTs TST_KERN_TIMESPEC (mkTimespec (-1) 999500) in
  tst_ts_to_ns t = Ok (total (ts t)) /\
  (exists us, tst_ts_to_us t = Ok us /\ 2 * Z.abs (us * 1000 - total (ts t)) <= 1000) /\
  (exists ms, tst_ts_to_ms t = Ok ms /\ 2 * Z.abs (ms * 1000000 - total (ts t)) <= 1000000).
Proof. apply ts_to_units_round; [done|zeval]. Defined.

(** Converting a non-negative number of nanoseconds, microseconds or
    milliseconds to a time value and back gives the number back; the value is
    normalised. *)
Theorem ts_units_roundtrip long_bits ty x :
  long_bits = 32 \/ long_bits = 64 -> known_type ty = true -> 0 <= x <= 10 ^ 18 ->
  (fits long_bits ty (x / 1000000000) -> exists t, tst_ts_from_ns long_bits ty x = Ok t /\
     normalized (ts t) = true /\ tst_ts_to_ns t = Ok x) /\
  (fits long_bits ty (x / 1000000) -> exists t, tst_ts_from_us long_bits ty x = Ok t /\
     normalized (ts t) = true /\ tst_ts_to_us t = Ok x) /\
  (fits long_bits ty (x / 1000) -> exists t, tst_ts_from_ms long_bits ty x = Ok t /\
     normalized (ts t) = true /\ tst_ts_to_ms t = Ok x).
Proof.
  intros Hl Hty Hx. split_and!; intros Hf.
  - eexists. unfold tst_ts_from_ns. rewrite <-(Z.mul_1_r (Z.rem _ _)).
    rewrite (from_units_ok _ Hl ty 1000000000 1) by (done || lia). split; [done|].
    split; [apply units_normalized; done|]. unfold tst_ts_to_ns, tst_ts_get_sec, tst_ts_get_nsec.
    cbn [ts_type]. rewrite Hty. cbn [mbind res_bind ts tv_sec tv_nsec].
    pose proof (Z.div_mod x 1000000000 ltac:(lia)). pose proof (Z.mod_pos_bound x 1000000000 ltac:(lia)).
    rewrite ll_ok by (apply in_ll_small; lia). cbn [mbind res_bind].
    rewrite ll_ok by (apply in_ll_small; lia). f_equal. lia.
  - eexists. unfold tst_ts_from_us. rewrite (from_units_ok _ Hl ty 1000000 1000) by (done || lia).
    split; [done|]. split; [apply units_normalized; done|]. unfold tst_ts_to_us.
    by apply (units_back ty 1000000 1000 500).
  - eexists. unfold tst_ts_from_ms. rewrite (from_units_ok _ Hl ty 1000 1000000) by (done || lia).
    split; [done|]. split; [apply units_normalized; done|]. unfold tst_ts_to_ms.
    by apply (units_back ty 1000 1000000 500000).
Qed.

Lemma ts_units_roundtrip_witness :
  (fits 32 TST_LIBC_TIMESPEC (1234567890123 / 1000000000) ->
     exists t, tst_ts_from_ns 32 TST_LIBC_TIMESPEC 1234567890123 = Ok t /\
     normalized (ts t) = true /\ tst_ts_to_ns t = Ok 1234567890123) /\
  (fits 32 TST_LIBC_TIMESPEC (1234567890123 / 1000000) ->
     exists t, tst_ts_from_us 32 TST_LIBC_TIMESPEC 1234567890123 = Ok t /\
     normalized (ts t) = true /\ tst_ts_to_us t = Ok 1234567890123) /\
  (fits 32 TST_LIBC_TIMESPEC (1234567890123 / 1000) ->
     exists t, tst_ts_from_ms 32 TST_LIBC_TIMESPEC 1234567890123 = Ok t /\
     normalized (ts t) = true /\ tst_ts_to_ms t = Ok 1234567890123).
Proof. apply ts_units_roundtrip; [by left|done|zeval]. Defined.

(** A negative number of microseconds that is not a whole number of seconds
    comes back one too large: [tst_ts_from_us] leaves the nanoseconds negative
    and [tst_ts_to_us] rounds by adding 500 before a division that truncates
    towards zero. *)
Theorem ts_us_negative_off_by_one long_bits ty k :
  long_bits = 32 \/ long_bits = 64 -> known_type ty = true ->
  0 < k <= 10 ^ 18 -> k mod 1000000 <> 0 -> fits long_bits ty (k / 1000000) ->
  exists t, tst_ts_from_us long_bits ty (- k) = Ok t /\ tst_ts_to_us t = Ok (- k + 1).
Proof.
  intros Hl Hty Hk Hm Hf. pose proof (Z.mod_pos_bound k 1000000 ltac:(lia)) as Hb.
  pose proof (Z.div_mod k 1000000 ltac:(lia)) as Hdm.
  assert (0 <= k / 1000000) by (apply Z.div_pos; lia).
  exists (mkTs ty (mkTimespec (- (k / 1000000)) (- (k mod 1000000) * 1000))). split.
  - unfold tst_ts_from_us, ts_zero. rewrite Z.quot_opp_l, Z.rem_opp_l by lia.
    destruct (quot_rem_pos k 1000000) as [-> ->]; [lia..|].
    rewrite set_sec_ok; [|done|done|]. 2:{ unfold Timer.fits in *. lia. }
    cbn [mbind res_bind]. apply set_nsec_ok; [done|done|]. apply fits_nsec; [done|]. unfold NS. lia.
  - unfold tst_ts_to_us, tst_ts_get_sec, tst_ts_get_nsec. cbn [ts_type]. rewrite Hty.
    cbn [mbind res_bind ts tv_sec tv_nsec].
    rewrite ll_ok by (apply in_ll_small; lia). cbn [mbind res_bind].
    rewrite ll_ok by (apply in_ll_small; lia). cbn [mbind res_bind].
    replace (- (k mod 1000000) * 1000 + 500) with (- ((k mod 1000000 - 1) * 1000 + 500)) by lia.
    rewrite Z.quot_opp_l, Z.quot_div_nonneg by lia. rewrite Z.div_add_l by lia. change (500 / 1000) with 0.
    rewrite ll_ok by (apply in_ll_small; lia). f_equal. lia.
Qed.

Lemma ts_us_negative_off_by_one_witness :
  exists t, tst_ts_from_us 64 TST_KERN_TIMESPEC (- 1500001) = Ok t /\ tst_ts_to_us t = Ok (- 1500001 + 1).
Proof.
  apply (ts_us_negative_off_by_one 64 TST_KERN_TIMESPEC 1500001); [by right|done|zeval|vm_compute; discriminate|zeval].
Defined.

(** [tst_ts_lt] is the order of the totals of normalised values, and
    [tst_ts_abs_diff] is the distance of two values, normalised, in either
    order of the arguments. *)
Theorem ts_order_distance long_bits t1 t2 :
  long_bits = 32 \/ long_bits = 64 -> good t1 -> good t2 -> ts_type t1 = ts_type t2 ->
  fits long_bits (ts_type t1) (- Z.abs (tv_sec (ts t1) - tv_sec (ts t2)) - 1) ->
  fits long_bits (ts_type t1) (Z.abs (tv_sec (ts t1) - tv_sec (ts t2)) + 1) ->
  tst_ts_lt t1 t2 = Ok (total (ts t1) <? total (ts t2)) /\
  computes (ts_type t1) (Z.abs (total (ts t1) - total (ts t2))) (tst_ts_abs_diff long_bits t1 t2) /\
  tst_ts_abs_diff long_bits t1 t2 = tst_ts_abs_diff long_bits t2 t1.
Proof.
  intros Hl G1 G2 Hty Ha Hb. pose proof (good_nsec _ G1) as Hn1. pose proof (good_nsec _ G2) as Hn2.
  assert (Hroom : forall z, Z.abs z <= Z.abs (tv_sec (ts t1) - tv_sec (ts t2)) -> room long_bits (ts_type t1) z)
    by (intros z Hz; unfold room, Timer.fits in *; lia).
  split; [by apply lt_ok|]. unfold tst_ts_abs_diff. rewrite !lt_ok by done. cbn [mbind res_bind].
  rewrite !diff_ok by (try done; rewrite <-?Hty; apply Hroom; lia). rewrite <-Hty.
  destruct (Z.ltb_spec (total (ts t1)) (total (ts t2))), (Z.ltb_spec (total (ts t2)) (total (ts t1)));
    try lia; (split; [apply computes_norm; unfold total, NS in *; lia|]); [done..|].
  assert (E : ts t1 = ts t2) by (apply total_inj; [apply G1|apply G2|lia]).
  by rewrite E.
Qed.

Lemma ts_order_distance_witness :
  let t1 := mkTs TST_LIBC_TIMESPEC (mkTimespec 7 1) in
  let t2 := mkTs TST_LIBC_TIMESPEC (mkTimespec 7 2) in
  tst_ts_lt t1 t2 = Ok (total (ts t1) <? total (ts t2)) /\
  computes (ts_type t1) (Z.abs (total (ts t1) - total (ts t2))) (tst_ts_abs_diff 32 t1 t2) /\
  tst_ts_abs_diff 32 t1 t2 = tst_ts_abs_diff 32 t2 t1.
Proof. apply ts_order_distance; [by left|done|done|done|zeval|zeval]. Defined.

(** A reading of a clock: normalised, and later than the epoch by less than
    2^31 - 1 seconds. *)
Definition clock_value (t : timespec) : Prop :=
  normalized t = true /\ 0 <= tv_sec t < 2 ^ 31 - 1.

Lemma clock_good t : clock_value t -> good (tst_ts_from_timespec t).
Proof. by intros [? _]. Qed.

Lemma clock_diff_ok long_bits t1 t2 : long_bits = 32 \/ long_bits = 64 ->
  clock_value t1 -> clock_value t2 ->
  tst_ts_diff long_bits (tst_ts_from_timespec t1) (tst_ts_from_timespec t2)
  = Ok (mkTs TST_LIBC_TIMESPEC (norm (tv_sec t1 - tv_sec t2) (tv_nsec t1 - tv_nsec t2))).
Proof.
  intros Hl [Hn1 Hs1] [Hn2 Hs2]. rewrite diff_ok; [done|done|done|done|]. unfold room, Timer.fits. cbn [ts ts_type tst_ts_from_timespec].
  destruct (field_bits_cases long_bits Hl TST_LIBC_TIMESPEC) as [->| ->]; simpl in *; lia.
Qed.

(** Milliseconds between two readings, rounded to the nearest. *)
Lemma clock_diff_ms long_bits t1 t2 : long_bits = 32 \/ long_bits = 64 ->
  clock_value t1 -> clock_value t2 ->
  tst_timespec_diff_ms long_bits t1 t2 = Ok ((total t1 - total t2 + 500000) / 1000000).
Proof.
  intros Hl H1 H2. unfold tst_timespec_diff_ms, tst_ts_diff_ms. rewrite clock_diff_ok; [|done..].
  cbn [mbind res_bind]. pose proof (normalized_nsec _ (proj1 H1)). pose proof (normalized_nsec _ (proj1 H2)).
  set (d := norm (tv_sec t1 - tv_sec t2) (tv_nsec t1 - tv_nsec t2)) in *.
  assert (Hdt : total d = total t1 - total t2) by (unfold d; rewrite norm_total; unfold total; lia).
  assert (Hdn : normalized d = true) by (apply norm_normalized; unfold NS in *; lia).
  destruct H1 as [_ H1], H2 as [_ H2].
  unfold tst_ts_to_ms. rewrite to_units_ok; [|done|lia|unfold NS; lia|].
  - rewrite <-Hdt. unfold total, NS. f_equal. cbn [ts]. change (1000000 / 2) with 500000.
    replace (tv_sec d * 1000000000 + tv_nsec d + 500000) with (tv_nsec d + 500000 + tv_sec d * 1000 * 1000000) by lia.
    rewrite Z.div_add by done. lia.
  - cbn [ts]. unfold d, norm. repeat case_match; cbn [tv_sec]; simpl in *; lia.
Qed.

(** A timer started at [a] and stopped at [b] reports the elapsed time
    exactly, rounds it to the nearest unit, and has expired after [ms]
    milliseconds exactly when the rounded time is at least [ms]. *)
Theorem timer_elapsed_correct long_bits clk a b st :
  long_bits = 32 \/ long_bits = 64 -> clock_value a -> clock_value b ->
  tv_sec b - tv_sec a < 10 ^ 9 -> - 10 ^ 9 < tv_sec b - tv_sec a ->
  let st1 := fst (tst_timer_start clk (inl a) st) in
  let st2 := fst (tst_timer_stop (inl b) st1) in
  (exists e, tst_timer_elapsed long_bits st2 = Ok e /\ total e = total b - total a /\ normalized e = true) /\
  (exists ms, tst_timer_elapsed_ms long_bits st2 = Ok ms /\
     2 * Z.abs (ms * 1000000 - (total b - total a)) <= 1000000 /\
     forall cur0 lim, tst_timer_expired_ms long_bits lim (inl b) cur0 st1 = Ok (ms >=? lim, [])).
Proof.
  intros Hl Ha Hb H1 H2 st1 st2. pose proof (clock_diff_ok long_bits b a Hl Hb Ha) as Hd.
  pose proof (normalized_nsec _ (proj1 Ha)) as Na. pose proof (normalized_nsec _ (proj1 Hb)) as Nb.
  set (d := norm (tv_sec b - tv_sec a) (tv_nsec b - tv_nsec a)) in *.
  assert (Hdn : normalized d = true) by (apply norm_normalized; unfold NS in *; lia).
  assert (Hdt : total d = total b - total a) by (unfold d; rewrite norm_total; unfold total; lia).
  assert (He : tst_timer_elapsed long_bits st2 = Ok d).
  { unfold tst_timer_elapsed, tst_timespec_diff. cbn [st1 st2 tst_timer_start tst_timer_stop fst start_time stop_time]. rewrite Hd. cbn [mbind res_bind].
    unfold tst_ts_to_timespec. cbn. by rewrite Z.eqb_refl. }
  split; [by exists d|].
  assert (Hms : tst_ts_to_ms (mkTs TST_LIBC_TIMESPEC d) = Ok (tv_sec d * 1000 + (tv_nsec d + 500000) / 1000000)).
  { unfold tst_ts_to_ms. rewrite to_units_ok; [done|done|lia|unfold NS; lia|]. cbn [ts].
    unfold d, norm. repeat case_match; cbn [tv_sec]; simpl in *; lia. }
  exists (tv_sec d * 1000 + (tv_nsec d + 500000) / 1000000). split_and!.
  - unfold tst_timer_elapsed_ms. rewrite He. cbn [mbind res_bind]. exact Hms.
  - rewrite <-Hdt. pose proof (round_near (tv_nsec d) 1000000 ltac:(lia) eq_refl) as Hr.
    change (1000000 / 2) with 500000 in Hr. unfold total, NS. lia.
  - intros cur0 lim. unfold tst_timer_expired_ms, tst_timespec_diff_ms, tst_ts_diff_ms. cbn [start_time st1 tst_timer_start fst].
    rewrite Hd. cbn [mbind res_bind]. by rewrite Hms.
Qed.

Lemma timer_elapsed_correct_witness :
  let st1 := fst (tst_timer_start 1 (inl (mkTimespec 100 999000000)) (mkTimer (mkTimespec 0 0) (mkTimespec 0 0) 0)) in
  let st2 := fst (tst_timer_stop (inl (mkTimespec 101 1500000)) st1) in
  (exists e, tst_timer_elapsed 64 st2 = Ok e /\
     total e = total (mkTimespec 101 1500000) - total (mkTimespec 100 999000000) /\ normalized e = true) /\
  (exists ms, tst_timer_elapsed_ms 64 st2 = Ok ms /\
     2 * Z.abs (ms * 1000000 - (total (mkTimespec 101 1500000) - total (mkTimespec 100 999000000))) <= 1000000 /\
     forall cur0 lim, tst_timer_expired_ms 64 lim (inl (mkTimespec 101 1500000)) cur0 st1 = Ok (ms >=? lim, [])).
Proof. apply timer_elapsed_correct; [by right|zeval|zeval|zeval|zeval]. Defined.

(** The difference of two normalised [timeval]s is normalised and its
    microseconds are exact; converting them back gives the difference again
    when it is not negative. *)
Theorem timeval_diff_exact long_bits t1 t2 :
  long_bits = 32 \/ long_bits = 64 ->
  0 <= tvl_usec t1 < 1000000 -> 0 <= tvl_usec t2 < 1000000 ->
  0 <= tvl_sec t1 < 2 ^ 31 - 1 -> 0 <= tvl_sec t2 < 2 ^ 31 - 1 ->
  let us := (tvl_sec t1 - tvl_sec t2) * 1000000 + (tvl_usec t1 - tvl_usec t2) in
  exists d, tst_timeval_diff long_bits t1 t2 = Ok d /\ 0 <= tvl_usec d < 1000000 /\
    tst_timeval_diff_us long_bits t1 t2 = Ok us /\
    (0 <= us -> tst_us_to_timeval long_bits us = d).
Proof.
  intros Hl Hu1 Hu2 Hs1 Hs2 us.
  assert (Hlv : forall z, - 2 ^ 31 <= z < 2 ^ 31 -> longv long_bits z = Ok z).
  { intros z Hz. unfold longv. destruct Hl as [->| ->];
      by rewrite (proj2 (andb_true_iff _ _)) by (rewrite Z.leb_le, Z.ltb_lt; simpl in *; lia). }
  set (d := if tvl_usec t1 <? tvl_usec t2
            then mkTimeval (tvl_sec t1 - tvl_sec t2 - 1) (1000000 - (tvl_usec t2 - tvl_usec t1))
            else mkTimeval (tvl_sec t1 - tvl_sec t2) (tvl_usec t1 - tvl_usec t2)).
  assert (Hd : tst_timeval_diff long_bits t1 t2 = Ok d).
  { unfold tst_timeval_diff, d. rewrite !Hlv by (simpl in *; lia). cbn [mbind res_bind].
    destruct (Z.ltb_spec (tvl_usec t1) (tvl_usec t2)); [|done].
    repeat (rewrite Hlv by (simpl in *; lia); cbn [mbind res_bind]). done. }
  assert (Hb : 0 <= tvl_usec d < 1000000 /\ tvl_sec d * 1000000 + tvl_usec d = us /\
               - 2 ^ 31 <= tvl_sec d < 2 ^ 31)
    by (unfold d, us; destruct (Z.ltb_spec (tvl_usec t1) (tvl_usec t2)); simpl in *; lia).
  exists d. split_and!; try lia; [done| |].
  - unfold tst_timeval_diff_us. rewrite Hd. cbn [mbind res_bind]. unfold tst_timeval_to_us.
    rewrite ll_ok by (apply in_ll_small; simpl in *; lia). cbn [mbind res_bind].
    rewrite ll_ok by (apply in_ll_small; simpl in *; lia). f_equal. lia.
  - intros Hpos. unfold tst_us_to_timeval, store_long. destruct (quot_rem_pos us 1000000) as [-> ->]; [lia..|].
    destruct Hb as (Hb1 & Hb2 & Hb3). rewrite <-Hb2.
    rewrite Z.div_add_l, Z.div_small, Z.add_0_r, Z.add_comm, Z.mod_add, Z.mod_small by lia.
    rewrite !wrap_s_id by (destruct Hl as [->| ->]; simpl in *; lia). by destruct d.
Qed.

Lemma timeval_diff_exact_witness :
  let us := (5 - 3) * 1000000 + (100 - 900000) in
  exists d, tst_timeval_diff 32 (mkTimeval 5 100) (mkTimeval 3 900000) = Ok d /\
    0 <= tvl_usec d < 1000000 /\
    tst_timeval_diff_us 32 (mkTimeval 5 100) (mkTimeval 3 900000) = Ok us /\
    (0 <= us -> tst_us_to_timeval 32 us = d).
Proof. apply (timeval_diff_exact 32 (mkTimeval 5 100) (mkTimeval 3 900000)); [by left|zeval..]. Defined.
