(* ===== verification/RtcTime.v ===== *)
(** * Calendar time and the wall clock: [lib/tst_rtctime.c], [lib/tst_wallclock.c]

    The conversion between seconds since 1970 and the Gregorian calendar, and
    the code that saves and restores the system clock around a test. *)

From stdpp Require Import base list strings gmap.
From Stdlib Require Import ZArith Lia.
From S2P Require Import Prelude Timer.

Local Open Scope Z_scope.

(** ** Calendar ([lib/tst_rtctime.c]) *)
Record rtc_time : Set := mkTm {
  tm_sec : Z; tm_min : Z; tm_hour : Z; tm_mday : Z; tm_mon : Z;
  tm_year : Z; tm_wday : Z; tm_yday : Z; tm_isdst : Z
}.

(** [int] arithmetic, and conversions to [int] and [unsigned int]. *)
Definition int_ (z : Z) : M Z := if in_int z then Ok z else Fault.
Definition to_int (z : Z) : Z := wrap_s 32 z.
Definition to_uint (z : Z) : Z := wrap_u 32 z.

Definition LEAPS_THRU_END_OF (y : Z) : Z := y / 4 - y / 100 + y / 400.

Definition rtc_days_in_month : list Z := [31; 28; 31; 30; 31; 30; 31; 31; 30; 31; 30; 31].

Definition is_leap_year (year : Z) : bool :=
  ((year mod 4 =? 0) && negb (year mod 100 =? 0)) || (year mod 400 =? 0).

Definition tst_mktime (year0 mon0 day hour min sec : Z) : Z :=
  let '(mon, year) :=
    let mon := to_uint (mon0 - 2) in
    if 0 >=? to_int mon then (to_uint (mon + 12), to_uint (year0 - 1)) else (mon, year0) in
  (((to_uint (year / 4 - year / 100 + year / 400 + to_uint (367 * mon) / 12 + day)
     + to_uint (year * 365) - 719499) * 24 + hour) * 60 + min) * 60 + sec.

Definition rtc_month_days (month year : Z) : M Z :=
  d ← or_fault (rtc_days_in_month !! Z.to_nat month);
  Ok (d + if is_leap_year year && (month =? 1) then 1 else 0).

(** [while (days < 0)] *)
Fixpoint year_loop (fuel : nat) (days year : Z) : M (Z * Z) :=
  if days <? 0 then
    match fuel with
    | O => Fault
    | S fuel' =>
        let year := to_uint (year - 1) in
        days' ← int_ (days + 365 + if is_leap_year year then 1 else 0);
        year_loop fuel' days' year
    end
  else Ok (days, year).

(** [for (month = 0; month < 11; month++)], [n] iterations being left. *)
Fixpoint month_loop (n : nat) (month days year : Z) : M (Z * Z) :=
  match n with
  | O => Ok (month, days)
  | S n' =>
      md ← rtc_month_days month year;
      newdays ← int_ (days - md);
      if newdays <? 0 then Ok (month, days)
      else month_loop n' (month + 1) newdays year
  end.

Definition tst_rtc_time_to_tm (time : Z) : M rtc_time :=
  let days := to_int (Z.quot time 86400) in
  let secs := to_uint (Z.rem time 86400) in
  d4 ← int_ (days + 4);
  let wday := Z.rem d4 7 in
  let year := to_uint (1970 + Z.quot days 365) in
  let days := to_int (days - to_uint (to_uint (year - 1970) * 365
                 + LEAPS_THRU_END_OF (to_uint (year - 1)) - LEAPS_THRU_END_OF (1970 - 1))) in
  '(days, year) ← year_loop (S (Z.to_nat (- days / 365))) days year;
  let tmyear := to_int (year - 1900) in
  yday ← int_ (days + 1);
  '(month, days) ← month_loop 11 0 days year;
  mday ← int_ (days + 1);
  let hour := secs / 3600 in
  let secs := to_uint (secs - to_uint (hour * 3600)) in
  let min := secs / 60 in
  Ok (mkTm (to_int (secs - to_uint (min * 60))) (to_int min) (to_int hour) mday (to_int month)
           tmyear wday yday 0).

Definition tst_rtc_tm_to_time (tm : rtc_time) : Z :=
  tst_mktime (to_uint (to_uint (tm_year tm) + 1900)) (to_uint (tm_mon tm + 1))
    (to_uint (tm_mday tm)) (to_uint (tm_hour tm)) (to_uint (tm_min tm)) (to_uint (tm_sec tm)).

Example epoch_ex : tst_rtc_time_to_tm 951782400 = Ok (mkTm 0 0 0 29 1 100 2 60 0).
Proof. vm_compute. reflexivity. Qed.
Example epoch_ex2 : tst_rtc_tm_to_time (mkTm 0 0 0 29 1 100 2 60 0) = 951782400.
Proof. vm_compute. reflexivity. Qed.

(** ** The calendar as a specification *)
Definition leap (y : Z) : Z := if is_leap_year y then 1 else 0.
(** Days from 1970-01-01 to the first day of year [y]. *)
Definition jan1 (y : Z) : Z := 365 * (y - 1970) + LEAPS_THRU_END_OF (y - 1) - LEAPS_THRU_END_OF 1969.
(** Days of the year before month [m] (0 to 11). *)
Definition cum (m y : Z) : Z :=
  nth (Z.to_nat m) [0; 31; 59; 90; 120; 151; 181; 212; 243; 273; 304; 334] 0
  + if 2 <=? m then leap y else 0.
Definition month_len (m y : Z) : Z :=
  nth (Z.to_nat m) rtc_days_in_month 0 + if m =? 1 then leap y else 0.
(** Days from 1970-01-01 to a date. *)
Definition date_days (y m d : Z) : Z := jan1 y + cum m y + (d - 1).

Lemma leap_bounds y : 0 <= leap y <= 1.
Proof. unfold leap. destruct (is_leap_year y); lia. Qed.

(** The leap days of a year. *)
Lemma leaps_step y : LEAPS_THRU_END_OF y = LEAPS_THRU_END_OF (y - 1) + leap y.
Proof.
  unfold LEAPS_THRU_END_OF, leap, is_leap_year.
  destruct (Z.eqb_spec (y mod 4) 0), (Z.eqb_spec (y mod 100) 0), (Z.eqb_spec (y mod 400) 0); simpl;
    Z.to_euclidean_division_equations; lia.
Qed.

Lemma jan1_step y : jan1 (y + 1) = jan1 y + 365 + leap y.
Proof. unfold jan1. replace (y + 1 - 1) with y by lia. rewrite (leaps_step y). lia. Qed.

(** The twelve months. *)
Ltac months m :=
  let H := fresh in
  assert (H : m = 0 \/ m = 1 \/ m = 2 \/ m = 3 \/ m = 4 \/ m = 5 \/ m = 6 \/ m = 7 \/ m = 8 \/ m = 9
              \/ m = 10 \/ m = 11) by lia;
  repeat destruct H as [->|H]; [..|subst m].

Lemma cum_nonneg m y : 0 <= m <= 11 -> 0 <= cum m y.
Proof. intros. pose proof (leap_bounds y). unfold cum. months m; simpl; lia. Qed.

Lemma cum_step m y : 0 <= m < 11 -> cum (m + 1) y = cum m y + month_len m y.
Proof.
  intros. unfold cum, month_len. months m; simpl; lia.
Qed.

(** Days are counted in an [int]. *)
Definition MAX_DAYS : Z := 2147483643.

Lemma to_uint_id z : 0 <= z < 2 ^ 32 -> to_uint z = z.
Proof. apply wrap_u_id. Qed.
Lemma to_int_id z : - 2 ^ 31 <= z < 2 ^ 31 -> to_int z = z.
Proof. intros. by apply wrap_s_id. Qed.
Lemma int_ok z : - 2 ^ 31 <= z < 2 ^ 31 -> int_ z = Ok z.
Proof.
  intros H. unfold int_, in_int, INT_MIN, INT_MAX.
  by rewrite (proj2 (andb_true_iff _ _)) by (rewrite !Z.leb_le; simpl in *; lia).
Qed.

Lemma leaps_bounds y : 0 <= y -> 0 <= LEAPS_THRU_END_OF y <= y.
Proof. unfold LEAPS_THRU_END_OF. intros. Z.to_euclidean_division_equations. lia. Qed.

Lemma leaps_mono y z : y <= z -> LEAPS_THRU_END_OF y <= LEAPS_THRU_END_OF z.
Proof. unfold LEAPS_THRU_END_OF. intros. Z.to_euclidean_division_equations. lia. Qed.

Lemma jan1_lower y : 1970 <= y -> 365 * (y - 1970) <= jan1 y.
Proof.
  intros. unfold jan1. pose proof (leaps_mono 1969 (y - 1)). lia.
Qed.

Lemma year_loop_ok fuel : forall days year,
  0 <= days + jan1 year -> days < 365 + leap year -> 1970 <= year < 2 ^ 31 -> - 2 ^ 31 <= days ->
  - days / 365 < Z.of_nat fuel ->
  exists d y, year_loop fuel days year = Ok (d, y) /\ d + jan1 y = days + jan1 year /\
    0 <= d < 365 + leap y /\ 1970 <= y <= year.
Proof.
  induction fuel as [|fuel IH]; intros days year HD Hd Hy Hlow Hf; cbn [year_loop];
    destruct (Z.ltb_spec days 0) as [Hneg|Hpos].
  - exfalso. assert (0 <= - days / 365) by (apply Z.div_pos; lia). lia.
  - exists days, year. split; [done|]. lia.
  - assert (year <> 1970) by (intros ->; change (jan1 1970) with 0 in HD; lia).
    pose proof (jan1_step (year - 1)) as Hstep. replace (year - 1 + 1) with year in Hstep by lia.
    pose proof (leap_bounds (year - 1)).
    rewrite to_uint_id by (simpl in *; lia). fold (leap (year - 1)).
    rewrite int_ok by (simpl in *; lia). cbn [mbind res_bind].
    destruct (IH (days + 365 + leap (year - 1)) (year - 1)) as (d & y & -> & E & Hb & Hyb); [lia..| |].
    { assert (- (days + 365 + leap (year - 1)) / 365 <= - days / 365 - 1); [|lia].
      replace (- days / 365 - 1) with ((- days + -1 * 365) / 365) by (rewrite Z.div_add by lia; lia).
      apply Z.div_le_mono; lia. }
    exists d, y. split; [done|]. lia.
  - exists days, year. split; [done|]. lia.
Qed.

Lemma month_days_ok m y : 0 <= m <= 11 -> rtc_month_days m y = Ok (month_len m y).
Proof.
  intros Hm. unfold rtc_month_days, month_len, leap.
  destruct (lookup_lt_is_Some_2 rtc_days_in_month (Z.to_nat m)) as [x Hx]; [simpl; lia|].
  rewrite Hx. cbn [or_fault mbind res_bind]. rewrite (nth_lookup_Some _ _ 0 _ Hx).
  f_equal. f_equal. by destruct (is_leap_year y), (m =? 1).
Qed.

Lemma month_len_bounds m y : 0 <= m <= 11 -> 28 <= month_len m y <= 31.
Proof.
  intros. pose proof (leap_bounds y). unfold month_len.
  months m; simpl; lia.
Qed.

Lemma month_loop_ok n : forall m days y, m = 11 - Z.of_nat n -> 0 <= m ->
  0 <= days -> cum m y + days < 365 + leap y ->
  exists m' d, month_loop n m days y = Ok (m', d) /\ 0 <= m' <= 11 /\
    0 <= d < month_len m' y /\ cum m' y + d = cum m y + days.
Proof.
  induction n as [|n IH]; intros m days y Hm Hm0 Hd Hb; cbn [month_loop].
  - exists m, days. split; [done|]. assert (m = 11) as -> by lia.
    unfold cum, month_len in *. simpl in *. lia.
  - rewrite month_days_ok by lia. cbn [mbind res_bind]. pose proof (month_len_bounds m y).
    pose proof (leap_bounds y).
    pose proof (cum_nonneg m y).
    rewrite int_ok by (simpl; lia). cbn [mbind res_bind].
    destruct (Z.ltb_spec (days - month_len m y) 0).
    + exists m, days. split; [done|]. lia.
    + destruct (IH (m + 1) (days - month_len m y) y) as (m' & d & -> & ? & ? & E); [lia|lia|lia| |].
      * rewrite cum_step by lia. lia.
      * exists m', d. split; [done|]. rewrite cum_step in E by lia. lia.
Qed.

(** Replace a closed term of the goal by its value. *)
Ltac calc t := let v := eval vm_compute in t in change t with v.

Lemma mktime_ok y m d h mi s : 1970 <= y < 10000000 -> 0 <= m <= 11 -> 1 <= d <= 31 ->
  tst_mktime y (m + 1) d h mi s = ((date_days y m d * 24 + h) * 60 + mi) * 60 + s.
Proof.
  intros Hy Hm Hd. unfold tst_mktime, date_days, jan1, cum.
  assert (Hl : forall z, z / 4 - z / 100 + z / 400 = LEAPS_THRU_END_OF z) by done.
  pose proof (leaps_step y) as Hstep. pose proof (leaps_bounds y). pose proof (leaps_bounds (y - 1)).
  pose proof (leap_bounds y).
  months m;
    match goal with |- context [to_uint (?x - 2)] => calc (to_uint (x - 2)) end;
    match goal with |- context [0 >=? to_int ?x] => calc (0 >=? to_int x) end;
    cbv iota;
    match goal with |- context [to_uint (367 * ?x)] => calc (to_uint (367 * x) / 12) end;
    match goal with |- context [nth ?k ?l 0] => calc (nth k l 0) end;
    match goal with |- context [2 <=? ?k] => calc (2 <=? k) end; cbv iota;
    rewrite ?(to_uint_id (y - 1)) by (simpl; lia); rewrite Hl; calc (LEAPS_THRU_END_OF 1969);
    rewrite !to_uint_id by (simpl; lia); lia.
Qed.

(** ** Properties of the calendar *)

(** The fields of a date and time of day. *)
Record valid_tm (tm : rtc_time) : Prop := mkValid {
  valid_sec : 0 <= tm_sec tm < 60;
  valid_min : 0 <= tm_min tm < 60;
  valid_hour : 0 <= tm_hour tm < 24;
  valid_mon : 0 <= tm_mon tm <= 11;
  valid_mday : 1 <= tm_mday tm <= month_len (tm_mon tm) (tm_year tm + 1900);
  valid_year : 70 <= tm_year tm < 9000000
}.

Lemma tm_to_time_ok tm : valid_tm tm ->
  tst_rtc_tm_to_time tm
  = date_days (tm_year tm + 1900) (tm_mon tm) (tm_mday tm) * 86400
    + tm_hour tm * 3600 + tm_min tm * 60 + tm_sec tm.
Proof.
  intros [H1 H2 H3 H4 H5 H6]. unfold tst_rtc_tm_to_time. pose proof (month_len_bounds (tm_mon tm) (tm_year tm + 1900) H4).
  rewrite !to_uint_id by (rewrite ?to_uint_id by (simpl; lia); simpl; lia).
  rewrite mktime_ok by lia. lia.
Qed.

(** The year of a day number and the day of that year. *)
Lemma year_of_days D : 0 <= D <= MAX_DAYS ->
  let Y := to_uint (1970 + Z.quot D 365) in
  let days := to_int (D - to_uint (to_uint (Y - 1970) * 365
                 + LEAPS_THRU_END_OF (to_uint (Y - 1)) - LEAPS_THRU_END_OF (1970 - 1))) in
  exists d y, year_loop (S (Z.to_nat (- days / 365))) days Y = Ok (d, y) /\
    d + jan1 y = D /\ 0 <= d < 365 + leap y /\ 1970 <= y <= 5885487.
Proof.
  unfold MAX_DAYS. intros HD. rewrite Z.quot_div_nonneg by lia.
  assert (Hq : 0 <= D / 365 <= 5883517) by (split; [apply Z.div_pos; lia|apply Z.div_le_upper_bound; lia]).
  pose proof (Z.div_mod D 365 ltac:(lia)). pose proof (Z.mod_pos_bound D 365 ltac:(lia)).
  rewrite (to_uint_id (1970 + D / 365)) by (simpl; lia).
  set (Y := 1970 + D / 365). cbv zeta. assert (HY : 1970 <= Y <= 5885487) by (unfold Y; lia).
  rewrite (to_uint_id (Y - 1970)), (to_uint_id (Y - 1)) by (simpl; lia).
  pose proof (leaps_bounds (Y - 1) ltac:(lia)). pose proof (leaps_mono 1969 (Y - 1) ltac:(lia)).
  change (1970 - 1) with 1969. change (LEAPS_THRU_END_OF 1969) with 477 in *.
  rewrite (to_uint_id ((Y - 1970) * 365 + _ - 477)) by (simpl; lia).
  replace ((Y - 1970) * 365 + LEAPS_THRU_END_OF (Y - 1) - 477) with (jan1 Y)
    by (unfold jan1; change (LEAPS_THRU_END_OF 1969) with 477; lia).
  assert (HJ : - 10000000 <= D - jan1 Y <= 364).
  { unfold jan1. change (LEAPS_THRU_END_OF 1969) with 477. assert (Y - 1970 = D / 365) by (unfold Y; lia). lia. }
  rewrite (to_int_id (D - jan1 Y)) by (simpl; lia). pose proof (leap_bounds Y).
  destruct (year_loop_ok (S (Z.to_nat (- (D - jan1 Y) / 365))) (D - jan1 Y) Y)
    as (d & y & -> & E & Hd & Hy); [lia|lia|simpl; lia|simpl; lia|lia|].
  exists d, y. split; [done|]. lia.
Qed.

(** Hours, minutes and seconds of a second of the day. *)
Lemma time_of_day S : 0 <= S < 86400 ->
  let rest := to_uint (S - to_uint (S / 3600 * 3600)) in
  to_int (S / 3600) = S / 3600 /\ 0 <= S / 3600 < 24 /\
  to_int (rest / 60) = (S mod 3600) / 60 /\ 0 <= (S mod 3600) / 60 < 60 /\
  to_int (rest - to_uint (rest / 60 * 60)) = S mod 60.
Proof.
  intros HS. assert (0 <= S / 3600 < 24) by (Z.to_euclidean_division_equations; lia).
  rewrite (to_uint_id (S / 3600 * 3600)) by (simpl; lia).
  replace (S - S / 3600 * 3600) with (S mod 3600) by (Z.to_euclidean_division_equations; lia).
  pose proof (Z.mod_pos_bound S 3600 ltac:(lia)). cbv zeta. rewrite (to_uint_id (S mod 3600)) by (simpl; lia).
  assert (0 <= S mod 3600 / 60 < 60) by (Z.to_euclidean_division_equations; lia).
  rewrite (to_uint_id (_ / 60 * 60)) by (simpl; lia).
  replace (S mod 3600 - S mod 3600 / 60 * 60) with (S mod 60) by (Z.to_euclidean_division_equations; lia).
  pose proof (Z.mod_pos_bound S 60 ltac:(lia)). rewrite !to_int_id by (simpl; lia). done.
Qed.

(** Seconds to date: the year, month and day whose day number it is. *)
Lemma time_to_tm_ok time : 0 <= time -> time / 86400 <= MAX_DAYS ->
  exists tm, tst_rtc_time_to_tm time = Ok tm /\ valid_tm tm /\
    date_days (tm_year tm + 1900) (tm_mon tm) (tm_mday tm) = time / 86400 /\
    tm_hour tm * 3600 + tm_min tm * 60 + tm_sec tm = time mod 86400 /\
    tm_wday tm = (time / 86400 + 4) mod 7.
Proof.
  intros Ht Hmax. unfold tst_rtc_time_to_tm. destruct (quot_rem_pos time 86400) as [-> ->]; [lia..|].
  pose proof (Z.mod_pos_bound time 86400 ltac:(lia)) as Hs.
  assert (HD : 0 <= time / 86400 <= MAX_DAYS) by (split; [apply Z.div_pos; lia|done]).
  set (D := time / 86400) in *. set (T := time mod 86400) in *. clearbody D T.
  destruct (year_of_days D HD) as (d & y & Hloop & E & Hd & Hy). unfold MAX_DAYS in HD.
  rewrite (to_int_id D), (to_uint_id T) by (simpl; lia). rewrite int_ok by (simpl; lia). cbn [mbind res_bind].
  rewrite Hloop. cbn [mbind res_bind]. pose proof (leap_bounds y). rewrite int_ok by (simpl; lia). cbn [mbind res_bind].
  destruct (month_loop_ok 11 0 d y) as (m & dd & -> & Hm & Hdd & Ec); [done|lia|lia|unfold cum; simpl; lia|].
  cbn [mbind res_bind]. pose proof (month_len_bounds m y Hm). rewrite int_ok by (simpl; lia). cbn [mbind res_bind].
  destruct (time_of_day T Hs) as (-> & Hh & -> & Hmi & ->). rewrite !to_int_id by (simpl; lia).
  eexists. split; [done|]. cbn [tm_sec tm_min tm_hour tm_mday tm_mon tm_year tm_wday].
  replace (y - 1900 + 1900) with y by lia.
  split; [|split; [|split]].
  - pose proof (Z.mod_pos_bound T 60 ltac:(lia)). split; simpl; replace (y - 1900 + 1900) with y by lia; lia.
  - unfold date_days. change (cum 0 y) with 0 in Ec. lia.
  - Z.to_euclidean_division_equations. lia.
  - apply Z.rem_mod_nonneg; lia.
Qed.

(** C11: converting seconds since 1970 to a calendar date and back gives the
    seconds back, for every time whose day number fits an [int]; the date is a
    valid one and its week day is right (1970-01-01 was a Thursday). *)
Theorem rtc_time_roundtrip time :
  0 <= time -> time / 86400 <= MAX_DAYS ->
  exists tm, tst_rtc_time_to_tm time = Ok tm /\ valid_tm tm /\
    tst_rtc_tm_to_time tm = time /\ tm_wday tm = (time / 86400 + 4) mod 7.
Proof.
  intros H0 Hmax. destruct (time_to_tm_ok time H0 Hmax) as (tm & Htm & Hv & Hd & Ht & Hw).
  exists tm. split_and!; try done. rewrite tm_to_time_ok by done. rewrite Hd.
  pose proof (Z.div_mod time 86400 ltac:(lia)). lia.
Qed.

Lemma rtc_time_roundtrip_witness :
  exists tm, tst_rtc_time_to_tm 4102444799 = Ok tm /\ valid_tm tm /\
    tst_rtc_tm_to_time tm = 4102444799 /\ tm_wday tm = (4102444799 / 86400 + 4) mod 7.
Proof. apply rtc_time_roundtrip; zeval. Defined.

Lemma jan1_mono y z : y <= z -> jan1 y <= jan1 z.
Proof. intros. unfold jan1. pose proof (leaps_mono (y - 1) (z - 1)). lia. Qed.

Lemma cum_mono m m' y : 0 <= m -> m < m' -> m' <= 11 -> cum m y + month_len m y <= cum m' y.
Proof.
  intros Hm Hlt Hm'. rewrite <-cum_step by lia. pose proof (leap_bounds y). unfold cum.
  months m; months m'; simpl in *; lia.
Qed.

Lemma day_of_year_bound m d y : 0 <= m <= 11 -> 1 <= d <= month_len m y ->
  0 <= cum m y + (d - 1) < 365 + leap y.
Proof.
  intros Hm Hd. pose proof (cum_nonneg m y Hm). split; [lia|].
  pose proof (leap_bounds y). unfold cum, month_len in *. months m; simpl in *; lia.
Qed.

(** A day number determines the date. *)
Lemma date_unique y m d y' m' d' : 0 <= m <= 11 -> 0 <= m' <= 11 ->
  1 <= d <= month_len m y -> 1 <= d' <= month_len m' y' ->
  date_days y m d = date_days y' m' d' -> y = y' /\ m = m' /\ d = d'.
Proof.
  unfold date_days. intros Hm Hm' Hd Hd' E.
  pose proof (day_of_year_bound m d y Hm Hd). pose proof (day_of_year_bound m' d' y' Hm' Hd').
  assert (y = y') as <-.
  { destruct (Z.lt_trichotomy y y') as [Hlt|[Heq|Hlt]]; [|done|].
    - pose proof (jan1_mono (y + 1) y'). rewrite jan1_step in *. lia.
    - pose proof (jan1_mono (y' + 1) y). rewrite jan1_step in *. lia. }
  assert (m = m') as <-; [|lia].
  destruct (Z.lt_trichotomy m m') as [Hlt|[Heq|Hlt]]; [|done|].
  - pose proof (cum_mono m m' y). lia.
  - pose proof (cum_mono m' m y). lia.
Qed.

(** Converting a valid calendar date and time to seconds and back gives the
    same year, month, day, hour, minute and second. *)
Theorem rtc_tm_roundtrip tm :
  valid_tm tm -> date_days (tm_year tm + 1900) (tm_mon tm) (tm_mday tm) <= MAX_DAYS ->
  exists tm', tst_rtc_time_to_tm (tst_rtc_tm_to_time tm) = Ok tm' /\
    (tm_year tm', tm_mon tm', tm_mday tm', tm_hour tm', tm_min tm', tm_sec tm')
    = (tm_year tm, tm_mon tm, tm_mday tm, tm_hour tm, tm_min tm, tm_sec tm).
Proof.
  intros Hv Hmax. rewrite tm_to_time_ok by done. destruct Hv as [H1 H2 H3 H4 H5 H6].
  set (D := date_days _ _ _) in *. set (s := tm_hour tm * 3600 + tm_min tm * 60 + tm_sec tm).
  assert (HD : 0 <= D).
  { pose proof (day_of_year_bound _ _ _ H4 H5). pose proof (jan1_lower (tm_year tm + 1900) ltac:(lia)).
    unfold D, date_days. lia. }
  replace (D * 86400 + tm_hour tm * 3600 + tm_min tm * 60 + tm_sec tm) with (D * 86400 + s) by (unfold s; lia).
  assert (Hs : 0 <= s < 86400) by (unfold s; lia).
  assert (Hdiv : (D * 86400 + s) / 86400 = D) by (rewrite Z.div_add_l, Z.div_small by lia; lia).
  assert (Hmod : (D * 86400 + s) mod 86400 = s) by (rewrite Z.add_comm, Z.mod_add, Z.mod_small by lia; lia).
  destruct (time_to_tm_ok (D * 86400 + s)) as (tm' & Htm & [K1 K2 K3 K4 K5 K6] & Ed & Et & _);
    [lia|by rewrite Hdiv|].
  rewrite Hdiv in Ed. rewrite Hmod in Et. exists tm'. split; [done|].
  destruct (date_unique _ _ _ _ _ _ K4 H4 K5 H5 Ed) as (Ey & Em & Edd).
  unfold s in Et. rewrite !pair_equal_spec. lia.
Qed.

Lemma rtc_tm_roundtrip_witness :
  exists tm', tst_rtc_time_to_tm (tst_rtc_tm_to_time (mkTm 59 30 23 29 1 124 0 0 0)) = Ok tm' /\
    (tm_year tm', tm_mon tm', tm_mday tm', tm_hour tm', tm_min tm', tm_sec tm') = (124, 1, 29, 23, 30, 59).
Proof.
  apply (rtc_tm_roundtrip (mkTm 59 30 23 29 1 124 0 0 0)); [|zeval]. split; zeval.
Defined.

(** ** Saving and restoring the wall clock ([lib/tst_wallclock.c]) *)

(** The static variables, shared by the system clock and the RTC functions. *)
Record clocks : Set := mkClocks {
  real_begin : timespec; mono_begin : timespec; rtc_begin : rtc_time; clock_saved : bool
}.

Definition gettime_brk (errno : Z) : M timespec :=
  Err (Z.lor TBROK TERRNO, str "tst_clock_gettime() monotonic failed").

Definition tst_wallclock_save (real mono : clock_answer) (st : clocks) : M clocks :=
  r ← match real with
      | inl t => Ok t
      | inr _ => Err (Z.lor TBROK TERRNO, str "tst_clock_gettime() realtime failed")
      end;
  m ← match mono with
      | inl t => Ok t
      | inr errno =>
          if errno =? EINVAL
          then Err (Z.lor TCONF TERRNO, str "tst_clock_gettime() didn't support CLOCK_MONOTONIC_RAW")
          else gettime_brk errno
      end;
  Ok (mkClocks r m (rtc_begin st) true).

(** The result has the time the clock is set to, if it is set; [settime_ok]:
    [tst_clock_settime] succeeds.  Touching [/etc/localtime] is not modelled. *)
Definition tst_wallclock_restore (long_bits : Z) (mono : clock_answer) (settime_ok : bool) (st : clocks)
    : M (clocks * option timespec) :=
  if negb (clock_saved st) then Ok (st, None)
  else
    let st := mkClocks (real_begin st) (mono_begin st) (rtc_begin st) false in
    mono_end ← match mono with inl t => Ok t | inr e => gettime_brk e end;
    elapsed ← tst_timespec_diff long_bits mono_end (mono_begin st);
    adjust ← tst_timespec_add long_bits (real_begin st) elapsed;
    if settime_ok then Ok (st, Some adjust)
    else Err (Z.lor TBROK TERRNO, str "tst_clock_settime() realtime failed").

Definition tst_rtc_clock_save (rtc : option rtc_time) (mono : clock_answer) (st : clocks) : M clocks :=
  r ← match rtc with
      | Some r => Ok r
      | None => Err (Z.lor TBROK TERRNO, str "tst_rtc_gettime() realtime failed")
      end;
  m ← match mono with inl t => Ok t | inr e => gettime_brk e end;
  Ok (mkClocks (real_begin st) m r true).

Definition tst_rtc_clock_restore (long_bits : Z) (mono : clock_answer) (settime_ok : bool) (st : clocks)
    : M (clocks * option rtc_time) :=
  if negb (clock_saved st) then Ok (st, None)
  else
    let st := mkClocks (real_begin st) (mono_begin st) (rtc_begin st) false in
    mono_end ← match mono with inl t => Ok t | inr e => gettime_brk e end;
    elapsed ← tst_timespec_diff long_bits mono_end (mono_begin st);
    let rtc_begin_tm := mkTimespec (store_long long_bits (tst_rtc_tm_to_time (rtc_begin st))) 0 in
    rtc_adjust ← tst_timespec_add long_bits rtc_begin_tm elapsed;
    rtc_restore ← tst_rtc_time_to_tm (tv_sec rtc_adjust);
    if settime_ok then Ok (st, Some rtc_restore)
    else Err (Z.lor TBROK TERRNO, str "tst_rtc_settime() realtime failed").

Lemma timespec_diff_ok long_bits t1 t2 : long_bits = 32 \/ long_bits = 64 ->
  clock_value t1 -> clock_value t2 ->
  tst_timespec_diff long_bits t1 t2 = Ok (norm (tv_sec t1 - tv_sec t2) (tv_nsec t1 - tv_nsec t2)).
Proof.
  intros Hl H1 H2. unfold tst_timespec_diff. rewrite clock_diff_ok by done. cbn [mbind res_bind].
  unfold tst_ts_to_timespec. cbn. by rewrite Z.eqb_refl.
Qed.

Lemma timespec_add_ok long_bits t1 t2 : long_bits = 32 \/ long_bits = 64 ->
  normalized t1 = true -> normalized t2 = true -> - 2 ^ 31 < tv_sec t1 + tv_sec t2 < 2 ^ 31 - 1 ->
  tst_timespec_add long_bits t1 t2 = Ok (norm (tv_sec t1 + tv_sec t2) (tv_nsec t1 + tv_nsec t2)).
Proof.
  intros Hl H1 H2 Hs. unfold tst_timespec_add. rewrite add_ok; [|done|done|done|].
  - cbn [mbind res_bind]. unfold tst_ts_to_timespec. cbn. by rewrite Z.eqb_refl.
  - unfold room, Timer.fits. cbn [ts ts_type tst_ts_from_timespec].
    destruct (field_bits_cases long_bits Hl TST_LIBC_TIMESPEC) as [->| ->]; simpl in *; lia.
Qed.

(** Saved time plus the time elapsed on the monotonic clock. *)
Lemma adjust_ok long_bits r m m' : long_bits = 32 \/ long_bits = 64 ->
  clock_value r -> clock_value m -> clock_value m' ->
  0 <= tv_sec r + tv_sec m' - tv_sec m - 1 < 2 ^ 31 - 3 ->
  exists a, (e ← tst_timespec_diff long_bits m' m; tst_timespec_add long_bits r e) = Ok a /\
    normalized a = true /\ total a = total r + (total m' - total m) /\ 0 <= tv_sec a < 2 ^ 31.
Proof.
  intros Hl Hr Hm Hm' Hs. rewrite timespec_diff_ok by done. cbn [mbind res_bind].
  pose proof (normalized_nsec _ (proj1 Hr)) as Nr. pose proof (normalized_nsec _ (proj1 Hm)) as Nm.
  pose proof (normalized_nsec _ (proj1 Hm')) as Nm'.
  set (e := norm _ _). assert (He : normalized e = true) by (apply norm_normalized; unfold NS in *; lia).
  assert (Hes : tv_sec m' - tv_sec m - 1 <= tv_sec e <= tv_sec m' - tv_sec m + 1)
    by (unfold e, norm; repeat case_match; cbn [tv_sec]; lia).
  pose proof (norm_total (tv_sec m' - tv_sec m) (tv_nsec m' - tv_nsec m)) as Ht. fold e in Ht.
  pose proof (normalized_nsec _ He) as Ne.
  rewrite timespec_add_ok by (try done; simpl in *; try apply Hr; lia).
  eexists. split; [done|]. split; [apply norm_normalized; unfold NS in *; lia|].
  split; [rewrite norm_total; unfold total in *; lia|].
  unfold norm. rewrite Z.geb_leb. unfold total, NS in *.
  destruct (Z.leb_spec 1000000000 (tv_nsec r + tv_nsec e)), (Z.ltb_spec (tv_nsec r + tv_nsec e) 0); cbn [tv_sec]; simpl in *; lia.
Qed.

(** After [tst_wallclock_save] at real time [r] and monotonic time [m],
    [tst_wallclock_restore] at monotonic time [m'] sets the clock to [r] plus
    the elapsed time exactly, whatever the test did to the clock, and a second
    restore does not touch the clock. *)
Theorem wallclock_restore_correct long_bits r m m' st :
  long_bits = 32 \/ long_bits = 64 -> clock_value r -> clock_value m -> clock_value m' ->
  0 <= tv_sec r + tv_sec m' - tv_sec m - 1 < 2 ^ 31 - 3 ->
  exists st1 st2 a, tst_wallclock_save (inl r) (inl m) st = Ok st1 /\
    tst_wallclock_restore long_bits (inl m') true st1 = Ok (st2, Some a) /\
    normalized a = true /\ total a = total r + (total m' - total m) /\
    forall ans ok, tst_wallclock_restore long_bits ans ok st2 = Ok (st2, None).
Proof.
  intros Hl Hr Hm Hm' Hs. destruct (adjust_ok long_bits r m m' Hl Hr Hm Hm' Hs) as (a & Ha & Hn & Ht & _).
  exists (mkClocks r m (rtc_begin st) true), (mkClocks r m (rtc_begin st) false), a.
  split_and!; try done.
  unfold tst_wallclock_restore. cbn [clock_saved negb mono_begin real_begin mbind res_bind].
  revert Ha. destruct (tst_timespec_diff long_bits m' m) as [e| |]; cbn [mbind res_bind]; try done.
  by intros ->.
Qed.

Lemma wallclock_restore_correct_witness :
  exists st1 st2 a,
    tst_wallclock_save (inl (mkTimespec 1700000000 5)) (inl (mkTimespec 100 999999999))
      (mkClocks (mkTimespec 0 0) (mkTimespec 0 0) (mkTm 0 0 0 1 0 70 4 1 0) false) = Ok st1 /\
    tst_wallclock_restore 64 (inl (mkTimespec 103 0)) true st1 = Ok (st2, Some a) /\
    normalized a = true /\
    total a = total (mkTimespec 1700000000 5) + (total (mkTimespec 103 0) - total (mkTimespec 100 999999999)) /\
    forall ans ok, tst_wallclock_restore 64 ans ok st2 = Ok (st2, None).
Proof. apply wallclock_restore_correct; [by right|zeval..]. Defined.
