(* ===== verification/ParseNum.v ===== *)
(** * Parsing of numbers: [tst_parse_int], [tst_parse_long], [tst_parse_filesize]
      of [lib/tst_test.c]

    [strtol] and [strtoll] are modelled as far as the code uses them: the value,
    the rest of the string, whether there was a number, and [errno]. *)

From stdpp Require Import base list strings gmap.
From Stdlib Require Import ZArith Lia.
From S2P Require Import Prelude.

Local Open Scope Z_scope.

Definition EINVAL : Z := 22.
Definition ERANGE : Z := 34.

(** ** [strtol] *)

(** The value of a digit; 36 for other characters. *)
Definition digit_val (c : Z) : Z :=
  if isdigit c then c - "0"%ch
  else if islower c then c - "a"%ch + 10
  else if isupper c then c - "A"%ch + 10
  else 36.
Definition is_digit (base c : Z) : bool := digit_val c <? base.

(** The value of the digits after [acc]. *)
Fixpoint digits_val (base acc : Z) (s : cstr) : Z :=
  match s with
  | [] => acc
  | c :: s' => if is_digit base c then digits_val base (acc * base + digit_val c) s' else acc
  end.

Definition sign_of (s : cstr) : bool * cstr :=
  match s with
  | c :: s' => if c =? "-"%ch then (true, s') else if c =? "+"%ch then (false, s') else (false, s)
  | [] => (false, [])
  end.

(** Base 0: the prefix selects the base; base 16 may have its prefix. *)
Definition base_of (base : Z) (s : cstr) : Z * cstr :=
  if base =? 0 then
    match s with
    | c0 :: x :: h :: _ =>
        if (c0 =? "0"%ch) && ((x =? "x"%ch) || (x =? "X"%ch)) && is_digit 16 h then (16, drop 2 s)
        else if c0 =? "0"%ch then (8, s) else (10, s)
    | c0 :: _ => if c0 =? "0"%ch then (8, s) else (10, s)
    | [] => (10, s)
    end
  else if base =? 16 then
    match s with
    | c0 :: x :: h :: _ =>
        if (c0 =? "0"%ch) && ((x =? "x"%ch) || (x =? "X"%ch)) && is_digit 16 h then (16, drop 2 s) else (16, s)
    | _ => (16, s)
    end
  else (base, s).

Record strto : Set := mkStrto { st_val : Z; st_end : cstr; st_conv : bool; st_errno : Z }.

Definition strtol (lo hi base : Z) (s : cstr) : strto :=
  let '(neg, t) := sign_of (skip_while isspace s) in
  let '(b, d) := base_of base t in
  let rest := skip_while (is_digit b) d in
  if Nat.eqb (prefix_len (is_digit b) d) 0 then mkStrto 0 s false 0
  else
    let v := digits_val b 0 d in
    let v := if neg : bool then - v else v in
    if v <? lo then mkStrto lo rest true ERANGE
    else if hi <? v then mkStrto hi rest true ERANGE
    else mkStrto v rest true 0.

(** [strtoul]: a minus sign negates modulo the width; overflow gives the largest
    value. *)
Definition strtoul (bits base : Z) (s : cstr) : strto :=
  let '(neg, t) := sign_of (skip_while isspace s) in
  let '(b, d) := base_of base t in
  if Nat.eqb (prefix_len (is_digit b) d) 0 then mkStrto 0 s false 0
  else
    let v := digits_val b 0 d in
    let rest := skip_while (is_digit b) d in
    if 2 ^ bits - 1 <? v then mkStrto (2 ^ bits - 1) rest true ERANGE
    else mkStrto (if neg : bool then wrap_u bits (- v) else v) rest true 0.

(** ** The functions of [tst_test.c]

    The result code, and the value if one is stored through [val]. *)
Section Long.
Context (LONG_MIN LONG_MAX : Z).

Definition tst_parse_long (str : option cstr) (min max : Z) : Z * option Z :=
  match str with
  | None => (0, None)
  | Some s =>
      let r := strtol LONG_MIN LONG_MAX 10 s in
      if negb (st_conv r) || negb (bool_decide (st_end r = [])) then (EINVAL, None)
      else if negb (st_errno r =? 0) then (st_errno r, None)
      else if (max <? st_val r) || (st_val r <? min) then (ERANGE, None)
      else (0, Some (st_val r))
  end.

Definition tst_parse_int (str : option cstr) (min max : Z) : Z * option Z :=
  match str with
  | None => (0, None)
  | Some s =>
      match tst_parse_long (Some s) min max with
      | (0, Some rval) => (0, Some (wrap_s 32 rval))
      | (ret, _) => (ret, None)
      end
  end.
End Long.

Definition suffix_mul (c : Z) : Z :=
  if (c =? "g"%ch) || (c =? "G"%ch) then 1024 * 1024 * 1024
  else if (c =? "m"%ch) || (c =? "M"%ch) then 1024 * 1024
  else if (c =? "k"%ch) || (c =? "K"%ch) then 1024
  else 1.

(** The multiplication is one of [long long]. *)
Definition tst_parse_filesize (str : option cstr) (min max : Z) : res brk (Z * option Z) :=
  match str with
  | None => Ok (0, None)
  | Some s =>
      let r := strtol LLONG_MIN LLONG_MAX 0 s in
      if negb (st_conv r) || (negb (at_ (st_end r) 0 =? 0) && negb (at_ (st_end r) 1 =? 0))
      then Ok (EINVAL, None)
      else if negb (st_errno r =? 0) then Ok (st_errno r, None)
      else
        let v := st_val r * suffix_mul (at_ (st_end r) 0) in
        if negb (in_ll v) then Fault
        else if (max <? v) || (v <? min) then Ok (ERANGE, None)
        else Ok (0, Some v)
  end.

Example filesize_ex : tst_parse_filesize (Some (str " 0x10k")) 0 100000 = Ok (0, Some 16384).
Proof. vm_compute. reflexivity. Qed.
Example long_ex : tst_parse_long LLONG_MIN LLONG_MAX (Some (str "-42 ")) (-50) 50 = (EINVAL, None).
Proof. vm_compute. reflexivity. Qed.

(** ** Decimal numerals *)
Fixpoint dec_digits (fuel : nat) (n : Z) (acc : cstr) : cstr :=
  match fuel with
  | O => acc
  | S fuel' =>
      let acc := ("0"%ch + n mod 10) :: acc in
      if n / 10 =? 0 then acc else dec_digits fuel' (n / 10) acc
  end.
(** The decimal numeral of a number. *)
Definition dec (z : Z) : cstr :=
  (if z <? 0 then ["-"%ch] else []) ++ dec_digits (S (Z.to_nat (Z.log2 (Z.abs z)))) (Z.abs z) [].

Example dec_ex : map dec [0; 7; -120; 98765] = [str "0"; str "7"; str "-120"; str "98765"].
Proof. reflexivity. Qed.

Lemma digits_val_app base s t : forall acc, forallb (is_digit base) s = true ->
  digits_val base acc (s ++ t) = digits_val base (digits_val base acc s) t.
Proof.
  induction s as [|c s IH]; intros acc; simpl; [done|]. intros [-> H]%andb_true_iff. by apply IH.
Qed.

Lemma digit_char d : 0 <= d < 10 -> digit_val ("0"%ch + d) = d /\ is_digit 10 ("0"%ch + d) = true.
Proof.
  intros Hd. assert (H : isdigit ("0"%ch + d) = true).
  { unfold isdigit. rewrite andb_true_iff, !Z.leb_le. lia. }
  unfold is_digit, digit_val. rewrite H, Z.ltb_lt. lia.
Qed.

(** The digits of [n] in front of [acc]; [fuel] bounds their number. *)
Lemma dec_digits_spec fuel : forall n acc, 0 <= n < 10 ^ Z.of_nat fuel ->
  (0 < fuel)%nat -> exists ds, dec_digits fuel n acc = ds ++ acc /\ ds <> [] /\
    forallb (is_digit 10) ds = true /\ digits_val 10 0 ds = n /\
    (n <> 0 -> at_ ds 0 <> "0"%ch).
Proof.
  induction fuel as [|fuel IH]; intros n acc Hn Hf; [lia|]. cbn [dec_digits].
  pose proof (Z.mod_pos_bound n 10 ltac:(lia)) as Hm. pose proof (Z.div_mod n 10 ltac:(lia)) as Hdm.
  destruct (digit_char (n mod 10) Hm) as [Hv Hd].
  destruct (Z.eqb_spec (n / 10) 0) as [E|E].
  - exists ["0"%ch + n mod 10]. split; [done|]. split; [done|]. cbn [forallb digits_val]. rewrite Hd, Hv.
    split; [done|]. split; [lia|]. unfold at_. cbn [nth]. lia.
  - rewrite Nat2Z.inj_succ, Z.pow_succ_r in Hn by lia.
    assert (0 <= n / 10 < 10 ^ Z.of_nat fuel) by (split; [apply Z.div_pos; lia|apply Z.div_lt_upper_bound; lia]).
    destruct fuel as [|fuel']; [simpl in *; lia|].
    destruct (IH (n / 10) (("0"%ch + n mod 10) :: acc)) as (ds & -> & Hne & Hall & Hval & Hhd); [done|lia|].
    exists (ds ++ ["0"%ch + n mod 10]). rewrite <-app_assoc. split; [done|]. split; [by destruct ds|].
    rewrite forallb_app, digits_val_app by done. cbn [forallb digits_val]. rewrite Hall, Hd, Hv, Hval.
    split; [done|]. split; [lia|]. intros _. destruct ds; [done|]. by apply Hhd.
Qed.

Lemma dec_fuel n : 0 <= n -> n < 10 ^ Z.of_nat (S (Z.to_nat (Z.log2 n))).
Proof.
  intros Hn. rewrite Nat2Z.inj_succ, Z2Nat.id by apply Z.log2_nonneg.
  destruct (Z.eq_dec n 0) as [->|Hne]; [done|].
  apply Z.lt_le_trans with (2 ^ Z.succ (Z.log2 n)); [apply Z.log2_spec; lia|].
  apply Z.pow_le_mono_l. lia.
Qed.

Lemma skip_all p s : forallb p s = true -> skip_while p s = [].
Proof. induction s as [|c s IH]; simpl; [done|]. by intros [-> ?]%andb_true_iff; apply IH. Qed.

Lemma digit_not_space c : is_digit 10 c = true -> isspace c = false /\ (c =? "-"%ch) = false /\ (c =? "+"%ch) = false.
Proof.
  unfold is_digit, digit_val, isspace, isdigit, islower, isupper. intros H.
  repeat (case_match; bools); lia || (split_and!; lia || done).
Qed.

Lemma dec_digits_length fuel : forall n acc, (length (dec_digits fuel n acc) <= fuel + length acc)%nat.
Proof.
  induction fuel as [|fuel IH]; intros n acc; simpl; [lia|]. case_match; simpl; [lia|].
  etransitivity; [apply IH|]. simpl. lia.
Qed.

(** The digits of [|z|], after the sign. *)
Lemma dec_split z : exists ds, dec z = (if z <? 0 then ["-"%ch] else []) ++ ds /\ ds <> [] /\
  forallb (is_digit 10) ds = true /\ digits_val 10 0 ds = Z.abs z /\ (z <> 0 -> at_ ds 0 <> "0"%ch).
Proof.
  destruct (dec_digits_spec (S (Z.to_nat (Z.log2 (Z.abs z)))) (Z.abs z) [])
    as (ds & H & Hne & Hall & Hv & Hh); [split; [lia|apply dec_fuel; lia]|lia|].
  exists ds. unfold dec. rewrite H, app_nil_r. split_and!; try done. intros; apply Hh; lia.
Qed.

Lemma sign_digits neg ds t : ds <> [] -> forallb (is_digit 10) ds = true ->
  sign_of (skip_while isspace ((if neg : bool then ["-"%ch] else []) ++ ds ++ t)) = (neg, ds ++ t).
Proof.
  intros Hne Hall. destruct ds as [|c ds]; [done|]. simpl in Hall. apply andb_true_iff in Hall as [Hc _].
  destruct (digit_not_space c Hc) as (Hs & Hm & Hp). destruct neg; simpl.
  - done.
  - rewrite Hs. simpl. by rewrite Hm, Hp.
Qed.

Lemma skip_prefix p s t : forallb p s = true -> match t with [] => True | c :: _ => p c = false end ->
  skip_while p (s ++ t) = t.
Proof.
  intros Hs Ht. induction s as [|c s IH]; simpl in *; [by destruct t as [|c t]; simpl; [|rewrite Ht]|].
  apply andb_true_iff in Hs as [-> Hs]. by apply IH.
Qed.

Lemma digits_val_stop base acc s t : match t with [] => True | c :: _ => is_digit base c = false end ->
  forallb (is_digit base) s = true -> digits_val base acc (s ++ t) = digits_val base acc s.
Proof. intros Ht Hs. rewrite digits_val_app by done. destruct t; simpl; [done|]. by rewrite Ht. Qed.

(** The value that is clamped to the range of the type. *)
Definition clamp (lo hi v : Z) (rest : cstr) : strto :=
  if v <? lo then mkStrto lo rest true ERANGE
  else if hi <? v then mkStrto hi rest true ERANGE
  else mkStrto v rest true 0.

Lemma strtol_digits lo hi base neg ds t : ds <> [] -> forallb (is_digit 10) ds = true ->
  match t with [] => True | c :: _ => is_digit 10 c = false end -> base_of base (ds ++ t) = (10, ds ++ t) ->
  strtol lo hi base ((if neg : bool then ["-"%ch] else []) ++ ds ++ t)
  = clamp lo hi (if neg then - digits_val 10 0 ds else digits_val 10 0 ds) t.
Proof.
  intros Hne Hall Ht Hb. unfold strtol. rewrite sign_digits, Hb by done.
  rewrite skip_prefix, digits_val_stop by done.
  destruct (Nat.eqb_spec (prefix_len (is_digit 10) (ds ++ t)) 0) as [E|E]; [|done].
  rewrite prefix_len_app in E by done. destruct ds; [done|simpl in E; lia].
Qed.

Lemma strtol_dec lo hi z : strtol lo hi 10 (dec z) = clamp lo hi z [].
Proof.
  destruct (dec_split z) as (ds & -> & Hne & Hall & Hv & _).
  rewrite <-(app_nil_r ds). rewrite strtol_digits by done. rewrite Hv. f_equal.
  destruct (Z.ltb_spec z 0); lia.
Qed.

(** ** Properties *)

(** [tst_parse_long] accepts the decimal numeral of exactly the numbers of
    the requested range, and stores that number; for every other number, those
    that do not fit a [long] included, it returns ERANGE and stores nothing. *)
Theorem parse_long_decimal LONG_MIN LONG_MAX min max z :
  LONG_MIN <= min -> max <= LONG_MAX ->
  tst_parse_long LONG_MIN LONG_MAX (Some (dec z)) min max
  = if (min <=? z) && (z <=? max) then (0, Some z) else (ERANGE, None).
Proof.
  intros Hlo Hhi. unfold tst_parse_long. rewrite strtol_dec. unfold clamp.
  destruct (Z.ltb_spec z LONG_MIN), (Z.ltb_spec LONG_MAX z), (Z.leb_spec min z), (Z.leb_spec z max);
    cbn; bools; try done; lia.
Qed.

Lemma parse_long_decimal_witness :
  tst_parse_long LLONG_MIN LLONG_MAX (Some (dec (-12))) (-100) 100
  = if (-100 <=? -12) && (-12 <=? 100) then (0, Some (-12)) else (ERANGE, None).
Proof. apply parse_long_decimal; zeval. Defined.

Lemma parse_in_range LONG_MIN LONG_MAX str min max :
  match tst_parse_long LONG_MIN LONG_MAX str min max with
  | (ret, Some v) => ret = 0 /\ min <= v <= max
  | (ret, None) => str = None \/ ret <> 0
  end /\
  (INT_MIN <= min -> max <= INT_MAX ->
   tst_parse_int LONG_MIN LONG_MAX str min max = tst_parse_long LONG_MIN LONG_MAX str min max).
Proof.
  assert (H : match tst_parse_long LONG_MIN LONG_MAX str min max with
              | (ret, Some v) => ret = 0 /\ min <= v <= max
              | (ret, None) => str = None \/ ret <> 0
              end).
  { unfold tst_parse_long. destruct str as [s|]; [|by left].
    destruct (strtol LONG_MIN LONG_MAX 10 s) as [v e conv errno]. cbn.
    destruct (negb conv || _); [by right|].
    destruct (Z.eqb_spec errno 0); [|by right]. cbn [negb].
    destruct (Z.ltb_spec max v), (Z.ltb_spec v min); cbn [orb]; [by right..|]. lia. }
  split; [done|]. intros Hmin Hmax. unfold tst_parse_int. destruct str as [s|]; [|done].
  destruct (tst_parse_long LONG_MIN LONG_MAX (Some s) min max) as [ret [v|]].
  - destruct H as [-> Hv]. rewrite wrap_s_id; [done|lia|]. unfold INT_MIN, INT_MAX in *. simpl. lia.
  - by destruct ret.
Qed.

(** Whatever the string, a value is stored only with result 0 and only a
    value of the requested range; [tst_parse_int] stores what
    [tst_parse_long] read when the range is one of [int]. *)
Theorem parse_stores_in_range LONG_MIN LONG_MAX str min max :
  match tst_parse_long LONG_MIN LONG_MAX str min max with
  | (ret, Some v) => ret = 0 /\ min <= v <= max
  | (ret, None) => str = None \/ ret <> 0
  end /\
  (INT_MIN <= min -> max <= INT_MAX ->
   tst_parse_int LONG_MIN LONG_MAX str min max = tst_parse_long LONG_MIN LONG_MAX str min max).
Proof. apply parse_in_range. Qed.

(** A decimal file size with an optional suffix: a number that, scaled, is in
    range is stored; one whose product does not fit a [long long] overflows in
    the multiplication, before the range is checked. *)
Theorem parse_filesize_decimal n sfx min max :
  0 <= n <= LLONG_MAX -> sfx = [] \/ sfx = str "k" \/ sfx = str "M" \/ sfx = str "G" ->
  let v := n * suffix_mul (at_ sfx 0) in
  tst_parse_filesize (Some (dec n ++ sfx)) min max
  = if LLONG_MAX <? v then Fault
    else if (min <=? v) && (v <=? max) then Ok (0, Some v) else Ok (ERANGE, None).
Proof.
  intros Hn Hs v. destruct (dec_split n) as (ds & Hdec & Hne & Hall & Hv & Hh).
  rewrite Hdec. rewrite (proj2 (Z.ltb_ge n 0)) by lia. cbn [app].
  assert (Hmul : 1 <= suffix_mul (at_ sfx 0)) by (destruct Hs as [->|[->|[->| ->]]]; vm_compute; discriminate).
  assert (Hst : strtol LLONG_MIN LLONG_MAX 0 (ds ++ sfx) = clamp LLONG_MIN LLONG_MAX n sfx).
  { destruct (Z.eq_dec n 0) as [->|Hn0].
    { change (dec 0) with ["0"%ch] in Hdec. cbn [app] in Hdec. change (0 <? 0) with false in Hdec. cbn in Hdec.
      subst ds. destruct Hs as [->|[->|[->| ->]]]; vm_compute; reflexivity. }
    rewrite (strtol_digits _ _ 0 false ds sfx); [by rewrite Hv, Z.abs_eq by lia|done|done|
      destruct Hs as [->|[->|[->| ->]]]; done|].
    destruct ds as [|c ds]; [done|]. unfold base_of. cbn [app]. specialize (Hh Hn0). unfold at_ in Hh. cbn in Hh.
    apply Z.eqb_neq in Hh. by destruct (ds ++ sfx) as [|x [|h r]]; rewrite Hh. }
  unfold tst_parse_filesize. rewrite Hst. unfold clamp.
  rewrite (proj2 (Z.ltb_ge n LLONG_MIN)) by (unfold LLONG_MIN, LLONG_MAX in *; lia).
  rewrite (proj2 (Z.ltb_ge LLONG_MAX n)) by lia. cbn [st_conv st_end st_errno st_val negb orb Z.eqb].
  replace (negb (at_ sfx 0 =? 0) && negb (at_ sfx 1 =? 0)) with false
    by (destruct Hs as [->|[->|[->| ->]]]; reflexivity).
  fold v. unfold in_ll. rewrite (proj2 (Z.leb_le LLONG_MIN v)) by (unfold v, LLONG_MIN in *; nia). cbn [andb].
  rewrite (Z.leb_antisym LLONG_MAX v). destruct (Z.ltb_spec LLONG_MAX v); cbn [negb]; [done|].
  rewrite (Z.leb_antisym max v), (Z.leb_antisym v min).
  by destruct (v <? min), (max <? v).
Qed.

Lemma parse_filesize_decimal_witness :
  tst_parse_filesize (Some (dec 9223372036854775 ++ str "M")) 0 LLONG_MAX
  = if LLONG_MAX <? 9223372036854775 * suffix_mul (at_ (str "M") 0) then Fault
    else if (0 <=? 9223372036854775 * suffix_mul (at_ (str "M") 0))
            && (9223372036854775 * suffix_mul (at_ (str "M") 0) <=? LLONG_MAX)
         then Ok (0, Some (9223372036854775 * suffix_mul (at_ (str "M") 0))) else Ok (ERANGE, None).
Proof. apply parse_filesize_decimal; [zeval|auto]. Defined.
