(* ===== verification/Tokens.v ===== *)
(** * Tokens of strings

    [strtok] of the C library and what it returns; shared by the parts that
    take strings apart with it. *)

From stdpp Require Import base list strings.
From Stdlib Require Import ZArith Lia.
From S2P Require Import Prelude.

Local Open Scope Z_scope.

Definition span (p : Z -> bool) (s : cstr) : cstr := take (prefix_len p s) s.

(** [strtok]: the next token and the position behind the separator that ended
    it. *)
Definition strtok (sep : Z -> bool) (s : cstr) : option (cstr * cstr) :=
  match skip_while sep s with
  | [] => None
  | t => let tok := span (fun c => negb (sep c)) t in Some (tok, drop (S (length tok)) t)
  end.

(** All tokens: [strtok] until it returns NULL. *)
Fixpoint strtoks_from (fuel : nat) (sep : Z -> bool) (s : cstr) : list cstr :=
  match fuel with
  | O => []
  | S fuel => match strtok sep s with None => [] | Some (tok, rest) => tok :: strtoks_from fuel sep rest end
  end.
Definition strtoks (sep : Z -> bool) (s : cstr) : list cstr := strtoks_from (length s) sep s.

(** [toks] are the tokens of [s]. *)
Inductive tokens_of (sep : Z -> bool) : cstr -> list cstr -> Prop :=
| tokens_none s : forallb sep s = true -> tokens_of sep s []
| tokens_last gap tok : forallb sep gap = true -> tok <> [] -> forallb (fun c => negb (sep c)) tok = true ->
    tokens_of sep (gap ++ tok) [tok]
| tokens_next gap tok c s toks : forallb sep gap = true -> tok <> [] -> forallb (fun c => negb (sep c)) tok = true ->
    sep c = true -> tokens_of sep s toks -> tokens_of sep (gap ++ tok ++ c :: s) (tok :: toks).

Lemma skip_split p s : exists gap, s = gap ++ skip_while p s /\ forallb p gap = true /\
  match skip_while p s with [] => True | c :: _ => p c = false end.
Proof.
  induction s as [|c s (gap & E & Hg & Hs)]; [by exists []|]. simpl. destruct (p c) eqn:Hc.
  - exists (c :: gap). simpl. rewrite Hc. split_and!; [by f_equal|done|done].
  - exists []. done.
Qed.

Lemma span_split p s : s = span p s ++ drop (length (span p s)) s /\ forallb p (span p s) = true /\
  match drop (length (span p s)) s with [] => True | c :: _ => p c = false end.
Proof.
  unfold span. induction s as [|c s (E & Hg & Hs)]; [done|]. simpl. destruct (p c) eqn:Hc; simpl; [|by rewrite Hc].
  rewrite Hc. split_and!; [by f_equal|done|done].
Qed.

Lemma span_app p s c t : forallb p s = true -> p c = false -> span p (s ++ c :: t) = s.
Proof.
  intros Hs Hc. unfold span. induction s as [|x s IH]; simpl in *; [by rewrite Hc|].
  apply andb_true_iff in Hs as [Hx Hs]. rewrite Hx. simpl. by rewrite IH.
Qed.
Lemma span_all p s : forallb p s = true -> span p s = s.
Proof. intros Hs. unfold span. rewrite (proj2 (prefix_len_all p s) Hs). apply firstn_all. Qed.

Lemma skip_all_sep p s : forallb p s = true -> skip_while p s = [].
Proof. induction s as [|c s IH]; [done|]. simpl. intros [-> Hs]%andb_true_iff. auto. Qed.

(** A string in front of which a token is found. *)
Lemma strtok_cases sep s :
  match strtok sep s with
  | None => forallb sep s = true
  | Some (tok, rest) => tok <> [] /\ forallb (fun c => negb (sep c)) tok = true /\ exists gap, forallb sep gap = true /\
      ((s = gap ++ tok /\ rest = []) \/ exists c, sep c = true /\ s = gap ++ tok ++ c :: rest)
  end.
Proof.
  unfold strtok. destruct (skip_split sep s) as (gap & E & Hg & Hh). destruct (skip_while sep s) as [|c0 t0].
  - by rewrite E, app_nil_r.
  - set (t := c0 :: t0) in *. destruct (span_split (fun c => negb (sep c)) t) as (Es & Hsp & Hd).
    set (tok := span _ t) in *. split_and!; [|done|].
    { unfold tok, span. subst t. simpl. by rewrite Hh. }
    exists gap. split; [done|]. replace (drop (S (length tok)) t) with (drop 1 (drop (length tok) t)) by (by rewrite drop_drop, Nat.add_1_r).
    destruct (drop (length tok) t) as [|c u]; [left|right].
    + by rewrite app_nil_r in Es; rewrite Es in E.
    + exists c. split; [by apply negb_false_iff|]. rewrite E, Es at 1. cbn [drop]. by rewrite drop_0.
Qed.

Lemma strtok_shorter sep s tok rest : strtok sep s = Some (tok, rest) -> (length rest < length s)%nat.
Proof.
  intros H. pose proof (strtok_cases sep s) as Hc. rewrite H in Hc. destruct Hc as (Hne & _ & gap & _ & [[-> ->]|(c & _ & ->)]);
    rewrite !length_app; [destruct tok; [done|]|]; simpl; lia.
Qed.

(** A token at the front, ended by a separator or by the end of the string. *)
Lemma strtok_app sep tok rest : tok <> [] -> forallb (fun c => negb (sep c)) tok = true ->
  match rest with [] => True | c :: _ => sep c = true end -> strtok sep (tok ++ rest) = Some (tok, drop 1 rest).
Proof.
  intros Hne Hall Hr. unfold strtok. destruct tok as [|c t]; [done|]. pose proof Hall as Hc. simpl in Hc. apply andb_true_iff in Hc as [Hc _].
  apply negb_true_iff in Hc. cbn [app skip_while]. rewrite Hc. change (c :: t ++ rest) with ((c :: t) ++ rest).
  replace (span (fun c => negb (sep c)) ((c :: t) ++ rest)) with (c :: t).
  - rewrite drop_app_ge by lia. by replace (S (length (c :: t)) - length (c :: t))%nat with 1%nat by lia.
  - destruct rest as [|d r]; [by rewrite app_nil_r, span_all|]. rewrite span_app; [done|done|by rewrite Hr].
Qed.

Lemma tokens_nil sep ts : tokens_of sep [] ts -> ts = [].
Proof. inversion 1 as [? _|gap tok ? Hne|gap tok c s toks ? Hne]; subst; [done|by destruct gap, tok|by destruct gap, tok]. Qed.

(** A token and those of the rest. *)
Lemma tokens_step sep s tok rest ts : strtok sep s = Some (tok, rest) -> tokens_of sep rest ts -> tokens_of sep s (tok :: ts).
Proof.
  intros H HT. pose proof (strtok_cases sep s) as Hc. rewrite H in Hc. destruct Hc as (Hne & Hall & gap & Hg & [[-> ->]|(c & Hc & ->)]).
  - rewrite (tokens_nil _ _ HT). by constructor.
  - by constructor.
Qed.

Lemma strtoks_from_spec sep fuel : forall s, (length s <= fuel)%nat -> tokens_of sep s (strtoks_from fuel sep s).
Proof.
  induction fuel as [|fuel IH]; intros s Hf; [destruct s; [by constructor|cbn in Hf; lia]|]. cbn [strtoks_from]. destruct (strtok sep s) as [[tok rest]|] eqn:E.
  - eapply tokens_step; [exact E|]. apply IH. pose proof (strtok_shorter _ _ _ _ E). lia.
  - constructor. pose proof (strtok_cases sep s) as H. by rewrite E in H.
Qed.
Lemma strtoks_spec sep s : tokens_of sep s (strtoks sep s).
Proof. by apply strtoks_from_spec. Qed.

(** The fuel does not matter. *)
Lemma strtoks_from_enough sep fuel : forall s, (length s <= fuel)%nat -> strtoks_from fuel sep s = strtoks sep s.
Proof.
  unfold strtoks. intros s. remember (length s) as n eqn:En. assert (Hn : (length s <= n)%nat) by lia. clear En. revert fuel s Hn.
  induction n as [|n IH]; intros fuel s Hn Hf; (destruct s as [|c s]; [by destruct fuel|]); [cbn in Hn; lia|].
  destruct fuel as [|fuel]; [lia|]. cbn [strtoks_from]. destruct (strtok sep (c :: s)) as [[tok rest]|] eqn:E; [|done].
  pose proof (strtok_shorter _ _ _ _ E). f_equal. apply IH; lia.
Qed.
Lemma strtoks_none sep s : strtok sep s = None -> strtoks sep s = [].
Proof. intros H. unfold strtoks. destruct (length s); [done|]. cbn [strtoks_from]. by rewrite H. Qed.
Lemma strtoks_some sep s tok rest : strtok sep s = Some (tok, rest) -> strtoks sep s = tok :: strtoks sep rest.
Proof.
  intros H. pose proof (strtok_shorter _ _ _ _ H) as Hl. rewrite <-(strtoks_from_enough sep (S (length s)) s) by lia. cbn [strtoks_from]. rewrite H.
  f_equal. apply strtoks_from_enough. lia.
Qed.

(** ** Parts of a string *)

(** [f] is a part of [s]. *)
Definition part_of (f s : cstr) : Prop := exists a b, s = a ++ f ++ b.
Lemma part_refl s : part_of s s.
Proof. exists [], []. by rewrite app_nil_r. Qed.
Lemma part_trans f g s : part_of f g -> part_of g s -> part_of f s.
Proof. intros (a & b & ->) (c & d & ->). exists (c ++ a), (b ++ d). by rewrite <-!app_assoc. Qed.

Lemma strtok_parts sep s tok rest : strtok sep s = Some (tok, rest) -> part_of tok s /\ part_of rest s.
Proof.
  intros H. pose proof (strtok_cases sep s) as Hc. rewrite H in Hc. destruct Hc as (_ & _ & gap & _ & [[-> ->]|(c & _ & ->)]); split.
  - exists gap, []. by rewrite app_nil_r.
  - exists (gap ++ tok), []. by rewrite !app_nil_r.
  - by exists gap, (c :: rest).
  - exists (gap ++ tok ++ [c]), []. by rewrite app_nil_r, <-!app_assoc.
Qed.
