(* ===== verification/Results.v ===== *)
(** * Results of a test: the reporting part of [lib/tst_test.c]

    The counters in shared memory, the functions that report a result, the
    children of a test, and the exit code computed from the counters. *)

From stdpp Require Import base list strings gmap.
From Stdlib Require Import ZArith Lia.
From S2P Require Import Prelude ParseNum.

Local Open Scope Z_scope.

(** ** Counters *)
Record results : Set := mkResults {
  passed : Z; skipped : Z; failed : Z; warnings : Z; broken : Z;
  timeout : Z; max_runtime : Z
}.
Definition results0 : results := mkResults 0 0 0 0 0 0 0.

(** [tst_atomic_inc] on an [int]. *)
Definition inc (z : Z) : Z := wrap_s 32 (z + 1).

(** [None]: the shared memory is not mapped yet. *)
Definition update_results (ttype : Z) (o : option results) : option results :=
  match o with
  | None => None
  | Some r =>
      Some (if ttype =? TCONF then mkResults (passed r) (inc (skipped r)) (failed r) (warnings r) (broken r) (timeout r) (max_runtime r)
            else if ttype =? TPASS then mkResults (inc (passed r)) (skipped r) (failed r) (warnings r) (broken r) (timeout r) (max_runtime r)
            else if ttype =? TWARN then mkResults (passed r) (skipped r) (failed r) (inc (warnings r)) (broken r) (timeout r) (max_runtime r)
            else if ttype =? TFAIL then mkResults (passed r) (skipped r) (inc (failed r)) (warnings r) (broken r) (timeout r) (max_runtime r)
            else if ttype =? TBROK then mkResults (passed r) (skipped r) (failed r) (warnings r) (inc (broken r)) (timeout r) (max_runtime r)
            else r)
  end.

Definition results_equal (a b : results) : bool :=
  if negb (passed a =? passed b) then false
  else if negb (failed a =? failed b) then false
  else if negb (skipped a =? skipped b) then false
  else if negb (broken a =? broken b) then false
  else true.

(** ** Printing a result *)

(** What [print_result] uses of the process and the terminal. *)
Record printer : Type := mkPrinter {
  p_color : option (Z -> cstr);          (** colour of a type, if stderr has colours *)
  p_strerrno : Z -> cstr;
  p_errno : Z; p_TST_ERR : Z; p_TST_RET : Z
}.

Definition res_name (ttype : Z) : option cstr :=
  let t := TTYPE_RESULT ttype in
  if t =? TPASS then Some (str "TPASS")
  else if t =? TFAIL then Some (str "TFAIL")
  else if t =? TBROK then Some (str "TBROK")
  else if t =? TCONF then Some (str "TCONF")
  else if t =? TWARN then Some (str "TWARN")
  else if t =? TINFO then Some (str "TINFO")
  else None.

(** The error number to append, the last flag winning. *)
Definition pick_errno (p : printer) (ttype : Z) : option Z :=
  if negb (Z.land ttype TRERRNO =? 0)
  then Some (wrap_s 32 (if p_TST_RET p <? 0 then - wrap_s 32 (p_TST_RET p) else p_TST_RET p))
  else if negb (Z.land ttype TTERRNO =? 0) then Some (p_TST_ERR p)
  else if negb (Z.land ttype TERRNO =? 0) then Some (p_errno p)
  else None.

Definition ANSI_COLOR_RESET : cstr := [27] ++ str "[0m".
Definition BUF_SIZE : Z := 1024.

Definition header (p : printer) (file : cstr) (lineno ttype : Z) (name : cstr) : cstr :=
  file ++ str ":" ++ dec lineno ++ str ": " ++
  match p_color p with
  | Some col => col ttype ++ name ++ str ": " ++ ANSI_COLOR_RESET
  | None => name ++ str ": "
  end.

(** [str += MIN(ret, ssize)] after writing [s] at [len] characters: what the
    line is then, and whether it counts as truncated. *)
Definition append (line s : cstr) : cstr * bool :=
  let ssize := BUF_SIZE - Z.of_nat (length line) - 2 in
  (take (Z.to_nat (Z.of_nat (length line) + Z.min (Z.of_nat (length s)) ssize)) (line ++ s),
   ssize <=? Z.of_nat (length s)).

(** The line written to stderr, and whether the warning about a long message is
    reported before it; [msg] is the formatted message.  A header that does not
    fit the buffer makes the code write behind it. *)
Definition print_result (p : printer) (file : cstr) (lineno ttype : Z) (msg : cstr)
    : res brk (cstr * bool) :=
  match res_name ttype with
  | None => Err (TBROK, str "Invalid ttype value")
  | Some name =>
      let h := header p file lineno ttype name in
      if BUF_SIZE <? Z.of_nat (length h) then Fault
      else
        let '(l1, long) := append h msg in
        let '(l2, long2) :=
          if long : bool then (l1, false)
          else match pick_errno p ttype with
               | None => (l1, false)
               | Some e => append l1 (str ": " ++ p_strerrno p e ++ str " (" ++ dec e ++ str ")")
               end in
        Ok (l2 ++ [NEWLINE], long || long2)
  end.

(** ** Reporting *)

(** [tst_vres_] as seen by the counters: [long] is the second component of
    [print_result], which reports TWARN itself. *)
Definition tst_vres (ttype : Z) (long : bool) (o : option results) : option results :=
  let o := if long then update_results TWARN o else o in
  update_results (TTYPE_RESULT ttype) o.

(** [tst_cvres], the handler of [tst_brk] during the cleanup. *)
Definition tst_cvres (ttype : Z) (long : bool) (o : option results) : option results :=
  let ttype := if TTYPE_RESULT ttype =? TBROK
               then Z.lor (Z.land ttype (Z.lnot TTYPE_MASK)) TWARN else ttype in
  let o := if long then update_results TWARN o else o in
  update_results (TTYPE_RESULT ttype) o.

(** ** Children *)

(** The macros of <sys/wait.h>. *)
Definition WTERMSIG (status : Z) : Z := Z.land status 127.
Definition WIFEXITED (status : Z) : bool := WTERMSIG status =? 0.
Definition WEXITSTATUS (status : Z) : Z := Z.land (Z.shiftr status 8) 255.
Definition WIFSIGNALED (status : Z) : bool := 0 <? Z.shiftr (wrap_s 8 (WTERMSIG status + 1)) 1.

(** [Some why]: the test ends with TBROK. *)
Definition check_child_status (pid status : Z) : option brk :=
  if WIFSIGNALED status then Some (TBROK, str "Child killed by signal")
  else if negb (WIFEXITED status) then Some (TBROK, str "Child exited abnormally")
  else
    let ret := WEXITSTATUS status in
    if (ret =? TPASS) || (ret =? TBROK) || (ret =? TCONF) then None
    else Some (TBROK, str "Invalid child exit value").

Definition ECHILD : Z := 10.
Definition EINTR : Z := 4.

(** The answers of [wait]: a child with its status, or an errno.  When the list
    is used up no child is left. *)
Inductive wait_answer : Set := WChild (pid status : Z) | WErrno (errno : Z).

Fixpoint tst_reap_children (ws : list wait_answer) : option brk :=
  match ws with
  | [] => None
  | WChild pid status :: ws' =>
      match check_child_status pid status with
      | Some b => Some b
      | None => tst_reap_children ws'
      end
  | WErrno e :: ws' =>
      if e =? ECHILD then None
      else if e =? EINTR then tst_reap_children ws'
      else Some (Z.lor TBROK TERRNO, str "wait() failed")
  end.

(** ** The exit code *)
Definition do_exit (ret : Z) (o : option results) : Z :=
  match o with
  | None => ret
  | Some r =>
      let nz z := negb (z =? 0) in
      let ret := if nz (passed r) && (ret =? TCONF) then 0 else ret in
      let ret := if nz (failed r) then Z.lor ret TFAIL else ret in
      let ret := if nz (skipped r) && negb (nz (passed r)) then Z.lor ret TCONF else ret in
      let ret := if nz (warnings r) then Z.lor ret TWARN else ret in
      if nz (broken r) then Z.lor ret TBROK else ret
  end.

(** ** Lemmas *)

(** The line stays within the buffer, with room for the newline and the NUL. *)
Lemma append_length line s : Z.of_nat (length line) <= BUF_SIZE ->
  Z.of_nat (length (fst (append line s))) <= BUF_SIZE - 2 /\
  (snd (append line s) = false -> fst (append line s) = line ++ s).
Proof.
  intros Hl. unfold append, BUF_SIZE in *. cbn [fst snd]. rewrite length_take, length_app.
  split; [lia|]. rewrite Z.leb_gt. intros Hs. apply take_ge. rewrite length_app. lia.
Qed.

Lemma update_results_Some t r : exists r', update_results t (Some r) = Some r'.
Proof. by eexists. Qed.

(** The parts of a line: header, message, error number. *)
Definition full_line (p : printer) (file : cstr) (lineno ttype : Z) (name msg : cstr) : cstr :=
  header p file lineno ttype name ++ msg ++
  match pick_errno p ttype with
  | None => []
  | Some e => str ": " ++ p_strerrno p e ++ str " (" ++ dec e ++ str ")"
  end.

(** A line written by [print_result] fits the buffer of 1024 bytes with its
    newline and NUL, ends in a newline, and is the complete line whenever no
    truncation is reported; the code never writes behind the buffer when the
    header fits. *)
Theorem print_result_bounded p file lineno ttype msg name :
  res_name ttype = Some name -> Z.of_nat (length (header p file lineno ttype name)) <= BUF_SIZE ->
  exists line long, print_result p file lineno ttype msg = Ok (line, long) /\
    Z.of_nat (length line) < BUF_SIZE /\ last line = Some NEWLINE /\
    (long = false -> line = full_line p file lineno ttype name msg ++ [NEWLINE]).
Proof.
  intros Hn Hh. unfold print_result. rewrite Hn. rewrite (proj2 (Z.ltb_ge _ _)) by done.
  set (h := header p file lineno ttype name) in *.
  destruct (append_length h msg Hh) as [Hl1 Hf1]. destruct (append h msg) as [l1 long] eqn:E1. cbn [fst snd] in *.
  unfold BUF_SIZE in *. unfold full_line. fold h.
  destruct long.
  - eexists _, _. split; [done|]. rewrite length_app, last_snoc. split_and!; [simpl; lia|done|done].
  - specialize (Hf1 eq_refl). destruct (pick_errno p ttype) as [e|].
    + set (es := str ": " ++ _).
      destruct (append_length l1 es) as [Hl2 Hf2]; [unfold BUF_SIZE; lia|]. unfold BUF_SIZE in *.
      destruct (append l1 es) as [l2 long2]. cbn [fst snd orb] in *.
      eexists _, _. split; [done|]. rewrite length_app, last_snoc. split_and!; [simpl; lia|done|].
      intros ->. rewrite Hf2 by done. rewrite Hf1. by rewrite !app_assoc.
    + eexists _, _. split; [done|]. rewrite length_app, last_snoc. split_and!; [simpl; lia|done|].
      intros _. rewrite Hf1. by rewrite app_nil_r.
Qed.

Definition ex_printer : printer := mkPrinter None (fun _ => str "EINVAL") 22 0 0.
Lemma print_result_bounded_witness :
  exists line long, print_result ex_printer (str "test.c") 12 (Z.lor TFAIL TERRNO) (str "open failed") = Ok (line, long) /\
    Z.of_nat (length line) < BUF_SIZE /\ last line = Some NEWLINE /\
    (long = false ->
     line = full_line ex_printer (str "test.c") 12 (Z.lor TFAIL TERRNO) (str "TFAIL") (str "open failed") ++ [NEWLINE]).
Proof. apply (print_result_bounded ex_printer _ _ _ _ (str "TFAIL")); [reflexivity|zeval]. Defined.

(** A message that exactly fills the line is printed completely, yet it is
    reported as too long and truncated, which counts a warning against the
    test; its error number is dropped. *)
Theorem print_result_exact_fit p file lineno ttype msg name :
  res_name ttype = Some name ->
  Z.of_nat (length (header p file lineno ttype name)) + Z.of_nat (length msg) = BUF_SIZE - 2 ->
  print_result p file lineno ttype msg
  = Ok (header p file lineno ttype name ++ msg ++ [NEWLINE], true).
Proof.
  intros Hn Hl. unfold print_result. rewrite Hn. unfold BUF_SIZE in *. rewrite (proj2 (Z.ltb_ge _ _)) by lia.
  unfold append, BUF_SIZE. rewrite (proj2 (Z.leb_le _ _)) by lia. cbn [orb].
  rewrite take_ge by (rewrite length_app; lia). by rewrite <-app_assoc.
Qed.

Lemma print_result_exact_fit_witness :
  print_result ex_printer (str "t.c") 1 TPASS (replicate 1008 "x"%ch)
  = Ok (header ex_printer (str "t.c") 1 TPASS (str "TPASS") ++ replicate 1008 "x"%ch ++ [NEWLINE], true).
Proof. apply print_result_exact_fit; vm_compute; reflexivity. Defined.

(** A child of the test may only exit with TPASS, TBROK or TCONF: reaping
    succeeds exactly when every child, up to the answer that no child is left,
    did so, and interrupted waits do not matter. *)
Theorem reap_children_correct ws :
  Forall (fun w => match w with WErrno e => e = EINTR | WChild _ _ => True end) ws ->
  tst_reap_children ws = None <->
  Forall (fun w => match w with
                   | WErrno _ => True
                   | WChild _ status => WTERMSIG status = 0 /\
                       (WEXITSTATUS status = TPASS \/ WEXITSTATUS status = TBROK \/ WEXITSTATUS status = TCONF)
                   end) ws.
Proof.
  intros Hw. induction ws as [|w ws IH]; cbn [tst_reap_children]; [by split|].
  apply Forall_cons in Hw as [Hw Hws]. rewrite Forall_cons, <-(IH Hws).
  destruct w as [pid status|e]; [|subst e; cbn; tauto].
  unfold check_child_status, WIFSIGNALED, WIFEXITED.
  destruct (Z.eqb_spec (WTERMSIG status) 0) as [->|Hs]; cbn.
  - destruct (Z.eqb_spec (WEXITSTATUS status) TPASS), (Z.eqb_spec (WEXITSTATUS status) TBROK),
      (Z.eqb_spec (WEXITSTATUS status) TCONF); cbn; split; intros; try done; tauto.
  - split; [|tauto]. destruct (_ <? _); done.
Qed.

Lemma reap_children_correct_witness :
  tst_reap_children [WChild 5 0; WErrno EINTR; WChild 6 8192] = None <->
  Forall (fun w => match w with
                   | WErrno _ => True
                   | WChild _ status => WTERMSIG status = 0 /\
                       (WEXITSTATUS status = TPASS \/ WEXITSTATUS status = TBROK \/ WEXITSTATUS status = TCONF)
                   end) [WChild 5 0; WErrno EINTR; WChild 6 8192].
Proof. apply reap_children_correct. repeat constructor. Defined.
