(* ===== verification/TestRun.v ===== *)
(** * Running a test: the library process and the test process of [lib/tst_test.c]

    [tst_run_tcases] forks a test process for every variant and file system;
    the test process runs the setup, the test functions and the cleanup of the
    test and reports results in shared memory.  The code of the test itself is
    a script: what each call of one of its functions reports. *)

From stdpp Require Import base list strings gmap.
From Stdlib Require Import ZArith Lia.
From S2P Require Import Prelude ParseNum Results.

Local Open Scope Z_scope.

(** ** The behaviour of a test *)

(** Calls of the library made by the test or its children, in the order in which
    they reach the shared memory: [tst_res], [tst_brk] (which ends the test
    process), and a fatal signal.  [long]: the message is longer than the line. *)
Inductive act : Set :=
| ARes (ttype : Z) (long : bool)
| ABrk (ttype : Z) (long : bool)
| AKill (sig : Z).

(** One call of the test function, with the children it leaves to be reaped. *)
Record call : Set := mkCall { c_acts : list act; c_waits : list wait_answer }.

Inductive exit_status : Set := Exited (code : Z) | Signaled (sig : Z).

Definition SIGABRT : Z := 6.
Definition SIGKILL : Z := 9.

Definition vres (ttype : Z) (long : bool) (r : results) : results :=
  default r (tst_vres ttype long (Some r)).
Definition cvres (ttype : Z) (long : bool) (r : results) : results :=
  default r (tst_cvres ttype long (Some r)).

(** ** The test process *)
Section TestProcess.
Context (cleanup : list act).

(** [do_test_cleanup]: [tst_brk] reports and returns; an invalid type aborts. *)
Fixpoint do_test_cleanup (acts : list act) (r : results) : results * option exit_status :=
  match acts with
  | [] => (r, None)
  | ARes t long :: k =>
      match res_name t with
      | None => (cvres TBROK false r, Some (Signaled SIGABRT))
      | Some _ => do_test_cleanup k (vres t long r)
      end
  | ABrk t long :: k =>
      match res_name t with
      | None => (cvres TBROK false r, Some (Signaled SIGABRT))
      | Some _ => do_test_cleanup k (cvres t long r)
      end
  | AKill sig :: _ => (r, Some (Signaled sig))
  end.

(** [tst_vbrk_] in the test process. *)
Definition tst_vbrk (ttype : Z) (long : bool) (r : results) : results * exit_status :=
  let '(t, long) := match res_name ttype with None => (TBROK, false) | Some _ => (ttype, long) end in
  let '(r', st) := do_test_cleanup cleanup (vres t long r) in
  (r', default (Exited (TTYPE_RESULT t)) st).

(** The status is there when the process ended. *)
Fixpoint run_acts (acts : list act) (r : results) : results * option exit_status :=
  match acts with
  | [] => (r, None)
  | ARes t long :: k =>
      match res_name t with
      | None => let '(r', st) := tst_vbrk TBROK false r in (r', Some st)
      | Some _ => run_acts k (vres t long r)
      end
  | ABrk t long :: _ => let '(r', st) := tst_vbrk t long r in (r', Some st)
  | AKill sig :: _ => (r, Some (Signaled sig))
  end.

(** One round of the loop of [run_tests]. *)
Definition run_call (c : call) (r : results) : results * option exit_status :=
  let '(r1, st) := run_acts (c_acts c) r in
  match st with
  | Some s => (r1, Some s)
  | None =>
      match tst_reap_children (c_waits c) with
      | Some (t, _) => let '(r2, s) := tst_vbrk t false r1 in (r2, Some s)
      | None =>
          if results_equal r r1 then let '(r2, s) := tst_vbrk TBROK false r1 in (r2, Some s)
          else (r1, None)
      end
  end.

(** [tcnt] calls, or the one call of [test_all]; [n] is the number of the next
    call in the script. *)
Fixpoint run_tests (script : nat -> call) (tcnt n : nat) (r : results) : results * option exit_status :=
  match tcnt with
  | O => (r, None)
  | S tcnt' =>
      let '(r1, st) := run_call (script n) r in
      match st with
      | Some s => (r1, Some s)
      | None => run_tests script tcnt' (S n) r1
      end
  end.

(** The loop of [testrun]: [timed] are the answers of
    [stop_time && get_time_ms() < stop_time], false once the list is used up. *)
Fixpoint testrun_loop (fuel : nat) (script : nat -> call) (tcnt : nat) (i iterations : Z)
    (timed : list bool) (n : nat) (r : results) : res brk (results * option exit_status) :=
  match fuel with
  | O => Fault
  | S fuel' =>
      let '(i, cont) := if i <? iterations then (i + 1, true) else (i, false) in
      let cont := match timed with b :: _ => cont || b | [] => cont end in
      if negb cont then Ok (r, None)
      else
        let '(r1, st) := run_tests script tcnt n r in
        match st with
        | Some s => Ok (r1, Some s)
        | None => testrun_loop fuel' script tcnt i iterations (tail timed) (n + tcnt) r1
        end
  end.
End TestProcess.

(** What a test process meets: its setup, test functions and cleanup, the time
    it has, and what the library process sees of it. *)
Record testenv : Type := mkTestenv {
  e_setup : list act;
  e_script : nat -> call;
  e_cleanup : list act;
  e_iterations : Z;
  e_timed : list bool;
  e_tcnt : nat;                          (** calls per iteration *)
  e_fork_ok : bool;
  e_tainted : bool;                      (** [taint_check && tst_taint_check()] *)
  e_prepare : option Z                   (** [prepare_device] ends with this type *)
}.

Definition testrun (e : testenv) (r : results) : res brk (results * exit_status) :=
  let '(r1, st) := run_acts (e_cleanup e) (e_setup e) r in
  match st with
  | Some s => Ok (r1, s)
  | None =>
      '(r2, st) ← testrun_loop (e_cleanup e) (S (Z.to_nat (e_iterations e) + length (e_timed e)))
                   (e_script e) (e_tcnt e) 0 (e_iterations e) (e_timed e) 0 r1;
      match st with
      | Some s => Ok (r2, s)
      | None =>
          let '(r3, st) := do_test_cleanup (e_cleanup e) r2 in
          Ok (r3, default (Exited 0) st)
      end
  end.

(** ** The library process *)

(** [Err (code, r)]: the process has ended with this exit code and these
    results in the shared memory. *)
Abbreviation L := (res (Z * results)).

(** [do_exit], and [tst_brk] in the library process. *)
Definition lib_exit {A} (ret : Z) (r : results) : L A := Err (do_exit ret (Some r), r).
Definition lib_brk {A} (ttype : Z) (r : results) : L A :=
  lib_exit (TTYPE_RESULT ttype) (vres ttype false r).

Definition fork_testrun (e : testenv) (r : results) : L (Z * results) :=
  if negb (e_fork_ok e) then lib_brk (Z.lor TBROK TERRNO) r
  else
    match testrun e r with
    | Ok (r1, status) =>
        if e_tainted e then Ok (TFAIL, vres TFAIL false r1)
        else
          match status with
          | Exited code => if negb (code =? 0) then Ok (code, r1) else Ok (0, r1)
          | Signaled _ => lib_brk TBROK r1
          end
    | _ => Fault
    end.

Fixpoint per_fs_loop (fss : list testenv) (ret : Z) (r : results) : L (Z * results) :=
  match fss with
  | [] => Ok (ret, r)
  | e :: fss' =>
      match e_prepare e with
      | Some t => lib_brk t r
      | None =>
          '(ret', r1) ← fork_testrun e r;
          if (ret' =? TCONF) || (ret' =? 0) then per_fs_loop fss' ret' r1
          else lib_exit ret' r1
      end
  end.

Definition run_tcases_per_fs (fss : list testenv) (r : results) : L (Z * results) :=
  match fss with
  | [] => lib_brk TCONF r
  | _ => per_fs_loop fss 0 r
  end.

(** A variant: one run, or one for each supported file system. *)
Inductive variant : Type := VRun (e : testenv) | VFilesystems (fss : list testenv).

Fixpoint variants_loop (vs : list variant) (ret : Z) (r : results) : L (Z * results) :=
  match vs with
  | [] => Ok (ret, r)
  | v :: vs' =>
      '(x, r1) ← match v with VRun e => fork_testrun e r | VFilesystems fss => run_tcases_per_fs fss r end;
      let ret := Z.lor ret x in
      if negb (Z.land ret (Z.lnot TCONF) =? 0) then Ok (ret, r1)
      else variants_loop vs' ret r1
  end.

(** [tst_run_tcases] after [do_setup]; [Err] is the only way it ends. *)
Definition tst_run_tcases (vs : list variant) (r : results) : L unit :=
  '(ret, r1) ← variants_loop vs 0 r;
  lib_exit ret r1.

Definition pass_env : testenv :=
  mkTestenv [] (fun _ => mkCall [ARes TPASS false] [WChild 7 0]) [] 2 [] 3 true false None.
Definition fail_env : testenv :=
  mkTestenv [] (fun n => mkCall [if Nat.eqb n 1 then ARes TFAIL false else ARes TPASS false] []) []
    1 [] 2 true false None.

Example run_ex : tst_run_tcases [VRun pass_env; VFilesystems [fail_env; pass_env]] results0
  = Err (1, mkResults 13 0 1 0 0 0 0).
Proof. vm_compute. reflexivity. Qed.

(** ** What is reported

    The same runs without the shared memory: the types of the results that are
    reported, in their order, and how the processes end. *)
Definition upd (t : Z) (r : results) : results := default r (update_results t (Some r)).
Definition count_from (ts : list Z) (r : results) : results := fold_left (fun r t => upd t r) ts r.

Definition vres_trace (ttype : Z) (long : bool) : list Z :=
  (if long then [TWARN] else []) ++ [TTYPE_RESULT ttype].
(** During the cleanup TBROK counts as a warning. *)
Definition cvres_trace (ttype : Z) (long : bool) : list Z :=
  (if long then [TWARN] else []) ++ [if TTYPE_RESULT ttype =? TBROK then TWARN else TTYPE_RESULT ttype].

(** The types that count as a result of a test. *)
Definition is_result (t : Z) : bool := (t =? TPASS) || (t =? TFAIL) || (t =? TCONF) || (t =? TBROK).

Section Reports.
Context (cleanup : list act).

Fixpoint cleanup_reports (acts : list act) : list Z * option exit_status :=
  match acts with
  | [] => ([], None)
  | ARes t long :: k | ABrk t long :: k =>
      match res_name t with
      | None => ([TWARN], Some (Signaled SIGABRT))
      | Some _ =>
          let '(ts, st) := cleanup_reports k in
          (match acts with ARes _ _ :: _ => vres_trace t long | _ => cvres_trace t long end ++ ts, st)
      end
  | AKill sig :: _ => ([], Some (Signaled sig))
  end.
Definition brk_reports (ttype : Z) (long : bool) : list Z * exit_status :=
  let '(t, long) := match res_name ttype with None => (TBROK, false) | Some _ => (ttype, long) end in
  let '(ts, st) := cleanup_reports cleanup in (vres_trace t long ++ ts, default (Exited (TTYPE_RESULT t)) st).
(** [tst_brk] after [ts]. *)
Definition then_brk (ts : list Z) (t : Z) (long : bool) : list Z * option exit_status :=
  let '(us, st) := brk_reports t long in (ts ++ us, Some st).
Fixpoint acts_reports (acts : list act) : list Z * option exit_status :=
  match acts with
  | [] => ([], None)
  | ARes t long :: k =>
      match res_name t with
      | None => then_brk [] TBROK false
      | Some _ => let '(ts, st) := acts_reports k in (vres_trace t long ++ ts, st)
      end
  | ABrk t long :: _ => then_brk [] t long
  | AKill sig :: _ => ([], Some (Signaled sig))
  end.
(** A call that reports no result is broken. *)
Definition call_reports (c : call) : list Z * option exit_status :=
  let '(ts, st) := acts_reports (c_acts c) in
  match st with
  | Some s => (ts, Some s)
  | None =>
      match tst_reap_children (c_waits c) with
      | Some (t, _) => then_brk ts t false
      | None => if existsb is_result ts then (ts, None) else then_brk ts TBROK false
      end
  end.
Fixpoint tests_reports (script : nat -> call) (tcnt n : nat) : list Z * option exit_status :=
  match tcnt with
  | O => ([], None)
  | S tcnt =>
      let '(ts, st) := call_reports (script n) in
      match st with Some s => (ts, Some s) | None => let '(us, st) := tests_reports script tcnt (S n) in (ts ++ us, st) end
  end.
(** [rounds] iterations, and as many more as there is time for. *)
Fixpoint loop_reports (fuel : nat) (script : nat -> call) (tcnt : nat) (rounds : nat) (timed : list bool) (n : nat) : list Z * option exit_status :=
  match fuel with
  | O => ([], None)
  | S fuel =>
      if negb (0 <? rounds)%nat && negb (default false (head timed)) then ([], None)
      else
        let '(ts, st) := tests_reports script tcnt n in
        match st with Some s => (ts, Some s) | None => let '(us, st) := loop_reports fuel script tcnt (pred rounds) (tail timed) (n + tcnt) in (ts ++ us, st) end
  end.
End Reports.

Definition testrun_reports (e : testenv) : list Z * exit_status :=
  let '(ts, st) := acts_reports (e_cleanup e) (e_setup e) in
  match st with
  | Some s => (ts, s)
  | None =>
      let '(us, st) := loop_reports (e_cleanup e) (S (Z.to_nat (e_iterations e) + length (e_timed e))) (e_script e) (e_tcnt e) (Z.to_nat (e_iterations e)) (e_timed e) 0 in
      match st with
      | Some s => (ts ++ us, s)
      | None => let '(vs, st) := cleanup_reports (e_cleanup e) in (ts ++ us ++ vs, default (Exited 0) st)
      end
  end.

(** The library process goes on with a return value, or ends with it. *)
Inductive lib_end : Set := Goes (ret : Z) | Ends (ret : Z).

Definition fork_reports (e : testenv) : list Z * lib_end :=
  if negb (e_fork_ok e) then ([TBROK], Ends TBROK)
  else
    let '(ts, st) := testrun_reports e in
    if e_tainted e then (ts ++ [TFAIL], Goes TFAIL)
    else match st with Exited code => (ts, Goes code) | Signaled _ => (ts ++ [TBROK], Ends TBROK) end.
Fixpoint per_fs_reports (fss : list testenv) (ret : Z) : list Z * lib_end :=
  match fss with
  | [] => ([], Goes ret)
  | e :: fss =>
      match e_prepare e with
      | Some t => ([TTYPE_RESULT t], Ends (TTYPE_RESULT t))
      | None =>
          let '(ts, o) := fork_reports e in
          match o with
          | Ends ret => (ts, Ends ret)
          | Goes ret => if (ret =? TCONF) || (ret =? 0) then let '(us, o) := per_fs_reports fss ret in (ts ++ us, o) else (ts, Ends ret)
          end
      end
  end.
Definition variant_reports (v : variant) : list Z * lib_end :=
  match v with VRun e => fork_reports e | VFilesystems [] => ([TCONF], Ends TCONF) | VFilesystems fss => per_fs_reports fss 0 end.
(** All reports, and the last return value. *)
Fixpoint run_reports (vs : list variant) (ret : Z) : list Z * Z :=
  match vs with
  | [] => ([], ret)
  | v :: vs =>
      let '(ts, o) := variant_reports v in
      match o with
      | Ends ret => (ts, ret)
      | Goes x =>
          let ret := Z.lor ret x in
          if negb (Z.land ret (Z.lnot TCONF) =? 0) then (ts, ret) else let '(us, ret) := run_reports vs ret in (ts ++ us, ret)
      end
  end.

Example reports_ex : run_reports [VRun pass_env; VFilesystems [fail_env; pass_env]] 0 =
  ([TPASS; TPASS; TPASS; TPASS; TPASS; TPASS; TPASS; TFAIL; TPASS; TPASS; TPASS; TPASS; TPASS; TPASS], 0).
Proof. vm_compute. reflexivity. Qed.

(** ** The shared memory counts the reports *)
Lemma count_app ts us r : count_from (ts ++ us) r = count_from us (count_from ts r).
Proof. apply fold_left_app. Qed.
Lemma vres_count t long r : vres t long r = count_from (vres_trace t long) r.
Proof. unfold vres, tst_vres, vres_trace. by destruct long. Qed.
Lemma warn_type t : TTYPE_RESULT (Z.lor (Z.land t (Z.lnot TTYPE_MASK)) TWARN) = TWARN.
Proof.
  unfold TTYPE_RESULT. rewrite Z.land_lor_distr_l, <-Z.land_assoc. replace (Z.land (Z.lnot TTYPE_MASK) TTYPE_MASK) with 0 by done. by rewrite Z.land_0_r.
Qed.
Lemma cvres_count t long r : cvres t long r = count_from (cvres_trace t long) r.
Proof. unfold cvres, tst_cvres, cvres_trace. destruct (TTYPE_RESULT t =? TBROK); rewrite ?warn_type; by destruct long. Qed.

(** ** Counting *)
Definition cnt (t : Z) (r : results) : Z :=
  if t =? TPASS then passed r else if t =? TCONF then skipped r else if t =? TFAIL then failed r
  else if t =? TWARN then warnings r else broken r.
Definition counted (t : Z) : Prop := t = TPASS \/ t = TCONF \/ t = TFAIL \/ t = TWARN \/ t = TBROK.

Fixpoint occ (t : Z) (ts : list Z) : Z :=
  match ts with [] => 0 | u :: us => (if u =? t then 1 else 0) + occ t us end.

Lemma occ_nonneg t ts : 0 <= occ t ts <= Z.of_nat (length ts).
Proof. induction ts as [|u us IH]; cbn [occ length]; [lia|]. destruct (u =? t); lia. Qed.

Lemma occ_pos t ts : 0 < occ t ts <-> t ∈ ts.
Proof.
  induction ts as [|u us IH]; cbn [occ]; [split; [lia|by intros ?%not_elem_of_nil]|].
  rewrite elem_of_cons. pose proof (occ_nonneg t us). destruct (Z.eqb_spec u t) as [->|]; [split; [auto|lia]|].
  rewrite <-IH. split; [lia|]. intros [?|?]; [congruence|lia].
Qed.

Lemma cnt_upd t u r : counted t -> cnt t (upd u r) = if u =? t then inc (cnt t r) else cnt t r.
Proof.
  unfold upd, update_results. intros [->|[->|[->|[->| ->]]]]; cbn [default];
    repeat case_match; bools; subst; try done.
Qed.

(** The counters count, as long as they do not wrap. *)
Lemma cnt_count t ts : counted t -> forall r, 0 <= cnt t r -> cnt t r + Z.of_nat (length ts) < 2 ^ 31 ->
  cnt t (count_from ts r) = cnt t r + occ t ts.
Proof.
  intros Ht. induction ts as [|u us IH]; intros r H0 Hlt; cbn [count_from fold_left occ length] in *; [lia|].
  fold (count_from us (upd u r)). pose proof (cnt_upd t u r Ht) as Hu.
  assert (Hinc : inc (cnt t r) = cnt t r + 1) by (unfold inc; rewrite wrap_s_id; simpl in *; lia).
  destruct (u =? t); rewrite IH; rewrite ?Hu, ?Hinc; lia.
Qed.

Lemma counts_zero t ts : counted t -> Z.of_nat (length ts) < 2 ^ 31 ->
  (cnt t (count_from ts results0) =? 0) = negb (bool_decide (t ∈ ts)).
Proof.
  intros Ht Hl. assert (H0 : cnt t results0 = 0) by (destruct Ht as [->|[->|[->|[->| ->]]]]; done).
  rewrite cnt_count by (try done; rewrite H0; lia). rewrite H0, Z.add_0_l.
  pose proof (occ_pos t ts) as Hp. pose proof (occ_nonneg t ts).
  case_bool_decide as Hin; cbn; [apply Z.eqb_neq; apply Hp in Hin; lia|apply Z.eqb_eq].
  destruct (Z.eq_dec (occ t ts) 0); [done|]. exfalso. apply Hin, Hp. lia.
Qed.

(** Counters that are equal: no result was reported. *)
Lemma equal_counts ts0 ts : Z.of_nat (length (ts0 ++ ts)) < 2 ^ 31 ->
  results_equal (count_from ts0 results0) (count_from (ts0 ++ ts) results0) = negb (existsb is_result ts).
Proof.
  intros Hl. rewrite length_app in Hl.
  assert (H : forall t, counted t -> (cnt t (count_from ts0 results0) =? cnt t (count_from (ts0 ++ ts) results0)) = negb (bool_decide (t ∈ ts))).
  { intros t Ht. assert (H0 : cnt t results0 = 0) by (destruct Ht as [->|[->|[->|[->| ->]]]]; done).
    pose proof (occ_nonneg t ts0). rewrite count_app, (cnt_count t ts) by (try done; rewrite cnt_count by (try done; lia); lia).
    rewrite cnt_count by (try done; lia). rewrite H0. pose proof (occ_nonneg t ts). pose proof (occ_pos t ts).
    case_bool_decide; cbn; [apply Z.eqb_neq; assert (0 < occ t ts) by tauto; lia|]. apply Z.eqb_eq. destruct (Z.eq_dec (occ t ts) 0); [lia|]. assert (t ∈ ts) by (apply occ_pos; lia). done. }
  unfold results_equal. change passed with (cnt TPASS). change failed with (cnt TFAIL). change skipped with (cnt TCONF). change broken with (cnt TBROK).
  rewrite !H by (unfold counted; tauto). rewrite !negb_involutive.
  assert (E : existsb is_result ts = bool_decide (TPASS ∈ ts) || bool_decide (TFAIL ∈ ts) || bool_decide (TCONF ∈ ts) || bool_decide (TBROK ∈ ts)).
  { apply eq_bool_prop_intro. rewrite <-!bool_decide_or, bool_decide_spec, Is_true_true, existsb_exists. setoid_rewrite <-list_elem_of_In. unfold is_result.
    setoid_rewrite orb_true_iff. setoid_rewrite orb_true_iff. setoid_rewrite orb_true_iff. setoid_rewrite Z.eqb_eq. naive_solver. }
  rewrite E. by destruct (bool_decide (TPASS ∈ ts)), (bool_decide (TFAIL ∈ ts)), (bool_decide (TCONF ∈ ts)), (bool_decide (TBROK ∈ ts)).
Qed.

(** ** The runs report what they should *)

(** The results [r] after the reports [ts]. *)
Definition after (r : results) {A} (o : list Z * A) : results * A := (count_from (fst o) r, snd o).
Lemma after_app r ts {A} (us : list Z) (a : A) : after (count_from ts r) (us, a) = after r (ts ++ us, a).
Proof. unfold after. cbn. by rewrite count_app. Qed.

Section Refine.
Context (cleanup : list act).

Lemma cleanup_refines acts : forall r, do_test_cleanup acts r = after r (cleanup_reports acts).
Proof.
  induction acts as [|[t long|t long|sig] acts IH]; intros r; cbn [do_test_cleanup cleanup_reports]; [done|..|done]; (destruct (res_name t); [|by rewrite cvres_count]);
    rewrite IH, ?vres_count, ?cvres_count; destruct (cleanup_reports acts) as [ts st]; apply after_app.
Qed.
Lemma brk_refines t long r : tst_vbrk cleanup t long r = after r (brk_reports cleanup t long).
Proof.
  unfold tst_vbrk, brk_reports. destruct (match res_name t with None => _ | Some _ => _ end) as [t' long']. rewrite cleanup_refines, vres_count.
  destruct (cleanup_reports cleanup) as [ts st]. unfold after. cbn. by rewrite count_app.
Qed.
Lemma then_brk_refines ts t long r : (let '(r', st) := tst_vbrk cleanup t long (count_from ts r) in (r', Some st)) = after r (then_brk cleanup ts t long).
Proof. rewrite brk_refines. unfold then_brk. destruct (brk_reports cleanup t long) as [us st]. unfold after. cbn. by rewrite count_app. Qed.
Lemma acts_refines acts : forall r, run_acts cleanup acts r = after r (acts_reports cleanup acts).
Proof.
  induction acts as [|[t long|t long|sig] acts IH]; intros r; cbn [run_acts acts_reports]; [done| |apply (then_brk_refines [])|done].
  destruct (res_name t); [|apply (then_brk_refines [])]. rewrite IH, vres_count. destruct (acts_reports cleanup acts) as [ts st]. apply after_app.
Qed.

(** From here on the counters must not wrap. *)
Definition fits (ts : list Z) : Prop := Z.of_nat (length ts) < 2 ^ 31.
Lemma fits_prefix ts us : fits (ts ++ us) -> fits ts.
Proof. unfold fits. rewrite length_app. lia. Qed.
Local Abbreviation counts ts := (count_from ts results0).

Lemma call_refines ts c : fits (ts ++ fst (call_reports cleanup c)) -> run_call cleanup c (counts ts) = after (counts ts) (call_reports cleanup c).
Proof.
  unfold run_call, call_reports. rewrite acts_refines. destruct (acts_reports cleanup (c_acts c)) as [us [st|]] eqn:E; [done|]. unfold after at 1. cbn [fst snd]. intros Hf.
  destruct (tst_reap_children (c_waits c)) as [[t why]|]; [apply then_brk_refines|]. rewrite <-count_app, equal_counts.
  - destruct (existsb is_result us); cbn [negb]; [by rewrite count_app|]. rewrite count_app. apply then_brk_refines.
  - destruct (existsb is_result us); [done|]. unfold then_brk in Hf. destruct (brk_reports cleanup TBROK false) as [vs st]. cbn [fst] in Hf. rewrite app_assoc in Hf. by eapply fits_prefix.
Qed.

Lemma tests_refines script tcnt : forall ts n, fits (ts ++ fst (tests_reports cleanup script tcnt n)) ->
  run_tests cleanup script tcnt n (counts ts) = after (counts ts) (tests_reports cleanup script tcnt n).
Proof.
  induction tcnt as [|tcnt IH]; intros ts n Hf; [done|]. cbn [run_tests tests_reports] in *. destruct (call_reports cleanup (script n)) as [us st] eqn:E.
  assert (Hu : fits (ts ++ us)). { destruct st; [done|]. destruct (tests_reports cleanup script tcnt (S n)) as [vs st]. cbn [fst] in Hf. rewrite app_assoc in Hf. by eapply fits_prefix. }
  rewrite call_refines, E by by rewrite E. unfold after at 1. cbn [fst snd]. destruct st as [s|]; [done|]. rewrite <-count_app, IH; destruct (tests_reports cleanup script tcnt (S n)) as [vs st].
  - rewrite count_app. apply after_app.
  - cbn [fst] in *. by rewrite <-app_assoc.
Qed.

(** The loop ends within its fuel. *)
Lemma loop_refines fuel : forall script tcnt i iterations timed n ts, 0 <= i -> (Z.to_nat (iterations - i) + length timed < fuel)%nat ->
  let o := loop_reports cleanup fuel script tcnt (Z.to_nat (iterations - i)) timed n in fits (ts ++ fst o) ->
  testrun_loop cleanup fuel script tcnt i iterations timed n (counts ts) = Ok (after (counts ts) o).
Proof.
  induction fuel as [|fuel IH]; intros script tcnt i iterations timed n ts Hi Hfuel o Hf; [lia|]. unfold o in *. clear o. cbn [testrun_loop loop_reports] in *.
  assert (Ec : (match timed with b :: _ => (i <? iterations) || b | [] => i <? iterations end) = (0 <? Z.to_nat (iterations - i))%nat || default false (head timed)).
  { replace (0 <? Z.to_nat (iterations - i))%nat with (i <? iterations) by (destruct (Z.ltb_spec i iterations), (Nat.ltb_spec 0 (Z.to_nat (iterations - i))); lia || done).
    destruct timed; [by rewrite orb_false_r|done]. }
  set (i' := if i <? iterations then i + 1 else i).
  assert (E : (let '(j, cont) := if i <? iterations then (i + 1, true) else (i, false) in (j, match timed with b :: _ => cont || b | [] => cont end)) =
              (i', (0 <? Z.to_nat (iterations - i))%nat || default false (head timed))) by (rewrite <-Ec; unfold i'; by destruct (i <? iterations)).
  destruct (if i <? iterations then (i + 1, true) else (i, false)) as [j cont]. injection E as -> ->. rewrite negb_orb.
  destruct (negb (0 <? Z.to_nat (iterations - i))%nat && negb (default false (head timed))) eqn:Estop; [done|].
  destruct (tests_reports cleanup script tcnt n) as [us st] eqn:Eu.
  assert (Hr : Z.to_nat (iterations - i') = pred (Z.to_nat (iterations - i))) by (unfold i'; destruct (Z.ltb_spec i iterations); lia). rewrite <-Hr in *.
  assert (Hu : fits (ts ++ us)). { destruct st; [done|]. destruct (loop_reports cleanup fuel _ _ _ _ _) as [vs st]. cbn [fst] in Hf. rewrite app_assoc in Hf. by eapply fits_prefix. }
  rewrite tests_refines, Eu by by rewrite Eu. unfold after at 1. cbn [fst snd]. destruct st as [s|]; [done|]. rewrite <-count_app, IH.
  - destruct (loop_reports cleanup fuel _ _ _ _ _) as [vs st]. rewrite count_app. by rewrite after_app.
  - unfold i'. destruct (i <? iterations); lia.
  - apply andb_false_iff in Estop as [E1%negb_false_iff%Nat.ltb_lt|E1%negb_false_iff]; rewrite Hr; destruct timed as [|b timed]; cbn [tail length] in *; (lia || done).
  - destruct (loop_reports cleanup fuel _ _ _ _ _) as [vs st]. cbn [fst] in *. by rewrite <-app_assoc.
Qed.
End Refine.
Local Abbreviation counts ts := (count_from ts results0).

Lemma testrun_refines e ts : fits (ts ++ fst (testrun_reports e)) -> testrun e (counts ts) = Ok (after (counts ts) (testrun_reports e)).
Proof.
  unfold testrun, testrun_reports. rewrite acts_refines. destruct (acts_reports (e_cleanup e) (e_setup e)) as [us [st|]]; [done|]. unfold after at 1. cbn [fst snd].
  set (fuel := S _). pose proof (loop_refines (e_cleanup e) fuel (e_script e) (e_tcnt e) 0 (e_iterations e) (e_timed e) 0 (ts ++ us) ltac:(lia)) as H.
  rewrite Z.sub_0_r in H. specialize (H ltac:(unfold fuel; lia)). destruct (loop_reports (e_cleanup e) fuel _ _ _ _ _) as [vs st]. cbv zeta in H. cbn [fst] in H. intros Hf.
  rewrite <-count_app, H; cycle 1. { rewrite <-app_assoc. destruct st; [done|]. destruct (cleanup_reports (e_cleanup e)) as [ws st]. cbn [fst] in Hf. rewrite !app_assoc in *. by eapply fits_prefix. }
  unfold after at 1. cbn [mbind res_bind fst snd]. destruct st as [s|]; [by rewrite count_app; unfold after; cbn; rewrite !count_app|].
  rewrite cleanup_refines. destruct (cleanup_reports (e_cleanup e)) as [ws st]. unfold after. cbn. by rewrite !count_app.
Qed.

(** ** The library process *)

(** The library process [o] reports [ts] and goes on or ends. *)
Definition lib_refines (r : results) (o : L (Z * results)) (rep : list Z * lib_end) : Prop :=
  let r' := count_from (fst rep) r in
  o = match snd rep with Goes ret => Ok (ret, r') | Ends ret => Err (do_exit ret (Some r'), r') end.

Lemma lib_brk_refines t r : lib_refines r (lib_brk t r) ([TTYPE_RESULT t], Ends (TTYPE_RESULT t)).
Proof. unfold lib_refines, lib_brk, lib_exit. by rewrite vres_count. Qed.
Lemma lib_refines_app r ts o us x : lib_refines (count_from ts r) o (us, x) -> lib_refines r o (ts ++ us, x).
Proof. unfold lib_refines. cbn [fst snd]. by rewrite count_app. Qed.

Lemma fork_refines e ts : fits (ts ++ fst (fork_reports e)) -> lib_refines (counts ts) (fork_testrun e (counts ts)) (fork_reports e).
Proof.
  unfold fork_testrun, fork_reports. destruct (e_fork_ok e); cbn [negb]; [|intros _; apply (lib_brk_refines (Z.lor TBROK TERRNO))].
  destruct (testrun_reports e) as [us st] eqn:E. intros Hf. assert (Hu : fits (ts ++ us)).
  { destruct (e_tainted e); [|destruct st]; cbn [fst] in Hf; rewrite ?app_assoc in Hf; try done; by eapply fits_prefix. }
  rewrite testrun_refines, E by by rewrite E. unfold after. cbn [fst snd]. destruct (e_tainted e).
  - apply lib_refines_app. unfold lib_refines. by rewrite vres_count.
  - destruct st as [code|sig]; [|apply lib_refines_app, lib_brk_refines]. by destruct (Z.eqb_spec code 0) as [->|].
Qed.

Lemma per_fs_refines fss : forall ret ts, fits (ts ++ fst (per_fs_reports fss ret)) -> lib_refines (counts ts) (per_fs_loop fss ret (counts ts)) (per_fs_reports fss ret).
Proof.
  induction fss as [|e fss IH]; intros ret ts Hf; [done|]. cbn [per_fs_loop per_fs_reports] in *. destruct (e_prepare e) as [t|]; [apply lib_brk_refines|].
  destruct (fork_reports e) as [us o] eqn:E. assert (Hu : fits (ts ++ us)).
  { destruct o as [x|]; [|done]. destruct (_ || _); [|done]. destruct (per_fs_reports fss x). cbn [fst] in Hf. rewrite app_assoc in Hf. by eapply fits_prefix. }
  pose proof (fork_refines e ts) as H. rewrite E in H. rewrite (H Hu). cbn [fst snd]. clear H. destruct o as [x|x]; cbn [mbind res_bind]; [|done].
  destruct ((x =? TCONF) || (x =? 0)); [|done]. specialize (IH x (ts ++ us)). destruct (per_fs_reports fss x) as [vs o]. apply lib_refines_app. rewrite <-count_app. apply IH.
  cbn [fst] in *. by rewrite <-app_assoc.
Qed.

Lemma run_refines vs : forall ret ts, fits (ts ++ fst (run_reports vs ret)) ->
  let o := run_reports vs ret in ('(ret, r) ← variants_loop vs ret (counts ts); lib_exit (A := unit) ret r) = Err (do_exit (snd o) (Some (counts (ts ++ fst o))), counts (ts ++ fst o)).
Proof.
  induction vs as [|v vs IH]; intros ret ts Hf; [cbn; by rewrite app_nil_r|]. cbn [variants_loop run_reports] in *. destruct (variant_reports v) as [us o] eqn:E.
  assert (Hu : fits (ts ++ us)).
  { destruct o as [x|]; [|done]. destruct (negb _); [done|]. destruct (run_reports vs (Z.lor ret x)). cbn [fst] in Hf. rewrite app_assoc in Hf. by eapply fits_prefix. }
  assert (H : lib_refines (counts ts) (match v with VRun e => fork_testrun e (counts ts) | VFilesystems fss => run_tcases_per_fs fss (counts ts) end) (us, o)).
  { rewrite <-E. destruct v as [e|fss]; [apply fork_refines; cbn in E; by rewrite E|]. unfold run_tcases_per_fs. destruct fss as [|e fss]; [apply (lib_brk_refines TCONF)|].
    apply per_fs_refines. unfold variant_reports in E. by rewrite E. }
  rewrite H. cbn [fst snd]. clear H. destruct o as [x|x]; cbn [mbind res_bind]; [|by rewrite count_app]. destruct (negb _); [cbn; by rewrite count_app|].
  specialize (IH (Z.lor ret x) (ts ++ us)). destruct (run_reports vs (Z.lor ret x)) as [ws ret']. cbn [fst snd] in *. rewrite <-count_app, IH by by rewrite <-app_assoc. by rewrite <-app_assoc.
Qed.

(** ** Exit codes are backed by reports *)
Definition valid_type (t : Z) : Prop := t = TPASS \/ t = TFAIL \/ t = TBROK \/ t = TWARN \/ t = TINFO \/ t = TCONF.
Lemma res_name_valid t : res_name t <> None -> valid_type (TTYPE_RESULT t).
Proof.
  unfold res_name, valid_type. set (u := TTYPE_RESULT t). intros H.
  destruct (Z.eqb_spec u TPASS), (Z.eqb_spec u TFAIL), (Z.eqb_spec u TBROK), (Z.eqb_spec u TCONF), (Z.eqb_spec u TWARN), (Z.eqb_spec u TINFO); tauto.
Qed.

(** A code that was reported, or 0 after a result. *)
Definition backed (ts : list Z) (code : Z) : Prop := (code ∈ ts /\ valid_type code) \/ (code = 0 /\ existsb is_result ts = true).
Lemma backed_app ts us code : backed us code -> backed (ts ++ us) code.
Proof. intros [[H1 H2]|[H1 H2]]; [left; split; [apply elem_of_app; by right|done]|right; split; [done|]]. rewrite existsb_app, H2. apply orb_true_r. Qed.
Lemma backed_app_l ts us code : backed ts code -> backed (ts ++ us) code.
Proof. intros [[H1 H2]|[H1 H2]]; [left; split; [apply elem_of_app; by left|done]|right; split; [done|]]. by rewrite existsb_app, H2. Qed.
Lemma backed_zero ts : backed ts 0 -> existsb is_result ts = true.
Proof. intros [[H _]|[_ H]]; [|done]. apply existsb_exists. exists TPASS. by rewrite <-list_elem_of_In. Qed.
Lemma backed_bit ts code i : backed ts code -> 0 <= i < 3 -> Z.testbit code i = true -> 2 ^ i ∈ ts.
Proof.
  intros [[Hin Hv]|[-> _]] Hi Hb; [|by rewrite Z.testbit_0_l in Hb]. assert (Hi' : i = 0 \/ i = 1 \/ i = 2) by lia.
  destruct Hv as [->|[->|[->|[->|[->| ->]]]]], Hi' as [->|[->| ->]]; try done.
Qed.

Section Backed.
Context (cleanup : list act).
(** What a process that ended, or did not, has reported. *)
Definition ended (o : list Z * option exit_status) : Prop := forall code, snd o = Some (Exited code) -> backed (fst o) code.

Lemma cleanup_not_exited acts code : snd (cleanup_reports acts) <> Some (Exited code).
Proof. induction acts as [|[t long|t long|sig] acts IH]; cbn [cleanup_reports]; [done|..|done]; destruct (res_name t); [|done| |done]; by destruct (cleanup_reports acts). Qed.
Lemma then_brk_ended ts t long : ended (then_brk cleanup ts t long) /\ snd (then_brk cleanup ts t long) <> None.
Proof.
  unfold then_brk, brk_reports. set (tl := match res_name t with None => (TBROK, false) | Some _ => (t, long) end).
  assert (Hv : valid_type (TTYPE_RESULT (fst tl))) by (unfold tl; destruct (res_name t) eqn:E; [apply res_name_valid; cbn; by rewrite E|right; right; by left]).
  destruct tl as [t' long']. pose proof (cleanup_not_exited cleanup) as Hc. destruct (cleanup_reports cleanup) as [us st]. split; [|done]. intros code [= H]. cbn [fst snd] in *.
  destruct st as [st|]; cbn in H; [subst st; by destruct (Hc code)|]. injection H as <-. apply backed_app, backed_app_l. left. split; [|done]. unfold vres_trace. apply elem_of_app. right. left.
Qed.
Lemma acts_ended acts : ended (acts_reports cleanup acts).
Proof.
  induction acts as [|[t long|t long|sig] acts IH]; cbn [acts_reports]; [done| |apply then_brk_ended|done]. destruct (res_name t); [|apply then_brk_ended].
  destruct (acts_reports cleanup acts) as [ts st]. intros code H. by apply backed_app, IH.
Qed.
(** A call that returns has reported a result. *)
Lemma call_ended c : ended (call_reports cleanup c) /\ (snd (call_reports cleanup c) = None -> existsb is_result (fst (call_reports cleanup c)) = true).
Proof.
  unfold call_reports. pose proof (acts_ended (c_acts c)) as H. destruct (acts_reports cleanup (c_acts c)) as [ts [s|]]; [done|].
  assert (Hb : forall t, ended (then_brk cleanup ts t false) /\ (snd (then_brk cleanup ts t false) = None -> existsb is_result (fst (then_brk cleanup ts t false)) = true)).
  { intros t. destruct (then_brk_ended ts t false) as [H1 H2]. split; [done|]. by intros ?. }
  destruct (tst_reap_children (c_waits c)) as [[t why]|]; [apply Hb|]. destruct (existsb is_result ts) eqn:E; [done|apply Hb].
Qed.
Lemma tests_ended script tcnt : forall n, ended (tests_reports cleanup script tcnt n) /\
  (snd (tests_reports cleanup script tcnt n) = None -> (0 < tcnt)%nat -> existsb is_result (fst (tests_reports cleanup script tcnt n)) = true).
Proof.
  induction tcnt as [|tcnt IH]; intros n; cbn [tests_reports]; [split; [done|lia]|]. destruct (call_ended (script n)) as [H1 H2]. destruct (call_reports cleanup (script n)) as [ts [s|]]; [done|].
  destruct (IH (S n)) as [H3 _]. destruct (tests_reports cleanup script tcnt (S n)) as [us st]. split; [intros code H; by apply backed_app, H3|]. intros _ _. cbn [fst snd] in *. by rewrite existsb_app, H2.
Qed.
Lemma loop_ended fuel script tcnt : forall rounds timed n, ended (loop_reports cleanup fuel script tcnt rounds timed n) /\
  (snd (loop_reports cleanup fuel script tcnt rounds timed n) = None -> (0 < fuel)%nat -> (0 < tcnt)%nat -> (0 < rounds)%nat -> existsb is_result (fst (loop_reports cleanup fuel script tcnt rounds timed n)) = true).
Proof.
  induction fuel as [|fuel IH]; intros rounds timed n; cbn [loop_reports]; [split; [done|lia]|]. destruct (negb (0 <? rounds)%nat && _) eqn:E.
  { split; [done|]. intros _ _ _ Hr. apply Nat.ltb_lt in Hr. by rewrite Hr in E. }
  destruct (tests_ended script tcnt n) as [H1 H2]. destruct (tests_reports cleanup script tcnt n) as [ts [s|]]; [done|]. destruct (IH (pred rounds) (tail timed) (n + tcnt)%nat) as [H3 _].
  destruct (loop_reports cleanup fuel _ _ _ _ _) as [us st]. split; [intros code H; by apply backed_app, H3|]. intros _ _ Ht _. cbn [fst snd] in *. by rewrite existsb_app, H2.
Qed.
End Backed.

(** A test that runs: at least one iteration with at least one call; when the
    device cannot be prepared, the library says so with one of its types. *)
Definition runs (e : testenv) : Prop :=
  (0 < e_tcnt e)%nat /\ 0 < e_iterations e /\ match e_prepare e with Some t => res_name t <> None | None => True end.
Definition variant_runs (v : variant) : Prop :=
  match v with VRun e => runs e | VFilesystems fss => Forall runs fss end.

Lemma testrun_ended e code : runs e -> snd (testrun_reports e) = Exited code -> backed (fst (testrun_reports e)) code.
Proof.
  intros (Ht & Hi & _). unfold testrun_reports. pose proof (acts_ended (e_cleanup e) (e_setup e)) as H. destruct (acts_reports (e_cleanup e) (e_setup e)) as [ts [s|]]; [intros E; apply H; cbn in *; by rewrite E|].
  set (fuel := S _). destruct (loop_ended (e_cleanup e) fuel (e_script e) (e_tcnt e) (Z.to_nat (e_iterations e)) (e_timed e) 0) as [H1 H2].
  destruct (loop_reports (e_cleanup e) fuel _ _ _ _ _) as [us [s|]]; [intros E; cbn in *; apply backed_app, H1; cbn; by rewrite E|].
  pose proof (cleanup_not_exited (e_cleanup e) code) as Hc. destruct (cleanup_reports (e_cleanup e)) as [vs [s|]]; cbn in *; [intros ->; by destruct Hc|]. intros [= <-].
  right. split; [done|]. rewrite !existsb_app, H2 by (unfold fuel; lia || done). by rewrite orb_true_r.
Qed.

Definition lib_backed (o : list Z * lib_end) : Prop := match snd o with Goes ret | Ends ret => backed (fst o) ret end.
Lemma backed_last ts t : valid_type t -> backed (ts ++ [t]) t.
Proof. intros H. left. split; [apply elem_of_app; right; left|done]. Qed.

Lemma fork_backed e : runs e -> lib_backed (fork_reports e).
Proof.
  intros He. unfold fork_reports. destruct (e_fork_ok e); cbn [negb]; [|apply (backed_last []); unfold valid_type; tauto]. pose proof (testrun_ended e) as H.
  destruct (testrun_reports e) as [ts st]. destruct (e_tainted e); [apply backed_last; unfold valid_type; tauto|]. destruct st as [code|sig]; [by apply (H code)|apply backed_last; unfold valid_type; tauto].
Qed.
Lemma per_fs_backed fss : forall ret, Forall runs fss -> fss <> [] -> lib_backed (per_fs_reports fss ret).
Proof.
  induction fss as [|e fss IH]; intros ret Hf Hne; [done|]. cbn [per_fs_reports]. apply Forall_cons in Hf as [He Hf]. pose proof He as (_ & _ & Hp).
  destruct (e_prepare e) as [t|]; [apply (backed_last []); by apply res_name_valid|]. pose proof (fork_backed e He) as H. destruct (fork_reports e) as [ts [x|x]]; [|done].
  destruct (_ || _); [|done]. destruct fss as [|e' fss]; [cbn; rewrite app_nil_r; exact H|]. specialize (IH x Hf ltac:(done)). destruct (per_fs_reports (e' :: fss) x) as [us o].
  unfold lib_backed in *. cbn [fst snd] in *. destruct o; by apply backed_app.
Qed.
Lemma variant_backed v : variant_runs v -> lib_backed (variant_reports v).
Proof. destruct v as [e|[|e fss]]; [apply fork_backed|intros _; apply (backed_last []); unfold valid_type; tauto|]. intros H. by apply per_fs_backed. Qed.

(** The last return value: its bits were reported, and it is 0 only after a
    result. *)
Lemma run_backed vs : forall ret, Forall variant_runs vs -> ret = 0 \/ ret = TCONF -> let o := run_reports vs ret in
  (snd o = 0 -> vs <> [] -> existsb is_result (fst o) = true) /\ (forall i, 0 <= i < 3 -> Z.testbit (snd o) i = true -> 2 ^ i ∈ fst o).
Proof.
  assert (Hbit : forall ret i, ret = 0 \/ ret = TCONF -> 0 <= i < 3 -> Z.testbit ret i = false).
  { intros ret i [->| ->] Hi; [by rewrite Z.testbit_0_l|]. assert (Hi' : i = 0 \/ i = 1 \/ i = 2) by lia. by destruct Hi' as [->|[->| ->]]. }
  induction vs as [|v vs IH]; intros ret Hf Hr; cbn [run_reports].
  { split; [done|]. intros i Hi. cbn. by rewrite Hbit. }
  apply Forall_cons in Hf as [Hv Hf]. pose proof (variant_backed v Hv) as H. destruct (variant_reports v) as [ts [x|x]]; unfold lib_backed in H; cbn [fst snd] in H; cycle 1.
  { split; cbn; [intros -> _; by apply backed_zero|]. intros i Hi. by apply backed_bit. }
  assert (Hx : forall i, 0 <= i < 3 -> Z.testbit (Z.lor ret x) i = true -> 2 ^ i ∈ ts) by (intros i Hi; rewrite Z.lor_spec, Hbit by done; by apply backed_bit).
  assert (H0 : Z.lor ret x = 0 -> existsb is_result ts = true) by (intros [_ ->]%Z.lor_eq_0_iff; by apply backed_zero).
  destruct (negb _) eqn:E; [by split; [intros ? _; apply H0|]|]. apply negb_false_iff, Z.eqb_eq in E.
  assert (Hr' : Z.lor ret x = 0 \/ Z.lor ret x = TCONF).
  { destruct H as [[_ Hvx]|[-> _]], Hr as [->| ->]; cbn in *; auto; destruct Hvx as [->|[->|[->|[->|[->| ->]]]]]; auto; done. }
  destruct (IH (Z.lor ret x) Hf Hr') as [I1 I2]. destruct (run_reports vs (Z.lor ret x)) as [us ret'] eqn:Eu. cbn [fst snd] in *. split.
  - intros -> _. rewrite existsb_app. destruct vs as [|v' vs]; [cbn in Eu; injection Eu as <- E0; by rewrite H0|]. rewrite I1 by done. apply orb_true_r.
  - intros i Hi Hb. apply elem_of_app. right. by apply I2.
Qed.

(** The exit code in terms of what was reported. *)
Lemma do_exit_trace ret ts : Z.of_nat (length ts) < 2 ^ 31 ->
  do_exit ret (Some (count_from ts results0))
  = let has t := bool_decide (t ∈ ts) in
    let ret := if has TPASS && (ret =? TCONF) then 0 else ret in
    let ret := if has TFAIL then Z.lor ret TFAIL else ret in
    let ret := if has TCONF && negb (has TPASS) then Z.lor ret TCONF else ret in
    let ret := if has TWARN then Z.lor ret TWARN else ret in
    if has TBROK then Z.lor ret TBROK else ret.
Proof.
  intros Hl. unfold do_exit. set (r := count_from ts results0).
  change (passed r) with (cnt TPASS r). change (skipped r) with (cnt TCONF r).
  change (failed r) with (cnt TFAIL r). change (warnings r) with (cnt TWARN r).
  change (broken r) with (cnt TBROK r). unfold r.
  rewrite !counts_zero by (done || (unfold counted; tauto)). rewrite !negb_involutive. done.
Qed.

Lemma lor_if_0 (b : bool) x y : (if b then Z.lor x y else x) = 0 -> y <> 0 -> x = 0 /\ b = false.
Proof. destruct b; [|done]. intros [_ ?]%Z.lor_eq_0_iff. done. Qed.

(** Exit code 0 without a pass: nothing was reported at all. *)
Lemma do_exit_zero ret ts : Z.of_nat (length ts) < 2 ^ 31 -> TPASS ∉ ts ->
  do_exit ret (Some (count_from ts results0)) = 0 -> ret = 0 /\ existsb is_result ts = false.
Proof.
  intros Hl Hp H. rewrite do_exit_trace in H by done. cbv beta zeta in H.
  rewrite (bool_decide_eq_false_2 (TPASS ∈ ts)) in H by done. cbn [andb negb] in H.
  apply lor_if_0 in H as [H Hb%bool_decide_eq_false]; [|done].
  apply lor_if_0 in H as [H _]; [|done]. rewrite andb_true_r in H.
  apply lor_if_0 in H as [H Hc%bool_decide_eq_false]; [|done].
  apply lor_if_0 in H as [-> Hfl%bool_decide_eq_false]; [|done]. split; [done|].
  apply not_true_iff_false. rewrite existsb_exists. intros (t & Hin%list_elem_of_In & Ht).
  unfold is_result in Ht. rewrite !orb_true_iff, !Z.eqb_eq in Ht.
  destruct Ht as [[[->| ->]| ->]| ->]; done.
Qed.

Lemma bit_if (b : bool) x y i : Z.testbit (if b then Z.lor x y else x) i = Z.testbit x i || (b && Z.testbit y i).
Proof. destruct b; [by rewrite Z.lor_spec|by rewrite orb_false_r]. Qed.

(** The three bits of failure. *)
Lemma do_exit_bits ret ts i : Z.of_nat (length ts) < 2 ^ 31 -> 0 <= i < 3 -> (Z.testbit ret i = true -> 2 ^ i ∈ ts) ->
  Z.testbit (do_exit ret (Some (count_from ts results0))) i = true <-> 2 ^ i ∈ ts.
Proof.
  intros Hl Hi Hret. rewrite do_exit_trace by done. cbv zeta. rewrite !bit_if. set (ret' := if _ && (ret =? TCONF) then 0 else ret).
  assert (Hret' : Z.testbit ret' i = true -> 2 ^ i ∈ ts) by (unfold ret'; destruct (_ && _); [by rewrite Z.testbit_0_l|done]). clearbody ret'.
  assert (Hi' : i = 0 \/ i = 1 \/ i = 2) by lia. destruct Hi' as [->|[->| ->]]; rewrite ?andb_false_r, ?andb_true_r, ?orb_false_r, !orb_true_iff, bool_decide_eq_true; cbn in *; tauto.
Qed.
(** A pass and none of the three. *)
Lemma do_exit_pass ret ts : Z.of_nat (length ts) < 2 ^ 31 -> ret = 0 \/ ret = TCONF -> TPASS ∈ ts -> TFAIL ∉ ts -> TBROK ∉ ts -> TWARN ∉ ts ->
  do_exit ret (Some (count_from ts results0)) = 0.
Proof.
  intros Hl Hr Hp Hf Hb Hw. rewrite do_exit_trace by done. cbv beta zeta. rewrite (bool_decide_eq_true_2 _ Hp), (bool_decide_eq_false_2 _ Hf), (bool_decide_eq_false_2 _ Hb), (bool_decide_eq_false_2 _ Hw).
  rewrite andb_false_r. by destruct Hr as [->| ->].
Qed.

(** ** Properties *)


