(* ===== verification/Timeout.v ===== *)
(** * Timeouts and runtime: the watchdog of [lib/tst_test.c]

    The multipliers of timeout and runtime, the remaining runtime of a test, and
    the signal handlers of the library process that kill a test that does not
    give a sign of life.  [float] is IEEE binary32 ([SpecFloat]). *)

From stdpp Require Import base list strings gmap.
From Stdlib Require Import ZArith Lia SpecFloat.
From S2P Require Import Prelude ParseNum Timer Results.

Local Open Scope Z_scope.

(** ** [float] *)
Definition float := spec_float.
Definition prec : Z := 24.
Definition emax : Z := 128.
Definition float_of_Z (z : Z) : float := binary_normalize prec emax z 0 false.
Definition fmul (a b : float) : float := SFmul prec emax a b.
(** Conversion to an integer type; undefined when the value does not fit. *)
Definition trunc (lo hi : Z) (f : float) : res brk Z :=
  match f with
  | S754_zero _ => Ok 0
  | S754_finite s m e =>
      let a := if 0 <=? e then Z.pos m * 2 ^ e else Z.pos m / 2 ^ (- e) in
      let v := if s then - a else a in
      if (lo <=? v) && (v <=? hi) then Ok v else Fault
  | _ => Fault
  end.
Definition fpositive (f : float) : bool :=
  match f with S754_finite false _ _ | S754_infinity false => true | _ => false end.

Definition float_of_double (d : spec_float) : float :=
  match d with
  | S754_finite s m e => binary_normalize prec emax (if s then Z.neg m else Z.pos m) e s
  | d => d
  end.
Definition double_of_float (f : float) : spec_float :=
  match f with
  | S754_finite s m e => binary_normalize 53 1024 (if s then Z.neg m else Z.pos m) e s
  | f => f
  end.
(** The [double] nearest to [n / 10000], and the [float] the parameters hold. *)
Definition lit (n : Z) : float :=
  float_of_double (SFdiv 53 1024 (binary_normalize 53 1024 n 0 false) (binary_normalize 53 1024 10000 0 false)).

(** ** Multipliers *)
Definition TST_UNLIMITED_RUNTIME : Z := -1.
Definition DEFAULT_TIMEOUT : Z := 30.

(** What [strtod] makes of a string: whether anything was converted, the rest,
    the value and [errno]. *)
Record strtod_answer : Set := mkStrtod { sd_conv : bool; sd_end : cstr; sd_val : spec_float; sd_errno : Z }.

(** The return value and [*val], [None] when it is left alone. *)
Definition tst_parse_float (s : option strtod_answer) (min max : float) : Z * option float :=
  match s with
  | None => (0, None)
  | Some r =>
      if negb (sd_conv r) || negb (bool_decide (sd_end r = [])) then (EINVAL, None)
      else if negb (sd_errno r =? 0) then (sd_errno r, None)
      else if SFltb (double_of_float max) (sd_val r) || SFltb (sd_val r) (double_of_float min) then (ERANGE, None)
      else (0, Some (float_of_double (sd_val r)))
  end.

(** The cached multiplier, positive once it was read; [env] is what [strtod]
    makes of the environment variable, if that is set. *)
Definition parse_mul (mul : float) (env : option strtod_answer) (min max : float) : res brk float :=
  if fpositive mul then Ok mul
  else
    match env with
    | None => Ok (float_of_Z 1)
    | Some r =>
        let '(ret, val) := tst_parse_float (Some r) min max in
        if ret =? 0 then Ok (default mul val) else Err (TBROK, str "Failed to parse")
    end.

(** The new value and the cached multiplier. *)
Definition multiply_runtime (env : option strtod_answer) (runtime_mul : float) (max_runtime : Z) : res brk (Z * float) :=
  if max_runtime <=? 0 then Ok (max_runtime, runtime_mul)
  else
    mul ← parse_mul runtime_mul env (lit 99) (lit 1000000);
    v ← trunc INT_MIN INT_MAX (fmul (float_of_Z max_runtime) mul);
    Ok (v, mul).

Definition tst_multiply_timeout (env : option strtod_answer) (timeout_mul : float) (timeout : Z) : res brk (Z * float) :=
  mul ← parse_mul timeout_mul env (lit 990) (lit 100000000);
  if timeout <? 1 then Err (TBROK, str "timeout must to be >= 1!")
  else
    v ← trunc 0 UINT_MAX (fmul (float_of_Z timeout) mul);
    Ok (v, mul).

(** The conversion [%02u]. *)
Definition dec2 (n : Z) : cstr := if n <? 10 then "0"%ch :: dec n else dec n.

Definition set_timeouts (r : results) (timeout max_runtime : Z) : results :=
  mkResults (passed r) (skipped r) (failed r) (warnings r) (broken r) timeout max_runtime.

Definition set_timeout (env : option strtod_answer) (timeout_mul : float) (r : results) : res brk (results * float * list report) :=
  if max_runtime r =? TST_UNLIMITED_RUNTIME
  then Ok (r, timeout_mul, [(TINFO, str "Timeout per run is disabled")])
  else if max_runtime r <? 0 then Err (TBROK, str "max_runtime must to be >= -1!")
  else
    '(t, mul) ← tst_multiply_timeout env timeout_mul DEFAULT_TIMEOUT;
    let t := wrap_u 32 (t + max_runtime r) in
    Ok (set_timeouts r t (max_runtime r), mul,
        [(TINFO, str "Timeout per run is " ++ dec (t / 3600) ++ str "h " ++ dec2 (t mod 3600 / 60) ++ str "m "
                 ++ dec2 (t mod 60) ++ str "s")]).

(** The heartbeat that follows is a signal to the library process, below. *)
Definition tst_set_max_runtime (renv tenv : option strtod_answer) (rmul tmul : float) (runtime : Z) (r : results)
    : res brk (results * float * float * list report) :=
  '(v, rmul) ← multiply_runtime renv rmul runtime;
  '(r, tmul, log) ← set_timeout tenv tmul (set_timeouts r (timeout r) v);
  Ok (r, rmul, tmul,
      (TINFO, str "Updating max runtime to " ++ dec (wrap_u 32 (Z.quot runtime 3600)) ++ str "h "
              ++ dec2 (wrap_u 32 (Z.quot (Z.rem runtime 3600) 60)) ++ str "m " ++ dec2 (wrap_u 32 (Z.rem runtime 60)) ++ str "s")
      :: log).

(** ** Remaining runtime *)
(** [now0] is the static [now] of the last call. *)
Definition tst_remaining_runtime (long_bits : Z) (r : results) (start now0 : timespec) (a : clock_answer)
    : res brk (Z * list report) :=
  if max_runtime r =? TST_UNLIMITED_RUNTIME then Ok (UINT_MAX, [])
  else if max_runtime r =? 0 then Err (TBROK, str "Runtime not set!")
  else
    let '(now, log) := match a with
                       | inl t => (t, [])
                       | inr _ => (now0, [(Z.lor TWARN TERRNO, str "tst_clock_gettime() failed")])
                       end in
    ms ← tst_timespec_diff_ms long_bits now start;
    let elapsed := wrap_s 32 (Z.quot ms 1000) in
    if elapsed <? max_runtime r then Ok (wrap_u 32 (max_runtime r - elapsed), log) else Ok (0, log).

(** ** The watchdog *)

(** The library process: the pending alarm, the number of times the test was
    killed without effect, the number of SIGKILLs sent to the process group of the
    test, and [_exit].  The timeout is the one set before the test was started. *)
Record watchdog : Set := mkWatchdog { w_alarm : Z; w_retries : Z; w_kills : nat; w_exit : option Z }.

Inductive signal : Set := SigAlarm | SigHeartbeat | SigInt (test_pid : Z).
#[export] Instance signal_eq_dec : EqDecision signal.
Proof. solve_decision. Defined.

Definition alarm_handler (w : watchdog) : watchdog :=
  let n := w_retries w + 1 in
  mkWatchdog 5 n (S (w_kills w)) (if 10 <? n then Some TFAIL else None).
Definition heartbeat_handler (timeout : Z) (w : watchdog) : watchdog :=
  mkWatchdog timeout 0 (w_kills w) (w_exit w).
Definition sigint_handler (test_pid : Z) (w : watchdog) : watchdog :=
  mkWatchdog (w_alarm w) (w_retries w) (if 0 <? test_pid then S (w_kills w) else w_kills w) (w_exit w).

(** A step of the process while it waits for the test. *)
Inductive wstep (timeout : Z) : watchdog -> signal -> watchdog -> Prop :=
| wstep_alarm w : w_exit w = None -> wstep timeout w SigAlarm (alarm_handler w)
| wstep_heartbeat w : w_exit w = None -> wstep timeout w SigHeartbeat (heartbeat_handler timeout w)
| wstep_int w pid : w_exit w = None -> wstep timeout w (SigInt pid) (sigint_handler pid w).
Inductive wsteps (timeout : Z) : watchdog -> list signal -> watchdog -> Prop :=
| wsteps_nil w : wsteps timeout w [] w
| wsteps_snoc w l s w1 w2 : wsteps timeout w l w1 -> wstep timeout w1 s w2 -> wsteps timeout w (l ++ [s]) w2.

(** ** Properties *)

(** Alarms since the last heartbeat. *)
Definition count_alarm (n : Z) (s : signal) : Z :=
  match s with SigAlarm => n + 1 | SigHeartbeat => 0 | SigInt _ => n end.
Definition alarms_since (l : list signal) : Z := fold_left count_alarm l 0.

(** The process when [fork_testrun] has started the test. *)
Definition started (timeout : Z) : watchdog := mkWatchdog timeout 0 0 None.

Lemma alarms_since_snoc l s : alarms_since (l ++ [s]) = count_alarm (alarms_since l) s.
Proof. unfold alarms_since. by rewrite fold_left_app. Qed.

Lemma alarms_since_nonneg l : 0 <= alarms_since l.
Proof.
  induction l as [|s l IH] using rev_ind; [done|]. rewrite alarms_since_snoc. destruct s; cbn; lia.
Qed.

(** The invariant of the waiting process: the retries are the alarms since the
    last heartbeat, it has given up exactly when these are more than ten, and
    the pending alarm is the timeout or the five seconds of a retry. *)
Record wknows (timeout : Z) (l : list signal) (w : watchdog) : Prop := {
  wk_retries : w_retries w = alarms_since l;
  wk_bound : alarms_since l <= 11;
  wk_exit : w_exit w = if 10 <? alarms_since l then Some TFAIL else None;
  wk_kills : (length (filter (fun s => s = SigAlarm) l) <= w_kills w)%nat;
  wk_alarm : w_alarm w = if 0 <? alarms_since l then 5 else timeout
}.

Lemma wstep_knows timeout l w s w' :
  wknows timeout l w -> wstep timeout w s w' -> wknows timeout (l ++ [s]) w'.
Proof.
  intros [Hr Hb He Hk Ha] Hs. pose proof (alarms_since_nonneg l).
  assert (Hle : alarms_since l <= 10).
  { assert (Hx : w_exit w = None) by (by inversion Hs). rewrite Hx in He. destruct (Z.ltb_spec 10 (alarms_since l)); (discriminate || lia). }
  inversion Hs; subst; constructor; rewrite ?alarms_since_snoc, ?filter_app, ?length_app; cbn;
    rewrite ?Hr; try done; try lia; repeat case_match; cbn [length]; done || lia.
Qed.

Lemma wsteps_knows timeout w0 l w : w0 = started timeout -> wsteps timeout w0 l w -> wknows timeout l w.
Proof.
  intros E H. revert E. induction H as [w|w l s w1 w2 _ IH Hs]; intros ->; [by constructor|].
  eauto using wstep_knows.
Qed.

(** C33: the library process gives up on a test exactly when eleven alarms went
    by since the last heartbeat; until then every alarm kills the test's process
    group again, and a heartbeat restores the full timeout. *)
Theorem watchdog_gives_up timeout l w :
  wsteps timeout (started timeout) l w ->
  (w_exit w = Some TFAIL <-> alarms_since l = 11) /\ (w_exit w = None <-> alarms_since l <= 10) /\
  (length (filter (fun s => s = SigAlarm) l) <= w_kills w)%nat /\
  (alarms_since l = 0 -> w_alarm w = timeout) /\ (0 < alarms_since l -> w_alarm w = 5).
Proof.
  intros H. destruct (wsteps_knows _ _ _ _ eq_refl H) as [Hr Hb He Hk Ha].
  rewrite He, Ha. repeat case_match; split_and!; try split; try done; try lia.
Qed.

Lemma watchdog_gives_up_witness :
  (Some TFAIL = Some TFAIL <-> alarms_since (repeat SigAlarm 11) = 11) /\
  (Some TFAIL = None <-> alarms_since (repeat SigAlarm 11) <= 10) /\
  (length (filter (fun s => s = SigAlarm) (repeat SigAlarm 11)) <= 11)%nat /\
  (alarms_since (repeat SigAlarm 11) = 0 -> 5 = 30) /\ (0 < alarms_since (repeat SigAlarm 11) -> 5 = 5).
Proof.
  apply (watchdog_gives_up 30 (repeat SigAlarm 11) (mkWatchdog 5 11 11 (Some TFAIL))).
  assert (H : forall n, (n <= 11)%nat ->
    wsteps 30 (started 30) (repeat SigAlarm n) (Nat.iter n alarm_handler (started 30))).
  { induction n as [|n IH]; intros Hn; [constructor|]. cbn [repeat]. rewrite repeat_cons.
    econstructor; [apply IH; lia|]. apply wstep_alarm. do 11 (destruct n as [|n]; [reflexivity|]). lia. }
  exact (H 11%nat ltac:(lia)).
Defined.

(** The remaining runtime of a test with a runtime limit is the limit minus
    the elapsed time rounded down to seconds (of the milliseconds, which are
    rounded to the nearest), and never wraps below zero; without a limit it is
    the largest value. *)
Theorem remaining_runtime_correct long_bits r start now0 now :
  long_bits = 32 \/ long_bits = 64 -> clock_value start -> clock_value now -> total start <= total now ->
  let elapsed := (total now - total start + 500000) / NS in
  (max_runtime r = TST_UNLIMITED_RUNTIME ->
     tst_remaining_runtime long_bits r start now0 (inl now) = Ok (UINT_MAX, [])) /\
  (0 < max_runtime r <= INT_MAX ->
     tst_remaining_runtime long_bits r start now0 (inl now) = Ok (Z.max 0 (max_runtime r - elapsed), [])).
Proof.
  intros Hl Hs Hn Hle elapsed. unfold tst_remaining_runtime. split; intros Hm; [by rewrite Hm|].
  unfold TST_UNLIMITED_RUNTIME. rewrite (proj2 (Z.eqb_neq _ (-1))), (proj2 (Z.eqb_neq _ 0)) by lia.
  rewrite clock_diff_ms by done. cbn [mbind res_bind].
  pose proof (normalized_nsec _ (proj1 Hs)). pose proof (normalized_nsec _ (proj1 Hn)).
  destruct Hs as [_ Hs], Hn as [_ Hn].
  rewrite Z.quot_div_nonneg by (try apply Z.div_pos; lia). rewrite Z.div_div by lia.
  change (1000000 * 1000) with NS. fold elapsed.
  assert (0 <= elapsed < 2 ^ 31).
  { unfold elapsed, total, NS in *. split; [apply Z.div_pos; lia|apply Z.div_lt_upper_bound; lia]. }
  rewrite wrap_s_id by (simpl in *; lia).
  case_match; [rewrite wrap_u_id|]; repeat f_equal; unfold INT_MAX in *; simpl in *; lia.
Qed.

Lemma remaining_runtime_correct_witness :
  let r := mkResults 0 0 0 0 0 90 60 in
  let elapsed := (total (mkTimespec 112 700000000) - total (mkTimespec 100 500000000) + 500000) / NS in
  (max_runtime r = TST_UNLIMITED_RUNTIME ->
     tst_remaining_runtime 64 r (mkTimespec 100 500000000) (mkTimespec 0 0) (inl (mkTimespec 112 700000000)) = Ok (UINT_MAX, [])) /\
  (0 < max_runtime r <= INT_MAX ->
     tst_remaining_runtime 64 r (mkTimespec 100 500000000) (mkTimespec 0 0) (inl (mkTimespec 112 700000000))
     = Ok (Z.max 0 (max_runtime r - elapsed), [])).
Proof.
  apply (remaining_runtime_correct 64); [by right|split; [done|split; zeval]..|zeval].
Defined.

(** *** Integers below 2^24 are exact *)
Definition shift (m : positive) (k : Z) : positive := match k with Zpos d => Pos.iter xO m d | _ => m end.

Lemma shift_val m k : 0 <= k -> Z.pos (shift m k) = Z.pos m * 2 ^ k.
Proof.
  destruct k as [|d|d]; simpl shift; intros Hk; [lia| |lia].
  clear Hk. induction d as [|d IH] using Pos.peano_ind; [simpl; lia|].
  rewrite Pos.iter_succ, Pos2Z.inj_succ, Z.pow_succ_r by lia. lia.
Qed.

Lemma digits_iter m d : digits2_pos (Pos.iter xO m d) = (digits2_pos m + d)%positive.
Proof.
  induction d as [|d IH] using Pos.peano_ind; [simpl; lia|]. rewrite Pos.iter_succ. simpl. rewrite IH. lia.
Qed.

Lemma digits_size p : digits2_pos p = Pos.size p.
Proof. induction p as [p IH|p IH|]; simpl; [by rewrite IH..|done]. Qed.

Lemma digits_bound p : Z.pos p < 2 ^ 24 -> Z.pos (digits2_pos p) <= 24.
Proof.
  intros Hp. rewrite digits_size. pose proof (Pos.size_le p) as H.
  destruct (Z.le_gt_cases (Z.pos (Pos.size p)) 24) as [?|Hgt]; [done|].
  pose proof (Z.pow_le_mono_r 2 25 (Z.pos (Pos.size p)) ltac:(lia) ltac:(lia)) as Hpow.
  rewrite <-Pos2Z.inj_pow in Hpow. change (2 ^ 25) with 33554432 in Hpow. change (2 ^ 24) with 16777216 in Hp. lia.
Qed.

Lemma iter_pos_iter {A} (f : A -> A) p : forall x, iter_pos f p x = Pos.iter f x p.
Proof.
  induction p as [p IH|p IH|]; intros x; simpl; [|by rewrite !IH|done]. by rewrite !IH, !Pos.iter_swap.
Qed.

Lemma shr_shift m d :
  iter_pos shr_1 d (Build_shr_record (Z.pos (Pos.iter xO m d)) false false) = Build_shr_record (Z.pos m) false false.
Proof.
  rewrite iter_pos_iter. induction d as [|d IH] using Pos.peano_ind; [done|].
  rewrite Pos.iter_succ_r, Pos.iter_succ. exact IH.
Qed.

(** Rounding a mantissa of 24 bits followed by [k] zeros. *)
Lemma round_exact m k e : Z.pos (digits2_pos m) = 24 -> 0 <= k -> -149 <= e + k <= 104 ->
  binary_round_aux prec emax false (Z.pos (shift m k)) e loc_Exact = S754_finite false m (e + k).
Proof.
  intros Hm Hk He. unfold binary_round_aux.
  assert (H1 : shr_fexp prec emax (Z.pos (shift m k)) e loc_Exact = (Build_shr_record (Z.pos m) false false, e + k)).
  { unfold shr_fexp, fexp. change (emin prec emax) with (-149). simpl shr_record_of_loc.
    assert (Hd : Zdigits2 (Z.pos (shift m k)) = 24 + k).
    { destruct k as [|d|d]; simpl; [lia| |lia]. rewrite digits_iter. lia. }
    rewrite Hd, Z.max_l by (unfold prec; lia). replace (24 + k + e - prec - e) with k by (unfold prec; lia).
    destruct k as [|d|d]; simpl; [by rewrite Z.add_0_r|by rewrite shr_shift|lia]. }
  rewrite H1. cbn [shr_m loc_of_shr_record round_nearest_even].
  assert (H2 : shr_fexp prec emax (Z.pos m) (e + k) loc_Exact = (Build_shr_record (Z.pos m) false false, e + k)).
  { unfold shr_fexp, fexp. change (emin prec emax) with (-149). cbn [Zdigits2 shr_record_of_loc]. rewrite Hm.
    rewrite Z.max_l by (unfold prec; lia). replace (24 + (e + k) - prec - (e + k)) with 0 by (unfold prec; lia). done. }
  rewrite H2. cbn [shr_m]. by rewrite (proj2 (Z.leb_le _ _)) by (unfold prec, emax; lia).
Qed.

(** An integer below 2^24 as a [float]. *)
Lemma float_of_small p : Z.pos p < 2 ^ 24 ->
  let d := Z.pos (digits2_pos p) in let m := shift p (24 - d) in
  d <= 24 /\ Z.pos (digits2_pos m) = 24 /\ float_of_Z (Z.pos p) = S754_finite false m (d - 24).
Proof.
  intros Hp d m. pose proof (digits_bound p Hp) as Hd. fold d in Hd. split; [done|].
  assert (Hm : Z.pos (digits2_pos m) = 24).
  { unfold m. destruct (24 - d) as [|k|k] eqn:E; simpl; [lia| |lia]. rewrite digits_iter. lia. }
  split; [done|].
  unfold float_of_Z, binary_normalize, binary_round, fexp. rewrite Z.add_0_r. fold d.
  change (emin prec emax) with (-149). rewrite Z.max_l by (unfold prec; lia).
  replace (shl_align p 0 (d - prec)) with (m, d - 24).
  - replace (d - 24) with (d - 24 + 0) at 2 by lia. apply (round_exact m 0); lia.
  - unfold shl_align, prec, m. destruct (d - 24 - 0) as [|k|k] eqn:E; [|lia|].
    + replace (24 - d) with 0 by lia. simpl. f_equal. lia.
    + replace (24 - d) with (Z.pos k) by lia. done.
Qed.

(** Multiplying an integer below 2^24 by 1. *)
Lemma mul_one n lo hi : 0 < n < 2 ^ 24 -> lo <= n <= hi ->
  trunc lo hi (fmul (float_of_Z n) (float_of_Z 1)) = Ok n.
Proof.
  intros Hn Hb. destruct n as [|p|p]; [lia| |lia].
  destruct (float_of_small p ltac:(lia)) as (Hd & Hm & Hf).
  set (d := Z.pos (digits2_pos p)) in *. set (m := shift p (24 - d)) in *.
  rewrite Hf. change (float_of_Z 1) with (S754_finite false 8388608 (-23)). unfold fmul, SFmul. cbn [xorb].
  replace (m * 8388608)%positive with (shift m 23).
  2:{ apply Pos2Z.inj. rewrite shift_val by lia. change (2 ^ 23) with 8388608. lia. }
  rewrite (round_exact m 23 (d - 24 + -23)) by (try done; lia). replace (d - 24 + -23 + 23) with (d - 24) by lia.
  unfold trunc.
  assert (Hv : (if 0 <=? d - 24 then Z.pos m * 2 ^ (d - 24) else Z.pos m / 2 ^ (- (d - 24))) = Z.pos p).
  { destruct (Z.leb_spec 0 (d - 24)).
    - unfold m. replace (d - 24) with 0 by lia. replace (24 - d) with 0 by lia. simpl. lia.
    - replace (- (d - 24)) with (24 - d) by lia. unfold m. rewrite shift_val by lia. apply Z.div_mul. apply Z.pow_nonzero; lia. }
  rewrite Hv. rewrite (proj2 (Z.leb_le _ _)), (proj2 (Z.leb_le _ _)) by lia. done.
Qed.

(** Without LTP_RUNTIME_MUL and LTP_TIMEOUT_MUL, a runtime limit below 2^24
    seconds is taken as it is, in spite of the [float] arithmetic, and the
    timeout of a run is thirty seconds more than it; with an unlimited runtime
    the timeout stays as it was, and a limit below -1 is refused. *)
Theorem max_runtime_default_timeout runtime r :
  runtime < 2 ^ 24 ->
  let out := tst_set_max_runtime None None (float_of_Z (-1)) (float_of_Z (-1)) runtime r in
  if runtime <? -1 then out = Err (TBROK, str "max_runtime must to be >= -1!")
  else exists rmul tmul log,
    out = Ok (set_timeouts r (if runtime =? -1 then timeout r else runtime + 30) runtime, rmul, tmul, log).
Proof.
  intros Hr out. subst out. unfold tst_set_max_runtime.
  assert (Hm : exists rm, multiply_runtime None (float_of_Z (-1)) runtime = Ok (runtime, rm)).
  { unfold multiply_runtime. destruct (Z.leb_spec runtime 0); [by eexists|].
    change (parse_mul (float_of_Z (-1)) None (lit 99) (lit 1000000)) with (Ok (E:=brk) (float_of_Z 1)).
    cbn [mbind res_bind]. rewrite mul_one; [by eexists|lia|]. change (2 ^ 24) with 16777216 in Hr. unfold INT_MIN, INT_MAX. lia. }
  destruct Hm as [rm ->]. cbn [mbind res_bind]. unfold set_timeout, TST_UNLIMITED_RUNTIME. cbn [set_timeouts max_runtime].
  destruct (Z.ltb_spec runtime (-1)) as [Hlt|Hge].
  - rewrite (proj2 (Z.eqb_neq _ _)), (proj2 (Z.ltb_lt _ _)) by lia. done.
  - case_match; [by do 3 eexists|]. rewrite (proj2 (Z.ltb_ge _ _)) by lia.
    change (tst_multiply_timeout None (float_of_Z (-1)) DEFAULT_TIMEOUT)
      with (v ← trunc 0 UINT_MAX (fmul (float_of_Z 30) (float_of_Z 1)); Ok (E:=brk) (v, float_of_Z 1)).
    rewrite mul_one by (unfold UINT_MAX; lia). cbn [mbind res_bind].
    rewrite wrap_u_id by (change (2 ^ 24) with 16777216 in Hr; simpl; lia). rewrite (Z.add_comm 30). do 3 eexists. reflexivity.
Qed.

Lemma max_runtime_default_timeout_witness :
  exists rmul tmul log,
    tst_set_max_runtime None None (float_of_Z (-1)) (float_of_Z (-1)) 300 results0
    = Ok (set_timeouts results0 330 300, rmul, tmul, log).
Proof. apply (max_runtime_default_timeout 300 results0). reflexivity. Defined.

Example runtime_mul_half :
  fst <$> match multiply_runtime (Some (mkStrtod true [] (S754_finite false 4503599627370496 (-53)) 0)) (float_of_Z (-1)) 61 with
          | Ok v => Some v | _ => None end = Some 30.
Proof. vm_compute. reflexivity. Qed.
Example runtime_mul_low :
  tst_parse_float (Some (mkStrtod true [] (S754_finite false 4503599627370496 (-59)) 0)) (lit 99) (lit 1000000) = (ERANGE, None).
Proof. vm_compute. reflexivity. Qed.
