(* ===== verification/KVer.v ===== *)
(** * Kernel versions: [lib/tst_kvercmp.c] and [check_kver] of [lib/tst_test.c]

    Parsing a kernel version, comparing it with three numbers, and comparing
    extended distribution versions. *)

From stdpp Require Import base list strings gmap.
From Stdlib Require Import ZArith Lia.
From S2P Require Import Prelude ParseNum.

Local Open Scope Z_scope.

(** ** Parsing *)

(** The number and what follows it; [None] is NULL. *)
Definition parse_digit (s : cstr) : option (Z * cstr) :=
  let r := strtoul 64 10 s in
  if negb (st_conv r) then None
  else if INT_MAX <? st_val r then None
  else Some (st_val r, st_end r).

(** The return value, and [*v1], [*v2], [*v3]. *)
Definition tst_parse_kver (str_kver : cstr) : Z * (Z * Z * Z) :=
  match parse_digit str_kver with
  | None => (1, (0, 0, 0))
  | Some (v1, s1) =>
      if negb (at_ s1 0 =? "."%ch) then (1, (v1, 0, 0))
      else
        match parse_digit (drop 1 s1) with
        | None => (1, (v1, 0, 0))
        | Some (v2, s2) =>
            if (at_ s2 0 =? " "%ch) || (at_ s2 0 =? 0) || (at_ s2 0 =? "-"%ch) then (0, (v1, v2, 0))
            else if negb (at_ s2 0 =? "."%ch) then (1, (v1, v2, 0))
            else
              match parse_digit (drop 1 s2) with
              | None => (1, (v1, v2, 0))
              | Some (v3, _) => (0, (v1, v2, v3))
              end
        end
  end.

(** ** Comparing *)

(** [int] arithmetic and shifts. *)
Definition i32 (z : Z) : res brk Z := if in_int z then Ok z else Fault.

(** The difference and whether the version was reported as invalid. *)
Definition tst_kvcmp (cur_kver : cstr) (r1 r2 r3 : Z) : res brk (Z * list report) :=
  let '(bad, (a1, a2, a3)) := tst_parse_kver cur_kver in
  let log := if bad =? 0 then [] else [(TWARN, str "Invalid kernel version " ++ cur_kver)] in
  t1 ← i32 (Z.shiftl r1 16); t2 ← i32 (Z.shiftl r2 8); t12 ← i32 (t1 + t2); testver ← i32 (t12 + r3);
  c1 ← i32 (Z.shiftl a1 16); c2 ← i32 (Z.shiftl a2 8); c12 ← i32 (c1 + c2); currver ← i32 (c12 + a3);
  d ← i32 (currver - testver);
  Ok (d, log).

Definition tst_kvercmp (release : cstr) (r1 r2 r3 : Z) : res brk (Z * list report) :=
  tst_kvcmp release r1 r2 r3.

(** [check_kver] of [tst_test.c]: [Some] ends the test. *)
Definition check_kver (release min_kver : cstr) : res brk (option brk * list report) :=
  let '(bad, (v1, v2, v3)) := tst_parse_kver min_kver in
  let log1 := if bad =? 0 then [] else [(TWARN, str "Invalid kernel version " ++ min_kver)] in
  '(d, log2) ← tst_kvercmp release v1 v2 v3;
  Ok (if d <? 0 then Some (TCONF, str "The test requires kernel " ++ min_kver ++ str " or newer") else None,
      log1 ++ log2).

(** ** Extended versions *)

(** [%d] of [sscanf]. *)
Definition scan_d (s : cstr) : option (Z * cstr) :=
  let r := strtol LLONG_MIN LLONG_MAX 10 s in
  if st_conv r then Some (wrap_s 32 (st_val r), st_end r) else None.

(** The numbers of the format, separated by the characters [seps]; those not
    reached stay 0. *)
Fixpoint scan_numbers (seps : list Z) (s : cstr) : list Z :=
  match scan_d s with
  | None => 0 :: map (fun _ => 0) seps
  | Some (v, rest) =>
      v :: match seps with
           | [] => []
           | c :: seps' =>
               if at_ rest 0 =? c then scan_numbers seps' (drop 1 rest)
               else map (fun _ => 0) seps
           end
  end.

Definition kvex_seps : list Z := ["."%ch; "."%ch; "-"%ch; "."%ch].

Fixpoint first_diff (cs ts : list Z) : res brk Z :=
  match cs, ts with
  | c :: cs', t :: ts' => d ← i32 (c - t); if negb (d =? 0) then Ok d else first_diff cs' ts'
  | _, _ => Ok 0
  end.

Definition tst_kvexcmp (tst_exv cur_ver : cstr) : res brk Z :=
  first_diff (scan_numbers kvex_seps cur_ver) (scan_numbers kvex_seps tst_exv).

Definition toupper (c : Z) : Z := if islower c then c - 32 else c.

(** The [while] loop over the name read from [/etc/os-release]. *)
Fixpoint upper_until_quote (p : cstr) : cstr :=
  match p with
  | [] => []
  | c :: p' => if c =? DQUOTE then [] else toupper c :: upper_until_quote p'
  end.

(** [os_id]: the file exists and this is the text [%s] reads after [ID=] (the
    empty string if no line matches). *)
Definition tst_kvcmp_distname (kver : cstr) (os_id : option cstr) : option cstr :=
  let has s := match strstr kver (str s) with Some _ => true | None => false end in
  if has ".el7" then Some (str "RHEL7")
  else if has ".el8" then Some (str "RHEL8")
  else if has ".el9" then Some (str "RHEL9")
  else
    match os_id with
    | None => None
    | Some d => Some (upper_until_quote (if at_ d 0 =? DQUOTE then drop 1 d else d))
    end.

Definition tst_kvercmp2 (release : cstr) (os_id : option cstr) (r1 r2 r3 : Z) (vers : list (cstr * cstr))
    : res brk (Z * list report) :=
  match tst_kvcmp_distname release os_id with
  | None => tst_kvercmp release r1 r2 r3
  | Some dist =>
      match List.find (fun v => streq (fst v) dist) vers with
      | Some (_, extra_ver) =>
          d ← tst_kvexcmp extra_ver release;
          Ok (d, [(TINFO, str "Detected " ++ dist ++ str " using kernel version " ++ release)])
      | None => tst_kvcmp release r1 r2 r3
      end
  end.

(** ** Lemmas *)

(** The text of a version: numbers and what follows them. *)
Definition kver_text (a1 a2 a3 : Z) (rest : cstr) : cstr :=
  dec a1 ++ str "." ++ dec a2 ++ str "." ++ dec a3 ++ rest.
Definition no_digit (t : cstr) : Prop := match t with [] => True | c :: _ => is_digit 10 c = false end.

Lemma parse_digit_dec n t : 0 <= n <= INT_MAX -> no_digit t -> parse_digit (dec n ++ t) = Some (n, t).
Proof.
  intros Hn Ht. destruct (dec_split n) as (ds & -> & Hne & Hall & Hv & _).
  rewrite (proj2 (Z.ltb_ge n 0)) by lia. cbn [app]. unfold parse_digit, strtoul.
  pose proof (sign_digits false ds t Hne Hall) as Hs. cbn [app] in Hs. rewrite Hs. cbn [base_of Z.eqb Pos.eqb].
  destruct (Nat.eqb_spec (prefix_len (is_digit 10) (ds ++ t)) 0) as [E|_].
  { rewrite prefix_len_app in E by done. destruct ds; [done|simpl in E; lia]. }
  rewrite skip_prefix, digits_val_stop, Hv by done. unfold INT_MAX in *. change (2 ^ 64 - 1) with 18446744073709551615.
  rewrite Z.abs_eq by lia. rewrite (proj2 (Z.ltb_ge _ n)) by lia. cbn [st_conv st_val st_end negb].
  by rewrite (proj2 (Z.ltb_ge _ n)) by lia.
Qed.

Lemma parse_kver_text a1 a2 a3 rest :
  0 <= a1 <= INT_MAX -> 0 <= a2 <= INT_MAX -> 0 <= a3 <= INT_MAX -> no_digit rest ->
  tst_parse_kver (kver_text a1 a2 a3 rest) = (0, (a1, a2, a3)).
Proof.
  intros H1 H2 H3 Hr. unfold tst_parse_kver, kver_text.
  assert (Hdot : forall x, at_ (str "." ++ x) 0 = "."%ch) by done.
  assert (Hdrop : forall x, drop 1 (str "." ++ x) = x) by done.
  rewrite parse_digit_dec by done. rewrite Hdot, Hdrop. cbn [Z.eqb Pos.eqb negb].
  rewrite parse_digit_dec by done. rewrite Hdot, Hdrop. cbn [Z.eqb Pos.eqb negb orb].
  by rewrite parse_digit_dec.
Qed.

Lemma i32_ok z : INT_MIN <= z <= INT_MAX -> i32 z = Ok z.
Proof. intros. unfold i32, in_int. by rewrite (proj2 (andb_true_iff _ _)) by (rewrite !Z.leb_le; lia). Qed.

(** The packed version number. *)
Definition pack (a1 a2 a3 : Z) : Z := a1 * 65536 + a2 * 256 + a3.
Definition small (a1 a2 a3 : Z) : Prop := 0 <= a1 < 16384 /\ 0 <= a2 < 65536 /\ 0 <= a3 < 65536.

Lemma kvcmp_pack a1 a2 a3 rest r1 r2 r3 : small a1 a2 a3 -> small r1 r2 r3 -> no_digit rest ->
  tst_kvcmp (kver_text a1 a2 a3 rest) r1 r2 r3 = Ok (pack a1 a2 a3 - pack r1 r2 r3, []).
Proof.
  unfold small. intros Ha Hr Hrest. unfold tst_kvcmp.
  rewrite parse_kver_text by (done || unfold INT_MAX; lia). cbn [Z.eqb].
  rewrite !Z.shiftl_mul_pow2 by lia. change (2 ^ 16) with 65536. change (2 ^ 8) with 256.
  unfold pack, INT_MIN, INT_MAX in *.
  repeat (rewrite i32_ok by (unfold INT_MIN, INT_MAX; lia); cbn [mbind res_bind]). done.
Qed.

(** The order of versions. *)
Definition kver_lt (a b : Z * Z * Z) : Prop :=
  let '(a1, a2, a3) := a in let '(b1, b2, b3) := b in
  a1 < b1 \/ (a1 = b1 /\ (a2 < b2 \/ (a2 = b2 /\ a3 < b3))).

(** ** Properties *)

(** On versions whose second and third numbers are below 256, the sign of
    [tst_kvcmp] is the order of versions, whatever follows the numbers. *)
Theorem kvcmp_orders a1 a2 a3 rest r1 r2 r3 :
  small a1 a2 a3 -> small r1 r2 r3 -> no_digit rest ->
  a2 < 256 -> a3 < 256 -> r2 < 256 -> r3 < 256 ->
  exists d, tst_kvcmp (kver_text a1 a2 a3 rest) r1 r2 r3 = Ok (d, []) /\
    (d < 0 <-> kver_lt (a1, a2, a3) (r1, r2, r3)) /\
    (d = 0 <-> (a1, a2, a3) = (r1, r2, r3)) /\
    (0 < d <-> kver_lt (r1, r2, r3) (a1, a2, a3)).
Proof.
  intros Ha Hr Hrest H2 H3 H4 H5. exists (pack a1 a2 a3 - pack r1 r2 r3).
  split; [by apply kvcmp_pack|]. unfold pack, kver_lt, small in *. rewrite !pair_equal_spec. lia.
Qed.

Lemma kvcmp_orders_witness :
  exists d, tst_kvcmp (kver_text 4 8 1 (str "-52-default")) 4 10 0 = Ok (d, []) /\
    (d < 0 <-> kver_lt (4, 8, 1) (4, 10, 0)) /\
    (d = 0 <-> (4, 8, 1) = (4, 10, 0)) /\
    (0 < d <-> kver_lt (4, 10, 0) (4, 8, 1)).
Proof. apply kvcmp_orders; zeval. Defined.

(** A third number of 256 or more carries into the second: such a kernel
    compares equal to, or newer than, versions that are newer than it. *)
Theorem kvcmp_patchlevel_carries a1 a2 k rest :
  small a1 (a2 + 1) k -> 0 <= a2 -> k + 256 < 65536 -> no_digit rest ->
  kver_lt (a1, a2, k + 256) (a1, a2 + 1, k) /\
  tst_kvcmp (kver_text a1 a2 (k + 256) rest) a1 (a2 + 1) k = Ok (0, []).
Proof.
  intros Hs Ha Hk Hrest. unfold small in Hs. split; [unfold kver_lt; lia|].
  rewrite kvcmp_pack by (done || unfold small; lia). unfold pack. f_equal. f_equal. lia.
Qed.

Lemma kvcmp_patchlevel_carries_witness :
  kver_lt (4, 9, 81 + 256) (4, 9 + 1, 81) /\
  tst_kvcmp (kver_text 4 9 (81 + 256) (str "-generic")) 4 (9 + 1) 81 = Ok (0, []).
Proof. apply kvcmp_patchlevel_carries; zeval. Defined.
