(* ===== verification/Setup.v ===== *)
(** * Setting up a test: options and requirements in [lib/tst_test.c]

    The description of a test ([struct tst_test]), the checks made on it, the
    command line, and [do_setup].  Calls that ask the system for something are
    fields of a record with their answers; [Err] is [tst_brk]. *)

From stdpp Require Import base list strings gmap.
From Stdlib Require Import ZArith Lia.
From S2P Require Import Prelude ParseNum.

Local Open Scope Z_scope.

Abbreviation M := (res brk).

(** ** Data *)
Record tst_option : Set := mkOption { o_optstr : cstr; o_arg : option cstr; o_help : cstr }.

Record tst_test : Set := mkTest {
  t_test : bool; t_tcnt : Z; t_test_all : bool; t_sample : bool;
  t_options : list tst_option;
  t_max_runtime : Z;
  t_tconf_msg : option cstr;
  t_needs_kconfigs : bool; t_needs_root : bool; t_min_kver : bool; t_supported_archs : bool;
  t_skip_in_lockdown : bool; t_skip_in_compat : bool; t_needs_cmds : bool; t_needs_drivers : bool;
  t_min_cpus : Z; t_min_mem_avail : Z; t_hugepages : bool;
  t_needs_tmpdir : bool; t_needs_checkpoints : bool; t_resource_files : bool;
  t_mntpoint : bool; t_mount_device : bool; t_format_device : bool; t_needs_device : bool;
  t_all_filesystems : bool; t_needs_devfs : bool; t_needs_rofs : bool; t_needs_hugetlbfs : bool;
  t_needs_overlay : bool;
  t_needs_cgroup_ctrls : bool; t_needs_cgroup_ver : bool
}.

(** ** The test functions *)
Definition b2z (b : bool) : Z := if b then 1 else 0.

Definition assert_test_fn (t : tst_test) : M unit :=
  let cnt := b2z (t_test t) + b2z (t_test_all t) + b2z (t_sample t) in
  if cnt =? 0 then Err (TBROK, str "No test function specified")
  else if negb (cnt =? 1) then Err (TBROK, str "You can define only one test function")
  else if t_test t && (t_tcnt t =? 0) then Err (TBROK, str "Number of tests (tcnt) must be > 0")
  else if negb (t_test t) && negb (t_tcnt t =? 0) then Err (TBROK, str "You can define tcnt only for test()")
  else Ok tt.

Definition needs_tmpdir (t : tst_test) : bool :=
  t_needs_tmpdir t || t_needs_device t || t_mntpoint t || t_resource_files t || t_needs_checkpoints t.

(** What follows the last [/] of [argv[0]]. *)
Fixpoint strrchr (s : cstr) (c : Z) : option cstr :=
  match s with
  | [] => None
  | x :: s' => match strrchr s' c with
               | Some r => Some r
               | None => if x =? c then Some s' else None
               end
  end.
Definition get_tid (argv0 : option cstr) : cstr :=
  match argv0 with
  | None | Some [] => str "ltp_empty_argv"
  | Some s => default s (strrchr s "/"%ch)
  end.

(** ** The command line *)
Definition options : list (cstr * cstr) :=
  [(str "h", str "-h       Prints this help");
   (str "i:", str "-i n     Execute test n times");
   (str "I:", str "-I x     Execute test for n seconds");
   (str "C:", str "-C ARG   Run child process with ARG arguments (used internally)")].

(** The first option of the test that collides with one of the library. *)
Definition check_option_collision (t : tst_test) : M unit :=
  let hits := concat (map (fun o => List.filter (fun b => at_ (o_optstr o) 0 =? at_ (fst b) 0) options) (t_options t)) in
  match hits with
  | [] => Ok tt
  | (_, help) :: _ => Err (TBROK, str "Option collision '" ++ help ++ str "'")
  end.

Definition count_options (t : tst_test) : nat := length (t_options t).

(** [strcat] into an array of [size] bytes. *)
Definition strcat (size : nat) (dst src : cstr) : M cstr :=
  if Nat.leb (length dst + length src + 1) size then Ok (dst ++ src) else Fault.
Fixpoint strcat_all (size : nat) (dst : cstr) (srcs : list cstr) : M cstr :=
  match srcs with [] => Ok dst | s :: k => d ← strcat size dst s; strcat_all size d k end.

(** [optstr[2 * ARRAY_SIZE(options) + 2 * topts_len]] *)
Definition build_optstr (t : tst_test) : M cstr :=
  let size := (2 * length options + 2 * count_options t)%nat in
  strcat_all size [] (map fst options ++ map o_optstr (t_options t)).

Definition parse_topt (t : tst_test) (opt : Z) (optarg : option cstr) : M (tst_test * list report) :=
  match list_find (fun o => at_ (o_optstr o) 0 = opt) (t_options t) with
  | None => Err (TBROK, str "Invalid option (should not happen)")
  | Some (i, o) =>
      let log := match o_arg o with Some _ => [(TWARN, str "Option passed multiple times")] | None => [] end in
      let o' := mkOption (o_optstr o) (Some (default [] optarg)) (o_help o) in
      Ok (mkTest (t_test t) (t_tcnt t) (t_test_all t) (t_sample t) (<[i := o']> (t_options t)) (t_max_runtime t)
            (t_tconf_msg t) (t_needs_kconfigs t) (t_needs_root t) (t_min_kver t) (t_supported_archs t)
            (t_skip_in_lockdown t) (t_skip_in_compat t) (t_needs_cmds t) (t_needs_drivers t) (t_min_cpus t)
            (t_min_mem_avail t) (t_hugepages t) (t_needs_tmpdir t) (t_needs_checkpoints t) (t_resource_files t)
            (t_mntpoint t) (t_mount_device t) (t_format_device t) (t_needs_device t) (t_all_filesystems t)
            (t_needs_devfs t) (t_needs_rofs t) (t_needs_hugetlbfs t) (t_needs_overlay t)
            (t_needs_cgroup_ctrls t) (t_needs_cgroup_ver t), log)
  end.

Definition set_max_runtime (t : tst_test) (v : Z) : tst_test :=
  mkTest (t_test t) (t_tcnt t) (t_test_all t) (t_sample t) (t_options t) v
    (t_tconf_msg t) (t_needs_kconfigs t) (t_needs_root t) (t_min_kver t) (t_supported_archs t)
    (t_skip_in_lockdown t) (t_skip_in_compat t) (t_needs_cmds t) (t_needs_drivers t) (t_min_cpus t)
    (t_min_mem_avail t) (t_hugepages t) (t_needs_tmpdir t) (t_needs_checkpoints t) (t_resource_files t)
    (t_mntpoint t) (t_mount_device t) (t_format_device t) (t_needs_device t) (t_all_filesystems t)
    (t_needs_devfs t) (t_needs_rofs t) (t_needs_hugetlbfs t) (t_needs_overlay t)
    (t_needs_cgroup_ctrls t) (t_needs_cgroup_ver t).

(** [SAFE_STRTOL] ([lib/safe_macros.c]). *)
Definition safe_strtol (s : cstr) (min max : Z) : M Z :=
  let r := strtol LLONG_MIN LLONG_MAX 10 s in
  if (st_errno r =? ERANGE) && ((st_val r =? LLONG_MAX) || (st_val r =? LLONG_MIN))
     || negb (st_errno r =? 0) && (st_val r =? 0)
  then Err (Z.lor TBROK TERRNO, str "strtol(" ++ s ++ str ") failed")
  else if negb (st_conv r) || (negb (at_ (st_end r) 0 =? 0) && negb (at_ (st_end r) 0 =? NEWLINE))
  then Err (TBROK, str "strtol(" ++ s ++ str "): Invalid value")
  else if (max <? st_val r) || (st_val r <? min)
  then Err (TBROK, str "strtol(" ++ s ++ str "): out of range")
  else Ok (st_val r).

(** What the command line sets: [duration] is the argument of [-I] when the test
    has no runtime of its own, accepted by [SAFE_STRTOF]. *)
Record opt_state : Set := mkOpt { p_test : tst_test; p_iterations : Z; p_duration : option cstr; p_log : list report }.

(** [None]: [-h], the process exits with 0. *)
Section ParseOpts.
Context (strtof_ok : cstr -> bool).

(** The [while (getopt())] loop over the answers of [getopt]: the option
    character and [optarg]. *)
Fixpoint opts_loop (answers : list (Z * option cstr)) (st : opt_state) : M (option opt_state) :=
  match answers with
  | [] => Ok (Some st)
  | (opt, arg) :: k =>
      let a := default [] arg in
      if opt =? "?"%ch then Err (TBROK, str "Invalid option")
      else if opt =? "h"%ch then Ok None
      else if opt =? "i"%ch then
        n ← safe_strtol a 0 INT_MAX;
        opts_loop k (mkOpt (p_test st) n (p_duration st) (p_log st))
      else if opt =? "I"%ch then
        if 0 <? t_max_runtime (p_test st) then
          n ← safe_strtol a 1 INT_MAX;
          opts_loop k (mkOpt (set_max_runtime (p_test st) n) (p_iterations st) (p_duration st) (p_log st))
        else if strtof_ok a then opts_loop k (mkOpt (p_test st) (p_iterations st) (Some a) (p_log st))
        else Err (TBROK, str "strtof failed")
      else if opt =? "C"%ch then opts_loop k st
      else
        '(t', log) ← parse_topt (p_test st) opt arg;
        opts_loop k (mkOpt t' (p_iterations st) (p_duration st) (p_log st ++ log))
  end.

(** [rest]: the arguments left when [getopt] is done. *)
Definition parse_opts (t : tst_test) (answers : list (Z * option cstr)) (rest : list cstr) : M (option opt_state) :=
  _ ← check_option_collision t;
  _ ← build_optstr t;
  st ← opts_loop answers (mkOpt t 1 None []);
  match st with
  | None => Ok None
  | Some st => match rest with
               | [] => Ok (Some st)
               | a :: _ => Err (TBROK, str "Unexpected argument(s) '" ++ a ++ str "'...")
               end
  end.
End ParseOpts.

(** ** [do_setup] *)

(** The answers of the system; [option brk] is a call that may end the test. *)
Record sysenv : Type := mkSys {
  s_kconfig_unsuitable : bool;           (** [tst_kconfig_check() != 0] *)
  s_euid : Z;
  s_kver : option brk;                   (** [check_kver] *)
  s_on_arch : bool; s_lockdown : bool; s_compat : bool;
  s_cmds : option brk;
  s_driver_missing : bool;
  s_ncpus : Z; s_available_mem : Z;      (** in KB *)
  s_hugepages : option brk; s_ipc : option brk; s_bufs : option brk;
  s_tmpdir_created : bool; s_tmpdir : option brk; s_sys_conf : option brk; s_mkdir : option brk;
  s_nodev : bool;                        (** the temporary directory is mounted nodev *)
  s_mount_tmpfs : option brk;
  s_rofs_mounts : bool;                  (** a read-only tmpfs can be mounted *)
  s_rofs_populate : option brk;
  s_hugetlbfs : option brk;
  s_device : bool;                       (** a device is available *)
  s_mkfs : option brk;
  s_dev_rofs_mounts : bool;              (** the device mounts for [needs_rofs] *)
  s_mount_device : option brk;           (** [limit_tmpfs_mount_size] and [SAFE_MOUNT] *)
  s_overlay : option brk;
  s_resources : option brk; s_wallclock : option brk; s_taint : option brk; s_cgroup : option brk
}.

Definition may (o : option brk) : M unit := match o with None => Ok tt | Some b => Err b end.
Definition guard_brk (c : bool) (b : brk) : M unit := if c then Err b else Ok tt.

(** [format_device] and [needs_device], the fields [do_setup] changes. *)
Definition set_dev (t : tst_test) (fmt needs : bool) : tst_test :=
  mkTest (t_test t) (t_tcnt t) (t_test_all t) (t_sample t) (t_options t) (t_max_runtime t)
    (t_tconf_msg t) (t_needs_kconfigs t) (t_needs_root t) (t_min_kver t) (t_supported_archs t)
    (t_skip_in_lockdown t) (t_skip_in_compat t) (t_needs_cmds t) (t_needs_drivers t) (t_min_cpus t)
    (t_min_mem_avail t) (t_hugepages t) (t_needs_tmpdir t) (t_needs_checkpoints t) (t_resource_files t)
    (t_mntpoint t) (t_mount_device t) fmt needs (t_all_filesystems t)
    (t_needs_devfs t) (t_needs_rofs t) (t_needs_hugetlbfs t) (t_needs_overlay t)
    (t_needs_cgroup_ctrls t) (t_needs_cgroup_ver t).

Section DoSetup.
Context (env : sysenv).

(** The results are [true] when something was mounted on the mount point. *)
Definition prepare_and_mount_ro_fs (mounts : bool) (populate : option brk) : M (bool * bool) :=
  if negb mounts then Ok (true, false) else _ ← may populate; Ok (false, true).

Definition prepare_and_mount_dev_fs : M bool :=
  if s_nodev env then _ ← may (s_mount_tmpfs env); Ok true else Ok false.

Definition prepare_device (t : tst_test) : M bool :=
  _ ← (if t_format_device t then may (s_mkfs env) else Ok tt);
  if t_needs_rofs t then
    '(_, mounted) ← prepare_and_mount_ro_fs (s_dev_rofs_mounts env) (s_rofs_populate env); Ok mounted
  else if t_mount_device t then _ ← may (s_mount_device env); Ok true
  else Ok false.

(** The requirements, up to the setup of the shared memory. *)
Definition check_requirements (t : tst_test) : M unit :=
  _ ← guard_brk (t_needs_kconfigs t && s_kconfig_unsuitable env)
        (TCONF, str "Aborting due to unsuitable kernel config, see above!");
  _ ← guard_brk (t_needs_root t && negb (s_euid env =? 0)) (TCONF, str "Test needs to be run as root");
  _ ← (if t_min_kver t then may (s_kver env) else Ok tt);
  _ ← guard_brk (t_supported_archs t && negb (s_on_arch env)) (TCONF, str "This arch is not supported for test!");
  _ ← guard_brk (t_skip_in_lockdown t && s_lockdown env) (TCONF, str "Kernel is locked down, skipping test");
  _ ← guard_brk (t_skip_in_compat t && s_compat env) (TCONF, str "Not supported in 32-bit compat mode");
  _ ← (if t_needs_cmds t then may (s_cmds env) else Ok tt);
  guard_brk (t_needs_drivers t && s_driver_missing env) (TCONF, str "driver not available").

Definition imply_device (t : tst_test) : tst_test :=
  let fmt := t_format_device t || t_mount_device t in
  let needs := t_needs_device t || fmt || t_all_filesystems t in
  set_dev t fmt needs.

Definition check_resources (t : tst_test) : M unit :=
  _ ← guard_brk (wrap_u 64 (s_ncpus env) <? t_min_cpus t) (TCONF, str "Test needs at least that many CPUs online");
  _ ← guard_brk (wrap_u 64 (Z.quot (s_available_mem env) 1024) <? t_min_mem_avail t)
        (TCONF, str "Test needs at least that much MemAvailable");
  if t_hugepages t then may (s_hugepages env) else Ok tt.

(** The mount point and the file systems: the flags may change once more when a
    read-only tmpfs cannot be mounted; the result has the flags, whether
    something is mounted and whether a device was acquired. *)
Definition setup_mounts (t : tst_test) : M (tst_test * bool * bool) :=
  _ ← (if t_mntpoint t then may (s_mkdir env) else Ok tt);
  _ ← guard_brk ((t_needs_devfs t || t_needs_rofs t || t_mount_device t || t_all_filesystems t
                  || t_needs_hugetlbfs t) && negb (t_mntpoint t))
        (TBROK, str "tst_test->mntpoint must be set!");
  _ ← guard_brk (1 <? b2z (t_needs_rofs t) + b2z (t_needs_devfs t) + b2z (t_needs_device t) + b2z (t_needs_hugetlbfs t))
        (TBROK, str "Two or more of needs_{rofs, devfs, device, hugetlbfs} are set");
  m1 ← (if t_needs_devfs t then prepare_and_mount_dev_fs else Ok false);
  '(t, m2) ← (if t_needs_rofs t then
                '(failed, m) ← prepare_and_mount_ro_fs (s_rofs_mounts env) (s_rofs_populate env);
                Ok (if failed : bool then set_dev t true true else t, m)
              else Ok (t, false));
  m3 ← (if t_needs_hugetlbfs t then _ ← may (s_hugetlbfs env); Ok true else Ok false);
  let mounted := m1 || m2 || m3 in
  if t_needs_device t && negb mounted then
    _ ← guard_brk (negb (s_device env)) (TCONF, str "Failed to acquire device");
    m4 ← (if negb (t_all_filesystems t) then prepare_device t else Ok false);
    Ok (t, m4, true)
  else Ok (t, mounted, false).

(** The overlay and what comes last; the result is [ovl_mounted]. *)
Definition setup_rest (t : tst_test) (mounted : bool) : M bool :=
  _ ← guard_brk (t_needs_overlay t && negb (t_mount_device t)) (TBROK, str "tst_test->mount_device must be set");
  _ ← guard_brk (t_needs_overlay t && negb mounted) (TBROK, str "tst_test->mntpoint must be mounted");
  ovl ← (if t_needs_overlay t then _ ← may (s_overlay env); Ok true else Ok false);
  _ ← (if t_resource_files t then may (s_resources env) else Ok tt);
  _ ← may (s_wallclock env);
  _ ← may (s_taint env);
  _ ← (if t_needs_cgroup_ctrls t then may (s_cgroup env)
       else guard_brk (t_needs_cgroup_ver t) (TBROK, str "tst_test->needs_cgroup_ctrls must be set"));
  Ok ovl.

(** The state after [do_setup]. *)
Record setup_state : Set := mkSetup {
  d_test : tst_test; d_iterations : Z; d_mounted : bool; d_device : bool; d_ovl : bool; d_tmpdir : bool
}.

(** [None]: the test exits after [-h].  The message for an invalid runtime reads
    the results, which are not mapped yet.  [timer_test_setup] rewrites the
    description of a test with a [sample] function ([lib/tst_timer_test.c]). *)
Definition do_setup (strtof_ok : cstr -> bool) (timer_test_setup : tst_test -> tst_test) (t : tst_test) (answers : list (Z * option cstr)) (rest : list cstr)
    : M (option setup_state) :=
  if t_max_runtime t <? -1 then Fault
  else
    match t_tconf_msg t with
    | Some msg => Err (TCONF, msg)
    | None =>
        _ ← assert_test_fn t;
        let t := if t_sample t then timer_test_setup t else t in
        o ← parse_opts strtof_ok t answers rest;
        match o with
        | None => Ok None
        | Some st =>
            let t := p_test st in
            _ ← check_requirements t;
            let t := imply_device t in
            _ ← check_resources t;
            _ ← may (s_ipc env);
            _ ← may (s_bufs env);
            let make_tmpdir := needs_tmpdir t && negb (s_tmpdir_created env) in
            _ ← (if make_tmpdir then may (s_tmpdir env) else Ok tt);
            _ ← may (s_sys_conf env);
            '(t, mounted, device) ← setup_mounts t;
            ovl ← setup_rest t mounted;
            Ok (Some (mkSetup t (p_iterations st) mounted device ovl (make_tmpdir || s_tmpdir_created env)))
        end
    end.
End DoSetup.

(** ** Properties *)

Lemma may_Ok o u : may o = Ok u -> o = None.
Proof. by destruct o. Qed.
Lemma guard_brk_Ok c b u : guard_brk c b = Ok u -> c = false.
Proof. by destruct c. Qed.

(** Take a successful run apart. *)
Ltac inv_ok :=
  repeat match goal with
  | H : mbind _ _ = Ok _ |- _ => apply bind_Ok in H as (? & ? & H)
  | H : may _ = Ok _ |- _ => apply may_Ok in H
  | H : guard_brk _ _ = Ok _ |- _ => apply guard_brk_Ok in H
  | H : Ok _ = Ok _ |- _ => injection H as H; subst
  | H : (let '(_, _) := ?p in _) = Ok _ |- _ => destruct p
  end.

(** The attempt to mount a read-only tmpfs. *)
Lemma rofs_stage env t t' m :
  (if t_needs_rofs t then
     '(failed, m) ← prepare_and_mount_ro_fs (s_rofs_mounts env) (s_rofs_populate env);
     Ok (if failed : bool then set_dev t true true else t, m)
   else Ok (t, false)) = Ok (t', m) ->
  (t_needs_rofs t = false /\ t' = t /\ m = false) \/ (t_needs_rofs t = true /\ t' = t /\ m = true /\ s_rofs_mounts env = true) \/
  (t_needs_rofs t = true /\ t' = set_dev t true true /\ m = false /\ s_rofs_mounts env = false).
Proof.
  destruct (t_needs_rofs t); [|intros [= <- <-]; auto].
  unfold prepare_and_mount_ro_fs. destruct (s_rofs_mounts env); cbn [negb mbind res_bind].
  - intros H. inv_ok. auto 7.
  - intros [= <- <-]. auto 7.
Qed.

(** What the description asks to be mounted, as far as the system has it. *)
Definition mounts (env : sysenv) (t : tst_test) : bool :=
  (t_needs_devfs t && s_nodev env) || (t_needs_rofs t && (s_rofs_mounts env || s_dev_rofs_mounts env)) || t_needs_hugetlbfs t
  || (t_mount_device t && negb (t_all_filesystems t)).
(** [needs_rofs] falls back to a device. *)
Definition falls_back (env : sysenv) (t : tst_test) : bool := t_needs_rofs t && negb (s_rofs_mounts env).
Definition exclusive (env : sysenv) (t : tst_test) : Z :=
  b2z (t_needs_rofs t) + b2z (t_needs_devfs t) + b2z (t_needs_device t && negb (falls_back env t)) + b2z (t_needs_hugetlbfs t).

Ltac close_flags := cbn -[Z.add] in *; inv_ok; simplify_eq; cbn -[Z.add]; rewrite ?orb_false_r, ?andb_false_r; split_and!; (done || lia).
Lemma setup_mounts_ok env t t' mounted device :
  (t_mount_device t || t_format_device t || t_all_filesystems t = true -> t_needs_device t = true) -> setup_mounts env t = Ok (t', mounted, device) ->
  (t_needs_devfs t || t_needs_rofs t || t_mount_device t || t_all_filesystems t || t_needs_hugetlbfs t = true -> t_mntpoint t = true) /\
  t' = set_dev t (t_format_device t || falls_back env t) (t_needs_device t || falls_back env t) /\
  exclusive env t' <= 1 /\ device = t_needs_device t' /\ mounted = mounts env t'.
Proof.
  intros Himp H. apply bind_Ok in H as (? & _ & H). apply bind_Ok in H as (? & Hmnt & H). apply bind_Ok in H as (? & Htwo & H). apply guard_brk_Ok in Hmnt, Htwo.
  split; [intros Hany; rewrite Hany in Hmnt; by destruct (t_mntpoint t)|]. clear Hmnt. apply Z.ltb_ge in Htwo.
  apply bind_Ok in H as (m1 & Hdev & H). apply bind_Ok in H as ([t1 m2] & Hro & H). apply bind_Ok in H as (m3 & Hhuge & H). apply rofs_stage in Hro.
  assert (Hm1 : m1 = t_needs_devfs t && s_nodev env) by (unfold prepare_and_mount_dev_fs in Hdev; destruct (t_needs_devfs t), (s_nodev env); inv_ok; done).
  assert (Hm3 : m3 = t_needs_hugetlbfs t1) by (destruct (t_needs_hugetlbfs t1); inv_ok; done). clear Hdev Hhuge. subst m1 m3.
  destruct t. unfold exclusive, mounts, falls_back, prepare_device, prepare_and_mount_ro_fs, set_dev, b2z in *. cbn -[Z.add] in *.
  destruct Hro as [(-> & -> & ->)|[(-> & -> & -> & Hm)|(-> & -> & -> & Hm)]]; cbn -[Z.add] in *; rewrite ?Hm, ?orb_false_r in *; cbn -[Z.add] in *.
  - destruct t_needs_device0.
    + destruct t_needs_devfs0, t_needs_hugetlbfs0; try lia. cbn -[Z.add] in H. destruct t_all_filesystems0, t_mount_device0; inv_ok; close_flags.
    + destruct t_mount_device0; [by specialize (Himp eq_refl)|]. destruct t_needs_devfs0, t_needs_hugetlbfs0; try lia; close_flags.
  - destruct t_needs_device0; [destruct t_needs_devfs0, t_needs_hugetlbfs0; lia|]. destruct t_mount_device0; [by specialize (Himp eq_refl)|]. destruct t_needs_devfs0, t_needs_hugetlbfs0; try lia; close_flags.
  - destruct t_needs_device0; [destruct t_needs_devfs0, t_needs_hugetlbfs0; lia|]. destruct t_mount_device0; [by specialize (Himp eq_refl)|]. destruct t_all_filesystems0; [rewrite orb_true_r in Himp; by specialize (Himp eq_refl)|].
    rewrite orb_true_r. destruct t_needs_devfs0, t_needs_hugetlbfs0; try lia. cbn -[Z.add] in *. destruct (s_dev_rofs_mounts env); inv_ok; close_flags.
Qed.

Lemma assert_test_fn_ok t u : assert_test_fn t = Ok u ->
  b2z (t_test t) + b2z (t_test_all t) + b2z (t_sample t) = 1 /\ (t_test t = true <-> t_tcnt t <> 0).
Proof.
  unfold assert_test_fn, b2z. destruct (t_test t), (t_test_all t), (t_sample t), (Z.eqb_spec (t_tcnt t) 0); cbn; done.
Qed.

Lemma setup_rest_ok env t mounted ovl : setup_rest env t mounted = Ok ovl ->
  ovl = t_needs_overlay t /\ (t_needs_overlay t = true -> t_mount_device t = true /\ mounted = true) /\ (t_needs_cgroup_ver t = true -> t_needs_cgroup_ctrls t = true).
Proof.
  unfold setup_rest. intros H. inv_ok. destruct (t_needs_overlay t); cbn [andb] in *; rewrite ?negb_false_iff in *; inv_ok; simplify_eq; (split_and!; [done..|]); destruct (t_needs_cgroup_ctrls t); inv_ok; congruence.
Qed.

Lemma imply_device_ok t : let u := imply_device t in
  t_mount_device u || t_format_device u || t_all_filesystems u = true -> t_needs_device u = true.
Proof.
  cbn. destruct (t_needs_device t), (t_mount_device t), (t_format_device t), (t_all_filesystems t); done.
Qed.

(** The description without what the command line and the set-up may change: the
    options, the runtime, and the flags of the device. *)
Definition set_options (t : tst_test) (os : list tst_option) : tst_test :=
  mkTest (t_test t) (t_tcnt t) (t_test_all t) (t_sample t) os (t_max_runtime t)
    (t_tconf_msg t) (t_needs_kconfigs t) (t_needs_root t) (t_min_kver t) (t_supported_archs t)
    (t_skip_in_lockdown t) (t_skip_in_compat t) (t_needs_cmds t) (t_needs_drivers t) (t_min_cpus t)
    (t_min_mem_avail t) (t_hugepages t) (t_needs_tmpdir t) (t_needs_checkpoints t) (t_resource_files t)
    (t_mntpoint t) (t_mount_device t) (t_format_device t) (t_needs_device t) (t_all_filesystems t)
    (t_needs_devfs t) (t_needs_rofs t) (t_needs_hugetlbfs t) (t_needs_overlay t)
    (t_needs_cgroup_ctrls t) (t_needs_cgroup_ver t).
Definition core (t : tst_test) : tst_test := set_max_runtime (set_options t []) 0.
Definition fixed (t : tst_test) : tst_test := set_dev (core t) false false.

Lemma parse_topt_core t opt arg t' log : parse_topt t opt arg = Ok (t', log) -> core t' = core t.
Proof. unfold parse_topt. destruct (list_find _ _) as [[i o]|]; [|done]. by intros [= <- _]. Qed.
Lemma opts_loop_core strtof answers : forall st st', opts_loop strtof answers st = Ok (Some st') -> core (p_test st') = core (p_test st).
Proof.
  induction answers as [|[opt arg] k IH]; intros st st' H; cbn [opts_loop] in H; [by injection H as ->|].
  repeat (case_match; [try done|]); inv_ok; try (match goal with H : opts_loop _ _ _ = _ |- _ => apply IH in H; rewrite H end); try done.
  cbn [p_test]. by eapply parse_topt_core.
Qed.
Lemma parse_opts_core strtof t answers rest st : parse_opts strtof t answers rest = Ok (Some st) -> core (p_test st) = core t.
Proof. unfold parse_opts. intros H. inv_ok. destruct x1 as [st'|]; [|done]. destruct rest; [|done]. injection H as ->. by apply opts_loop_core in H2. Qed.

(** What the description asks of the system is there. *)
Definition requirements_met (env : sysenv) (t : tst_test) : Prop :=
  (t_needs_kconfigs t = true -> s_kconfig_unsuitable env = false) /\ (t_needs_root t = true -> s_euid env = 0) /\ (t_min_kver t = true -> s_kver env = None) /\
  (t_supported_archs t = true -> s_on_arch env = true) /\ (t_skip_in_lockdown t = true -> s_lockdown env = false) /\ (t_skip_in_compat t = true -> s_compat env = false) /\
  (t_needs_cmds t = true -> s_cmds env = None) /\ (t_needs_drivers t = true -> s_driver_missing env = false) /\
  t_min_cpus t <= wrap_u 64 (s_ncpus env) /\ t_min_mem_avail t <= wrap_u 64 (Z.quot (s_available_mem env) 1024) /\ (t_hugepages t = true -> s_hugepages env = None).
Lemma requirements_ok env t u v : check_requirements env t = Ok u -> check_resources env t = Ok v -> requirements_met env t.
Proof.
  unfold check_requirements, check_resources, requirements_met. intros H1 H2. inv_ok. split_and!; intros; try lia;
    repeat match goal with E : ?b = true, H : (?b && _) = false |- _ => rewrite E in H; cbn [andb] in H | E : ?b = true, H : (if ?b then _ else _) = Ok _ |- _ => rewrite E in H; inv_ok end;
    try done; try (by apply negb_false_iff in H0); match goal with H : negb _ = false |- _ => apply negb_false_iff in H; try apply Z.eqb_eq in H; done end.
Qed.
Lemma requirements_core env t t' : fixed t' = fixed t -> requirements_met env t -> requirements_met env t'.
Proof. intros E. unfold requirements_met. destruct t, t'. cbn in *. by simplify_eq. Qed.

(** C31: a test that passes [do_setup] is consistent.  It has exactly one test
    function (before a [sample] function is replaced), and what it asks of the system
    is there.  Its description has not changed but for options and the runtime, and
    for the flags of the device, which follow from those for formatting, mounting and
    testing all file systems and from a read-only tmpfs that could not be mounted.
    There is a mount point whenever something is to be mounted; a device has been
    acquired if and only if one is needed; the mount point is mounted if and only if
    the description asks for it and the system provides it; an overlay is mounted if and
    only if it is needed, and then on a mounted device; there is a temporary directory
    when one is needed; and only one of [needs_rofs], [needs_devfs], [needs_device]
    and [needs_hugetlbfs] is set, the fallback of [needs_rofs] to a device apart. *)
Theorem setup_consistent env strtof timer t answers rest st :
  do_setup env strtof timer t answers rest = Ok (Some st) ->
  let t' := if t_sample t then timer t else t in
  let u := d_test st in
  (b2z (t_test t) + b2z (t_test_all t) + b2z (t_sample t) = 1 /\ (t_test t = true <-> t_tcnt t <> 0)) /\
  requirements_met env t' /\
  (fixed u = fixed t' /\ t_format_device u = t_format_device t' || t_mount_device t' || falls_back env t' /\
   t_needs_device u = t_needs_device t' || t_format_device u || t_all_filesystems t') /\
  (t_needs_devfs u || t_needs_rofs u || t_mount_device u || t_all_filesystems u || t_needs_hugetlbfs u = true -> t_mntpoint u = true) /\
  d_device st = t_needs_device u /\ d_mounted st = mounts env u /\
  d_ovl st = t_needs_overlay u /\ (t_needs_overlay u = true -> t_mount_device u = true /\ d_mounted st = true) /\
  d_tmpdir st = needs_tmpdir u || s_tmpdir_created env /\
  (t_needs_cgroup_ver u = true -> t_needs_cgroup_ctrls u = true) /\
  exclusive env u <= 1.
Proof.
  unfold do_setup. destruct (t_max_runtime t <? -1); [done|]. destruct (t_tconf_msg t); [done|].
  set (t' := if t_sample t then timer t else t). intros H. apply bind_Ok in H as (u1 & Hfn & H). apply bind_Ok in H as (o & Hopts & H).
  destruct o as [ps|]; [|done]. apply parse_opts_core in Hopts. set (q := p_test ps) in *. clearbody t' q.
  inv_ok. rename t0 into u, b0 into mounted, b into device, x5 into ovl. cbn [d_test d_device d_ovl d_mounted d_tmpdir].
  destruct (setup_mounts_ok _ _ _ _ _ (imply_device_ok q) H6) as (Hmnt & Eu & Hex & Hdev & Hm). destruct (setup_rest_ok _ _ _ _ H7) as (Ho & Hov & Hcg).
  assert (Hfix : fixed u = fixed q) by by rewrite Eu. assert (Hfix' : fixed q = fixed t') by (unfold fixed; by rewrite Hopts).
  split; [by eapply assert_test_fn_ok|]. split_and!; try done.
  - apply (requirements_core env q t'); [done|]. by eapply requirements_ok.
  - congruence.
  - rewrite Eu. clear -Hopts. destruct q, t'. cbn in *. by simplify_eq.
  - rewrite Eu. clear -Hopts. destruct q, t'. cbn in *. simplify_eq. unfold falls_back. cbn. destruct t_needs_device1, t_format_device1, t_mount_device1, t_all_filesystems1, (t_needs_rofs1 && negb (s_rofs_mounts env)); done.
  - by rewrite Eu.
  - assert (needs_tmpdir u = needs_tmpdir (imply_device q)) as ->; [|by destruct (needs_tmpdir _), (s_tmpdir_created env)]. rewrite Eu. unfold needs_tmpdir, falls_back. cbn in Hmnt |- *. destruct (t_needs_rofs q); cbn [andb]; [|by rewrite orb_false_r].
    rewrite Hmnt by (by rewrite orb_true_r). by rewrite !orb_true_r.
Qed.

Definition ex_test : tst_test :=
  mkTest true 3 false false [mkOption (str "s:") None (str "size")] 0 None false true false false
    false false false false 0 0 false false false false true true false false false false false false
    true false false.
Definition ex_sys : sysenv :=
  mkSys false 0 None true false false None false 4 4096000 None None None false None None None
    false None true None None true None true None None None None None None.

Lemma setup_consistent_witness :
  exists st, do_setup ex_sys (fun _ => true) (fun t => t) ex_test [("i"%ch, Some (str "5"))] [] = Ok (Some st) /\
    fixed (d_test st) = fixed ex_test /\ d_device st = true /\ d_mounted st = mounts ex_sys (d_test st) /\ d_ovl st = true /\ exclusive ex_sys (d_test st) <= 1.
Proof.
  eexists. split; [vm_compute; reflexivity|].
  destruct (setup_consistent ex_sys (fun _ => true) (fun t => t) ex_test [("i"%ch, Some (str "5"))] [] _ ltac:(vm_compute; reflexivity)) as (_ & _ & (Hf & _) & _ & Hd & Hm & Ho & _ & _ & _ & He).
  split_and!; [exact Hf|exact Hd|exact Hm|exact Ho|exact He].
Defined.

Lemma strcat_all_ok size srcs : forall dst,
  (length dst + length (concat srcs) + 1 <= size)%nat ->
  strcat_all size dst srcs = Ok (dst ++ concat srcs).
Proof.
  induction srcs as [|s srcs IH]; intros dst H; cbn [strcat_all concat]; [by rewrite app_nil_r|].
  cbn [concat] in H. rewrite length_app in H. unfold strcat. rewrite (proj2 (Nat.leb_le _ _)) by lia.
  cbn [mbind res_bind]. rewrite IH by (rewrite length_app; lia). by rewrite <-app_assoc.
Qed.

Lemma optstrs_length (os : list tst_option) :
  Forall (fun o => length (o_optstr o) <= 2)%nat os ->
  (length (concat (map o_optstr os)) <= 2 * length os)%nat.
Proof.
  induction 1 as [|o os Ho _ IH]; cbn [map concat length]; [lia|]. rewrite length_app. lia.
Qed.

(** The array for the option string has exactly the room it needs: options
    of one letter, with or without an argument, never overflow it. *)
Theorem optstr_fits t :
  Forall (fun o => length (o_optstr o) <= 2)%nat (t_options t) ->
  build_optstr t = Ok (str "hi:I:C:" ++ concat (map o_optstr (t_options t))).
Proof.
  intros Ho. unfold build_optstr, count_options. pose proof (optstrs_length _ Ho).
  rewrite strcat_all_ok; [by rewrite concat_app|].
  rewrite concat_app, length_app. change (length (concat (map fst options))) with 7%nat.
  change (length options) with 4%nat. cbn [length]. lia.
Qed.

Lemma optstr_fits_witness :
  build_optstr ex_test = Ok (str "hi:I:C:" ++ concat (map o_optstr (t_options ex_test))).
Proof. apply optstr_fits. repeat constructor. Defined.

(** A test description with a runtime below -1 is meant to be refused with
    TBROK, but the message reads the results before they are mapped. *)
Theorem setup_bad_runtime env strtof timer t answers rest :
  t_max_runtime t < -1 -> do_setup env strtof timer t answers rest = Fault.
Proof. intros H%Z.ltb_lt. unfold do_setup. by rewrite H. Qed.
