(* ===== verification/Zoo.v ===== *)
(** * The active file of the test driver: [pan/zoolib.c]

    The zoo is a text file in which every running process has one line.  The
    model is on the characters of the file, with the positions the code seeks
    to; the specification is on its lines. *)

From stdpp Require Import base list strings gmap.
From Stdlib Require Import ZArith Lia.
From S2P Require Import Prelude ParseNum.

Local Open Scope Z_scope.

Definition BUFLEN : nat := 81.

(** ** The file *)

(** What [fgets(buf, BUFLEN, fp)] reads: up to a newline, at most [n]
    characters. *)
Fixpoint fgets (n : nat) (s : cstr) : cstr :=
  match n, s with
  | O, _ | _, [] => []
  | S n', c :: s' => if c =? NEWLINE then [c] else c :: fgets n' s'
  end.

(** Writing at a position replaces what is there and extends the file. *)
Definition write_at (f : cstr) (pos : nat) (s : cstr) : cstr :=
  take pos f ++ s ++ drop (pos + length s) f.

(** [%-*.*s]: truncated and padded with blanks on the right. *)
Definition pad (n : nat) (s : cstr) : cstr := take n s ++ repeat " "%ch (n - length s).

(** The position and the line of the first line that satisfies [p]; one call
    of [fgets] per unit of fuel. *)
Fixpoint find_line (fuel : nat) (p : cstr -> bool) (f : cstr) (pos : nat) : option (nat * cstr) :=
  match fuel with
  | O => None
  | S fuel' =>
      match fgets (BUFLEN - 1) (drop pos f) with
      | [] => None
      | buf => if p buf then Some (pos, buf) else find_line fuel' p f (pos + length buf)
      end
  end.

Definition atoi (s : cstr) : Z := wrap_s 32 (st_val (strtol LLONG_MIN LLONG_MAX 10 s)).

Definition recycled (buf : cstr) : bool := at_ buf 0 =? "#"%ch.

(** ** Operations *)

(** The locks are taken and released without error. *)
Definition zoo_mark (z : cstr) (entry : cstr) : cstr :=
  match find_line (S (length z)) recycled z 0 with
  | Some (pos, buf) => write_at z pos (pad (length buf - 1) entry ++ [NEWLINE])
  | None => z ++ pad 79 entry ++ [NEWLINE]
  end.

Definition zoo_entry (p : Z) (tag cmdline : cstr) : cstr :=
  take 79 (dec p ++ str "," ++ tag ++ str "," ++ cmdline).

Definition zoo_mark_cmdline (z : cstr) (p : Z) (tag cmdline : cstr) : cstr :=
  zoo_mark z (zoo_entry p tag cmdline).

Fixpoint cat_args (av : list cstr) : cstr :=
  match av with
  | [] => []
  | [a] => a
  | a :: av' => a ++ str " " ++ cat_args av'
  end.

Definition zoo_mark_args (z : cstr) (p : Z) (tag : cstr) (av : list cstr) : cstr :=
  zoo_mark_cmdline z p tag (cat_args av).

Definition holds_pid (p : Z) (buf : cstr) : bool := negb (recycled buf) && (atoi buf =? p).

(** [None]: the pid is not found, and the file is unchanged. *)
Definition zoo_clear (z : cstr) (p : Z) : option cstr :=
  match find_line (S (length z)) (holds_pid p) z 0 with
  | Some (pos, _) => Some (write_at z pos ["#"%ch])
  | None => None
  end.

Definition tag_matches (tag buf : cstr) : bool :=
  negb (recycled buf) &&
  match strchr buf ","%ch with
  | None => false
  | Some s => strneq (length tag) (drop 1 s) tag
  end.

Definition zoo_getpid (z : cstr) (tag : cstr) : Z :=
  match find_line (S (length z)) (tag_matches tag) z 0 with
  | Some (_, buf) => atoi buf
  | None => -1
  end.

Definition zoo_getname (zoo : option cstr) : option cstr :=
  match zoo with
  | Some d => Some (take 1023 (d ++ str "/" ++ str "active"))
  | None => None
  end.

Example zoo_ex :
  let z1 := zoo_mark_cmdline [] 120 (str "pan") (str "cmd") in
  let z2 := zoo_mark_cmdline z1 7 (str "t") (str "x") in
  (zoo_getpid z2 (str "t"), option_map (fun z => zoo_getpid z (str "p")) (zoo_clear z2 120),
   zoo_clear z2 12, zoo_getpid (zoo_mark_cmdline (default [] (zoo_clear z2 120)) 33 (str "new") (str "y")) (str "new"))
  = (7, Some (-1), None, 33).
Proof. vm_compute. reflexivity. Qed.

(** ** The lines *)

Definition line (r : cstr) : cstr := r ++ [NEWLINE].
Definition file (rs : list cstr) : cstr := concat (map line rs).
Definition rec_ok (r : cstr) : Prop := length r = 79%nat /\ NEWLINE ∉ r.

(** The first record whose line satisfies [p], with what is around it. *)
Fixpoint first_rec (p : cstr -> bool) (rs : list cstr) : option (list cstr * cstr * list cstr) :=
  match rs with
  | [] => None
  | r :: rs' =>
      if p (line r) then Some ([], r, rs')
      else match first_rec p rs' with Some (l, r', k) => Some (r :: l, r', k) | None => None end
  end.

Lemma first_rec_spec p rs : match first_rec p rs with
  | Some (l, r, k) => rs = l ++ r :: k /\ p (line r) = true
  | None => Forall (fun r => p (line r) = false) rs
  end.
Proof.
  induction rs as [|r rs IH]; simpl; [constructor|]. destruct (p (line r)) eqn:E; [done|].
  destruct (first_rec p rs) as [[[l r'] k]|]; [|by constructor]. by destruct IH as [-> ?].
Qed.

Lemma fgets_whole n r t : NEWLINE ∉ r -> (length r < n)%nat -> fgets n (line r ++ t) = line r.
Proof.
  revert n. induction r as [|c r IH]; intros [|n] Hr Hn; simpl in *; try lia; [done|].
  apply not_elem_of_cons in Hr as [Hc Hr]. rewrite (proj2 (Z.eqb_neq c NEWLINE)) by congruence.
  change (line (c :: r)) with (c :: line r). f_equal. apply IH; [done|lia].
Qed.

Lemma line_length r : rec_ok r -> length (line r) = 80%nat.
Proof. intros [Hl _]. unfold line. rewrite length_app. simpl. lia. Qed.

Lemma file_app rs1 rs2 : file (rs1 ++ rs2) = file rs1 ++ file rs2.
Proof. unfold file. by rewrite map_app, concat_app. Qed.
Lemma file_cons r rs : file (r :: rs) = line r ++ file rs.
Proof. done. Qed.

Lemma file_length rs : Forall rec_ok rs -> length (file rs) = (80 * length rs)%nat.
Proof.
  induction 1 as [|r rs Hr _ IH]; [done|]. rewrite file_cons, length_app, line_length, IH by done. simpl. lia.
Qed.

(** The loop over the lines finds the first record. *)
Lemma find_line_file p rs : forall fuel pre, Forall rec_ok rs -> (length rs < fuel)%nat ->
  find_line fuel p (file pre ++ file rs) (length (file pre)) =
  match first_rec p rs with
  | Some (l, r, _) => Some (length (file (pre ++ l)), line r)
  | None => None
  end.
Proof.
  induction rs as [|r rs IH]; intros [|fuel] pre Hok Hf; simpl in Hf; try lia; cbn [find_line first_rec].
  - by rewrite app_nil_r, drop_all.
  - apply Forall_cons in Hok as [Hr Hok]. rewrite drop_app_length, file_cons.
    rewrite fgets_whole by (unfold BUFLEN; destruct Hr; done || lia).
    destruct (line r) as [|c s] eqn:El; [by apply line_length in Hr; rewrite El in Hr|]. rewrite <-El. clear El.
    destruct (p (line r)); [by rewrite app_nil_r|].
    specialize (IH fuel (pre ++ [r]) Hok ltac:(lia)). rewrite file_app, <-app_assoc, length_app in IH.
    replace (file [r]) with (line r) in IH by (cbn; by rewrite app_nil_r). rewrite IH.
    destruct (first_rec p rs) as [[[l r'] k]|]; [|done]. by rewrite <-app_assoc.
Qed.

Lemma find_in_file p rs : Forall rec_ok rs ->
  find_line (S (length (file rs))) p (file rs) 0 =
  match first_rec p rs with Some (l, r, _) => Some (length (file l), line r) | None => None end.
Proof.
  intros Hok. apply (find_line_file p rs _ []); [done|]. rewrite file_length by done. lia.
Qed.

Lemma write_record l r r' k : length r' = length (line r) ->
  write_at (file (l ++ r :: k)) (length (file l)) r' = file l ++ r' ++ file k.
Proof.
  intros Hl. unfold write_at. rewrite file_app, file_cons, take_app_length. do 2 f_equal.
  rewrite !skipn_app, !skipn_all2 by lia. rewrite Hl, Nat.add_comm, Nat.add_sub, Nat.sub_diag. done.
Qed.

(** ** The processes of a zoo *)

Definition live (rs : list cstr) : list cstr := List.filter (fun r => negb (recycled (line r))) rs.
Definition pids (rs : list cstr) : list Z := map (fun r => atoi (line r)) (live rs).

(** [z] is a file of [n] lines of 79 characters that has one line for each of [ps]. *)
Definition zoo_holds (z : cstr) (n : nat) (ps : list Z) : Prop :=
  exists rs, Forall rec_ok rs /\ z = file rs /\ length rs = n /\ pids rs ≡ₚ ps.

Lemma pids_app l k : pids (l ++ k) = pids l ++ pids k.
Proof. unfold pids, live. by rewrite List.filter_app, map_app. Qed.
Lemma pids_cons r k : pids (r :: k) = (if recycled (line r) then [] else [atoi (line r)]) ++ pids k.
Proof. unfold pids, live. simpl. by destruct (recycled (line r)). Qed.

Lemma pids_length rs : (length (pids rs) <= length rs)%nat.
Proof. induction rs as [|r rs IH]; [done|]. rewrite pids_cons, length_app. case_match; simpl; lia. Qed.
Lemma pids_all_live rs : Forall (fun r => recycled (line r) = false) rs -> length (pids rs) = length rs.
Proof. induction 1 as [|r rs Hr _ IH]; [done|]. rewrite pids_cons, Hr. simpl. lia. Qed.

Lemma dec_length z : 0 <= z <= INT_MAX -> (length (dec z) <= 32)%nat.
Proof.
  intros Hz. unfold dec. rewrite (proj2 (Z.ltb_ge z 0)), Z.abs_eq by lia. rewrite app_nil_l.
  etransitivity; [apply dec_digits_length|]. cbn [length].
  pose proof (Z.log2_le_mono z INT_MAX ltac:(lia)) as H. change (Z.log2 INT_MAX) with 30 in H. lia.
Qed.

(** The line of an entry begins with the pid and a comma. *)
Lemma entry_line p tag cmd : 0 <= p <= INT_MAX ->
  exists t, line (pad 79 (zoo_entry p tag cmd)) = dec p ++ ","%ch :: t.
Proof.
  intros Hp. pose proof (dec_length p Hp) as Hl. unfold line, pad, zoo_entry.
  rewrite take_take, Nat.min_id, take_app_ge by lia. change (str "," ++ ?x) with (","%ch :: x).
  destruct (79 - length (dec p))%nat as [|n] eqn:E; [lia|]. rewrite firstn_cons, <-!app_assoc. by eexists.
Qed.

Lemma atoi_dec p t : 0 <= p <= INT_MAX -> atoi (dec p ++ ","%ch :: t) = p.
Proof.
  intros Hp. unfold atoi. destruct (dec_split p) as (ds & -> & Hne & Hall & Hv & _).
  rewrite (proj2 (Z.ltb_ge p 0)) by lia. rewrite app_nil_l.
  rewrite (strtol_digits _ _ 10 false ds (","%ch :: t)) by done. rewrite Hv, Z.abs_eq by lia.
  unfold clamp. rewrite (proj2 (Z.ltb_ge _ _)), (proj2 (Z.ltb_ge _ _)) by (unfold LLONG_MIN, LLONG_MAX, INT_MAX in *; lia).
  apply wrap_s_id; unfold INT_MAX in *; simpl; lia.
Qed.

Lemma dec_not_recycled p t : 0 <= p -> recycled (dec p ++ t) = false.
Proof.
  intros Hp. destruct (dec_split p) as (ds & -> & Hne & Hall & _). rewrite (proj2 (Z.ltb_ge p 0)) by lia.
  destruct ds as [|c ds]; [done|]. simpl in Hall. apply andb_true_iff in Hall as [Hc _].
  unfold recycled, at_. simpl. apply Z.eqb_neq. intros ->. by vm_compute in Hc.
Qed.

Lemma pad_length n s : length (pad n s) = n.
Proof. unfold pad. rewrite length_app, repeat_length, length_take. lia. Qed.

Lemma entry_ok p tag cmd : 0 <= p <= INT_MAX -> NEWLINE ∉ tag -> NEWLINE ∉ cmd ->
  rec_ok (pad 79 (zoo_entry p tag cmd)).
Proof.
  intros Hp Ht Hc. split; [apply pad_length|].
  destruct (dec_split p) as (ds & Hd & _ & Hall & _). rewrite (proj2 (Z.ltb_ge p 0)) in Hd by lia. simpl in Hd.
  assert (Hds : NEWLINE ∉ ds).
  { intros Hin%list_elem_of_In. by apply (proj1 (forallb_forall _ _) Hall) in Hin. }
  unfold pad, zoo_entry. rewrite not_elem_of_app. split.
  - intros [i Hi]%list_elem_of_lookup. apply lookup_take_Some in Hi as [Hi _]. apply lookup_take_Some in Hi as [Hi _].
    apply list_elem_of_lookup_2 in Hi. revert Hi. rewrite Hd. change (str ",") with [","%ch]. rewrite !elem_of_app, !list_elem_of_singleton.
    intros [?|[?|[?|[?|?]]]]; done.
  - intros H%list_elem_of_In%repeat_spec. done.
Qed.

(** ** Marking and clearing *)

(** The file after a process is marked, with its record. *)
Lemma zoo_mark_records z n ps p tag cmd : zoo_holds z n ps ->
  0 <= p <= INT_MAX -> NEWLINE ∉ tag -> NEWLINE ∉ cmd -> exists rs,
  pad 79 (zoo_entry p tag cmd) ∈ rs /\ Forall rec_ok rs /\ zoo_mark_cmdline z p tag cmd = file rs /\
  length rs = Nat.max n (S (length ps)) /\ pids rs ≡ₚ p :: ps.
Proof.
  intros (rs & Hok & -> & Hn & Hps) Hp Ht Hc. unfold zoo_mark_cmdline, zoo_mark. rewrite find_in_file by done.
  set (e := zoo_entry p tag cmd).
  assert (Hpid : forall k, pids (pad 79 e :: k) = p :: pids k).
  { intros k. destruct (entry_line p tag cmd Hp) as [t Hl]. unfold e. rewrite pids_cons, Hl.
    rewrite dec_not_recycled, atoi_dec by lia. done. }
  pose proof (first_rec_spec recycled rs) as Hf. destruct (first_rec recycled rs) as [[[l r] k]|].
  - destruct Hf as [-> Hr]. rewrite Forall_app, Forall_cons in Hok. destruct Hok as (Hl & Hrk & Hk).
    rewrite line_length by done. change (80 - 1)%nat with 79%nat.
    exists (l ++ pad 79 e :: k). rewrite pids_app, pids_cons, Hr in Hps. split_and!.
    + set_solver.
    + rewrite Forall_app, Forall_cons. eauto using entry_ok.
    + rewrite write_record by (rewrite length_app, pad_length, line_length by done; done).
      rewrite file_app, file_cons. done.
    + rewrite <-Hn, !length_app. apply Permutation_length in Hps. rewrite length_app in Hps. simpl in *.
      pose proof (pids_length l). pose proof (pids_length k). lia.
    + by rewrite pids_app, Hpid, <-Hps, Permutation_middle.
  - exists (rs ++ [pad 79 e]). split_and!.
    + set_solver.
    + rewrite Forall_app, Forall_singleton. eauto using entry_ok.
    + rewrite file_app. cbn. by rewrite app_nil_r.
    + rewrite length_app. rewrite <-Hps. rewrite pids_all_live by done. simpl. lia.
    + rewrite pids_app, Hpid, <-Hps. cbn. by rewrite <-Permutation_cons_append.
Qed.

Lemma zoo_mark_holds z n ps p tag cmd : zoo_holds z n ps ->
  0 <= p <= INT_MAX -> NEWLINE ∉ tag -> NEWLINE ∉ cmd ->
  zoo_holds (zoo_mark_cmdline z p tag cmd) (Nat.max n (S (length ps))) (p :: ps).
Proof. intros H Hp Ht Hc. destruct (zoo_mark_records z n ps p tag cmd H Hp Ht Hc) as (rs & _ & Hrs). by exists rs. Qed.

Lemma in_pids p rs : p ∈ pids rs <->
  exists r, r ∈ rs /\ holds_pid p (line r) = true.
Proof.
  unfold pids, live, holds_pid. rewrite list_elem_of_In, in_map_iff. setoid_rewrite filter_In.
  setoid_rewrite list_elem_of_In. setoid_rewrite andb_true_iff. setoid_rewrite Z.eqb_eq. naive_solver.
Qed.

Lemma clear_line r : rec_ok r -> line ("#"%ch :: drop 1 r) = "#"%ch :: drop 1 (line r) /\ rec_ok ("#"%ch :: drop 1 r).
Proof.
  intros [Hl Hr]. destruct r as [|c r]; [done|]. split; [done|]. split; [done|].
  rewrite not_elem_of_cons in *. split; [done|]. apply Hr.
Qed.

Lemma write_char (a b k : cstr) c : b <> [] ->
  write_at (a ++ b ++ k) (length a) [c] = a ++ (c :: drop 1 b) ++ k.
Proof.
  intros Hb. destruct b as [|x b]; [done|]. unfold write_at. rewrite take_app_length. f_equal.
  simpl length. rewrite skipn_app, skipn_all2 by lia. rewrite Nat.add_comm, Nat.add_sub. done.
Qed.

Lemma zoo_clear_holds z n ps p : zoo_holds z n ps ->
  if bool_decide (p ∈ ps)
  then exists z' ps', zoo_clear z p = Some z' /\ ps ≡ₚ p :: ps' /\ zoo_holds z' n ps'
  else zoo_clear z p = None.
Proof.
  intros (rs & Hok & -> & Hn & Hps). unfold zoo_clear. rewrite find_in_file by done.
  pose proof (first_rec_spec (holds_pid p) rs) as Hf.
  destruct (first_rec (holds_pid p) rs) as [[[l r] k]|].
  - destruct Hf as [-> Hq]. rewrite Forall_app, Forall_cons in Hok. destruct Hok as (Hl & Hr & Hk).
    rewrite bool_decide_eq_true_2.
    2:{ rewrite <-Hps. apply in_pids. exists r. split; [|done]. rewrite elem_of_app, elem_of_cons. auto. }
    destruct (clear_line r Hr) as [El Hr']. apply andb_true_iff in Hq as [Hrec Hp]. apply negb_true_iff in Hrec. apply Z.eqb_eq in Hp.
    exists (file (l ++ ("#"%ch :: drop 1 r) :: k)), (pids (l ++ ("#"%ch :: drop 1 r) :: k)). split_and!.
    + rewrite !file_app, !file_cons, El. f_equal. apply write_char. by destruct r.
    + rewrite <-Hps, !pids_app, !pids_cons, Hrec, Hp. cbn. by rewrite Permutation_middle.
    + exists (l ++ ("#"%ch :: drop 1 r) :: k). rewrite Forall_app, Forall_cons, <-Hn, !length_app. done.
  - rewrite bool_decide_eq_false_2; [done|]. rewrite <-Hps. intros (r & Hin & Hr)%in_pids.
    rewrite Forall_forall in Hf. specialize (Hf r Hin). simpl in Hf. congruence.
Qed.

#[export] Instance zoo_holds_proper z n : Proper ((≡ₚ) ==> iff) (zoo_holds z n).
Proof. intros ps ps' E. unfold zoo_holds. by setoid_rewrite E. Qed.

Lemma zoo_getpid_live z n ps tag : zoo_holds z n ps -> zoo_getpid z tag = -1 \/ zoo_getpid z tag ∈ ps.
Proof.
  intros (rs & Hok & -> & Hn & Hps). unfold zoo_getpid. rewrite find_in_file by done.
  pose proof (first_rec_spec (tag_matches tag) rs) as Hf.
  destruct (first_rec (tag_matches tag) rs) as [[[l r] k]|]; [|by left]. right.
  destruct Hf as [-> Hm]. rewrite <-Hps. apply in_pids. exists r. split; [set_solver|].
  unfold holds_pid. rewrite Z.eqb_refl, andb_true_r. by apply andb_true_iff in Hm as [? _].
Qed.

(** The line of a process has its tag, if it is not cut. *)
Lemma entry_tag p tag cmd : 0 <= p <= INT_MAX -> (length (dec p) + S (length tag) <= 79)%nat ->
  tag_matches tag (line (pad 79 (zoo_entry p tag cmd))) = true.
Proof.
  intros Hp Hl. assert (Hline : exists t, line (pad 79 (zoo_entry p tag cmd)) = dec p ++ ","%ch :: tag ++ t).
  { unfold line, pad, zoo_entry. change (str "," ++ ?x) with (","%ch :: x). rewrite take_take, Nat.min_id. rewrite take_app_ge by lia.
    destruct (79 - length (dec p))%nat as [|k] eqn:E; [lia|]. cbn [take]. rewrite take_app_ge by lia. rewrite <-!app_assoc. cbn [app]. rewrite <-!app_assoc. by eexists. }
  destruct Hline as [t ->]. unfold tag_matches. rewrite dec_not_recycled by lia.
  assert (Hd : forallb (fun c => negb (c =? ","%ch)) (dec p) = true).
  { destruct (dec_split p) as (ds & -> & _ & Hall & _). rewrite (proj2 (Z.ltb_ge p 0)) by lia. apply forallb_forall. intros c Hin. rewrite forallb_forall in Hall. specialize (Hall c Hin). apply negb_true_iff, Z.eqb_neq. intros ->. by vm_compute in Hall. }
  assert (Hs : strchr (dec p ++ ","%ch :: tag ++ t) ","%ch = Some (","%ch :: tag ++ t)).
  { clear Hl. induction (dec p) as [|c ds IH]; [done|]. cbn in Hd |- *. apply andb_true_iff in Hd as [Hc Hd]. apply negb_true_iff in Hc. rewrite Hc. by apply IH. }
  rewrite Hs. cbn [negb andb drop]. clear. induction tag as [|c tag IH]; [done|]. cbn. by rewrite Z.eqb_refl.
Qed.
Lemma zoo_getpid_marked z n ps p tag cmd : zoo_holds z n ps -> 0 <= p <= INT_MAX -> NEWLINE ∉ tag -> NEWLINE ∉ cmd -> (length (dec p) + S (length tag) <= 79)%nat ->
  zoo_getpid (zoo_mark_cmdline z p tag cmd) tag ∈ p :: ps.
Proof.
  intros H Hp Ht Hc Hl. destruct (zoo_mark_records z n ps p tag cmd H Hp Ht Hc) as (rs & Hin & Hok & -> & _ & Hps). pose proof (entry_tag p tag cmd Hp Hl) as Hm.
  unfold zoo_getpid. rewrite find_in_file by done. pose proof (first_rec_spec (tag_matches tag) rs) as Hf. destruct (first_rec (tag_matches tag) rs) as [[[l r] k]|].
  - destruct Hf as [-> Hr]. rewrite <-Hps. apply in_pids. exists r. split; [set_solver|]. unfold holds_pid. rewrite Z.eqb_refl, andb_true_r. by apply andb_true_iff in Hr as [? _].
  - rewrite Forall_forall in Hf. specialize (Hf _ Hin). simpl in Hf. congruence.
Qed.

(** What the driver relies on: a file of processes, in which a process that was
    marked is found and removed again. *)
Class ActiveFile (A : Type) := {
  af_mark : A -> Z -> cstr -> cstr -> A;
  af_clear : A -> Z -> option A;
  af_holds : A -> list Z -> Prop;
  af_holds_proper a :: Proper ((≡ₚ) ==> iff) (af_holds a);
  af_mark_holds a ps p tag cmd : af_holds a ps -> 0 <= p <= INT_MAX ->
    NEWLINE ∉ tag -> NEWLINE ∉ cmd -> af_holds (af_mark a p tag cmd) (p :: ps);
  af_clear_holds a ps p : af_holds a (p :: ps) -> exists a', af_clear a p = Some a' /\ af_holds a' ps
}.

#[export, refine] Instance zoo_active_file : ActiveFile cstr := {|
  af_mark := zoo_mark_cmdline; af_clear := zoo_clear; af_holds z ps := exists n, zoo_holds z n ps
|}.
Proof.
  - intros z ps ps' E. by setoid_rewrite E.
  - intros z ps p tag cmd [n H] Hp Ht Hc. eexists. by apply (zoo_mark_holds z n).
  - intros z ps p [n H]. pose proof (zoo_clear_holds z n (p :: ps) p H) as Hcl.
    rewrite bool_decide_eq_true_2 in Hcl by apply list_elem_of_here.
    destruct Hcl as (z' & ps' & Hz & Hps & Hh). exists z'. split; [done|]. exists n.
    by rewrite (Permutation_cons_inv Hps).
Defined.

(** C30: the zoo file keeps one line of 79 characters per process.  Marking a
    process reuses a recycled line and grows the file only when there is none;
    clearing it recycles exactly one line of that process and finds it exactly
    when it is there; a pid that is looked up by its tag is one of a marked
    process, and one is found for the tag of a process that is marked, if the tag
    fits on the line. *)
Theorem zoo_tracks_processes z n ps p tag cmd :
  zoo_holds z n ps -> 0 <= p <= INT_MAX -> NEWLINE ∉ tag -> NEWLINE ∉ cmd ->
  let z1 := zoo_mark_cmdline z p tag cmd in
  let n1 := Nat.max n (S (length ps)) in
  zoo_holds z1 n1 (p :: ps) /\
  (exists z2, zoo_clear z1 p = Some z2 /\ zoo_holds z2 n1 ps) /\
  (p ∉ ps -> zoo_clear z p = None) /\
  (zoo_getpid z tag = -1 \/ zoo_getpid z tag ∈ ps) /\
  ((length (dec p) + S (length tag) <= 79)%nat -> zoo_getpid z1 tag ∈ p :: ps).
Proof.
  intros H Hp Ht Hc z1 n1. pose proof (zoo_mark_holds z n ps p tag cmd H Hp Ht Hc) as H1. split_and!; [done| | | |].
  - pose proof (zoo_clear_holds z1 n1 (p :: ps) p H1) as Hcl. rewrite bool_decide_eq_true_2 in Hcl by apply list_elem_of_here.
    destruct Hcl as (z2 & ps' & Hz & Hps & Hh). exists z2. by rewrite (Permutation_cons_inv Hps).
  - intros Hn. pose proof (zoo_clear_holds z n ps p H) as Hcl. by rewrite bool_decide_eq_false_2 in Hcl.
  - by apply (zoo_getpid_live z n).
  - by apply (zoo_getpid_marked z n).
Qed.

Lemma zoo_tracks_processes_witness :
  let z := zoo_mark_cmdline [] 12 (str "t1") (str "ls -l") in
  let z1 := zoo_mark_cmdline z 7 (str "t2") (str "cat") in
  zoo_holds z1 2 [7; 12] /\ (exists z2, zoo_clear z1 7 = Some z2 /\ zoo_holds z2 2 [12]) /\
  (7 ∉ [12] -> zoo_clear z 7 = None) /\ (zoo_getpid z (str "t2") = -1 \/ zoo_getpid z (str "t2") ∈ [12]) /\
  ((length (dec 7) + S (length (str "t2")) <= 79)%nat -> zoo_getpid z1 (str "t2") ∈ [7; 12]).
Proof.
  refine (zoo_tracks_processes (zoo_mark_cmdline [] 12 (str "t1") (str "ls -l")) 1 [12] 7 (str "t2") (str "cat") _ _ _ _).
  - exists [pad 79 (str "12,t1,ls -l")]. split_and!; [|vm_compute; reflexivity|done|vm_compute; reflexivity].
    repeat constructor. apply (forallb_notin (fun c => negb (c =? NEWLINE))); reflexivity.
  - split; zeval.
  - apply (forallb_notin (fun c => negb (c =? NEWLINE))); reflexivity.
  - apply (forallb_notin (fun c => negb (c =? NEWLINE))); reflexivity.
Defined.
