(* ===== verification/Pan.v ===== *)
(** * The test driver: [pan/ltp-pan.c] and [pan/splitstr.c]

    [ltp-pan] keeps a number of tests running, reaps them, writes their results
    and exits with the number of failures.  Its main loop is a step relation:
    one step starts a test, one finishes a round (stop file, signals, [wait]);
    a signal can arrive between any two and while the round waits, and it can
    interrupt the start of a test. *)

From stdpp Require Import base list strings gmap.
From Stdlib Require Import ZArith Lia.
From S2P Require Import Prelude ParseNum Tokens Results Zoo.

Local Open Scope Z_scope.

(** ** [splitstr] *)

(** The tokens so far in reverse and the size of the array. *)
Fixpoint split_loop (fuel : nat) (sep : Z -> bool) (s : cstr) (toks : list cstr) (max_toks : nat)
    : res unit (list cstr * nat) :=
  match fuel with
  | O => Fault
  | S fuel' =>
      match strtok sep s with
      | None => Ok (rev toks, max_toks)
      | Some (tok, rest) =>
          if (max_toks <=? length toks)%nat then Fault
          else
            let toks := tok :: toks in
            split_loop fuel' sep rest toks (if (length toks =? max_toks)%nat then max_toks + 20 else max_toks)%nat
      end
  end.

Definition blank (c : Z) : bool := (c =? " "%ch) || (c =? 9).

(** The array, with NULL as [None], and [*argcount]. *)
Definition splitstr (s : cstr) (separator : option cstr) : res unit (list (option cstr) * nat) :=
  let sep := match separator with None => blank | Some l => fun c => bool_decide (c ∈ l) end in
  '(toks, max_toks) ← split_loop (S (length s)) sep s [] 20;
  if (max_toks <=? length toks)%nat then Fault
  else Ok (map Some toks ++ repeat None (max_toks - length toks), length toks).

(** ** The collection of commands *)

Record coll_entry : Set := mkEntry { name : cstr; cmdline : cstr; pcnt_f : bool }.

(** The first [%f] becomes [%s]. *)
Fixpoint mark_pcnt_f (s : cstr) : cstr * bool :=
  match s with
  | a :: ((b :: s') as t) =>
      if (a =? "%"%ch) && (b =? "f"%ch) then (a :: "s"%ch :: s', true)
      else let '(t', f) := mark_pcnt_f t in (a :: t', f)
  | s => (s, false)
  end.

(** [Ok None]: the line has no command; [Err tag]: a tag without a command. *)
Definition parse_line (a : cstr) : res cstr (option coll_entry) :=
  if (at_ a 0 =? "#"%ch) || (at_ a 0 =? 0) || (at_ a 0 =? " "%ch) then Ok None
  else
    let '(a, f) := mark_pcnt_f a in
    let tag := span (fun c => negb (blank c)) a in
    match skip_while isspace (drop (S (length tag)) a) with
    | [] => Err tag
    | cmd => Ok (Some (mkEntry tag cmd f))
    end.

(** The lines of a buffer. *)
Fixpoint lines (s cur : cstr) : list cstr :=
  match s with
  | [] => [rev cur]
  | c :: s' => if c =? NEWLINE then rev cur :: lines s' [] else lines s' (c :: cur)
  end.

Fixpoint parse_lines (ls : list cstr) : res cstr (list coll_entry) :=
  match ls with
  | [] => Ok []
  | l :: ls' =>
      e ← parse_line l;
      es ← parse_lines ls';
      Ok (match e with Some e => e :: es | None => es end)
  end.

(** [strncat] into a buffer of [size] characters; a negative limit is a huge
    unsigned one. *)
Definition strncat (size : Z) (buf s : cstr) (n : Z) : res cstr cstr :=
  let r := buf ++ (if n <? 0 then s else take (Z.to_nat n) s) in
  if size <=? Z.of_nat (length r) then Fault else Ok r.

Fixpoint fill_args (work : cstr) (left : Z) (args : list cstr) : res cstr cstr :=
  match args with
  | [] => Ok work
  | a :: args' =>
      w1 ← strncat 1024 work a left;
      let left := left - Z.of_nat (length a) in
      w2 ← strncat 1024 w1 (str " ") left;
      fill_args w2 (left - 1) args'
  end.

(** The buffer [slurp] returned and the rest of the arguments. *)
Definition get_collection (buf : option cstr) (args : list cstr) : res cstr (list coll_entry) :=
  match buf with
  | None => Err []
  | Some b =>
      es ← parse_lines (lines b []);
      match args with
      | [] => Ok es
      | _ =>
          w ← fill_args [] 1023 args;
          let '(w, f) := mark_pcnt_f w in
          Ok (es ++ [mkEntry (str "cmdln") w f])
      end
  end.

(** [snprintf] with the command line as its format and one string argument:
    other conversions have no argument. *)
Fixpoint format1 (fmt : cstr) (arg : option cstr) : res unit cstr :=
  match fmt with
  | [] => Ok []
  | c :: fmt' =>
      if c =? "%"%ch then
        match fmt', arg with
        | d :: k, _ =>
            if d =? "%"%ch then r ← format1 k arg; Ok (c :: r)
            else if d =? "s"%ch then
              match arg with Some a => r ← format1 k None; Ok (a ++ r) | None => Fault end
            else Fault
        | [], _ => Fault
        end
      else r ← format1 fmt' arg; Ok (c :: r)
  end.

(** The command line and the new counter. *)
Definition subst_pcnt_f (pid counter : Z) (e : coll_entry) : res unit (cstr * Z) :=
  if negb (pcnt_f e) then Ok (cmdline e, counter)
  else
    r ← format1 (cmdline e) (Some (take 19 (dec pid ++ str "_" ++ dec counter)));
    Ok (take 1023 r, counter + 1).

(** How the child executes a command line. *)
Inductive exec : Set := Shell (cmd : cstr) | Direct (argv : list (option cstr)).

Definition shell_char (c : Z) : bool :=
  bool_decide (c ∈ [DQUOTE; "'"%ch; ";"%ch; "|"%ch; "<"%ch; ">"%ch; "$"%ch; "\"%ch]).

Definition child_exec (c_cmdline : cstr) : res unit exec :=
  if existsb shell_char c_cmdline then Ok (Shell c_cmdline)
  else '(argv, _) ← splitstr c_cmdline None; Ok (Direct argv).

(** ** Signals *)
Definition SIGHUP : Z := 1.
Definition SIGINT : Z := 2.
Definition SIGKILL : Z := 9.
Definition SIGUSR1 : Z := 10.
Definition SIGUSR2 : Z := 12.
Definition SIGALRM : Z := 14.
Definition SIGTERM : Z := 15.

(** [rec_signal], [send_signal] and the static [lastsent]. *)
Record sigs : Set := mkSigs { rec_signal : Z; send_signal : Z; lastsent : Z }.

Definition wait_handler (sig : Z) (s : sigs) : sigs :=
  if sig =? 0 then mkSigs (rec_signal s) (send_signal s) 0
  else if sig =? SIGUSR2 then mkSigs sig (send_signal s) (lastsent s)
  else
    let send :=
      if lastsent s =? 0 then sig
      else if lastsent s =? SIGUSR1 then SIGINT
      else if lastsent s =? sig then SIGTERM
      else if lastsent s =? SIGTERM then SIGHUP
      else if lastsent s =? SIGHUP then SIGKILL
      else send_signal s in
    mkSigs sig send send.

Definition clear_sigs (s : sigs) : sigs := mkSigs 0 0 (lastsent s).

(** ** Processes *)

(** [struct tag_pgrp]; a slot that was never used has no command. *)
Record tag_pgrp : Set := mkSlot { pgrp : Z; stopping : bool; mystime : Z; cmd : option coll_entry }.
Definition free_slot : tag_pgrp := mkSlot 0 false 0 None.

Section Driver.
Context {A : Type} `{AF : ActiveFile A}.

(** The process groups and the signals sent to them. *)
Record procs : Type := mkProcs {
  running : list tag_pgrp; num_active : Z;
  orphans : list Z;                      (** 0 is a free element of the list *)
  zoo : A;
  kills : list (Z * Z)
}.

(** [gone p]: [kill] on the group [p] fails with ESRCH.  A zoo that does not
    have the group is only reported. *)
Fixpoint check_orphans (gone : Z -> bool) (sig : Z) (os : list Z) (z : A) (ks : list (Z * Z))
    : list Z * A * list (Z * Z) :=
  match os with
  | [] => ([], z, ks)
  | o :: os' =>
      if o =? 0 then let '(os'', z, ks) := check_orphans gone sig os' z ks in (0 :: os'', z, ks)
      else
        let ks := ks ++ [(o, sig)] in
        let '(o', z) := if gone o then (0, default z (af_clear z o)) else (o, z) in
        let '(os'', z, ks) := check_orphans gone sig os' z ks in
        (o' :: os'', z, ks)
  end.

(** Reuses the first free element, or puts a new one behind the head. *)
Fixpoint reuse_orphan (os : list Z) (cpid : Z) : option (list Z) :=
  match os with
  | [] => None
  | o :: os' => if o =? 0 then Some (cpid :: os')
                else match reuse_orphan os' cpid with Some r => Some (o :: r) | None => None end
  end.
Definition mark_orphan (os : list Z) (cpid : Z) : list Z :=
  match reuse_orphan os cpid with
  | Some r => r
  | None => match os with [] => [] | h :: t => h :: cpid :: t end
  end.

Definition stop_slot (t : tag_pgrp) : tag_pgrp :=
  if pgrp t =? 0 then t else mkSlot (pgrp t) true (mystime t) (cmd t).

Definition propagate_signal (gone : Z -> bool) (p : procs) (s : sigs) : procs * sigs :=
  let ks := kills p ++ map (fun t => (pgrp t, send_signal s)) (List.filter (fun t => negb (pgrp t =? 0)) (running p)) in
  let '(os, z, ks) := check_orphans gone (send_signal s) (orphans p) (zoo p) ks in
  (mkProcs (map stop_slot (running p)) (num_active p) os z ks, clear_sigs s).

(** ** Results *)
Inductive term : Set := Tsignaled | Texited | Tstopped | Tunknown | Tinterrupt.
Definition term_str (t : term) : cstr :=
  match t with
  | Tsignaled => str "signaled" | Texited => str "exited" | Tstopped => str "stopped"
  | Tunknown => str "unknown" | Tinterrupt => str "driver_interrupt"
  end.
Definition is_exited (t : term) : bool := match t with Texited => true | _ => false end.

(** <sys/wait.h> *)
Definition WIFSTOPPED (status : Z) : bool := Z.land status 255 =? 127.
Definition WSTOPSIG (status : Z) : Z := WEXITSTATUS status.

Definition classify (stat : Z) : Z * term :=
  if WIFSIGNALED stat then (WTERMSIG stat, Tsignaled)
  else if WIFEXITED stat then (WEXITSTATUS stat, Texited)
  else if WIFSTOPPED stat then (WSTOPSIG stat, Tstopped)
  else (0, Tunknown).

(** What is written: the log, the failed and the unsupported commands, the
    standard output. *)
Record reports : Set := mkReports {
  failcnt : Z; tconfcnt : Z;
  log : list cstr; failcmds : list cstr; tconfcmds : list cstr; out : list cstr
}.
Record config : Set := mkConfig {
  keep_active : nat;
  coll : list coll_entry;
  has_brakes : bool; sequential : bool; track_exit_stats : bool;
  fmt_print : bool; quiet_mode : bool; rts : bool;
  logfile : bool; failcmdfile : bool; tconfcmdfile : bool; test_out_dir : bool
}.
Context (cfg : config).

Definition padded (n : nat) (s : cstr) : cstr := s ++ repeat " "%ch (n - length s).
Definition q : cstr := [DQUOTE].
Definition yes_no (b : bool) : cstr := if b then str "yes" else str "no".
Definition core (stat : Z) : bool := negb (Z.land stat 128 =? 0).

(** [cu] and [cs] are the differences of the process times. *)
Definition log_line (tag : cstr) (stime dur : Z) (t : term) (w stat cu cs : Z) : cstr :=
  str "tag=" ++ tag ++ str " stime=" ++ dec stime ++ str " dur=" ++ dec dur ++ str " exit=" ++ term_str t
  ++ str " stat=" ++ dec w ++ str " core=" ++ yes_no (core stat) ++ str " cu=" ++ dec cu ++ str " cs=" ++ dec cs ++ [NEWLINE].
Definition fmt_line (tag result : cstr) (w : Z) : cstr :=
  padded 50 tag ++ str " " ++ padded 10 (take 10 result) ++ str " " ++ padded 5 (dec w) ++ [NEWLINE].

Definition write_test_start (e : coll_entry) (stime : Z) : list cstr :=
  if rts cfg then
    [str "<<<test_start>>>" ++ [NEWLINE] ++ str "tag=" ++ name e ++ str " stime=" ++ dec stime ++ [NEWLINE]
     ++ str "cmdline=" ++ q ++ cmdline e ++ q ++ [NEWLINE] ++ str "contacts=" ++ q ++ q ++ [NEWLINE]
     ++ str "analysis=exit" ++ [NEWLINE] ++ str "<<<test_output>>>" ++ [NEWLINE]]
  else [].
Definition write_test_end (init_status : cstr) (dur : Z) (t : term) (stat w cu cs : Z) : list cstr :=
  if rts cfg then
    [str "<<<execution_status>>>" ++ [NEWLINE] ++ str "initiation_status=" ++ q ++ init_status ++ q ++ [NEWLINE]
     ++ str "duration=" ++ dec dur ++ str " termination_type=" ++ term_str t ++ str " termination_id=" ++ dec w
     ++ str " corefile=" ++ yes_no (core stat) ++ [NEWLINE] ++ str "cutime=" ++ dec cu ++ str " cstime=" ++ dec cs
     ++ [NEWLINE] ++ str "<<<test_end>>>" ++ [NEWLINE]]
  else [].

Definition put (b : bool) (l : list cstr) (x : list cstr) : list cstr := if b then l ++ x else l.

(** A finished test is reported. *)
Definition report_test (e : coll_entry) (stime t : Z) (st : term) (w stat cu cs : Z) (r : reports) : reports :=
  let conf := is_exited st && (w =? TCONF) in
  let fmt := logfile cfg && fmt_print cfg in
  let line := if fmt_print cfg
              then fmt_line (name e) (if conf then str "CONF" else if negb (w =? 0) then str "FAIL" else str "PASS") w
              else log_line (name e) stime (t - stime) st w stat cu cs in
  let cmd := name e ++ str " " ++ cmdline e ++ [NEWLINE] in
  let to_conf := negb (w =? 0) && tconfcmdfile cfg && (w =? TCONF) in
  let to_fail := negb (w =? 0) && negb (tconfcmdfile cfg && (w =? TCONF)) && failcmdfile cfg in
  mkReports (if fmt && negb conf && negb (w =? 0) then failcnt r + 1 else failcnt r)
    (if fmt && conf then tconfcnt r + 1 else tconfcnt r)
    (put (logfile cfg) (log r) [line]) (put to_fail (failcmds r) [cmd]) (put to_conf (tconfcmds r) [cmd]) (out r).

Definition add_out (l : list cstr) (r : reports) : reports :=
  mkReports (failcnt r) (tconfcnt r) (log r) (failcmds r) (tconfcmds r) (out r ++ l).

(** ** Reaping *)
Record wait_info : Set := mkWait {
  wi_child : option (Z * Z);             (** the child and its status; [None]: [wait] failed *)
  wi_time : Z; wi_cu : Z; wi_cs : Z;
  wi_output : list cstr;                 (** the buffered output of the test *)
  wi_group_left : bool                   (** [kill(-cpid, 0)] succeeds or is not permitted *)
}.

Definition find_slot (p : tag_pgrp -> bool) (l : list tag_pgrp) : option nat :=
  fst <$> list_find (fun t => Is_true (p t)) l.

(** The end of the test in slot [i]; [Err] is the status of [exit]. *)
Definition reap_slot (i : nat) (s : tag_pgrp) (cpid w : Z) (st : term) (stat ret : Z) (a : wait_info)
    (p : procs) (r : reports) : res Z (Z * procs * reports) :=
  match cmd s with
  | None => Fault
  | Some e =>
      let undo := (w =? 130) && stopping s && is_exited st in
      let w := if undo then 0 else w in
      let ret := if undo then ret - 1 else ret in
      let r := report_test e (mystime s) (wi_time a) st w stat (wi_cu a) (wi_cs a) r in
      let st' := if stopping s then Tinterrupt else st in
      let r := if test_out_dir cfg
               then add_out (wi_output a) (if quiet_mode cfg then r else add_out (write_test_start e (mystime s)) r) else r in
      let r := if quiet_mode cfg then r
               else add_out (write_test_end (str "ok") (wi_time a - mystime s) st' stat w (wi_cu a) (wi_cs a)) r in
      let signaled := match st with Tsignaled => true | _ => false end in
      let ret := if signaled && negb (stopping s) then ret + 1 else ret in
      let run := <[i := mkSlot 0 (stopping s) (mystime s) (cmd s)]> (running p) in
      match af_clear (zoo p) cpid with
      | None => Err 1
      | Some z =>
          if wi_group_left a
          then Ok (ret, mkProcs run (num_active p) (mark_orphan (orphans p) cpid)
                          (af_mark z cpid (str "panorphan") (cmdline e)) (kills p ++ [(cpid, SIGTERM)]), r)
          else Ok (ret, mkProcs run (num_active p) (orphans p) z (kills p), r)
      end
  end.

Definition check_pids (gone : Z -> bool) (a : wait_info) (p : procs) (r : reports) : res Z (Z * procs * reports) :=
  let '(os, z, ks) := check_orphans gone 0 (orphans p) (zoo p) (kills p) in
  match wi_child a with
  | None => Ok (0, mkProcs (running p) (num_active p) os z ks, r)
  | Some (cpid, stat) =>
      let '(w, st) := classify stat in
      let n := match st with Tsignaled | Texited => num_active p - 1 | _ => num_active p end in
      let ret := match st with
                 | Tsignaled => 0
                 | Texited => if negb (w =? 0) && negb (w =? TCONF) then 1 else 0
                 | _ => 1
                 end in
      let p := mkProcs (running p) n os z ks in
      match find_slot (fun t => pgrp t =? cpid) (running p) with
      | None => Ok (ret, p, r)
      | Some i =>
          match running p !! i with
          | None => Fault
          | Some s => reap_slot i s cpid w st stat ret a p r
          end
      end
  end.

(** ** Starting *)

(** How far [run_child] gets: nothing is started before the start is written,
    or [fork] fails after it; the command does not execute and the child ends
    with [status]; or it runs.  The handlers are installed without SA_RESTART:
    when a signal interrupts the [read] of the pipe, its result -1 counts as an
    error of the child, with [errlen] not set; when it interrupts [waitpid],
    [status] is not set. *)
Inductive start_answer : Set :=
| SNoPipe
| SNoFork (t0 : Z)
| SNoExec (t0 t1 status : Z) (errbuf : cstr)
| SInterrupted (t0 : Z)
| SStarted (t0 pid : Z).
Definition interrupted (a : start_answer) : bool := match a with SInterrupted _ => true | _ => false end.

Definition start_out (e : coll_entry) (t0 : Z) (r : reports) : reports :=
  if negb (test_out_dir cfg) && negb (quiet_mode cfg) then add_out (write_test_start e t0) r else r.

(** The parent's side, for the slot [i]; whether the test runs. *)
Definition run_child (i : nat) (e : coll_entry) (a : start_answer) (p : procs) (r : reports)
    : res Z (bool * procs * reports) :=
  let set s := mkProcs (<[i := s]> (running p)) (num_active p) (orphans p) (zoo p) (kills p) in
  let old := default free_slot (running p !! i) in
  let prepared t0 := mkSlot (pgrp old) (stopping old) t0 (Some e) in
  match a with
  | SNoPipe => Ok (false, p, r)
  | SNoFork t0 => Ok (false, set (prepared t0), start_out e t0 r)
  | SNoExec t0 t1 status errbuf =>
      let r := start_out e t0 r in
      let '(termid, termtype) := classify status in
      let line := if fmt_print cfg
                  then fmt_line (name e) (if negb (termid =? 0) then str "FAIL" else str "PASS") termid
                  else log_line (name e) t0 (t1 - t0) termtype termid status 0 0 in
      let fails := logfile cfg && fmt_print cfg && negb (termid =? 0) in
      let r := mkReports (if fails then failcnt r + 1 else failcnt r) (tconfcnt r)
                 (put (logfile cfg) (log r) [line]) (failcmds r) (tconfcmds r) (out r) in
      let r := if quiet_mode cfg then r else add_out (write_test_end errbuf (t1 - t0) termtype status termid 0 0) r in
      Ok (false, set (prepared t0), r)
  | SInterrupted _ => Fault
  | SStarted t0 pid =>
      let p := set (mkSlot pid false t0 (Some e)) in
      Ok (true, mkProcs (running p) (num_active p) (orphans p) (af_mark (zoo p) pid (name e) (cmdline e)) (kills p),
       start_out e t0 r)
  end.

(** ** The main loop *)
Record pan : Type := mkPan {
  starts : Z; stop : Z; go_idle : Z; exit_stat : Z; c : nat; fork_in_road : bool;
  signals : sigs; prc : procs; rep : reports;
  attempts : list coll_entry             (** the commands given to [run_child], in order *)
}.

Definition default_starts (timed : bool) (starts : Z) : Z :=
  if timed && (starts =? -1) then -1
  else if starts =? -1 then (if sequential cfg then Z.of_nat (length (coll cfg)) else 1)
  else if starts =? 0 then -1
  else if starts <? Z.of_nat (keep_active cfg) then Z.of_nat (keep_active cfg)
  else starts.

Definition init_pan (timed : bool) (starts : Z) (fork_in_road : bool) (z : A) : pan :=
  mkPan (default_starts timed starts) 0 0 0 0 fork_in_road (mkSigs 0 0 0)
    (mkProcs (repeat free_slot (keep_active cfg)) 0 [0] z []) (mkReports 0 0 [] [] [] []) [].

(** The zoo at the start: the driver, and room for [keep_active] tests. *)
Fixpoint mark_all (panname : cstr) (cs : list nat) (z : A) : A :=
  match cs with
  | [] => z
  | k :: cs' => mark_all panname cs' (af_mark z (Z.of_nat k) panname [])
  end.
Fixpoint clear_all (cs : list nat) (z : A) : res Z A :=
  match cs with
  | [] => Ok z
  | k :: cs' => match af_clear z (Z.of_nat k) with None => Err 1 | Some z => clear_all cs' z end
  end.
Definition init_zoo (pid : Z) (panname : cstr) (argv : list cstr) (z : A) : res Z A :=
  let z := af_mark z pid panname (cat_args argv) in
  clear_all (seq 0 (keep_active cfg)) (mark_all panname (seq 0 (keep_active cfg)) z).

Definition handle (sig : Z) (p : pan) : pan :=
  mkPan (starts p) (stop p) (go_idle p) (exit_stat p) (c p) (fork_in_road p)
    (wait_handler sig (signals p)) (prc p) (rep p) (attempts p).

(** The loop that fills the slots goes on. *)
Definition can_start (p : pan) : bool :=
  (num_active (prc p) <? Z.of_nat (keep_active cfg)) && negb (starts p =? 0) &&
  (stop p =? 0) && (rec_signal (signals p) =? 0) && (go_idle p =? 0).

(** One iteration of it; [random] is [lrand48() % cnt]. *)
Definition start_one (random : nat) (a : start_answer) (p : pan) : res Z pan :=
  let ci := if sequential cfg then c p else random in
  match find_slot (fun t => pgrp t =? 0) (running (prc p)) with
  | None =>
      let p := handle SIGINT p in
      Ok (mkPan (starts p) (stop p) (go_idle p) (exit_stat p + 1) ci (fork_in_road p)
            (signals p) (prc p) (rep p) (attempts p))
  | Some i =>
      match coll cfg !! ci with
      | None => Fault
      | Some e =>
          '(ok, pr, r) ← run_child i e a (prc p) (rep p);
          let pr := if ok : bool then mkProcs (running pr) (num_active pr + 1) (orphans pr) (zoo pr) (kills pr) else pr in
          Ok (mkPan (if (ok || sequential cfg) && (0 <? starts p) then starts p - 1 else starts p)
                (stop p) (go_idle p) (exit_stat p)
                (if sequential cfg then (if (length (coll cfg) <=? S ci)%nat then 0%nat else S ci) else ci)
                (fork_in_road p) (signals p) pr r (attempts p ++ [e]))
      end
  end.

(** What the environment answers in the rest of a round. *)
Record round_answer : Type := mkRound {
  ra_stop_file : bool;                   (** PAN_STOP_FILE exists *)
  ra_gone1 : Z -> bool; ra_gone2 : Z -> bool;
  ra_wait : wait_info;
  ra_signals : list Z                    (** signals that arrive in [wait] *)
}.

Definition incr (b : bool) (z : Z) : Z := if b then z + 1 else z.

(** A received signal stops the scheduler or lets it idle. *)
Definition react (gone : Z -> bool) (p : pan) : pan :=
  let s := signals p in
  if rec_signal s =? 0 then p
  else
    let fork := if rec_signal s =? SIGUSR1 then false else fork_in_road p in
    let '(pr, s') := if rec_signal s =? SIGUSR2 then (prc p, clear_sigs s) else propagate_signal gone (prc p) s in
    mkPan (starts p) (incr (negb fork) (stop p)) (incr fork (go_idle p)) (exit_stat p) (c p) fork
      s' pr (rep p) (attempts p).

(** The rest of a round; whether the main loop ends. *)
Definition finish_round (a : round_answer) (p : pan) : res Z (pan * bool) :=
  let stop1 := if starts p =? 0 then stop p + 1
               else if (starts p =? -1) && ra_stop_file a then stop p + 1 else stop p in
  let p := react (ra_gone1 a) (mkPan (starts p) stop1 (go_idle p) (exit_stat p) (c p) (fork_in_road p)
                                 (signals p) (prc p) (rep p) (attempts p)) in
  '(err, pr, r) ← check_pids (ra_gone2 a) (ra_wait a) (prc p) (rep p);
  let failed := negb (err =? 0) in
  let s := fold_left (fun s sig => wait_handler sig s) (ra_signals a) (signals p) in
  let s := if failed && has_brakes cfg then wait_handler SIGINT s else s in
  let idle := incr (failed && fork_in_road p) (go_idle p) in
  let es := incr (failed && track_exit_stats cfg) (exit_stat p) in
  if negb (stop p =? 0) && (num_active pr =? 0) then
    Ok (mkPan (starts p) (stop p) idle es (c p) (fork_in_road p) s pr r (attempts p), true)
  else
    let resume := negb (idle =? 0) && (num_active pr =? 0) in
    Ok (mkPan (starts p) (stop p) (if resume then 0 else idle) es (c p) (fork_in_road p)
          (if resume then wait_handler 0 s else s) pr r (attempts p), false).

(** The loop at the end: as long as a group is orphaned, signal it. *)
Fixpoint drain_orphans (fuel : list (Z -> bool)) (p : pan) : option pan :=
  if forallb (fun o => o =? 0) (orphans (prc p)) then Some p
  else
    match fuel with
    | [] => None
    | gone :: fuel' =>
        let s := if rec_signal (signals p) =? 0 then wait_handler SIGINT (signals p) else signals p in
        let '(pr, s) := propagate_signal gone (prc p) s in
        drain_orphans fuel' (mkPan (starts p) (stop p) (go_idle p) (exit_stat p) (c p) (fork_in_road p) s pr (rep p) (attempts p))
    end.

(** The status the parent of [ltp-pan] sees: the pid of the driver is removed
    from the zoo at the end. *)
Definition pan_exit (pid : Z) (p : pan) : Z :=
  let es := match af_clear (zoo (prc p)) pid with None => exit_stat p + 1 | Some _ => exit_stat p end in
  Z.land es 255.

(** *** Runs *)
Inductive label : Type := LSignal (sig : Z) | LStart (random : nat) (a : start_answer) | LRound (a : round_answer).

(** What the kernel guarantees: a new process has a pid of its own, [wait]
    returns a child, and only one that ended.  The children are the processes in
    the slots: one that did not execute its command was waited for in
    [run_child]. *)
Definition pgrps (l : list tag_pgrp) : list Z := List.filter (fun z => negb (z =? 0)) (map pgrp l).
Definition fair_start (a : start_answer) (p : pan) : Prop :=
  match a with SStarted _ pid => 0 < pid <= INT_MAX /\ pid ∉ pgrps (running (prc p)) | _ => True end.
Definition ended (stat : Z) : bool := WIFSIGNALED stat || WIFEXITED stat.
Definition fair_wait (a : wait_info) (p : pan) : Prop :=
  match wi_child a with
  | Some (cpid, stat) => cpid ∈ pgrps (running (prc p)) /\ ended stat = true
  | None => True
  end.

Inductive step : pan -> label -> pan -> bool -> Prop :=
| step_signal p sig : 0 < sig -> step p (LSignal sig) (handle sig p) false
| step_start p random a p' : can_start p = true -> (random < length (coll cfg))%nat -> fair_start a p ->
    start_one random a p = Ok p' -> step p (LStart random a) p' false
| step_round p a p' fin : can_start p = false -> fair_wait (ra_wait a) p -> Forall (fun sig => 0 < sig) (ra_signals a) ->
    finish_round a p = Ok (p', fin) -> step p (LRound a) p' fin.
Inductive steps (p0 : pan) : list label -> pan -> bool -> Prop :=
| steps_nil : steps p0 [] p0 false
| steps_snoc l p x p' fin : steps p0 l p false -> step p x p' fin -> steps p0 (l ++ [x]) p' fin.
End Driver.

(** ** [splitstr] is correct *)

(** The loop stays within the array and finds the tokens. *)
Lemma split_loop_ok sep : forall fuel s toks max_toks, (length s < fuel)%nat -> (length toks < max_toks)%nat ->
  exists ts m, split_loop fuel sep s toks max_toks = Ok (rev toks ++ ts, m) /\ tokens_of sep s ts /\
    (length toks + length ts < m)%nat.
Proof.
  induction fuel as [|fuel IH]; intros s toks mt Hs Hm; [lia|]. cbn [split_loop]. destruct (strtok sep s) as [[tok rest]|] eqn:E.
  - rewrite (proj2 (Nat.leb_gt _ _)) by lia. pose proof (strtok_shorter _ _ _ _ E).
    destruct (IH rest (tok :: toks) (if (length (tok :: toks) =? mt)%nat then mt + 20 else mt)%nat) as (ts & m & HR & HT & HB); [lia| |].
    { case_match; bools; simpl in *; lia. }
    exists (tok :: ts), m. rewrite HR. simpl. rewrite <-app_assoc. split_and!; [done|by eapply tokens_step|simpl in *; lia].
  - pose proof (strtok_cases sep s) as Hc. rewrite E in Hc. exists [], mt. rewrite app_nil_r. split_and!; [done|by constructor|simpl; lia].
Qed.

(** [splitstr] never writes outside its array, which grows as needed, and
    its result is the list of the maximal runs of characters that are not
    separators, followed by NULL. *)
Theorem splitstr_correct s separator :
  let sep := match separator with None => blank | Some l => fun c => bool_decide (c ∈ l) end in
  exists toks n, splitstr s separator = Ok (map Some toks ++ repeat None (S n), length toks) /\ tokens_of sep s toks.
Proof.
  intros sep. unfold splitstr. fold sep.
  destruct (split_loop_ok sep (S (length s)) s [] 20 ltac:(lia) ltac:(simpl; lia)) as (ts & m & -> & HT & HB).
  cbn [mbind res_bind rev app]. simpl in HB. rewrite (proj2 (Nat.leb_gt _ _)) by lia.
  exists ts, (m - length ts - 1)%nat. replace (S (m - length ts - 1)) with (m - length ts)%nat by lia. done.
Qed.

(** ** The bookkeeping of the driver *)

Definition nz (l : list Z) : list Z := List.filter (fun z => negb (z =? 0)) l.

Lemma nz_cons x l : nz (x :: l) = (if x =? 0 then [] else [x]) ++ nz l.
Proof. unfold nz. simpl. by destruct (x =? 0). Qed.
Lemma nz_app l k : nz (l ++ k) = nz l ++ nz k.
Proof. apply List.filter_app. Qed.

Lemma pgrps_nz l : pgrps l = nz (map pgrp l).
Proof. done. Qed.

(** Filling a free slot and freeing an occupied one. *)
Lemma pgrps_insert l i s s' : l !! i = Some s ->
  nz [pgrp s] ++ pgrps (<[i := s']> l) ≡ₚ nz [pgrp s'] ++ pgrps l.
Proof.
  intros H. pose proof (lookup_lt_Some _ _ _ H) as Hi. rewrite insert_take_drop by done.
  rewrite <-(take_drop_middle l i s H) at 3. rewrite !pgrps_nz, !map_app, !map_cons, !nz_app.
  rewrite !nz_cons. change (nz []) with (@nil Z).
  destruct (pgrp s =? 0), (pgrp s' =? 0); simpl; [done|by rewrite Permutation_middle..|].
  by rewrite <-!Permutation_middle, perm_swap.
Qed.

Lemma pgrps_stop l : pgrps (map stop_slot l) = pgrps l.
Proof.
  rewrite !pgrps_nz. f_equal. rewrite map_map. apply map_ext. intros t. unfold stop_slot. by destruct (pgrp t =? 0).
Qed.

Lemma find_slot_spec p l : match find_slot p l with
  | Some i => exists s, l !! i = Some s /\ p s = true
  | None => Forall (fun s => p s = false) l
  end.
Proof.
  unfold find_slot. destruct (list_find _ l) as [[i s]|] eqn:E; simpl.
  - apply list_find_Some in E as (H & Hp & _). exists s. split; [done|]. by apply Is_true_eq_true.
  - apply list_find_None in E. eapply Forall_impl; [exact E|]. intros s. simpl. destruct (p s); [|done]. intros Hs. by destruct (Hs I).
Qed.

Lemma in_pgrps z l : z ∈ pgrps l <-> z <> 0 /\ exists s, s ∈ l /\ pgrp s = z.
Proof.
  unfold pgrps. rewrite list_elem_of_In, filter_In, in_map_iff, negb_true_iff, Z.eqb_neq.
  setoid_rewrite list_elem_of_In. naive_solver.
Qed.

Section Invariant.
Context {A : Type} `{AF : ActiveFile A} (cfg : config).
Context (Hclean : Forall (fun e => (NEWLINE ∉ name e) /\ (NEWLINE ∉ cmdline e)) (coll cfg)).

Lemma check_orphans_ok gone sig : forall os others (z : A) ks, af_holds z (nz os ++ others) ->
  let '(os', z', _) := check_orphans gone sig os z ks in
  af_holds z' (nz os' ++ others) /\ length os' = length os.
Proof.
  induction os as [|o os IH]; intros others z ks H; cbn [check_orphans]; [done|].
  rewrite nz_cons in H. destruct (Z.eqb_spec o 0) as [->|Ho].
  - specialize (IH others z ks H). destruct (check_orphans gone sig os z ks) as [[os' z'] ks'].
    simpl in *. destruct IH as [? IHl]. split; [done|by f_equal].
  - simpl in H. destruct (gone o).
    + destruct (af_clear_holds z _ o H) as (z1 & -> & H1). simpl default.
      specialize (IH others z1 (ks ++ [(o, sig)]) H1). destruct (check_orphans gone sig os z1 _) as [[os' z'] ks'].
      destruct IH as [? IHl]. split; [done|simpl; by f_equal].
    + rewrite Permutation_middle in H. specialize (IH (o :: others) z (ks ++ [(o, sig)]) H).
      destruct (check_orphans gone sig os z _) as [[os' z'] ks']. destruct IH as [IH IHl].
      rewrite nz_cons, (proj2 (Z.eqb_neq o 0)) by done. simpl. rewrite Permutation_middle. split; [done|by f_equal].
Qed.

Lemma mark_orphan_ok os cpid : os <> [] -> cpid <> 0 -> nz (mark_orphan os cpid) ≡ₚ cpid :: nz os.
Proof.
  intros Hos Hc. unfold mark_orphan. destruct (reuse_orphan os cpid) as [r|] eqn:E.
  - clear Hos. revert r E. induction os as [|o os IH]; intros r E; [done|]. simpl in E.
    destruct (Z.eqb_spec o 0) as [->|Ho].
    + injection E as <-. by rewrite !nz_cons, (proj2 (Z.eqb_neq cpid 0)) by done.
    + destruct (reuse_orphan os cpid) as [r'|]; [|done]. injection E as <-.
      rewrite !nz_cons, (proj2 (Z.eqb_neq o 0)) by done. simpl. rewrite (IH r' eq_refl). apply perm_swap.
  - destruct os as [|h t]; [done|]. rewrite !nz_cons, (proj2 (Z.eqb_neq cpid 0)) by done.
    by destruct (h =? 0); simpl; [|apply perm_swap].
Qed.

Lemma mark_orphan_ne os cpid : os <> [] -> mark_orphan os cpid <> [].
Proof.
  intros Hos. unfold mark_orphan. destruct (reuse_orphan os cpid) as [r|] eqn:E; [|by destruct os].
  destruct os as [|o os]; [done|]. simpl in E. repeat case_match; naive_solver.
Qed.

(** The slots, the counter, the orphans and the zoo agree; [others] are the
    processes of the zoo that are not tests. *)
Record procs_ok (others : list Z) (p : procs (A:=A)) : Prop := {
  po_len : length (running p) = keep_active cfg;
  po_num : num_active p = Z.of_nat (length (pgrps (running p)));
  po_nodup : NoDup (pgrps (running p));
  po_range : Forall (fun s => pgrp s = 0 \/ 0 < pgrp s <= INT_MAX /\ exists e, cmd s = Some e /\ e ∈ coll cfg) (running p);
  po_orphans : orphans p <> [];
  po_zoo : af_holds (zoo p) (pgrps (running p) ++ nz (orphans p) ++ others)
}.

Lemma procs_check_orphans others gone sig ks0 p : procs_ok others p ->
  let '(os, z, ks) := check_orphans gone sig (orphans p) (zoo p) ks0 in
  forall ks', procs_ok others (mkProcs (running p) (num_active p) os z ks').
Proof.
  intros [Hl Hn Hd Hr Ho Hz]. rewrite Permutation_app_comm, <-app_assoc in Hz.
  pose proof (check_orphans_ok gone sig (orphans p) (others ++ pgrps (running p)) (zoo p) ks0 Hz) as Hc.
  destruct (check_orphans _ _ _ _ _) as [[os z] ks]. destruct Hc as [Hz' Hlen]. intros ks'.
  constructor; simpl; try done; [by destruct os, (orphans p)|].
  by rewrite Permutation_app_comm, <-app_assoc.
Qed.

Lemma propagate_ok others gone p s : procs_ok others p -> procs_ok others (propagate_signal gone p s).1.
Proof.
  intros Hp. unfold propagate_signal. set (ks0 := kills p ++ _).
  pose proof (procs_check_orphans others gone (send_signal s) ks0 p Hp) as Hc.
  destruct (check_orphans _ _ _ _ _) as [[os z] ks]. destruct (Hc ks) as [Hl Hn Hd Hr Ho Hz].
  constructor; simpl in *; rewrite ?pgrps_stop, ?length_map; try done.
  apply Forall_map. eapply Forall_impl; [exact Hr|]. intros t. simpl. unfold stop_slot. by case_match.
Qed.

(** Freeing the slot of a test that ended. *)
Lemma procs_reap others p i s e (z : A) ks : procs_ok others p ->
  running p !! i = Some s -> pgrp s <> 0 -> cmd s = Some e -> af_clear (zoo p) (pgrp s) = Some z ->
  af_holds z (pgrps (<[i := mkSlot 0 (stopping s) (mystime s) (cmd s)]> (running p)) ++ nz (orphans p) ++ others) ->
  procs_ok others (mkProcs (<[i := mkSlot 0 (stopping s) (mystime s) (cmd s)]> (running p)) (num_active p - 1) (orphans p) z ks).
Proof.
  intros [Hl Hn Hd Hr Ho Hz] Hi Hs He Hcl Hz'. set (s' := mkSlot 0 _ _ _) in *.
  pose proof (pgrps_insert (running p) i s s' Hi) as Hp. rewrite nz_cons, (proj2 (Z.eqb_neq _ 0)) in Hp by done. simpl in Hp.
  constructor; simpl; try done.
  - by rewrite length_insert.
  - rewrite Hn, <-Hp. simpl length. lia.
  - rewrite <-Hp in Hd. by apply NoDup_cons in Hd as [_ ?].
  - apply Forall_insert; [done|]. by left.
Qed.

Lemma signaled_sig stat w : classify stat = (w, Tsignaled) -> negb (w =? 0) = true.
Proof.
  unfold classify. destruct (WIFSIGNALED stat) eqn:E; [|by destruct (WIFEXITED stat), (WIFSTOPPED stat)]. intros H. injection H as <-.
  apply negb_true_iff, Z.eqb_neq. intros H. unfold WIFSIGNALED in E. by rewrite H in E.
Qed.
Lemma classify_ended stat : ended stat = true ->
  exists w, classify stat = (w, Tsignaled) \/ classify stat = (w, Texited).
Proof.
  unfold ended, classify. destruct (WIFSIGNALED stat); [by eauto|]. simpl. intros ->. by eauto.
Qed.

Lemma reap_slot_ok others i s cpid w st stat ret a (p : procs (A:=A)) r e : procs_ok others p ->
  running p !! i = Some s -> pgrp s = cpid -> cpid <> 0 -> cmd s = Some e -> e ∈ coll cfg ->
  exists err p' r', reap_slot cfg i s cpid w st stat ret a (mkProcs (running p) (num_active p - 1) (orphans p) (zoo p) (kills p)) r
    = Ok (err, p', r') /\ procs_ok others p'.
Proof.
  intros Hp Hi <- Hs He Hin. unfold reap_slot. rewrite He. cbn [zoo running orphans num_active kills].
  set (s' := mkSlot 0 (stopping s) (mystime s) (Some e)).
  pose proof (pgrps_insert (running p) i s s' Hi) as Hpg. rewrite nz_cons, (proj2 (Z.eqb_neq _ 0)) in Hpg by done. simpl in Hpg.
  pose proof (po_zoo _ _ Hp) as Hz. rewrite <-Hpg in Hz. destruct (af_clear_holds _ _ _ Hz) as (z & Hcl & Hz'). rewrite Hcl.
  pose proof (procs_reap others p i s e z (kills p) Hp Hi Hs He Hcl) as Hfree. rewrite He in Hfree. specialize (Hfree Hz').
  destruct (wi_group_left a); do 3 eexists; (split; [reflexivity|]); [|exact Hfree].
  destruct Hfree as [Hl Hn Hd Hr Ho _]. simpl in *. constructor; simpl; try done; [by apply mark_orphan_ne|].
  rewrite mark_orphan_ok by done. simpl. rewrite <-Permutation_middle.
  rewrite Forall_forall in Hclean. destruct (Hclean e Hin) as [_ Hc].
  apply af_mark_holds; [done| |by apply (forallb_notin (fun c => negb (c =? NEWLINE)))|done].
  pose proof (po_range _ _ Hp) as Hrg. rewrite Forall_forall in Hrg.
  destruct (Hrg s) as [?|[? _]]; [by eapply list_elem_of_lookup_2|done|lia].
Qed.

Lemma check_pids_ok others gone a (p : procs (A:=A)) r : procs_ok others p ->
  match wi_child a with Some (cpid, stat) => cpid ∈ pgrps (running p) /\ ended stat = true | None => True end ->
  exists err p' r', check_pids cfg gone a p r = Ok (err, p', r') /\ procs_ok others p'.
Proof.
  intros Hp Ha. unfold check_pids. pose proof (procs_check_orphans others gone 0 (kills p) p Hp) as Hc.
  destruct (check_orphans _ _ _ _ _) as [[os z] ks]. specialize (Hc ks).
  destruct (wi_child a) as [[cpid stat]|]; [|by eauto]. destruct Ha as [Hin Hst].
  assert (Hn : forall st : term, (st = Tsignaled \/ st = Texited) ->
    match st with Tsignaled | Texited => num_active p - 1 | _ => num_active p end = num_active p - 1)
    by (by intros ? [->| ->]).
  destruct (classify stat) as [w st] eqn:Ecl. rewrite Hn.
  2:{ destruct (classify_ended stat Hst) as [w' [E|E]]; rewrite E in Ecl; injection Ecl as <- <-; auto. }
  cbn [running]. pose proof (find_slot_spec (fun t => pgrp t =? cpid) (running p)) as Hf.
  apply in_pgrps in Hin as (Hne & s0 & Hin & <-). destruct (find_slot _ (running p)) as [i|].
  - destruct Hf as (s & Hi & Es). rewrite Hi. apply Z.eqb_eq in Es.
    pose proof (po_range _ _ Hp) as Hrg. rewrite Forall_forall in Hrg.
    destruct (Hrg s) as [?|[_ (e & He & Hine)]]; [by eapply list_elem_of_lookup_2|congruence|].
    by apply (reap_slot_ok others i s (pgrp s0) w st stat _ a (mkProcs (running p) (num_active p) os z ks) r e).
  - rewrite Forall_forall in Hf. specialize (Hf s0 Hin). simpl in Hf. by rewrite Z.eqb_refl in Hf.
Qed.

Record pan_ok (others : list Z) (p : pan (A:=A)) : Prop := {
  pk_procs : procs_ok others (prc p);
  pk_c : (c p < length (coll cfg))%nat
}.

Lemma all_occupied l : Forall (fun s => (pgrp s =? 0) = false) l -> length (pgrps l) = length l.
Proof.
  induction 1 as [|s l Hs _ IH]; [done|]. rewrite pgrps_nz, map_cons, nz_cons, Hs. simpl. by rewrite <-IH.
Qed.


(** Setting the command of a free slot leaves it free. *)
Lemma procs_prepare others (p : procs (A:=A)) i s s' : procs_ok others p -> running p !! i = Some s ->
  pgrp s = 0 -> pgrp s' = 0 ->
  procs_ok others (mkProcs (<[i := s']> (running p)) (num_active p) (orphans p) (zoo p) (kills p)).
Proof.
  intros [Hl Hn Hd Hr Ho Hz] Hi Hs Hs'. pose proof (pgrps_insert (running p) i s s' Hi) as Hp.
  rewrite Hs, Hs' in Hp. simpl in Hp. constructor; simpl; try done.
  - by rewrite length_insert.
  - by rewrite Hp.
  - by rewrite Hp.
  - apply Forall_insert; [done|]. by left.
  - by rewrite Hp.
Qed.

(** Putting a new process into a free slot. *)
Lemma procs_fill others (p : procs (A:=A)) i s t0 pid e : procs_ok others p -> running p !! i = Some s ->
  pgrp s = 0 -> 0 < pid <= INT_MAX -> pid ∉ pgrps (running p) -> e ∈ coll cfg ->
  procs_ok others (mkProcs (<[i := mkSlot pid false t0 (Some e)]> (running p)) (num_active p + 1) (orphans p)
                     (af_mark (zoo p) pid (name e) (cmdline e)) (kills p)).
Proof.
  intros [Hl Hn Hd Hr Ho Hz] Hi Hs Hpid Hnew He. set (s' := mkSlot pid _ _ _).
  pose proof (pgrps_insert (running p) i s s' Hi) as Hp. change (pgrp s') with pid in Hp.
  rewrite Hs, !nz_cons, (proj2 (Z.eqb_neq pid 0)) in Hp by lia. simpl in Hp.
  rewrite Forall_forall in Hclean. destruct (Hclean e He) as [Hcn Hcc]. constructor; simpl; try done.
  - by rewrite length_insert.
  - rewrite Hp. simpl length. lia.
  - rewrite Hp. by apply NoDup_cons.
  - apply Forall_insert; [done|]. right. split; [done|]. by exists e.
  - rewrite Hp. simpl. apply af_mark_holds; [done|lia|done|done].
Qed.

Lemma start_one_ok others random a p : pan_ok others p -> can_start cfg p = true ->
  (random < length (coll cfg))%nat -> fair_start a p ->
  if interrupted a then start_one cfg random a p = Fault
  else exists p' e, start_one cfg random a p = Ok p' /\ pan_ok others p' /\ attempts p' = attempts p ++ [e].
Proof.
  intros [Hp Hc] Hcan Hrand Hfair. unfold start_one.
  pose proof (find_slot_spec (fun t => pgrp t =? 0) (running (prc p))) as Hf.
  destruct (find_slot _ _) as [i|].
  2:{ exfalso. pose proof (all_occupied _ Hf) as Hall. rewrite (po_len _ _ Hp) in Hall.
      unfold can_start in Hcan. rewrite (po_num _ _ Hp), Hall, !andb_true_iff, Z.ltb_lt in Hcan. lia. }
  destruct Hf as (s & Hi & Hs). apply Z.eqb_eq in Hs.
  set (ci := if sequential cfg then c p else random).
  assert (Hci : (ci < length (coll cfg))%nat) by (unfold ci; by destruct (sequential cfg)).
  destruct (lookup_lt_is_Some_2 _ _ Hci) as [e He]. rewrite He. apply list_elem_of_lookup_2 in He.
  clearbody ci.
  assert (Hc' : ((if sequential cfg then (if (length (coll cfg) <=? S ci)%nat then 0%nat else S ci) else ci) < length (coll cfg))%nat).
  { destruct (sequential cfg); [|done]. destruct (Nat.leb_spec (length (coll cfg)) (S ci)); lia. }
  assert (Hrun : if interrupted a then run_child cfg i e a (prc p) (rep p) = Fault
    else exists ok pr r, run_child cfg i e a (prc p) (rep p) = Ok (ok, pr, r) /\
      procs_ok others (if ok : bool then mkProcs (running pr) (num_active pr + 1) (orphans pr) (zoo pr) (kills pr) else pr)).
  { unfold run_child. rewrite Hi. simpl default. destruct a as [|t0|t0 t1 status errbuf|t0|t0 pid]; cbn [interrupted].
    - by do 3 eexists.
    - do 3 eexists. split; [done|]. by eapply procs_prepare.
    - destruct (classify status). do 3 eexists. split; [done|]. by eapply procs_prepare.
    - done.
    - do 3 eexists. split; [done|]. cbn. destruct Hfair. by eapply procs_fill. }
  destruct (interrupted a); [by rewrite Hrun|]. destruct Hrun as (ok & pr & r & -> & Hpr).
  do 2 eexists. split; [reflexivity|]. split; [|done]. by constructor.
Qed.

Lemma react_ok others gone p : pan_ok others p -> pan_ok others (react gone p).
Proof.
  intros [Hp Hc]. unfold react. destruct (rec_signal (signals p) =? 0); [done|].
  destruct (rec_signal (signals p) =? SIGUSR2); [done|].
  pose proof (propagate_ok others gone (prc p) (signals p) Hp) as H. by destruct (propagate_signal _ _ _).
Qed.

Lemma react_running gone p : pgrps (running (prc (react gone p))) = pgrps (running (prc p)).
Proof.
  unfold react, propagate_signal. repeat case_match; try done; simplify_eq; simpl; by rewrite ?pgrps_stop.
Qed.

Lemma finish_round_ok others a p : pan_ok others p -> fair_wait (ra_wait a) p ->
  exists p' fin, finish_round cfg a p = Ok (p', fin) /\ pan_ok others p' /\ (fin = true -> num_active (prc p') = 0).
Proof.
  intros [Hp Hc] Hw. unfold finish_round.
  match goal with |- context [react _ ?x] => set (p1 := x) end.
  destruct (react_ok others (ra_gone1 a) p1) as [Hp2 Hc2]; [by constructor|].
  assert (Hw2 : match wi_child (ra_wait a) with
    | Some (cpid, stat) => cpid ∈ pgrps (running (prc (react (ra_gone1 a) p1))) /\ ended stat = true | None => True end)
    by (by rewrite react_running).
  destruct (check_pids_ok others (ra_gone2 a) (ra_wait a) _ (rep (react (ra_gone1 a) p1)) Hp2 Hw2) as (err & pr & r & -> & Hok).
  cbn [mbind res_bind]. destruct (negb _ && (num_active pr =? 0)) eqn:E; do 2 eexists; (split; [reflexivity|]); (split; [by constructor|]); [|done].
  intros _. apply andb_true_iff in E as [_ E]. by apply Z.eqb_eq in E.
Qed.

Lemma step_ok others p x p' fin : pan_ok others p -> step cfg p x p' fin ->
  pan_ok others p' /\ (fin = true -> num_active (prc p') = 0).
Proof.
  intros Hp Hs. inversion Hs as [? sig Hsig|? random a ? Hcan Hr Hfair E|? a ? ? Hcan Hw Hsg E]; subst.
  - split; [|done]. by destruct Hp.
  - pose proof (start_one_ok others random a p Hp Hcan Hr Hfair) as H. destruct (interrupted a); [congruence|].
    destruct H as (p'' & e & E' & Hok & _). rewrite E' in E. by injection E as ->.
  - destruct (finish_round_ok others a p Hp Hw) as (p'' & fin' & E' & Hok & Hfin).
    rewrite E' in E. by injection E as -> ->.
Qed.

Lemma steps_ok others p0 l p fin : pan_ok others p0 -> steps cfg p0 l p fin ->
  pan_ok others p /\ (fin = true -> num_active (prc p) = 0).
Proof. intros H0. induction 1 as [|l p x p' fin _ [IH _] Hs]; [done|]. by eapply step_ok. Qed.

Lemma init_ok others timed starts0 fork z : coll cfg <> [] -> af_holds z others ->
  pan_ok others (init_pan cfg timed starts0 fork z).
Proof.
  intros Hc Hz. constructor; simpl; [|destruct (coll cfg); [done|simpl; lia]].
  assert (Hp : pgrps (repeat free_slot (keep_active cfg)) = []).
  { induction (keep_active cfg) as [|n IH]; [done|]. simpl. rewrite pgrps_nz, map_cons, nz_cons. simpl. exact IH. }
  constructor; simpl; rewrite ?Hp; try done; [by rewrite repeat_length|constructor|].
  apply Forall_forall. intros s Hs%list_elem_of_In%repeat_spec. subst. by left.
Qed.


(** *** Runs without signals *)

(** A test fails: it is killed by a signal, or it exits with neither 0 nor TCONF. *)
Definition bad (stat : Z) : bool :=
  match classify stat with
  | (_, Tsignaled) => true
  | (w, Texited) => negb (w =? 0) && negb (w =? TCONF)
  | _ => true
  end.
Definition bad_label (x : label) : bool :=
  match x with
  | LRound a => match wi_child (ra_wait a) with Some (_, stat) => bad stat | None => false end
  | _ => false
  end.
(** A command that could not be executed. *)
Definition unexecuted (x : label) : bool :=
  match x with LStart _ (SNoExec _ _ status _) => negb ((classify status).1 =? 0) | _ => false end.
Definition quiet_label (x : label) : Prop := match x with LSignal _ => False | LRound a => ra_signals a = [] | LStart _ _ => True end.
Definition unexecuteds (l : list label) : Z := Z.of_nat (length (List.filter unexecuted l)).
Definition bads (l : list label) : Z := Z.of_nat (length (List.filter bad_label l)).

Definition unstopped (p : procs (A:=A)) : Prop := Forall (fun s => stopping s = false) (running p).

(** Failures are counted for the log that is formatted. *)
Definition counted : bool := logfile cfg && fmt_print cfg.

Lemma reap_slot_err i s cpid w st stat ret a p r err p' r' : stopping s = false -> unstopped p ->
  reap_slot cfg i s cpid w st stat ret a p r = Ok (err, p', r') ->
  err = (match st with Tsignaled => ret + 1 | _ => ret end) /\ unstopped p' /\
  failcnt r' = incr (counted && negb (is_exited st && (w =? TCONF)) && negb (w =? 0)) (failcnt r).
Proof.
  intros Hs Hu. unfold reap_slot. rewrite Hs, andb_false_r. cbn [andb]. intros H.
  assert (Hu' : forall e, unstopped (mkProcs (<[i := mkSlot 0 false (mystime s) e]> (running p)) 0 [] (zoo p) []))
    by (intros e; apply Forall_insert; done).
  destruct (cmd s); [|done]. destruct (af_clear (zoo p) cpid); [|done].
  destruct (wi_group_left a); injection H as <- <- <-; (split; [by destruct st|split; [exact (Hu' _)|]]);
    unfold report_test; by destruct (test_out_dir cfg), (quiet_mode cfg).
Qed.

Lemma check_pids_err gone a (p : procs (A:=A)) r err p' r' : unstopped p ->
  match wi_child a with Some (cpid, stat) => cpid ∈ pgrps (running p) /\ ended stat = true | None => True end ->
  check_pids cfg gone a p r = Ok (err, p', r') ->
  let failed := match wi_child a with Some (_, stat) => bad stat | None => false end in
  negb (err =? 0) = failed /\ unstopped p' /\ failcnt r' = incr (counted && failed) (failcnt r).
Proof.
  intros Hu Ha. unfold check_pids. destruct (check_orphans _ _ _ _ _) as [[os z] ks].
  destruct (wi_child a) as [[cpid stat]|]; [|intros H; injection H as <- <- <-; by rewrite andb_false_r].
  destruct Ha as [Hin Hst]. pose proof (signaled_sig stat) as Hsg. unfold bad. pose proof (classify_ended stat Hst) as [w' Hcl].
  pose proof (find_slot_spec (fun t => pgrp t =? cpid) (running p)) as Hf.
  destruct (classify stat) as [w st]. cbn [running]. destruct (find_slot _ (running p)) as [i|].
  - destruct Hf as (s & Hi & _). rewrite Hi. intros H. apply reap_slot_err in H as (-> & Hu' & ->); [|exact (Forall_lookup_1 _ _ _ _ Hu Hi)|done].
    destruct Hcl as [E|E]; injection E as -> ->; cbn [is_exited andb negb].
    + rewrite (Hsg w' eq_refl), !andb_true_r. done.
    + rewrite <-andb_assoc, (andb_comm (negb _)). destruct (negb _ && negb _); done.
  - exfalso. apply in_pgrps in Hin as (_ & s0 & Hin & <-). rewrite Forall_forall in Hf. specialize (Hf s0 Hin). simpl in Hf.
    by rewrite Z.eqb_refl in Hf.
Qed.

(** The state of such a run after [k] attempts. *)
Record quiet_ok (l : list label) (p : pan (A:=A)) (k : nat) : Prop := {
  qk_k : (k <= length (coll cfg))%nat;
  qk_starts : starts p = Z.of_nat (length (coll cfg)) - Z.of_nat k;
  qk_attempts : attempts p = take k (coll cfg);
  qk_c : k = length (coll cfg) \/ c p = k;
  qk_stop : stop p = 0 \/ k = length (coll cfg);
  qk_idle : go_idle p = 0;
  qk_fork : fork_in_road p = false;
  qk_sig : rec_signal (signals p) = 0;
  qk_exit : exit_stat p = if track_exit_stats cfg then bads l else 0;
  qk_fails : failcnt (rep p) = if counted then bads l + unexecuteds l else 0;
  qk_unstopped : unstopped (prc p)
}.

Lemma bads_snoc l x : bads (l ++ [x]) = bads l + if bad_label x then 1 else 0.
Proof. unfold bads. rewrite List.filter_app, length_app. simpl. case_match; simpl; lia. Qed.
Lemma unexecuteds_snoc l x : unexecuteds (l ++ [x]) = unexecuteds l + if unexecuted x then 1 else 0.
Proof. unfold unexecuteds. rewrite List.filter_app, length_app. simpl. case_match; simpl; lia. Qed.

Lemma run_child_unstopped i e a p r ok p' r' random : unstopped p ->
  run_child cfg i e a p r = Ok (ok, p', r') -> unstopped p' /\ failcnt r' = incr (counted && unexecuted (LStart random a)) (failcnt r).
Proof.
  intros Hu H. unfold run_child in H.
  assert (Hold : stopping (default free_slot (running p !! i)) = false).
  { destruct (running p !! i) as [s|] eqn:E; [|done]. exact (Forall_lookup_1 _ _ _ _ Hu E). }
  assert (Hout : forall t0, failcnt (start_out cfg e t0 r) = failcnt r) by (intros t0; unfold start_out; by destruct (negb (test_out_dir cfg) && negb (quiet_mode cfg))).
  destruct a as [|t0|t0 t1 status errbuf|t0|t0 pid]; cbn [unexecuted]; rewrite ?andb_false_r; [by simplify_eq| | |done|].
  - simplify_eq. split; [by apply Forall_insert|apply Hout].
  - destruct (classify status) as [termid tt]. simplify_eq. split; [by apply Forall_insert|]. unfold counted, incr. cbn [fst].
    destruct (quiet_mode cfg); cbn [failcnt add_out]; by rewrite Hout.
  - simplify_eq. split; [by apply Forall_insert|apply Hout].
Qed.

Context (Hseq : sequential cfg = true) (Hbrakes : has_brakes cfg = false).

Lemma quiet_start others l p k random a p' : pan_ok others p -> quiet_ok l p k ->
  can_start cfg p = true -> (random < length (coll cfg))%nat -> fair_start a p ->
  start_one cfg random a p = Ok p' -> quiet_ok (l ++ [LStart random a]) p' (S k).
Proof.
  intros Hok [Hk Hst Hat Hc Hstop Hidle Hfork Hsig Hex Hfl Hu] Hcan Hra Hfair E.
  assert (Hlt : (k < length (coll cfg))%nat).
  { unfold can_start in Hcan. rewrite !andb_true_iff, negb_true_iff, Z.eqb_neq in Hcan. lia. }
  destruct Hc as [?|Hc]; [lia|]. destruct Hstop as [Hstop|?]; [|lia].
  pose proof (start_one_ok others random a p Hok Hcan Hra Hfair) as H1. destruct (interrupted a); [congruence|]. destruct H1 as (p1 & e1 & E1 & _ & Hat1).
  rewrite E in E1. injection E1 as <-. unfold start_one in E. rewrite Hseq, Hc in E.
  destruct (lookup_lt_is_Some_2 _ _ Hlt) as [e He]. rewrite He in E.
  destruct (find_slot _ _) as [i|].
  2:{ injection E as <-. simpl in Hat1. apply (f_equal length) in Hat1. rewrite length_app in Hat1. simpl in Hat1. lia. }
  destruct (run_child cfg i e a (prc p) (rep p)) as [[[ok pr] r]|?|] eqn:Er; [|done..]. apply (run_child_unstopped _ _ _ _ _ _ _ _ random) in Er as [Hu' Hf']; [|done].
  cbn [mbind res_bind] in E. injection E as <-. rewrite orb_true_r. constructor; cbn [starts stop go_idle exit_stat c fork_in_road signals prc rep attempts]; try done; [..|by left| | |].
  - cbn [andb]. rewrite (proj2 (Z.ltb_lt 0 (starts p))) by lia. lia.
  - rewrite Hat. symmetry. by apply take_S_r.
  - destruct (Nat.leb_spec (length (coll cfg)) (S k)); [left; lia|by right].
  - by rewrite bads_snoc, Z.add_0_r.
  - rewrite Hf', bads_snoc, unexecuteds_snoc, Hfl. unfold incr. cbn [bad_label]. destruct counted; [|done]. cbn [andb]. destruct (unexecuted _); lia.
  - by destruct ok.
Qed.

Lemma quiet_round l p k a p' fin : quiet_ok l p k -> fair_wait (ra_wait a) p -> ra_signals a = [] ->
  finish_round cfg a p = Ok (p', fin) ->
  quiet_ok (l ++ [LRound a]) p' k /\ (fin = true -> k = length (coll cfg)).
Proof.
  intros [Hk Hst Hat Hc Hstop Hidle Hfork Hsig Hex Hfl Hu] Hw Hsg E. unfold finish_round in E. rewrite Hsg in E. cbn [fold_left] in E.
  assert (Hs1 : exists s1, (if starts p =? 0 then stop p + 1
      else if (starts p =? -1) && ra_stop_file a then stop p + 1 else stop p) = s1 /\ (s1 = 0 \/ k = length (coll cfg))).
  { eexists. split; [reflexivity|]. destruct (Z.eqb_spec (starts p) 0); [right; lia|].
    rewrite (proj2 (Z.eqb_neq (starts p) (-1))) by lia. done. }
  destruct Hs1 as (s1 & Hs1 & Hs1'). rewrite Hs1 in E. clear Hs1. unfold react in E. cbn [signals] in E.
  rewrite Hsig in E. cbn [Z.eqb prc rep stop] in E.
  destruct (check_pids cfg (ra_gone2 a) (ra_wait a) (prc p) (rep p)) as [[[err pr] r]|?|] eqn:Ec; [|done..].
  apply check_pids_err in Ec as (Herr & Hu' & Hf'); [|done|exact Hw]. cbn [mbind res_bind] in E. rewrite Herr in E.
  rewrite Hbrakes, andb_false_r in E. cbn [fork_in_road go_idle exit_stat signals starts c attempts] in E. rewrite Hfork, andb_false_r in E.
  cbn [incr] in E. rewrite Hidle in E. cbn [Z.eqb negb andb] in E.
  assert (Hex' : incr (match wi_child (ra_wait a) with Some (_, stat) => bad stat | None => false end && track_exit_stats cfg) (exit_stat p)
    = if track_exit_stats cfg then bads (l ++ [LRound a]) else 0).
  { rewrite bads_snoc, Hex. cbn [bad_label]. unfold incr. destruct (track_exit_stats cfg); [rewrite andb_true_r|by rewrite andb_false_r].
    destruct (wi_child (ra_wait a)) as [[? stat]|]; [destruct (bad stat)|]; lia. }
  assert (Hfl' : failcnt r = if counted then bads (l ++ [LRound a]) + unexecuteds (l ++ [LRound a]) else 0).
  { rewrite Hf', bads_snoc, unexecuteds_snoc, Hfl. cbn [bad_label unexecuted]. unfold incr. destruct counted; [cbn [andb]|done].
    destruct (wi_child (ra_wait a)) as [[? stat]|]; [destruct (bad stat)|]; lia. }
  destruct (negb (s1 =? 0) && (num_active pr =? 0)) eqn:Ef; injection E as <- <-; (split; [by constructor|]); [|done].
  intros _. apply andb_true_iff in Ef as [Ef _]. apply negb_true_iff, Z.eqb_neq in Ef. by destruct Hs1'.
Qed.

Lemma quiet_steps others p0 l p fin : pan_ok others p0 -> quiet_ok [] p0 0 -> Forall quiet_label l ->
  steps cfg p0 l p fin -> exists k, quiet_ok l p k /\ (fin = true -> k = length (coll cfg)).
Proof.
  intros H0 Hq Hl Hs. revert Hl. induction Hs as [|l p x p' fin Hs IH Hx]; intros Hl; [by exists 0%nat|].
  rewrite Forall_app, Forall_singleton in Hl. destruct Hl as [Hl Hxl]. destruct (IH Hl) as (k & Hk & _).
  destruct (steps_ok others _ _ _ _ H0 Hs) as [Hok _].
  inversion Hx as [? sig Hsig|? random a ? Hcan Hr Hfair E|? a ? ? Hcan Hw Hsg E]; subst; [by destruct Hxl| |].
  - exists (S k). split; [|done]. by eapply quiet_start.
  - exists k. by eapply quiet_round.
Qed.

Lemma init_quiet z : quiet_ok [] (init_pan cfg false (-1) false z) 0.
Proof.
  constructor; simpl; try done; [lia|unfold default_starts; simpl; rewrite Hseq; lia|by right|by left|by destruct (track_exit_stats cfg)|by destruct counted|].
  apply Forall_forall. intros s Hs%list_elem_of_In%repeat_spec. by subst.
Qed.

End Invariant.

(** *** Executing a run *)
Section Drive.
Context {A : Type} `{AF : ActiveFile A} (cfg : config).

Definition fair_startb (a : start_answer) (p : pan (A:=A)) : bool :=
  match a with
  | SStarted _ pid => (0 <? pid) && (pid <=? INT_MAX) && negb (bool_decide (pid ∈ pgrps (running (prc p))))
  | _ => true
  end.
Definition fair_waitb (a : wait_info) (p : pan (A:=A)) : bool :=
  match wi_child a with
  | Some (cpid, stat) => bool_decide (cpid ∈ pgrps (running (prc p))) && ended stat
  | None => true
  end.

Definition do_step (x : label) (p : pan (A:=A)) : option (pan (A:=A) * bool) :=
  match x with
  | LSignal sig => if 0 <? sig then Some (handle sig p, false) else None
  | LStart random a =>
      if can_start cfg p && (random <? length (coll cfg))%nat && fair_startb a p
      then match start_one cfg random a p with Ok p' => Some (p', false) | _ => None end else None
  | LRound a =>
      if negb (can_start cfg p) && fair_waitb (ra_wait a) p && forallb (fun sig => 0 <? sig) (ra_signals a)
      then match finish_round cfg a p with Ok r => Some r | _ => None end else None
  end.

(** The run of a list of labels, [None] if it is not one. *)
Fixpoint drive (l : list label) (p : pan (A:=A)) : option (pan (A:=A) * bool) :=
  match l with
  | [] => Some (p, false)
  | [x] => do_step x p
  | x :: l' => match do_step x p with Some (p', false) => drive l' p' | _ => None end
  end.

Lemma do_step_sound x p p' fin : do_step x p = Some (p', fin) -> step cfg p x p' fin.
Proof.
  destruct x as [sig|random a|a]; simpl.
  - destruct (Z.ltb_spec 0 sig); [|done]. intros H1. injection H1 as <- <-. by constructor.
  - destruct (can_start cfg p && _ && _) eqn:E; [|done]. rewrite !andb_true_iff, Nat.ltb_lt in E. destruct E as [[Hc Hr] Hf].
    destruct (start_one cfg random a p) as [p1|?|] eqn:Es; [|done..]. intros H1. injection H1 as <- <-. constructor; try done.
    destruct a; try done. simpl in *. rewrite !andb_true_iff, Z.ltb_lt, Z.leb_le, negb_true_iff, bool_decide_eq_false in Hf.
    by destruct Hf.
  - destruct (negb _ && _ && _) eqn:E; [|done]. rewrite !andb_true_iff, negb_true_iff in E. destruct E as [[Hc Hw] Hsg].
    destruct (finish_round cfg a p) as [[p1 f1]|?|] eqn:Es; [|done..]. intros H1. injection H1 as <- <-. constructor; try done.
    2:{ rewrite forallb_forall in Hsg. apply Forall_forall. intros sig Hin%list_elem_of_In. by apply Z.ltb_lt, Hsg. }
    unfold fair_wait, fair_waitb in *. destruct (wi_child (ra_wait a)) as [[cpid stat]|]; [|done].
    rewrite andb_true_iff, bool_decide_eq_true in Hw. done.
Qed.

Lemma drive_sound p0 : forall l l0 p p' fin, steps cfg p0 l0 p false -> drive l p = Some (p', fin) -> steps cfg p0 (l0 ++ l) p' fin.
Proof.
  induction l as [|x l IH]; intros l0 p p' fin Hs E; [simpl in E; injection E as <- <-; by rewrite app_nil_r|].
  destruct l as [|y l]; [apply do_step_sound in E; by econstructor|].
  cbn [drive] in E. destruct (do_step x p) as [[p1 [|]]|] eqn:E1; [done| |done]. apply do_step_sound in E1.
  rewrite cons_middle, app_assoc. apply (IH (l0 ++ [x]) p1); [by econstructor|exact E].
Qed.
End Drive.

(** Two tests run one after the other; the first fails. *)
Definition ex_config : config :=
  mkConfig 1 [mkEntry (str "t1") (str "prog1 -x") false; mkEntry (str "t2") (str "prog2") false]
    false true true true true false true true true false.
Definition ex_zoo : cstr := zoo_mark_cmdline [] 7 (str "pan") (str "ltp-pan").
Definition ex_round (pid stat : Z) : label :=
  LRound (mkRound false (fun _ => false) (fun _ => false) (mkWait (Some (pid, stat)) 5 0 0 [] false) []).
Definition ex_labels : list label := [LStart 0 (SStarted 1 40); ex_round 40 256; LStart 0 (SStarted 2 41); ex_round 41 0].
Definition ex_final : pan (A:=cstr) :=
  match drive ex_config ex_labels (init_pan ex_config false (-1) false ex_zoo) with
  | Some (p, _) => p
  | None => init_pan ex_config false (-1) false ex_zoo
  end.

Example ex_run_result : (rep ex_final).(log) = [fmt_line (str "t1") (str "FAIL") 1; fmt_line (str "t2") (str "PASS") 0] /\
  failcnt (rep ex_final) = 1 /\ failcmds (rep ex_final) = [str "t1 prog1 -x" ++ [NEWLINE]].
Proof. vm_compute. done. Qed.

Lemma ex_steps : steps ex_config (init_pan ex_config false (-1) false ex_zoo) ex_labels ex_final true.
Proof. apply (drive_sound ex_config _ ex_labels [] _ _ true (steps_nil _ _)). vm_compute. reflexivity. Qed.
Lemma ex_clean : Forall (fun e => (NEWLINE ∉ name e) /\ (NEWLINE ∉ cmdline e)) (coll ex_config).
Proof.
  repeat constructor; apply (forallb_notin (fun c => negb (c =? NEWLINE))); reflexivity.
Qed.
Lemma ex_zoo_holds : af_holds ex_zoo [7].
Proof.
  exists 1%nat. exists [pad 79 (str "7,pan,ltp-pan")]. split_and!; [|vm_compute; reflexivity|done|vm_compute; reflexivity].
  repeat constructor. apply (forallb_notin (fun c => negb (c =? NEWLINE))); reflexivity.
Qed.



(** ** The signal ratchet *)

(** The signals sent to the tests when [sig] is received [n] times, each time
    followed by [propagate_signal]. *)
Fixpoint ratchet (n : nat) (sig : Z) (s : sigs) : list Z :=
  match n with
  | O => []
  | S n' => let s' := wait_handler sig s in send_signal s' :: ratchet n' sig (clear_sigs s')
  end.

Lemma ratchet_int n : ratchet (n * 5) SIGINT (mkSigs 0 0 0) = concat (repeat [SIGINT; SIGTERM; SIGHUP; SIGKILL; 0] n).
Proof. induction n as [|n IH]; [done|]. cbn. do 5 f_equal. exact IH. Qed.

(** From the second signal on. *)
Lemma ratchet_term n : ratchet n SIGTERM (mkSigs 0 0 SIGTERM) = repeat SIGTERM n.
Proof. induction n as [|n IH]; [done|]. cbn. f_equal. exact IH. Qed.
Lemma ratchet_hup n : ratchet (n * 2) SIGHUP (mkSigs 0 0 SIGTERM) = concat (repeat [SIGHUP; SIGTERM] n).
Proof. induction n as [|n IH]; [done|]. cbn. do 2 f_equal. exact IH. Qed.

(** How the driver escalates when it keeps receiving a signal.  From SIGINT
    it goes to SIGTERM, SIGHUP and SIGKILL, then probes with signal 0 and starts
    over; SIGTERM is only ever repeated, and SIGHUP alternates with SIGTERM, so
    with these a test that ignores both is never killed. *)
Theorem pan_signal_ratchet n :
  ratchet (n * 5) SIGINT (mkSigs 0 0 0) = concat (repeat [SIGINT; SIGTERM; SIGHUP; SIGKILL; 0] n) /\
  ratchet n SIGTERM (mkSigs 0 0 0) = repeat SIGTERM n /\
  ratchet (n * 2) SIGHUP (mkSigs 0 0 0) = concat (repeat [SIGHUP; SIGTERM] n).
Proof.
  split; [apply ratchet_int|]. destruct n as [|n]; [done|]. split; cbn.
  - f_equal. apply ratchet_term.
  - do 2 f_equal. apply ratchet_hup.
Qed.

(** ** The command file *)
Inductive coll_line : Set := CEntry (e : coll_entry) | CComment (s : cstr) | CEmpty.
Definition render_coll_line (l : coll_line) : cstr :=
  match l with
  | CEntry e => name e ++ str " " ++ cmdline e
  | CComment s => "#"%ch :: s
  | CEmpty => []
  end.
Definition render_coll (ls : list coll_line) : cstr := concat (map (fun l => render_coll_line l ++ [NEWLINE]) ls).
Definition coll_entries (ls : list coll_line) : list coll_entry :=
  concat (map (fun l => match l with CEntry e => [e] | _ => [] end) ls).

(** A tag is a word that does not start a comment, a command does not start
    with white space; neither has a newline, and the line has no [%f]. *)
Definition coll_line_ok (l : coll_line) : Prop :=
  (NEWLINE ∉ render_coll_line l) /\
  match l with
  | CEntry e =>
      name e <> [] /\ forallb (fun c => negb (blank c) && negb (c =? 0)) (name e) = true /\ at_ (name e) 0 <> "#"%ch /\
      cmdline e <> [] /\ isspace (at_ (cmdline e) 0) = false /\
      snd (mark_pcnt_f (render_coll_line l)) = false /\ pcnt_f e = false
  | _ => True
  end.

Lemma mark_pcnt_f_cons a b s : mark_pcnt_f (a :: b :: s) =
  if (a =? "%"%ch) && (b =? "f"%ch) then (a :: "s"%ch :: s, true)
  else let '(t, f) := mark_pcnt_f (b :: s) in (a :: t, f).
Proof. done. Qed.

Lemma mark_pcnt_f_none s : snd (mark_pcnt_f s) = false -> mark_pcnt_f s = (s, false).
Proof.
  induction s as [|a [|b s] IH]; [done..|]. rewrite mark_pcnt_f_cons.
  destruct ((a =? "%"%ch) && (b =? "f"%ch)); [done|].
  destruct (mark_pcnt_f (b :: s)) as [t f]. cbn [snd]. intros ->. by injection (IH eq_refl) as ->.
Qed.

Lemma lines_app s t : forall cur, NEWLINE ∉ s -> lines (s ++ NEWLINE :: t) cur = (rev cur ++ s) :: lines t [].
Proof.
  induction s as [|x s IH]; intros cur Hs; cbn [app lines]; [by rewrite app_nil_r|].
  apply not_elem_of_cons in Hs as [Hx Hs]. rewrite (proj2 (Z.eqb_neq x NEWLINE)) by congruence.
  rewrite IH by done. cbn [rev]. by rewrite <-app_assoc.
Qed.

Lemma lines_render ls : Forall coll_line_ok ls -> lines (render_coll ls) [] = map render_coll_line ls ++ [[]].
Proof.
  induction 1 as [|l ls [Hl _] _ IH]; [done|]. unfold render_coll in *. cbn [map concat].
  rewrite <-app_assoc. cbn [app]. rewrite lines_app by done. by rewrite IH.
Qed.

Lemma parse_line_render l : coll_line_ok l ->
  parse_line (render_coll_line l) = Ok (match l with CEntry e => Some e | _ => None end).
Proof.
  intros [_ H]. destruct l as [e|s|]; [|done..]. destruct H as (Hne & Hw & Hh & Hc & Hsp & Hm & Hf).
  unfold parse_line. rewrite (mark_pcnt_f_none _ Hm). cbn [render_coll_line].
  destruct e as [n cm f]. cbn [name cmdline pcnt_f] in *. subst f. destruct n as [|x n]; [done|].
  assert (Hx : blank x = false /\ x <> 0).
  { simpl in Hw. apply andb_true_iff in Hw as [Hw _]. rewrite andb_true_iff, !negb_true_iff, Z.eqb_neq in Hw. done. }
  change (at_ ((x :: n) ++ str " " ++ cm) 0) with x. change (at_ (x :: n) 0) with x in Hh. destruct Hx as [Hb Hx0].
  unfold blank in Hb. apply orb_false_iff in Hb as [Hb _]. apply Z.eqb_neq in Hh, Hx0. rewrite Hh, Hx0, Hb. cbn [orb].
  change (str " " ++ cm) with (" "%ch :: cm). rewrite span_app; [| |done].
  2:{ rewrite forallb_forall in *. intros y Hy%Hw. by apply andb_true_iff in Hy as [? _]. }
  rewrite <-Nat.add_1_r, <-drop_drop, drop_app_length. destruct cm as [|y cm]; [done|]. change (at_ (y :: cm) 0) with y in Hsp.
  cbn [drop skip_while]. by rewrite Hsp.
Qed.

Lemma parse_lines_render ls : Forall coll_line_ok ls -> parse_lines (map render_coll_line ls ++ [[]]) = Ok (coll_entries ls).
Proof.
  induction 1 as [|l ls Hl _ IH]; [done|]. cbn [map app parse_lines]. rewrite parse_line_render by done. cbn [mbind res_bind].
  rewrite IH. cbn [mbind res_bind]. by destruct l.
Qed.

Definition joined (args : list cstr) : cstr := concat (map (fun a => a ++ str " ") args).

Lemma strncat_ok buf s n : Z.of_nat (length s) <= n -> (length buf + length s < 1024)%nat ->
  strncat 1024 buf s n = Ok (buf ++ s).
Proof.
  intros Hn Hl. unfold strncat. rewrite (proj2 (Z.ltb_ge _ _)) by lia. rewrite take_ge by lia.
  by rewrite (proj2 (Z.leb_gt _ _)) by (rewrite length_app; lia).
Qed.

(** Arguments that fit the buffer are joined. *)
Lemma fill_args_ok args : forall work, (length work + length (joined args) <= 1023)%nat ->
  fill_args work (1023 - Z.of_nat (length work)) args = Ok (work ++ joined args).
Proof.
  induction args as [|a args IH]; intros work Hl; [by rewrite app_nil_r|].
  unfold joined in *. cbn [map concat] in *. rewrite !length_app in Hl. change (length (str " ")) with 1%nat in Hl.
  cbn [fill_args]. rewrite strncat_ok by lia. cbn [mbind res_bind].
  rewrite strncat_ok by (rewrite ?length_app; change (length (str " ")) with 1%nat; lia). cbn [mbind res_bind].
  replace (1023 - Z.of_nat (length work) - Z.of_nat (length a) - 1) with (1023 - Z.of_nat (length ((work ++ a) ++ str " ")))
    by (rewrite !length_app; change (length (str " ")) with 1%nat; lia).
  rewrite IH by (rewrite !length_app; change (length (str " ")) with 1%nat; lia). by rewrite <-!app_assoc.
Qed.

(** C35: reading back a written command file gives its entries in order, without
    the comments and empty lines; a command given by arguments that fit the
    buffer comes last, as the tag [cmdln]. *)
Theorem collection_roundtrip ls args :
  Forall coll_line_ok ls -> (length (joined args) <= 1023)%nat ->
  get_collection (Some (render_coll ls)) args
  = Ok (coll_entries ls ++
        match args with
        | [] => []
        | _ => let '(w, f) := mark_pcnt_f (joined args) in [mkEntry (str "cmdln") w f]
        end).
Proof.
  intros H Ha. unfold get_collection. rewrite lines_render, parse_lines_render by done. cbn [mbind res_bind].
  destruct args as [|a args]; [by rewrite app_nil_r|]. pose proof (fill_args_ok (a :: args) [] Ha) as Hf.
  change (1023 - Z.of_nat (length (@nil Z))) with 1023 in Hf. rewrite Hf. cbn [mbind res_bind app].
  by destruct (mark_pcnt_f (joined (a :: args))).
Qed.

Lemma collection_roundtrip_witness :
  get_collection (Some (str "# tests" ++ [NEWLINE] ++ str "t1 prog -a" ++ [NEWLINE; NEWLINE])) [str "ls"; str "%f"]
  = Ok [mkEntry (str "t1") (str "prog -a") false; mkEntry (str "cmdln") (str "ls %s ") true].
Proof.
  apply (collection_roundtrip [CComment (str " tests"); CEntry (mkEntry (str "t1") (str "prog -a") false); CEmpty] [str "ls"; str "%f"]).
  - repeat constructor; try done; apply (forallb_notin (fun c => negb (c =? NEWLINE))); reflexivity.
  - apply Nat.leb_le. reflexivity.
Defined.

(** A command that does not fit the buffer makes the second [strncat] write behind it. *)
Example long_argument_overflows : get_collection (Some []) [repeat "a"%ch 1024] = Fault.
Proof. vm_compute. reflexivity. Qed.
