(* ===== verification/Bitmask.v ===== *)
(** * Bit masks: [testcases/kernel/controllers/cpuset/cpuset_lib/libbitmask.c]

    A mask is an array of [unsigned long]s with a size in bits.  The operations
    take pointers and may be given the same mask more than once, so they are
    modelled on a store of masks.  The specification of a mask is a number below
    2 to the power of its size. *)

From stdpp Require Import base list gmap.
From Stdlib Require Import ZArith Lia.
From S2P Require Import Prelude.

Local Open Scope Z_scope.

Record bitmask : Set := mkBitmask { size : Z; maskp : list Z }.

(** Masks by the pointers to them. *)
Abbreviation store := (gmap nat bitmask).

Section Bitmask.
(** Bits of an [unsigned long], which is as wide as [size_t]. *)
Context (bitsperlong : Z).

Abbreviation M := (res unit).

(** ** The layout *)

Definition howmany (x y : Z) : Z := wrap_u bitsperlong (x + (y - 1)) / y.
Definition longsperbits (n : Z) : Z := howmany n bitsperlong.

Definition _getbit (b : bitmask) (n : Z) : M bool :=
  if n <? size b then
    w ← or_fault (maskp b !! Z.to_nat (n / bitsperlong));
    Ok (negb (Z.land (Z.shiftr w (n mod bitsperlong)) 1 =? 0))
  else Ok false.

Definition _setbit (b : bitmask) (n : Z) (v : bool) : M bitmask :=
  if n <? size b then
    let i := Z.to_nat (n / bitsperlong) in
    w ← or_fault (maskp b !! i);
    let bit := wrap_u bitsperlong (Z.shiftl 1 (n mod bitsperlong)) in
    let w' := if v then Z.lor w bit else Z.land w (wrap_u bitsperlong (Z.lnot bit)) in
    Ok (mkBitmask (size b) (<[i := w']> (maskp b)))
  else Ok b.

(** ** The store *)

Definition load (h : store) (p : nat) : M bitmask := or_fault (h !! p).
Definition getbit_at (h : store) (p : nat) (n : Z) : M bool := b ← load h p; _getbit b n.
Definition setbit_at (h : store) (p : nat) (n : Z) (v : bool) : M store :=
  b ← load h p; b' ← _setbit b n v; Ok (<[p := b']> h).

(** [p] is what [malloc] returns, if it succeeds, and [calloc_ok] whether the
    array can be allocated too. *)
Definition bitmask_alloc (h : store) (n : Z) (p : option nat) (calloc_ok : bool) : store * option nat :=
  match p with
  | None => (h, None)
  | Some p =>
      if calloc_ok then (<[p := mkBitmask n (repeat 0 (Z.to_nat (longsperbits n)))]> h, Some p)
      else (h, None)
  end.
Definition bitmask_free (h : store) (p : option nat) : store :=
  match p with None => h | Some p => delete p h end.

(** ** Loops *)

(** [for (i = from; i < from + n; i++)]. *)
Fixpoint for_up {S} (n : nat) (i : Z) (body : Z -> S -> M S) (s : S) : M S :=
  match n with
  | O => Ok s
  | Datatypes.S n' => s' ← body i s; for_up n' (i + 1) body s'
  end.
(** [for (i = n - 1; i >= 0; i--)]. *)
Fixpoint for_down {S} (n : nat) (body : Z -> S -> M S) (s : S) : M S :=
  match n with
  | O => Ok s
  | Datatypes.S n' => s' ← body (Z.of_nat n') s; for_down n' body s'
  end.
(** A loop over the bits that ends early with a value. *)
Fixpoint scan {R} (n : nat) (i : Z) (body : Z -> M (option R)) (at_end : R) : M R :=
  match n with
  | O => Ok at_end
  | Datatypes.S n' =>
      r ← body i;
      match r with Some v => Ok v | None => scan n' (i + 1) body at_end end
  end.

Definition uint (z : Z) : Z := wrap_u 32 z.

(** The assignment loops: bit [i] of [p1] becomes [f i]. *)
Definition assign (h : store) (p1 : nat) (f : store -> Z -> M bool) : M store :=
  b1 ← load h p1;
  for_up (Z.to_nat (size b1)) 0 (fun i h => v ← f h i; setbit_at h p1 i v) h.

(** ** Assignment operations *)
Definition bitmask_copy (h : store) (p1 p2 : nat) : M store := assign h p1 (fun h i => getbit_at h p2 i).
Definition bitmask_setall (h : store) (p : nat) : M store := assign h p (fun _ _ => Ok true).
Definition bitmask_clearall (h : store) (p : nat) : M store := assign h p (fun _ _ => Ok false).

(** ** Numeric queries *)
Definition bitmask_nbytes (h : store) (p : nat) : M Z :=
  b ← load h p; Ok (uint (longsperbits (size b) * (bitsperlong / 8))).
Definition bitmask_mask (h : store) (p : nat) : M (list Z) := b ← load h p; Ok (maskp b).
Definition bitmask_nbits (h : store) (p : nat) : M Z := b ← load h p; Ok (size b).
Definition bitmask_weight (h : store) (p : nat) : M Z :=
  b ← load h p;
  for_up (Z.to_nat (size b)) 0 (fun i w => v ← _getbit b i; Ok (if v : bool then uint (w + 1) else w)) 0.

(** ** Boolean queries *)
Definition bitmask_isbitset (h : store) (p : nat) (i : Z) : M bool := getbit_at h p i.
Definition bitmask_isbitclear (h : store) (p : nat) (i : Z) : M bool := v ← getbit_at h p i; Ok (negb v).
Definition bitmask_isallset (h : store) (p : nat) : M bool :=
  b ← load h p; scan (Z.to_nat (size b)) 0 (fun i => v ← _getbit b i; Ok (if v : bool then None else Some false)) true.
Definition bitmask_isallclear (h : store) (p : nat) : M bool :=
  b ← load h p; scan (Z.to_nat (size b)) 0 (fun i => v ← _getbit b i; Ok (if v : bool then Some false else None)) true.

(** ** Single bits *)
Definition bitmask_setbit (h : store) (p : nat) (i : Z) : M store := setbit_at h p i true.
Definition bitmask_clearbit (h : store) (p : nat) (i : Z) : M store := setbit_at h p i false.

(** ** Comparisons *)
Definition compare2 (b1 b2 : bitmask) (n : Z) (stop : bool -> bool -> bool) (found : bool) : M bool :=
  scan (Z.to_nat n) 0
    (fun i => x ← _getbit b1 i; y ← _getbit b2 i; Ok (if stop x y then Some found else None)) (negb found).
Definition bitmask_equal (h : store) (p1 p2 : nat) : M bool :=
  b1 ← load h p1; b2 ← load h p2; compare2 b1 b2 (Z.max (size b1) (size b2)) (fun x y => negb (eqb x y)) false.
Definition bitmask_subset (h : store) (p1 p2 : nat) : M bool :=
  b1 ← load h p1; b2 ← load h p2; compare2 b1 b2 (size b1) (fun x y => x && negb y) false.
Definition bitmask_disjoint (h : store) (p1 p2 : nat) : M bool :=
  b1 ← load h p1; b2 ← load h p2; compare2 b1 b2 (size b1) andb false.
Definition bitmask_intersects (h : store) (p1 p2 : nat) : M bool :=
  b1 ← load h p1; b2 ← load h p2; compare2 b1 b2 (size b1) andb true.

(** ** Ranges [[i, j)] *)
Definition set_range (h : store) (p : nat) (i j : Z) (v : bool) : M store :=
  for_up (Z.to_nat (j - i)) i (fun n h => setbit_at h p n v) h.
Definition bitmask_setrange (h : store) (p : nat) (i j : Z) : M store := set_range h p i j true.
Definition bitmask_clearrange (h : store) (p : nat) (i j : Z) : M store := set_range h p i j false.
Definition bitmask_keeprange (h : store) (p : nat) (i j : Z) : M store :=
  h1 ← bitmask_clearrange h p 0 i;
  b ← load h1 p;
  bitmask_clearrange h1 p j (size b).

(** ** Unary and binary operations *)
Definition bitmask_complement (h : store) (p1 p2 : nat) : M store :=
  assign h p1 (fun h i => v ← getbit_at h p2 i; Ok (negb v)).
Definition bitmask_shiftright (h : store) (p1 p2 : nat) (n : Z) : M store :=
  assign h p1 (fun h i => getbit_at h p2 (uint (i + n))).
(** [i] is an [int], but [i - n] is computed as [unsigned int]. *)
Definition bitmask_shiftleft (h : store) (p1 p2 : nat) (n : Z) : M store :=
  b1 ← load h p1;
  let last := wrap_s 32 (size b1 - 1) in
  for_down (Z.to_nat (last + 1)) (fun i h => v ← getbit_at h p2 (uint (i - n)); setbit_at h p1 i v) h.

Definition binop (op : bool -> bool -> bool) (h : store) (p1 p2 p3 : nat) : M store :=
  assign h p1 (fun h i => x ← getbit_at h p2 i; y ← getbit_at h p3 i; Ok (op x y)).
Definition bitmask_and : store -> nat -> nat -> nat -> M store := binop andb.
Definition bitmask_andnot : store -> nat -> nat -> nat -> M store := binop (fun x y => x && negb y).
Definition bitmask_or : store -> nat -> nat -> nat -> M store := binop orb.
Definition bitmask_eor : store -> nat -> nat -> nat -> M store := binop xorb.

(** ** Iteration *)
Definition bitmask_next (b : bitmask) (i : Z) : M Z :=
  scan (Z.to_nat (size b - i)) i (fun n => v ← _getbit b n; Ok (if v : bool then Some n else None)) (Z.max i (size b)).
Definition bitmask_first (b : bitmask) : M Z := bitmask_next b 0.

(** [n] counts down; it is compared before it is decremented. *)
Fixpoint rel_loop (k : nat) (i n : Z) (b : bitmask) : M Z :=
  match k with
  | O => Ok i
  | Datatypes.S k' =>
      v ← _getbit b i;
      if v : bool then (if n =? 0 then Ok i else rel_loop k' (i + 1) (uint (n - 1)) b)
      else rel_loop k' (i + 1) n b
  end.
Definition bitmask_rel_to_abs_pos (b : bitmask) (n : Z) : M Z := rel_loop (Z.to_nat (size b)) 0 n b.
Definition count_below (b : bitmask) (n : Z) : M Z :=
  for_up (Z.to_nat n) 0 (fun i w => v ← _getbit b i; Ok (if v : bool then uint (w + 1) else w)) 0.
Definition bitmask_abs_to_rel_pos (b : bitmask) (n : Z) : M Z :=
  v ← _getbit b n;
  if v : bool then count_below b n else Ok (size b).
Definition bitmask_last (b : bitmask) : M Z :=
  for_up (Z.to_nat (size b)) 0 (fun i m => v ← _getbit b i; Ok (if v : bool then i else m)) (size b).
End Bitmask.

(** ** A mask as a number *)

(** Bits of a number put together from two parts. *)
Lemma testbit_concat k x v n : 0 <= k -> 0 <= x < 2 ^ k -> 0 <= n ->
  Z.testbit (x + 2 ^ k * v) n = if n <? k then Z.testbit x n else Z.testbit v (n - k).
Proof.
  intros Hk Hx Hn. assert (0 < 2 ^ k) by lia. rewrite (Z.mul_comm (2 ^ k)). destruct (Z.ltb_spec n k) as [Hlt|Hge].
  - rewrite <-(Z.mod_pow2_bits_low _ k n) by lia. rewrite Z.mod_add, Z.mod_small by lia. done.
  - replace n with (n - k + k) at 1 by lia. rewrite <-Z.div_pow2_bits by lia.
    rewrite Z.div_add, Z.div_small by lia. done.
Qed.

Section Spec.
Context (bitsperlong : Z) (Hbpl : bitsperlong = 32 \/ bitsperlong = 64).

Fixpoint longs_value (l : list Z) : Z :=
  match l with [] => 0 | w :: l' => w + 2 ^ bitsperlong * longs_value l' end.
Definition value (b : bitmask) : Z := longs_value (maskp b).

Definition long_ok (w : Z) : Prop := 0 <= w < 2 ^ bitsperlong.

(** The array has the longs that the size needs, and the bits beyond the size
    are clear. *)
Record wf (b : bitmask) : Prop := {
  wf_size : 0 <= size b <= UINT_MAX;
  wf_longs : Forall long_ok (maskp b);
  wf_length : size b <= bitsperlong * Z.of_nat (length (maskp b));
  wf_value : value b < 2 ^ size b
}.

Lemma bpl_pos : 0 < bitsperlong <= 64.
Proof using Hbpl. destruct Hbpl; lia. Qed.

Lemma longs_nonneg l : Forall long_ok l -> 0 <= longs_value l.
Proof using Hbpl.
  pose proof bpl_pos. induction 1 as [|w l [Hw _] _ IH]; simpl; [lia|]. assert (0 < 2 ^ bitsperlong) by lia. nia.
Qed.

Lemma longs_testbit (l : list Z) : forall n, Forall long_ok l -> 0 <= n ->
  Z.testbit (longs_value l) n = Z.testbit (default 0 (l !! Z.to_nat (n / bitsperlong))) (n mod bitsperlong).
Proof using Hbpl.
  pose proof bpl_pos as Hp. induction l as [|x l IH]; intros n Hl Hn; [simpl; by rewrite !Z.bits_0|].
  apply Forall_cons in Hl as [Hx Hl]. cbn [longs_value]. rewrite testbit_concat by (try exact Hx; lia).
  destruct (Z.ltb_spec n bitsperlong) as [Hlt|Hge].
  - rewrite Z.div_small by lia. simpl. by rewrite Z.mod_small by lia.
  - replace (n / bitsperlong) with (Z.succ ((n - bitsperlong) / bitsperlong)).
    2:{ replace n with (n - bitsperlong + 1 * bitsperlong) at 2 by lia. rewrite Z.div_add by lia. lia. }
    rewrite Z2Nat.inj_succ by (apply Z.div_pos; lia). simpl lookup. rewrite IH by (try done; lia).
    f_equal. rewrite <-(Z.mod_add (n - bitsperlong) 1 bitsperlong) by lia. f_equal. lia.
Qed.

Lemma longs_bound (l : list Z) n : (0 <= n < bitsperlong * Z.of_nat (length l)) -> exists w, l !! Z.to_nat (n / bitsperlong) = Some w.
Proof using Hbpl.
  pose proof bpl_pos. intros Hn. apply lookup_lt_is_Some_2.
  assert (n / bitsperlong < Z.of_nat (length l)) by (apply Z.div_lt_upper_bound; lia).
  assert (0 <= n / bitsperlong) by (apply Z.div_pos; lia). lia.
Qed.

(** Bit [n] of a mask. *)
Definition bit (b : bitmask) (n : Z) : bool := Z.testbit (value b) n.

Lemma bit_above b n : wf b -> size b <= n -> bit b n = false.
Proof using Hbpl.
  intros [Hs Hl _ Hv] Hn. pose proof (longs_nonneg _ Hl). unfold bit.
  destruct (Z.eq_dec (value b) 0) as [->|]; [apply Z.bits_0|].
  apply Z.bits_above_log2; [done|]. apply Z.log2_lt_pow2; [unfold value in *; lia|].
  eapply Z.lt_le_trans; [exact Hv|]. apply Z.pow_le_mono_r; lia.
Qed.

Lemma shiftr_bit w k : 0 <= k -> negb (Z.land (Z.shiftr w k) 1 =? 0) = Z.testbit w k.
Proof.
  intros Hk. rewrite (Z.land_ones _ 1) by lia. change (2 ^ 1) with 2. rewrite <-Z.bit0_mod.
  rewrite Z.shiftr_spec by lia. rewrite Z.add_0_l. by destruct (Z.testbit w k).
Qed.

Lemma getbit_ok b n : wf b -> 0 <= n -> _getbit bitsperlong b n = Ok (bit b n).
Proof using Hbpl.
  pose proof bpl_pos. intros Hb Hn. unfold _getbit. destruct (Z.ltb_spec n (size b)) as [Hlt|Hge].
  - destruct (longs_bound (maskp b) n) as [w Hw]; [pose proof (wf_length _ Hb); lia|].
    unfold bit, value. rewrite longs_testbit by (try exact (wf_longs _ Hb); lia). rewrite Hw.
    cbn [or_fault mbind res_bind default]. by rewrite shiftr_bit by (apply Z.mod_pos_bound; lia).
  - by rewrite bit_above by done.
Qed.

(** The new long of [_setbit]. *)
Definition set_in_long (w k : Z) (v : bool) : Z :=
  if v then Z.lor w (wrap_u bitsperlong (Z.shiftl 1 k))
  else Z.land w (wrap_u bitsperlong (Z.lnot (wrap_u bitsperlong (Z.shiftl 1 k)))).

Lemma shifted_bit k j : 0 <= k < bitsperlong -> 0 <= j ->
  Z.testbit (wrap_u bitsperlong (Z.shiftl 1 k)) j = (j =? k).
Proof using Hbpl.
  pose proof bpl_pos. intros Hk Hj. unfold wrap_u. rewrite Z.shiftl_1_l, Z.mod_small.
  - rewrite Z.pow2_bits_eqb by lia. apply Z.eqb_sym.
  - split; [lia|]. apply Z.pow_lt_mono_r; lia.
Qed.

Lemma set_in_long_bit w k v j : long_ok w -> 0 <= k < bitsperlong -> 0 <= j ->
  Z.testbit (set_in_long w k v) j = if j =? k then v else Z.testbit w j.
Proof using Hbpl.
  pose proof bpl_pos. intros Hw Hk Hj. unfold set_in_long. destruct v.
  - rewrite Z.lor_spec, shifted_bit by lia. by destruct (j =? k); rewrite ?orb_true_r, ?orb_false_r.
  - rewrite Z.land_spec. unfold wrap_u at 1. destruct (Z.ltb_spec j bitsperlong) as [Hlt|Hge].
    + rewrite Z.mod_pow2_bits_low by lia. rewrite Z.lnot_spec, shifted_bit by lia.
      by destruct (j =? k); rewrite ?andb_true_r, ?andb_false_r.
    + rewrite Z.mod_pow2_bits_high, andb_false_r by lia. rewrite (proj2 (Z.eqb_neq j k)) by lia.
      symmetry. destruct (Z.eq_dec w 0) as [->|]; [apply Z.bits_0|]. apply Z.bits_above_log2; [apply Hw|].
      apply Z.log2_lt_pow2; [destruct Hw; lia|]. eapply Z.lt_le_trans; [apply Hw|]. apply Z.pow_le_mono_r; lia.
Qed.

(** A number is below a power of two when its higher bits are clear. *)
Lemma below_pow2 a k : 0 <= a -> 0 <= k -> (forall n, k <= n -> Z.testbit a n = false) -> a < 2 ^ k.
Proof.
  intros Ha Hk Hb. destruct (Z.eq_dec a 0) as [->|]; [lia|]. apply Z.log2_lt_pow2; [lia|].
  apply Z.nle_gt. intros Hle. pose proof (Hb _ Hle) as H. by rewrite Z.bit_log2 in H by lia.
Qed.

Lemma set_in_long_ok w k v : long_ok w -> 0 <= k < bitsperlong -> long_ok (set_in_long w k v).
Proof using Hbpl.
  pose proof bpl_pos. intros Hw Hk. assert (Hn : 0 <= set_in_long w k v).
  { unfold set_in_long, wrap_u. destruct v; [apply Z.lor_nonneg|apply Z.land_nonneg]; [|left]; [|apply Hw].
    split; [apply Hw|]. apply Z.mod_pos_bound. lia. }
  split; [done|]. apply below_pow2; [done|lia|]. intros n Hge. rewrite set_in_long_bit by (done || lia).
  rewrite (proj2 (Z.eqb_neq n k)) by lia. destruct (Z.eq_dec w 0) as [->|]; [apply Z.bits_0|].
  apply Z.bits_above_log2; [apply Hw|]. apply Z.log2_lt_pow2; [destruct Hw; lia|].
  eapply Z.lt_le_trans; [apply Hw|]. apply Z.pow_le_mono_r; lia.
Qed.

Lemma setbit_ok b n v : wf b -> 0 <= n ->
  exists b', _setbit bitsperlong b n v = Ok b' /\ wf b' /\ size b' = size b /\
    forall m, 0 <= m -> bit b' m = if (m =? n) && (n <? size b) then v else bit b m.
Proof using Hbpl.
  pose proof bpl_pos. intros Hb Hn. unfold _setbit. destruct (Z.ltb_spec n (size b)) as [Hlt|Hge].
  2:{ exists b. split_and!; try done. intros m _. by rewrite andb_false_r. }
  destruct (longs_bound (maskp b) n) as [w Hw]; [pose proof (wf_length _ Hb); lia|].
  rewrite Hw. cbn [or_fault mbind res_bind]. set (k := n mod bitsperlong) in *.
  assert (Hk : 0 <= k < bitsperlong) by (apply Z.mod_pos_bound; lia).
  change (if v then _ else _) with (set_in_long w k v). set (i := Z.to_nat (n / bitsperlong)) in *.
  assert (Hwok : long_ok w) by (exact (Forall_lookup_1 _ _ _ _ (wf_longs _ Hb) Hw)).
  assert (Hl : Forall long_ok (<[i := set_in_long w k v]> (maskp b))).
  { apply Forall_insert; [exact (wf_longs _ Hb)|]. by apply set_in_long_ok. }
  eexists. split; [reflexivity|].
  assert (Hbit : forall m, 0 <= m -> bit (mkBitmask (size b) (<[i := set_in_long w k v]> (maskp b))) m
      = if m =? n then v else bit b m).
  { intros m Hm. unfold bit, value. cbn [maskp]. rewrite !longs_testbit by (done || exact (wf_longs _ Hb)).
    assert (Hmi : Z.to_nat (m / bitsperlong) = i <-> m / bitsperlong = n / bitsperlong).
    { unfold i. split; [|by intros ->]. apply Z2Nat.inj; apply Z.div_pos; lia. }
    destruct (decide (Z.to_nat (m / bitsperlong) = i)) as [E|E].
    - rewrite E, list_lookup_insert_eq by (by eapply lookup_lt_Some). rewrite Hw. simpl default.
      rewrite set_in_long_bit by (try done; apply Z.mod_pos_bound; lia).
      apply Hmi in E. destruct (Z.eqb_spec m n) as [->|Hmn]; [by rewrite Z.eqb_refl|].
      rewrite (proj2 (Z.eqb_neq _ _)); [done|]. intros Em. apply Hmn.
      rewrite (Z.div_mod m bitsperlong), (Z.div_mod n bitsperlong) by lia. unfold k in Em. congruence.
    - rewrite list_lookup_insert_ne by done. rewrite (proj2 (Z.eqb_neq m n)); [done|]. by intros ->. }
  split_and!; [|done|].
  - constructor; cbn [size maskp]; [apply Hb|done|by rewrite length_insert; apply Hb|].
    apply below_pow2; [by apply longs_nonneg|pose proof (wf_size _ Hb); lia|].
    intros m Hm. pose proof (wf_size _ Hb). fold (bit (mkBitmask (size b) (<[i := set_in_long w k v]> (maskp b))) m).
    rewrite Hbit by lia. rewrite (proj2 (Z.eqb_neq m n)) by lia. by apply bit_above.
  - intros m Hm. by rewrite Hbit, andb_true_r by done.
Qed.

(** ** Loops *)

Lemma for_up_inv {S} (I : Z -> S -> Prop) body : forall n i s, I i s ->
  (forall j s, i <= j < i + Z.of_nat n -> I j s -> exists s', body j s = Ok s' /\ I (j + 1) s') ->
  exists s', for_up n i body s = Ok s' /\ I (i + Z.of_nat n) s'.
Proof.
  induction n as [|n IH]; intros i s Hs Hb; cbn [for_up].
  - exists s. by rewrite Z.add_0_r.
  - destruct (Hb i s ltac:(lia) Hs) as (s' & -> & Hs'). cbn [mbind res_bind].
    destruct (IH (i + 1) s' Hs') as (s'' & E & Hs''); [intros j t Hj; apply Hb; lia|].
    exists s''. split; [done|]. by replace (i + Z.of_nat (Datatypes.S n)) with (i + 1 + Z.of_nat n) by lia.
Qed.

Lemma for_down_inv {S} (I : Z -> S -> Prop) body : forall n s, I (Z.of_nat n) s ->
  (forall j s, 0 <= j < Z.of_nat n -> I (j + 1) s -> exists s', body j s = Ok s' /\ I j s') ->
  exists s', for_down n body s = Ok s' /\ I 0 s'.
Proof.
  induction n as [|n IH]; intros s Hs Hb; cbn [for_down]; [by exists s|].
  destruct (Hb (Z.of_nat n) s ltac:(lia)) as (s' & -> & Hs'); [by replace (Z.of_nat n + 1) with (Z.of_nat (Datatypes.S n)) by lia|].
  cbn [mbind res_bind]. apply IH; [done|]. intros j t Hj. apply Hb. lia.
Qed.

(** The scanning loop stops at the first position where [stop] holds. *)
Lemma scan_spec {R} (body : Z -> res unit (option R)) (stop : Z -> bool) (val : Z -> R) at_end : forall n i,
  (forall j, i <= j < i + Z.of_nat n -> body j = Ok (if stop j then Some (val j) else None)) ->
  exists r, scan n i body at_end = Ok r /\
    ((exists j, i <= j < i + Z.of_nat n /\ stop j = true /\ (forall k, i <= k < j -> stop k = false) /\ r = val j) \/
     ((forall k, i <= k < i + Z.of_nat n -> stop k = false) /\ r = at_end)).
Proof.
  induction n as [|n IH]; intros i Hb; cbn [scan].
  - exists at_end. split; [done|]. right. split; [lia|done].
  - rewrite (Hb i) by lia. cbn [mbind res_bind]. destruct (stop i) eqn:E.
    + exists (val i). split; [done|]. left. exists i. split_and!; [lia|lia|done|lia|done].
    + destruct (IH (i + 1)) as (r & -> & Hr); [intros j Hj; apply Hb; lia|]. exists r. split; [done|].
      destruct Hr as [(j & Hj & Hs & Hk & ->)|[Hk ->]]; [left; exists j|right]; split_and!; try done; try lia.
      * intros k Hk'. destruct (Z.eq_dec k i) as [->|]; [done|]. apply Hk. lia.
      * intros k Hk'. destruct (Z.eq_dec k i) as [->|]; [done|]. apply Hk. lia.
Qed.

(** ** Assignments *)

Definition wf_store (h : store) : Prop := forall p b, h !! p = Some b -> wf b.

(** [b'] is what [p1] points to in the middle of a loop: [done m] tells which
    bits are assigned. *)
Definition partial (b1 : bitmask) (v done : Z -> bool) (b' : bitmask) : Prop :=
  wf b' /\ size b' = size b1 /\ forall m, 0 <= m -> bit b' m = if done m then v m else bit b1 m.

Lemma setbit_partial (h : store) p1 b1 v done done' b' i :
  partial b1 v done b' -> 0 <= i -> (forall m, 0 <= m -> done' m = (m =? i) && (i <? size b1) || done m) ->
  exists b'', setbit_at bitsperlong (<[p1 := b']> h) p1 i (v i) = Ok (<[p1 := b'']> h) /\ partial b1 v done' b''.
Proof using Hbpl.
  intros (Hwf & Hs & Hb) Hi Hd. destruct (setbit_ok b' i (v i) Hwf ltac:(lia)) as (b'' & E & Hwf' & Hs' & Hb').
  exists b''. split.
  - unfold setbit_at, load. rewrite lookup_insert_eq. cbn [or_fault mbind res_bind]. rewrite E. cbn [mbind res_bind].
    by rewrite insert_insert_eq.
  - split_and!; [done|congruence|]. intros m Hm. rewrite Hb', Hs, Hd, Hb by done.
    destruct (Z.eqb_spec m i) as [->|]; [|done]. by destruct (i <? size b1).
Qed.

Lemma assign_ok (h : store) p1 b1 f v : h !! p1 = Some b1 -> wf b1 ->
  (forall i b', 0 <= i < size b1 -> partial b1 v (fun m => m <? i) b' -> f (<[p1 := b']> h) i = Ok (v i)) ->
  exists b', assign bitsperlong h p1 f = Ok (<[p1 := b']> h) /\ partial b1 v (fun m => m <? size b1) b'.
Proof using Hbpl.
  intros Hp Hwf Hf. unfold assign, load. rewrite Hp. cbn [or_fault mbind res_bind]. pose proof (wf_size _ Hwf).
  destruct (for_up_inv (fun i h' => exists b', h' = <[p1 := b']> h /\ partial b1 v (fun m => m <? i) b')
    (fun i h => v ← f h i; setbit_at bitsperlong h p1 i v) (Z.to_nat (size b1)) 0 h) as (h' & E & b' & -> & Hb').
  - exists b1. split; [by rewrite insert_id|]. split_and!; [done|done|]. intros m Hm. by rewrite (proj2 (Z.ltb_ge m 0)) by lia.
  - intros j h' Hj (b' & -> & Hb'). rewrite (Hf j b') by (try done; lia). cbn [mbind res_bind].
    destruct (setbit_partial h p1 b1 v _ (fun m => m <? j + 1) b' j Hb') as (b'' & E & Hb''); [lia| |].
    + intros m Hm. destruct (Z.ltb_spec m (j + 1)), (Z.eqb_spec m j), (Z.ltb_spec m j), (Z.ltb_spec j (size b1)); simpl; lia || done.
    + rewrite E. eauto.
  - exists b'. split; [done|]. by replace (0 + Z.of_nat (Z.to_nat (size b1))) with (size b1) in Hb' by lia.
Qed.

(** Reading a bit that is not assigned yet, also of the assigned mask itself. *)
Lemma getbit_stable (h : store) p1 p2 b1 b2 v done b' j :
  h !! p1 = Some b1 -> h !! p2 = Some b2 -> wf b2 -> partial b1 v done b' -> 0 <= j -> done j = false ->
  getbit_at bitsperlong (<[p1 := b']> h) p2 j = Ok (bit b2 j).
Proof using Hbpl.
  intros Hp1 Hp2 Hwf (Hwf' & Hs & Hb) Hj Hd. unfold getbit_at, load. destruct (decide (p1 = p2)) as [->|Hne].
  - rewrite lookup_insert_eq. cbn [or_fault mbind res_bind]. rewrite getbit_ok, Hb, Hd by done. congruence.
  - rewrite lookup_insert_ne, Hp2 by done. cbn [or_fault mbind res_bind]. by apply getbit_ok.
Qed.

(** The number that a mask has after an assignment. *)
Lemma partial_value b1 v b' z : partial b1 v (fun m => m <? size b1) b' -> wf b1 ->
  (forall m, 0 <= m < size b1 -> v m = Z.testbit z m) -> value b' = z mod 2 ^ size b1.
Proof using Hbpl.
  intros (Hwf' & Hs & Hb) Hwf Hv. pose proof (wf_size _ Hwf). apply Z.bits_inj'. intros m Hm.
  change (Z.testbit (value b') m) with (bit b' m). rewrite Hb by done. destruct (Z.ltb_spec m (size b1)).
  - rewrite Z.mod_pow2_bits_low by lia. by apply Hv.
  - rewrite Z.mod_pow2_bits_high by lia. by apply bit_above.
Qed.

(** What an operation that assigns [p1] promises: the rest of the store is as
    before, and [p1] has the number [z], cut to its size. *)
Definition assigns (h : store) (p1 : nat) (b1 : bitmask) (z : Z) (r : res unit store) : Prop :=
  exists b', r = Ok (<[p1 := b']> h) /\ wf b' /\ size b' = size b1 /\ value b' = z mod 2 ^ size b1.

Lemma assign_assigns (h : store) p1 b1 f v z : h !! p1 = Some b1 -> wf b1 ->
  (forall i b', 0 <= i < size b1 -> partial b1 v (fun m => m <? i) b' -> f (<[p1 := b']> h) i = Ok (v i)) ->
  (forall m, 0 <= m < size b1 -> v m = Z.testbit z m) ->
  assigns h p1 b1 z (assign bitsperlong h p1 f).
Proof using Hbpl.
  intros Hp Hwf Hf Hv. destruct (assign_ok h p1 b1 f v Hp Hwf Hf) as (b' & -> & Hb').
  exists b'. pose proof (partial_value b1 v b' z Hb' Hwf Hv). destruct Hb' as (? & ? & _). done.
Qed.

Lemma binop_assigns op z h p1 p2 p3 b1 b2 b3 :
  h !! p1 = Some b1 -> h !! p2 = Some b2 -> h !! p3 = Some b3 -> wf b1 -> wf b2 -> wf b3 ->
  (forall m, 0 <= m -> op (bit b2 m) (bit b3 m) = Z.testbit z m) ->
  assigns h p1 b1 z (binop bitsperlong op h p1 p2 p3).
Proof using Hbpl.
  intros H1 H2 H3 W1 W2 W3 Hz. apply (assign_assigns _ _ _ _ (fun m => op (bit b2 m) (bit b3 m))); [done|done| |intros; apply Hz; lia].
  intros i b' Hi Hb'. rewrite (getbit_stable h p1 p2 b1 b2 _ _ b' i H1 H2 W2 Hb') by (lia || apply Z.ltb_irrefl).
  cbn [mbind res_bind]. by rewrite (getbit_stable h p1 p3 b1 b3 _ _ b' i H1 H3 W3 Hb') by (lia || apply Z.ltb_irrefl).
Qed.

Lemma uint_small z : 0 <= z < 2 ^ 32 -> uint z = z.
Proof. intros. unfold uint. by apply wrap_u_id. Qed.

(** The bit that the left shift reads: bits below the assigned ones, or one
    far outside, since the difference wraps around. *)
Lemma shiftleft_read (h : store) p1 p2 b1 b2 v b' j n :
  h !! p1 = Some b1 -> h !! p2 = Some b2 -> wf b1 -> wf b2 ->
  partial b1 v (fun m => (j + 1 <=? m) && (m <? size b1)) b' ->
  0 <= j < size b1 -> size b1 <= INT_MAX -> 0 <= n -> n + size b2 <= 2 ^ 32 ->
  getbit_at bitsperlong (<[p1 := b']> h) p2 (uint (j - n)) = Ok (Z.testbit (Z.shiftl (value b2) n) j).
Proof using Hbpl.
  intros H1 H2 W1 W2 Hb' Hj Hs Hn Hn2. pose proof (wf_size _ W2). unfold INT_MAX, UINT_MAX in *.
  change (2 ^ 32) with 4294967296 in *. rewrite Z.shiftl_spec by lia. destruct (Z.le_gt_cases n j).
  - rewrite uint_small by (change (2 ^ 32) with 4294967296; lia).
    rewrite (getbit_stable h p1 p2 b1 b2 _ _ b' (j - n) H1 H2 W2 Hb'); [done|lia|].
    apply andb_false_iff. left. apply Z.leb_gt. lia.
  - assert (Eu : uint (j - n) = j - n + 4294967296).
    { unfold uint, wrap_u. rewrite <-(Z.mod_add (j - n) 1) by done. change (2 ^ 32) with 4294967296. rewrite Z.mod_small; lia. }
    rewrite Eu, Z.testbit_neg_r by lia. unfold getbit_at, load. destruct (decide (p1 = p2)) as [->|Hne].
    + rewrite lookup_insert_eq. destruct Hb' as (W' & Hs' & _). cbn [or_fault mbind res_bind].
      rewrite getbit_ok by (try done; lia). f_equal. apply bit_above; [done|]. simplify_eq. lia.
    + rewrite lookup_insert_ne, H2 by done. cbn [or_fault mbind res_bind].
      rewrite getbit_ok by (try done; lia). f_equal. apply bit_above; [done|lia].
Qed.

(** The loop of the left shift goes down, so that it can shift in place. *)
Lemma shiftleft_assigns h p1 p2 b1 b2 n :
  h !! p1 = Some b1 -> h !! p2 = Some b2 -> wf b1 -> wf b2 ->
  size b1 <= INT_MAX -> 0 <= n -> n + size b2 <= 2 ^ 32 ->
  assigns h p1 b1 (Z.shiftl (value b2) n) (bitmask_shiftleft bitsperlong h p1 p2 n).
Proof using Hbpl.
  intros H1 H2 W1 W2 Hs Hn Hn2. unfold bitmask_shiftleft, load. rewrite H1. cbn [or_fault mbind res_bind].
  pose proof (wf_size _ W1). pose proof (wf_size _ W2). unfold INT_MAX, UINT_MAX in *.
  set (v := fun m => Z.testbit (Z.shiftl (value b2) n) m).
  destruct (for_down_inv (fun i h' => exists b', h' = <[p1 := b']> h /\ partial b1 v (fun m => (i <=? m) && (m <? size b1)) b')
    (fun i h => v ← getbit_at bitsperlong h p2 (uint (i - n)); setbit_at bitsperlong h p1 i v)
    (Z.to_nat (wrap_s 32 (size b1 - 1) + 1)) h) as (h' & E & b' & -> & Hb').
  - exists b1. split; [by rewrite insert_id|]. split_and!; [done|done|]. intros m Hm.
    rewrite wrap_s_id by (simpl; lia). destruct (Z.leb_spec (Z.of_nat (Z.to_nat (size b1 - 1 + 1))) m); [|done].
    by rewrite (proj2 (Z.ltb_ge m _)) by lia.
  - intros j h' Hj (b' & -> & Hb'). rewrite wrap_s_id in Hj by (simpl; lia).
    rewrite (shiftleft_read h p1 p2 b1 b2 v b' j n H1 H2 W1 W2 Hb') by (unfold INT_MAX; lia). fold (v j). cbn [mbind res_bind].
    destruct (setbit_partial h p1 b1 v _ (fun m => (j <=? m) && (m <? size b1)) b' j Hb') as (b'' & E' & Hb''); [lia| |].
    + intros m Hm. destruct (Z.leb_spec j m), (Z.eqb_spec m j), (Z.leb_spec (j + 1) m), (Z.ltb_spec m (size b1)), (Z.ltb_spec j (size b1));
        simpl; lia || done.
    + rewrite E'. eauto.
  - exists b'. split; [done|].
    assert (Hp : partial b1 v (fun m => m <? size b1) b').
    { destruct Hb' as (? & ? & Hb). split_and!; [done|done|]. intros m Hm. rewrite Hb by done. by rewrite (proj2 (Z.leb_le 0 m)) by done. }
    split_and!; [apply Hp|apply Hp|]. by apply (partial_value b1 v).
Qed.

Lemma unop_assigns (h : store) p1 p2 b1 b2 (op : bool -> bool) z :
  h !! p1 = Some b1 -> h !! p2 = Some b2 -> wf b1 -> wf b2 ->
  (forall m, 0 <= m -> op (bit b2 m) = Z.testbit z m) ->
  assigns h p1 b1 z (assign bitsperlong h p1 (fun h i => v ← getbit_at bitsperlong h p2 i; Ok (op v))).
Proof using Hbpl.
  intros H1 H2 W1 W2 Hz. apply (assign_assigns _ _ _ _ (fun m => op (bit b2 m))); [done|done| |intros; apply Hz; lia].
  intros i b' Hi Hb'. by rewrite (getbit_stable h p1 p2 b1 b2 _ _ b' i H1 H2 W2 Hb') by (lia || apply Z.ltb_irrefl).
Qed.

Lemma shiftright_assigns h p1 p2 b1 b2 n :
  h !! p1 = Some b1 -> h !! p2 = Some b2 -> wf b1 -> wf b2 -> 0 <= n -> n + size b1 <= 2 ^ 32 ->
  assigns h p1 b1 (Z.shiftr (value b2) n) (bitmask_shiftright bitsperlong h p1 p2 n).
Proof using Hbpl.
  intros H1 H2 W1 W2 Hn Hn1. apply (assign_assigns _ _ _ _ (fun m => bit b2 (m + n))); [done|done| |].
  - intros i b' Hi Hb'. rewrite uint_small by lia.
    apply (getbit_stable h p1 p2 b1 b2 _ _ b' (i + n) H1 H2 W2 Hb'); [lia|]. apply Z.ltb_ge. lia.
  - intros m Hm. by rewrite Z.shiftr_spec by lia.
Qed.

Lemma const_assigns (h : store) p b (v : bool) z : h !! p = Some b -> wf b ->
  (forall m, 0 <= m -> Z.testbit z m = v) -> assigns h p b z (assign bitsperlong h p (fun _ _ => Ok v)).
Proof using Hbpl.
  intros H1 W1 Hz. apply (assign_assigns _ _ _ _ (fun _ => v)); [done|done|done|]. intros m Hm. by rewrite Hz by lia.
Qed.

(** The bits of [[i, j)]. *)
Definition range_mask (i j : Z) : Z := Z.shiftl (Z.ones (Z.max 0 (j - i))) i.
Lemma range_mask_bit i j m : 0 <= i -> 0 <= m -> Z.testbit (range_mask i j) m = (i <=? m) && (m <? j).
Proof.
  intros Hi Hm. unfold range_mask. rewrite Z.shiftl_spec by lia. destruct (Z.leb_spec i m); simpl.
  - destruct (Z.ltb_spec m j); [apply Z.ones_spec_low; lia|apply Z.ones_spec_high; lia].
  - by rewrite Z.testbit_neg_r by lia.
Qed.

Lemma set_range_ok h p b i j v : h !! p = Some b -> wf b -> 0 <= i ->
  exists b', set_range bitsperlong h p i j v = Ok (<[p := b']> h) /\
    partial b (fun _ => v) (fun m => (i <=? m) && (m <? j) && (m <? size b)) b'.
Proof using Hbpl.
  intros Hp Hwf Hi. unfold set_range.
  destruct (for_up_inv (fun k h' => exists b', h' = <[p := b']> h /\ partial b (fun _ => v) (fun m => (i <=? m) && (m <? k) && (m <? size b)) b')
    (fun n h => setbit_at bitsperlong h p n v) (Z.to_nat (j - i)) i h) as (h' & E & b' & -> & Hb').
  - exists b. split; [by rewrite insert_id|]. split_and!; [done|done|]. intros m Hm.
    destruct (Z.leb_spec i m), (Z.ltb_spec m i); simpl; lia || done.
  - intros k h' Hk (b' & -> & Hb').
    destruct (setbit_partial h p b (fun _ => v) _ (fun m => (i <=? m) && (m <? k + 1) && (m <? size b)) b' k Hb') as (b'' & E' & Hb'');
      [lia| |rewrite E'; eauto].
    intros m Hm. destruct (Z.leb_spec i m), (Z.eqb_spec m k), (Z.ltb_spec m (k + 1)), (Z.ltb_spec m k), (Z.ltb_spec m (size b)), (Z.ltb_spec k (size b));
      simpl; lia || done.
  - exists b'. split; [done|]. destruct Hb' as (? & ? & Hb). split_and!; [done|done|]. intros m Hm. rewrite Hb by done.
    destruct (Z.leb_spec i m); [|done]. simpl. destruct (Z.ltb_spec m (i + Z.of_nat (Z.to_nat (j - i)))), (Z.ltb_spec m j); lia || done.
Qed.

Lemma range_assigns h p b i j v : h !! p = Some b -> wf b -> 0 <= i ->
  assigns h p b (if v : bool then Z.lor (value b) (range_mask i j) else Z.ldiff (value b) (range_mask i j))
    (set_range bitsperlong h p i j v).
Proof using Hbpl.
  intros Hp Hwf Hi. destruct (set_range_ok h p b i j v Hp Hwf Hi) as (b' & -> & W' & Hs & Hb).
  exists b'. split_and!; [done|done|done|]. pose proof (wf_size _ Hwf). apply Z.bits_inj'. intros m Hm.
  change (Z.testbit (value b') m) with (bit b' m). rewrite Hb by done. destruct (Z.ltb_spec m (size b)).
  - rewrite Z.mod_pow2_bits_low by lia. rewrite andb_true_r. unfold bit.
    destruct v; rewrite ?Z.lor_spec, ?Z.ldiff_spec, range_mask_bit by lia; by destruct ((i <=? m) && (m <? j)), (Z.testbit (value b) m).
  - rewrite Z.mod_pow2_bits_high, andb_false_r by lia. by apply bit_above.
Qed.

Lemma keeprange_assigns h p b i j : h !! p = Some b -> wf b -> 0 <= i -> 0 <= j ->
  assigns h p b (Z.land (value b) (range_mask i j)) (bitmask_keeprange bitsperlong h p i j).
Proof using Hbpl.
  intros Hp Hwf Hi Hj. unfold bitmask_keeprange, bitmask_clearrange.
  destruct (set_range_ok h p b 0 i false Hp Hwf ltac:(lia)) as (b' & -> & W' & Hs & Hb). cbn [mbind res_bind].
  unfold load. rewrite lookup_insert_eq. cbn [or_fault mbind res_bind].
  destruct (set_range_ok (<[p := b']> h) p b' j (size b') false) as (b'' & -> & W'' & Hs' & Hb'); [by rewrite lookup_insert_eq|done|done|].
  rewrite insert_insert_eq. exists b''. split_and!; [done|done|congruence|]. pose proof (wf_size _ Hwf). apply Z.bits_inj'. intros m Hm.
  change (Z.testbit (value b'') m) with (bit b'' m). rewrite Hb', Hb, Hs by done. destruct (Z.ltb_spec m (size b)).
  - rewrite Z.mod_pow2_bits_low by lia. rewrite Z.land_spec, range_mask_bit by lia. rewrite (proj2 (Z.leb_le 0 m)), !andb_true_r by done.
    unfold bit. destruct (Z.leb_spec j m), (Z.ltb_spec m i), (Z.leb_spec i m), (Z.ltb_spec m j); simpl; rewrite ?andb_true_r, ?andb_false_r; lia || done.
  - rewrite Z.mod_pow2_bits_high, !andb_false_r by lia. by apply bit_above.
Qed.

(** C23: the operations that assign a mask compute the corresponding operation on
    numbers, cut to the size of the destination, for masks of any sizes and
    also when the destination is one of the operands.  Shifts are exact as long
    as positions do not wrap around in [unsigned int]. *)
Theorem bitmask_ops_correct h p1 p2 p3 b1 b2 b3 :
  wf_store h -> h !! p1 = Some b1 -> h !! p2 = Some b2 -> h !! p3 = Some b3 ->
  assigns h p1 b1 (Z.land (value b2) (value b3)) (bitmask_and bitsperlong h p1 p2 p3) /\
  assigns h p1 b1 (Z.ldiff (value b2) (value b3)) (bitmask_andnot bitsperlong h p1 p2 p3) /\
  assigns h p1 b1 (Z.lor (value b2) (value b3)) (bitmask_or bitsperlong h p1 p2 p3) /\
  assigns h p1 b1 (Z.lxor (value b2) (value b3)) (bitmask_eor bitsperlong h p1 p2 p3) /\
  assigns h p1 b1 (value b2) (bitmask_copy bitsperlong h p1 p2) /\
  assigns h p1 b1 (Z.lnot (value b2)) (bitmask_complement bitsperlong h p1 p2) /\
  assigns h p1 b1 (-1) (bitmask_setall bitsperlong h p1) /\
  assigns h p1 b1 0 (bitmask_clearall bitsperlong h p1) /\
  (forall n, 0 <= n -> n + size b1 <= 2 ^ 32 ->
     assigns h p1 b1 (Z.shiftr (value b2) n) (bitmask_shiftright bitsperlong h p1 p2 n)) /\
  (forall n, 0 <= n -> n + size b2 <= 2 ^ 32 -> size b1 <= INT_MAX ->
     assigns h p1 b1 (Z.shiftl (value b2) n) (bitmask_shiftleft bitsperlong h p1 p2 n)) /\
  (forall i j, 0 <= i -> assigns h p1 b1 (Z.lor (value b1) (range_mask i j)) (bitmask_setrange bitsperlong h p1 i j)) /\
  (forall i j, 0 <= i -> assigns h p1 b1 (Z.ldiff (value b1) (range_mask i j)) (bitmask_clearrange bitsperlong h p1 i j)) /\
  (forall i j, 0 <= i -> 0 <= j ->
     assigns h p1 b1 (Z.land (value b1) (range_mask i j)) (bitmask_keeprange bitsperlong h p1 i j)).
Proof using Hbpl.
  intros Hw H1 H2 H3. pose proof (Hw _ _ H1) as W1. pose proof (Hw _ _ H2) as W2. pose proof (Hw _ _ H3) as W3.
  split_and!; try (eapply binop_assigns; [done..|]; intros m Hm;
    by rewrite ?Z.land_spec, ?Z.ldiff_spec, ?Z.lor_spec, ?Z.lxor_spec).
  - unfold bitmask_copy. apply (assign_assigns _ _ _ _ (bit b2)); [done|done| |done].
    intros i b' Hi Hb'. by apply (getbit_stable h p1 p2 b1 b2 _ _ b' i H1 H2 W2 Hb'); [lia|apply Z.ltb_irrefl].
  - apply (unop_assigns h p1 p2 b1 b2 negb); [done..|]. intros m Hm. by rewrite Z.lnot_spec.
  - apply const_assigns; [done|done|]. intros m Hm. by apply Z.bits_m1.
  - apply const_assigns; [done|done|]. intros m Hm. apply Z.bits_0.
  - intros n. by apply shiftright_assigns.
  - intros n ? ? ?. by apply shiftleft_assigns.
  - intros i j Hi. exact (range_assigns h p1 b1 i j true H1 W1 Hi).
  - intros i j Hi. exact (range_assigns h p1 b1 i j false H1 W1 Hi).
  - intros i j Hi Hj. by apply keeprange_assigns.
Qed.

(** ** Queries *)

(** Two masks with the same bits have the same number. *)
Lemma value_zero b : wf b -> (forall m, 0 <= m < size b -> bit b m = false) -> value b = 0.
Proof using Hbpl.
  intros Hwf Hb. apply Z.bits_inj'. intros m Hm. rewrite Z.bits_0. destruct (Z.lt_ge_cases m (size b)); [by apply Hb|by apply bit_above].
Qed.

Lemma compare2_ok b1 b2 n stop found z : wf b1 -> wf b2 -> 0 <= n ->
  (forall m, 0 <= m -> Z.testbit z m = stop (bit b1 m) (bit b2 m)) ->
  (forall m, n <= m -> Z.testbit z m = false) ->
  compare2 bitsperlong b1 b2 n stop found = Ok (if z =? 0 then negb found else found).
Proof using Hbpl.
  intros W1 W2 Hn Hz Hh. unfold compare2.
  destruct (scan_spec (fun i => x ← _getbit bitsperlong b1 i; y ← _getbit bitsperlong b2 i; Ok (if stop x y then Some found else None))
    (fun j => stop (bit b1 j) (bit b2 j)) (fun _ => found) (negb found) (Z.to_nat n) 0) as (r & -> & Hr).
  { intros j Hj. rewrite getbit_ok by (try done; lia). cbn [mbind res_bind]. rewrite getbit_ok by (try done; lia). done. }
  destruct Hr as [(j & Hj & Hs & _ & ->)|[Hno ->]].
  - destruct (Z.eqb_spec z 0) as [->|]; [|done]. specialize (Hz j ltac:(lia)). rewrite Z.bits_0 in Hz. congruence.
  - replace z with 0; [done|]. apply Z.bits_inj'. intros m Hm. rewrite Z.bits_0. destruct (Z.lt_ge_cases m n).
    + rewrite Hz by done. symmetry. apply Hno. lia.
    + symmetry. by apply Hh.
Qed.

Lemma for_up_count b n : wf b -> 0 <= n <= UINT_MAX ->
  count_below bitsperlong b n = Ok (Z.of_nat (length (filter (fun m => bit b m = true) (seqZ 0 n)))).
Proof using Hbpl.
  intros Hwf Hn. unfold count_below.
  destruct (for_up_inv (fun i w => w = Z.of_nat (length (filter (fun m => bit b m = true) (seqZ 0 i))) /\ w <= i)
    (fun i w => v ← _getbit bitsperlong b i; Ok (if v : bool then uint (w + 1) else w)) (Z.to_nat n) 0 0) as (w & -> & -> & _).
  - done.
  - intros j w Hj [-> Hw]. rewrite getbit_ok by (try done; lia). cbn [mbind res_bind]. eexists. split; [reflexivity|].
    rewrite seqZ_app by lia. rewrite filter_app, length_app. replace (seqZ (0 + j) 1) with [j] by (unfold seqZ; simpl; f_equal; lia).
    rewrite filter_cons, filter_nil. unfold UINT_MAX in *. destruct (bit b j); simpl; [rewrite uint_small by lia|]; lia.
  - by replace (0 + Z.of_nat (Z.to_nat n)) with n by lia.
Qed.

Lemma equal_ok h p1 p2 b1 b2 : h !! p1 = Some b1 -> h !! p2 = Some b2 -> wf b1 -> wf b2 ->
  bitmask_equal bitsperlong h p1 p2 = Ok (value b1 =? value b2).
Proof using Hbpl.
  intros H1 H2 W1 W2. unfold bitmask_equal, load. rewrite H1. cbn [or_fault mbind res_bind]. rewrite H2. cbn [or_fault mbind res_bind].
  pose proof (wf_size _ W1). rewrite (compare2_ok b1 b2 _ _ false (Z.lxor (value b1) (value b2))); [|done|done|lia| |].
  - f_equal. destruct (Z.eqb_spec (Z.lxor (value b1) (value b2)) 0) as [E|E]; rewrite Z.lxor_eq_0_iff in E.
    + rewrite E. by rewrite Z.eqb_refl.
    + by rewrite (proj2 (Z.eqb_neq _ _)).
  - intros m Hm. rewrite Z.lxor_spec. unfold bit. by destruct (Z.testbit (value b1) m), (Z.testbit (value b2) m).
  - intros m Hm. rewrite Z.lxor_spec. change (xorb (bit b1 m) (bit b2 m) = false). by rewrite !bit_above by (done || lia).
Qed.

Lemma meet_ok h p1 p2 b1 b2 : h !! p1 = Some b1 -> h !! p2 = Some b2 -> wf b1 -> wf b2 ->
  bitmask_subset bitsperlong h p1 p2 = Ok (Z.ldiff (value b1) (value b2) =? 0) /\
  bitmask_disjoint bitsperlong h p1 p2 = Ok (Z.land (value b1) (value b2) =? 0) /\
  bitmask_intersects bitsperlong h p1 p2 = Ok (negb (Z.land (value b1) (value b2) =? 0)).
Proof using Hbpl.
  intros H1 H2 W1 W2. unfold bitmask_subset, bitmask_disjoint, bitmask_intersects, load.
  rewrite H1. cbn [or_fault mbind res_bind]. rewrite H2. cbn [or_fault mbind res_bind].
  pose proof (wf_size _ W1). assert (Hh : forall m, size b1 <= m -> Z.testbit (value b1) m = false) by (intros; by apply bit_above).
  rewrite (compare2_ok b1 b2 _ _ false (Z.ldiff (value b1) (value b2))) by
    (try done; try lia; intros m Hm; rewrite Z.ldiff_spec; try done; by rewrite Hh).
  assert (Hl : forall m, size b1 <= m -> Z.testbit (Z.land (value b1) (value b2)) m = false)
    by (intros m Hm; rewrite Z.land_spec; by rewrite Hh).
  rewrite !(fun f => compare2_ok b1 b2 (size b1) andb f (Z.land (value b1) (value b2)) W1 W2 ltac:(lia) (fun m _ => Z.land_spec _ _ m) Hl).
  by repeat case_match.
Qed.

Lemma all_ok h p b : h !! p = Some b -> wf b ->
  bitmask_isallclear bitsperlong h p = Ok (value b =? 0) /\
  bitmask_isallset bitsperlong h p = Ok (value b =? Z.ones (size b)).
Proof using Hbpl.
  intros Hp Hwf. unfold bitmask_isallclear, bitmask_isallset, load. rewrite Hp. cbn [or_fault mbind res_bind].
  pose proof (wf_size _ Hwf) as Hs. split.
  - destruct (scan_spec (fun i => v ← _getbit bitsperlong b i; Ok (if v : bool then Some false else None)) (bit b) (fun _ => false) true
      (Z.to_nat (size b)) 0) as (r & -> & Hr); [intros j Hj; by rewrite getbit_ok by (try done; lia)|].
    destruct Hr as [(j & Hj & Hb & _ & ->)|[Hno ->]].
    + rewrite (proj2 (Z.eqb_neq _ _)); [done|]. intros E. unfold bit in Hb. by rewrite E, Z.bits_0 in Hb.
    + rewrite value_zero; [done|done|]. intros m Hm. apply Hno. lia.
  - destruct (scan_spec (fun i => v ← _getbit bitsperlong b i; Ok (if v : bool then None else Some false)) (fun j => negb (bit b j)) (fun _ => false) true
      (Z.to_nat (size b)) 0) as (r & -> & Hr); [intros j Hj; rewrite getbit_ok by (try done; lia); by destruct (bit b j)|].
    destruct Hr as [(j & Hj & Hb & _ & ->)|[Hno ->]].
    + rewrite (proj2 (Z.eqb_neq _ _)); [done|]. intros E. unfold bit in Hb. rewrite E, Z.ones_spec_low in Hb by lia. done.
    + replace (value b) with (Z.ones (size b)); [by rewrite Z.eqb_refl|]. apply Z.bits_inj'. intros m Hm.
      destruct (Z.lt_ge_cases m (size b)).
      * rewrite Z.ones_spec_low by lia. specialize (Hno m ltac:(lia)). by apply negb_false_iff in Hno.
      * rewrite Z.ones_spec_high by lia. symmetry. by apply bit_above.
Qed.

Lemma log2_top a m : 0 <= a -> 0 <= m -> Z.testbit a m = true -> (forall k, m < k -> Z.testbit a k = false) -> Z.log2 a = m.
Proof.
  intros Ha Hm Hb Hk. assert (a <> 0) by (intros ->; by rewrite Z.bits_0 in Hb).
  pose proof (below_pow2 a (m + 1) Ha ltac:(lia) ltac:(intros; apply Hk; lia)) as Hlt. apply Z.log2_lt_pow2 in Hlt; [|lia].
  destruct (Z.lt_ge_cases (Z.log2 a) m); [|lia]. by rewrite Z.bits_above_log2 in Hb by lia.
Qed.

Lemma last_ok b : wf b -> bitmask_last bitsperlong b = Ok (if value b =? 0 then size b else Z.log2 (value b)).
Proof using Hbpl.
  intros Hwf. unfold bitmask_last. pose proof (wf_size _ Hwf) as Hs. pose proof (longs_nonneg _ (wf_longs _ Hwf)) as Hv. fold (value b) in Hv.
  destruct (for_up_inv (fun i m => (m = size b /\ forall k, 0 <= k < i -> bit b k = false) \/
      (0 <= m < i /\ bit b m = true /\ forall k, m < k < i -> bit b k = false))
    (fun i m => v ← _getbit bitsperlong b i; Ok (if v : bool then i else m)) (Z.to_nat (size b)) 0 (size b)) as (m & -> & Hm).
  - left. split; [done|lia].
  - intros j m Hj Hm. rewrite getbit_ok by (try done; lia). cbn [mbind res_bind]. eexists. split; [reflexivity|].
    destruct (bit b j) eqn:E; [right; split_and!; [lia|lia|done|lia]|].
    destruct Hm as [[-> Hk]|(Hm & Hb & Hk)]; [left|right]; split_and!; try done; try lia;
      intros k Hk'; (destruct (Z.eq_dec k j) as [->|]; [done|apply Hk; lia]).
  - replace (0 + Z.of_nat (Z.to_nat (size b))) with (size b) in Hm by lia. destruct Hm as [[-> Hk]|(Hm & Hb & Hk)].
    + by rewrite value_zero.
    + rewrite (proj2 (Z.eqb_neq _ _)); [|intros E; unfold bit in Hb; by rewrite E, Z.bits_0 in Hb].
      rewrite (log2_top (value b) m); [done|done|lia|done|]. intros k Hk'. destruct (Z.lt_ge_cases k (size b)); [by apply Hk|by apply bit_above].
Qed.

(** The next set bit. *)
Lemma next_ok b i : wf b -> 0 <= i <= size b ->
  exists f, bitmask_next bitsperlong b i = Ok f /\ i <= f <= size b /\ (forall m, i <= m < f -> bit b m = false) /\
    (f < size b -> bit b f = true).
Proof using Hbpl.
  intros Hwf Hi. unfold bitmask_next.
  destruct (scan_spec (fun n => v ← _getbit bitsperlong b n; Ok (if v : bool then Some n else None)) (bit b) (fun n => n) (Z.max i (size b))
    (Z.to_nat (size b - i)) i) as (r & -> & Hr); [intros j Hj; by rewrite getbit_ok by (try done; lia)|].
  exists r. split; [done|]. destruct Hr as [(j & Hj & Hb & Hk & ->)|[Hno ->]].
  - split_and!; try lia; done.
  - rewrite Z.max_r by lia. split_and!; try lia. intros m Hm. apply Hno. lia.
Qed.

(** The queries on masks answer what they say about the numbers: comparison,
    inclusion and intersection of masks of any sizes, number of bits, lowest and
    highest bit. *)
Theorem bitmask_queries_correct h p1 p2 b1 b2 :
  wf_store h -> h !! p1 = Some b1 -> h !! p2 = Some b2 ->
  bitmask_equal bitsperlong h p1 p2 = Ok (value b1 =? value b2) /\
  bitmask_subset bitsperlong h p1 p2 = Ok (Z.ldiff (value b1) (value b2) =? 0) /\
  bitmask_disjoint bitsperlong h p1 p2 = Ok (Z.land (value b1) (value b2) =? 0) /\
  bitmask_intersects bitsperlong h p1 p2 = Ok (negb (Z.land (value b1) (value b2) =? 0)) /\
  bitmask_isallclear bitsperlong h p1 = Ok (value b1 =? 0) /\
  bitmask_isallset bitsperlong h p1 = Ok (value b1 =? Z.ones (size b1)) /\
  bitmask_weight bitsperlong h p1 = Ok (Z.of_nat (length (filter (fun m => bit b1 m = true) (seqZ 0 (size b1))))) /\
  bitmask_last bitsperlong b1 = Ok (if value b1 =? 0 then size b1 else Z.log2 (value b1)) /\
  exists f, bitmask_first bitsperlong b1 = Ok f /\ (value b1 = 0 -> f = size b1) /\
    (value b1 <> 0 -> bit b1 f = true /\ forall m, 0 <= m < f -> bit b1 m = false).
Proof using Hbpl.
  intros Hw H1 H2. pose proof (Hw _ _ H1) as W1. pose proof (Hw _ _ H2) as W2. pose proof (wf_size _ W1) as Hs.
  destruct (meet_ok h p1 p2 b1 b2 H1 H2 W1 W2) as (? & ? & ?). destruct (all_ok h p1 b1 H1 W1).
  split_and!; try done; [by apply equal_ok| |by apply last_ok|].
  - unfold bitmask_weight, load. rewrite H1. cbn [or_fault mbind res_bind]. by apply for_up_count.
  - destruct (next_ok b1 0 W1 ltac:(lia)) as (f & Hf & Hb & Hno & Hyes). exists f. split_and!; [done| |].
    + intros E. destruct (Z.lt_ge_cases f (size b1)) as [Hlt|]; [|lia]. specialize (Hyes Hlt). unfold bit in Hyes. by rewrite E, Z.bits_0 in Hyes.
    + intros E. split; [|done]. apply Hyes. destruct (Z.eq_dec f (size b1)) as [->|]; [|lia]. by apply value_zero in Hno.
Qed.

(** ** Positions among the set bits *)

(** The number of set bits in [[i, j)]. *)
Definition cnt (b : bitmask) (i j : Z) : Z := Z.of_nat (length (filter (fun m => bit b m = true) (seqZ i (j - i)))).

Lemma cnt_split b i j k : i <= j <= k -> cnt b i k = cnt b i j + cnt b j k.
Proof.
  intros H. unfold cnt. replace (k - i) with (j - i + (k - j)) by lia. rewrite seqZ_app by lia.
  rewrite filter_app, length_app. replace (i + (j - i)) with j by lia. lia.
Qed.
Lemma cnt_one b i : cnt b i (i + 1) = if bit b i then 1 else 0.
Proof.
  unfold cnt. replace (i + 1 - i) with 1 by lia. replace (seqZ i 1) with [i] by (unfold seqZ; simpl; f_equal; lia). rewrite filter_cons, filter_nil.
  by destruct (bit b i).
Qed.
Lemma cnt_nonneg b i j : 0 <= cnt b i j.
Proof. unfold cnt. lia. Qed.

Lemma rel_loop_ok b : wf b -> forall k i n, 0 <= i -> 0 <= n <= UINT_MAX ->
  exists r, rel_loop bitsperlong k i n b = Ok r /\ i <= r <= i + Z.of_nat k /\
    (r < i + Z.of_nat k -> bit b r = true /\ cnt b i r = n) /\ (r = i + Z.of_nat k -> cnt b i r <= n).
Proof using Hbpl.
  intros Hwf. induction k as [|k IH]; intros i n Hi Hn; cbn [rel_loop].
  - exists i. split_and!; try done; try lia. intros _. unfold cnt. rewrite Z.sub_diag. simpl. lia.
  - rewrite getbit_ok by (try done; lia). cbn [mbind res_bind]. pose proof (cnt_one b i) as H1. destruct (bit b i) eqn:E.
    + destruct (Z.eqb_spec n 0) as [->|Hne].
      * exists i. split_and!; try done; try lia. intros _. split; [done|]. unfold cnt. by rewrite Z.sub_diag.
      * rewrite uint_small by (unfold UINT_MAX in *; simpl; lia).
        destruct (IH (i + 1) (n - 1)) as (r & -> & Hr & Hlt & Heq); [lia|lia|]. exists r.
        split_and!; [done|lia|lia| |]; intros H; pose proof (cnt_split b i (i + 1) r ltac:(lia)).
        -- destruct Hlt as [? ?]; [lia|]. split; [done|lia].
        -- specialize (Heq ltac:(lia)). lia.
    + destruct (IH (i + 1) n) as (r & -> & Hr & Hlt & Heq); [lia|lia|]. exists r.
      split_and!; [done|lia|lia| |]; intros H; pose proof (cnt_split b i (i + 1) r ltac:(lia)).
      * destruct Hlt as [? ?]; [lia|]. split; [done|lia].
      * specialize (Heq ltac:(lia)). lia.
Qed.

(** Counting is strictly monotone from a set bit on. *)
Lemma cnt_mono b n m : 0 <= n < m -> bit b n = true -> cnt b 0 n < cnt b 0 m.
Proof.
  intros H Hb. pose proof (cnt_split b 0 n m ltac:(lia)). pose proof (cnt_split b n (n + 1) m ltac:(lia)).
  pose proof (cnt_one b n) as Hone. rewrite Hb in Hone. pose proof (cnt_nonneg b (n + 1) m). lia.
Qed.

Lemma cnt_le b n : 0 <= n -> cnt b 0 n <= n.
Proof.
  intros Hn. unfold cnt. pose proof (length_filter (fun m => bit b m = true) (seqZ 0 (n - 0))) as H. rewrite length_seqZ in H. lia.
Qed.

(** The position of a set bit among the set bits and the absolute position
    are inverse to each other. *)
Theorem bitmask_positions_inverse b : wf b ->
  (forall n, 0 <= n -> bit b n = true ->
     exists k, bitmask_abs_to_rel_pos bitsperlong b n = Ok k /\ bitmask_rel_to_abs_pos bitsperlong b k = Ok n) /\
  (forall k, 0 <= k < cnt b 0 (size b) ->
     exists n, bitmask_rel_to_abs_pos bitsperlong b k = Ok n /\ bitmask_abs_to_rel_pos bitsperlong b n = Ok k).
Proof using Hbpl.
  intros Hwf. pose proof (wf_size _ Hwf) as Hs. pose proof (cnt_le b (size b) ltac:(lia)) as Hle.
  assert (Habs : forall n, 0 <= n -> bit b n = true -> n < size b /\ bitmask_abs_to_rel_pos bitsperlong b n = Ok (cnt b 0 n)).
  { intros n Hn Hb. destruct (Z.lt_ge_cases n (size b)) as [Hlt|]; [|by rewrite bit_above in Hb]. split; [done|].
    unfold bitmask_abs_to_rel_pos. rewrite getbit_ok, Hb by (try done; lia). cbn [mbind res_bind]. rewrite for_up_count by (try done; lia).
    unfold cnt. by rewrite Z.sub_0_r. }
  assert (Hrel : forall k, 0 <= k < cnt b 0 (size b) -> exists n, bitmask_rel_to_abs_pos bitsperlong b k = Ok n /\
      0 <= n /\ bit b n = true /\ cnt b 0 n = k).
  { intros k Hk. unfold bitmask_rel_to_abs_pos. destruct (rel_loop_ok b Hwf (Z.to_nat (size b)) 0 k) as (r & -> & Hr & Hlt & Heq); [lia|lia|].
    replace (0 + Z.of_nat (Z.to_nat (size b))) with (size b) in * by lia. exists r. split; [done|].
    destruct (Z.eq_dec r (size b)) as [->|]; [specialize (Heq eq_refl); lia|]. destruct Hlt; [lia|]. split_and!; done || lia. }
  split.
  - intros n Hn Hb. destruct (Habs n Hn Hb) as [Hlt E]. exists (cnt b 0 n). split; [done|].
    pose proof (cnt_mono b n (size b) ltac:(lia) Hb). pose proof (cnt_nonneg b 0 n).
    destruct (Hrel (cnt b 0 n)) as (n' & -> & Hn' & Hb' & Ec); [lia|]. f_equal.
    destruct (Z.lt_trichotomy n n') as [H1|[->|H1]]; [pose proof (cnt_mono b n n' ltac:(lia) Hb); lia|done|].
    pose proof (cnt_mono b n' n ltac:(lia) Hb'); lia.
  - intros k Hk. destruct (Hrel k Hk) as (n & E & Hn & Hb & Ec). exists n. split; [done|]. destruct (Habs n Hn Hb) as [_ ->]. by rewrite Ec.
Qed.
End Spec.

(** ** Examples *)
Definition ex_store : store :=
  <[1%nat := mkBitmask 70 [12; 33]]> (<[2%nat := mkBitmask 10 [771]]> ∅).

Lemma ex_store_wf : wf_store 64 ex_store.
Proof.
  intros p b. unfold ex_store. rewrite lookup_insert_Some. intros [[_ <-]|[_ H]];
    [|apply lookup_insert_Some in H as [[_ <-]|[_ H]]; [|by rewrite lookup_empty in H]];
    (constructor; [split; zeval| |zeval|zeval]); repeat (apply Forall_cons; split; [split; zeval|]); by apply Forall_nil.
Qed.

Lemma bitmask_ops_correct_witness :
  assigns 64 ex_store 1 (mkBitmask 70 [12; 33]) (Z.land (value 64 (mkBitmask 70 [12; 33])) (value 64 (mkBitmask 10 [771])))
    (bitmask_and 64 ex_store 1 1 2).
Proof. exact (proj1 (bitmask_ops_correct 64 (or_intror eq_refl) ex_store 1 1 2 _ _ _ ex_store_wf eq_refl eq_refl eq_refl)). Defined.

Lemma bitmask_queries_correct_witness :
  bitmask_equal 64 ex_store 1 2 = Ok (value 64 (mkBitmask 70 [12; 33]) =? value 64 (mkBitmask 10 [771])).
Proof. exact (proj1 (bitmask_queries_correct 64 (or_intror eq_refl) ex_store 1 2 _ _ ex_store_wf eq_refl eq_refl)). Defined.

Lemma bitmask_positions_inverse_witness :
  exists k, bitmask_abs_to_rel_pos 64 (mkBitmask 70 [12; 33]) 69 = Ok k /\
    bitmask_rel_to_abs_pos 64 (mkBitmask 70 [12; 33]) k = Ok 69.
Proof.
  exact (proj1 (bitmask_positions_inverse 64 (or_intror eq_refl) (mkBitmask 70 [12; 33]) (ex_store_wf 1%nat _ eq_refl)) 69 ltac:(lia) eq_refl).
Defined.
