(* ===== verification/BitmaskText.v ===== *)
(** * Text of bit masks: display and parse functions of [libbitmask.c]

    The hexadecimal form has a word of eight digits per 32 bits, the list form
    has numbers, ranges and ranges with a stride. *)

From stdpp Require Import base list strings gmap.
From Stdlib Require Import ZArith Lia.
From S2P Require Import Prelude ParseNum Bitmask.

Local Open Scope Z_scope.

Definition HEXCHUNKSZ : Z := 32.
Definition HEXCHARSZ : nat := 8.

(** The [n] low hexadecimal digits of a number: [%0*x]. *)
Definition hexdigit (d : Z) : Z := if d <? 10 then "0"%ch + d else "a"%ch + (d - 10).
Fixpoint hexn (n : nat) (v : Z) : cstr :=
  match n with
  | O => []
  | S n' => hexn n' (v / 16) ++ [hexdigit (v mod 16)]
  end.

(** The characters in a buffer of [buflen] bytes and the number of characters
    that [snprintf] was asked to write so far. *)
Definition snprintf_at (buflen : Z) (st : cstr * Z) (s : cstr) : cstr * Z :=
  let '(buf, len) := st in
  let room := Z.max (buflen - len) 0 in
  (if room <=? 0 then buf else take (Z.to_nat len) buf ++ take (Z.to_nat (room - 1)) s, len + Z.of_nat (length s)).

Section Text.
Context (bitsperlong : Z).

Abbreviation M := (res unit).

(** ** Display *)

(** The position of a bit is computed in [int]. *)
Definition bit_pos (chunk bit : Z) : M Z :=
  if in_int (chunk * HEXCHUNKSZ) && in_int (chunk * HEXCHUNKSZ + bit) then Ok (uint (chunk * HEXCHUNKSZ + bit)) else Fault.

(** The 32 bits of a chunk; the [unsigned] shift drops the high bit. *)
Definition chunk_val (b : bitmask) (chunk : Z) : M Z :=
  for_down 32 (fun bit val => n ← bit_pos chunk bit;
                              v ← _getbit bitsperlong b n;
                              Ok (Z.lor (uint (Z.shiftl val 1)) (Z.b2z v))) 0.

Definition hexchunks (b : bitmask) : Z := uint (size b + (HEXCHUNKSZ - 1)) / HEXCHUNKSZ.

(** The return value and what the buffer holds, [None] if it is not touched. *)
Definition bitmask_displayhex (buflen : Z) (b : bitmask) : M (Z * option cstr) :=
  if buflen <? 1 then Ok (0, None)
  else
    '(buf, cnt, _) ←
      for_down (Z.to_nat (hexchunks b))
        (fun chunk '(buf, cnt, sep) =>
           val ← chunk_val b chunk;
           let '(buf, cnt) := snprintf_at buflen (buf, cnt) (sep ++ hexn HEXCHARSZ val) in
           Ok (buf, cnt, str ","))
        ([], 0, []);
    Ok (cnt, Some buf).

Definition emit (buflen rbot rtop : Z) (st : cstr * Z) : cstr * Z :=
  let st := if 0 <? st.2 then snprintf_at buflen st (str ",") else st in
  if rbot =? rtop then snprintf_at buflen st (dec (wrap_s 32 rbot))
  else snprintf_at buflen st (dec (wrap_s 32 rbot) ++ str "-" ++ dec (wrap_s 32 rtop)).

Fixpoint displaylist_loop (fuel : nat) (buflen : Z) (b : bitmask) (cur rbot : Z) (st : cstr * Z) : M (cstr * Z) :=
  match fuel with
  | O => Fault
  | S fuel' =>
      if cur <? size b then
        let rtop := cur in
        cur ← bitmask_next bitsperlong b (uint (cur + 1));
        if (size b <=? cur) || (uint (rtop + 1) <? cur)
        then displaylist_loop fuel' buflen b cur cur (emit buflen rbot rtop st)
        else displaylist_loop fuel' buflen b cur rbot st
      else Ok st
  end.

(** Each round of the loop consumes at least one bit. *)
Definition bitmask_displaylist (buflen : Z) (b : bitmask) : M (Z * cstr) :=
  cur ← bitmask_first bitsperlong b;
  '(buf, len) ← displaylist_loop (S (Z.to_nat (size b))) buflen b cur cur ([], 0);
  Ok (len, buf).

(** ** Parse *)

Definition nexttoken (q : option cstr) (sep : Z) : option cstr :=
  match q with
  | None => None
  | Some s => match strchr s sep with None => None | Some t => Some (drop 1 t) end
  end.

(** The number of rounds of [while (p = q, q = nexttoken(q, ','), p)]. *)
Fixpoint count_tokens (fuel : nat) (q : option cstr) : Z :=
  match fuel, q with
  | S fuel', Some _ => 1 + count_tokens fuel' (nexttoken q ","%ch)
  | _, _ => 0
  end.

(** How a parse loop ends: at the end of the text, with [goto err], or not
    within the given number of steps. *)
Inductive outcome : Type := Parsed (h : store) | Rejected (h : store) | Running.

Fixpoint chunk_bits (k : nat) (sz val chunk : Z) (p : nat) (h : store) : M outcome :=
  match k with
  | O => Ok (Parsed h)
  | S k' =>
      let bit := Z.of_nat k' in
      n ← bit_pos chunk bit;
      if sz <=? n then Ok (Rejected h)
      else h ← setbit_at bitsperlong h p n (negb (Z.land (Z.shiftr val bit) 1 =? 0));
           chunk_bits k' sz val chunk p h
  end.

Fixpoint parsehex_loop (fuel : nat) (sz chunk : Z) (q : option cstr) (p : nat) (h : store) : M outcome :=
  match q with
  | None => Ok (Parsed h)
  | Some s =>
      match fuel with
      | O => Fault
      | S fuel' =>
          let q' := nexttoken q ","%ch in
          let r := strtoul bitsperlong 16 s in
          let val := uint (st_val r) in
          let nchars_read := (length s - length (st_end r))%nat in
          if (nchars_read <? 1)%nat || (HEXCHARSZ <? nchars_read)%nat then Ok (Rejected h)
          else if match q' with Some t => negb (length (st_end r) =? S (length t))%nat | None => false end then Ok (Rejected h)
          else
            o ← chunk_bits 32 sz val chunk p h;
            match o with
            | Parsed h => parsehex_loop fuel' sz (chunk - 1) q' p h
            | _ => Ok o
            end
      end
  end.

(** The return value and the store. *)
Definition bitmask_parsehex (buf : cstr) (p : nat) (h : store) : M (Z * store) :=
  h ← bitmask_clearall bitsperlong h p;
  b ← load h p;
  let sz := uint (longsperbits bitsperlong (size b) * 8 * (bitsperlong / 8)) in
  o ← parsehex_loop (S (length buf)) sz (count_tokens (S (length buf)) (Some buf) - 1) (Some buf) p h;
  match o with
  | Parsed h => Ok (0, h)
  | Rejected h => h ← bitmask_clearall bitsperlong h p; Ok (-1, h)
  | Running => Fault
  end.

(** [sscanf(p, "%u%c", &a, &nextc)]: its return value, the number and the
    character behind it. *)
Definition scan_u (s : cstr) : Z * Z * Z :=
  match skip_while isspace s with
  | [] => (-1, 0, 0)
  | _ =>
      let r := strtoul bitsperlong 10 s in
      if negb (st_conv r) then (0, 0, 0)
      else match st_end r with
           | [] => (1, uint (st_val r), 0)
           | c :: _ => (2, uint (st_val r), c)
           end
  end.

Definition scan_was_ok (sret nextc : Z) (ok_next_chars : cstr) : bool :=
  (sret =? 1) || ((sret =? 2) && match strchr ok_next_chars nextc with Some _ => true | None => false end).

(** [c1 < c2] for pointers into the same string. *)
Definition before (c1 : cstr) (c2 : option cstr) : bool :=
  match c2 with None => true | Some c2 => (length c2 <? length c1)%nat end.

(** The numbers of a term of the list, [None] on [goto err]. *)
Definition parse_term (s : cstr) : option (Z * Z * Z) :=
  let '(sret, a, nextc) := scan_u s in
  if negb (scan_was_ok sret nextc (str ",-")) then None
  else
    let c2 := nexttoken (Some s) ","%ch in
    match nexttoken (Some s) "-"%ch with
    | None => Some (a, a, 1)
    | Some c1 =>
        if negb (before c1 c2) then Some (a, a, 1)
        else
          let '(sret, b, nextc) := scan_u c1 in
          if negb (scan_was_ok sret nextc (str ",:")) then None
          else
            match nexttoken (Some c1) ":"%ch with
            | None => Some (a, b, 1)
            | Some c3 =>
                if negb (before c3 c2) then Some (a, b, 1)
                else
                  let '(sret, st, nextc) := scan_u c3 in
                  if negb (scan_was_ok sret nextc (str ",")) then None else Some (a, b, st)
            end
    end.

(** The loop over a range; [None]: it is still running when the fuel is used
    up. *)
Fixpoint stride_loop (fuel : nat) (a b st : Z) (p : nat) (h : store) : M (option store) :=
  if b <? a then Ok (Some h)
  else
    match fuel with
    | O => Ok None
    | S fuel' => h ← setbit_at bitsperlong h p a true; stride_loop fuel' (uint (a + st)) b st p h
    end.

(** [steps] bounds the rounds of each range loop. *)
Fixpoint parselist_loop (steps fuel : nat) (q : option cstr) (p : nat) (h : store) : M outcome :=
  match q with
  | None => Ok (Parsed h)
  | Some s =>
      match fuel with
      | O => Fault
      | S fuel' =>
          b0 ← load h p;
          match parse_term s with
          | None => Ok (Rejected h)
          | Some (a, b, st) =>
              if (b <? a) || (size b0 <=? b) then Ok (Rejected h)
              else
                o ← stride_loop steps a b st p h;
                match o with
                | None => Ok Running
                | Some h => parselist_loop steps fuel' (nexttoken q ","%ch) p h
                end
          end
      end
  end.

(** [None]: a range loop does not end within [steps] rounds. *)
Definition bitmask_parselist (steps : nat) (buf : cstr) (p : nat) (h : store) : M (option (Z * store)) :=
  h ← bitmask_clearall bitsperlong h p;
  o ← parselist_loop steps (S (length buf)) (Some buf) p h;
  match o with
  | Parsed h => Ok (Some (0, h))
  | Rejected h => h ← bitmask_clearall bitsperlong h p; Ok (Some (-1, h))
  | Running => Ok None
  end.
End Text.

(** ** The written form of a list *)

Inductive term : Set := Num (a : Z) | Range (a b : Z) | Stride (a b st : Z).

Definition render_term (t : term) : cstr :=
  match t with
  | Num a => dec a
  | Range a b => dec a ++ str "-" ++ dec b
  | Stride a b st => dec a ++ str "-" ++ dec b ++ str ":" ++ dec st
  end.

(** The terms that follow another one. *)
Definition render_tail (ts : list term) : cstr := concat (map (fun t => str "," ++ render_term t) ts).
Definition render (ts : list term) : cstr :=
  match ts with [] => [] | t :: ts => render_term t ++ render_tail ts end.

(** First, last and stride of a term. *)
Definition triple (t : term) : Z * Z * Z :=
  match t with Num a => (a, a, 1) | Range a b => (a, b, 1) | Stride a b st => (a, b, st) end.
Definition in_range (m a b st : Z) : bool := (a <=? m) && (m <=? b) && ((m - a) mod st =? 0).
Definition in_term (m : Z) (t : term) : bool := let '(a, b, st) := triple t in in_range m a b st.

Definition number (a : Z) : Prop := 0 <= a < 2 ^ 32.
Definition numbers (t : term) : Prop := let '(a, b, st) := triple t in number a /\ number b /\ number st.

(** The parser reaches a term of stride 0. *)
Fixpoint zero_stride (bitsperlong : Z) (fuel : nat) (sz : Z) (q : option cstr) : bool :=
  match q, fuel with
  | Some s, S fuel' =>
      match parse_term bitsperlong s with
      | None => false
      | Some (a, b, st) =>
          if (b <? a) || (sz <=? b) then false
          else (st =? 0) || zero_stride bitsperlong fuel' sz (nexttoken q ","%ch)
      end
  | _, _ => false
  end.

Section Spec.
Context (bitsperlong : Z) (Hbpl : bitsperlong = 32 \/ bitsperlong = 64).

(** *** Scanning a term *)

(** What may follow the digits of a number. *)
Definition ends_number (t : cstr) : Prop := match t with [] => True | c :: _ => is_digit 10 c = false end.

Lemma strtoul_digits ds t : ds <> [] -> forallb (is_digit 10) ds = true -> ends_number t -> number (digits_val 10 0 ds) ->
  strtoul bitsperlong 10 (ds ++ t) = mkStrto (digits_val 10 0 ds) t true 0.
Proof using Hbpl.
  intros Hne Hall Ht Hn. unfold strtoul.
  pose proof (sign_digits false ds t Hne Hall) as E. rewrite app_nil_l in E. rewrite E.
  change (base_of 10 (ds ++ t)) with (10, ds ++ t). cbv beta iota zeta.
  rewrite skip_prefix, digits_val_stop by done. rewrite prefix_len_app by done.
  destruct (Nat.eqb_spec (length ds + prefix_len (is_digit 10) t) 0) as [E0|_]; [destruct ds; simpl in *; [done|lia]|].
  assert (2 ^ 32 <= 2 ^ bitsperlong) by (destruct Hbpl; subst; lia). unfold number in Hn.
  by rewrite (proj2 (Z.ltb_ge _ _)) by lia.
Qed.

Lemma dec_digits_of a : number a -> exists ds, dec a = ds /\ ds <> [] /\ forallb (is_digit 10) ds = true /\ digits_val 10 0 ds = a.
Proof.
  intros Ha. unfold number in Ha. destruct (dec_split a) as (ds & E & Hne & Hall & Hv & _).
  rewrite (proj2 (Z.ltb_ge a 0)) in E by lia. exists ds. rewrite E, Hv. split_and!; try done. lia.
Qed.

Lemma scan_u_dec a t : number a -> ends_number t ->
  scan_u bitsperlong (dec a ++ t) = match t with [] => (1, a, 0) | c :: _ => (2, a, c) end.
Proof using Hbpl.
  intros Ha Ht. destruct (dec_digits_of a Ha) as (ds & -> & Hne & Hall & Hv). unfold scan_u.
  rewrite strtoul_digits by (rewrite ?Hv; done). cbn [st_conv st_end st_val negb]. rewrite Hv, uint_small by done.
  destruct ds as [|c ds]; [done|]. simpl in Hall. apply andb_true_iff in Hall as [Hc _].
  cbn [app skip_while]. by rewrite (proj1 (digit_not_space c Hc)).
Qed.

Lemma strchr_dec a c t : number a -> is_digit 10 c = false -> strchr (dec a ++ t) c = strchr t c.
Proof.
  intros Ha Hc. destruct (dec_digits_of a Ha) as (ds & -> & _ & Hall & _).
  induction ds as [|d ds IH]; [done|]. simpl in *. apply andb_true_iff in Hall as [Hd Hall].
  destruct (Z.eqb_spec d c) as [->|_]; [congruence|]. by apply IH.
Qed.

Lemma strchr_shorter s c t : strchr s c = Some t -> (1 <= length t <= length s)%nat.
Proof.
  induction s as [|x s IH]; simpl; [done|]. destruct (x =? c); [intros [= <-]; simpl; lia|]. intros H%IH. lia.
Qed.

Lemma strchr_ne x s c : x <> c -> strchr (x :: s) c = strchr s c.
Proof. intros H. simpl. by rewrite (proj2 (Z.eqb_neq _ _) H). Qed.

(** The rest of the text behind a term. *)
Definition rest_ok (tail : cstr) : Prop := match tail with [] => True | c :: _ => c = ","%ch end.
Definition next_term (tail : cstr) : option cstr := match tail with [] => None | _ :: r => Some r end.

Lemma rest_ends tail : rest_ok tail -> ends_number tail.
Proof. destruct tail as [|c r]; [done|]. by intros ->. Qed.

Lemma strchr_comma tail : rest_ok tail -> strchr tail ","%ch = match tail with [] => None | _ => Some tail end.
Proof. destruct tail as [|c r]; [done|]. by intros ->. Qed.

Lemma nexttoken_term t tail : numbers t -> rest_ok tail -> nexttoken (Some (render_term t ++ tail)) ","%ch = next_term tail.
Proof.
  intros Ht Hr. unfold nexttoken. assert (strchr (render_term t ++ tail) ","%ch = strchr tail ","%ch) as ->.
  { destruct t; unfold numbers in Ht; simpl in Ht; destruct Ht as (? & ? & ?); cbn [render_term];
    change (str "-") with ["-"%ch]; change (str ":") with [":"%ch]; cbn [app];
    repeat first [rewrite <-app_assoc | progress cbn [app] | rewrite strchr_ne by done | rewrite strchr_dec by done]; done. }
  rewrite strchr_comma by done. by destruct tail.
Qed.

(** A separator that is found behind the term is not taken for one of it. *)
Lemma before_tail tail c t : rest_ok tail -> c <> ","%ch -> strchr tail c = Some t -> before (drop 1 t) (next_term tail) = false.
Proof.
  intros Hr Hc. destruct tail as [|x r]; [done|]. simpl in Hr. subst x. rewrite strchr_ne by done. intros H%strchr_shorter.
  simpl. apply Nat.ltb_ge. rewrite length_drop. lia.
Qed.

Lemma before_here s tail : before (s ++ tail) (next_term tail) = true.
Proof. destruct tail as [|x r]; [done|]. simpl. apply Nat.ltb_lt. rewrite length_app. simpl. lia. Qed.

Lemma scan_ok_tail a tail ok : rest_ok tail -> strchr ok ","%ch <> None -> number a ->
  exists sret nextc, scan_u bitsperlong (dec a ++ tail) = (sret, a, nextc) /\ scan_was_ok sret nextc ok = true.
Proof using Hbpl.
  intros Hr Hok Ha. rewrite scan_u_dec by (done || by apply rest_ends). destruct tail as [|c r]; [by eauto|].
  simpl in Hr. subst c. do 2 eexists. split; [done|]. unfold scan_was_ok. by destruct (strchr ok ","%ch).
Qed.

Lemma scan_ok_sep a c r ok : is_digit 10 c = false -> strchr ok c <> None -> number a ->
  exists sret nextc, scan_u bitsperlong (dec a ++ c :: r) = (sret, a, nextc) /\ scan_was_ok sret nextc ok = true.
Proof using Hbpl.
  intros Hr Hok Ha. rewrite scan_u_dec by done. do 2 eexists. split; [done|]. unfold scan_was_ok. by destruct (strchr ok c).
Qed.

Lemma nexttoken_dec a c t : number a -> is_digit 10 c = false ->
  nexttoken (Some (dec a ++ t)) c = nexttoken (Some t) c.
Proof. intros Ha Hc. unfold nexttoken. by rewrite strchr_dec. Qed.

Lemma nexttoken_here c t : nexttoken (Some (c :: t)) c = Some t.
Proof. unfold nexttoken. simpl. by rewrite Z.eqb_refl. Qed.

(** The first and last number of a term are read, with the stride if it has one. *)
Lemma parse_term_correct t tail : numbers t -> rest_ok tail -> parse_term bitsperlong (render_term t ++ tail) = Some (triple t).
Proof using Hbpl.
  intros Ht Hr. unfold parse_term. rewrite nexttoken_term by done.
  destruct t as [a|a b|a b st]; unfold numbers in Ht; simpl in Ht; destruct Ht as (Ha & Hb & Hst); cbn [render_term triple].
  - destruct (scan_ok_tail a tail (str ",-") Hr ltac:(done) Ha) as (? & ? & -> & ->). cbn [negb].
    rewrite nexttoken_dec by done. unfold nexttoken. destruct (strchr tail "-"%ch) eqn:E; [|done].
    by rewrite (before_tail tail "-"%ch).
  - change (str "-") with ["-"%ch]. rewrite <-!app_assoc. cbn [app].
    destruct (scan_ok_sep a "-"%ch (dec b ++ tail) (str ",-") ltac:(done) ltac:(done) Ha) as (? & ? & -> & ->). cbn [negb].
    rewrite nexttoken_dec, nexttoken_here, before_here by done. cbn [negb].
    destruct (scan_ok_tail b tail (str ",:") Hr ltac:(done) Hb) as (? & ? & -> & ->). cbn [negb].
    rewrite nexttoken_dec by done. unfold nexttoken. destruct (strchr tail ":"%ch) eqn:E; [|done].
    by rewrite (before_tail tail ":"%ch).
  - change (str "-") with ["-"%ch]. change (str ":") with [":"%ch]. rewrite <-!app_assoc. cbn [app].
    destruct (scan_ok_sep a "-"%ch (dec b ++ ":"%ch :: dec st ++ tail) (str ",-") ltac:(done) ltac:(done) Ha) as (? & ? & -> & ->). cbn [negb].
    rewrite nexttoken_dec, nexttoken_here by done. replace (dec b ++ ":"%ch :: dec st ++ tail) with ((dec b ++ ":"%ch :: dec st) ++ tail) by (by rewrite <-app_assoc).
    rewrite before_here. cbn [negb]. rewrite <-app_assoc. cbn [app].
    destruct (scan_ok_sep b ":"%ch (dec st ++ tail) (str ",:") ltac:(done) ltac:(done) Hb) as (? & ? & -> & ->). cbn [negb].
    rewrite nexttoken_dec, nexttoken_here, before_here by done. cbn [negb].
    destruct (scan_ok_tail st tail (str ",") Hr ltac:(done) Hst) as (? & ? & -> & ->). done.
Qed.
(** *** The loop over a range *)

(** [p] points to a mask of the same size, nothing else is changed. *)
Definition only_mask (h : store) (p : nat) (b0 : bitmask) (h' : store) : Prop :=
  exists b', h' = <[p := b']> h /\ wf bitsperlong b' /\ size b' = size b0.

Lemma setbit_at_ok (h : store) p b n v : wf bitsperlong b -> 0 <= n ->
  exists b', setbit_at bitsperlong (<[p := b]> h) p n v = Ok (<[p := b']> h) /\ wf bitsperlong b' /\ size b' = size b /\
    forall m, 0 <= m -> bit bitsperlong b' m = if (m =? n) && (n <? size b) then v else bit bitsperlong b m.
Proof using Hbpl.
  intros Hwf Hn. destruct (setbit_ok bitsperlong Hbpl b n v Hwf Hn) as (b' & E & H). exists b'. split; [|done].
  unfold setbit_at, load. rewrite lookup_insert_eq. cbn [or_fault mbind res_bind]. rewrite E. cbn [mbind res_bind].
  by rewrite insert_insert_eq.
Qed.

Lemma stride_total b st p h : forall fuel a b0, wf bitsperlong b0 -> 0 <= a ->
  exists o, stride_loop bitsperlong fuel a b st p (<[p := b0]> h) = Ok o /\
    match o with None => True | Some h' => only_mask h p b0 h' end.
Proof using Hbpl.
  induction fuel as [|fuel IH]; intros a b0 Hwf Ha; cbn [stride_loop];
    (destruct (b <? a); [eexists; split; [done|]; by exists b0|]); [by eexists|].
  destruct (setbit_at_ok h p b0 a true Hwf Ha) as (b1 & -> & Hwf1 & Hs & _). cbn [mbind res_bind].
  destruct (IH (uint (a + st)) b1 Hwf1) as (o & E & Ho); [unfold uint, wrap_u; apply Z.mod_pos_bound; lia|].
  exists o. split; [done|]. destruct o; [|done]. destruct Ho as (b' & ? & ? & ?). exists b'. split_and!; try done. congruence.
Qed.

(** A stride of 0 never leaves the loop. *)
Lemma stride_zero a b p h : number a -> a <= b -> forall fuel b0, wf bitsperlong b0 ->
  stride_loop bitsperlong fuel a b 0 p (<[p := b0]> h) = Ok None.
Proof using Hbpl.
  intros Ha Hab. induction fuel as [|fuel IH]; intros b0 Hwf; cbn [stride_loop];
    rewrite (proj2 (Z.ltb_ge b a)) by lia; [done|].
  destruct (setbit_at_ok h p b0 a true Hwf (proj1 Ha)) as (b1 & -> & Hwf1 & _). cbn [mbind res_bind].
  rewrite Z.add_0_r, uint_small by done. by apply IH.
Qed.

Lemma in_range_step m a b st : 0 < st -> a <= b ->
  in_range m a b st = (m =? a) || in_range m (a + st) b st.
Proof.
  intros Hst Hab. unfold in_range. destruct (Z.eqb_spec m a) as [->|Hne]; simpl.
  - rewrite Z.sub_diag, Z.mod_0_l by lia. by rewrite (proj2 (Z.leb_le _ _)), (proj2 (Z.leb_le _ _)) by lia.
  - replace (m - (a + st)) with (m - a + (-1) * st) by lia. rewrite Z.mod_add by lia.
    destruct (Z.leb_spec a m), (Z.leb_spec (a + st) m), (Z.leb_spec m b), (Z.eqb_spec ((m - a) mod st) 0) as [E|]; simpl; try done; try lia.
    rewrite Z.mod_small in E by lia. lia.
Qed.

(** The bits of the range are set, the others are kept. *)
Lemma stride_up b st p h : 0 < st -> b + st < 2 ^ 32 -> forall fuel a b0, wf bitsperlong b0 -> 0 <= a -> b < size b0 ->
  b - a + 1 <= Z.of_nat fuel ->
  exists b', stride_loop bitsperlong fuel a b st p (<[p := b0]> h) = Ok (Some (<[p := b']> h)) /\ wf bitsperlong b' /\ size b' = size b0 /\
    forall m, 0 <= m -> bit bitsperlong b' m = in_range m a b st || bit bitsperlong b0 m.
Proof using Hbpl.
  intros Hst Hb. induction fuel as [|fuel IH]; intros a b0 Hwf Ha Hsz Hf; cbn [stride_loop].
  - rewrite (proj2 (Z.ltb_lt b a)) by lia. exists b0. split_and!; try done. intros m Hm.
    unfold in_range. destruct (Z.leb_spec a m), (Z.leb_spec m b); simpl; try done; lia.
  - destruct (Z.ltb_spec b a) as [Hlt|Hge].
    { exists b0. split_and!; try done. intros m Hm. unfold in_range. destruct (Z.leb_spec a m), (Z.leb_spec m b); simpl; try done; lia. }
    destruct (setbit_at_ok h p b0 a true Hwf Ha) as (b1 & -> & Hwf1 & Hs & Hb1). cbn [mbind res_bind].
    rewrite uint_small by lia. destruct (IH (a + st) b1 Hwf1) as (b' & -> & Hwf' & Hs' & Hb'); [lia|congruence|lia|].
    exists b'. split_and!; [done|done|congruence|]. intros m Hm. rewrite Hb', Hb1, (in_range_step m a b st), (proj2 (Z.ltb_lt _ _)), andb_true_r by lia.
    destruct (m =? a); simpl; [by rewrite orb_true_r|done].
Qed.

(** A stride of [2 ^ 31] or more goes down, and leaves the range below 0. *)
Lemma stride_down b st p h : 2 ^ 31 <= st < 2 ^ 32 -> b < 2 ^ 31 -> forall fuel a b0, wf bitsperlong b0 -> 0 <= a ->
  a <= b -> a < Z.of_nat fuel ->
  stride_loop bitsperlong fuel a b st p (<[p := b0]> h) <> Ok None.
Proof using Hbpl.
  intros Hst Hb. change (2 ^ 31) with 2147483648 in *. change (2 ^ 32) with 4294967296 in *.
  induction fuel as [|fuel IH]; intros a b0 Hwf Ha Hab Hf; cbn [stride_loop]; [lia|].
  rewrite (proj2 (Z.ltb_ge b a)) by lia.
  destruct (setbit_at_ok h p b0 a true Hwf Ha) as (b1 & -> & Hwf1 & Hs & Hb1). cbn [mbind res_bind].
  destruct (Z.ltb_spec (a + st) 4294967296) as [Hlt|Hge].
  - rewrite uint_small by (change (2 ^ 32) with 4294967296; lia).
    destruct fuel; cbn [stride_loop]; by rewrite (proj2 (Z.ltb_lt b (a + st))) by lia.
  - assert (E : uint (a + st) = a + st - 4294967296).
    { unfold uint, wrap_u. change (2 ^ 32) with 4294967296. replace (a + st) with (a + st - 4294967296 + 1 * 4294967296) by lia.
      rewrite Z.mod_add, Z.mod_small by lia. lia. }
    rewrite E. apply IH; (done || lia).
Qed.

(** On masks of at most [2 ^ 31] bits the loop ends exactly if the stride is
    not 0. *)
Lemma stride_ends b st p h fuel a b0 : wf bitsperlong b0 -> size b0 <= 2 ^ 31 -> number st -> 0 <= a <= b -> b < size b0 ->
  size b0 <= Z.of_nat fuel ->
  stride_loop bitsperlong fuel a b st p (<[p := b0]> h) = Ok None <-> st = 0.
Proof using Hbpl.
  intros Hwf Hsz Hst Hab Hb Hf. unfold number in Hst. split.
  - intros E. destruct (Z.eq_dec st 0) as [|Hne]; [done|exfalso]. destruct (Z.ltb_spec st (2 ^ 31)).
    + destruct (stride_up b st p h) with (fuel := fuel) (a := a) (b0 := b0) as (b' & E' & _); try done; try lia. congruence.
    + revert E. apply stride_down; (done || lia).
  - intros ->. apply stride_zero; [unfold number|..]; (done || lia).
Qed.
(** *** The loop over the terms *)

Lemma uint_number z : number (uint z).
Proof. unfold number, uint, wrap_u. apply Z.mod_pos_bound. lia. Qed.

Lemma scan_u_number s r v c : scan_u bitsperlong s = (r, v, c) -> number v.
Proof.
  assert (number 0) by (unfold number; lia). unfold scan_u.
  repeat (case_match; try (intros [= <- <- <-]; done || apply uint_number)).
Qed.

Lemma parse_term_numbers s a b st : parse_term bitsperlong s = Some (a, b, st) -> number a /\ number b /\ number st.
Proof.
  assert (number 1) by (unfold number; lia). unfold parse_term.
  destruct (scan_u bitsperlong s) as [[r v] c] eqn:E1. apply scan_u_number in E1.
  repeat (case_match; try done); intros [= <- <- <-]; split_and!; try done;
    match goal with E : scan_u _ _ = _ |- _ => by apply scan_u_number in E
    | E : scan_u _ _ = _, E' : scan_u _ _ = _ |- _ => apply scan_u_number in E; by apply scan_u_number in E' end.
Qed.

Lemma nexttoken_shorter s c t : nexttoken (Some s) c = Some t -> (length t < length s)%nat.
Proof.
  unfold nexttoken. destruct (strchr s c) eqn:E; [|done]. apply strchr_shorter in E. intros [= <-].
  rewrite length_drop. lia.
Qed.

Definition q_length (q : option cstr) : nat := match q with None => 0 | Some s => S (length s) end.

Lemma parselist_loop_total steps p h : forall fuel q b0, wf bitsperlong b0 -> size b0 <= 2 ^ 31 -> size b0 <= Z.of_nat steps ->
  (q_length q <= fuel)%nat ->
  exists o, parselist_loop bitsperlong steps fuel q p (<[p := b0]> h) = Ok o /\
    match o with
    | Parsed h' | Rejected h' => only_mask h p b0 h' /\ zero_stride bitsperlong fuel (size b0) q = false
    | Running => zero_stride bitsperlong fuel (size b0) q = true
    end.
Proof using Hbpl.
  assert (Hid : forall b0, wf bitsperlong b0 -> only_mask h p b0 (<[p := b0]> h)) by (intros b0 ?; by exists b0).
  induction fuel as [|fuel IH]; intros q b0 Hwf Hsz Hst Hq; (destruct q as [s|]; [|by eexists; split; [reflexivity|]; split; [apply Hid|]]); simpl in Hq; [lia|].
  cbn [parselist_loop zero_stride]. unfold load. rewrite lookup_insert_eq. cbn [or_fault mbind res_bind].
  destruct (parse_term bitsperlong s) as [[[a b] st]|] eqn:Et; [|by eexists; split; [reflexivity|]; split; [apply Hid|]].
  apply parse_term_numbers in Et as (Ha & Hb & Hs).
  destruct (Z.ltb_spec b a) as [|Hab]; [by eexists; split; [reflexivity|]; split; [apply Hid|]|]. destruct (Z.leb_spec (size b0) b) as [|Hbs]; [by eexists; split; [reflexivity|]; split; [apply Hid|]|].
  cbn [orb]. destruct (stride_total b st p h steps a b0 Hwf (proj1 Ha)) as (o & E & Ho).
  pose proof (stride_ends b st p h steps a b0 Hwf Hsz Hs (conj (proj1 Ha) Hab) Hbs Hst) as He. rewrite E in *. cbn [mbind res_bind].
  destruct o as [h'|].
  - rewrite (proj2 (Z.eqb_neq st 0)) by (intros E0%He; done). cbn [orb]. destruct Ho as (b1 & -> & Hwf1 & Hs1).
    destruct (IH (nexttoken (Some s) ","%ch) b1 Hwf1) as (o & -> & Ho); [by rewrite Hs1|by rewrite Hs1| |].
    { destruct (nexttoken (Some s) ","%ch) eqn:En; simpl; [apply nexttoken_shorter in En|]; lia. }
    exists o. split; [done|]. rewrite Hs1 in Ho. destruct o; try done; destruct Ho as [(b' & ? & ? & ?) ?];
      (split; [exists b'; split_and!; try done; congruence|done]).
  - exists Running. split; [done|]. by rewrite (proj2 (Z.eqb_eq st 0)) by (by apply He).
Qed.

Lemma clearall_ok h p b : h !! p = Some b -> wf bitsperlong b ->
  exists b', bitmask_clearall bitsperlong h p = Ok (<[p := b']> h) /\ wf bitsperlong b' /\ size b' = size b /\ value bitsperlong b' = 0.
Proof using Hbpl.
  intros Hp Hwf. destruct (const_assigns bitsperlong Hbpl h p b false 0 Hp Hwf (fun m _ => Z.bits_0 m)) as (b' & E & Hwf' & Hs & Hv).
  by exists b'.
Qed.

(** C26: [bitmask_parselist] ends on every text but those in which it reaches a
    range with stride 0, where it loops for ever. When it ends, it has changed
    only the mask that it was given, within its size, and after an error that
    mask is empty. *)
Theorem parselist_terminates steps buf p h b :
  h !! p = Some b -> wf bitsperlong b -> size b <= 2 ^ 31 -> size b <= Z.of_nat steps ->
  match bitmask_parselist bitsperlong steps buf p h with
  | Ok None => zero_stride bitsperlong (S (length buf)) (size b) (Some buf) = true
  | Ok (Some (ret, h')) =>
      zero_stride bitsperlong (S (length buf)) (size b) (Some buf) = false /\
      exists b', h' = <[p := b']> h /\ wf bitsperlong b' /\ size b' = size b /\
        (ret = 0 \/ (ret = -1 /\ value bitsperlong b' = 0))
  | _ => False
  end.
Proof using Hbpl.
  intros Hp Hwf Hsz Hst. unfold bitmask_parselist. destruct (clearall_ok h p b Hp Hwf) as (b0 & -> & Hwf0 & Hs0 & _). cbn [mbind res_bind].
  destruct (parselist_loop_total steps p h (S (length buf)) (Some buf) b0 Hwf0) as (o & -> & Ho); [congruence|congruence|simpl; lia|].
  cbn [mbind res_bind]. rewrite Hs0 in Ho. destruct o as [h'|h'|]; [| |done]; destruct Ho as [(b1 & -> & Hwf1 & Hs1) Hz].
  - split; [done|]. exists b1. split_and!; try done; [congruence|by left].
  - destruct (clearall_ok (<[p := b1]> h) p b1) as (b2 & -> & Hwf2 & Hs2 & Hv2); [by rewrite lookup_insert_eq|done|].
    cbn [mbind res_bind]. split; [done|]. exists b2. rewrite insert_insert_eq. split_and!; try done; [congruence|by right].
Qed.
(** *** Lists of terms *)

(** A term that fits into a mask of [sz] bits; the additions of its stride do
    not wrap around. *)
Definition fits (sz : Z) (t : term) : Prop :=
  let '(a, b, st) := triple t in 0 <= a <= b /\ b < sz /\ 0 < st /\ b + st < 2 ^ 32.

Lemma fits_numbers sz t : fits sz t -> numbers t.
Proof. unfold fits, numbers, number. destruct (triple t) as [[a b] st]. lia. Qed.

Lemma rest_ok_tail ts : rest_ok (render_tail ts).
Proof. by destruct ts. Qed.

(** The rest of the text after [ts]. *)
Definition text_of (ts : list term) : option cstr := match ts with [] => None | t :: ts => Some (render_term t ++ render_tail ts) end.

(** A round of the loop on a term that fits. *)
Lemma parselist_step steps p h fuel t ts b0 : wf bitsperlong b0 -> size b0 <= Z.of_nat steps -> fits (size b0) t ->
  exists b1, parselist_loop bitsperlong steps (S fuel) (text_of (t :: ts)) p (<[p := b0]> h)
      = parselist_loop bitsperlong steps fuel (text_of ts) p (<[p := b1]> h) /\
    wf bitsperlong b1 /\ size b1 = size b0 /\ forall m, 0 <= m -> bit bitsperlong b1 m = in_term m t || bit bitsperlong b0 m.
Proof using Hbpl.
  intros Hwf Hst Ht. cbn [parselist_loop text_of]. unfold load. rewrite lookup_insert_eq. cbn [or_fault mbind res_bind].
  rewrite parse_term_correct, nexttoken_term by (by eapply fits_numbers || apply rest_ok_tail).
  unfold fits in Ht. unfold in_term. destruct (triple t) as [[a b] st]. destruct Ht as (Ha & Hb & Hs & Hw).
  rewrite (proj2 (Z.ltb_ge b a)), (proj2 (Z.leb_gt (size b0) b)) by lia. cbn [orb].
  destruct (stride_up b st p h) with (fuel := steps) (a := a) (b0 := b0) as (b1 & -> & Hwf1 & Hs1 & Hb1); try done; try lia.
  cbn [mbind res_bind]. exists b1. split_and!; try done. by destruct ts.
Qed.

Lemma parselist_loop_terms steps p h ts' : forall ts fuel b0, wf bitsperlong b0 -> size b0 <= Z.of_nat steps ->
  Forall (fits (size b0)) ts ->
  exists b', parselist_loop bitsperlong steps (length ts + fuel) (text_of (ts ++ ts')) p (<[p := b0]> h)
      = parselist_loop bitsperlong steps fuel (text_of ts') p (<[p := b']> h) /\
    wf bitsperlong b' /\ size b' = size b0 /\
    forall m, 0 <= m -> bit bitsperlong b' m = existsb (in_term m) ts || bit bitsperlong b0 m.
Proof using Hbpl.
  induction ts as [|t ts IH]; intros fuel b0 Hwf Hst Hts; [by exists b0|]. apply Forall_cons in Hts as [Ht Hts].
  cbn [length plus app]. destruct (parselist_step steps p h (length ts + fuel) t (ts ++ ts') b0 Hwf Hst Ht) as (b1 & -> & Hwf1 & Hs1 & Hb1).
  destruct (IH fuel b1 Hwf1) as (b' & -> & Hwf' & Hs' & Hb'); [congruence|by rewrite Hs1|].
  exists b'. split_and!; [done|done|congruence|]. intros m Hm. rewrite Hb', Hb1 by done. cbn [existsb].
  destruct (in_term m t), (existsb (in_term m) ts); simpl; done.
Qed.

Lemma render_tail_length ts : (length ts <= length (render_tail ts))%nat.
Proof.
  induction ts as [|t ts IH]; [done|]. unfold render_tail in *. cbn [map concat length]. rewrite !length_app.
  change (length (str ",")) with 1%nat. lia.
Qed.

Lemma render_text ts : ts <> [] -> Some (render ts) = text_of ts.
Proof. by destruct ts. Qed.

Lemma parselist_render steps p h b ts ts' : h !! p = Some b -> wf bitsperlong b -> size b <= Z.of_nat steps ->
  ts ++ ts' <> [] -> Forall (fits (size b)) ts ->
  exists b' k, bitmask_parselist bitsperlong steps (render (ts ++ ts')) p h =
      (o ← parselist_loop bitsperlong steps (S k) (text_of ts') p (<[p := b']> h);
       match o with
       | Parsed h => Ok (Some (0, h))
       | Rejected h => h ← bitmask_clearall bitsperlong h p; Ok (Some (-1, h))
       | Running => Ok None
       end) /\
    wf bitsperlong b' /\ size b' = size b /\ forall m, 0 <= m -> bit bitsperlong b' m = existsb (in_term m) ts.
Proof using Hbpl.
  intros Hp Hwf Hst Hne Hts. unfold bitmask_parselist.
  destruct (clearall_ok h p b Hp Hwf) as (b0 & -> & Hwf0 & Hs0 & Hv0). cbn [mbind res_bind].
  assert (length ts <= length (render (ts ++ ts')))%nat as Hl.
  { destruct ts as [|t ts]; [simpl; lia|]. simpl. rewrite length_app. pose proof (render_tail_length (ts ++ ts')).
    rewrite length_app in *. assert (1 <= length (render_term t))%nat; [|lia]. apply Forall_cons in Hts as [Ht%fits_numbers _].
    unfold numbers in Ht. assert (Hd : forall a, number a -> (1 <= length (dec a))%nat).
    { intros a Ha. destruct (dec_digits_of a Ha) as (ds & -> & Hds & _). destruct ds; simpl; [done|lia]. }
    destruct t; simpl in *; rewrite ?length_app; pose proof (Hd _ (proj1 Ht)); lia. }
  rewrite (render_text _ Hne). replace (S (length (render (ts ++ ts')))) with (length ts + S (length (render (ts ++ ts')) - length ts))%nat by lia.
  destruct (parselist_loop_terms steps p h ts' ts (S (length (render (ts ++ ts')) - length ts)) b0 Hwf0) as (b' & -> & Hwf' & Hs' & Hb');
    [congruence|by rewrite Hs0|]. exists b', (length (render (ts ++ ts')) - length ts)%nat.
  split_and!; [done|done|congruence|]. intros m Hm. rewrite Hb' by done. unfold bit at 1. by rewrite Hv0, Z.bits_0, orb_false_r.
Qed.

(** C36: a list of numbers, ranges and ranges with strides that lie in the mask
    is accepted, and exactly the bits that the list denotes are set. A list with
    a descending range, or one beyond the mask, is rejected, and leaves the mask
    empty. *)
Theorem parselist_correct steps p h b ts good bad ts' : h !! p = Some b -> wf bitsperlong b -> size b <= Z.of_nat steps ->
  ts <> [] -> Forall (fits (size b)) ts -> Forall (fits (size b)) good ->
  numbers bad -> (let '(first, last, _) := triple bad in last < first \/ size b <= last) ->
  (exists b', bitmask_parselist bitsperlong steps (render ts) p h = Ok (Some (0, <[p := b']> h)) /\
    wf bitsperlong b' /\ size b' = size b /\ forall m, 0 <= m -> bit bitsperlong b' m = existsb (in_term m) ts) /\
  (exists b', bitmask_parselist bitsperlong steps (render (good ++ bad :: ts')) p h = Ok (Some (-1, <[p := b']> h)) /\
    wf bitsperlong b' /\ size b' = size b /\ value bitsperlong b' = 0).
Proof using Hbpl.
  intros Hp Hwf Hst Hne Hts Hgood Hn Hbad. split.
  - destruct (parselist_render steps p h b ts [] Hp Hwf Hst) as (b' & k & E & Hb'); [by rewrite app_nil_r|done|].
    rewrite app_nil_r in E. exists b'. rewrite E. done.
  - destruct (parselist_render steps p h b good (bad :: ts') Hp Hwf Hst) as (b1 & k & -> & Hwf1 & Hs1 & _); [by destruct good|done|].
    cbn [parselist_loop text_of]. unfold load. rewrite lookup_insert_eq. cbn [or_fault mbind res_bind].
    rewrite parse_term_correct by (done || apply rest_ok_tail). destruct (triple bad) as [[a c] st].
    assert ((c <? a) || (size b1 <=? c) = true) as ->.
    { rewrite orb_true_iff, Z.ltb_lt, Z.leb_le. lia. }
    cbn [mbind res_bind]. destruct (clearall_ok (<[p := b1]> h) p b1) as (b2 & -> & Hwf2 & Hs2 & Hv2); [by rewrite lookup_insert_eq|done|].
    cbn [mbind res_bind]. exists b2. rewrite insert_insert_eq. split_and!; try done. congruence.
Qed.
(** *** Display as a list *)

(** The state of the output when [full] is the text so far. *)
Definition written (buflen : Z) (full : cstr) : cstr * Z := (take (Z.to_nat (buflen - 1)) full, Z.of_nat (length full)).

Lemma snprintf_written buflen full s : snprintf_at buflen (written buflen full) s = written buflen (full ++ s).
Proof.
  unfold snprintf_at, written. rewrite length_app, Nat2Z.inj_add. f_equal.
  destruct (Z.leb_spec (Z.max (buflen - Z.of_nat (length full)) 0) 0).
  - rewrite take_app_le by lia. done.
  - rewrite (take_ge full) by lia. rewrite take_ge by lia. rewrite take_app_ge by lia. f_equal. f_equal. lia.
Qed.

(** The term that is written for a run of bits. *)
Definition run_term (rbot rtop : Z) : term := if rbot =? rtop then Num rbot else Range rbot rtop.

Lemma emit_written buflen rbot rtop full : 0 <= rbot < 2 ^ 31 -> 0 <= rtop < 2 ^ 31 ->
  emit buflen rbot rtop (written buflen full)
  = written buflen (full ++ (match full with [] => [] | _ => str "," end) ++ render_term (run_term rbot rtop)).
Proof.
  intros Hb Ht. unfold emit. rewrite !wrap_s_id by (change (2 ^ (32 - 1)) with 2147483648; lia).
  assert ((if 0 <? (written buflen full).2 then snprintf_at buflen (written buflen full) (str ",") else written buflen full)
    = written buflen (full ++ match full with [] => [] | _ => str "," end)) as ->.
  { destruct full; [done|]. cbn [written snd]. rewrite (proj2 (Z.ltb_lt _ _)) by (simpl; lia). apply snprintf_written. }
  unfold run_term. destruct (rbot =? rtop); rewrite snprintf_written, <-app_assoc; done.
Qed.

Lemma render_snoc ts t : Forall numbers ts ->
  render (ts ++ [t]) = render ts ++ (match render ts with [] => [] | _ => str "," end) ++ render_term t.
Proof.
  intros Hts. destruct ts as [|t0 ts]; [simpl; unfold render_tail; simpl; by rewrite app_nil_r|]. apply Forall_cons in Hts as [H0 _].
  assert (exists c s, render (t0 :: ts) = c :: s) as (c & s & E).
  { assert (Hd : forall a x, number a -> exists c s, dec a ++ x = c :: s).
    { intros a x Ha. destruct (dec_digits_of a Ha) as (ds & -> & Hne & _). destruct ds; [done|]. simpl. eauto. }
    unfold numbers in H0. destruct t0; simpl in *; rewrite <-?app_assoc; apply Hd, H0. }
  rewrite E. rewrite <-E. cbn [render app]. unfold render_tail. rewrite map_app, concat_app. cbn [map concat].
  by rewrite app_nil_r, !app_assoc.
Qed.

Lemma in_run m rbot rtop : rbot <= rtop -> in_term m (run_term rbot rtop) = (rbot <=? m) && (m <=? rtop).
Proof.
  intros H. unfold in_term, run_term. destruct (Z.eqb_spec rbot rtop) as [->|]; cbn [triple]; unfold in_range; by rewrite Z.mod_1_r, andb_true_r.
Qed.

(** [ts] are the runs below [rbot]; a run from [rbot] to [cur] is open, unless
    there are no more bits. *)
Record runs (b : bitmask) (ts : list term) (rbot cur : Z) : Prop := {
  runs_pos : 0 <= rbot <= cur /\ cur <= size b;
  runs_fit : Forall (fits (size b)) ts;
  runs_below : forall m, 0 <= m < rbot -> existsb (in_term m) ts = bit bitsperlong b m;
  runs_above : forall m, rbot <= m -> existsb (in_term m) ts = false;
  runs_open : cur < size b -> forall m, rbot <= m <= cur -> bit bitsperlong b m = true;
  runs_end : cur = size b -> rbot = size b
}.

Lemma existsb_snoc {A} (f : A -> bool) l x : existsb f (l ++ [x]) = existsb f l || f x.
Proof. rewrite existsb_app. simpl. by rewrite orb_false_r. Qed.

Lemma runs_close b ts rbot cur nxt : size b <= 2 ^ 31 -> runs b ts rbot cur -> cur < size b -> cur < nxt <= size b ->
  (forall m, cur < m < nxt -> bit bitsperlong b m = false) -> (nxt < size b -> bit bitsperlong b nxt = true) ->
  runs b (ts ++ [run_term rbot cur]) nxt nxt.
Proof.
  intros Hsz [Hpos Hfit Hbel Habv Hopen _] Hc Hn Hgap Hbit. specialize (Hopen Hc).
  assert (Hrun : forall m, in_term m (run_term rbot cur) = (rbot <=? m) && (m <=? cur)) by (intros m; apply in_run; lia).
  split.
  - lia.
  - apply Forall_app_2; [done|]. apply Forall_singleton. unfold fits, run_term. change (2 ^ 31) with 2147483648 in Hsz. change (2 ^ 32) with 4294967296.
    destruct (rbot =? cur); simpl; lia.
  - intros m Hm. rewrite existsb_snoc, Hrun. destruct (Z.leb_spec rbot m), (Z.leb_spec m cur); simpl.
    + rewrite orb_true_r. symmetry. apply Hopen. lia.
    + rewrite Habv by lia. symmetry. apply Hgap. lia.
    + rewrite orb_false_r. apply Hbel. lia.
    + lia.
  - intros m Hm. rewrite existsb_snoc, Hrun, Habv by lia. rewrite (proj2 (Z.leb_gt m cur)) by lia. by rewrite andb_false_r.
  - intros H m Hm. replace m with nxt by lia. by apply Hbit.
  - lia.
Qed.

Lemma displaylist_loop_ok b : wf bitsperlong b -> size b <= 2 ^ 31 -> forall fuel cur rbot ts, runs b ts rbot cur ->
  size b - cur < Z.of_nat fuel ->
  exists ts', (forall buflen, displaylist_loop bitsperlong fuel buflen b cur rbot (written buflen (render ts)) = Ok (written buflen (render ts'))) /\
    Forall (fits (size b)) ts' /\ forall m, 0 <= m -> existsb (in_term m) ts' = bit bitsperlong b m.
Proof using Hbpl.
  intros Hwf Hsz. assert (Hb31 : 2 ^ 31 = 2147483648) by done. assert (Hb32 : 2 ^ 32 = 4294967296) by done.
  induction fuel as [|fuel IH]; intros cur rbot ts Hr Hf; pose proof (runs_pos _ _ _ _ Hr) as Hpos; [lia|].
  cbn [displaylist_loop]. destruct (Z.ltb_spec cur (size b)) as [Hlt|Hge].
  - rewrite uint_small by lia. destruct (next_ok bitsperlong Hbpl b (cur + 1) Hwf) as (f & E0 & Hfr & Hgap & Hbit); [lia|].
    destruct ((size b <=? f) || (cur + 1 <? f)) eqn:E.
    + destruct (IH f f (ts ++ [run_term rbot cur])) as (ts' & Hl & Hts); [|lia|].
      { apply (runs_close b ts rbot cur f Hsz Hr); try lia; [|done]. intros m Hm. apply Hgap. lia. }
      exists ts'. split; [|done]. intros buflen. rewrite E0. cbn [mbind res_bind]. rewrite E.
      rewrite emit_written, <-render_snoc by (lia || by eapply Forall_impl; [apply Hr|intros ?; apply fits_numbers]). apply Hl.
    + apply orb_false_iff in E as [E1%Z.leb_gt E2%Z.ltb_ge]. destruct (IH f rbot ts) as (ts' & Hl & Hts); [|lia|].
      { destruct Hr as [_ H2 H3 H4 H5 _]. split; try done; try lia.
        intros _ m Hm. destruct (Z.eq_dec m f) as [->|]; [by apply Hbit|]. apply H5; lia. }
      exists ts'. split; [|done]. intros buflen. rewrite E0. cbn [mbind res_bind].
      rewrite (proj2 (Z.leb_gt _ _)), (proj2 (Z.ltb_ge _ _)) by lia. apply Hl.
  - exists ts. split; [done|]. split; [apply Hr|]. intros m Hm. assert (E : rbot = size b) by (apply (runs_end _ _ _ _ Hr); lia).
    destruct (Z.ltb_spec m (size b)); [apply (runs_below _ _ _ _ Hr); lia|].
    rewrite (runs_above _ _ _ _ Hr), bit_above by (done || lia). done.
Qed.

Lemma displaylist_text b : wf bitsperlong b -> size b <= 2 ^ 31 ->
  exists ts, (forall buflen, bitmask_displaylist bitsperlong buflen b
      = Ok (Z.of_nat (length (render ts)), take (Z.to_nat (buflen - 1)) (render ts))) /\
    Forall (fits (size b)) ts /\ forall m, 0 <= m -> existsb (in_term m) ts = bit bitsperlong b m.
Proof using Hbpl.
  intros Hwf Hsz. unfold bitmask_displaylist, bitmask_first. pose proof (wf_size _ _ Hwf).
  destruct (next_ok bitsperlong Hbpl b 0 Hwf) as (f & E0 & Hfr & Hgap & Hbit); [lia|].
  destruct (displaylist_loop_ok b Hwf Hsz (S (Z.to_nat (size b))) f f []) as (ts & E & Hts); [|lia|].
  - split; try done; try lia.
    + intros m Hm. simpl. symmetry. apply Hgap. lia.
    + intros Hf m Hm. replace m with f by lia. by apply Hbit.
  - exists ts. split; [|done]. intros buflen. specialize (E buflen). unfold written in E. cbn [render] in E. rewrite take_nil in E. change (Z.of_nat (length (@nil Z))) with 0 in E.
    rewrite E0. cbn [mbind res_bind]. rewrite E. done.
Qed.

Lemma parselist_empty steps p h b : h !! p = Some b -> wf bitsperlong b ->
  exists b', bitmask_parselist bitsperlong steps [] p h = Ok (Some (-1, <[p := b']> h)) /\
    wf bitsperlong b' /\ size b' = size b /\ value bitsperlong b' = 0.
Proof using Hbpl.
  intros Hp Hwf. unfold bitmask_parselist. destruct (clearall_ok h p b Hp Hwf) as (b0 & -> & Hwf0 & Hs0 & _). cbn [mbind res_bind].
  cbn [length parselist_loop]. unfold load. rewrite lookup_insert_eq. cbn [or_fault mbind res_bind].
  change (parse_term bitsperlong []) with (@None (Z * Z * Z)). cbv iota beta. cbn [mbind res_bind].
  destruct (clearall_ok (<[p := b0]> h) p b0) as (b' & -> & Hwf' & Hs' & Hv'); [by rewrite lookup_insert_eq|done|].
  cbn [mbind res_bind]. exists b'. rewrite insert_insert_eq. split_and!; try done. congruence.
Qed.

(** C25: the list form of a mask, which is cut to the buffer with its full length
    returned, is read back into a mask of the same size as the same set of bits;
    the text of the empty mask is empty, and reading it is an error that leaves
    the mask empty. *)
Theorem displaylist_roundtrip steps p h b b1 :
  wf bitsperlong b -> size b <= 2 ^ 31 -> h !! p = Some b1 -> wf bitsperlong b1 -> size b1 = size b -> size b <= Z.of_nat steps ->
  exists text b',
    (forall buflen, bitmask_displaylist bitsperlong buflen b = Ok (Z.of_nat (length text), take (Z.to_nat (buflen - 1)) text)) /\
    bitmask_parselist bitsperlong steps text p h
      = Ok (Some (if value bitsperlong b =? 0 then -1 else 0, <[p := b']> h)) /\
    wf bitsperlong b' /\ size b' = size b /\ value bitsperlong b' = value bitsperlong b.
Proof using Hbpl.
  intros Hwf Hsz Hp Hwf1 Hs1 Hst. destruct (displaylist_text b Hwf Hsz) as (ts & Hd & Hts & Hbits). exists (render ts).
  destruct ts as [|t ts].
  - destruct (parselist_empty steps p h b1 Hp Hwf1) as (b' & E & Hwf' & Hs' & Hv'). exists b'. split; [done|].
    assert (value bitsperlong b = 0) as ->; [|split_and!; (done || congruence)].
    apply Z.bits_inj'. intros m Hm. rewrite Z.bits_0. symmetry. by apply Hbits.
  - destruct (parselist_render steps p h b1 (t :: ts) [] Hp Hwf1) as (b' & k & E & Hwf' & Hs' & Hb'); [congruence|done|by rewrite Hs1|].
    rewrite app_nil_r in E. exists b'. split; [done|].
    assert (Hv : value bitsperlong b' = value bitsperlong b).
    { apply Z.bits_inj'. intros m Hm. change (bit bitsperlong b' m = bit bitsperlong b m). by rewrite Hb', Hbits by done. }
    split_and!; [|done|congruence|done]. rewrite E, (proj2 (Z.eqb_neq _ _)); [done|]. intros E0.
    apply Forall_cons in Hts as [Ht _]. unfold fits in Ht.
    assert (Hin : in_term (triple t).1.1 t = true).
    { unfold in_term, in_range. destruct (triple t) as [[a c] st]. simpl. rewrite Z.sub_diag, Z.mod_0_l by lia.
      by rewrite !(proj2 (Z.leb_le _ _)) by lia. }
    specialize (Hbits (triple t).1.1). unfold bit in Hbits. rewrite E0, Z.bits_0 in Hbits. cbn [existsb] in Hbits. rewrite Hin in Hbits.
    destruct (triple t) as [[a c] st]. discriminate Hbits. simpl. lia.
Qed.
(** *** The hexadecimal form *)

Lemma hexdigit_val d : 0 <= d < 16 -> digit_val (hexdigit d) = d.
Proof.
  intros Hd. unfold hexdigit, digit_val, isdigit, islower, isupper.
  destruct (Z.ltb_spec d 10); repeat (case_match; bools); lia.
Qed.

Lemma hexn_spec n : forall v t acc, 0 <= v ->
  length (hexn n v) = n /\ forallb (is_digit 16) (hexn n v) = true /\
  digits_val 16 acc (hexn n v ++ t) = digits_val 16 (acc * 16 ^ Z.of_nat n + v mod 16 ^ Z.of_nat n) t.
Proof.
  induction n as [|n IH]; intros v t acc Hv; cbn [hexn]; [split_and!; try done; simpl; rewrite Z.mod_1_r; f_equal; lia|].
  assert (Hm : 0 <= v mod 16 < 16) by (apply Z.mod_pos_bound; lia). pose proof (hexdigit_val _ Hm) as Hd.
  assert (Hi : is_digit 16 (hexdigit (v mod 16)) = true) by (unfold is_digit; rewrite Hd; lia).
  destruct (IH (v / 16) ([hexdigit (v mod 16)] ++ t) acc) as (Hl & Ha & Hval); [apply Z.div_pos; lia|].
  rewrite length_app, forallb_app, Hl, Ha. cbn [length forallb]. rewrite Hi. split_and!; [lia|done|].
  rewrite <-app_assoc, Hval. cbn [app digits_val]. rewrite Hi, Hd. f_equal.
  rewrite Nat2Z.inj_succ, Z.pow_succ_r by lia. rewrite (Z.rem_mul_r v 16) by lia. lia.
Qed.

Lemma hex_not_special c : is_digit 16 c = true ->
  isspace c = false /\ (c =? "-"%ch) = false /\ (c =? "+"%ch) = false /\ (c =? "x"%ch) = false /\ (c =? "X"%ch) = false /\ (c =? ","%ch) = false.
Proof.
  intros H. assert ("0"%ch <= c <= "9"%ch \/ "a"%ch <= c <= "f"%ch \/ "A"%ch <= c <= "F"%ch) as Hc.
  { revert H. unfold is_digit, digit_val, isdigit, islower, isupper. repeat case_match; bools; lia. }
  unfold isspace. split_and!; lia.
Qed.

(** Eight digits are read as the number that they were made of. *)
Lemma strtoul_hex v t : number v -> rest_ok t -> strtoul bitsperlong 16 (hexn 8 v ++ t) = mkStrto v t true 0.
Proof using Hbpl.
  intros Hv Ht. unfold number in Hv. destruct (hexn_spec 8 v t 0) as (Hl & Ha & Hval); [lia|].
  assert (Hr : match t with [] => True | c :: _ => is_digit 16 c = false end) by (by destruct t; [|rewrite Ht]).
  assert (digits_val 16 0 (hexn 8 v ++ t) = v) as E.
  { rewrite Hval, Z.mod_small by (simpl; lia). rewrite Z.mul_0_l. by destruct t; cbn [digits_val]; [|rewrite Hr]. }
  pose proof (skip_prefix _ _ _ Ha Hr) as Hs. pose proof (prefix_len_app (is_digit 16) _ t Ha) as Hp. revert E Hs Hp.
  assert (exists c d ds, hexn 8 v = c :: d :: ds) as (c & d & ds & Ec) by (destruct (hexn 8 v) as [|c [|d ds]]; try done; eauto).
  rewrite Ec in *. cbn [app forallb] in *. apply andb_true_iff in Ha as [Hc Ha]. apply andb_true_iff in Ha as [Hd _].
  destruct (hex_not_special c Hc) as (S1 & S2 & S3 & _). destruct (hex_not_special d Hd) as (_ & _ & _ & X1 & X2 & _). intros E Hs Hp.
  unfold strtoul. cbn [skip_while]. rewrite S1. cbn [sign_of]. rewrite S2, S3.
  assert (base_of 16 (c :: d :: ds ++ t) = (16, c :: d :: ds ++ t)) as ->.
  { unfold base_of. cbn [Z.eqb Pos.eqb]. destruct (ds ++ t); [done|]. by rewrite X1, X2, andb_false_r. }
  rewrite E, Hs, Hp. cbn [length plus Nat.eqb]. assert (2 ^ 32 <= 2 ^ bitsperlong) by (destruct Hbpl; subst; lia).
  by rewrite (proj2 (Z.ltb_ge _ _)) by lia.
Qed.

Lemma bit_pos_ok c i : 0 <= c -> 0 <= i < 32 -> 32 * c + i < 2 ^ 31 -> bit_pos c i = Ok (32 * c + i).
Proof.
  intros Hc Hi Hm. change (2 ^ 31) with 2147483648 in Hm. unfold bit_pos, HEXCHUNKSZ, in_int.
  rewrite !(proj2 (andb_true_iff _ _)) by (rewrite ?andb_true_iff, ?Z.leb_le; unfold INT_MIN, INT_MAX; lia).
  rewrite uint_small by (change (2 ^ 32) with 4294967296; lia). f_equal. lia.
Qed.

(** The chunk as a number. *)
Definition chunk_of (b : bitmask) (c : Z) : Z := Z.shiftr (value bitsperlong b) (32 * c) mod 2 ^ 32.

Lemma chunk_of_bit b c k : 0 <= c -> 0 <= k -> Z.testbit (chunk_of b c) k = (k <? 32) && bit bitsperlong b (32 * c + k).
Proof.
  intros Hc Hk. unfold chunk_of. destruct (Z.ltb_spec k 32); simpl.
  - rewrite Z.mod_pow2_bits_low, Z.shiftr_spec by lia. unfold bit. f_equal. lia.
  - by rewrite Z.mod_pow2_bits_high by lia.
Qed.

Lemma chunk_val_ok b c : wf bitsperlong b -> 0 <= c -> 32 * c + 31 < 2 ^ 31 -> chunk_val bitsperlong b c = Ok (chunk_of b c).
Proof using Hbpl.
  intros Hwf Hc Hm. unfold chunk_val.
  destruct (for_down_inv (fun j val => 0 <= val /\ forall k, 0 <= k -> Z.testbit val k = (k <? 32 - j) && bit bitsperlong b (32 * c + j + k))
    (fun bit val => n ← bit_pos c bit; v ← _getbit bitsperlong b n; Ok (Z.lor (uint (Z.shiftl val 1)) (Z.b2z v))) 32 0)
    as (r & -> & Hr0 & Hr).
  - split; [done|]. intros k Hk. rewrite Z.bits_0. by rewrite (proj2 (Z.ltb_ge _ _)) by lia.
  - intros j s Hj (Hs0 & Hs). rewrite bit_pos_ok by lia. cbn [mbind res_bind]. rewrite getbit_ok by (done || lia). cbn [mbind res_bind].
    eexists. split; [done|]. split.
    { apply Z.lor_nonneg. split; [apply uint_number|]. destruct (bit _ _ _); done. }
    intros k Hk. rewrite Z.lor_spec. unfold uint, wrap_u. destruct (Z.eq_dec k 0) as [->|Hk0].
    + rewrite Z.mod_pow2_bits_low, Z.shiftl_spec, Z.b2z_bit0, Z.testbit_neg_r by lia. rewrite (proj2 (Z.ltb_lt _ _)) by lia. simpl. f_equal. lia.
    + assert (Z.testbit (Z.b2z (bit bitsperlong b (32 * c + j))) k = false) as ->.
      { destruct (bit _ _ _); [|apply Z.bits_0]. apply Z.bits_above_log2; simpl; lia. }
      rewrite orb_false_r. destruct (Z.ltb_spec k 32).
      * rewrite Z.mod_pow2_bits_low, Z.shiftl_spec, Hs by lia. replace (32 * c + (j + 1) + (k - 1)) with (32 * c + j + k) by lia. f_equal.
        destruct (Z.ltb_spec (k - 1) (32 - (j + 1))), (Z.ltb_spec k (32 - j)); lia || done.
      * rewrite Z.mod_pow2_bits_high by lia. by rewrite (proj2 (Z.ltb_ge _ _)) by lia.
  - f_equal. apply Z.bits_inj'. intros k Hk. rewrite Hr, chunk_of_bit by lia. f_equal; f_equal; lia.
Qed.
(** The words of the chunks below [n]. *)
Fixpoint hex_text (b : bitmask) (n : nat) (sep : cstr) : cstr :=
  match n with O => [] | S n' => sep ++ hexn 8 (chunk_of b (Z.of_nat n')) ++ hex_text b n' (str ",") end.

Lemma chunk_number b c : number (chunk_of b c).
Proof. unfold number, chunk_of. apply Z.mod_pos_bound. lia. Qed.

Lemma hex_text_length b n sep : Z.of_nat (length (hex_text b n sep)) = if (n =? 0)%nat then 0 else 9 * Z.of_nat n - 1 + Z.of_nat (length sep).
Proof.
  revert sep. induction n as [|n IH]; intros sep; [done|]. cbn [hex_text Nat.eqb]. rewrite !length_app, !Nat2Z.inj_add, IH.
  rewrite (proj1 (hexn_spec 8 _ [] 0 (proj1 (chunk_number b (Z.of_nat n))))). change (Z.of_nat (length (str ","))) with 1.
  destruct (Nat.eqb_spec n 0); lia.
Qed.

Lemma displayhex_loop buflen b : wf bitsperlong b -> forall n full sep, 32 * Z.of_nat n <= 2 ^ 31 ->
  exists sep', for_down n
    (fun chunk '(buf, cnt, sep) =>
       val ← chunk_val bitsperlong b chunk;
       let '(buf, cnt) := snprintf_at buflen (buf, cnt) (sep ++ hexn HEXCHARSZ val) in
       Ok (buf, cnt, str ","))
    (written buflen full, sep) = Ok (written buflen (full ++ hex_text b n sep), sep').
Proof using Hbpl.
  intros Hwf. induction n as [|n IH]; intros full sep Hn; cbn [for_down hex_text]; [exists sep; by rewrite app_nil_r|].
  unfold written at 1. rewrite chunk_val_ok by (done || lia). cbn [mbind res_bind].
  change (take _ full, _) with (written buflen full). rewrite snprintf_written.
  change (hexn HEXCHARSZ (chunk_of b (Z.of_nat n))) with (hexn 8 (chunk_of b (Z.of_nat n))).
  destruct (IH (full ++ sep ++ hexn 8 (chunk_of b (Z.of_nat n))) (str ",")) as (sep' & E); [lia|].
  exists sep'. unfold written in *. cbn [mbind res_bind]. rewrite E. by rewrite <-!app_assoc.
Qed.

Lemma rest_ok_hex b n : rest_ok (hex_text b n (str ",")).
Proof. by destruct n. Qed.

Lemma nexttoken_hex b n : nexttoken (Some (hex_text b (S n) [])) ","%ch = match n with O => None | S _ => Some (hex_text b n []) end.
Proof.
  unfold nexttoken. assert (strchr (hex_text b (S n) []) ","%ch = strchr (hex_text b n (str ",")) ","%ch) as ->.
  { cbn [hex_text app]. destruct (hexn_spec 8 _ [] 0 (proj1 (chunk_number b (Z.of_nat n)))) as (_ & Ha & _).
    induction (hexn 8 (chunk_of b (Z.of_nat n))) as [|c ds IHd]; [done|]. cbn [forallb] in Ha. apply andb_true_iff in Ha as [Hc Ha].
    cbn [app strchr]. rewrite (proj2 (proj2 (proj2 (proj2 (proj2 (hex_not_special c Hc)))))). by apply IHd. }
  rewrite strchr_comma by apply rest_ok_hex. destruct n; [done|]. cbn [hex_text]. done.
Qed.

Definition hex_q (b : bitmask) (n : nat) : option cstr := match n with O => None | S _ => Some (hex_text b n []) end.

Lemma count_tokens_hex b : forall n fuel, (n < fuel)%nat -> count_tokens fuel (hex_q b n) = Z.of_nat n.
Proof.
  induction n as [|n IH]; intros fuel Hf; (destruct fuel as [|fuel]; [lia|]); [done|].
  cbn [count_tokens hex_q]. rewrite nexttoken_hex. fold (hex_q b n). rewrite IH by lia. lia.
Qed.

(** The bits of a word are stored into their places. *)
Lemma chunk_bits_ok sz val c p h : 0 <= c -> 32 * c + 32 <= sz -> sz <= 2 ^ 31 -> forall k b0, (k <= 32)%nat -> wf bitsperlong b0 ->
  exists b', chunk_bits bitsperlong k sz val c p (<[p := b0]> h) = Ok (Parsed (<[p := b']> h)) /\ wf bitsperlong b' /\ size b' = size b0 /\
    forall m, 0 <= m < size b0 -> bit bitsperlong b' m =
      if (32 * c <=? m) && (m <? 32 * c + Z.of_nat k) then Z.testbit val (m - 32 * c) else bit bitsperlong b0 m.
Proof using Hbpl.
  intros Hc Hsz Hsz'. induction k as [|k IH]; intros b0 Hk Hwf; cbn [chunk_bits].
  - exists b0. split_and!; try done. intros m Hm. change (Z.of_nat 0) with 0.
    destruct (Z.leb_spec (32 * c) m), (Z.ltb_spec m (32 * c + 0)); simpl; lia || done.
  - rewrite bit_pos_ok by lia. cbn [mbind res_bind]. rewrite (proj2 (Z.leb_gt _ _)) by lia. rewrite shiftr_bit by lia.
    destruct (setbit_at_ok h p b0 (32 * c + Z.of_nat k) (Z.testbit val (Z.of_nat k)) Hwf) as (b1 & -> & Hwf1 & Hs1 & Hb1); [lia|].
    cbn [mbind res_bind]. destruct (IH b1 ltac:(lia) Hwf1) as (b' & -> & Hwf' & Hs' & Hb'). exists b'. split_and!; [done|done|congruence|].
    intros m Hm. rewrite Hb', Hb1 by lia. destruct (Z.eqb_spec m (32 * c + Z.of_nat k)) as [E|E].
    + rewrite (proj2 (Z.ltb_ge m (32 * c + Z.of_nat k))), andb_false_r by lia.
      rewrite (proj2 (Z.leb_le _ _)), (proj2 (Z.ltb_lt _ _)), (proj2 (Z.ltb_lt _ _)) by lia. simpl. f_equal. lia.
    + simpl. destruct (Z.ltb_spec m (32 * c + Z.of_nat k)), (Z.ltb_spec m (32 * c + Z.of_nat (S k))); lia || done.
Qed.

Lemma parsehex_loop_ok b sz p h : sz <= 2 ^ 31 -> forall n fuel b0, 32 * Z.of_nat n <= sz -> (n <= fuel)%nat -> wf bitsperlong b0 ->
  exists b', parsehex_loop bitsperlong fuel sz (Z.of_nat n - 1) (hex_q b n) p (<[p := b0]> h) = Ok (Parsed (<[p := b']> h)) /\
    wf bitsperlong b' /\ size b' = size b0 /\
    forall m, 0 <= m < size b0 -> bit bitsperlong b' m = if m <? 32 * Z.of_nat n then bit bitsperlong b m else bit bitsperlong b0 m.
Proof using Hbpl.
  intros Hsz. induction n as [|n IH]; intros fuel b0 Hn Hf Hwf.
  { exists b0. destruct fuel; split_and!; try done; intros m Hm; by rewrite (proj2 (Z.ltb_ge _ _)) by lia. }
  destruct fuel as [|fuel]; [lia|]. cbn [parsehex_loop hex_q]. rewrite nexttoken_hex. fold (hex_q b n). cbn [hex_text app].
  pose proof (chunk_number b (Z.of_nat n)) as Hnum. rewrite strtoul_hex by (done || apply rest_ok_hex). cbn [st_val st_end].
  rewrite length_app, (proj1 (hexn_spec 8 _ [] 0 (proj1 Hnum))), Nat.add_sub. change ((8 <? 1)%nat || (HEXCHARSZ <? 8)%nat) with false. cbv iota.
  assert (match hex_q b n with Some t => negb (length (hex_text b n (str ",")) =? S (length t))%nat | None => false end = false) as ->.
  { destruct n; [done|]. cbn [hex_q hex_text]. rewrite !length_app. cbn [length app]. change (length (str ",")) with 1%nat. by rewrite Nat.eqb_refl. }
  rewrite uint_small by done. replace (Z.of_nat (S n) - 1) with (Z.of_nat n) by lia.
  destruct (chunk_bits_ok sz (chunk_of b (Z.of_nat n)) (Z.of_nat n) p h) with (k := 32%nat) (b0 := b0) as (b1 & -> & Hwf1 & Hs1 & Hb1); [lia..|done|].
  cbn [mbind res_bind]. destruct (IH fuel b1) as (b' & -> & Hwf' & Hs' & Hb'); [lia|lia|done|]. exists b'. split_and!; [done|done|congruence|].
  intros m Hm. rewrite Hb', Hb1 by lia. destruct (Z.ltb_spec m (32 * Z.of_nat n)); [by rewrite (proj2 (Z.ltb_lt _ _)) by lia|].
  rewrite (proj2 (Z.leb_le _ _)) by lia. simpl andb. replace (32 * Z.of_nat n + Z.of_nat 32) with (32 * Z.of_nat (S n)) by lia.
  destruct (Z.ltb_spec m (32 * Z.of_nat (S n))); [|done]. rewrite chunk_of_bit, (proj2 (Z.ltb_lt _ _)) by lia. simpl. f_equal. lia.
Qed.

Lemma hexchunks_ok b : wf bitsperlong b -> size b <= 2 ^ 31 ->
  hexchunks b = (size b + 31) / 32 /\ size b <= 32 * hexchunks b <= 2 ^ 31 /\
  32 * hexchunks b <= uint (longsperbits bitsperlong (size b) * 8 * (bitsperlong / 8)) <= 2 ^ 31.
Proof using Hbpl.
  intros Hwf Hsz. pose proof (wf_size _ _ Hwf). change (2 ^ 31) with 2147483648 in *.
  unfold hexchunks, HEXCHUNKSZ, longsperbits, howmany. change (32 - 1) with 31. rewrite uint_small by (change (2 ^ 32) with 4294967296; lia).
  split; [done|].
  assert (forall k, k = 32 \/ k = 64 -> (size b + (k - 1)) / k * 8 * (k / 8) <= 2147483648 /\ 32 * ((size b + 31) / 32) <= (size b + (k - 1)) / k * 8 * (k / 8)) as Hk.
  { intros k [->| ->]; change (32 / 8) with 4; change (64 / 8) with 8; Z.to_euclidean_division_equations; lia. }
  assert (size b <= 32 * ((size b + 31) / 32) <= 2147483648) by (Z.to_euclidean_division_equations; lia).
  destruct (Hk bitsperlong Hbpl). unfold wrap_u.
  rewrite (Z.mod_small (size b + (bitsperlong - 1))) by (destruct Hbpl; subst; [change (2 ^ 32) with 4294967296|change (2 ^ 64) with 18446744073709551616]; lia).
  rewrite uint_small; [lia|]. change (2 ^ 32) with 4294967296. lia.
Qed.

(** The hexadecimal form of a mask, nine characters per word of 32 bits less
    the first comma, cut to the buffer with its full length returned, is read
    back into a mask of the same size as the same bits. *)
Theorem displayhex_roundtrip p h b b1 :
  wf bitsperlong b -> 0 < size b <= 2 ^ 31 -> h !! p = Some b1 -> wf bitsperlong b1 -> size b1 = size b ->
  exists text b',
    (forall buflen, 0 < buflen ->
       bitmask_displayhex bitsperlong buflen b = Ok (9 * ((size b + 31) / 32) - 1, Some (take (Z.to_nat (buflen - 1)) text))) /\
    Z.of_nat (length text) = 9 * ((size b + 31) / 32) - 1 /\
    bitmask_parsehex bitsperlong text p h = Ok (0, <[p := b']> h) /\
    wf bitsperlong b' /\ size b' = size b /\ value bitsperlong b' = value bitsperlong b.
Proof using Hbpl.
  intros Hwf Hsz Hp Hwf1 Hs1. destruct (hexchunks_ok b Hwf (proj2 Hsz)) as (Hch & Hcb & Hsb).
  set (n := Z.to_nat (hexchunks b)). assert (Hn : Z.of_nat n = hexchunks b) by lia.
  pose proof (hex_text_length b n []) as Hlen. rewrite (proj2 (Nat.eqb_neq _ _)) in Hlen by lia. change (Z.of_nat (length (@nil Z))) with 0 in Hlen.
  exists (hex_text b n []). unfold bitmask_parsehex.
  destruct (clearall_ok h p b1 Hp Hwf1) as (b0 & -> & Hwf0 & Hs0 & Hv0). cbn [mbind res_bind]. unfold load. rewrite lookup_insert_eq.
  cbn [or_fault mbind res_bind]. rewrite Hs0, Hs1. assert (Some (hex_text b n []) = hex_q b n) as -> by (destruct n; [lia|done]).
  rewrite count_tokens_hex by lia.
  destruct (parsehex_loop_ok b (uint (longsperbits bitsperlong (size b) * 8 * (bitsperlong / 8))) p h (proj2 Hsb) n (S (length (hex_text b n []))) b0)
    as (b' & -> & Hwf' & Hs' & Hb'); [lia|lia|done|]. exists b'. cbn [mbind res_bind]. split_and!; [|lia|done|done|congruence|].
  - intros buflen Hbl. unfold bitmask_displayhex. rewrite (proj2 (Z.ltb_ge _ _)) by lia. fold n.
    destruct (displayhex_loop buflen b Hwf n [] []) as (sep' & E); [lia|]. unfold written in E. rewrite take_nil in E.
    change (Z.of_nat (length (@nil Z))) with 0 in E. rewrite E. cbn [mbind res_bind]. rewrite app_nil_l, Hlen. do 2 f_equal. lia.
  - apply Z.bits_inj'. intros m Hm. change (bit bitsperlong b' m = bit bitsperlong b m). destruct (Z.ltb_spec m (size b)).
    + rewrite Hb' by lia. by rewrite (proj2 (Z.ltb_lt _ _)) by lia.
    + rewrite !bit_above by (done || lia). done.
Qed.
End Spec.

(** ** Examples and witnesses *)

(** The masks that the text [s] leaves at address 1, the one of 70 bits there. *)
Definition parsed (s : string) : res unit (option (Z * option bitmask)) :=
  o ← bitmask_parselist 64 70 (str s) 1 {[1%nat := mkBitmask 70 [7; 1]]};
  Ok (match o with Some (ret, h) => Some (ret, h !! 1%nat) | None => None end).

Example parselist_ex :
  map parsed ["1,3-9:2,66"; "0-3:2,8-15:4"; "5-3"; "0-70"; "0-3:0"; ""; "2-6:4294967295"]%string =
  [Ok (Some (0, Some (mkBitmask 70 [682; 4]))); Ok (Some (0, Some (mkBitmask 70 [4357; 0])));
   Ok (Some (-1, Some (mkBitmask 70 [0; 0]))); Ok (Some (-1, Some (mkBitmask 70 [0; 0])));
   Ok None; Ok (Some (-1, Some (mkBitmask 70 [0; 0]))); Ok (Some (0, Some (mkBitmask 70 [7; 0])))].
Proof. vm_compute. reflexivity. Qed.

Example display_ex :
  bitmask_displaylist 64 30 (mkBitmask 70 [12; 33]) = Ok (9, str "2-3,64,69") /\
  bitmask_displaylist 64 4 (mkBitmask 70 [12; 33]) = Ok (9, str "2-3") /\
  bitmask_displayhex 64 30 (mkBitmask 70 [12; 33]) = Ok (26, Some (str "00000021,00000000,0000000c")).
Proof. vm_compute. done. Qed.

Definition ex_mask : bitmask := mkBitmask 70 [12; 33].
Definition ex_masks : store := {[1%nat := mkBitmask 70 [7; 1]]}.

Lemma ex_mask_wf w : w = [12; 33] \/ w = [7; 1] -> wf 64 (mkBitmask 70 w).
Proof.
  intros Hw. assert (Hl : forall x, 0 <= x <= 33 -> long_ok 64 x) by (unfold long_ok; change (2 ^ 64) with 18446744073709551616; lia).
  destruct Hw as [->| ->]; split; (done || (simpl; lia) || (repeat constructor; apply Hl; lia)).
Qed.

Lemma parselist_terminates_witness :
  match bitmask_parselist 64 70 (str "1,0-3:0") 1 ex_masks with
  | Ok None => zero_stride 64 8 70 (Some (str "1,0-3:0")) = true
  | Ok (Some (ret, h')) =>
      zero_stride 64 8 70 (Some (str "1,0-3:0")) = false /\
      exists b', h' = <[1%nat := b']> ex_masks /\ wf 64 b' /\ size b' = 70 /\ (ret = 0 \/ (ret = -1 /\ value 64 b' = 0))
  | _ => False
  end.
Proof.
  exact (parselist_terminates 64 (or_intror eq_refl) 70 (str "1,0-3:0") 1 ex_masks (mkBitmask 70 [7; 1])
    eq_refl (ex_mask_wf _ (or_intror eq_refl)) ltac:(done) ltac:(done)).
Defined.

Lemma parselist_correct_witness :
  (exists b', bitmask_parselist 64 70 (render [Num 1; Stride 3 9 2; Range 60 66]) 1 ex_masks = Ok (Some (0, <[1%nat := b']> ex_masks)) /\
    wf 64 b' /\ size b' = 70 /\ forall m, 0 <= m -> bit 64 b' m = existsb (in_term m) [Num 1; Stride 3 9 2; Range 60 66]) /\
  (exists b', bitmask_parselist 64 70 (render [Range 5 3; Num 2]) 1 ex_masks = Ok (Some (-1, <[1%nat := b']> ex_masks)) /\
    wf 64 b' /\ size b' = 70 /\ value 64 b' = 0).
Proof.
  refine (parselist_correct 64 (or_intror eq_refl) 70 1 ex_masks (mkBitmask 70 [7; 1]) [Num 1; Stride 3 9 2; Range 60 66] [] (Range 5 3) [Num 2]
    eq_refl (ex_mask_wf _ (or_intror eq_refl)) ltac:(done) ltac:(done) _ _ _ _).
  - repeat constructor; simpl; lia.
  - constructor.
  - unfold numbers, number. simpl. lia.
  - simpl. lia.
Defined.

Lemma displaylist_roundtrip_witness :
  exists text b',
    (forall buflen, bitmask_displaylist 64 buflen ex_mask = Ok (Z.of_nat (length text), take (Z.to_nat (buflen - 1)) text)) /\
    bitmask_parselist 64 70 text 1 ex_masks = Ok (Some (if value 64 ex_mask =? 0 then -1 else 0, <[1%nat := b']> ex_masks)) /\
    wf 64 b' /\ size b' = 70 /\ value 64 b' = value 64 ex_mask.
Proof.
  exact (displaylist_roundtrip 64 (or_intror eq_refl) 70 1 ex_masks ex_mask (mkBitmask 70 [7; 1])
    (ex_mask_wf _ (or_introl eq_refl)) ltac:(done) eq_refl (ex_mask_wf _ (or_intror eq_refl)) eq_refl ltac:(done)).
Defined.

Lemma displayhex_roundtrip_witness :
  exists text b',
    (forall buflen, 0 < buflen ->
       bitmask_displayhex 64 buflen ex_mask = Ok (9 * ((70 + 31) / 32) - 1, Some (take (Z.to_nat (buflen - 1)) text))) /\
    Z.of_nat (length text) = 9 * ((70 + 31) / 32) - 1 /\
    bitmask_parsehex 64 text 1 ex_masks = Ok (0, <[1%nat := b']> ex_masks) /\
    wf 64 b' /\ size b' = 70 /\ value 64 b' = value 64 ex_mask.
Proof.
  exact (displayhex_roundtrip 64 (or_intror eq_refl) 1 ex_masks ex_mask (mkBitmask 70 [7; 1])
    (ex_mask_wf _ (or_introl eq_refl)) ltac:(done) eq_refl (ex_mask_wf _ (or_intror eq_refl)) eq_refl).
Defined.
