(* ===== verification/BitmaskSafe.v ===== *)
(** * Programs on bit masks

    Every sequence of calls of the functions of [libbitmask.c] on allocated masks
    runs without undefined behaviour and keeps the masks well-formed. *)

From stdpp Require Import base list strings gmap.
From Stdlib Require Import ZArith Lia.
From S2P Require Import Prelude ParseNum Bitmask BitmaskText.

Local Open Scope Z_scope.

(** A call of a function that does not change masks. *)
Inductive query : Set :=
| Displayhex (buflen : Z) (p : nat)
| Displaylist (buflen : Z) (p : nat)
| Nbytes (p : nat)
| Mask (p : nat)
| Nbits (p : nat)
| Weight (p : nat)
| Isbitset (p : nat) (i : Z)
| Isbitclear (p : nat) (i : Z)
| Isallset (p : nat)
| Isallclear (p : nat)
| Equal (p1 p2 : nat)
| Subset (p1 p2 : nat)
| Disjoint (p1 p2 : nat)
| Intersects (p1 p2 : nat)
| First (p : nat)
| Next (p : nat) (i : Z)
| Rel_to_abs_pos (p : nat) (n : Z)
| Abs_to_rel_pos (p : nat) (n : Z)
| Last (p : nat).

(** A call. [Alloc]: [p] is where [malloc]
    puts the mask. *)
Inductive call : Set :=
| Alloc (n : Z) (p : option nat) (calloc_ok : bool)
| Free (p : option nat)
| Copy (p1 p2 : nat)
| Setall (p : nat)
| Clearall (p : nat)
| Setbit (p : nat) (i : Z)
| Clearbit (p : nat) (i : Z)
| Setrange (p : nat) (i j : Z)
| Clearrange (p : nat) (i j : Z)
| Keeprange (p : nat) (i j : Z)
| Complement (p1 p2 : nat)
| Shiftright (p1 p2 : nat) (n : Z)
| Shiftleft (p1 p2 : nat) (n : Z)
| And (p1 p2 p3 : nat)
| Andnot (p1 p2 p3 : nat)
| Or (p1 p2 p3 : nat)
| Eor (p1 p2 p3 : nat)
| Parsehex (buf : cstr) (p : nat)
| Parselist (buf : cstr) (p : nat)
| Ask (q : query).

Section Calls.
Context (bitsperlong : Z).

(** The answers are of no interest here. [len] of [bitmask_displaylist] is an [int]
    that only grows: the additions overflow if the sum does. *)
Definition run_query (q : query) (h : store) : res unit unit :=
  match q with
  | Displayhex buflen p => b ← load h p; _ ← bitmask_displayhex bitsperlong buflen b; Ok tt
  | Displaylist buflen p => b ← load h p; '(len, _) ← bitmask_displaylist bitsperlong buflen b; if in_int len then Ok tt else Fault
  | Nbytes p => _ ← bitmask_nbytes bitsperlong h p; Ok tt
  | Mask p => _ ← bitmask_mask h p; Ok tt
  | Nbits p => _ ← bitmask_nbits h p; Ok tt
  | Weight p => _ ← bitmask_weight bitsperlong h p; Ok tt
  | Isbitset p i => _ ← bitmask_isbitset bitsperlong h p i; Ok tt
  | Isbitclear p i => _ ← bitmask_isbitclear bitsperlong h p i; Ok tt
  | Isallset p => _ ← bitmask_isallset bitsperlong h p; Ok tt
  | Isallclear p => _ ← bitmask_isallclear bitsperlong h p; Ok tt
  | Equal p1 p2 => _ ← bitmask_equal bitsperlong h p1 p2; Ok tt
  | Subset p1 p2 => _ ← bitmask_subset bitsperlong h p1 p2; Ok tt
  | Disjoint p1 p2 => _ ← bitmask_disjoint bitsperlong h p1 p2; Ok tt
  | Intersects p1 p2 => _ ← bitmask_intersects bitsperlong h p1 p2; Ok tt
  | First p => b ← load h p; _ ← bitmask_first bitsperlong b; Ok tt
  | Next p i => b ← load h p; _ ← bitmask_next bitsperlong b i; Ok tt
  | Rel_to_abs_pos p n => b ← load h p; _ ← bitmask_rel_to_abs_pos bitsperlong b n; Ok tt
  | Abs_to_rel_pos p n => b ← load h p; _ ← bitmask_abs_to_rel_pos bitsperlong b n; Ok tt
  | Last p => b ← load h p; _ ← bitmask_last bitsperlong b; Ok tt
  end.

Definition returns (r : res unit store) : res unit (option store) := h ← r; Ok (Some h).
(** [None]: a range of [bitmask_parselist] is not done after [steps] bits. *)
Definition run_call (steps : nat) (c : call) (h : store) : res unit (option store) :=
  match c with
  | Alloc n p ok => Ok (Some (bitmask_alloc bitsperlong h n p ok).1)
  | Free p => Ok (Some (bitmask_free h p))
  | Copy p1 p2 => returns (bitmask_copy bitsperlong h p1 p2)
  | Setall p => returns (bitmask_setall bitsperlong h p)
  | Clearall p => returns (bitmask_clearall bitsperlong h p)
  | Setbit p i => returns (bitmask_setbit bitsperlong h p i)
  | Clearbit p i => returns (bitmask_clearbit bitsperlong h p i)
  | Setrange p i j => returns (bitmask_setrange bitsperlong h p i j)
  | Clearrange p i j => returns (bitmask_clearrange bitsperlong h p i j)
  | Keeprange p i j => returns (bitmask_keeprange bitsperlong h p i j)
  | Complement p1 p2 => returns (bitmask_complement bitsperlong h p1 p2)
  | Shiftright p1 p2 n => returns (bitmask_shiftright bitsperlong h p1 p2 n)
  | Shiftleft p1 p2 n => returns (bitmask_shiftleft bitsperlong h p1 p2 n)
  | And p1 p2 p3 => returns (bitmask_and bitsperlong h p1 p2 p3)
  | Andnot p1 p2 p3 => returns (bitmask_andnot bitsperlong h p1 p2 p3)
  | Or p1 p2 p3 => returns (bitmask_or bitsperlong h p1 p2 p3)
  | Eor p1 p2 p3 => returns (bitmask_eor bitsperlong h p1 p2 p3)
  | Parsehex buf p => returns ('(_, h) ← bitmask_parsehex bitsperlong buf p h; Ok h)
  | Parselist buf p => o ← bitmask_parselist bitsperlong steps buf p h; Ok (option_map snd o)
  | Ask q => _ ← run_query q h; Ok (Some h)
  end.

Definition is_uint (z : Z) : bool := (0 <=? z) && (z <=? UINT_MAX).

(** The masks that a call is given are allocated, its numbers are of type
    [unsigned int], and [malloc] returns a new address. On a machine with longs
    of 32 bits a mask must leave room for rounding up its size. The numbers of
    bits and characters that functions on text keep in an [int] must fit: a mask that
    is displayed has at most 2 to the 31 bits, or 2 to the 25 for a list, and a text
    that is parsed as words is shorter than 2 to the 26. *)
Definition allocated (h : store) (p : nat) : bool := bool_decide (is_Some (h !! p)).
Definition at_most (h : store) (p : nat) (n : Z) : bool := match h !! p with Some b => size b <=? n | None => false end.
Definition valid_query (q : query) (h : store) : bool :=
  match q with
  | Displayhex _ p => at_most h p (2 ^ 31)
  | Displaylist _ p => at_most h p (2 ^ 25)
  | Nbytes p | Mask p | Nbits p | Weight p | Isallset p | Isallclear p | First p | Last p => allocated h p
  | Isbitset p i | Isbitclear p i | Next p i | Rel_to_abs_pos p i | Abs_to_rel_pos p i => allocated h p && is_uint i
  | Equal p1 p2 | Subset p1 p2 | Disjoint p1 p2 | Intersects p1 p2 => allocated h p1 && allocated h p2
  end.
Definition valid (c : call) (h : store) : bool :=
  match c with
  | Alloc n (Some p) _ => is_uint n && (n + (bitsperlong - 1) <? 2 ^ bitsperlong) && negb (allocated h p)
  | Alloc n None _ => is_uint n
  | Free (Some p) => allocated h p
  | Free None => true
  | Setall p | Clearall p => allocated h p
  | Setbit p i | Clearbit p i => allocated h p && is_uint i
  | Setrange p i j | Clearrange p i j | Keeprange p i j => allocated h p && is_uint i && is_uint j
  | Copy p1 p2 | Complement p1 p2 => allocated h p1 && allocated h p2
  | Shiftright p1 p2 n | Shiftleft p1 p2 n => allocated h p1 && allocated h p2 && is_uint n
  | And p1 p2 p3 | Andnot p1 p2 p3 | Or p1 p2 p3 | Eor p1 p2 p3 => allocated h p1 && allocated h p2 && allocated h p3
  | Parsehex buf p => allocated h p && (Z.of_nat (length buf) <? 2 ^ 26)
  | Parselist _ p => allocated h p
  | Ask q => valid_query q h
  end.

(** How a program ends: behind its last call, before a call that is not valid, or
    never. *)
Inductive ending : Type := Done (h : store) | Invalid (c : call) (h : store) | Loops (c : call).
Fixpoint run_calls (steps : nat) (cs : list call) (h : store) : res unit ending :=
  match cs with
  | [] => Ok (Done h)
  | c :: cs' =>
      if valid c h then o ← run_call steps c h; match o with Some h' => run_calls steps cs' h' | None => Ok (Loops c) end
      else Ok (Invalid c h)
  end.
End Calls.

Section Safe.
Context (bitsperlong : Z) (Hbpl : bitsperlong = 32 \/ bitsperlong = 64).
Abbreviation wf := (wf bitsperlong).
Abbreviation wf_store := (wf_store bitsperlong).
Abbreviation only_mask := (only_mask bitsperlong).

(** What a call on mask [p] does. *)
Definition touches (h : store) (p : nat) (r : res unit store) : Prop :=
  exists b h', h !! p = Some b /\ r = Ok h' /\ only_mask h p b h'.

Lemma touches_wf h p r : wf_store h -> touches h p r -> exists h', r = Ok h' /\ wf_store h'.
Proof.
  intros Hw (b & h' & Hp & -> & b' & -> & Hwf & _). eexists. split; [done|]. intros q c.
  rewrite lookup_insert_Some. intros [[<- <-]|[_ H]]; [done|]. by eapply Hw.
Qed.

Lemma assigns_touches h p b z r : h !! p = Some b -> assigns bitsperlong h p b z r -> touches h p r.
Proof. intros Hp (b' & -> & Hwf & Hs & _). exists b. eexists. split; [done|]. split; [done|]. by exists b'. Qed.

Lemma getbit_safe (h : store) p i : wf_store h -> allocated h p = true -> 0 <= i -> exists v, getbit_at bitsperlong h p i = Ok v.
Proof using Hbpl.
  intros Hw Hp Hi. apply bool_decide_eq_true in Hp as [b Hb]. unfold getbit_at, load. rewrite Hb. cbn [or_fault mbind res_bind].
  rewrite getbit_ok by (done || by eapply Hw). eauto.
Qed.

(** The body of a loop that stores bits into [p]. *)
Definition stores (h : store) (p : nat) (b : bitmask) (body : Z -> store -> res unit store) : Prop :=
  forall i h', 0 <= i -> only_mask h p b h' -> exists h'', body i h' = Ok h'' /\ only_mask h p b h''.

Lemma store_bit h p b (f : store -> Z -> res unit bool) :
  (forall i h', 0 <= i -> only_mask h p b h' -> exists v, f h' i = Ok v) ->
  stores h p b (fun i h => v ← f h i; setbit_at bitsperlong h p i v).
Proof using Hbpl.
  intros Hf i h' Hi Hm. destruct (Hf i h' Hi Hm) as (v & ->). cbn [mbind res_bind]. destruct Hm as (b' & -> & Hwf & Hs).
  destruct (setbit_at_ok bitsperlong Hbpl h p b' i v Hwf Hi) as (b'' & -> & Hwf' & Hs' & _).
  eexists. split; [done|]. exists b''. split_and!; try done. congruence.
Qed.

Lemma only_mask_refl h p b : h !! p = Some b -> wf b -> only_mask h p b h.
Proof. intros Hp Hwf. exists b. by rewrite insert_id. Qed.

Lemma only_mask_wf h p b h' : wf_store h -> only_mask h p b h' -> wf_store h'.
Proof. intros Hw (b' & -> & Hwf & _) q c. rewrite lookup_insert_Some. intros [[<- <-]|[_ H]]; [done|]. by eapply Hw. Qed.

Lemma only_mask_alloc h p b h' q : only_mask h p b h' -> allocated h q = true -> allocated h' q = true.
Proof.
  intros (b' & -> & _) Hq. apply bool_decide_eq_true in Hq as [c Hc]. apply bool_decide_eq_true.
  destruct (decide (p = q)) as [->|]; [rewrite lookup_insert_eq|rewrite lookup_insert_ne by done]; eauto.
Qed.

Lemma assign_touches h p b (f : store -> Z -> res unit bool) : wf_store h -> h !! p = Some b ->
  (forall i h', 0 <= i -> only_mask h p b h' -> exists v, f h' i = Ok v) -> touches h p (assign bitsperlong h p f).
Proof using Hbpl.
  intros Hw Hp Hf. exists b. unfold assign, load. rewrite Hp. cbn [or_fault mbind res_bind].
  destruct (for_up_inv (fun _ h' => only_mask h p b h') (fun i h => v ← f h i; setbit_at bitsperlong h p i v) (Z.to_nat (size b)) 0 h)
    as (h' & E & Hm); [apply only_mask_refl; [done|by eapply Hw]| |eauto].
  intros j h' Hj Hm. apply (store_bit h p b f Hf j h'); [lia|done].
Qed.

Lemma shiftleft_touches h p1 p2 b n : wf_store h -> h !! p1 = Some b -> allocated h p2 = true ->
  touches h p1 (bitmask_shiftleft bitsperlong h p1 p2 n).
Proof using Hbpl.
  intros Hw Hp H2. exists b. unfold bitmask_shiftleft, load. rewrite Hp. cbn [or_fault mbind res_bind].
  destruct (for_down_inv (fun _ h' => only_mask h p1 b h')
    (fun i h => v ← getbit_at bitsperlong h p2 (uint (i - n)); setbit_at bitsperlong h p1 i v) (Z.to_nat (wrap_s 32 (size b - 1) + 1)) h)
    as (h' & E & Hm); [apply only_mask_refl; [done|by eapply Hw]| |eauto].
  intros j h' Hj Hm. apply (store_bit h p1 b (fun h i => getbit_at bitsperlong h p2 (uint (i - n)))); [|lia|done].
  intros i h'' Hi Hm'. apply getbit_safe; [by eapply only_mask_wf|by eapply only_mask_alloc|]. apply uint_number.
Qed.

Lemma binop_touches op h p1 p2 p3 b : wf_store h -> h !! p1 = Some b -> allocated h p2 = true -> allocated h p3 = true ->
  touches h p1 (binop bitsperlong op h p1 p2 p3).
Proof using Hbpl.
  intros Hw Hp H2 H3. apply (assign_touches h p1 b); [done|done|]. intros i h' Hi Hm.
  destruct (getbit_safe h' p2 i) as (x & ->); [by eapply only_mask_wf|by eapply only_mask_alloc|done|].
  destruct (getbit_safe h' p3 i) as (y & ->); [by eapply only_mask_wf|by eapply only_mask_alloc|done|]. cbn [mbind res_bind]. eauto.
Qed.

Lemma setbit_touches h p b i v : wf_store h -> h !! p = Some b -> 0 <= i -> touches h p (setbit_at bitsperlong h p i v).
Proof using Hbpl.
  intros Hw Hp Hi. exists b. destruct (store_bit h p b (fun _ _ => Ok v)) with (i := i) (h' := h) as (h' & E & Hm);
    [eauto|done|apply only_mask_refl; [done|by eapply Hw]|]. cbn [mbind res_bind] in E. eauto.
Qed.

(** A new mask has the longs that its size needs. *)
Lemma alloc_wf n : is_uint n = true -> n + (bitsperlong - 1) < 2 ^ bitsperlong ->
  wf (mkBitmask n (repeat 0 (Z.to_nat (longsperbits bitsperlong n)))).
Proof using Hbpl.
  intros Hn Hr. unfold is_uint in Hn. apply andb_true_iff in Hn as [H0%Z.leb_le H1%Z.leb_le].
  assert (Hz : forall k, longs_value bitsperlong (repeat 0 k) = 0) by (induction k as [|k IH]; simpl; [done|rewrite IH; lia]).
  split; cbn [size maskp].
  - done.
  - induction (Z.to_nat _) as [|k IH]; simpl; constructor; [|done]. unfold long_ok. destruct Hbpl; subst; lia.
  - rewrite repeat_length. unfold longsperbits, howmany, wrap_u. rewrite Z.mod_small by (destruct Hbpl; subst; lia).
    assert (0 <= (n + (bitsperlong - 1)) / bitsperlong) by (apply Z.div_pos; destruct Hbpl; lia).
    rewrite Z2Nat.id by done. destruct Hbpl; subst; Z.to_euclidean_division_equations; lia.
  - unfold value. cbn [maskp]. rewrite Hz. lia.
Qed.
(** *** Parsing of any text *)

Lemma count_tokens_bound : forall fuel q, 0 <= count_tokens fuel q <= Z.of_nat (q_length q).
Proof.
  induction fuel as [|fuel IH]; intros q; cbn [count_tokens]; [lia|]. destruct q as [s|]; [|simpl; lia].
  specialize (IH (nexttoken (Some s) ","%ch)). destruct (nexttoken (Some s) ","%ch) eqn:E; simpl in *; [apply nexttoken_shorter in E|]; lia.
Qed.

Definition ends (h : store) (p : nat) (b : bitmask) (r : res unit outcome) : Prop :=
  exists o, r = Ok o /\ match o with Parsed h' | Rejected h' => only_mask h p b h' | Running => False end.

Lemma chunk_bits_total sz val c h p b : 0 <= c -> 32 * c + 32 <= 2 ^ 31 -> forall k h', (k <= 32)%nat -> only_mask h p b h' ->
  ends h p b (chunk_bits bitsperlong k sz val c p h').
Proof using Hbpl.
  intros Hc Hb. induction k as [|k IH]; intros h' Hk Hm; cbn [chunk_bits]; [by eexists; split; [done|]|].
  rewrite bit_pos_ok by lia. cbn [mbind res_bind]. destruct (sz <=? _); [by eexists; split; [done|]|].
  destruct (store_bit h p b (fun _ _ => Ok (negb (Z.land (Z.shiftr val (Z.of_nat k)) 1 =? 0)))) with (i := 32 * c + Z.of_nat k) (h' := h')
    as (h'' & E & Hm'); [eauto|lia|done|]. cbn [mbind res_bind] in E. rewrite E. cbn [mbind res_bind]. apply IH; [lia|done].
Qed.

Lemma parsehex_loop_total sz h p b : forall fuel q h', (q_length q <= fuel)%nat -> count_tokens fuel q <= 2 ^ 26 -> only_mask h p b h' ->
  ends h p b (parsehex_loop bitsperlong fuel sz (count_tokens fuel q - 1) q p h').
Proof using Hbpl.
  change (2 ^ 26) with 67108864.
  induction fuel as [|fuel IH]; intros q h' Hq Hc Hm; (destruct q as [s|]; [|by eexists; split; [done|]]); [simpl in Hq; lia|].
  cbn [parsehex_loop count_tokens] in *. destruct (_ || _); [by eexists; split; [done|]|]. case_match; [by eexists; split; [done|]|].
  pose proof (count_tokens_bound fuel (nexttoken (Some s) ","%ch)) as Hb.
  destruct (chunk_bits_total sz (uint (st_val (strtoul bitsperlong 16 s))) (1 + count_tokens fuel (nexttoken (Some s) ","%ch) - 1) h p b)
    with (k := 32%nat) (h' := h') as (o & -> & Ho); [lia|change (2 ^ 31) with 2147483648; lia|lia|done|]. cbn [mbind res_bind].
  destruct o as [h''|h''|]; [|by eexists; split; [done|]|done].
  replace (1 + count_tokens fuel (nexttoken (Some s) ","%ch) - 1 - 1) with (count_tokens fuel (nexttoken (Some s) ","%ch) - 1) by lia.
  apply IH; [|lia|done]. destruct (nexttoken (Some s) ","%ch) eqn:E; simpl in *; [apply nexttoken_shorter in E|]; lia.
Qed.

Lemma parsehex_touches h p b buf : wf_store h -> h !! p = Some b -> Z.of_nat (length buf) < 2 ^ 26 ->
  touches h p ('(_, h) ← bitmask_parsehex bitsperlong buf p h; Ok h).
Proof using Hbpl.
  intros Hw Hp Hl. exists b. unfold bitmask_parsehex. destruct (clearall_ok bitsperlong Hbpl h p b Hp (Hw _ _ Hp)) as (b0 & -> & Hwf0 & Hs0 & _).
  cbn [mbind res_bind]. unfold load. rewrite lookup_insert_eq. cbn [or_fault mbind res_bind].
  pose proof (count_tokens_bound (S (length buf)) (Some buf)) as Hb. cbn [q_length] in Hb.
  destruct (parsehex_loop_total (uint (longsperbits bitsperlong (size b0) * 8 * (bitsperlong / 8))) h p b (S (length buf)) (Some buf) (<[p := b0]> h))
    as (o & -> & Ho); [done|lia|by exists b0|]. cbn [mbind res_bind].
  destruct o as [h'|h'|]; [eexists; split_and!; [done|done|exact Ho]| |done]. destruct Ho as (b1 & -> & Hwf1 & Hs1).
  destruct (clearall_ok bitsperlong Hbpl (<[p := b1]> h) p b1) as (b2 & -> & Hwf2 & Hs2 & _); [by rewrite lookup_insert_eq|done|].
  cbn [mbind res_bind]. eexists. split_and!; [done|done|]. exists b2. rewrite insert_insert_eq. split_and!; try done. congruence.
Qed.

(** *** Calls *)

Lemma allocated_lookup (h : store) p : allocated h p = true -> exists b, h !! p = Some b.
Proof. intros [b H]%bool_decide_eq_true. eauto. Qed.

Lemma parselist_loop_safe steps p h : forall fuel q b0, wf b0 -> (q_length q <= fuel)%nat ->
  exists o, parselist_loop bitsperlong steps fuel q p (<[p := b0]> h) = Ok o /\ match o with Parsed h' | Rejected h' => only_mask h p b0 h' | Running => True end.
Proof using Hbpl.
  assert (Hid : forall b0, wf b0 -> only_mask h p b0 (<[p := b0]> h)) by (intros b0 ?; by exists b0).
  induction fuel as [|fuel IH]; intros q b0 Hwf Hq; (destruct q as [s|]; [|eexists; split; [reflexivity|by apply Hid]]); simpl in Hq; [lia|].
  cbn [parselist_loop]. unfold load. rewrite lookup_insert_eq. cbn [or_fault mbind res_bind].
  destruct (parse_term bitsperlong s) as [[[a b] st]|] eqn:Et; [|eexists; split; [reflexivity|by apply Hid]]. apply parse_term_numbers in Et as (Ha & Hb & Hs).
  destruct (_ || _); [eexists; split; [reflexivity|by apply Hid]|]. destruct (stride_total bitsperlong Hbpl b st p h steps a b0 Hwf (proj1 Ha)) as (o & -> & Ho). cbn [mbind res_bind].
  destruct o as [h'|]; [|by eexists]. destruct Ho as (b1 & -> & Hwf1 & Hs1). destruct (IH (nexttoken (Some s) ","%ch) b1 Hwf1) as (o & -> & Ho).
  { destruct (nexttoken (Some s) ","%ch) eqn:En; simpl; [apply nexttoken_shorter in En|]; lia. }
  exists o. split; [done|]. destruct o; [..|done]; destruct Ho as (b' & ? & ? & ?); exists b'; (split_and!; try done; congruence).
Qed.
Lemma parselist_safe steps h p b buf : wf_store h -> h !! p = Some b ->
  exists o, bitmask_parselist bitsperlong steps buf p h = Ok o /\ match o with Some (_, h') => wf_store h' | None => True end.
Proof using Hbpl.
  intros Hw Hp. unfold bitmask_parselist. destruct (clearall_ok bitsperlong Hbpl h p b Hp (Hw _ _ Hp)) as (b0 & -> & Hwf0 & _). cbn [mbind res_bind].
  destruct (parselist_loop_safe steps p h (S (length buf)) (Some buf) b0 Hwf0 ltac:(done)) as (o & -> & Ho). cbn [mbind res_bind]. destruct o as [h'|h'|]; [..|by eexists].
  - eexists. split; [done|]. by eapply only_mask_wf.
  - destruct Ho as (b1 & -> & Hwf1 & _). destruct (clearall_ok bitsperlong Hbpl (<[p := b1]> h) p b1) as (b2 & -> & Hwf2 & _); [by rewrite lookup_insert_eq|done|]. cbn [mbind res_bind]. eexists. split; [done|].
    rewrite insert_insert_eq. apply (only_mask_wf h p b2); [done|]. by exists b2.
Qed.

(** *** Queries *)

Lemma dec_bits z k : 0 <= z < 2 ^ k -> 0 < k -> Z.of_nat (length (dec z)) <= k.
Proof.
  intros Hz Hk. unfold dec. rewrite (proj2 (Z.ltb_ge z 0)), Z.abs_eq by lia. cbn [app]. pose proof (dec_digits_length (S (Z.to_nat (Z.log2 z))) z []) as H. cbn [length] in H.
  destruct (Z.eq_dec z 0) as [->|]; [cbn in *; lia|]. assert (Z.log2 z < k) by (apply Z.log2_lt_pow2; lia). pose proof (Z.log2_nonneg z). lia.
Qed.
Lemma emit_bound buflen rbot rtop st : 0 <= rbot < 2 ^ 25 -> 0 <= rtop < 2 ^ 25 -> 0 <= st.2 -> 0 <= (emit buflen rbot rtop st).2 <= st.2 + 52.
Proof.
  intros Hb Ht Hst. assert (Hsn : forall st s, (snprintf_at buflen st s).2 = st.2 + Z.of_nat (length s)) by (intros [? ?] s; done).
  pose proof (dec_bits rbot 25 Hb ltac:(lia)). pose proof (dec_bits rtop 25 Ht ltac:(lia)). unfold emit. rewrite !wrap_s_id by (change (2 ^ (32 - 1)) with 2147483648; change (2 ^ 25) with 33554432 in *; lia).
  destruct (0 <? st.2), (rbot =? rtop); rewrite ?Hsn, ?length_app; cbn [length str] in *; change (length (str ",")) with 1%nat; change (length (str "-")) with 1%nat; lia.
Qed.
Lemma displaylist_loop_safe buflen b : wf b -> size b <= 2 ^ 25 -> forall fuel cur rbot st, 0 <= rbot <= cur -> cur <= size b -> 0 <= st.2 -> size b - cur < Z.of_nat fuel ->
  exists st', displaylist_loop bitsperlong fuel buflen b cur rbot st = Ok st' /\ 0 <= st'.2 <= st.2 + 52 * (size b - cur).
Proof using Hbpl.
  intros Hwf Hsz. assert (Hb25 : 2 ^ 25 = 33554432) by done. assert (Hb32 : 2 ^ 32 = 4294967296) by done. induction fuel as [|fuel IH]; intros cur rbot st Hr Hc Hst Hf; [lia|].
  cbn [displaylist_loop]. destruct (Z.ltb_spec cur (size b)) as [Hlt|Hge]; [|exists st; split; [done|lia]]. rewrite uint_small by lia.
  destruct (next_ok bitsperlong Hbpl b (cur + 1) Hwf) as (f & -> & Hfr & _); [lia|]. cbn [mbind res_bind]. destruct (_ || _).
  - pose proof (emit_bound buflen rbot cur st ltac:(lia) ltac:(lia) Hst). destruct (IH f f (emit buflen rbot cur st)) as (st' & -> & ?); [lia..|]. exists st'. split; [done|lia].
  - destruct (IH f rbot st) as (st' & -> & ?); [lia..|]. exists st'. split; [done|lia].
Qed.
Lemma displaylist_safe buflen b : wf b -> size b <= 2 ^ 25 -> exists len buf, bitmask_displaylist bitsperlong buflen b = Ok (len, buf) /\ in_int len = true.
Proof using Hbpl.
  intros Hwf Hsz. unfold bitmask_displaylist, bitmask_first. pose proof (wf_size _ _ Hwf). destruct (next_ok bitsperlong Hbpl b 0 Hwf) as (f & -> & Hf & _); [lia|]. cbn [mbind res_bind].
  destruct (displaylist_loop_safe buflen b Hwf Hsz (S (Z.to_nat (size b))) f f ([], 0)) as ([buf len] & -> & Hl); [lia|lia|cbn; lia|lia|]. cbn [mbind res_bind snd] in *. exists len, buf. split; [done|].
  unfold in_int, INT_MIN, INT_MAX. change (2 ^ 25) with 33554432 in *. rewrite andb_true_iff, !Z.leb_le. lia.
Qed.
Lemma displayhex_safe buflen b : wf b -> size b <= 2 ^ 31 -> exists r, bitmask_displayhex bitsperlong buflen b = Ok r.
Proof using Hbpl.
  intros Hwf Hsz. unfold bitmask_displayhex. destruct (buflen <? 1); [by eexists|]. destruct (hexchunks_ok bitsperlong Hbpl b Hwf Hsz) as (_ & Hcb & _). pose proof (wf_size _ _ Hwf).
  destruct (displayhex_loop bitsperlong Hbpl buflen b Hwf (Z.to_nat (hexchunks b)) [] []) as (sep' & E); [lia|]. unfold written in E. rewrite take_nil in E. change (Z.of_nat (length (@nil Z))) with 0 in E. rewrite E. cbn [mbind res_bind]. by eexists.
Qed.

(** Loops over the bits that store nothing. *)
Lemma for_up_safe {S} n i (s : S) body : (forall j s, i <= j -> exists s', body j s = Ok s') -> exists s', for_up n i body s = Ok s'.
Proof. intros Hb. destruct (for_up_inv (fun _ _ => True) body n i s I) as (s' & E & _); [|by exists s']. intros j t Hj _. destruct (Hb j t ltac:(lia)) as (t' & E). by exists t'. Qed.
Lemma scan_safe {R} (body : Z -> res unit (option R)) at_end : forall n i, (forall j, i <= j -> exists r, body j = Ok r) -> exists r, scan n i body at_end = Ok r.
Proof.
  induction n as [|n IH]; intros i Hb; cbn [scan]; [by eexists|]. destruct (Hb i ltac:(lia)) as (r & ->). cbn [mbind res_bind]. destruct r; [by eexists|]. apply IH. intros j Hj. apply Hb. lia.
Qed.
Lemma rel_loop_safe b : wf b -> forall k i n, 0 <= i -> exists r, rel_loop bitsperlong k i n b = Ok r.
Proof using Hbpl.
  intros Hwf. induction k as [|k IH]; intros i n Hi; cbn [rel_loop]; [by eexists|]. rewrite getbit_ok by done. cbn [mbind res_bind]. destruct (bit bitsperlong b i); [destruct (n =? 0); [by eexists|]|]; apply IH; lia.
Qed.

Ltac bits_safe := intros; repeat (rewrite getbit_ok by (assumption || lia); cbn [mbind res_bind]); eexists; reflexivity.
Lemma run_query_safe q h : wf_store h -> valid_query q h = true -> run_query bitsperlong q h = Ok tt.
Proof using Hbpl.
  intros Hw Hv. assert (Hu : forall i, is_uint i = true -> 0 <= i) by (intros i Hi; unfold is_uint in Hi; lia).
  assert (Hal : forall p, allocated h p = true -> exists b, load h p = Ok b /\ wf b) by (intros p [b Hb]%bool_decide_eq_true; exists b; unfold load; rewrite Hb; split; [done|by eapply Hw]).
  assert (Hat : forall p n, at_most h p n = true -> exists b, load h p = Ok b /\ wf b /\ size b <= n) by (intros p n H; unfold at_most, load in *; destruct (h !! p) as [b|] eqn:Hb; [|done]; exists b; split_and!; [done|by eapply Hw|lia]).
  assert (Hok : forall A (m : res unit A), (exists v, m = Ok v) -> (_ ← m; Ok tt) = Ok tt) by (intros A m (v & ->); done).
  destruct q; cbn [valid_query] in Hv; rewrite ?andb_true_iff in Hv; cbn [run_query];
    lazymatch type of Hv with at_most _ _ _ = true => destruct (Hat _ _ Hv) as (b & El & Hwf & Hsz) | allocated _ _ = true => destruct (Hal _ Hv) as (b & El & Hwf)
    | _ /\ is_uint _ = true => destruct Hv as [Hv ?%Hu]; destruct (Hal _ Hv) as (b & El & Hwf) | _ => destruct Hv as [Hv Hv2]; destruct (Hal _ Hv) as (b & El & Hwf), (Hal _ Hv2) as (b2 & El2 & Hwf2) end;
    unfold bitmask_nbytes, bitmask_mask, bitmask_nbits, bitmask_weight, bitmask_isbitset, bitmask_isbitclear, bitmask_isallset, bitmask_isallclear, bitmask_equal, bitmask_subset, bitmask_disjoint, bitmask_intersects, getbit_at; rewrite El; cbn [mbind res_bind]; rewrite ?El2; cbn [mbind res_bind].
  - by apply Hok, displayhex_safe.
  - destruct (displaylist_safe buflen b Hwf Hsz) as (len & buf & -> & Hl). cbn [mbind res_bind]. by rewrite Hl.
  - done.
  - done.
  - done.
  - apply Hok, for_up_safe. bits_safe.
  - apply Hok. bits_safe.
  - apply Hok. bits_safe.
  - apply Hok, scan_safe. bits_safe.
  - apply Hok, scan_safe. bits_safe.
  - apply Hok, scan_safe. bits_safe.
  - apply Hok, scan_safe. bits_safe.
  - apply Hok, scan_safe. bits_safe.
  - apply Hok, scan_safe. bits_safe.
  - apply Hok, scan_safe. bits_safe.
  - apply Hok, scan_safe. bits_safe.
  - apply Hok, rel_loop_safe; [done|lia].
  - apply Hok. unfold bitmask_abs_to_rel_pos. rewrite getbit_ok by done. cbn [mbind res_bind]. destruct (bit bitsperlong b n); [|by eexists]. apply for_up_safe. bits_safe.
  - apply Hok, for_up_safe. bits_safe.
Qed.

Lemma touches_returns h p r (P : Prop) : wf_store h -> touches h p r -> exists o, returns r = Ok o /\ match o with Some h' => wf_store h' | None => P end.
Proof. intros Hw Ht. destruct (touches_wf h p r Hw Ht) as (h' & -> & Hw'). by exists (Some h'). Qed.
Lemma run_call_safe steps c h : wf_store h -> valid bitsperlong c h = true -> exists o, run_call bitsperlong steps c h = Ok o /\
  match o with Some h' => wf_store h' | None => exists buf p, c = Parselist buf p end.
Proof using Hbpl.
  intros Hw Hv.
  assert (Hu : forall i, is_uint i = true -> 0 <= i) by (intros i Hi; unfold is_uint in Hi; lia).
  destruct c as [n [p|] ok|[p|]|p1 p2|p|p|p i|p i|p i j|p i j|p i j|p1 p2|p1 p2 n|p1 p2 n|p1 p2 p3|p1 p2 p3|p1 p2 p3|p1 p2 p3|buf p|buf p|q];
    cbn [valid] in Hv; rewrite ?andb_true_iff in Hv; cbn [run_call];
    try (eexists; split; [reflexivity|]; done);
    lazymatch goal with |- exists _, returns _ = _ /\ _ => eapply touches_returns; [exact Hw|] | _ => idtac end.
  - eexists. split; [done|]. destruct Hv as [[Hn Hr%Z.ltb_lt] _]. cbn [bitmask_alloc]. destruct ok; [|done].
    intros q b. cbn [fst]. rewrite lookup_insert_Some. intros [[_ <-]|[_ H]]; [by apply alloc_wf|by eapply Hw].
  - eexists. split; [done|]. intros q b. cbn [bitmask_free]. rewrite lookup_delete_Some. intros [_ H]. by eapply Hw.
  - destruct Hv as [[b Hb]%allocated_lookup H2]. apply (assign_touches h p1 b); [done|done|]. intros i h' Hi Hm.
    apply getbit_safe; [by eapply only_mask_wf|by eapply only_mask_alloc|done].
  - apply allocated_lookup in Hv as [b Hb]. apply (assign_touches h p b); eauto.
  - apply allocated_lookup in Hv as [b Hb]. apply (assign_touches h p b); eauto.
  - destruct Hv as [[b Hb]%allocated_lookup Hi]. apply (setbit_touches h p b); auto.
  - destruct Hv as [[b Hb]%allocated_lookup Hi]. apply (setbit_touches h p b); auto.
  - destruct Hv as [[[b Hb]%allocated_lookup Hi] _]. eapply assigns_touches; [done|]. apply (range_assigns bitsperlong Hbpl h p b i j true); eauto.
  - destruct Hv as [[[b Hb]%allocated_lookup Hi] _]. eapply assigns_touches; [done|]. apply (range_assigns bitsperlong Hbpl h p b i j false); eauto.
  - destruct Hv as [[[b Hb]%allocated_lookup Hi] Hj]. eapply assigns_touches; [done|]. apply keeprange_assigns; eauto.
  - destruct Hv as [[b Hb]%allocated_lookup H2]. apply (assign_touches h p1 b); [done|done|]. intros i h' Hi Hm.
    destruct (getbit_safe h' p2 i) as (v & ->); [by eapply only_mask_wf|by eapply only_mask_alloc|done|]. cbn [mbind res_bind]. eauto.
  - destruct Hv as [[[b Hb]%allocated_lookup H2] _]. apply (assign_touches h p1 b); [done|done|]. intros i h' Hi Hm.
    apply getbit_safe; [by eapply only_mask_wf|by eapply only_mask_alloc|apply uint_number].
  - destruct Hv as [[[b Hb]%allocated_lookup H2] _]. by apply (shiftleft_touches h p1 p2 b).
  - destruct Hv as [[[b Hb]%allocated_lookup H2] H3]. by apply (binop_touches _ h p1 p2 p3 b).
  - destruct Hv as [[[b Hb]%allocated_lookup H2] H3]. by apply (binop_touches _ h p1 p2 p3 b).
  - destruct Hv as [[[b Hb]%allocated_lookup H2] H3]. by apply (binop_touches _ h p1 p2 p3 b).
  - destruct Hv as [[[b Hb]%allocated_lookup H2] H3]. by apply (binop_touches _ h p1 p2 p3 b).
  - destruct Hv as [[b Hb]%allocated_lookup Hl%Z.ltb_lt]. by apply (parsehex_touches h p b).
  - apply allocated_lookup in Hv as [b Hb]. destruct (parselist_safe steps h p b buf Hw Hb) as (o & -> & Ho). cbn [mbind res_bind]. eexists. split; [done|]. destruct o as [[r h']|]; [done|]. by exists buf, p.
  - rewrite run_query_safe by done. by eexists.
Qed.

(** *** Words beyond an [int] *)

(** A text of [n + 1] words. *)
Definition many_words (n : nat) : cstr := str "00000000" ++ concat (replicate n (str ",00000000")).
Lemma many_token n : nexttoken (Some (many_words n)) ","%ch = match n with O => None | S n => Some (many_words n) end.
Proof. by destruct n. Qed.
Lemma many_count : forall n fuel, (n < fuel)%nat -> count_tokens fuel (Some (many_words n)) = Z.of_nat (S n).
Proof. induction n as [|n IH]; intros [|fuel] Hf; [lia|by destruct fuel|lia|]. cbn [count_tokens]. rewrite many_token, IH by lia. lia. Qed.
Lemma many_length n : (n < length (many_words n))%nat.
Proof. unfold many_words. induction n as [|n IH]; [cbn; lia|]. rewrite length_app in *. cbn [replicate concat]. rewrite length_app. change (length (str ",00000000")) with 9%nat. lia. Qed.
Lemma many_overflow h p b n : wf_store h -> h !! p = Some b -> 2 ^ 26 <= Z.of_nat n -> bitmask_parsehex bitsperlong (many_words n) p h = Fault.
Proof using Hbpl.
  intros Hw Hp Hn. unfold bitmask_parsehex. destruct (clearall_ok bitsperlong Hbpl h p b Hp (Hw _ _ Hp)) as (b0 & -> & _). cbn [mbind res_bind]. unfold load. rewrite lookup_insert_eq. cbn [or_fault mbind res_bind].
  pose proof (many_length n). rewrite many_count by lia. cbn [parsehex_loop]. rewrite many_token. destruct n as [|n]; [lia|]. change (many_words (S n)) with (hexn 8 0 ++ ","%ch :: many_words n).
  rewrite (strtoul_hex bitsperlong Hbpl) by (done || (split; lia)). cbn [st_end st_val]. rewrite length_app. change (length (hexn 8 0)) with 8%nat. rewrite Nat.add_sub. cbn [Nat.ltb Nat.leb orb HEXCHARSZ length]. rewrite Nat.eqb_refl. cbn [negb].
  replace (Z.of_nat (S (S n)) - 1) with (Z.of_nat (S n)) by lia.
  assert (Hpos : forall i, bit_pos (Z.of_nat (S n)) i = Fault).
  { intros i. unfold bit_pos. replace (in_int (Z.of_nat (S n) * HEXCHUNKSZ)) with false; [done|]. symmetry. unfold in_int, HEXCHUNKSZ, INT_MAX. apply andb_false_iff. right. apply Z.leb_gt. change (2 ^ 26) with 67108864 in Hn. lia. }
  cbn [chunk_bits]. rewrite (Hpos (Z.of_nat 31)). reflexivity.
Qed.

(** C24: a program of calls of all the functions on masks that it has allocated, with
    any sizes, bit numbers, texts and operands, runs without undefined behaviour: no
    access outside an array and no overflow of signed integers.  All its masks stay
    well-formed, with no bit set beyond the size, up to its end or up to a call that
    is not [valid]: one on a mask that is not allocated, or one of a text or mask
    too large for the [int]s of the functions on text.  It stays in a call only if
    that is [bitmask_parselist], of which [steps] bits of each range are looked
    at.  The limit on texts of words is needed: one of more than 2 to the 26 words
    makes [chunk * HEXCHUNKSZ] overflow. *)
Theorem mask_programs_safe steps cs h : wf_store h ->
  match run_calls bitsperlong steps cs h with
  | Ok (Done h') => wf_store h'
  | Ok (Invalid c h') => c ∈ cs /\ valid bitsperlong c h' = false /\ wf_store h'
  | Ok (Loops c) => c ∈ cs /\ exists buf p, c = Parselist buf p
  | _ => False
  end /\
  forall p n, allocated h p = true -> 2 ^ 26 <= Z.of_nat n -> bitmask_parsehex bitsperlong (many_words n) p h = Fault.
Proof using Hbpl.
  intros Hw. split; [|intros p n [b Hb]%allocated_lookup Hn; by apply (many_overflow h p b)]. revert h Hw.
  induction cs as [|c cs IH]; intros h Hw; cbn [run_calls]; [done|]. destruct (valid bitsperlong c h) eqn:Hv; [|split_and!; [by left|done|done]].
  destruct (run_call_safe steps c h Hw Hv) as (o & -> & Ho). cbn [mbind res_bind]. destruct o as [h'|]; [|split; [by left|done]]. specialize (IH h' Ho).
  destruct (run_calls bitsperlong steps cs h') as [[?|? ?|?]| |]; [done|destruct IH as [? ?]; split; [by right|done]..|done|done].
Qed.
End Safe.

Definition ex_calls : list call :=
  [Alloc 70 (Some 1%nat) true; Alloc 10 (Some 2%nat) true; Setrange 1 60 66; Shiftleft 2 1 4294967295; Parsehex (str "ff") 2;
   Or 1 1 2; Ask (Displaylist 20 1); Parselist (str "1,3-7:2") 1; Complement 2 1; Ask (Equal 1 2); Free (Some 1%nat)].

Lemma mask_programs_safe_witness : match run_calls 64 70 ex_calls ∅ with Ok (Done h') => wf_store 64 h' | _ => True end.
Proof.
  destruct (mask_programs_safe 64 (or_intror eq_refl) 70 ex_calls ∅) as [H _].
  - intros p b H. by rewrite lookup_empty in H.
  - destruct (run_calls 64 70 ex_calls ∅) as [[h'|c h'|c]| |]; [exact H|exact I..].
Defined.

Example ex_calls_run : match run_calls 64 70 ex_calls ∅ with Ok (Done h) => h !! 2%nat = Some (mkBitmask 10 [853]) | _ => False end.
Proof. vm_compute. reflexivity. Qed.
