(* ===== verification/DataStorage.v ===== *)
(** * Data of the test metadata: [metadata/data_storage.h]

    Nodes, hashes and arrays of bounded size, and their output as JSON. *)

From stdpp Require Import base list strings gmap.
From Stdlib Require Import ZArith Lia.
From S2P Require Import Prelude ParseNum.

Local Open Scope Z_scope.

(** A node owns the nodes below it. *)
Unset Elimination Schemes.
Inductive data_node : Set :=
| DATA_ARRAY (array : list data_node)
| DATA_HASH (elems : list (cstr * data_node))
| DATA_STRING (val : cstr)
| DATA_INT (val : Z).
Set Elimination Schemes.

Definition data_type_name (n : data_node) : cstr :=
  match n with
  | DATA_ARRAY _ => str "array"
  | DATA_HASH _ => str "hash"
  | DATA_STRING _ => str "string"
  | DATA_INT _ => str "int"
  end.

Definition MAX_ELEMS : nat := 100.

Definition data_node_string (s : cstr) : data_node := DATA_STRING s.
Definition data_node_int (i : Z) : data_node := DATA_INT i.
Definition data_node_hash : data_node := DATA_HASH [].
Definition data_node_array : data_node := DATA_ARRAY [].

(** The return value and the node. *)
Definition data_node_hash_add (self : data_node) (id : cstr) (payload : data_node) : Z * data_node :=
  match self with
  | DATA_HASH elems =>
      if (length elems =? MAX_ELEMS)%nat then (1, self) else (0, DATA_HASH (elems ++ [(id, payload)]))
  | _ => (1, self)
  end.

(** The index of the first element with the key. *)
Fixpoint hash_index (elems : list (cstr * data_node)) (id : cstr) : option nat :=
  match elems with
  | [] => None
  | (k, _) :: elems' => if streq k id then Some O else S <$> hash_index elems' id
  end.

Section Access.
Abbreviation M := (res unit).

(** The last element takes the place of the deleted one. *)
Definition data_node_hash_del (self : data_node) (id : cstr) : M (Z * data_node) :=
  match self with
  | DATA_HASH elems =>
      match hash_index elems id with
      | None => Ok (0, self)
      | Some i =>
          l ← or_fault (last elems);
          Ok (1, DATA_HASH (take (length elems - 1) (<[i := l]> elems)))
      end
  | _ => Fault
  end.

Definition data_node_hash_get (self : data_node) (id : cstr) : M (option data_node) :=
  match self with
  | DATA_HASH elems =>
      match hash_index elems id with
      | None => Ok None
      | Some i => e ← or_fault (elems !! i); Ok (Some e.2)
      end
  | _ => Fault
  end.
End Access.

Definition data_node_array_add (self payload : data_node) : Z * data_node :=
  match self with
  | DATA_ARRAY array =>
      if (length array =? MAX_ELEMS)%nat then (1, self) else (0, DATA_ARRAY (array ++ [payload]))
  | _ => (1, self)
  end.

Definition data_node_array_len (self : data_node) : nat :=
  match self with DATA_ARRAY array => length array | _ => O end.

(** ** Output *)

Definition spaces (n : nat) : cstr := repeat 32 n.

Fixpoint data_node_print_ (self : data_node) (padd : nat) : cstr :=
  match self with
  | DATA_INT i => spaces padd ++ dec i ++ [NEWLINE]
  | DATA_STRING s => spaces padd ++ str "'" ++ s ++ str "'" ++ [NEWLINE]
  | DATA_HASH elems =>
      concat (map (fun '(id, n) => spaces padd ++ id ++ str " = {" ++ [NEWLINE] ++ data_node_print_ n (S padd) ++
                                   spaces padd ++ str "}," ++ [NEWLINE]) elems)
  | DATA_ARRAY array =>
      concat (map (fun n => spaces padd ++ str "{" ++ [NEWLINE] ++ data_node_print_ n (S padd) ++
                            spaces padd ++ str "}," ++ [NEWLINE]) array)
  end.
Definition data_node_print (self : data_node) : cstr :=
  str "{" ++ [NEWLINE] ++ data_node_print_ self 1 ++ str "}" ++ [NEWLINE].

(** [char] is signed: bytes above 127 are below [0x20]. *)
Definition esc_char (c : Z) : cstr :=
  if c =? BACKSLASH then [BACKSLASH; BACKSLASH]
  else if c =? DQUOTE then [BACKSLASH; DQUOTE]
  else if c =? TAB then spaces 8
  else if 32 <=? wrap_s 8 c then [c] else [].
Definition data_fprintf_esc (padd : nat) (s : cstr) : cstr :=
  spaces padd ++ [DQUOTE] ++ concat (map esc_char s) ++ [DQUOTE].

(** The elements of a hash or an array, each but the last followed by a comma. *)
Fixpoint json_lines (l : list cstr) : cstr :=
  match l with
  | [] => []
  | [x] => x ++ [NEWLINE]
  | x :: l' => x ++ str "," ++ [NEWLINE] ++ json_lines l'
  end.

Fixpoint data_to_json_ (self : data_node) (padd : nat) (do_padd : bool) : cstr :=
  let p := if do_padd then padd else O in
  match self with
  | DATA_INT i => spaces p ++ dec i
  | DATA_STRING s => data_fprintf_esc p s
  | DATA_HASH elems =>
      json_lines (map (fun '(id, n) => spaces padd ++ [DQUOTE] ++ id ++ [DQUOTE] ++ str ": " ++ data_to_json_ n (S padd) false) elems)
  | DATA_ARRAY array =>
      spaces p ++ str "[" ++ [NEWLINE] ++ json_lines (map (fun n => data_to_json_ n (S padd) true) array) ++
      spaces padd ++ str "]"
  end.
Definition data_to_json (self : data_node) (padd : nat) : cstr :=
  str "{" ++ [NEWLINE] ++ data_to_json_ self (S padd) true ++ spaces padd ++ str "}".

(** ** Operations *)

Lemma hash_index_spec elems id :
  match hash_index elems id with
  | None => id ∉ elems.*1
  | Some i => exists n, elems !! i = Some (id, n) /\ forall j, (j < i)%nat -> elems.*1 !! j <> Some id
  end.
Proof.
  induction elems as [|[k n] elems IH]; simpl; [set_solver|]. unfold streq. destruct (bool_decide_reflect (k = id)) as [->|Hne].
  - exists n. split; [done|lia].
  - destruct (hash_index elems id) as [i|]; simpl.
    + destruct IH as (m & Hm & Hj). exists m. split; [done|]. intros [|j] Hlt; simpl; [congruence|]. apply Hj. lia.
    + set_solver.
Qed.

(** The element at [i] is removed; the order changes. *)
Lemma remove_perm {A} (l : list A) i x y : l !! i = Some x -> last l = Some y -> l ≡ₚ x :: take (length l - 1) (<[i := y]> l).
Proof.
  intros Hx Hy. pose proof (lookup_lt_Some _ _ _ Hx) as Hlt. apply last_Some in Hy as [l' ->].
  rewrite length_app in *. cbn [length] in *. replace (length l' + 1 - 1)%nat with (length l') by lia.
  destruct (decide (i = length l')) as [->|Hne].
  - rewrite lookup_app_r, Nat.sub_diag in Hx by lia. injection Hx as ->.
    rewrite insert_app_r_alt, Nat.sub_diag by lia. simpl. rewrite take_app_length. symmetry. apply Permutation_cons_append.
  - rewrite lookup_app_l in Hx by lia. rewrite insert_app_l by lia. rewrite take_app_le by (rewrite length_insert; lia).
    rewrite take_ge by (rewrite length_insert; lia). rewrite insert_take_drop by lia.
    rewrite <-(take_drop_middle l' i x Hx) at 1. rewrite <-app_assoc, <-!app_comm_cons. rewrite <-Permutation_middle. constructor.
    rewrite app_assoc, <-Permutation_cons_append. apply Permutation_middle.
Qed.

(** Deleting a key removes the first element that has it. *)
Lemma hash_del_spec elems id :
  match hash_index elems id with
  | None => data_node_hash_del (DATA_HASH elems) id = Ok (0, DATA_HASH elems)
  | Some i => exists n elems', elems !! i = Some (id, n) /\ data_node_hash_del (DATA_HASH elems) id = Ok (1, DATA_HASH elems') /\
                elems ≡ₚ (id, n) :: elems'
  end.
Proof.
  pose proof (hash_index_spec elems id) as H. unfold data_node_hash_del. destruct (hash_index elems id) as [i|]; [|done].
  destruct H as (n & Hn & _). destruct (last elems) as [y|] eqn:Hy; [|apply last_None in Hy; by subst].
  exists n, (take (length elems - 1) (<[i := y]> elems)). split_and!; try done. by apply remove_perm.
Qed.

(** ** A reader for JSON

    Values as in RFC 8259, with integers for numbers and the escapes of the
    quote, the backslash and the slash. *)
Unset Elimination Schemes.
Inductive json : Set :=
| JNum (z : Z)
| JStr (s : cstr)
| JArr (l : list json)
| JObj (l : list (cstr * json)).
Set Elimination Schemes.

Definition json_ws (c : Z) : bool := (c =? 32) || (c =? TAB) || (c =? NEWLINE) || (c =? 13).
Definition ws (s : cstr) : cstr := skip_while json_ws s.

(** The string behind the opening quote, and the rest. *)
Fixpoint jstring (s : cstr) : option (cstr * cstr) :=
  match s with
  | [] => None
  | c :: s' =>
      if c =? DQUOTE then Some ([], s')
      else if c =? BACKSLASH then
        match s' with
        | d :: s'' =>
            if (d =? DQUOTE) || (d =? BACKSLASH) || (d =? "/"%ch)
            then match jstring s'' with Some (t, r) => Some (d :: t, r) | None => None end
            else None
        | [] => None
        end
      else if c <? 32 then None
      else match jstring s' with Some (t, r) => Some (c :: t, r) | None => None end
  end.

Definition jnumber (s : cstr) : option (Z * cstr) :=
  let '(neg, t) := match s with c :: t => if c =? "-"%ch then (true, t) else (false, s) | [] => (false, s) end in
  let n := prefix_len isdigit t in
  if (n =? 0)%nat || ((1 <? n)%nat && (at_ t 0 =? "0"%ch)) then None
  else let v := digits_val 10 0 (take n t) in Some (if neg then - v else v, drop n t).

Fixpoint jvalue (fuel : nat) (s : cstr) : option (json * cstr) :=
  match fuel with
  | O => None
  | S fuel' =>
      match ws s with
      | [] => None
      | c :: t =>
          if c =? DQUOTE then match jstring t with Some (x, r) => Some (JStr x, r) | None => None end
          else if c =? "["%ch then
            match ws t with
            | d :: r => if d =? "]"%ch then Some (JArr [], r)
                        else match jelems fuel' t with Some (l, r) => Some (JArr l, r) | None => None end
            | [] => None
            end
          else if c =? "{"%ch then
            match ws t with
            | d :: r => if d =? "}"%ch then Some (JObj [], r)
                        else match jmembers fuel' t with Some (l, r) => Some (JObj l, r) | None => None end
            | [] => None
            end
          else match jnumber (c :: t) with Some (z, r) => Some (JNum z, r) | None => None end
      end
  end
with jelems (fuel : nat) (s : cstr) : option (list json * cstr) :=
  match fuel with
  | O => None
  | S fuel' =>
      match jvalue fuel' s with
      | None => None
      | Some (v, r) =>
          match ws r with
          | c :: r => if c =? ","%ch then match jelems fuel' r with Some (l, r) => Some (v :: l, r) | None => None end
                      else if c =? "]"%ch then Some ([v], r) else None
          | [] => None
          end
      end
  end
with jmembers (fuel : nat) (s : cstr) : option (list (cstr * json) * cstr) :=
  match fuel with
  | O => None
  | S fuel' =>
      match ws s with
      | c :: t =>
          if c =? DQUOTE then
            match jstring t with
            | None => None
            | Some (k, r) =>
                match ws r with
                | c :: r =>
                    if c =? ":"%ch then
                      match jvalue fuel' r with
                      | None => None
                      | Some (v, r) =>
                          match ws r with
                          | c :: r => if c =? ","%ch then match jmembers fuel' r with Some (l, r) => Some ((k, v) :: l, r) | None => None end
                                      else if c =? "}"%ch then Some ([(k, v)], r) else None
                          | [] => None
                          end
                      end
                    else None
                | [] => None
                end
            end
          else None
      | [] => None
      end
  end.

(** ** The JSON text of a node *)

(** What is left of a string: tabs become eight spaces, other control
    characters and bytes above 127 are dropped. *)
Definition clean_char (c : Z) : cstr :=
  if c =? TAB then spaces 8 else if 32 <=? wrap_s 8 c then [c] else [].
Definition clean (s : cstr) : cstr := concat (map clean_char s).

Fixpoint to_json (n : data_node) : json :=
  match n with
  | DATA_INT z => JNum z
  | DATA_STRING s => JStr (clean s)
  | DATA_ARRAY l => JArr (map to_json l)
  | DATA_HASH l => JObj (map (fun '(id, n) => (id, to_json n)) l)
  end.

(** Hashes occur only at the top. *)
Fixpoint flat (n : data_node) : bool :=
  match n with
  | DATA_INT _ | DATA_STRING _ => true
  | DATA_ARRAY l => forallb flat l
  | DATA_HASH _ => false
  end.

(** Nesting and length, as the reader needs them. *)
Fixpoint weight (n : data_node) : nat :=
  match n with
  | DATA_INT _ | DATA_STRING _ => 1
  | DATA_ARRAY l => S (fold_right (fun n k => S (weight n + k)) O l)
  | DATA_HASH l => S (fold_right (fun '(_, n) k => S (weight n + k)) O l)
  end.

Definition bytes (s : cstr) : Prop := Forall (fun c => 0 <= c < 256) s.
Fixpoint strings_ok (n : data_node) : Prop :=
  match n with
  | DATA_INT _ => True
  | DATA_STRING s => bytes s
  | DATA_ARRAY l => fold_right (fun n P => strings_ok n /\ P) True l
  | DATA_HASH l => fold_right (fun '(_, n) P => strings_ok n /\ P) True l
  end.

(** A key that is printed as it is read. *)
Definition plain_char (c : Z) : bool := (32 <=? c) && negb (c =? DQUOTE) && negb (c =? BACKSLASH).
Definition plain (s : cstr) : bool := forallb plain_char s.

Lemma ws_spaces n t : ws (spaces n ++ t) = ws t.
Proof. unfold ws. induction n as [|n IH]; [done|]. simpl. done. Qed.

Lemma ws_newline t : ws (NEWLINE :: t) = ws t.
Proof. done. Qed.

Lemma ws_stop c t : json_ws c = false -> ws (c :: t) = c :: t.
Proof. intros H. unfold ws. simpl. by rewrite H. Qed.

Lemma jstring_esc s t : bytes s -> jstring (concat (map esc_char s) ++ DQUOTE :: t) = Some (clean s, t).
Proof.
  unfold bytes, clean. induction 1 as [|c s Hc _ IH]; [done|]. cbn [map concat]. rewrite <-app_assoc.
  unfold esc_char at 1, clean_char at 1.
  destruct (Z.eqb_spec c BACKSLASH) as [->|Hb]; [change (32 <=? wrap_s 8 BACKSLASH) with true; cbn [app]; simpl; by rewrite IH|].
  destruct (Z.eqb_spec c DQUOTE) as [->|Hq]; [change (32 <=? wrap_s 8 DQUOTE) with true; simpl; by rewrite IH|].
  destruct (Z.eqb_spec c TAB) as [->|Ht]; [simpl; by rewrite IH|].
  destruct (Z.leb_spec 32 (wrap_s 8 c)) as [Hp|_]; [|done]. cbn [app jstring].
  rewrite (proj2 (Z.eqb_neq c DQUOTE) Hq), (proj2 (Z.eqb_neq c BACKSLASH) Hb), IH.
  rewrite (proj2 (Z.ltb_ge c 32)); [done|]. unfold wrap_s in Hp. change (2 ^ (8 - 1)) with 128 in Hp. change (2 ^ 8) with 256 in Hp.
  destruct (Z.ltb_spec c 128); [rewrite Z.mod_small in Hp by lia; lia|lia].
Qed.

Lemma jstring_plain s t : plain s = true -> jstring (s ++ DQUOTE :: t) = Some (s, t).
Proof.
  unfold plain. induction s as [|c s IH]; [done|]. cbn [forallb]. intros [Hc Hs]%andb_true_iff. unfold plain_char in Hc.
  rewrite !andb_true_iff, !negb_true_iff in Hc. destruct Hc as [[Hc%Z.leb_le Hq] Hb]. cbn [app jstring].
  rewrite Hq, Hb, (IH Hs). by rewrite (proj2 (Z.ltb_ge c 32)) by lia.
Qed.

(** What may follow a number. *)
Definition no_digit (t : cstr) : Prop := match t with [] => True | c :: _ => isdigit c = false end.

Lemma is_digit_isdigit c : is_digit 10 c = isdigit c.
Proof. unfold is_digit, digit_val, isdigit, islower, isupper. repeat case_match; bools; lia. Qed.

Lemma jnumber_dec z t : no_digit t -> jnumber (dec z ++ t) = Some (z, t).
Proof.
  intros Ht. destruct (dec_split z) as (ds & E & Hne & Hall & Hv & Hh).
  assert (Hall' : forallb isdigit ds = true).
  { clear -Hall. induction ds as [|c ds IH]; [done|]. cbn [forallb] in *. rewrite <-is_digit_isdigit. apply andb_true_iff in Hall as [-> ?]. by apply IH. }
  assert (Hn : prefix_len isdigit (ds ++ t) = length ds).
  { rewrite prefix_len_app by done. destruct t as [|c t]; simpl; [lia|]. simpl in Ht. rewrite Ht. lia. }
  assert (Hhd : (1 <? length ds)%nat && (at_ (ds ++ t) 0 =? "0"%ch) = false).
  { destruct (Z.eq_dec z 0) as [->|Hz]; [vm_compute in E; by subst ds|]. destruct ds as [|c ds]; [done|].
    specialize (Hh Hz). change (at_ ((c :: ds) ++ t) 0) with (at_ (c :: ds) 0). rewrite (proj2 (Z.eqb_neq _ _) Hh). apply andb_false_r. }
  assert (Hgo : forall neg : bool, (let n := prefix_len isdigit (ds ++ t) in
     if (n =? 0)%nat || ((1 <? n)%nat && (at_ (ds ++ t) 0 =? "0"%ch)) then None
     else let v := digits_val 10 0 (take n (ds ++ t)) in Some (if neg then - v else v, drop n (ds ++ t))) =
     Some (if neg then - Z.abs z else Z.abs z, t)).
  { intros neg. cbv zeta. rewrite Hn, Hhd, orb_false_r, take_app_length, drop_app_length, Hv. destruct ds; [done|]. done. }
  unfold jnumber. rewrite E. destruct (Z.ltb_spec z 0) as [Hz|Hz].
  - cbn [app]. change ("-"%ch =? "-"%ch) with true. etransitivity; [exact (Hgo true)|]. cbv iota. do 2 f_equal. lia.
  - cbn [app]. destruct ds as [|c ds]; [done|]. cbn [app]. cbn [forallb] in Hall'. apply andb_true_iff in Hall' as [Hc _].
    assert ((c =? "-"%ch) = false) as -> by (unfold isdigit in Hc; lia). etransitivity; [exact (Hgo false)|]. cbv iota. do 2 f_equal. lia.
Qed.

Section NodeInd.
Context (P : data_node -> Prop).
Context (HA : forall l, Forall P l -> P (DATA_ARRAY l)) (HH : forall l, Forall (fun e => P e.2) l -> P (DATA_HASH l)).
Context (HS : forall s, P (DATA_STRING s)) (HI : forall z, P (DATA_INT z)).

(** Induction with the elements of arrays and hashes. *)
Fixpoint data_node_ind (n : data_node) : P n :=
  match n with
  | DATA_ARRAY l => HA l ((fix go l : Forall P l := match l with [] => List.Forall_nil _ | x :: l => List.Forall_cons _ _ _ (data_node_ind x) (go l) end) l)
  | DATA_HASH l => HH l ((fix go l : Forall (fun e => P e.2) l := match l with [] => List.Forall_nil _ | x :: l => List.Forall_cons _ _ _ (data_node_ind x.2) (go l) end) l)
  | DATA_STRING s => HS s
  | DATA_INT z => HI z
  end.
End NodeInd.

Lemma json_lines_cons x l : json_lines (x :: l) = x ++ match l with [] => [NEWLINE] | _ => str "," ++ [NEWLINE] ++ json_lines l end.
Proof. by destruct l. Qed.

(** A node that is no hash begins with a character that is no white space. *)
Lemma json_head n padd b t : flat n = true -> exists c r, ws (data_to_json_ n padd b ++ t) = c :: r /\ json_ws c = false /\
  c <> "]"%ch /\ c <> "}"%ch.
Proof.
  intros Hf. destruct n as [l|l|s|z]; [| done| |]; cbn [data_to_json_].
  - rewrite <-!app_assoc, ws_spaces. do 2 eexists. split_and!; [by apply ws_stop|..]; done.
  - unfold data_fprintf_esc. rewrite <-!app_assoc, ws_spaces. do 2 eexists. split_and!; [by apply ws_stop|..]; done.
  - rewrite <-!app_assoc, ws_spaces. destruct (dec_split z) as (ds & -> & Hne & Hall & _).
    destruct (z <? 0); [do 2 eexists; split_and!; [by apply ws_stop|..]; done|]. destruct ds as [|c ds]; [done|].
    cbn [forallb app] in *. apply andb_true_iff in Hall as [Hc _]. rewrite is_digit_isdigit in Hc. unfold isdigit in Hc.
    assert (json_ws c = false) by (unfold json_ws, TAB, NEWLINE; lia). do 2 eexists. split_and!; [by apply ws_stop|done|lia|lia].
Qed.

Definition reads (n : data_node) : Prop := forall fuel padd b t, flat n = true -> strings_ok n -> no_digit t -> (weight n <= fuel)%nat ->
  jvalue fuel (data_to_json_ n padd b ++ t) = Some (to_json n, t).

Lemma jvalue_space fuel s : jvalue fuel (32 :: s) = jvalue fuel s.
Proof. by destruct fuel. Qed.
Lemma jelems_newline fuel s : jelems fuel (NEWLINE :: s) = jelems fuel s.
Proof. by destruct fuel as [|[|fuel]]. Qed.
Lemma jmembers_newline fuel s : jmembers fuel (NEWLINE :: s) = jmembers fuel s.
Proof. by destruct fuel. Qed.

Lemma jelems_ok padd t : no_digit t -> forall l, l <> [] -> Forall reads l -> forallb flat l = true -> fold_right (fun n P => strings_ok n /\ P) True l ->
  forall fuel, (fold_right (fun n k => S (weight n + k)) O l <= fuel)%nat -> forall k,
  jelems fuel (json_lines (map (fun n => data_to_json_ n padd true) l) ++ spaces k ++ "]"%ch :: t) = Some (map to_json l, t).
Proof.
  intros Ht. induction l as [|n l IH]; [done|]. intros _ Hr Hf Hs fuel Hw k. apply Forall_cons in Hr as [Hn Hr].
  cbn [forallb fold_right] in *. apply andb_true_iff in Hf as [Hfn Hfl]. destruct Hs as [Hsn Hsl]. destruct fuel as [|fuel]; [lia|].
  cbn [jelems map]. rewrite json_lines_cons, <-app_assoc. rewrite Hn; [|done|done|by destruct l|lia].
  destruct l as [|n' l]; cbn [map app].
  - rewrite ws_newline, ws_spaces, ws_stop by done. done.
  - change (str ",") with [","%ch]. cbn [app]. rewrite ws_stop by done. change (","%ch =? ","%ch) with true. cbv iota.
    rewrite jelems_newline. pose proof (IH ltac:(done) Hr Hfl Hsl fuel ltac:(lia) k) as E. cbn [map] in E. by rewrite E.
Qed.

Lemma jmembers_ok padd t : no_digit t -> forall l, l <> [] -> forallb (fun e => plain e.1) l = true -> forallb (fun e => flat e.2) l = true ->
  Forall (fun e => reads e.2) l -> fold_right (fun '(_, n) P => strings_ok n /\ P) True l ->
  forall fuel, (fold_right (fun '(_, n) k => S (weight n + k)) O l <= fuel)%nat -> forall k,
  jmembers fuel (data_to_json_ (DATA_HASH l) padd true ++ spaces k ++ "}"%ch :: t)
  = Some (map (fun '(id, n) => (id, to_json n)) l, t).
Proof.
  intros Ht. induction l as [|[id n] l IH]; [done|]. intros _ Hp Hf Hr Hs fuel Hw k. apply Forall_cons in Hr as [Hn Hr].
  cbn [forallb fold_right fst snd] in *. apply andb_true_iff in Hf as [Hfn Hfl]. apply andb_true_iff in Hp as [Hpn Hpl]. destruct Hs as [Hsn Hsl].
  destruct fuel as [|fuel]; [lia|]. cbn [data_to_json_ map] in *. rewrite json_lines_cons, <-!app_assoc. cbn [jmembers].
  rewrite ws_spaces. cbn [app]. rewrite ws_stop by done. change (DQUOTE =? DQUOTE) with true. cbv iota. rewrite jstring_plain by done.
  change (str ": ") with [":"%ch; 32]. cbn [app]. rewrite ws_stop by done. change (":"%ch =? ":"%ch) with true. cbv iota.
  rewrite jvalue_space. rewrite Hn; [|done|done|by destruct l|lia].
  destruct l as [|[id' n'] l]; cbn [map].
  - cbn [app]. rewrite ws_newline, ws_spaces, ws_stop by done. done.
  - change (str ",") with [","%ch]. cbn [app]. rewrite ws_stop by done. change (","%ch =? ","%ch) with true. cbv iota.
    rewrite jmembers_newline. pose proof (IH ltac:(done) Hpl Hfl Hr Hsl fuel ltac:(lia) k) as E.
    cbn [map] in E. change (str ": ") with [":"%ch; 32] in E. cbn [app] in E. by rewrite E.
Qed.

Lemma jvalue_ok n : reads n.
Proof.
  induction n as [l Hl|l Hl|s|z] using data_node_ind; intros fuel padd b t Hf Hs Ht Hw; cbn [weight] in Hw; destruct fuel as [|fuel]; [lia| |lia| |lia| |lia|].
  - cbn [data_to_json_ to_json jvalue flat strings_ok] in *. rewrite <-!app_assoc, ws_spaces. change (str "[") with ["["%ch]. change (str "]") with ["]"%ch].
    cbn [app]. rewrite ws_stop by done. change ("["%ch =? DQUOTE) with false. change ("["%ch =? "["%ch) with true. cbv iota. rewrite ws_newline, jelems_newline.
    destruct l as [|n l].
    + cbn [map json_lines app]. rewrite ws_spaces, ws_stop by done. done.
    + assert (exists c r, ws (json_lines (map (fun n => data_to_json_ n (S padd) true) (n :: l)) ++ spaces padd ++ "]"%ch :: t) = c :: r /\ c <> "]"%ch) as (c & r & E & Hc).
      { cbn [map forallb] in *. rewrite json_lines_cons, <-app_assoc. apply andb_true_iff in Hf as [Hf _].
        edestruct (json_head n (S padd) true) as (c & r & E & _ & Hc & _); [done|]. eexists _, _. split; [exact E|done]. }
      rewrite E, (proj2 (Z.eqb_neq _ _) Hc). rewrite jelems_ok; try done; lia.
  - done.
  - cbn [data_to_json_ to_json jvalue]. unfold data_fprintf_esc. rewrite <-!app_assoc, ws_spaces. cbn [app]. rewrite ws_stop by done.
    change (DQUOTE =? DQUOTE) with true. cbv iota. by rewrite jstring_esc.
  - cbn [data_to_json_ to_json jvalue]. rewrite <-app_assoc, ws_spaces.
    assert (exists c r, ws (dec z ++ t) = c :: r /\ dec z ++ t = c :: r /\ (c =? DQUOTE) = false /\ (c =? "["%ch) = false /\ (c =? "{"%ch) = false)
      as (c & r & -> & E & -> & -> & ->).
    { destruct (dec_split z) as (ds & -> & Hne & Hall & _).
      destruct (z <? 0); [do 2 eexists; split_and!; [by apply ws_stop|..]; done|]. destruct ds as [|c ds]; [done|].
      cbn [forallb app] in *. apply andb_true_iff in Hall as [Hc _]. rewrite is_digit_isdigit in Hc. unfold isdigit in Hc.
      assert (json_ws c = false) by (unfold json_ws, TAB, NEWLINE; lia). do 2 eexists. unfold DQUOTE. split_and!; [by apply ws_stop|done|lia..]. }
    rewrite <-E. by rewrite jnumber_dec.
Qed.

(** The output is JSON: a reader gets back the hash with all its keys, the
    nested arrays and the numbers, and the strings with tabs as eight spaces and
    without control characters and bytes above 127. *)
Lemma data_to_json_roundtrip l padd t fuel :
  forallb (fun e => plain e.1) l = true -> forallb (fun e => flat e.2) l = true -> strings_ok (DATA_HASH l) ->
  no_digit t -> (weight (DATA_HASH l) <= fuel)%nat ->
  jvalue fuel (data_to_json (DATA_HASH l) padd ++ t) = Some (to_json (DATA_HASH l), t).
Proof.
  intros Hp Hf Hs Ht Hw. cbn [weight] in Hw. destruct fuel as [|fuel]; [lia|]. unfold data_to_json. rewrite <-!app_assoc.
  change (str "{") with ["{"%ch]. change (str "}") with ["}"%ch]. cbn [jvalue app]. rewrite ws_stop by done.
  change ("{"%ch =? DQUOTE) with false. change ("{"%ch =? "["%ch) with false. change ("{"%ch =? "{"%ch) with true. cbv iota.
  rewrite ws_newline, jmembers_newline. destruct l as [|[id n] l].
  - cbn [data_to_json_ map json_lines app]. rewrite ws_spaces, ws_stop by done. done.
  - assert (exists r, ws (data_to_json_ (DATA_HASH ((id, n) :: l)) (S padd) true ++ spaces padd ++ "}"%ch :: t) = DQUOTE :: r) as (r & ->).
    { cbn [data_to_json_ map]. rewrite json_lines_cons, <-!app_assoc, ws_spaces. cbn [app]. rewrite ws_stop by done. eauto. }
    change (DQUOTE =? "}"%ch) with false. cbv iota.
    rewrite jmembers_ok; try done; try lia. apply Forall_forall. intros. apply jvalue_ok.
Qed.
