(* ===== verification/MetaParse.v ===== *)
(** * Extraction of test metadata: [metadata/metaparse.c]

    A file is the list of its bytes, a stream the bytes that are not read yet.
    The functions take the stream and return what is left of it. *)

From stdpp Require Import base list strings gmap.
From Stdlib Require Import ZArith Lia.
From S2P Require Import Prelude ParseNum DataStorage.

Local Open Scope Z_scope.

(** Why a run does not return: it loops for ever, it calls [exit], or the fuel
    of the model is used up. *)
Inductive stop : Set := Loops | Exits (code : Z) | NoFuel.

(** The string in a buffer ends at the first NUL. *)
Fixpoint c_string (s : cstr) : cstr :=
  match s with [] => [] | c :: s' => if c =? 0 then [] else c :: c_string s' end.

Section Lexer.
Abbreviation M := (res stop).

(** ** Comments *)

(** [getc] returns [EOF] for ever at the end of the file. *)
Fixpoint oneline_comment (f : cstr) : M cstr :=
  match f with
  | [] => Err Loops
  | c :: f' => if c =? NEWLINE then Ok f' else oneline_comment f'
  end.

Definition eat_asterisk_space (c : cstr) : cstr :=
  match skip_while isspace c with
  | s :: t => if s =? "*"%ch then (if isspace (at_ t 0) then drop 1 t else t) else c
  | [] => c
  end.

Definition DOC_BUF : nat := 4096.

(** [star]: state 1. In a documentation comment the text is collected in [buf];
    a full buffer and a newline skip the state machine. *)
Fixpoint multiline_comment (f : cstr) (doc : option data_node) (star : bool) (buf : cstr) : M (cstr * option data_node) :=
  match f with
  | [] => Err Loops
  | c :: f' =>
      match doc with
      | Some d =>
          if c =? NEWLINE then
            let line := data_node_string (eat_asterisk_space (c_string buf)) in
            multiline_comment f' (Some (data_node_array_add d line).2) star []
          else if (DOC_BUF <=? length buf + 1)%nat then multiline_comment f' doc star buf
          else if star && (c =? "/"%ch) then Ok (f', doc)
          else multiline_comment f' doc (c =? "*"%ch) (buf ++ [c])
      | None =>
          if star && (c =? "/"%ch) then Ok (f', doc)
          else multiline_comment f' doc (c =? "*"%ch) buf
      end
  end.

Definition doc_prefix : cstr := [BACKSLASH; NEWLINE].

(** [ungetc] puts back an asterisk only. *)
Fixpoint match_prefix (prefix f : cstr) (doc : option data_node) : M (cstr * option data_node) :=
  match prefix with
  | [] => multiline_comment f doc false []
  | p :: prefix' =>
      match f with
      | [] => m ← multiline_comment [] None false []; Ok (m.1, doc)
      | c :: f' =>
          if c =? p then match_prefix prefix' f' doc
          else m ← multiline_comment (if c =? "*"%ch then f else f') None false []; Ok (m.1, doc)
      end
  end.
Definition maybe_doc_comment (f : cstr) (doc : option data_node) : M (cstr * option data_node) := match_prefix doc_prefix f doc.

Definition maybe_comment (f : cstr) (doc : option data_node) : M (cstr * option data_node) :=
  match f with
  | [] => Ok ([], doc)
  | c :: f' =>
      if c =? "/"%ch then r ← oneline_comment f'; Ok (r, doc)
      else if c =? "*"%ch then maybe_doc_comment f' doc
      else Ok (f, doc)
  end.

(** ** Tokens *)

Definition is_punct (c : Z) : bool := existsb (Z.eqb c) (str "{};()=,[]#").
Definition is_word (c : Z) : bool := isalnum c || (c =? "."%ch) || (c =? "_"%ch) || (c =? "-"%ch).
Definition is_blank (c : Z) : bool := (c =? 32) || (c =? NEWLINE) || (c =? TAB).

Definition token : Type := option cstr * cstr * option data_node.

(** The label [exit]; the terminating NUL must fit into the buffer. *)
Definition end_token (size : nat) (buf : cstr) (in_str : bool) (f : cstr) (doc : option data_node) : M token :=
  if bool_decide (buf = []) && negb in_str then Ok (None, f, doc)
  else if (length buf <? size)%nat then Ok (Some (c_string buf), f, doc) else Fault.

Fixpoint token_loop (fuel size : nat) (f : cstr) (doc : option data_node) (buf : cstr) (in_str : bool) : M token :=
  match fuel with
  | O => Err NoFuel
  | S fuel' =>
      match f with
      | [] => end_token size buf in_str [] doc
      | c :: f' =>
          let add := if (length buf <? size - 1)%nat then buf ++ [c] else buf in
          if in_str then
            if (c =? DQUOTE) && negb (bool_decide (last buf = Some BACKSLASH)) then end_token size buf in_str f' doc
            else token_loop fuel' size f' doc add in_str
          else if is_punct c then
            if bool_decide (buf = []) then end_token size add in_str f' doc else end_token size buf in_str f doc
          else if is_word c then
            if (length buf <? size)%nat then token_loop fuel' size f' doc (buf ++ [c]) in_str else Fault
          else if c =? "/"%ch then m ← maybe_comment f' doc; token_loop fuel' size m.1 m.2 buf in_str
          else if c =? DQUOTE then token_loop fuel' size f' doc buf true
          else if is_blank c && negb (bool_decide (buf = [])) then end_token size buf in_str f' doc
          else token_loop fuel' size f' doc buf in_str
      end
  end.

Definition next_token2 (size : nat) (f : cstr) (doc : option data_node) : M token :=
  token_loop (S (length f)) size f doc [] false.
Definition next_token (f : cstr) (doc : option data_node) : M token := next_token2 4096 f doc.

(** ** Arrays *)

(** The return value, the stream and the node. *)
Fixpoint parse_array (fuel : nat) (f : cstr) (node : data_node) : M (Z * cstr * data_node) :=
  match fuel with
  | O => Err NoFuel
  | S fuel' =>
      '(token, f, _) ← next_token f None;
      match token with
      | None => Ok (1, f, node)
      | Some token =>
          if streq token (str "{") then
            '(_, f, ret) ← parse_array fuel' f data_node_array;
            parse_array fuel' f (if (0 <? data_node_array_len ret)%nat then (data_node_array_add node ret).2 else node)
          else if streq token (str "}") then Ok (0, f, node)
          else if streq token (str ",") then parse_array fuel' f node
          else if streq token (str "NULL") then parse_array fuel' f node
          else parse_array fuel' f (data_node_array_add node (data_node_string token)).2
      end
  end.

Fixpoint array_len_loop (fuel : nat) (f : cstr) (cnt depth : Z) (prev_comma : bool) : M Z :=
  match fuel with
  | O => Err NoFuel
  | S fuel' =>
      '(token, f, _) ← next_token f None;
      match token with
      | None => Ok 0
      | Some token =>
          let depth := if streq token (str "{") then depth + 1 else depth in
          let '(depth, prev_comma) := if streq token (str "}") then (depth - 1, prev_comma) else (depth, false) in
          let '(prev_comma, cnt) := if streq token (str ",") && (depth =? 0) then (true, cnt + 1) else (prev_comma, cnt) in
          if depth <? 0 then Ok (cnt + if prev_comma then 0 else 1)
          else array_len_loop fuel' f cnt depth prev_comma
      end
  end.
Definition parse_get_array_len (f : cstr) : M Z :=
  '(token, f, _) ← next_token f None;
  match token with
  | None => Ok 0
  | Some token => if streq token (str "{") then array_len_loop (S (length f)) f 0 0 false else Ok 0
  end.

(** [prev]: what the other of the two buffers holds. *)
Fixpoint look_for_array_size (fuel : nat) (f arr_id prev : cstr) : M (option data_node) :=
  match fuel with
  | O => Err NoFuel
  | S fuel' =>
      '(token, f, _) ← next_token2 2048 f None;
      match token with
      | None => Ok None
      | Some token =>
          if streq token (str "=") && streq prev arr_id then
            arr_len ← parse_get_array_len f; Ok (Some (data_node_int arr_len))
          else look_for_array_size fuel' f arr_id (if streq token (str "]") || streq token (str "[") then prev else token)
      end
  end.
End Lexer.

(** ** Files *)

(** [fscanf "%s"]: the next word, [None] at the end of the file. *)
Definition scan_word (f : cstr) : option (cstr * cstr) :=
  let t := skip_while isspace f in
  let n := prefix_len (fun c => negb (isspace c)) t in
  match t with [] => None | _ => Some (take n t, drop n t) end.

Section Parser.
(** The file system: the content of a file that can be opened; the include paths;
    and the number of entries of the hash table. *)
Context (fs : cstr -> option cstr) (cmdline_includepath : list cstr) (hsize : nat).

Abbreviation M := (res stop).

Definition open_file (dir fname : cstr) : option cstr := fs (dir ++ str "/" ++ fname).

(** The buffer has 256 characters; at the end of the file it is read
    uninitialised. *)
Definition open_include (includepath f : cstr) : M (option cstr * cstr) :=
  match scan_word f with
  | None => Fault
  | Some (w, r) =>
      if (256 <=? length w)%nat then Fault
      else
        let r := skip_while isspace r in
        let buf := c_string w in
        if negb (at_ buf 0 =? DQUOTE) then Ok (None, r)
        else
          let fname := removelast (drop 1 buf) in
          Ok (match open_file includepath fname with
              | Some inc => Some inc
              | None => head (omap (fun dir => open_file dir fname) cmdline_includepath)
              end, r)
  end.

(** ** Array sizes *)

(** The search in the included files. *)
Fixpoint include_array_size (fuel : nat) (includepath f arr_id : cstr) (hash : bool) : M (option data_node) :=
  match fuel with
  | O => Err NoFuel
  | S fuel' =>
      '(token, f, _) ← next_token f None;
      match token with
      | None => Ok None
      | Some token =>
          if at_ token 0 =? "#"%ch then include_array_size fuel' includepath f arr_id true
          else if negb hash then include_array_size fuel' includepath f arr_id hash
          else if streq token (str "include") then
            '(inc, f) ← open_include includepath f;
            r ← match inc with Some inc => look_for_array_size (S (length inc)) inc arr_id [] | None => Ok None end;
            match r with Some r => Ok (Some r) | None => include_array_size fuel' includepath f arr_id hash end
          else include_array_size fuel' includepath f arr_id hash
      end
  end.

(** [whole]: the file from its beginning, for [rewind]. *)
Definition parse_array_size (includepath whole f : cstr) : M (Z * option data_node * cstr) :=
  '(token, f, _) ← next_token f None;
  match token with
  | None => Ok (1, None, f)
  | Some token =>
      if negb (streq token (str "(")) then Ok (1, None, f)
      else
        '(token, f, _) ← next_token f None;
        match token with
        | None => Ok (1, None, f)
        | Some arr_id =>
            r ← look_for_array_size (S (length whole)) whole arr_id [];
            r ← match r with Some r => Ok (Some r) | None => include_array_size (S (length whole)) includepath whole arr_id false end;
            Ok (0, r, f)
        end
  end.

(** ** Macros *)

(** [hsearch]: the first definition of a key counts, and a full table takes no
    more. *)
Definition macros : Type := list (cstr * cstr).
Fixpoint macro_find (t : macros) (key : cstr) : option cstr :=
  match t with [] => None | (k, v) :: t' => if streq k key then Some v else macro_find t' key end.
Definition macro_enter (t : macros) (key val : cstr) : macros :=
  match macro_find t key with
  | Some _ => t
  | None => if (length t <? hsize)%nat then t ++ [(key, val)] else t
  end.
Definition try_apply_macro (t : macros) (token : cstr) : cstr := default token (macro_find t token).

(** A quote behind a backslash replaces it. *)
Fixpoint macro_get_string (max : nat) (f buf : cstr) : cstr * cstr :=
  match f with
  | [] => (buf, [])
  | c :: f' =>
      if c =? DQUOTE then
        if bool_decide (last buf = Some BACKSLASH) then macro_get_string max f' (removelast buf ++ [DQUOTE]) else (buf, f')
      else macro_get_string max f' (if (length buf <? max)%nat then buf ++ [c] else buf)
  end.

Fixpoint macro_val_loop (max : nat) (f : cstr) (prev : Z) (buf : cstr) : M (cstr * cstr) :=
  match f with
  | [] => Ok (buf, [])
  | c :: f' =>
      if c =? NEWLINE then
        if prev =? BACKSLASH then
          if bool_decide (buf = []) then Fault else macro_val_loop max f' c (removelast buf)
        else Ok (buf, f')
      else if (c =? 32) || (c =? TAB) then macro_val_loop max f' c buf
      else macro_val_loop max f' c (if (length buf <? max)%nat then buf ++ [c] else buf)
  end.

Definition macro_get_val (buf_len : nat) (f : cstr) : M (cstr * cstr) :=
  match skip_while isspace f with
  | [] => Ok ([], [])
  | c :: f' => if c =? DQUOTE then Ok (macro_get_string (buf_len - 1) f' []) else macro_val_loop (buf_len - 1) (c :: f') 0 []
  end.

(** The name has 128 characters; at the end of the file it is read
    uninitialised. *)
Definition parse_macro (t : macros) (f : cstr) : M (macros * cstr) :=
  match scan_word f with
  | None => Fault
  | Some (w, r) =>
      if (128 <=? length w)%nat then Fault
      else if at_ r 0 =? NEWLINE then Ok (t, drop 1 r)
      else
        '(val, f) ← macro_get_val 256 (drop 1 r);
        let name := c_string w in
        if at_ name 0 =? "_"%ch then Ok (t, f) else Ok (macro_enter t name (c_string val), f)
  end.

Fixpoint include_macros_loop (fuel : nat) (t : macros) (inc : cstr) (hash : bool) : M macros :=
  match fuel with
  | O => Err NoFuel
  | S fuel' =>
      '(token, inc, _) ← next_token inc None;
      match token with
      | None => Ok t
      | Some token =>
          if at_ token 0 =? "#"%ch then include_macros_loop fuel' t inc true
          else if negb hash then include_macros_loop fuel' t inc hash
          else
            '(t, inc) ← (if streq token (str "define") then parse_macro t inc else Ok (t, inc));
            include_macros_loop fuel' t inc false
      end
  end.

Definition parse_include_macros (includepath : cstr) (t : macros) (f : cstr) : M (macros * cstr) :=
  '(inc, f) ← open_include includepath f;
  match inc with
  | None => Ok (t, f)
  | Some inc => t ← include_macros_loop (S (length inc)) t inc false; Ok (t, f)
  end.

(** ** The test structure *)

Fixpoint parse_test_struct (fuel : nat) (includepath whole : cstr) (t : macros) (f : cstr) (doc node : data_node) (id : cstr) (state : Z) :
    M (Z * cstr * data_node * data_node) :=
  match fuel with
  | O => Err NoFuel
  | S fuel' =>
      '(token, f, doc') ← next_token f (Some doc);
      let doc := default doc doc' in
      let again := parse_test_struct fuel' includepath whole t in
      match token with
      | None => Ok (1, f, doc, node)
      | Some token =>
          if streq token (str "}") then Ok (0, f, doc, node)
          else if state =? 0 then again f doc node token 1
          else if state =? 1 then again f doc node id (if streq token (str "=") then 2 else 1)
          else if (state =? 2) && streq token (str "(") then again f doc node id 3
          else if state =? 3 then again f doc node id (if streq token (str ")") then 2 else 3)
          else if state =? 4 then again f doc node id (if streq token (str ",") then 0 else 4)
          else
            '(failed, ret, f) ←
              (if streq token (str "{") then
                 '(_, f, ret) ← parse_array (S (length f)) f data_node_array; Ok (false, Some ret, f)
               else if streq token (str "ARRAY_SIZE") then
                 '(err, ret, f) ← parse_array_size includepath whole f; Ok (negb (err =? 0), ret, f)
               else Ok (false, Some (data_node_string (try_apply_macro t token)), f));
            if failed : bool then Ok (1, f, doc, node)
            else match ret with
                 | None => again f doc node id state
                 | Some ret =>
                     let key := if at_ id 0 =? "."%ch then drop 1 id else id in
                     again f doc (data_node_hash_add node key ret).2 id 4
                 end
      end
  end.

Definition tokens : list cstr := [str "static"; str "struct"; str "tst_test"; str "test"; str "="; str "{"].

Fixpoint parse_file_loop (fuel : nat) (includepath whole : cstr) (t : macros) (f : cstr) (doc res : data_node) (found : bool) (state : nat) :
    M (data_node * data_node * bool) :=
  match fuel with
  | O => Err NoFuel
  | S fuel' =>
      '(token, f, doc') ← next_token f (Some doc);
      let doc := default doc doc' in
      match token with
      | None => Ok (doc, res, found)
      | Some token =>
          '(t, f, doc, state) ←
            (if (state <? 6)%nat && bool_decide (tokens !! state = Some token) then Ok (t, f, doc, S state)
             else if at_ token 0 =? "#"%ch then
               '(token, f, doc') ← next_token f (Some doc);
               let doc := default doc doc' in
               match token with
               | None => Ok (t, f, doc, O)
               | Some token =>
                   if streq token (str "define") then '(t, f) ← parse_macro t f; Ok (t, f, doc, O)
                   else if streq token (str "include") then '(t, f) ← parse_include_macros includepath t f; Ok (t, f, doc, O)
                   else Ok (t, f, doc, O)
               end
             else Ok (t, f, doc, O));
          if (state <? 6)%nat then parse_file_loop fuel' includepath whole t f doc res found state
          else
            '(_, f, doc, res) ← parse_test_struct (S (length f)) includepath whole t f doc res [] 0;
            parse_file_loop fuel' includepath whole t f doc res true state
      end
  end.

(** [dirname] and [basename]. *)
Definition strip_slashes (s : cstr) : cstr := reverse (skip_while (fun c => c =? "/"%ch) (reverse s)).
Definition dirname (s : cstr) : cstr :=
  let r := skip_while (fun c => negb (c =? "/"%ch)) (reverse (strip_slashes s)) in
  match strip_slashes (reverse r) with
  | [] => if at_ s 0 =? "/"%ch then str "/" else str "."
  | d => d
  end.
Definition basename (s : cstr) : cstr :=
  let t := reverse (strip_slashes s) in
  match reverse (take (prefix_len (fun c => negb (c =? "/"%ch)) t) t) with
  | [] => if at_ s 0 =? "/"%ch then str "/" else str "."
  | b => b
  end.

Definition parse_file (fname : cstr) : M (option data_node) :=
  match fs fname with
  | None => Ok None
  | Some f =>
      '(doc, res, found) ← parse_file_loop (S (length f)) (dirname fname) f [] f data_node_array data_node_hash false 0;
      if (0 <? data_node_array_len doc)%nat then Ok (Some (data_node_hash_add res (str "doc") doc).2)
      else if found : bool then Ok (Some res) else Ok None
  end.
End Parser.

(** ** The result *)

Section Main.
Context (LONG_MIN LONG_MAX : Z).
Abbreviation M := (res stop).

Definition lift {A} (r : res unit A) : M A := match r with Ok a => Ok a | Err _ => Fault | Fault => Fault end.

(** The only entry of [tst_test_typemap]. *)
Definition tst_test_typemap : list cstr := [str "test_variants"].

Definition convert_str2int (res : data_node) (id str_val : cstr) : M data_node :=
  let r := strtol LONG_MIN LONG_MAX 10 str_val in
  if negb (st_errno r =? 0) || negb (bool_decide (st_end r = [])) then Err (Exits 1)
  else
    '(_, res) ← lift (data_node_hash_del res id);
    Ok (data_node_hash_add res id (data_node_int (st_val r))).2.

Fixpoint check_normalize_types (ids : list cstr) (res : data_node) : M data_node :=
  match ids with
  | [] => Ok res
  | id :: ids' =>
      n ← lift (data_node_hash_get res id);
      match n with
      | None | Some (DATA_INT _) => check_normalize_types ids' res
      | Some (DATA_STRING s) => res ← convert_str2int res id s; check_normalize_types ids' res
      | Some _ => Err (Exits 1)
      end
  end.

Definition filter_out : list cstr :=
  map str ["bufs"; "cleanup"; "mntpoint"; "setup"; "tcnt"; "test"; "test_all"]%string.
Definition implies : list (cstr * list cstr) :=
  map (fun '(f, l) => (str f, map str l))
    [("mount_device", ["format_device"; "needs_device"; "needs_tmpdir"]);
     ("format_device", ["needs_device"; "needs_tmpdir"]);
     ("all_filesystems", ["needs_device"; "needs_tmpdir"]);
     ("needs_device", ["needs_tmpdir"]);
     ("needs_checkpoints", ["needs_tmpdir"]);
     ("resource_files", ["needs_tmpdir"])]%string.

Fixpoint filter_data (ids : list cstr) (res : data_node) : M data_node :=
  match ids with
  | [] => Ok res
  | id :: ids' => '(_, res) ← lift (data_node_hash_del res id); filter_data ids' res
  end.

Fixpoint add_implied (ids : list cstr) (res : data_node) : M data_node :=
  match ids with
  | [] => Ok res
  | id :: ids' =>
      n ← lift (data_node_hash_get res id);
      add_implied ids' (match n with Some _ => res | None => (data_node_hash_add res id (data_node_string (str "1"))).2 end)
  end.
Fixpoint add_all_implied (l : list (cstr * list cstr)) (res : data_node) : M data_node :=
  match l with
  | [] => Ok res
  | (flag, ids) :: l' =>
      n ← lift (data_node_hash_get res flag);
      res ← match n with Some _ => add_implied ids res | None => Ok res end;
      add_all_implied l' res
  end.

Definition strip_name (path : cstr) : cstr :=
  let name := basename path in
  let len := length name in
  if (2 <? len)%nat && (at_ name (len - 1) =? "c"%ch) && (at_ name (len - 2) =? "."%ch) then take (len - 2) name else name.

(** The part of [main] behind the parser. *)
Definition normalize (fname : cstr) (res : data_node) : M data_node :=
  res ← filter_data filter_out res;
  res ← check_normalize_types tst_test_typemap res;
  res ← add_all_implied implies res;
  Ok (data_node_hash_add res (str "fname") (data_node_string fname)).2.

(** The exit status and the output. *)
Definition main (fs : cstr -> option cstr) (cmdline_includepath : list cstr) (hsize : nat) (fname : cstr) : M (Z * cstr) :=
  res ← parse_file fs cmdline_includepath hsize fname;
  match res with
  | None => Ok (0, [])
  | Some res =>
      res ← normalize fname res;
      Ok (0, str "  " ++ [DQUOTE] ++ strip_name fname ++ [DQUOTE] ++ str ": " ++ data_to_json res 2)
  end.
End Main.

(** ** Termination *)

(** [r] is what is left of [f]. *)
Definition no_newline (s : cstr) : Prop := NEWLINE ∉ s.
Definition has_end (s : cstr) : Prop := exists p q, s = p ++ "*"%ch :: "/"%ch :: q.
Definition long_line (s : cstr) : Prop := exists p q r, s = p ++ q ++ r /\ length q = 4095%nat /\ no_newline q.

(** A comment that is not closed, or a line that does not fit the buffer. *)
Definition open_comment (f : cstr) : Prop :=
  long_line f \/ exists p x, (f = p ++ "/"%ch :: "/"%ch :: x /\ no_newline x) \/ (f = p ++ "/"%ch :: "*"%ch :: x /\ ~ has_end x).

Lemma suffix_open r f : r `suffix_of` f -> open_comment r -> open_comment f.
Proof.
  intros [k ->] [(p & q & t & -> & Hq)|(p & x & Hx)].
  - left. exists (k ++ p), q, t. by rewrite <-app_assoc.
  - right. exists (k ++ p), x. destruct Hx as [[-> Hx]|[-> Hx]]; [left|right]; by rewrite <-app_assoc.
Qed.

Lemma has_end_cons c s : has_end s -> has_end (c :: s).
Proof. intros (p & q & ->). by exists (c :: p), q. Qed.

Lemma has_end_inv c s : c <> "*"%ch \/ at_ s 0 <> "/"%ch -> has_end (c :: s) -> has_end s.
Proof. intros Hc ([|x p] & q & E); simpl in E; injection E as -> ->; [destruct Hc as [[]|[]]; done|by exists p, q]. Qed.

(** The outcome of a comment: the rest, or it is not closed. *)
Definition comment_spec (f : cstr) (P : Prop) (m : res stop (cstr * option data_node)) : Prop :=
  match m with Ok (r, _) => r `suffix_of` f | Err Loops => P | _ => False end.

Lemma suffix_skip (c : Z) (r f : cstr) : r `suffix_of` f -> r `suffix_of` c :: f.
Proof. intros [k ->]. by exists (c :: k). Qed.

Lemma oneline_spec f : match oneline_comment f with Ok r => r `suffix_of` f | Err Loops => no_newline f | _ => False end.
Proof.
  induction f as [|c f IH]; simpl; [apply not_elem_of_nil|]. destruct (Z.eqb_spec c NEWLINE) as [->|Hc]; [by exists [NEWLINE]|].
  destruct (oneline_comment f) as [r|[]|]; try done; [by apply suffix_skip|]. apply not_elem_of_cons. done.
Qed.

Lemma multiline_spec f : forall doc star buf, no_newline buf -> (doc = None -> buf = []) ->
  comment_spec f (long_line (buf ++ f) \/ ~ has_end ((if star : bool then ["*"%ch] else []) ++ f)) (multiline_comment f doc star buf).
Proof.
  induction f as [|c f IH]; intros doc star buf Hb Hd; cbn [multiline_comment].
  { right. intros ([|x [|y p]] & q & E); destruct star; discriminate. }
  assert (Hstep : forall star' buf' doc', no_newline buf' -> (doc' = None -> buf' = []) -> (long_line (buf' ++ f) -> long_line (buf ++ c :: f)) ->
    (~ has_end ((if star' : bool then ["*"%ch] else []) ++ f) -> ~ has_end ((if star then ["*"%ch] else []) ++ c :: f)) ->
    comment_spec (c :: f) (long_line (buf ++ c :: f) \/ ~ has_end ((if star then ["*"%ch] else []) ++ c :: f)) (multiline_comment f doc' star' buf')).
  { intros star' buf' doc' Hb' Hd' Hl He. specialize (IH doc' star' buf' Hb' Hd'). destruct (multiline_comment f doc' star' buf') as [[r d]|[]|]; simpl in *; try done.
    - by apply suffix_skip.
    - destruct IH as [IH|IH]; [left|right]; auto. }
  assert (Hshift : long_line f -> long_line (buf ++ c :: f)).
  { intros (p & q & r & -> & Hq). exists (buf ++ c :: p), q, r. split; [|done]. by rewrite <-app_assoc. }
  assert (Hstate : star && (c =? "/"%ch) = false ->
    ~ has_end ((if c =? "*"%ch then ["*"%ch] else []) ++ f) -> ~ has_end ((if star then ["*"%ch] else []) ++ c :: f)).
  { intros Hs Hn He. apply Hn. assert (He' : has_end (c :: f)).
    { destruct star; [|done]. cbn [app] in He. apply has_end_inv in He; [done|]. right. by apply Z.eqb_neq. }
    destruct (Z.eqb_spec c "*"%ch) as [->|Hc]; [done|]. apply has_end_inv in He'; [done|by left]. }
  destruct doc as [d|].
  - destruct (Z.eqb_spec c NEWLINE) as [->|Hc].
    + apply Hstep; [apply not_elem_of_nil|done|done|]. intros Hn He. apply Hn.
      assert (He' : has_end (NEWLINE :: f)) by (destruct star; [apply has_end_inv in He; [done|by right]|done]).
      apply has_end_inv in He'; [|by left]. destruct star; [by apply has_end_cons|done].
    + destruct (Nat.leb_spec DOC_BUF (length buf + 1)) as [Hfull|Hroom].
      * destruct (multiline_comment f (Some d) star buf) as [[r d']|[]|] eqn:E; specialize (IH (Some d) star buf Hb ltac:(done)); rewrite E in IH; simpl in *; try done.
        -- by apply suffix_skip.
        -- left. exists [], (take 4095 buf), (drop 4095 buf ++ c :: f). unfold DOC_BUF in Hfull. split_and!.
           ++ simpl. by rewrite app_assoc, take_drop.
           ++ rewrite length_take. lia.
           ++ intros Hin. apply Hb. rewrite <-(take_drop 4095 buf). set_solver.
      * destruct (star && (c =? "/"%ch)) eqn:Es; [by exists [c]|]. apply Hstep; [|done|by rewrite <-app_assoc|by apply Hstate].
        unfold no_newline in *. set_solver.
  - destruct (star && (c =? "/"%ch)) eqn:Es; [by exists [c]|]. rewrite Hd in * by done. by apply Hstep; [| | |apply Hstate].
Qed.

Abbreviation closed_spec f m := (comment_spec f (long_line f \/ ~ has_end f) m).

Lemma closed_up g f m : g `suffix_of` f -> (has_end f -> has_end g) -> closed_spec g m -> closed_spec f m.
Proof.
  intros [k ->] He. destruct m as [[x d]|[]|]; simpl; try done.
  - intros [k' ->]. exists (k ++ k'). by rewrite app_assoc.
  - intros [(p & q & t & -> & Hq)|Hc]; [left; exists (k ++ p), q, t; by rewrite <-app_assoc|right; auto].
Qed.

Lemma closed_fst f doc m : closed_spec f m -> closed_spec f (x ← m; Ok (x.1, doc)).
Proof. by destruct m as [[x d]|[]|]. Qed.

Lemma prefix_spec doc : forall pre f, "*"%ch ∉ pre -> closed_spec f (match_prefix pre f doc).
Proof.
  assert (H0 : forall g d, closed_spec g (multiline_comment g d false [])).
  { intros g d. apply (multiline_spec g d false []); [apply not_elem_of_nil|done]. }
  induction pre as [|p pre IH]; intros f Hp; cbn [match_prefix]; [apply H0|].
  apply not_elem_of_cons in Hp as [Hp Hps]. destruct f as [|c f]; [apply closed_fst, H0|].
  assert (Hup : c <> "*"%ch -> forall m, closed_spec f m -> closed_spec (c :: f) m).
  { intros Hc m. apply closed_up; [by exists [c]|]. apply has_end_inv. by left. }
  destruct (Z.eqb_spec c p) as [->|Hcp]; [apply Hup; [congruence|by apply IH]|].
  destruct (Z.eqb_spec c "*"%ch) as [->|Hc]; [apply closed_fst, H0|]. by apply Hup, closed_fst, H0.
Qed.

(** A comment behind a slash. *)
Lemma maybe_comment_spec f doc : comment_spec f (open_comment ("/"%ch :: f)) (maybe_comment f doc).
Proof.
  destruct f as [|c f]; [by exists []|]. cbn [maybe_comment]. destruct (Z.eqb_spec c "/"%ch) as [->|_].
  - pose proof (oneline_spec f) as H. destruct (oneline_comment f) as [r|[]|]; simpl in *; try done; [by apply suffix_skip|].
    right. exists [], f. by left.
  - destruct (Z.eqb_spec c "*"%ch) as [->|_]; [|by exists []].
    pose proof (prefix_spec doc doc_prefix f) as H. unfold maybe_doc_comment.
    destruct (match_prefix doc_prefix f doc) as [[r d]|[]|]; simpl in *; [by apply suffix_skip, H; set_solver| | | |]; try (apply H; set_solver).
    destruct H as [(p & q & t & -> & Hq)|H]; [set_solver|left; by exists ("/"%ch :: "*"%ch :: p), q, t|right]. exists [], f. by right.
Qed.

(** What is left after a token; [None] is returned at the end of the file only. *)
Definition token_spec (f : cstr) (moves : Prop) (m : res stop token) : Prop :=
  match m with
  | Ok (tok, r, _) => r `suffix_of` f /\ (is_Some tok -> moves -> (length r < length f)%nat)
  | Err Loops => open_comment f
  | Err _ => False
  | Fault => True
  end.

Lemma end_token_spec size buf in_str r f doc (moves : Prop) : r `suffix_of` f ->
  (buf <> [] \/ in_str = true -> moves -> (length r < length f)%nat) -> token_spec f moves (end_token size buf in_str r doc).
Proof.
  intros Hr Hm. unfold end_token. destruct (bool_decide_reflect (buf = [])) as [->|Hb].
  - destruct in_str; simpl; [|split; [done|by intros []]]. destruct (0 <? size)%nat; simpl; [|done]. split; [done|]. intros _. apply Hm. by right.
  - simpl. destruct (_ <? _)%nat; simpl; [|done]. split; [done|]. intros _. apply Hm. by left.
Qed.

Lemma token_spec_skip c r f (P Q : Prop) m : token_spec r P m -> r `suffix_of` f -> token_spec (c :: f) Q m.
Proof.
  destruct m as [[[tok x] d]|[]|]; simpl; try done.
  - intros [Hx _] Hr. split; [apply suffix_skip; by trans r|]. intros _ _. apply suffix_length in Hx, Hr. lia.
  - intros H Hr. eapply suffix_open; [|exact H]. by apply suffix_skip.
Qed.

Lemma token_loop_spec size : forall fuel f doc buf in_str, (length f < fuel)%nat ->
  token_spec f (buf = [] /\ in_str = false) (token_loop fuel size f doc buf in_str).
Proof.
  induction fuel as [|fuel IH]; intros f doc buf in_str Hf; [lia|]. cbn [token_loop].
  destruct f as [|c f]; [apply end_token_spec; [done|]; intros [H|H] [? ?]; congruence|]. cbn [length] in Hf.
  assert (Hgo : forall r doc' buf' in_str', r `suffix_of` f -> token_spec (c :: f) (buf = [] /\ in_str = false) (token_loop fuel size r doc' buf' in_str')).
  { intros r doc' buf' in_str' Hr. eapply token_spec_skip; [|exact Hr]. apply IH. apply suffix_length in Hr. lia. }
  assert (Hend : forall buf' in_str', token_spec (c :: f) (buf = [] /\ in_str = false) (end_token size buf' in_str' f doc)).
  { intros. apply end_token_spec; [by exists [c]|]. simpl. lia. }
  destruct in_str; [case_match; [apply Hend|by apply Hgo]|]. destruct (is_punct c).
  { destruct (bool_decide_reflect (buf = [])) as [->|Hb]; [apply Hend|]. apply end_token_spec; [done|]. intros _ [? _]. done. }
  destruct (is_word c); [destruct (_ <? _)%nat; [by apply Hgo|done]|]. destruct (Z.eqb_spec c "/"%ch) as [->|_].
  - pose proof (maybe_comment_spec f doc) as Hm. destruct (maybe_comment f doc) as [[r d]|[]|]; simpl in Hm |- *; try done. by apply Hgo.
  - destruct (c =? DQUOTE); [by apply Hgo|]. destruct (is_blank c && _); [apply Hend|by apply Hgo].
Qed.

Lemma next_token_spec size f doc : token_spec f True (next_token2 size f doc).
Proof.
  pose proof (token_loop_spec size (S (length f)) f doc [] false ltac:(lia)) as H. unfold next_token2.
  destruct (token_loop _ _ _ _ _ _) as [[[tok x] d]|[]|]; simpl in *; try done. destruct H as [H1 H2]. split; [done|]. intros Ht _. by apply H2.
Qed.

(** *** The parser *)

Section Terminates.
Context (fs : cstr -> option cstr) (cmdline_includepath : list cstr) (hsize : nat).

(** A stream of one of the files. *)
Definition stream (f : cstr) : Prop := exists path w, fs path = Some w /\ f `suffix_of` w.
Definition bad_file : Prop := exists path w, fs path = Some w /\ open_comment w.

(** A computation does not run out of fuel, and loops only on a bad file. *)
Definition ends {A} (m : res stop A) (P : A -> Prop) : Prop :=
  match m with Ok a => P a | Err NoFuel => False | Err Loops => bad_file | _ => True end.

Lemma ends_bind {A B} (m : res stop A) (k : A -> res stop B) P Q : ends m P -> (forall a, P a -> ends (k a) Q) -> ends (m ≫= k) Q.
Proof. destruct m as [a|[]|]; simpl; auto. Qed.

Lemma ends_weaken {A} (m : res stop A) (P Q : A -> Prop) : ends m P -> (forall a, P a -> Q a) -> ends m Q.
Proof. destruct m as [a|[]|]; simpl; auto. Qed.

(** The rest after reading from [f]. *)
Definition rest_of (f r : cstr) : Prop := stream r /\ (length r <= length f)%nat.

Lemma stream_suffix r f : r `suffix_of` f -> stream f -> stream r.
Proof. intros Hr (path & w & Hw & Hf). exists path, w. split; [done|by trans f]. Qed.

Lemma next_token_ends size f doc : stream f ->
  ends (next_token2 size f doc) (fun '(tok, r, _) => rest_of f r /\ (is_Some tok -> (length r < length f)%nat)).
Proof.
  intros Hf. pose proof (next_token_spec size f doc) as H. destruct (next_token2 size f doc) as [[[tok r] d]|[]|]; simpl in *; try done.
  - destruct H as [Hr Hl]. split; [|auto]. split; [by eapply stream_suffix|by apply suffix_length].
  - destruct Hf as (path & w & Hw & Hf). exists path, w. split; [done|]. by eapply suffix_open.
Qed.

Lemma skip_suffix p s : skip_while p s `suffix_of` s.
Proof. induction s as [|c s IH]; simpl; [done|]. destruct (p c); [by apply suffix_skip|done]. Qed.

Lemma drop_suffix n (s : cstr) : drop n s `suffix_of` s.
Proof. exists (take n s). by rewrite take_drop. Qed.

Lemma scan_word_suffix f w r : scan_word f = Some (w, r) -> r `suffix_of` f.
Proof.
  unfold scan_word. destruct (skip_while isspace f) as [|c t] eqn:E; [done|]. intros [= <- <-]. trans (c :: t); [apply drop_suffix|].
  rewrite <-E. apply skip_suffix.
Qed.

Lemma rest_suffix f r : stream f -> r `suffix_of` f -> rest_of f r.
Proof. intros Hf Hr. split; [by eapply stream_suffix|by apply suffix_length]. Qed.

Lemma parse_array_ends : forall fuel f node, stream f -> (length f < fuel)%nat ->
  ends (parse_array fuel f node) (fun '(_, r, _) => rest_of f r).
Proof.
  induction fuel as [|fuel IH]; intros f node Hf Hl; [lia|]. cbn [parse_array]. unfold next_token.
  eapply ends_bind; [by apply next_token_ends|]. intros [[[tok|] r] d] [[Hr Hrl] Ht]; [|done]. specialize (Ht ltac:(eauto)).
  assert (Hgo : forall r' node', rest_of r r' -> ends (parse_array fuel r' node') (fun '(_, x, _) => rest_of f x)).
  { intros r' node' [Hr' Hl']. eapply ends_weaken; [apply IH; [done|lia]|]. intros [[x1 x] x2] [Hx Hxl]. split; [done|lia]. }
  assert (rest_of r r) by done.
  destruct (streq tok (str "{")); [|repeat (case_match; [done || by apply Hgo|]); by apply Hgo].
  eapply ends_bind; [apply IH; [done|lia]|]. intros [[x1 x] x2] Hx. by apply Hgo.
Qed.

Lemma array_len_ends : forall fuel f cnt depth pc, stream f -> (length f < fuel)%nat -> ends (array_len_loop fuel f cnt depth pc) (fun _ => True).
Proof.
  induction fuel as [|fuel IH]; intros f cnt depth pc Hf Hl; [lia|]. cbn [array_len_loop]. unfold next_token.
  eapply ends_bind; [by apply next_token_ends|]. intros [[[tok|] r] d] [[Hr Hrl] Ht]; [|done]. specialize (Ht ltac:(eauto)).
  repeat case_match; try done; apply IH; (done || lia).
Qed.

Lemma look_for_ends arr_id : forall fuel f prev, stream f -> (length f < fuel)%nat -> ends (look_for_array_size fuel f arr_id prev) (fun _ => True).
Proof.
  induction fuel as [|fuel IH]; intros f prev Hf Hl; [lia|]. cbn [look_for_array_size].
  eapply ends_bind; [by apply next_token_ends|]. intros [[[tok|] r] d] [[Hr Hrl] Ht]; [|done]. specialize (Ht ltac:(eauto)).
  case_match; [|apply IH; (done || lia)]. eapply ends_bind; [|done]. unfold parse_get_array_len, next_token.
  eapply (ends_bind _ _ _ (fun _ => True)); [by apply next_token_ends|]. intros [[[tok'|] r'] d'] [[Hr' Hrl'] Ht']; [|done].
  case_match; [|done]. apply array_len_ends; [done|lia].
Qed.

Lemma open_include_ends ip f : stream f ->
  ends (open_include fs cmdline_includepath ip f) (fun '(inc, r) => rest_of f r /\ forall w, inc = Some w -> stream w).
Proof.
  intros Hf. unfold open_include. destruct (scan_word f) as [[w r]|] eqn:E; [|done]. apply scan_word_suffix in E. case_match; [done|].
  assert (Hr : rest_of f (skip_while isspace r)) by (apply rest_suffix; [done|]; trans r; [apply skip_suffix|done]).
  case_match; [by split|]. simpl. split; [done|]. intros inc Hi.
  assert (Hfs : forall dir x, open_file fs dir x = Some inc -> stream inc) by (intros dir x Hx; eexists _, inc; split; [exact Hx|done]).
  destruct (open_file _ _ _) as [inc'|] eqn:Eo; [injection Hi as ->; by eapply Hfs|].
  apply head_Some_elem_of in Hi. apply list_elem_of_omap in Hi as (dir & _ & Hd). by eapply Hfs.
Qed.

Lemma parse_macro_ends t f : stream f -> ends (parse_macro hsize t f) (fun '(_, r) => rest_of f r).
Proof.
  intros Hf. unfold parse_macro. destruct (scan_word f) as [[w r]|] eqn:E; [|done]. apply scan_word_suffix in E. case_match; [done|].
  assert (Hd : drop 1 r `suffix_of` f) by (trans r; [apply drop_suffix|done]). case_match; [by apply rest_suffix|].
  assert (Hs : forall max g buf, (macro_get_string max g buf).2 `suffix_of` g).
  { intros max. induction g as [|c g IH]; intros buf; simpl; [done|]. case_match; [case_match; [apply suffix_skip, IH|by exists [c]]|apply suffix_skip, IH]. }
  assert (Hv : forall max g prev buf, ends (macro_val_loop max g prev buf) (fun x => x.2 `suffix_of` g)).
  { intros max. induction g as [|c g IH]; intros prev buf; simpl; [done|].
    assert (Hw : forall p b, ends (macro_val_loop max g p b) (fun x => x.2 `suffix_of` c :: g)) by (intros; eapply ends_weaken; [apply IH|]; intros; by apply suffix_skip).
    repeat (case_match; try apply Hw; try done). by exists [c]. }
  eapply (ends_bind _ _ (fun x => x.2 `suffix_of` drop 1 r)).
  - unfold macro_get_val. destruct (skip_while isspace (drop 1 r)) as [|c g] eqn:Eg; [by exists (drop 1 r); rewrite app_nil_r|].
    assert (Hg : c :: g `suffix_of` drop 1 r) by (rewrite <-Eg; apply skip_suffix). destruct (c =? DQUOTE).
    + simpl. trans (c :: g); [apply suffix_skip, Hs|done].
    + eapply ends_weaken; [apply Hv|]. intros a Ha. by trans (c :: g).
  - intros [val g] Hg. simpl in Hg. case_match; simpl; (apply rest_suffix; [done|]; by trans (drop 1 r)).
Qed.
Lemma include_size_ends ip arr_id : forall fuel f hash, stream f -> (length f < fuel)%nat ->
  ends (include_array_size fs cmdline_includepath fuel ip f arr_id hash) (fun _ => True).
Proof.
  induction fuel as [|fuel IH]; intros f hash Hf Hl; [lia|]. cbn [include_array_size]. unfold next_token.
  eapply ends_bind; [by apply next_token_ends|]. intros [[[tok|] r] d] [[Hr Hrl] Ht]; [|done]. specialize (Ht ltac:(eauto)).
  case_match; [apply IH; (done || lia)|]. case_match; [apply IH; (done || lia)|]. case_match; [|apply IH; (done || lia)].
  eapply ends_bind; [by apply open_include_ends|]. intros [inc x] [[Hx Hxl] Hi].
  eapply (ends_bind _ _ (fun _ => True)); [destruct inc as [inc|]; [apply look_for_ends; [by apply Hi|lia]|done]|].
  intros [res|] _; [done|]. apply IH; (done || lia).
Qed.

Lemma parse_array_size_ends ip whole f : stream whole -> stream f ->
  ends (parse_array_size fs cmdline_includepath ip whole f) (fun '(_, _, r) => rest_of f r).
Proof.
  intros Hw Hf. unfold parse_array_size, next_token.
  eapply ends_bind; [by apply next_token_ends|]. intros [[[tok|] r] d] [[Hr Hrl] Ht]; [|done]. case_match; [done|].
  eapply ends_bind; [by apply next_token_ends|]. intros [[[arr_id|] r'] d'] [[Hr' Hrl'] Ht']; [|split; [done|lia]].
  eapply (ends_bind _ _ (fun _ => True)); [apply look_for_ends; [done|lia]|]. intros res _.
  eapply (ends_bind _ _ (fun _ => True)); [destruct res; [done|apply include_size_ends; [done|lia]]|]. intros res' _. split; [done|lia].
Qed.

Lemma include_macros_ends : forall fuel t inc hash, stream inc -> (length inc < fuel)%nat -> ends (include_macros_loop hsize fuel t inc hash) (fun _ => True).
Proof.
  induction fuel as [|fuel IH]; intros t f hash Hf Hl; [lia|]. cbn [include_macros_loop]. unfold next_token.
  eapply ends_bind; [by apply next_token_ends|]. intros [[[tok|] r] d] [[Hr Hrl] Ht]; [|done]. specialize (Ht ltac:(eauto)).
  case_match; [apply IH; (done || lia)|]. case_match; [apply IH; (done || lia)|].
  eapply (ends_bind _ _ (fun '(_, x) => rest_of r x)); [case_match; [by apply parse_macro_ends|done]|]. intros [t' x] [Hx Hxl].
  apply IH; (done || lia).
Qed.

Lemma parse_include_macros_ends ip t f : stream f ->
  ends (parse_include_macros fs cmdline_includepath hsize ip t f) (fun '(_, r) => rest_of f r).
Proof.
  intros Hf. unfold parse_include_macros. eapply ends_bind; [by apply open_include_ends|]. intros [inc x] [Hx Hi].
  destruct inc as [inc|]; [|done]. eapply ends_bind; [apply include_macros_ends; [by apply Hi|lia]|]. done.
Qed.

Lemma parse_test_struct_ends ip whole t : stream whole -> forall fuel f doc node id state, stream f -> (length f < fuel)%nat ->
  ends (parse_test_struct fs cmdline_includepath fuel ip whole t f doc node id state) (fun '(_, r, _, _) => rest_of f r).
Proof.
  intros Hw. induction fuel as [|fuel IH]; intros f doc node id state Hf Hl; [lia|]. cbn [parse_test_struct]. unfold next_token.
  eapply ends_bind; [by apply next_token_ends|]. intros [[[tok|] r] d] [[Hr Hrl] Ht]; [|done]. specialize (Ht ltac:(eauto)).
  assert (Hgo : forall r' doc' node' id' state', rest_of r r' ->
    ends (parse_test_struct fs cmdline_includepath fuel ip whole t r' doc' node' id' state') (fun '(_, x, _, _) => rest_of f x)).
  { intros r' doc' node' id' state' [Hr' Hl']. eapply ends_weaken; [apply IH; [done|lia]|]. intros [[[x1 x] x2] x3] [Hx Hxl]. split; [done|lia]. }
  assert (rest_of r r) by done.
  do 6 (case_match; [done || by apply Hgo|]).
  eapply (ends_bind _ _ (fun '(_, _, x) => rest_of r x)).
  - case_match; [eapply ends_bind; [apply parse_array_ends; [done|lia]|by intros [[? ?] ?] ?]|].
    case_match; [|done]. eapply ends_bind; [by apply parse_array_size_ends|by intros [[? ?] ?] ?].
  - intros [[failed ret] x] [Hx Hxl]. destruct failed; [split; [done|lia]|]. by destruct ret; apply Hgo.
Qed.

Lemma parse_file_loop_ends ip whole : stream whole -> forall fuel t f doc res found state, stream f -> (length f < fuel)%nat ->
  ends (parse_file_loop fs cmdline_includepath hsize fuel ip whole t f doc res found state) (fun _ => True).
Proof.
  intros Hw. induction fuel as [|fuel IH]; intros t f doc res found state Hf Hl; [lia|]. cbn [parse_file_loop]. unfold next_token.
  eapply ends_bind; [by apply next_token_ends|]. intros [[[tok|] r] d] [[Hr Hrl] Ht]; [|done]. specialize (Ht ltac:(eauto)).
  eapply (ends_bind _ _ (fun '(_, x, _, _) => rest_of r x)).
  - case_match; [done|]. case_match; [|done].
    eapply ends_bind; [by apply next_token_ends|]. intros [[[tok'|] r'] d'] [Hr' _]; [|done]. destruct Hr' as [Hr' Hl'].
    case_match; [eapply ends_bind; [by apply parse_macro_ends|]; intros [t' x] [Hx Hxl]; split; [done|lia]|].
    case_match; [eapply ends_bind; [by apply parse_include_macros_ends|]; intros [t' x] [Hx Hxl]; split; [done|lia]|done].
  - intros [[[t' x] doc'] state'] [Hx Hxl]. case_match; [apply IH; (done || lia)|].
    eapply ends_bind; [apply parse_test_struct_ends; [done|done|lia]|]. intros [[[x1 y] x2] x3] [Hy Hyl]. apply IH; (done || lia).
Qed.

Lemma lift_ends {A} (r : res unit A) : ends (lift r) (fun _ => True).
Proof. by destruct r. Qed.

Lemma add_all_implied_ends l res : ends (add_all_implied l res) (fun _ => True).
Proof.
  assert (Hi : forall ids res, ends (add_implied ids res) (fun _ => True)).
  { induction ids as [|id ids IH]; intros r; [done|]. cbn [add_implied]. eapply ends_bind; [apply lift_ends|]. intros n _. apply IH. }
  revert res. induction l as [|[flag ids] l IH]; intros res; [done|]. cbn [add_all_implied]. eapply ends_bind; [apply lift_ends|]. intros n _.
  eapply (ends_bind _ _ (fun _ => True)); [by destruct n|]. intros r _. apply IH.
Qed.

Lemma normalize_ends LONG_MIN LONG_MAX fname res : ends (normalize LONG_MIN LONG_MAX fname res) (fun _ => True).
Proof.
  unfold normalize. eapply (ends_bind _ _ (fun _ => True)).
  { generalize filter_out as ids. intros ids. revert res. induction ids as [|id ids IH]; intros res; [done|].
    cbn [filter_data]. eapply ends_bind; [apply lift_ends|]. intros [n r] _. apply IH. }
  intros res1 _. eapply (ends_bind _ _ (fun _ => True)).
  { generalize tst_test_typemap as ids. intros ids. revert res1. induction ids as [|id ids IH]; intros res1; [done|].
    cbn [check_normalize_types]. eapply ends_bind; [apply lift_ends|]. intros [[]|] _; try done; try apply IH.
    eapply (ends_bind _ _ (fun _ => True)); [|intros; apply IH]. unfold convert_str2int. case_match; [done|].
    eapply ends_bind; [apply lift_ends|]. by intros [? ?] _. }
  intros res2 _. eapply ends_bind; [apply add_all_implied_ends|]. done.
Qed.
End Terminates.

(** C28: the extraction of the metadata ends: none of its loops runs for ever,
    unless the source or a file that it includes has a comment that is not
    closed, or a line of 4095 or more characters in which the end of a
    documentation comment can be overlooked. *)
Theorem metaparse_terminates LONG_MIN LONG_MAX fs cmdline_includepath hsize fname :
  main LONG_MIN LONG_MAX fs cmdline_includepath hsize fname <> Err NoFuel /\
  (main LONG_MIN LONG_MAX fs cmdline_includepath hsize fname = Err Loops -> exists path w, fs path = Some w /\ open_comment w).
Proof.
  assert (H : ends fs (main LONG_MIN LONG_MAX fs cmdline_includepath hsize fname) (fun _ => True)).
  - unfold main. eapply (ends_bind fs _ _ (fun _ => True)).
    + unfold parse_file. destruct (fs fname) as [f|] eqn:Ef; [|done].
      assert (stream fs f) by (by exists fname, f).
      eapply ends_bind; [apply parse_file_loop_ends; [done|done|lia]|]. intros [[doc res] found] _. by repeat case_match.
    + intros [res|] _; [|done]. eapply ends_bind; [apply normalize_ends|done].
  - destruct (main _ _ _ _ _ _) as [a|[]|]; simpl in H; split; try done.
Qed.
