(* ===== verification/MetaNorm.v ===== *)
(** * Normalisation of test metadata

    The bounded hash of [data_storage.h] is a finite map, and the part of
    [metaparse.c] behind the parser is a function on such maps. *)

From stdpp Require Import base list strings gmap.
From Stdlib Require Import ZArith Lia.
From S2P Require Import Prelude ParseNum DataStorage MetaParse.

Local Open Scope Z_scope.

(** ** The hash as a map *)

(** The first element with a key counts. *)
Definition hmap (elems : list (cstr * data_node)) : gmap cstr data_node := list_to_map elems.

Lemma hmap_index elems id : hmap elems !! id = (hash_index elems id ≫= fun i => snd <$> elems !! i).
Proof.
  induction elems as [|[k n] elems IH]; [done|]. cbn [hash_index]. unfold hmap in *. cbn [list_to_map foldr uncurry].
  unfold streq. destruct (bool_decide_reflect (k = id)) as [->|Hne]; [by rewrite lookup_insert_eq|].
  rewrite lookup_insert_ne by done. rewrite IH. by destruct (hash_index elems id).
Qed.

Lemma hash_get_map elems id : data_node_hash_get (DATA_HASH elems) id = Ok (hmap elems !! id).
Proof.
  rewrite hmap_index. unfold data_node_hash_get. pose proof (hash_index_spec elems id) as H. destruct (hash_index elems id) as [i|]; [|done].
  destruct H as (n & Hn & _). simpl. by rewrite Hn.
Qed.

Lemma hmap_snoc elems id n : hmap elems !! id = None -> hmap (elems ++ [(id, n)]) = <[id := n]> (hmap elems).
Proof.
  unfold hmap. intros H. rewrite list_to_map_app. simpl. apply map_eq. intros k. rewrite lookup_union.
  destruct (decide (k = id)) as [->|Hne].
  - rewrite H, !lookup_insert_eq. by simplify_option_eq.
  - rewrite !lookup_insert_ne, lookup_empty by done. by destruct (_ !! k).
Qed.

Lemma hmap_none elems id : hmap elems !! id = None <-> id ∉ elems.*1.
Proof. unfold hmap. split; [intros H Hin; by apply not_elem_of_list_to_map in H|apply not_elem_of_list_to_map]. Qed.

Lemma hash_del_map elems id : NoDup elems.*1 -> exists r elems',
  data_node_hash_del (DATA_HASH elems) id = Ok (r, DATA_HASH elems') /\ hmap elems' = delete id (hmap elems) /\ NoDup elems'.*1 /\
  (length elems' <= length elems)%nat /\ (is_Some (hmap elems !! id) -> (length elems' < length elems)%nat).
Proof.
  intros Hnd. pose proof (hash_del_spec elems id) as H. pose proof (hash_index_spec elems id) as Hi. destruct (hash_index elems id) as [i|].
  - destruct H as (n & elems' & Hn & E & Hp). exists 1, elems'. split; [done|]. pose proof Hnd as Hnd'. rewrite Hp in Hnd'. cbn [fmap list_fmap fst] in Hnd'.
    apply NoDup_cons in Hnd' as [Hid Hnd']. split; [|split; [done|]].
    + unfold hmap. rewrite (list_to_map_proper elems ((id, n) :: elems')) by done. cbn [list_to_map foldr uncurry fst snd].
      rewrite delete_insert_id; [done|]. by apply not_elem_of_list_to_map.
    + apply Permutation_length in Hp. simpl in Hp. lia.
  - exists 0, elems. split; [done|]. apply hmap_none in Hi. rewrite delete_id by done. split_and!; try done. intros [? ?]. congruence.
Qed.

(** Operations on a hash, and on a map of at most [MAX_ELEMS] keys. *)
Inductive hash_op : Type := HAdd (id : cstr) (n : data_node) | HDel (id : cstr) | HGet (id : cstr).
Inductive answer : Type := Ret (z : Z) | Found (n : option data_node).
Definition hash_step (op : hash_op) (self : data_node) : res unit (answer * data_node) :=
  match op with
  | HAdd id n => let '(r, self) := data_node_hash_add self id n in Ok (Ret r, self)
  | HDel id => '(r, self) ← data_node_hash_del self id; Ok (Ret r, self)
  | HGet id => o ← data_node_hash_get self id; Ok (Found o, self)
  end.
Definition map_step (op : hash_op) (m : gmap cstr data_node) : answer * gmap cstr data_node :=
  match op with
  | HAdd id n => if decide (size m = MAX_ELEMS) then (Ret 1, m) else (Ret 0, <[id := n]> m)
  | HDel id => (Ret (if decide (is_Some (m !! id)) then 1 else 0), delete id m)
  | HGet id => (Found (m !! id), m)
  end.
Fixpoint hash_steps (ops : list hash_op) (self : data_node) : res unit (list answer * data_node) :=
  match ops with
  | [] => Ok ([], self)
  | op :: ops => '(a, self) ← hash_step op self; '(l, self) ← hash_steps ops self; Ok (a :: l, self)
  end.
Fixpoint map_steps (ops : list hash_op) (m : gmap cstr data_node) : list answer * gmap cstr data_node :=
  match ops with
  | [] => ([], m)
  | op :: ops => let '(a, m) := map_step op m in let '(l, m) := map_steps ops m in (a :: l, m)
  end.
(** A key is added only while it is absent. *)
Fixpoint adds_absent (ops : list hash_op) (m : gmap cstr data_node) : bool :=
  match ops with
  | [] => true
  | op :: ops => match op with HAdd id _ => bool_decide (m !! id = None) | _ => true end && adds_absent ops (map_step op m).2
  end.

(** A hash with distinct keys holds the map. *)
Definition holds (self : data_node) (m : gmap cstr data_node) : Prop := exists elems, self = DATA_HASH elems /\ NoDup elems.*1 /\ hmap elems = m.

Lemma hash_step_refines op self m : holds self m -> (forall id n, op = HAdd id n -> m !! id = None) ->
  exists self', hash_step op self = Ok ((map_step op m).1, self') /\ holds self' (map_step op m).2.
Proof.
  intros (elems & -> & Hnd & <-) Habs. destruct op as [id n|id|id]; cbn [hash_step map_step].
  - specialize (Habs id n eq_refl). unfold data_node_hash_add. assert (Hs : size (hmap elems) = length elems) by (unfold hmap; rewrite map_size_list_to_map by done; by rewrite length_fmap || done).
    rewrite Hs. destruct (decide (length elems = MAX_ELEMS)) as [E|E]; [rewrite (proj2 (Nat.eqb_eq _ _) E); eexists; split; [done|by exists elems]|]. rewrite (proj2 (Nat.eqb_neq _ _) E). eexists. split; [done|]. exists (elems ++ [(id, n)]).
    split_and!; [done| |by apply hmap_snoc]. rewrite fmap_app. apply NoDup_app. split_and!; [done| |apply NoDup_singleton]. intros x Hx Hx'. cbn in Hx'. apply list_elem_of_singleton in Hx' as ->. by apply hmap_none in Habs.
  - destruct (hash_del_map elems id Hnd) as (r & elems' & E & Hm & Hnd' & _). exists (DATA_HASH elems'). split; [|by exists elems']. rewrite E. cbn [mbind res_bind fst].
    do 3 f_equal. revert E. unfold data_node_hash_del. pose proof (hash_index_spec elems id) as Hi. rewrite hmap_index. destruct (hash_index elems id) as [i|].
    + destruct Hi as (x & Hx & _). rewrite bind_Ok. intros (y & _ & [= <- _]). cbn. rewrite Hx. done.
    + intros [= <- _]. done.
  - rewrite hash_get_map. eexists. split; [done|]. by exists elems.
Qed.

(** C37: the hash of [data_storage.h] is a finite map of bounded size as long as no key
    is added that it has: the answers to any sequence of insertions, deletions (which
    move the last element) and lookups are those of the map, a full hash refuses the
    insertion, and the hash holds the map in the end.  A hash with any keys answers
    a lookup with the first element that has the key.  Adding a key that is there
    appends a second element: lookups do not change, and after one deletion the
    key is still there. *)
Theorem hash_refines_map :
  (forall ops, adds_absent ops ∅ = true -> exists self', hash_steps ops data_node_hash = Ok ((map_steps ops ∅).1, self') /\ holds self' (map_steps ops ∅).2) /\
  (forall elems k, match data_node_hash_get (DATA_HASH elems) k with
     | Ok (Some n) => exists i, elems !! i = Some (k, n) /\ forall j n', elems !! j = Some (k, n') -> (i <= j)%nat
     | Ok None => forall j n', elems !! j <> Some (k, n')
     | _ => False end) /\
  (forall elems k n n', data_node_hash_get (DATA_HASH elems) k = Ok (Some n') -> length elems <> MAX_ELEMS ->
     exists elems' elems'', data_node_hash_add (DATA_HASH elems) k n = (0, DATA_HASH elems') /\
       (forall k', data_node_hash_get (DATA_HASH elems') k' = data_node_hash_get (DATA_HASH elems) k') /\
       data_node_hash_del (DATA_HASH elems') k = Ok (1, DATA_HASH elems'') /\ data_node_hash_get (DATA_HASH elems'') k <> Ok None).
Proof.
  split_and!.
  - intros ops. assert (Hgen : forall ops self m, holds self m -> adds_absent ops m = true -> exists self', hash_steps ops self = Ok ((map_steps ops m).1, self') /\ holds self' (map_steps ops m).2).
    { clear ops. induction ops as [|op ops IH]; intros self m Hh Ha; [by exists self|]. cbn [adds_absent hash_steps map_steps] in *. apply andb_true_iff in Ha as [Ha1 Ha2].
      destruct (hash_step_refines op self m Hh) as (self1 & -> & H1); [intros id n ->; by apply bool_decide_eq_true in Ha1|]. cbn [mbind res_bind]. destruct (map_step op m) as [a m1]. cbn [fst snd] in *.
      destruct (IH self1 m1 H1 Ha2) as (self2 & -> & H2). destruct (map_steps ops m1) as [l m2]. cbn [fst snd mbind res_bind] in *. by exists self2. }
    intros Ha. apply Hgen; [|done]. exists []. split_and!; [done|constructor|done].
  - intros elems k. unfold data_node_hash_get. pose proof (hash_index_spec elems k) as H. destruct (hash_index elems k) as [i|].
    + destruct H as (n & Hn & Hfirst). rewrite Hn. cbn. exists i. split; [done|]. intros j n' Hj. destruct (Nat.le_gt_cases i j) as [|Hlt]; [done|]. destruct (Hfirst j Hlt). by rewrite list_lookup_fmap, Hj.
    + intros j n' Hj. apply H, list_elem_of_fmap. exists (k, n'). split; [done|]. by eapply list_elem_of_lookup_2.
  - intros elems k n n' Hk Hl. rewrite hash_get_map in Hk. injection Hk as Hk. unfold data_node_hash_add. rewrite (proj2 (Nat.eqb_neq _ _) Hl).
    assert (Hh : hmap (elems ++ [(k, n)]) = hmap elems).
    { unfold hmap in *. rewrite list_to_map_app. apply map_eq. intros x. rewrite lookup_union. cbn. destruct (decide (x = k)) as [->|Hne]; [by rewrite Hk, lookup_insert_eq|]. rewrite lookup_insert_ne, lookup_empty by done. by destruct (_ !! x). }
    pose proof (hash_del_spec (elems ++ [(k, n)]) k) as Hd. pose proof (hmap_index (elems ++ [(k, n)]) k) as Hi. rewrite Hh, Hk in Hi. destruct (hash_index (elems ++ [(k, n)]) k) as [i|]; [|done].
    destruct Hd as (n0 & elems'' & Hn0 & Ed & Hp). exists (elems ++ [(k, n)]), elems''. split_and!; [done|intros k'; by rewrite !hash_get_map, Hh|done|]. rewrite hash_get_map. intros [= Hno]. apply hmap_none in Hno. apply Hno.
    assert (Hin : exists x, (k, x) ∈ elems) by (unfold hmap in Hk; apply elem_of_list_to_map_2 in Hk; eauto). destruct Hin as [x Hx].
    apply (fmap_Permutation fst) in Hp. rewrite fmap_app in Hp. cbn [fmap list_fmap fst] in Hp. rewrite <-Permutation_cons_append in Hp. apply (inj (cons k)) in Hp. rewrite <-Hp. apply list_elem_of_fmap. by exists (k, x).
Qed.

(** ** The specification of the normalisation *)

Section Norm.
Context (LONG_MIN LONG_MAX : Z).

Definition drop_keys (ids : list cstr) (m : gmap cstr data_node) : gmap cstr data_node := foldl (fun m id => delete id m) m ids.

(** The number of variants is a number; [None]: the program exits. *)
Definition VARIANTS : cstr := str "test_variants".
Definition int_variants (m : gmap cstr data_node) : option (gmap cstr data_node) :=
  match m !! VARIANTS with
  | None | Some (DATA_INT _) => Some m
  | Some (DATA_STRING s) =>
      let r := strtol LONG_MIN LONG_MAX 10 s in
      if (st_errno r =? 0) && bool_decide (st_end r = []) then Some (<[VARIANTS := DATA_INT (st_val r)]> m) else None
  | Some _ => None
  end.

(** The tags that a map implies, and the map with them. *)
Definition implied_keys (l : list (cstr * list cstr)) (m : gmap cstr data_node) : list cstr :=
  concat (map (fun '(flag, ids) => match m !! flag with Some _ => ids | None => [] end) l).
Definition ones (ids : list cstr) : gmap cstr data_node := list_to_map (map (fun id => (id, DATA_STRING (str "1"))) ids).
Definition close (l : list (cstr * list cstr)) (m : gmap cstr data_node) : gmap cstr data_node := m ∪ ones (implied_keys l m).

(** ** Its proof *)

(** A hash with distinct keys, the map [m] and at most [n] elements. *)
Definition repr (m : gmap cstr data_node) (n : nat) (node : data_node) : Prop :=
  exists elems, node = DATA_HASH elems /\ NoDup elems.*1 /\ hmap elems = m /\ (length elems <= n)%nat.

Lemma repr_get m n node id : repr m n node -> data_node_hash_get node id = Ok (m !! id).
Proof. intros (elems & -> & _ & <- & _). apply hash_get_map. Qed.

Lemma repr_add m n node id v : repr m n node -> m !! id = None -> (n < MAX_ELEMS)%nat ->
  repr (<[id := v]> m) (S n) (data_node_hash_add node id v).2.
Proof.
  intros (elems & -> & Hnd & <- & Hl) Hid Hn. unfold data_node_hash_add. rewrite (proj2 (Nat.eqb_neq _ _)) by lia.
  exists (elems ++ [(id, v)]). split_and!; [done| |by apply hmap_snoc|rewrite length_app; simpl; lia].
  rewrite fmap_app. apply NoDup_app. split_and!; [done| |apply NoDup_singleton]. intros x Hx Hx'. cbn in Hx'. apply list_elem_of_singleton in Hx' as ->.
  by apply hmap_none in Hid.
Qed.

Lemma repr_del m n node id : repr m n node -> exists r node', data_node_hash_del node id = Ok (r, node') /\ repr (delete id m) n node' /\
  (is_Some (m !! id) -> repr (delete id m) (n - 1) node').
Proof.
  intros (elems & -> & Hnd & <- & Hl). destruct (hash_del_map elems id Hnd) as (r & elems' & E & Hm & Hnd' & Hl1 & Hl2).
  exists r, (DATA_HASH elems'). split; [done|]. split; [|intros Hs; specialize (Hl2 Hs)]; exists elems'; split_and!; (done || lia).
Qed.

Lemma filter_data_repr : forall ids m n node, repr m n node -> exists node', filter_data ids node = Ok node' /\ repr (drop_keys ids m) n node'.
Proof.
  induction ids as [|id ids IH]; intros m n node Hr; [eauto|]. cbn [filter_data drop_keys foldl].
  destruct (repr_del m n node id Hr) as (r & node' & -> & Hr' & _). cbn [lift mbind res_bind]. by apply IH.
Qed.

Lemma int_variants_repr m n node : repr m n node -> (n <= MAX_ELEMS)%nat ->
  match int_variants m with
  | None => check_normalize_types LONG_MIN LONG_MAX tst_test_typemap node = Err (Exits 1)
  | Some m' => exists node', check_normalize_types LONG_MIN LONG_MAX tst_test_typemap node = Ok node' /\ repr m' n node'
  end.
Proof.
  intros Hr Hn. cbn [tst_test_typemap check_normalize_types]. fold VARIANTS. rewrite (repr_get m n node VARIANTS Hr). cbn [lift mbind res_bind].
  unfold int_variants. destruct (m !! VARIANTS) as [[| |s|]|] eqn:E; try done; try (by eexists). unfold convert_str2int.
  rewrite <-negb_andb. destruct ((st_errno _ =? 0) && _); [|done]. cbn [negb].
  destruct (repr_del m n node VARIANTS Hr) as (r & node' & -> & _ & Hr'). cbn [lift mbind res_bind]. eexists. split; [done|].
  specialize (Hr' ltac:(eauto)). destruct n as [|n].
  { destruct Hr as (elems & -> & _ & <- & Hl). destruct elems; [|simpl in Hl; lia]. done. }
  replace (S n - 1)%nat with n in Hr' by lia. rewrite <-(insert_delete_eq m VARIANTS). apply repr_add; [done|by rewrite lookup_delete_eq|lia].
Qed.

Lemma ones_lookup ids k : ones ids !! k = if bool_decide (k ∈ ids) then Some (DATA_STRING (str "1")) else None.
Proof.
  unfold ones. induction ids as [|id ids IH]; [done|]. cbn [map]. rewrite list_to_map_cons. destruct (decide (k = id)) as [->|Hne].
  - rewrite lookup_insert_eq, bool_decide_eq_true_2 by set_solver. done.
  - rewrite lookup_insert_ne, IH by done. do 2 case_bool_decide; set_solver.
Qed.

Lemma with_ones_lookup m ids k : (m ∪ ones ids) !! k =
  match m !! k with Some v => Some v | None => if bool_decide (k ∈ ids) then Some (DATA_STRING (str "1")) else None end.
Proof. rewrite lookup_union, ones_lookup. destruct (m !! k); case_bool_decide; done. Qed.

Lemma add_implied_repr : forall ids m n node, repr m n node -> (n + length ids <= MAX_ELEMS)%nat ->
  exists node', add_implied ids node = Ok node' /\ repr (m ∪ ones ids) (n + length ids) node'.
Proof.
  induction ids as [|id ids IH]; intros m n node Hr Hn; cbn [add_implied length] in *.
  { exists node. split; [done|]. replace (m ∪ ones []) with m; [by rewrite Nat.add_0_r|]. symmetry. apply map_union_empty. }
  rewrite (repr_get m n node id Hr). cbn [lift mbind res_bind]. destruct (m !! id) as [v|] eqn:E.
  - destruct (IH m n node Hr ltac:(lia)) as (node' & E' & elems & -> & Hnd & Hm & Hl). exists (DATA_HASH elems). split; [done|].
    exists elems. split_and!; try done; [|lia]. rewrite Hm. apply map_eq. intros k. rewrite !with_ones_lookup.
    destruct (m !! k) eqn:Ek; [done|]. assert (k <> id) by congruence. do 2 case_bool_decide; set_solver.
  - destruct (IH (<[id := data_node_string (str "1")]> m) (S n) (data_node_hash_add node id (data_node_string (str "1"))).2) as (node' & E' & elems & -> & Hnd & Hm & Hl);
      [apply repr_add; (done || lia)|lia|]. exists (DATA_HASH elems). split; [done|]. exists elems. split_and!; try done; [|lia].
    rewrite Hm. apply map_eq. intros k. rewrite !with_ones_lookup. destruct (decide (k = id)) as [->|Hne].
    + rewrite lookup_insert_eq, E, bool_decide_eq_true_2 by set_solver. done.
    + rewrite lookup_insert_ne by done. destruct (m !! k); [done|]. do 2 case_bool_decide; set_solver.
Qed.

(** A table in which the tags implied by an implied tag are listed too. *)
Definition transitive (l : list (cstr * list cstr)) : Prop :=
  forall f ids g ids', (f, ids) ∈ l -> (g, ids') ∈ l -> g ∈ ids -> ids' ⊆ ids.
Definition total (l : list (cstr * list cstr)) : nat := length (concat (map snd l)).

Lemma implied_in l m k : k ∈ implied_keys l m <-> exists f ids, (f, ids) ∈ l /\ is_Some (m !! f) /\ k ∈ ids.
Proof.
  unfold implied_keys. rewrite list_elem_of_In, in_concat. split.
  - intros (x & Hx & Hk). apply in_map_iff in Hx as ([f ids] & <- & Hin). exists f, ids. destruct (m !! f) as [v|] eqn:E; [|done].
    split; [by apply list_elem_of_In|]. split; [eauto|by apply list_elem_of_In].
  - intros (f & ids & Hin & [v Hv] & Hk). exists ids. split; [|by apply list_elem_of_In]. apply in_map_iff. exists (f, ids). rewrite Hv.
    split; [done|by apply list_elem_of_In].
Qed.

Lemma close_snoc P g ids m : transitive (P ++ [(g, ids)]) ->
  close (P ++ [(g, ids)]) m = match close P m !! g with Some _ => close P m ∪ ones ids | None => close P m end.
Proof.
  intros Ht. assert (E : implied_keys (P ++ [(g, ids)]) m = implied_keys P m ++ match m !! g with Some _ => ids | None => [] end).
  { unfold implied_keys. rewrite map_app, concat_app. cbn [map concat]. by rewrite app_nil_r. }
  unfold close at 1. rewrite E. unfold close at 1. rewrite with_ones_lookup. destruct (m !! g) as [v|] eqn:Eg.
  - apply map_eq. intros k. rewrite (with_ones_lookup (close P m)). unfold close. rewrite !with_ones_lookup. destruct (m !! k); [done|].
    repeat case_bool_decide; try done; set_solver.
  - rewrite app_nil_r. case_bool_decide as Hg; [|done]. apply implied_in in Hg as (f & x & Hf & Hs & Hx).
    assert (Hsub : ids ⊆ x) by (apply (Ht f x g ids); [set_solver..|done]).
    apply map_eq. intros k. rewrite (with_ones_lookup (close P m)). unfold close. rewrite !with_ones_lookup. destruct (m !! k); [done|].
    assert (k ∈ ids -> k ∈ implied_keys P m) by (intros Hi; apply implied_in; exists f, x; set_solver).
    repeat case_bool_decide; try done; tauto.
Qed.

Lemma add_all_repr m0 : forall l P n node, transitive (P ++ l) -> repr (close P m0) n node -> (n + total l <= MAX_ELEMS)%nat ->
  exists node', add_all_implied l node = Ok node' /\ repr (close (P ++ l) m0) (n + total l) node'.
Proof.
  induction l as [|[g ids] l IH]; intros P n node Ht Hr Hn.
  { exists node. by rewrite app_nil_r, Nat.add_0_r. }
  unfold total in Hn |- *. cbn [map concat snd] in Hn |- *. rewrite length_app in Hn |- *. fold (total l) in *.
  cbn [add_all_implied]. rewrite (repr_get _ _ _ g Hr). cbn [lift mbind res_bind].
  replace (P ++ (g, ids) :: l) with ((P ++ [(g, ids)]) ++ l) in * by (by rewrite <-app_assoc).
  assert (Hc : exists node', match close P m0 !! g with Some _ => add_implied ids node | None => Ok node end = Ok node' /\
    repr (close (P ++ [(g, ids)]) m0) (n + length ids) node').
  { rewrite close_snoc; [|intros f x g' x' H1 H2; apply (Ht f x g' x'); set_solver].
    destruct (close P m0 !! g); [apply add_implied_repr; (done || lia)|]. exists node. split; [done|].
    destruct Hr as (elems & -> & ? & ? & ?). exists elems. split_and!; (done || lia). }
  destruct Hc as (node' & -> & Hr'). cbn [mbind res_bind].
  destruct (IH (P ++ [(g, ids)]) (n + length ids)%nat node' Ht Hr' ltac:(lia)) as (node'' & -> & elems & -> & Hnd & Hm & Hl).
  eexists. split; [done|]. exists elems. split_and!; try done. lia.
Qed.

Lemma implies_transitive : transitive implies.
Proof.
  intros f ids g ids' H1 H2 Hg. assert (Hb : forallb (fun a => forallb (fun b => negb (bool_decide (b.1 ∈ a.2)) || forallb (fun x => bool_decide (x ∈ a.2)) b.2) implies) implies = true)
    by (vm_compute; reflexivity).
  rewrite forallb_forall in Hb. specialize (Hb (f, ids) ltac:(by apply list_elem_of_In)). rewrite forallb_forall in Hb.
  specialize (Hb (g, ids') ltac:(by apply list_elem_of_In)). cbn [fst snd] in Hb. rewrite bool_decide_eq_true_2 in Hb by done. cbn [negb orb] in Hb.
  rewrite forallb_forall in Hb. intros x Hx%list_elem_of_In. apply Hb in Hx. by apply bool_decide_eq_true in Hx.
Qed.

(** The part of the program behind the parser, on a hash with distinct keys
    and room for the implied tags: the tags that are not exported are removed,
    the number of variants becomes a number or the program exits, every tag
    that another one implies is present, with the value 1 if it was not given,
    the other entries are kept, and the name of the file is added. *)
Lemma normalize_correct fname elems : NoDup elems.*1 -> (length elems <= 89)%nat -> str "fname" ∉ elems.*1 ->
  match int_variants (drop_keys filter_out (hmap elems)) with
  | None => normalize LONG_MIN LONG_MAX fname (DATA_HASH elems) = Err (Exits 1)
  | Some m => exists out, normalize LONG_MIN LONG_MAX fname (DATA_HASH elems) = Ok (DATA_HASH out) /\ NoDup out.*1 /\
      hmap out = <[str "fname" := DATA_STRING fname]> (close implies m)
  end.
Proof.
  intros Hnd Hl Hf. unfold normalize. assert (Hr : repr (hmap elems) 89 (DATA_HASH elems)) by (by exists elems).
  destruct (filter_data_repr filter_out (hmap elems) 89 _ Hr) as (node1 & -> & Hr1). cbn [mbind res_bind].
  pose proof (int_variants_repr _ 89 node1 Hr1 ltac:(unfold MAX_ELEMS; lia)) as H. destruct (int_variants _) as [m|] eqn:Em; [|by rewrite H].
  destruct H as (node2 & -> & Hr2). cbn [mbind res_bind].
  assert (Hcl : close [] m = m) by (unfold close, implied_keys, ones; cbn [map concat list_to_map foldr]; apply map_union_empty).
  destruct (add_all_repr m implies [] 89 node2) as (node3 & -> & Hr3); [exact implies_transitive|by rewrite Hcl|vm_compute; lia|]. cbn [mbind res_bind app] in *.
  assert (Hn : close implies m !! str "fname" = None).
  { unfold close. rewrite with_ones_lookup. assert (m !! str "fname" = None) as ->.
    { apply hmap_none in Hf. assert (Hd : drop_keys filter_out (hmap elems) !! str "fname" = None) by (unfold drop_keys; cbn [filter_out map foldl]; by rewrite !lookup_delete_ne).
      unfold int_variants in Em. repeat (case_match; try done); injection Em as <-; try done. by rewrite lookup_insert_ne. }
    rewrite bool_decide_eq_false_2; [done|]. intros (f & ids & Hin & _ & Hx)%implied_in.
    assert (Hb : forallb (fun b => negb (bool_decide (str "fname" ∈ b.2))) implies = true) by (vm_compute; reflexivity).
    rewrite forallb_forall in Hb. specialize (Hb (f, ids) ltac:(by apply list_elem_of_In)). cbn [snd] in Hb. by rewrite bool_decide_eq_true_2 in Hb. }
  destruct (repr_add _ _ node3 (str "fname") (data_node_string fname) Hr3 Hn ltac:(vm_compute; lia)) as (out & E & Hnd' & Hm' & _).
  exists out. split; [by rewrite E|]. done.
Qed.
End Norm.

Definition ex_ops : list hash_op := [HAdd (str "a") (DATA_INT 1); HAdd (str "b") (DATA_INT 2); HAdd (str "c") (DATA_INT 3); HDel (str "a"); HGet (str "c"); HGet (str "a"); HAdd (str "a") (DATA_INT 4); HDel (str "d")].
Lemma hash_refines_map_witness : exists self', hash_steps ex_ops data_node_hash = Ok ((map_steps ex_ops ∅).1, self') /\ holds self' (map_steps ex_ops ∅).2.
Proof. apply (proj1 hash_refines_map ex_ops). vm_compute. reflexivity. Defined.
Example ex_ops_run : exists self', hash_steps ex_ops data_node_hash = Ok ([Ret 0; Ret 0; Ret 0; Ret 1; Found (Some (DATA_INT 3)); Found None; Ret 0; Ret 0], self').
Proof. eexists. vm_compute. reflexivity. Qed.
