(* ===== verification/MetaLex.v ===== *)
(** * Reading of source files in [metaparse.c]

    A source file is described as a list of items: white space, characters that the
    reader ignores, comments and tokens.  The reader is proved correct for the text of
    such a list; the parser of the test structure, the search for the size of an array
    and the handling of directives are proved correct for the tokens in it. *)

From stdpp Require Import base list strings gmap.
From Stdlib Require Import ZArith Lia.
From S2P Require Import Prelude ParseNum DataStorage MetaParse.

Local Open Scope Z_scope.

Lemma streq_refl s : streq s s = true.
Proof. unfold streq. by apply bool_decide_eq_true. Qed.
Lemma streq_ne s t : s <> t -> streq s t = false.
Proof. intros H. unfold streq. by apply bool_decide_eq_false. Qed.

(** ** Source texts *)

(** A word may have characters inside that are ignored: [a->b] is read as [a-b]. *)
Inductive tok : Set := Punct (c : Z) | Word (w : cstr) | Quoted (s : cstr).
Definition tok_string (t : tok) : cstr := match t with Punct c => [c] | Word w => List.filter is_word w | Quoted s => s end.
Definition tok_text (t : tok) : cstr := match t with Punct c => [c] | Word w => w | Quoted s => [DQUOTE] ++ s ++ [DQUOTE] end.

(** [Slash] is one that begins no comment. *)
Inductive item : Set := Blank (c : Z) | Other (c : Z) | Slash | Line (s : cstr) | Block (s : cstr) | Tok (t : tok).
Definition item_text (i : item) : cstr :=
  match i with
  | Blank c | Other c => [c]
  | Slash => str "/"
  | Line s => str "//" ++ s ++ [NEWLINE]
  | Block s => str "/*" ++ s ++ str "*/"
  | Tok t => tok_text t
  end.
Definition src_text (l : list item) : cstr := concat (map item_text l).
(** The tokens. *)
Definition toks (l : list item) : list cstr := omap (fun i => match i with Tok t => Some (tok_string t) | _ => None end) l.
Definition is_tok (i : item) : bool := match i with Tok _ => true | _ => false end.
Definition gap (l : list item) : bool := forallb (fun i => negb (is_tok i)) l.

(** In a string a quote has a backslash before it. *)
Fixpoint quoted_ok (prev : Z) (s : cstr) : bool :=
  match s with
  | [] => negb (prev =? BACKSLASH)
  | c :: s' => negb (c =? 0) && (negb (c =? DQUOTE) || (prev =? BACKSLASH)) && quoted_ok c s'
  end.
Definition is_other (c : Z) : bool := negb (is_punct c || is_word c || is_blank c || (c =? "/"%ch) || (c =? DQUOTE)).
Definition no_comment (f : cstr) : bool := negb (at_ f 0 =? "/"%ch) && negb (at_ f 0 =? "*"%ch).
Fixpoint word_ok (w : cstr) : bool :=
  match w with
  | [] => true
  | c :: w' => (is_word c || is_other c || (c =? "/"%ch) && negb (streq w' []) && no_comment w') && word_ok w'
  end.
(** A word fits into the smallest buffer. *)
Definition tok_ok (t : tok) : bool :=
  match t with
  | Punct c => is_punct c
  | Word w => is_word (at_ w 0) && word_ok w && (length w <? 2048)%nat
  | Quoted s => quoted_ok 0 s && (length s <? 2048)%nat
  end.
(** The end of a comment, also together with an asterisk before it. *)
Fixpoint no_close (star : bool) (s : cstr) : bool :=
  match s with
  | [] => true
  | c :: s' => negb (star && (c =? "/"%ch)) && no_close (c =? "*"%ch) s'
  end.
(** [next]: what follows the item. *)
Definition item_ok (i : item) (next : cstr) : bool :=
  match i with
  | Blank c => is_blank c
  | Other c => is_other c
  | Slash => no_comment next
  | Line s => forallb (fun c => negb (c =? NEWLINE)) s
  | Block s => negb (at_ s 0 =? BACKSLASH) && no_close false s
  | Tok t => tok_ok t && match t, next with Word _, c :: _ => is_blank c || is_punct c | _, _ => true end
  end.
Fixpoint items_ok (tail : cstr) (l : list item) : bool :=
  match l with [] => true | i :: l' => item_ok i (src_text l' ++ tail) && items_ok tail l' end.

(** *** Characters *)

Lemma c_string_id s : forallb (fun c => negb (c =? 0)) s = true -> c_string s = s.
Proof. induction s as [|c s IH]; [done|]. cbn [forallb c_string]. intros [Hc Hs]%andb_true_iff. apply negb_true_iff in Hc. by rewrite Hc, IH. Qed.

(** The classes of characters are disjoint. *)
Lemma punct_class c : is_punct c = true -> is_word c = false /\ is_blank c = false /\ c <> 0.
Proof.
  unfold is_punct. intros (x & Hx & ->%Z.eqb_eq)%existsb_exists. simpl in Hx. by repeat (destruct Hx as [<-|Hx]; [vm_compute|]).
Qed.
Lemma word_class c : is_word c = true -> is_punct c = false /\ is_blank c = false /\ c <> 0.
Proof.
  intros Hw. split; [|unfold is_word, isalnum, isdigit, isupper, islower, is_blank, NEWLINE, TAB in *; lia].
  destruct (is_punct c) eqn:E; [|done]. apply punct_class in E. destruct E. congruence.
Qed.
Lemma blank_class c : is_blank c = true -> is_punct c = false /\ is_word c = false /\ (c =? "/"%ch) = false /\ (c =? DQUOTE) = false.
Proof.
  intros Hb. split_and!.
  - destruct (is_punct c) eqn:E; [|done]. apply punct_class in E. destruct E as (_ & ? & _). congruence.
  - destruct (is_word c) eqn:E; [|done]. apply word_class in E. destruct E as (_ & ? & _). congruence.
  - unfold is_blank, NEWLINE, TAB in Hb. lia.
  - unfold is_blank, NEWLINE, TAB, DQUOTE in *. lia.
Qed.
Lemma other_class c : is_other c = true -> is_punct c = false /\ is_word c = false /\ is_blank c = false /\ (c =? "/"%ch) = false /\ (c =? DQUOTE) = false.
Proof. unfold is_other. rewrite negb_true_iff, !orb_false_iff. tauto. Qed.

(** *** Comments *)

Lemma no_comment_reads f d : no_comment f = true -> maybe_comment f d = Ok (f, d).
Proof.
  unfold no_comment. rewrite andb_true_iff, !negb_true_iff. destruct f as [|c f]; [done|]. cbn [at_]. change (at_ (c :: f) 0) with c. intros [H1 H2]. cbn [maybe_comment]. by rewrite H1, H2.
Qed.
Lemma line_reads s r d : forallb (fun c => negb (c =? NEWLINE)) s = true -> maybe_comment (str "/" ++ s ++ [NEWLINE] ++ r) d = Ok (r, d).
Proof.
  intros Hs. change (maybe_comment (str "/" ++ s ++ [NEWLINE] ++ r) d) with (r ← oneline_comment (s ++ [NEWLINE] ++ r); Ok (r, d)).
  assert (oneline_comment (s ++ [NEWLINE] ++ r) = Ok r) as ->; [|done].
  induction s as [|c s IH]; [done|]. cbn [forallb app oneline_comment] in *. apply andb_true_iff in Hs as [Hc Hs]. apply negb_true_iff in Hc. rewrite Hc. by apply IH.
Qed.
Lemma multiline_block r : forall s star, no_close star s = true -> multiline_comment (s ++ str "*/" ++ r) None star [] = Ok (r, None).
Proof.
  induction s as [|c s IH]; intros star Hs.
  - change (str "*/") with ["*"%ch; "/"%ch]. cbn [app multiline_comment]. by rewrite andb_false_r.
  - cbn [no_close] in Hs. apply andb_true_iff in Hs as [H1 H2]. apply negb_true_iff in H1. cbn [app multiline_comment]. rewrite H1. by apply IH.
Qed.
Lemma block_reads s r d : negb (at_ s 0 =? BACKSLASH) = true -> no_close false s = true -> maybe_comment (str "*" ++ s ++ str "*/" ++ r) d = Ok (r, d).
Proof.
  intros Hb Hs. change (maybe_comment (str "*" ++ s ++ str "*/" ++ r) d) with (maybe_doc_comment (s ++ str "*/" ++ r) d).
  pose proof (multiline_block r s false Hs) as Hm. unfold maybe_doc_comment, doc_prefix. apply negb_true_iff in Hb. destruct s as [|c s].
  - cbn [app] in *. change (str "*/" ++ r) with ("*"%ch :: "/"%ch :: r) in *. cbn [match_prefix]. change ("*"%ch =? BACKSLASH) with false. change ("*"%ch =? "*"%ch) with true. cbv iota. by rewrite Hm.
  - change (at_ (c :: s) 0) with c in Hb. cbn [app] in *. cbn [match_prefix]. rewrite Hb. destruct (c =? "*"%ch) eqn:Ec; [by rewrite Hm|].
    cbn [multiline_comment andb] in Hm. rewrite Ec in Hm. by rewrite Hm.
Qed.

(** *** Gaps *)

Lemma token_loop_fuel size : forall fuel fuel' f doc buf in_str, (length f < fuel)%nat -> (length f < fuel')%nat ->
  token_loop fuel size f doc buf in_str = token_loop fuel' size f doc buf in_str.
Proof.
  induction fuel as [|fuel IH]; intros fuel' f doc buf in_str Hf Hf'; [lia|]. destruct fuel' as [|fuel']; [lia|]. cbn [token_loop].
  destruct f as [|c f]; [done|]. cbn [length] in *. repeat (case_match; try done; try (apply IH; lia)).
  pose proof (maybe_comment_spec f doc) as Hm. destruct (maybe_comment f doc) as [[r d]|[]|]; try done. simpl in Hm |- *.
  apply suffix_length in Hm. apply IH; lia.
Qed.
Lemma token_loop_slash fuel size f doc buf :
  token_loop (S fuel) size ("/"%ch :: f) doc buf false = (m ← maybe_comment f doc; token_loop fuel size m.1 m.2 buf false).
Proof. reflexivity. Qed.

Lemma gap_step i r size d : is_tok i = false -> item_ok i r = true -> forall fuel fuel', (length (item_text i ++ r) < fuel)%nat -> (length r < fuel')%nat ->
  token_loop fuel size (item_text i ++ r) d [] false = token_loop fuel' size r d [] false.
Proof.
  intros Hi Hok [|fuel] fuel' Hf Hf'; [lia|]. destruct i as [c|c| |s|s|t]; cbn [item_ok item_text] in *; [..|done].
  - destruct (blank_class c Hok) as (H1 & H2 & H3 & H4). cbn [app token_loop]. rewrite H1, H2, H3, H4, Hok. cbn [andb negb bool_decide]. apply token_loop_fuel; cbn [app length] in *; lia.
  - destruct (other_class c Hok) as (H1 & H2 & H3 & H4 & H5). cbn [app token_loop]. rewrite H1, H2, H3, H4, H5. apply token_loop_fuel; cbn [app length] in *; lia.
  - change (str "/" ++ r) with ("/"%ch :: r) in *. rewrite token_loop_slash, no_comment_reads by done. cbn [mbind res_bind fst snd]. apply token_loop_fuel; cbn [length] in *; lia.
  - replace ((str "//" ++ s ++ [NEWLINE]) ++ r) with ("/"%ch :: str "/" ++ s ++ [NEWLINE] ++ r) in * by (by rewrite <-!app_assoc). rewrite token_loop_slash, line_reads by done. cbn [mbind res_bind fst snd].
    apply token_loop_fuel; [|done]. cbn [length] in Hf. rewrite !length_app in Hf. lia.
  - apply andb_true_iff in Hok as [H1 H2]. replace ((str "/*" ++ s ++ str "*/") ++ r) with ("/"%ch :: str "*" ++ s ++ str "*/" ++ r) in * by (by rewrite <-!app_assoc). rewrite token_loop_slash, block_reads by done. cbn [mbind res_bind fst snd].
    apply token_loop_fuel; [|done]. cbn [length] in Hf. rewrite !length_app in Hf. lia.
Qed.
Lemma gaps_skip tail size d : forall g fuel fuel', gap g = true -> items_ok tail g = true -> (length (src_text g ++ tail) < fuel)%nat -> (length tail < fuel')%nat ->
  token_loop fuel size (src_text g ++ tail) d [] false = token_loop fuel' size tail d [] false.
Proof.
  induction g as [|i g IH]; intros fuel fuel' Hg Hok Hf Hf'; [by apply token_loop_fuel|]. cbn [gap forallb items_ok] in *. apply andb_true_iff in Hg as [Hi Hg], Hok as [H1 H2]. apply negb_true_iff in Hi.
  unfold src_text in *. cbn [map concat] in *. rewrite <-app_assoc in *. rewrite (gap_step i _ size d Hi H1 fuel (S (length (concat (map item_text g) ++ tail)))) by (done || lia). apply IH; (done || lia).
Qed.

(** *** Tokens *)

Lemma lex_punct size d c r fuel : (2048 <= size)%nat -> is_punct c = true -> (0 < fuel)%nat -> token_loop fuel size (c :: r) d [] false = Ok (Some [c], r, d).
Proof.
  intros Hsz Hc Hf. destruct fuel as [|fuel]; [lia|]. cbn [token_loop]. rewrite Hc. unfold end_token. rewrite bool_decide_eq_true_2 by done.
  cbn [length]. rewrite (proj2 (Nat.ltb_lt 0 (size - 1))) by lia. rewrite bool_decide_eq_false_2 by done. cbn [andb app length].
  rewrite (proj2 (Nat.ltb_lt 1 size)) by lia. cbn [c_string]. by rewrite (proj2 (Z.eqb_neq c 0) (proj2 (proj2 (punct_class c Hc)))).
Qed.

(** A blank behind a word is read with it, other characters are put back. *)
Definition after_word (r : cstr) : cstr := match r with c :: r' => if is_blank c then r' else r | [] => [] end.
Lemma end_word size buf r fuel d : (length buf < size)%nat -> buf <> [] -> forallb (fun c => negb (c =? 0)) buf = true ->
  match r with c :: _ => is_blank c || is_punct c | [] => true end = true -> (0 < fuel)%nat -> token_loop fuel size r d buf false = Ok (Some buf, after_word r, d).
Proof.
  intros Hl Hne Hz Hr Hf. assert (He : forall f, end_token size buf false f d = Ok (Some buf, f, d)).
  { intros f. unfold end_token. rewrite bool_decide_eq_false_2 by done. cbn [andb]. by rewrite (proj2 (Nat.ltb_lt _ _) Hl), c_string_id. }
  destruct fuel as [|fuel]; [lia|]. cbn [token_loop]. destruct r as [|c r]; [by apply He|]. cbn [after_word].
  destruct (is_blank c) eqn:Eb.
  - destruct (blank_class c Eb) as (H1 & H2 & H3 & H4). rewrite H1, H2, H3, H4. rewrite bool_decide_eq_false_2 by done. cbn [negb andb]. apply He.
  - cbn [orb] in Hr. rewrite Hr. rewrite bool_decide_eq_false_2 by done. apply He.
Qed.
Lemma lex_word size d r : (2048 <= size)%nat -> match r with c :: _ => is_blank c || is_punct c | [] => true end = true ->
  forall w buf fuel, word_ok w = true -> (length (buf ++ w) < 2048)%nat -> buf ++ List.filter is_word w <> [] ->
  forallb (fun c => negb (c =? 0)) buf = true -> (length (w ++ r) < fuel)%nat ->
  token_loop fuel size (w ++ r) d buf false = Ok (Some (buf ++ List.filter is_word w), after_word r, d).
Proof.
  intros Hsz Hr. induction w as [|x w IH]; intros buf fuel Hw Hl Hne Hz Hf.
  - cbn [List.filter app] in *. rewrite app_nil_r in *. apply end_word; (done || lia).
  - destruct fuel as [|fuel]; [simpl in Hf; lia|]. cbn [word_ok] in Hw. apply andb_true_iff in Hw as [Hx Hw]. cbn [app length List.filter] in *. rewrite length_app in Hl. cbn [length] in Hl.
    destruct (is_word x) eqn:Ex.
    + destruct (word_class x Ex) as (Hp & _ & Hx0). cbn [token_loop]. rewrite Hp, Ex. rewrite (proj2 (Nat.ltb_lt (length buf) size)) by lia.
      rewrite (IH (buf ++ [x]) fuel Hw); [by rewrite <-app_assoc|rewrite !length_app; simpl; lia|by rewrite <-app_assoc| |lia].
      rewrite forallb_app, Hz. cbn [forallb]. by rewrite (proj2 (Z.eqb_neq x 0) Hx0).
    + cbn [orb] in Hx. assert (Hgo : forall fuel, (length (w ++ r) < fuel)%nat -> token_loop fuel size (w ++ r) d buf false = Ok (Some (buf ++ List.filter is_word w), after_word r, d)) by (intros fu Hfu; apply IH; (done || rewrite length_app; lia)).
      destruct (is_other x) eqn:Eo.
      * destruct (other_class x Eo) as (H1 & H2 & H3 & H4 & H5). cbn [token_loop]. rewrite H1, Ex, H4, H5, H3. cbn [andb]. apply Hgo. lia.
      * cbn [orb] in Hx. rewrite !andb_true_iff in Hx. destruct Hx as [[Hs%Z.eqb_eq Hne'] Hnc]. subst x. rewrite token_loop_slash. rewrite no_comment_reads; [cbn [mbind res_bind fst snd]; apply Hgo; lia|].
        destruct w as [|y w]; [done|]. exact Hnc.
Qed.

Lemma lex_quoted size d r : (2048 <= size)%nat -> forall s buf fuel, quoted_ok (default 0 (last buf)) s = true -> (length (buf ++ s) < 2048)%nat ->
  forallb (fun c => negb (c =? 0)) buf = true -> (length (s ++ DQUOTE :: r) < fuel)%nat ->
  token_loop fuel size (s ++ DQUOTE :: r) d buf true = Ok (Some (buf ++ s), r, d).
Proof.
  intros Hsz. induction s as [|x s IH]; intros buf fuel Hs Hl Hz Hf; (destruct fuel as [|fuel]; [simpl in Hf; lia|]).
  - cbn [quoted_ok] in Hs. apply negb_true_iff in Hs. rewrite app_nil_r in *. cbn [app token_loop]. change (DQUOTE =? DQUOTE) with true.
    rewrite bool_decide_eq_false_2; [|intros E; rewrite E in Hs; done]. cbn [negb andb]. unfold end_token. rewrite andb_false_r.
    rewrite (proj2 (Nat.ltb_lt _ _)) by lia. by rewrite c_string_id.
  - cbn [quoted_ok] in Hs. rewrite !andb_true_iff in Hs. destruct Hs as [[Hx Hq] Hs]. rewrite length_app in Hl. cbn [length] in Hl. cbn [app token_loop].
    assert ((x =? DQUOTE) && negb (bool_decide (last buf = Some BACKSLASH)) = false) as ->.
    { destruct (x =? DQUOTE); [|done]. cbn [negb orb andb] in *. destruct (last buf) as [y|]; [|done]. change ((y =? BACKSLASH) = true) in Hq. apply Z.eqb_eq in Hq as ->.
      by rewrite bool_decide_eq_true_2. }
    rewrite (proj2 (Nat.ltb_lt (length buf) (size - 1))) by lia.
    rewrite (IH (buf ++ [x]) fuel); [by rewrite <-app_assoc|by rewrite last_snoc|rewrite !length_app; simpl; lia| |simpl in Hf; lia].
    rewrite forallb_app, Hz. cbn [forallb]. by rewrite Hx.
Qed.

(** What is left when a token has been read. *)
Definition behind (t : tok) (rest : list item) : list item := match t, rest with Word _, Blank _ :: r => r | _, _ => rest end.

Lemma first_char rest c f : items_ok [] rest = true -> src_text rest = c :: f -> is_blank c = true -> exists rest', rest = Blank c :: rest' /\ src_text rest' = f.
Proof.
  destruct rest as [|i rest]; [done|]. cbn [items_ok]. intros [Hi _]%andb_true_iff E Hc. destruct (blank_class c Hc) as (H1 & H2 & H3 & H4). unfold src_text in *. cbn [map concat] in E. destruct i as [x|x| |s|s|t]; cbn [item_text item_ok] in *.
  - injection E as -> E. by exists rest.
  - injection E as -> E. destruct (other_class c Hi) as (_ & _ & ? & _). congruence.
  - injection E as <- E. done.
  - injection E as <- E. done.
  - injection E as <- E. done.
  - exfalso. destruct t as [x|w|s]; cbn [tok_text tok_ok] in *.
    + injection E as -> E. rewrite andb_true_r in Hi. congruence.
    + apply andb_true_iff in Hi as [Hi _]. rewrite !andb_true_iff in Hi. destruct Hi as [[Hw _] _]. destruct w as [|x w]; [done|]. injection E as -> E. change (is_word c = true) in Hw. congruence.
    + injection E as <- E. done.
Qed.
Lemma tok_reads size d t rest fuel : (2048 <= size)%nat -> item_ok (Tok t) (src_text rest) = true -> items_ok [] rest = true -> (length (tok_text t ++ src_text rest) < fuel)%nat ->
  token_loop fuel size (tok_text t ++ src_text rest) d [] false = Ok (Some (tok_string t), src_text (behind t rest), d).
Proof.
  intros Hsz Ht Hrest Hf. cbn [item_ok] in Ht. apply andb_true_iff in Ht as [Ht Hn]. destruct t as [c|w|s]; cbn [tok_text tok_string tok_ok behind] in *.
  - apply lex_punct; (done || lia).
  - rewrite !andb_true_iff in Ht. destruct Ht as [[H1 H2] H3%Nat.ltb_lt]. rewrite (lex_word size d (src_text rest) Hsz Hn w []) by (done || (destruct w as [|x w]; [done|]; cbn [List.filter app]; change (is_word x = true) in H1; by rewrite H1)).
    do 3 f_equal. unfold after_word. destruct (src_text rest) as [|c f] eqn:E.
    + destruct rest as [|[] ?]; done.
    + destruct (is_blank c) eqn:Eb; [destruct (first_char rest c f Hrest E Eb) as (r' & -> & <-); done|]. destruct rest as [|[x| | | | |] r']; [done| |done..]. exfalso. cbn [items_ok item_ok] in Hrest. apply andb_true_iff in Hrest as [Hx _]. unfold src_text in E. cbn in E. injection E as -> _. congruence.
  - rewrite andb_true_iff in Ht. destruct Ht as [Hq Hl%Nat.ltb_lt]. cbn [app] in *. rewrite <-app_assoc in *. cbn [app] in *.
    destruct fuel as [|fuel]; [lia|]. cbn [token_loop].
    change (is_punct DQUOTE) with false. change (is_word DQUOTE) with false. change (DQUOTE =? "/"%ch) with false. change (DQUOTE =? DQUOTE) with true. cbv iota.
    apply (lex_quoted size d (src_text rest) Hsz s []); (done || simpl in *; lia).
Qed.

(** The list from its first token on. *)
Fixpoint trim (l : list item) : list item := match l with [] => [] | i :: l' => if is_tok i then l else trim l' end.
Lemma trim_gap g l : gap g = true -> trim (g ++ l) = trim l.
Proof. induction g as [|i g IH]; [done|]. cbn. destruct (is_tok i); [done|]. exact IH. Qed.
Lemma trim_split l : exists g, gap g = true /\ l = g ++ trim l.
Proof.
  induction l as [|i l (g & Hg & E)]; [by exists []|]. cbn [trim]. destruct (is_tok i) eqn:Ei; [by exists []|]. exists (i :: g). cbn [gap forallb app]. rewrite Ei. split; [done|by f_equal].
Qed.
Lemma toks_gap g : gap g = true -> toks g = [].
Proof. induction g as [|i g IH]; [done|]. cbn. destruct i; [exact IH..|done]. Qed.
Lemma toks_app l l' : toks (l ++ l') = toks l ++ toks l'.
Proof. induction l as [|i l IH]; [done|]. cbn. destruct i; [exact IH..|]. cbn. f_equal. exact IH. Qed.
Lemma toks_trim l : toks (trim l) = toks l.
Proof. destruct (trim_split l) as (g & Hg & E). transitivity (toks (g ++ trim l)); [by rewrite toks_app, (toks_gap g Hg)|by rewrite <-E]. Qed.
Lemma trim_behind t rest : trim (behind t rest) = trim rest.
Proof. by destruct t, rest as [|[] ?]. Qed.
Lemma trim_first l t ts : toks l = t :: ts -> exists k rest, trim l = Tok k :: rest /\ tok_string k = t /\ toks rest = ts.
Proof.
  rewrite <-toks_trim. intros E. destruct (trim l) as [|i rest] eqn:Et; [done|]. assert (Hi : is_tok i = true).
  { clear -Et. induction l as [|j l IH]; [done|]. cbn [trim] in Et. destruct (is_tok j) eqn:Ej; [injection Et as -> _; done|by apply IH]. }
  destruct i as [| | | | |k]; try done. cbn in E. injection E as E1 E2. by exists k, rest.
Qed.

Lemma items_ok_app tail l l' : items_ok tail (l ++ l') = items_ok (src_text l' ++ tail) l && items_ok tail l'.
Proof.
  induction l as [|i l IH]; [done|]. cbn [app items_ok]. rewrite IH. unfold src_text. rewrite map_app, concat_app, <-app_assoc. by rewrite andb_assoc.
Qed.
Lemma src_text_app l l' : src_text (l ++ l') = src_text l ++ src_text l'.
Proof. unfold src_text. by rewrite map_app, concat_app. Qed.

Lemma src_suffix l l' : l `suffix_of` l' -> (length (src_text l) <= length (src_text l'))%nat.
Proof. intros [p ->]. rewrite src_text_app, length_app. lia. Qed.

(** *** Positions in a text *)
Section Stream.
Context (L : list item) (HL : items_ok [] L = true).

(** The tokens that are ahead. *)
Definition ahead (l : list item) (ts : list cstr) : Prop := l `suffix_of` L /\ toks l = ts.

Lemma suffix_ok l : l `suffix_of` L -> items_ok [] l = true.
Proof using HL. intros [k E]. rewrite E, items_ok_app in HL. by apply andb_true_iff in HL as [_ ?]. Qed.

Lemma read_tok l k rest : l `suffix_of` L -> trim l = Tok k :: rest ->
  (forall size d, (2048 <= size)%nat -> next_token2 size (src_text l) d = Ok (Some (tok_string k), src_text (behind k rest), d)) /\
  behind k rest `suffix_of` L /\ (length (src_text (behind k rest)) < length (src_text l))%nat.
Proof using HL.
  intros Hl Et. pose proof (suffix_ok l Hl) as Hok. destruct (trim_split l) as (g & Hg & E). rewrite Et in E. rewrite E in Hok. rewrite items_ok_app in Hok. apply andb_true_iff in Hok as [Hok1 Hok2]. rewrite app_nil_r in Hok1.
  cbn [items_ok] in Hok2. apply andb_true_iff in Hok2 as [Hk Hrest]. rewrite app_nil_r in Hk.
  assert (Hsuf : rest `suffix_of` L) by (destruct Hl as [p ->]; exists (p ++ g ++ [Tok k]); rewrite E; by rewrite <-!app_assoc).
  assert (Hb : behind k rest `suffix_of` rest) by (destruct k, rest as [|[] ?]; try done; cbn; by apply suffix_cons_r).
  assert (Hlen : (length (src_text (behind k rest)) <= length (src_text rest))%nat) by by apply src_suffix.
  assert (Htok : (0 < length (tok_text k))%nat).
  { cbn [item_ok] in Hk. apply andb_true_iff in Hk as [Hk _]. destruct k as [c|w|s]; cbn [tok_text tok_ok] in *; [cbn; lia|destruct w; [done|cbn; lia]|cbn; lia]. }
  split_and!.
  - intros size d Hsz. unfold next_token2. rewrite E, src_text_app. change (src_text (Tok k :: rest)) with (tok_text k ++ src_text rest) in *.
    rewrite (gaps_skip (tok_text k ++ src_text rest) size d g _ (S (length (tok_text k ++ src_text rest))) Hg Hok1) by lia. apply tok_reads; (done || lia).
  - by etrans.
  - rewrite E, src_text_app, length_app. change (src_text (Tok k :: rest)) with (tok_text k ++ src_text rest). rewrite length_app. lia.
Qed.
Lemma read_end l : l `suffix_of` L -> toks l = [] -> forall size d, next_token2 size (src_text l) d = Ok (None, [], d).
Proof using HL.
  intros Hl Et size d. pose proof (suffix_ok l Hl) as Hok. assert (Hg : gap l = true) by (clear -Et; induction l as [|i l IH]; [done|]; destruct i; cbn in *; try done; by apply IH).
  unfold next_token2. rewrite <-(app_nil_r (src_text l)). rewrite (gaps_skip [] size d l _ 1 Hg Hok) by (lia || (cbn; lia)). done.
Qed.
(** The next token. *)
Lemma next_tok l t ts : ahead l (t :: ts) -> exists l', (forall size d, (2048 <= size)%nat -> next_token2 size (src_text l) d = Ok (Some t, src_text l', d)) /\
  ahead l' ts /\ (length (src_text l') < length (src_text l))%nat.
Proof using HL.
  intros [Hl E]. destruct (trim_first l t ts E) as (k & rest & Et & <- & <-). destruct (read_tok l k rest Hl Et) as (H1 & H2 & H3). exists (behind k rest). split_and!; [done|split; [done|]|done].
  rewrite <-(toks_trim (behind k rest)), trim_behind. apply toks_trim.
Qed.
Lemma next_4096 l t ts : ahead l (t :: ts) -> exists l', (forall d, next_token (src_text l) d = Ok (Some t, src_text l', d)) /\ ahead l' ts /\ (length (src_text l') < length (src_text l))%nat.
Proof using HL. intros H. destruct (next_tok l t ts H) as (l' & H1 & H2). exists l'. split; [|done]. intros d. apply H1. lia. Qed.

(** Two positions with the same tokens ahead differ in what is skipped only. *)
Lemma same_trim l l' : l `suffix_of` L -> l' `suffix_of` L -> toks l = toks l' -> trim l = trim l'.
Proof.
  assert (Hg : forall p m, toks (p ++ m) = toks m -> trim (p ++ m) = trim m).
  { intros p m E. apply trim_gap. rewrite toks_app in E. assert (Hp : toks p = []) by (apply (f_equal length) in E; rewrite length_app in E; destruct (toks p); [done|cbn in E; lia]).
    clear -Hp. induction p as [|i p IH]; [done|]. destruct i; cbn in *; try done; by apply IH. }
  intros H1 H2 E. destruct (suffix_weak_total l l' L H1 H2) as [[p ->]|[p ->]]; [symmetry|]; by apply Hg.
Qed.
End Stream.

(** ** Arrays *)

(** The values of an initialiser; the commas are among them. *)
Unset Elimination Schemes.
Inductive value : Set := Atom (s : cstr) | Arr (l : list value).
Set Elimination Schemes.

Fixpoint value_tokens (v : value) : list cstr :=
  match v with
  | Atom s => [s]
  | Arr l => str "{" :: concat (map value_tokens l) ++ [str "}"]
  end.
Definition array_tokens (l : list value) : list cstr := concat (map value_tokens l) ++ [str "}"].

(** Commas, empty arrays and [NULL] are left out, and an array has at most
    [MAX_ELEMS] elements. *)
Fixpoint node_of (v : value) : option data_node :=
  match v with
  | Atom s => if streq s (str ",") || streq s (str "NULL") then None else Some (DATA_STRING s)
  | Arr l =>
      let items := omap node_of l in
      if (0 <? length items)%nat then Some (DATA_ARRAY (take MAX_ELEMS items)) else None
  end.

(** A token that is no brace. *)
Definition atom_ok (s : cstr) : bool := negb (streq s (str "{")) && negb (streq s (str "}")).
Fixpoint value_ok (v : value) : bool := match v with Atom s => atom_ok s | Arr l => forallb value_ok l end.

Lemma take_app_take {A} n (l1 l2 : list A) : take n (take n l1 ++ l2) = take n (l1 ++ l2).
Proof.
  destruct (decide (length l1 <= n)%nat) as [H|H]; [by rewrite (take_ge l1) by lia|].
  rewrite (take_app_le l1) by lia. rewrite take_app_le by (rewrite length_take; lia). rewrite take_take. f_equal. lia.
Qed.

Lemma array_add_take acc x : (length acc <= MAX_ELEMS)%nat ->
  (data_node_array_add (DATA_ARRAY acc) x).2 = DATA_ARRAY (take MAX_ELEMS (acc ++ [x])).
Proof.
  intros H. unfold data_node_array_add. destruct (Nat.eqb_spec (length acc) MAX_ELEMS) as [E|E]; cbn [snd].
  - rewrite <-E. by rewrite take_app_length.
  - rewrite take_ge; [done|]. rewrite length_app. simpl. lia.
Qed.

Section Parse.
Context (L : list item) (HL : items_ok [] L = true).
Abbreviation ahead := (ahead L).

(** The return value is 0, and the stream is left behind the closing brace. *)
Lemma parse_array_values : forall fuel vs l rest acc, ahead l (array_tokens vs ++ rest) ->
  forallb value_ok vs = true -> (length acc <= MAX_ELEMS)%nat -> (length (src_text l) < fuel)%nat ->
  exists l', parse_array fuel (src_text l) (DATA_ARRAY acc) = Ok (0, src_text l', DATA_ARRAY (take MAX_ELEMS (acc ++ omap node_of vs))) /\
    ahead l' rest /\ (length (src_text l') < length (src_text l))%nat.
Proof using HL.
  induction fuel as [|fuel IH]; intros vs l rest acc Hl Hok Hacc Hf; [lia|]. cbn [parse_array]. destruct vs as [|v vs].
  { apply (next_4096 L HL) in Hl as (l1 & -> & Hl & Hlen). cbn [mbind res_bind]. change (streq (str "}") (str "{")) with false. rewrite streq_refl. cbv iota. exists l1. cbn [omap list_omap]. by rewrite app_nil_r, take_ge. }
  cbn [forallb] in Hok. apply andb_true_iff in Hok as [Hv Hok]. unfold array_tokens in Hl. cbn [map concat] in Hl. rewrite <-!app_assoc in Hl.
  assert (Hgo : forall l1 node, ahead l1 (array_tokens vs ++ rest) -> (length (src_text l1) < length (src_text l))%nat ->
    exists l', parse_array fuel (src_text l1) (match node with Some x => (data_node_array_add (DATA_ARRAY acc) x).2 | None => DATA_ARRAY acc end)
      = Ok (0, src_text l', DATA_ARRAY (take MAX_ELEMS (acc ++ option_list node ++ omap node_of vs))) /\ ahead l' rest /\ (length (src_text l') < length (src_text l))%nat).
  { intros l1 [x|] HL1 Hl1.
    - rewrite array_add_take by done. destruct (IH vs l1 rest (take MAX_ELEMS (acc ++ [x])) HL1 Hok) as (l' & -> & H1 & H2); [rewrite length_take; lia|lia|]. exists l'. rewrite take_app_take, <-app_assoc. split_and!; (done || lia).
    - destruct (IH vs l1 rest acc HL1 Hok Hacc) as (l' & -> & H1 & H2); [lia|]. exists l'. split_and!; (done || lia). }
  assert (Ho : omap node_of (v :: vs) = option_list (node_of v) ++ omap node_of vs) by (cbn; by destruct (node_of v)).
  assert (Hend : forall vs r, concat (map value_tokens vs) ++ str "}" :: r = array_tokens vs ++ r) by (intros; unfold array_tokens; by rewrite <-app_assoc).
  rewrite Ho. destruct v as [s|l1].
  - cbn [value_tokens app] in Hl. rewrite Hend in Hl. apply (next_4096 L HL) in Hl as (l1 & -> & Hl1 & Hlen). cbn [mbind res_bind]. cbn [value_ok] in Hv. unfold atom_ok in Hv.
    rewrite !andb_true_iff, !negb_true_iff in Hv. destruct Hv as [-> ->]. cbn [node_of]. destruct (streq s (str ",")); cbn [orb]; [by apply (Hgo l1 None)|].
    destruct (streq s (str "NULL")); [by apply (Hgo l1 None)|by apply (Hgo l1 (Some (DATA_STRING s)))].
  - cbn [value_tokens app] in Hl. rewrite <-!app_assoc in Hl. cbn [app] in Hl. rewrite !Hend in Hl. apply (next_4096 L HL) in Hl as (l2 & -> & Hl2 & Hlen). cbn [mbind res_bind].
    rewrite streq_refl. unfold data_node_array. cbn [value_ok] in Hv. destruct (IH l1 l2 _ [] Hl2 Hv) as (l3 & -> & Hl3 & Hlen3); [cbn; lia|lia|]. cbn [mbind res_bind app].
    cbn [node_of data_node_array_len]. rewrite length_take.
    destruct (Nat.ltb_spec 0 (length (omap node_of l1))) as [H0|H0].
    + rewrite (proj2 (Nat.ltb_lt _ _)) by (unfold MAX_ELEMS; lia). apply (Hgo l3 (Some (DATA_ARRAY (take MAX_ELEMS (omap node_of l1))))); (done || lia).
    + rewrite (proj2 (Nat.ltb_ge _ _)) by lia. apply (Hgo l3 None); (done || lia).
Qed.

(** ** The size of an array *)

(** An element of an initialiser: tokens with balanced braces, and commas within
    braces only. *)
Fixpoint balanced (depth : nat) (ts : list cstr) : bool :=
  match ts with
  | [] => (depth =? 0)%nat
  | t :: ts' =>
      if streq t (str "{") then balanced (S depth) ts'
      else if streq t (str "}") then match depth with O => false | S d => balanced d ts' end
      else (negb (streq t (str ",")) || negb (depth =? 0)%nat) && balanced depth ts'
  end.
Definition elem_ok (ts : list cstr) : bool := negb (bool_decide (ts = [])) && balanced 0 ts.
(** The elements with commas between them, and perhaps behind the last one. *)
Fixpoint init_tokens (els : list (list cstr)) (trail : bool) : list cstr :=
  match els with
  | [] => []
  | [e] => e ++ if trail then [str ","] else []
  | e :: els' => e ++ str "," :: init_tokens els' trail
  end.

Lemma len_balanced rest cnt : forall ts fuel l depth comma, ahead l (ts ++ rest) -> balanced depth ts = true -> (ts = [] -> comma = false) ->
  (match ts with t :: _ => streq t (str "}") = true -> comma = false | [] => True end) -> (length (src_text l) < fuel)%nat ->
  exists fuel' l', array_len_loop fuel (src_text l) cnt (Z.of_nat depth) comma = array_len_loop fuel' (src_text l') cnt 0 false /\ ahead l' rest /\ (length (src_text l') < fuel')%nat.
Proof using HL.
  induction ts as [|t ts IH]; intros fuel l depth comma Hl Hb Hc Hc2 Hf.
  - cbn [balanced] in Hb. apply Nat.eqb_eq in Hb as ->. rewrite (Hc eq_refl). by exists fuel, l.
  - destruct fuel as [|fuel]; [lia|]. cbn [app] in Hl. apply (next_4096 L HL) in Hl as (l1 & E & Hl1 & Hlen). cbn [array_len_loop]. rewrite E. cbn [mbind res_bind]. cbn [balanced] in Hb.
    assert (Hnext : forall d', balanced d' ts = true -> exists fuel' l', array_len_loop fuel (src_text l1) cnt (Z.of_nat d') false = array_len_loop fuel' (src_text l') cnt 0 false /\ ahead l' rest /\ (length (src_text l') < fuel')%nat).
    { intros d' Hd. apply (IH fuel l1 d' false); try done; [by destruct ts|lia]. }
    destruct (streq t (str "{")) eqn:E1.
    + unfold streq in E1. apply bool_decide_eq_true in E1 as ->. change (streq (str "{") (str "}")) with false. change (streq (str "{") (str ",")) with false. cbn [andb]. cbv iota beta.
      rewrite (proj2 (Z.ltb_ge _ _)) by lia. replace (Z.of_nat depth + 1) with (Z.of_nat (S depth)) by lia. by apply Hnext.
    + destruct (streq t (str "}")) eqn:E2.
      * destruct depth as [|d]; [done|]. assert (comma = false) as -> by by apply Hc2. assert (streq t (str ",") = false) as -> by (unfold streq in *; apply bool_decide_eq_true in E2 as ->; done). cbn [andb].
        rewrite (proj2 (Z.ltb_ge _ _)) by lia. replace (Z.of_nat (S d) - 1) with (Z.of_nat d) by lia. by apply Hnext.
      * apply andb_true_iff in Hb as [Hb1 Hb2]. assert (streq t (str ",") && (Z.of_nat depth =? 0) = false) as ->.
        { destruct (streq t (str ",")); [|done]. cbn [negb orb andb] in *. apply negb_true_iff, Nat.eqb_neq in Hb1. apply Z.eqb_neq. lia. }
        rewrite (proj2 (Z.ltb_ge _ _)) by lia. by apply Hnext.
Qed.
Lemma len_elems rest trail : forall els fuel l cnt comma, els <> [] -> ahead l (init_tokens els trail ++ str "}" :: rest) -> forallb elem_ok els = true -> (length (src_text l) < fuel)%nat ->
  array_len_loop fuel (src_text l) cnt 0 comma = Ok (cnt + Z.of_nat (length els)).
Proof using HL.
  induction els as [|e els IH]; intros fuel l cnt comma Hne Hl Hok Hf; [done|]. cbn [forallb] in Hok. apply andb_true_iff in Hok as [He Hok]. unfold elem_ok in He. apply andb_true_iff in He as [Hen Heb].
  apply negb_true_iff, bool_decide_eq_false in Hen. assert (Hhead : match e with t :: _ => streq t (str "}") = true -> comma = false | [] => True end).
  { destruct e as [|t e]; [done|]. cbn [balanced] in Heb. intros Et. destruct (streq t (str "{")) eqn:Eo; [|by rewrite Et in Heb]. unfold streq in *. apply bool_decide_eq_true in Et, Eo. subst t. done. }
  assert (Hend : forall fuel l c, ahead l (str "}" :: rest) -> (length (src_text l) < fuel)%nat -> array_len_loop fuel (src_text l) c 0 trail = Ok (c + if trail then 0 else 1)).
  { intros fu l1 c Hl1 Hfu. destruct fu as [|fu]; [lia|]. apply (next_4096 L HL) in Hl1 as (l2 & E & _ & _). cbn [array_len_loop]. rewrite E. cbn [mbind res_bind]. done. }
  assert (Hcomma : forall fuel l c r, ahead l (str "," :: r) -> (length (src_text l) < fuel)%nat -> exists fuel' l', array_len_loop fuel (src_text l) c 0 false = array_len_loop fuel' (src_text l') (c + 1) 0 true /\ ahead l' r /\ (length (src_text l') < fuel')%nat).
  { intros fu l1 c r Hl1 Hfu. destruct fu as [|fu]; [lia|]. apply (next_4096 L HL) in Hl1 as (l2 & E & Hl2 & Hlen). exists fu, l2. split_and!; [|done|lia]. cbn [array_len_loop]. rewrite E. cbn [mbind res_bind]. done. }
  destruct els as [|e2 els].
  - cbn [init_tokens] in Hl. rewrite <-app_assoc in Hl. destruct (len_balanced _ cnt e fuel l 0 comma Hl Heb ltac:(done) Hhead Hf) as (fuel1 & l1 & E & Hl1 & Hf1). change (Z.of_nat 0) with 0 in E. rewrite E. cbn [length].
    destruct trail; cbn [app] in Hl1; [destruct (Hcomma fuel1 l1 cnt _ Hl1 Hf1) as (fuel2 & l2 & -> & Hl2 & Hf2)|]; rewrite Hend by done; f_equal; lia.
  - cbn [init_tokens] in Hl. rewrite <-app_assoc in Hl. cbn [app] in Hl. destruct (len_balanced _ cnt e fuel l 0 comma Hl Heb ltac:(done) Hhead Hf) as (fuel1 & l1 & E & Hl1 & Hf1). change (Z.of_nat 0) with 0 in E. rewrite E.
    destruct (Hcomma fuel1 l1 cnt _ Hl1 Hf1) as (fuel2 & l2 & -> & Hl2 & Hf2). rewrite (IH fuel2 l2 (cnt + 1) true) by done. f_equal. cbn [length]. lia.
Qed.

(** No token [=] with [id] before it, brackets apart. *)
Fixpoint no_def (id prev : cstr) (ts : list cstr) : bool :=
  match ts with
  | [] => true
  | t :: ts' => negb (streq t (str "=") && streq prev id) && no_def id (if streq t (str "]") || streq t (str "[") then prev else t) ts'
  end.
(** The first definition of the array [id] among the tokens has [n] elements. *)
Definition array_def (ts : list cstr) (id : cstr) (n : nat) : Prop :=
  exists before els trail rest, ts = before ++ [id; str "["; str "]"; str "="; str "{"] ++ init_tokens els trail ++ str "}" :: rest /\
    no_def id [] before = true /\ forallb elem_ok els = true /\ els <> [] /\ length els = n /\ forallb (fun t => negb (streq id (str t))) ["["; "]"; "="]%string = true.

Lemma look_finds id els trail rest : forallb elem_ok els = true -> els <> [] -> forallb (fun t => negb (streq id (str t))) ["["; "]"; "="]%string = true ->
  forall before fuel l prev, ahead l (before ++ [id; str "["; str "]"; str "="; str "{"] ++ init_tokens els trail ++ str "}" :: rest) -> no_def id prev before = true -> (length (src_text l) < fuel)%nat ->
  look_for_array_size fuel (src_text l) id prev = Ok (Some (DATA_INT (Z.of_nat (length els)))).
Proof using HL.
  intros Hels Hne Hid. cbn [forallb] in Hid. rewrite !andb_true_iff, !negb_true_iff in Hid. destruct Hid as (I1 & I2 & I3 & _).
  assert (Hstep : forall fuel l t ts prev, ahead l (t :: ts) -> streq t (str "=") && streq prev id = false -> (length (src_text l) < fuel)%nat ->
    exists fuel' l', look_for_array_size fuel (src_text l) id prev = look_for_array_size fuel' (src_text l') id (if streq t (str "]") || streq t (str "[") then prev else t) /\ ahead l' ts /\ (length (src_text l') < fuel')%nat).
  { intros fuel l t ts prev Hl Hn Hf. destruct fuel as [|fuel]; [lia|]. apply (next_tok L HL) in Hl as (l1 & E & Hl1 & Hlen). exists fuel, l1. split_and!; [|done|lia]. cbn [look_for_array_size]. rewrite E by lia. cbn [mbind res_bind]. by rewrite Hn. }
  induction before as [|t before IH]; intros fuel l prev Hl Hn Hf.
  - cbn [app] in Hl. destruct (Hstep fuel l _ _ prev Hl) as (f1 & l1 & -> & Hl1 & Hf1); [by rewrite I3|done|]. rewrite I2, I1. cbn [orb].
    destruct (Hstep f1 l1 _ _ id Hl1) as (f2 & l2 & -> & Hl2 & Hf2); [done|done|]. change (streq (str "[") (str "]") || streq (str "[") (str "[")) with true. cbv iota.
    destruct (Hstep f2 l2 _ _ id Hl2) as (f3 & l3 & -> & Hl3 & Hf3); [done|done|]. change (streq (str "]") (str "]") || streq (str "]") (str "[")) with true. cbv iota.
    destruct f3 as [|f3]; [lia|]. apply (next_tok L HL) in Hl3 as (l4 & E4 & Hl4 & Hlen4). cbn [look_for_array_size]. rewrite E4 by lia. cbn [mbind res_bind]. rewrite !streq_refl. cbn [andb].
    unfold parse_get_array_len. apply (next_4096 L HL) in Hl4 as (l5 & -> & Hl5 & Hlen5). cbn [mbind res_bind]. rewrite streq_refl. rewrite (len_elems rest trail els _ l5 0 false Hne Hl5 Hels) by lia. done.
  - cbn [app no_def] in *. apply andb_true_iff in Hn as [Hn1 Hn2]. apply negb_true_iff in Hn1. destruct (Hstep fuel l _ _ prev Hl Hn1 Hf) as (f1 & l1 & -> & Hl1 & Hf1). by apply IH.
Qed.
End Parse.

(** ** The test structure *)

(** The value of a field: a word or a string, an array, or the size of an
    array. *)
Inductive field_value : Set := FAtom (s : cstr) | FArr (l : list value) | FSize (arr_id : cstr).

(** A field with the casts in front of its value, and the tokens that follow it. *)
Record field : Set := mkField { f_id : cstr; f_casts : list (list cstr); f_value : field_value; f_more : list cstr }.

Definition casts_tokens (cs : list (list cstr)) : list cstr := concat (map (fun c => str "(" :: c ++ [str ")"]) cs).
Definition fvalue_tokens (v : field_value) : list cstr :=
  match v with
  | FAtom s => [s]
  | FArr l => str "{" :: array_tokens l
  | FSize id => [str "ARRAY_SIZE"; str "("; id; str ")"]
  end.
Definition field_tokens (x : field) : list cstr := f_id x :: str "=" :: casts_tokens (f_casts x) ++ fvalue_tokens (f_value x) ++ f_more x.
(** The comma behind the last field may be left out. *)
Fixpoint fields_tokens (l : list field) (trail : bool) : list cstr :=
  match l with
  | [] => []
  | [x] => field_tokens x ++ if trail then [str ","] else []
  | x :: l' => field_tokens x ++ str "," :: fields_tokens l' trail
  end.

Definition not_one_of (l : list string) (s : cstr) : bool := forallb (fun t => negb (streq s (str t))) l.
Definition field_ok (x : field) : bool :=
  not_one_of ["}"%string] (f_id x) &&
  forallb (forallb (not_one_of [")"; "}"]%string)) (f_casts x) &&
  match f_value x with
  | FAtom s => not_one_of ["}"; "("; "{"; "ARRAY_SIZE"]%string s
  | FArr l => forallb value_ok l
  | FSize _ => true
  end && forallb (not_one_of [","; "}"]%string) (f_more x).

(** The key in the result: the name without its dot. *)
Definition key_of (id : cstr) : cstr := if at_ id 0 =? "."%ch then drop 1 id else id.

Section Struct.
Context (fs : cstr -> option cstr) (cmdline_includepath : list cstr) (includepath whole : cstr).
Context (L : list item) (HL : items_ok [] L = true).
(** The sizes of the arrays in the file. *)
Context (sizes : cstr -> option nat).
Abbreviation ahead := (ahead L).

Definition field_node (t : macros) (v : field_value) : data_node :=
  match v with
  | FAtom s => DATA_STRING (try_apply_macro t s)
  | FArr l => DATA_ARRAY (take MAX_ELEMS (omap node_of l))
  | FSize id => DATA_INT (Z.of_nat (default 0%nat (sizes id)))
  end.
Definition entry (t : macros) (x : field) : cstr * data_node := (key_of (f_id x), field_node t (f_value x)).

(** The search for the size of each array that is asked for. *)
Definition size_found (x : field) : Prop :=
  match f_value x with
  | FSize id => exists n, sizes id = Some n /\ look_for_array_size (S (length whole)) whole id [] = Ok (Some (DATA_INT (Z.of_nat n)))
  | _ => True
  end.

Abbreviation pts := (parse_test_struct fs cmdline_includepath).

(** One stretch of the parser: it goes on in the given state with [rest] ahead. *)
Definition continues (t : macros) (doc : data_node) (fuel : nat) (l : list item) (rest : list cstr) (node : data_node) (id : cstr) (state : Z)
    (node' : data_node) (id' : cstr) (state' : Z) : Prop :=
  exists fuel1 l1, (length (src_text l1) < fuel1)%nat /\ ahead l1 rest /\
    pts fuel includepath whole t (src_text l) doc node id state = pts fuel1 includepath whole t (src_text l1) doc node' id' state'.

Lemma continues_trans t doc fuel l rest1 rest node id state node1 id1 state1 node2 id2 state2 :
  continues t doc fuel l rest1 node id state node1 id1 state1 ->
  (forall fuel1 l1, (length (src_text l1) < fuel1)%nat -> ahead l1 rest1 -> continues t doc fuel1 l1 rest node1 id1 state1 node2 id2 state2) ->
  continues t doc fuel l rest node id state node2 id2 state2.
Proof.
  intros (fuel1 & l1 & Hl & Ha & E) H. destruct (H fuel1 l1 Hl Ha) as (fuel2 & l2 & Hl2 & Ha2 & E2). exists fuel2, l2. split_and!; try done. congruence.
Qed.

Ltac step l1 := match goal with
  | Ha : MetaLex.ahead _ ?l (_ :: _), Hl : (length (src_text ?l) < ?fuel)%nat |- _ =>
      let E := fresh "E" in let Ha' := fresh "Ha" in let Hl' := fresh "Hl" in
      apply (next_4096 L HL) in Ha as (l1 & E & Ha' & Hl'); destruct fuel as [|fuel]; [lia|];
      exists fuel, l1; split; [lia|]; split; [exact Ha'|]; cbn [parse_test_struct]; rewrite E; cbn [mbind res_bind default]
  end.

Lemma cast_skip t doc rest node id : forall c fuel l, forallb (not_one_of [")"; "}"]%string) c = true -> (length (src_text l) < fuel)%nat ->
  ahead l (c ++ str ")" :: rest) -> continues t doc fuel l rest node id 3 node id 2.
Proof using HL.
  induction c as [|tok c IH]; intros fuel l Hc Hl Ha; cbn [app] in Ha; [step l1; done|].
  cbn [forallb] in Hc. apply andb_true_iff in Hc as [Ht Hc]. unfold not_one_of in Ht. cbn [forallb] in Ht. rewrite !andb_true_iff, !negb_true_iff in Ht. destruct Ht as (H1 & H2 & _).
  eapply (continues_trans _ _ _ _ (c ++ str ")" :: rest) _ _ _ _ node id 3); [|intros; by apply IH].
  step l1. by rewrite H1, H2.
Qed.

Lemma casts_skip t doc rest node id : forall cs fuel l, forallb (forallb (not_one_of [")"; "}"]%string)) cs = true -> (length (src_text l) < fuel)%nat ->
  ahead l (casts_tokens cs ++ rest) -> continues t doc fuel l rest node id 2 node id 2.
Proof using HL.
  induction cs as [|c cs IH]; intros fuel l Hc Hl Ha; [by exists fuel, l|].
  cbn [forallb] in Hc. apply andb_true_iff in Hc as [Ht Hc]. unfold casts_tokens in Ha. cbn [map concat] in Ha. fold (casts_tokens cs) in Ha.
  cbn [app] in Ha. rewrite <-!app_assoc in Ha. cbn [app] in Ha.
  eapply (continues_trans _ _ _ _ (c ++ str ")" :: casts_tokens cs ++ rest) _ _ _ _ node id 3); [step l1; done|]. intros fuel1 l1 Hl1 Ha1.
  eapply continues_trans; [by eapply cast_skip|]. intros fuel2 l2 Hl2 Ha2. by apply IH.
Qed.

(** The tokens behind a value. *)
Lemma more_skip t doc rest node id : forall ts fuel l, forallb (not_one_of [","; "}"]%string) ts = true -> (length (src_text l) < fuel)%nat ->
  ahead l (ts ++ rest) -> continues t doc fuel l rest node id 4 node id 4.
Proof using HL.
  induction ts as [|tok ts IH]; intros fuel l Hc Hl Ha; cbn [app] in Ha; [by exists fuel, l|].
  cbn [forallb] in Hc. apply andb_true_iff in Hc as [Ht Hc]. unfold not_one_of in Ht. cbn [forallb] in Ht. rewrite !andb_true_iff, !negb_true_iff in Ht. destruct Ht as (H1 & H2 & _).
  eapply (continues_trans _ _ _ _ (ts ++ rest) _ _ _ _ node id 4); [|intros; by apply IH]. step l1. by rewrite H1, H2.
Qed.

(** A value is read and stored. *)
Lemma value_step t doc rest node id x fuel l : field_ok x = true -> size_found x -> (length (src_text l) < fuel)%nat ->
  ahead l (fvalue_tokens (f_value x) ++ f_more x ++ rest) ->
  continues t doc fuel l rest node id 2 (data_node_hash_add node (key_of id) (field_node t (f_value x))).2 id 4.
Proof using HL.
  intros Hok Hsz Hl Ha. unfold field_ok in Hok. apply andb_true_iff in Hok as [Hok Hm]. apply andb_true_iff in Hok as [_ Hok].
  unfold size_found in Hsz. destruct (f_value x) as [s|vs|aid]; cbn [fvalue_tokens field_node] in *.
  - eapply continues_trans; [|intros; by apply (more_skip t doc rest _ id (f_more x))]. unfold not_one_of in Hok. cbn [forallb] in Hok. rewrite !andb_true_iff, !negb_true_iff in Hok. destruct Hok as (H1 & H2 & H3 & H4 & _).
    cbn [app] in Ha. step l1. by rewrite H1, H2, H3, H4.
  - eapply continues_trans; [|intros; by apply (more_skip t doc rest _ id (f_more x))]. cbn [app] in Ha. apply (next_4096 L HL) in Ha as (l1 & E & Ha & Hl1).
    destruct fuel as [|fuel]; [lia|]. destruct (parse_array_values L HL (S (length (src_text l1))) vs l1 (f_more x ++ rest) [] Ha Hok) as (l2 & E2 & Ha2 & Hl2); [cbn; lia|lia|].
    exists fuel, l2. split; [lia|]. split; [exact Ha2|]. cbn [parse_test_struct]. rewrite E. cbn [mbind res_bind default].
    change (streq (str "{") (str "}")) with false. change (2 =? 0) with false. change (2 =? 1) with false. change ((2 =? 2) && streq (str "{") (str "(")) with false.
    change (2 =? 3) with false. change (2 =? 4) with false. cbv iota. rewrite streq_refl. unfold data_node_array. by rewrite E2.
  - destruct Hsz as (n & Hn & Hlook). cbn [app] in Ha. set (node' := (data_node_hash_add node (key_of id) (DATA_INT (Z.of_nat (default 0%nat (sizes aid))))).2).
    eapply (continues_trans _ _ _ _ (str ")" :: f_more x ++ rest) _ _ _ _ node' id 4).
    + apply (next_4096 L HL) in Ha as (l1 & E & Ha & Hl1). apply (next_4096 L HL) in Ha as (l2 & E2 & Ha & Hl2). apply (next_4096 L HL) in Ha as (l3 & E3 & Ha & Hl3).
      destruct fuel as [|fuel]; [lia|]. exists fuel, l3. split; [lia|]. split; [exact Ha|]. cbn [parse_test_struct]. rewrite E. cbn [mbind res_bind default].
      change (streq (str "ARRAY_SIZE") (str "}")) with false. change ((2 =? 2) && streq (str "ARRAY_SIZE") (str "(")) with false.
      change (streq (str "ARRAY_SIZE") (str "{")) with false. change (streq (str "ARRAY_SIZE") (str "ARRAY_SIZE")) with true. cbn [Z.eqb Pos.eqb].
      unfold parse_array_size. rewrite E2. cbn [mbind res_bind]. rewrite streq_refl. cbn [negb]. rewrite E3. cbn [mbind res_bind]. rewrite Hlook. cbn [mbind res_bind Z.eqb negb].
      unfold node'. rewrite Hn. reflexivity.
    + intros fuel1 l1 Hl1 Ha1. apply (more_skip t doc rest node' id (str ")" :: f_more x)); [cbn [forallb]; by rewrite Hm|done|done].
Qed.

Lemma field_step t doc rest node id0 x fuel l : field_ok x = true -> size_found x -> (length (src_text l) < fuel)%nat ->
  ahead l (field_tokens x ++ rest) ->
  continues t doc fuel l rest node id0 0 (data_node_hash_add node (entry t x).1 (entry t x).2).2 (f_id x) 4.
Proof using HL.
  intros Hok Hsz Hl Ha. pose proof Hok as Hok'. unfold field_ok in Hok'. rewrite !andb_true_iff in Hok'. destruct Hok' as [[[Hid Hc] _] _].
  unfold not_one_of in Hid. cbn [forallb] in Hid. rewrite andb_true_iff, negb_true_iff in Hid. destruct Hid as [Hid _].
  unfold field_tokens in Ha. cbn [app] in Ha. rewrite <-!app_assoc in Ha.
  eapply (continues_trans _ _ _ _ (str "=" :: casts_tokens (f_casts x) ++ fvalue_tokens (f_value x) ++ f_more x ++ rest) _ _ _ _ node (f_id x) 1).
  { step l1. by rewrite Hid. }
  intros fuel1 l1 Hl1 Ha1. eapply (continues_trans _ _ _ _ (casts_tokens (f_casts x) ++ fvalue_tokens (f_value x) ++ f_more x ++ rest) _ _ _ _ node (f_id x) 2).
  { step l2. done. }
  intros fuel2 l2 Hl2 Ha2. eapply continues_trans; [by eapply casts_skip|]. intros fuel3 l3 Hl3 Ha3. by apply value_step.
Qed.

Lemma hash_add_take acc e : (length acc <= MAX_ELEMS)%nat -> (data_node_hash_add (DATA_HASH acc) e.1 e.2).2 = DATA_HASH (take MAX_ELEMS (acc ++ [e])).
Proof.
  intros Hacc. unfold data_node_hash_add. destruct (Nat.eqb_spec (length acc) MAX_ELEMS) as [E|E]; cbn [snd]; [rewrite <-E; by rewrite take_app_length|].
  rewrite take_ge; [by destruct e|]. rewrite length_app. simpl. lia.
Qed.

(** The fields in the order of the file, as many as the hash can hold. *)
Lemma fields_read t doc trail rest : forall xs acc fuel l id0, forallb field_ok xs = true -> Forall size_found xs -> (length acc <= MAX_ELEMS)%nat -> (length (src_text l) < fuel)%nat ->
  ahead l (fields_tokens xs trail ++ str "}" :: rest) ->
  exists l', pts fuel includepath whole t (src_text l) doc (DATA_HASH acc) id0 0 = Ok (0, src_text l', doc, DATA_HASH (take MAX_ELEMS (acc ++ map (entry t) xs))) /\ ahead l' rest.
Proof using HL.
  assert (Hend : forall fuel l node id state, (length (src_text l) < fuel)%nat -> ahead l (str "}" :: rest) -> exists l', pts fuel includepath whole t (src_text l) doc node id state = Ok (0, src_text l', doc, node) /\ ahead l' rest).
  { intros fuel l node id state Hl Ha. apply (next_4096 L HL) in Ha as (l1 & E & Ha & Hl1). destruct fuel as [|fuel]; [lia|]. exists l1. split; [|done]. cbn [parse_test_struct]. rewrite E. cbn [mbind res_bind default].
    change (streq (str "}") (str "}")) with true. done. }
  assert (Hcomma : forall fuel l r node id, (length (src_text l) < fuel)%nat -> ahead l (str "," :: r) -> continues t doc fuel l r node id 4 node id 0) by (intros fuel l r node id Hl Ha; step l1; done).
  induction xs as [|x xs IH]; intros acc fuel l id0 Hok Hsz Hacc Hl Ha.
  - cbn [fields_tokens app map] in *. rewrite app_nil_r, take_ge by done. by apply Hend.
  - cbn [forallb] in Hok. apply andb_true_iff in Hok as [Hx Hok]. apply Forall_cons in Hsz as [Hsx Hsz].
    assert (Hgo : forall l1 fuel1 id1, (length (src_text l1) < fuel1)%nat -> ahead l1 (fields_tokens xs trail ++ str "}" :: rest) ->
      exists l', pts fuel1 includepath whole t (src_text l1) doc (DATA_HASH (take MAX_ELEMS (acc ++ [entry t x]))) id1 0 = Ok (0, src_text l', doc, DATA_HASH (take MAX_ELEMS (acc ++ map (entry t) (x :: xs)))) /\ ahead l' rest).
    { intros l1 fuel1 id1 Hl1 Ha1. destruct (IH (take MAX_ELEMS (acc ++ [entry t x])) fuel1 l1 id1 Hok Hsz) as (l' & -> & Ha'); [rewrite length_take; lia|done|done|]. exists l'. by rewrite take_app_take, <-app_assoc. }
    destruct xs as [|y xs].
    + cbn [fields_tokens] in Ha. rewrite <-app_assoc in Ha. destruct (field_step t doc _ (DATA_HASH acc) id0 x fuel l Hx Hsx Hl Ha) as (fuel1 & l1 & Hl1 & Ha1 & ->). rewrite hash_add_take by done.
      destruct trail; cbn [app] in Ha1; [|by apply Hend]. destruct (Hcomma fuel1 l1 _ (DATA_HASH (take MAX_ELEMS (acc ++ [entry t x]))) (f_id x) Hl1 Ha1) as (fuel2 & l2 & Hl2 & Ha2 & ->). by apply Hgo.
    + cbn [fields_tokens] in Ha. rewrite <-app_assoc in Ha. cbn [app] in Ha. destruct (field_step t doc _ (DATA_HASH acc) id0 x fuel l Hx Hsx Hl Ha) as (fuel1 & l1 & Hl1 & Ha1 & ->). rewrite hash_add_take by done.
      destruct (Hcomma fuel1 l1 _ (DATA_HASH (take MAX_ELEMS (acc ++ [entry t x]))) (f_id x) Hl1 Ha1) as (fuel2 & l2 & Hl2 & Ha2 & ->). by apply Hgo.
Qed.
End Struct.
