(* ===== verification/MetaFile.v ===== *)
(** * Directives and files in [metaparse.c]

    A file is a sequence of segments: code, and directives of the preprocessor.  The
    macros that a file and its headers define are those that the parser enters, and
    the test structure between the segments gives the entries of the result. *)

From stdpp Require Import base list strings gmap.
From Stdlib Require Import ZArith Lia.
From S2P Require Import Prelude ParseNum DataStorage MetaParse MetaLex.

Local Open Scope Z_scope.

(** ** Segments *)

(** The value of a macro: nothing; text on lines that end with a backslash but the
    last one; or a string.  [sep] is the white space before it. *)
Inductive macro_value : Set := NoValue | Plain (sep : cstr) (lines : list cstr) | Str (sep s : cstr).

(** [g]: what is between the number sign and the directive; [sp]: the blank behind
    it; [ws] the white space behind that; [v]: the items of the rest of the line. *)
Inductive seg : Set :=
| Code (c : list item)
| Directive (g : list item) (t : tok)
| Include (g : list item) (sp : Z) (ws name : cstr) (c : Z) (v : list item)
| Define (g : list item) (sp : Z) (ws name : cstr) (val : macro_value) (v : list item).

Definition hash : item := Tok (Punct "#"%ch).
Definition word (s : string) : item := Tok (Word (str s)).
Definition seg_items (s : seg) : list item :=
  match s with
  | Code c => c
  | Directive g t => hash :: g ++ [Tok t]
  | Include g sp _ _ _ v => hash :: g ++ word "include" :: Blank sp :: v
  | Define g sp _ _ _ v => hash :: g ++ word "define" :: Blank sp :: v
  end.
Definition segs_items (l : list seg) : list item := concat (map seg_items l).

(** *** Texts of the directives *)

Fixpoint join_lines (lines : list cstr) : cstr :=
  match lines with [] => [] | [s] => s | s :: lines' => s ++ [BACKSLASH; NEWLINE] ++ join_lines lines' end.
Definition value_text (v : macro_value) : cstr :=
  match v with
  | NoValue => [NEWLINE]
  | Plain sep lines => sep ++ join_lines lines ++ [NEWLINE]
  | Str sep s => sep ++ [DQUOTE] ++ s ++ [DQUOTE]
  end.
Definition no_space (s : cstr) : cstr := List.filter (fun c => negb ((c =? 32) || (c =? TAB))) s.
Definition macro_text (lines : list cstr) : cstr := concat (map no_space lines).

Definition all_space (s : cstr) : bool := forallb isspace s.
Definition sep_ok (sep : cstr) : bool := all_space sep && negb (streq sep []) && negb (at_ sep 0 =? NEWLINE).
Definition val_ok (v : macro_value) : bool :=
  match v with
  | NoValue => true
  | Plain sep lines =>
      sep_ok sep && negb (isspace (at_ (join_lines lines) 0)) && negb (at_ (join_lines lines) 0 =? DQUOTE) && negb (streq (join_lines lines) []) &&
      forallb (forallb (fun c => negb (c =? NEWLINE) && negb (c =? 0))) lines && negb (bool_decide (last (join_lines lines) = Some BACKSLASH)) &&
      (length (macro_text lines) <? 255)%nat
  | Str sep s =>
      sep_ok sep && forallb (fun c => negb (c =? DQUOTE) && negb (c =? 0)) s && negb (bool_decide (last s = Some BACKSLASH)) && (length s <=? 255)%nat
  end.
Definition id_ok (limit : nat) (name : cstr) : bool :=
  negb (streq name []) && forallb (fun c => negb (isspace c) && negb (c =? 0)) name && (length name <? limit)%nat.
Definition no_hash (ts : list cstr) : bool := forallb (fun t => negb (at_ t 0 =? "#"%ch)) ts.
Definition seg_ok (s : seg) : bool :=
  match s with
  | Code c => no_hash (toks c)
  | Directive g t => gap g && not_one_of ["define"; "include"]%string (tok_string t) && negb (at_ (tok_string t) 0 =? "#"%ch)
  | Include g sp ws name c v => gap g && all_space ws && id_ok 256 name && isspace c && streq (src_text v) (ws ++ name ++ [c]) && no_hash (toks v)
  | Define g sp ws name val v => gap g && all_space ws && id_ok 128 name && val_ok val && streq (src_text v) (ws ++ name ++ value_text val)
  end.

(** *** Macros *)

Section Macros.
Context (hsize : nat).

(** A name that begins with an underscore is left out. *)
Definition enter (t : macros) (name val : cstr) : macros := if at_ name 0 =? "_"%ch then t else macro_enter hsize t name val.
Definition define (t : macros) (name : cstr) (v : macro_value) : macros :=
  match v with NoValue => t | Plain _ lines => enter t name (macro_text lines) | Str _ s => enter t name s end.

Lemma skip_spaces ws r : all_space ws = true -> skip_while isspace (ws ++ r) = skip_while isspace r.
Proof. induction ws as [|c ws IH]; [done|]. cbn. intros [Hc Hw]%andb_true_iff. rewrite Hc. by apply IH. Qed.
Lemma scan_name limit ws name c r : all_space ws = true -> id_ok limit name = true -> isspace c = true -> scan_word (ws ++ name ++ c :: r) = Some (name, c :: r).
Proof.
  intros Hws Hn Hc. unfold id_ok in Hn. rewrite !andb_true_iff, negb_true_iff in Hn. destruct Hn as [[Hne Hn] _]. unfold scan_word. rewrite skip_spaces by done. unfold streq in Hne. apply bool_decide_eq_false in Hne.
  assert (Hp : prefix_len (fun c => negb (isspace c)) (name ++ c :: r) = length name).
  { clear Hne. induction name as [|x name IH]; cbn; [by rewrite Hc|]. cbn in Hn. rewrite !andb_true_iff in Hn. destruct Hn as [[-> _] Hn]. f_equal. by apply IH. }
  assert (Hs : skip_while isspace (name ++ c :: r) = name ++ c :: r).
  { destruct name as [|x name]; [done|]. cbn in Hn |- *. rewrite !andb_true_iff, negb_true_iff in Hn. destruct Hn as [[Hx _] _]. by rewrite Hx. }
  rewrite Hs, Hp. destruct (name ++ c :: r) as [|y s] eqn:E; [by destruct name|]. rewrite <-E. by rewrite take_app_length, drop_app_length.
Qed.
Lemma name_string limit name : id_ok limit name = true -> c_string name = name.
Proof.
  unfold id_ok. rewrite !andb_true_iff. intros [[_ H] _]. apply c_string_id. clear -H. induction name as [|c name IH]; [done|]. cbn in *. rewrite !andb_true_iff in *. tauto.
Qed.

(** A stretch of a line. *)
Lemma val_stretch max r : forall s prev buf, forallb (fun c => negb (c =? NEWLINE) && negb (c =? 0)) s = true -> (length (buf ++ no_space s) <= max)%nat ->
  exists prev', macro_val_loop max (s ++ r) prev buf = macro_val_loop max r prev' (buf ++ no_space s) /\ prev' = default prev (last s).
Proof.
  induction s as [|c s IH]; intros prev buf Hs Hl; [exists prev; by rewrite app_nil_r|]. cbn [forallb] in Hs. rewrite !andb_true_iff, negb_true_iff in Hs. destruct Hs as [[Hc _] Hs].
  cbn [app macro_val_loop no_space List.filter] in *. rewrite Hc. assert (Hlast : forall p : Z, default c (last s) = default p (last (c :: s))) by (intros p; rewrite last_cons; by destruct (last s)).
  destruct ((c =? 32) || (c =? TAB)); cbn [negb] in *.
  - destruct (IH c buf Hs Hl) as (prev' & E & ->). eexists. split; [exact E|]. apply Hlast.
  - rewrite (proj2 (Nat.ltb_lt (length buf) max)) by (rewrite length_app in Hl; cbn [length] in Hl; lia).
    destruct (IH c (buf ++ [c]) Hs) as (prev' & E & ->); [by rewrite <-app_assoc|]. eexists. split; [rewrite E, <-app_assoc; reflexivity|]. apply Hlast.
Qed.
Lemma val_lines max r : forall lines prev buf, lines <> [] -> forallb (forallb (fun c => negb (c =? NEWLINE) && negb (c =? 0))) lines = true -> (length (buf ++ macro_text lines) < max)%nat ->
  last (prev :: join_lines lines) <> Some BACKSLASH ->
  macro_val_loop max (join_lines lines ++ NEWLINE :: r) prev buf = Ok (buf ++ macro_text lines, r).
Proof.
  induction lines as [|s lines IH]; intros prev buf Hne Hok Hl Hlast; [done|]. cbn [forallb] in Hok. apply andb_true_iff in Hok as [Hs Hok]. unfold macro_text in *. cbn [map concat] in *. rewrite !length_app in Hl.
  destruct lines as [|s2 lines].
  - cbn [join_lines map concat] in *. rewrite app_nil_r. destruct (val_stretch max (NEWLINE :: r) s prev buf Hs) as (prev' & -> & Hp); [rewrite length_app; lia|]. cbn [app macro_val_loop].
    rewrite last_cons in Hlast. rewrite (proj2 (Z.eqb_neq prev' BACKSLASH)); [done|]. intros ->. apply Hlast. destruct (last s); cbn in Hp; by rewrite Hp.
  - change (join_lines (s :: s2 :: lines)) with (s ++ [BACKSLASH; NEWLINE] ++ join_lines (s2 :: lines)) in *. rewrite <-!app_assoc. destruct (val_stretch max ([BACKSLASH; NEWLINE] ++ join_lines (s2 :: lines) ++ NEWLINE :: r) s prev buf Hs) as (prev' & -> & Hp); [rewrite length_app; lia|].
    cbn [app macro_val_loop]. change (BACKSLASH =? NEWLINE) with false. change ((BACKSLASH =? 32) || (BACKSLASH =? TAB)) with false. cbv iota. rewrite (proj2 (Nat.ltb_lt _ max)) by (rewrite length_app; lia).
    change (NEWLINE =? NEWLINE) with true. change (BACKSLASH =? BACKSLASH) with true. cbv iota. rewrite bool_decide_eq_false_2 by (by destruct (buf ++ no_space s)). rewrite removelast_last.
    rewrite (IH NEWLINE (buf ++ no_space s)); [by rewrite <-app_assoc|done|done|rewrite !length_app in *; lia|]. intros E. apply Hlast. rewrite last_cons in E |- *. rewrite !last_app. by destruct (last (join_lines (s2 :: lines))).
Qed.
Lemma string_reads max r : forall s buf, forallb (fun c => negb (c =? DQUOTE) && negb (c =? 0)) s = true -> (length (buf ++ s) <= max)%nat -> last (buf ++ s) <> Some BACKSLASH ->
  macro_get_string max (s ++ DQUOTE :: r) buf = (buf ++ s, r).
Proof.
  induction s as [|c s IH]; intros buf Hs Hl Hlast.
  - rewrite app_nil_r in *. cbn [app macro_get_string]. change (DQUOTE =? DQUOTE) with true. cbv iota. by rewrite bool_decide_eq_false_2.
  - cbn [forallb] in Hs. rewrite !andb_true_iff, negb_true_iff in Hs. destruct Hs as [[Hc _] Hs]. cbn [app macro_get_string]. rewrite Hc. rewrite (proj2 (Nat.ltb_lt (length buf) max)) by (rewrite length_app in Hl; cbn [length] in Hl; lia).
    rewrite IH; [by rewrite <-app_assoc|done|by rewrite <-app_assoc|by rewrite <-app_assoc].
Qed.

(** A definition is entered, and the stream is left behind its value. *)
Lemma parse_macro_defines t g sp ws name val v r : seg_ok (Define g sp ws name val v) = true -> parse_macro hsize t (src_text v ++ r) = Ok (define t name val, r).
Proof.
  cbn [seg_ok]. rewrite !andb_true_iff. intros [[[[_ Hws] Hn] Hv] Ht]. unfold streq in Ht. apply bool_decide_eq_true in Ht. rewrite Ht, <-!app_assoc. pose proof (name_string _ _ Hn) as Hns. unfold id_ok in Hn. pose proof Hn as Hn'. rewrite !andb_true_iff in Hn'. destruct Hn' as [_ Hlen%Nat.ltb_lt].
  assert (Hscan : forall c f, isspace c = true -> scan_word (ws ++ name ++ c :: f) = Some (name, c :: f)) by (intros; by apply (scan_name 128)).
  unfold parse_macro. destruct val as [|sep lines|sep s]; cbn [value_text define val_ok] in *.
  - change ([NEWLINE] ++ r) with (NEWLINE :: r). rewrite Hscan by done. rewrite (proj2 (Nat.leb_gt 128 (length name))) by lia. done.
  - rewrite !andb_true_iff in Hv. destruct Hv as ((((((Hsep & Hsp) & Hq) & Hne) & Hok) & Hlast) & Hl%Nat.ltb_lt). unfold sep_ok in Hsep. rewrite !andb_true_iff in Hsep. destruct Hsep as [[Hs Hs0] Hs1]. destruct sep as [|c sep]; [done|]. cbn [all_space forallb] in Hs. apply andb_true_iff in Hs as [Hc Hs].
    rewrite <-!app_assoc. cbn [app]. rewrite Hscan by done. rewrite (proj2 (Nat.leb_gt 128 (length name))) by lia. change (at_ (c :: sep ++ join_lines lines ++ NEWLINE :: r) 0) with c. change (at_ (c :: sep) 0) with c in Hs1. apply negb_true_iff in Hs1. rewrite Hs1. cbn [drop]. rewrite drop_0.
    unfold macro_get_val. rewrite skip_spaces by done. apply negb_true_iff in Hsp, Hq, Hne. unfold streq in Hne. apply bool_decide_eq_false in Hne. apply negb_true_iff, bool_decide_eq_false in Hlast.
    destruct (join_lines lines) as [|x j] eqn:Ej; [done|]. change (at_ (x :: j) 0) with x in *. cbn [app skip_while]. rewrite Hsp. change (x :: j ++ NEWLINE :: r) with ((x :: j) ++ NEWLINE :: r). rewrite Hq. rewrite <-Ej.
    rewrite (val_lines (256 - 1) r lines 0 []); [|by intros ->|done|cbn; lia|rewrite Ej, last_cons; destruct (last (x :: j)) eqn:E; [done|by apply last_None in E]]. cbn [mbind res_bind app]. rewrite Hns. unfold enter.
    rewrite c_string_id; [by destruct (at_ name 0 =? "_"%ch)|]. clear -Hok. unfold macro_text. induction lines as [|s lines IH]; [done|]. cbn [forallb map concat] in *. apply andb_true_iff in Hok as [Hs Hok]. rewrite forallb_app, IH by done. rewrite andb_true_r.
    apply forallb_forall. intros y Hy. unfold no_space in Hy. apply filter_In in Hy as [Hy _]. rewrite forallb_forall in Hs. apply Hs in Hy. apply andb_true_iff in Hy. tauto.
  - rewrite !andb_true_iff in Hv. destruct Hv as (((Hsep & Hok) & Hlast) & Hl%Nat.leb_le). unfold sep_ok in Hsep. rewrite !andb_true_iff in Hsep. destruct Hsep as [[Hs Hs0] Hs1]. destruct sep as [|c sep]; [done|]. cbn [all_space forallb] in Hs. apply andb_true_iff in Hs as [Hc Hs].
    rewrite <-!app_assoc. cbn [app]. rewrite Hscan by done. rewrite (proj2 (Nat.leb_gt 128 (length name))) by lia. change (at_ (c :: sep ++ DQUOTE :: s ++ DQUOTE :: r) 0) with c. change (at_ (c :: sep) 0) with c in Hs1. apply negb_true_iff in Hs1. rewrite Hs1. cbn [drop]. rewrite drop_0.
    unfold macro_get_val. rewrite skip_spaces by done. change (skip_while isspace (DQUOTE :: s ++ DQUOTE :: r)) with (DQUOTE :: s ++ DQUOTE :: r). cbv iota. change (DQUOTE =? DQUOTE) with true. cbv iota. apply negb_true_iff, bool_decide_eq_false in Hlast.
    rewrite string_reads by (done || cbn; lia). cbn [mbind res_bind app]. rewrite Hns. unfold enter. rewrite c_string_id; [by destruct (at_ name 0 =? "_"%ch)|]. clear -Hok. induction s as [|x s IH]; [done|]. cbn [forallb] in *. rewrite !andb_true_iff in *. tauto.
Qed.
End Macros.

(** ** Reading of segments *)

(** How a token that is no directive advances the search for the structure. *)
Definition advance (state : nat) (tok : cstr) : nat :=
  if (state <? 6)%nat && bool_decide (tokens !! state = Some tok) then S state else O.
(** No beginning of a structure. *)
Fixpoint quiet (state : nat) (ts : list cstr) : bool :=
  match ts with
  | [] => true
  | t :: ts' => (advance state t <? 6)%nat && quiet (advance state t) ts'
  end.
(** The state behind segments without a structure. *)
Definition seg_state (state : nat) (s : seg) : option nat :=
  match s with Code c => if quiet state (toks c) then Some (foldl advance state (toks c)) else None | _ => Some O end.
Fixpoint segs_state (state : nat) (l : list seg) : option nat :=
  match l with [] => Some state | s :: l' => match seg_state state s with Some state' => segs_state state' l' | None => None end end.

Section Files.
Context (fs : cstr -> option cstr) (cmdline_includepath : list cstr) (hsize : nat) (includepath : cstr).

(** The first header of that name in the directories. *)
Definition header_text (name : cstr) : option cstr := head (omap (fun dir => fs (dir ++ str "/" ++ name)) (includepath :: cmdline_includepath)).
Definition is_quoted (name : cstr) : bool := at_ name 0 =? DQUOTE.
Definition unquoted (name : cstr) : cstr := removelast (drop 1 name).

(** The headers as segments. *)
Context (headers : cstr -> option (list seg)).
Definition header_ok (name : cstr) : Prop :=
  match headers name with
  | Some hs => header_text name = Some (src_text (segs_items hs)) /\ items_ok [] (segs_items hs) = true /\ forallb seg_ok hs = true
  | None => header_text name = None
  end.
Definition includes (l : list seg) : list cstr := omap (fun s => match s with Include _ _ _ name _ _ => if is_quoted name then Some (unquoted name) else None | _ => None end) l.

(** The macros that a header defines, and those of a file. *)
Definition seg_define (t : macros) (s : seg) : macros := match s with Define _ _ _ name val _ => define hsize t name val | _ => t end.
Definition header_macros (t : macros) (hs : list seg) : macros := foldl seg_define t hs.
Definition seg_macros (t : macros) (s : seg) : macros :=
  match s with
  | Define _ _ _ name val _ => define hsize t name val
  | Include _ _ _ name _ _ => if is_quoted name then match headers (unquoted name) with Some hs => header_macros t hs | None => t end else t
  | _ => t
  end.

Lemma space_class c : isspace c = true -> is_word c = false /\ is_punct c = false /\ (c =? "/"%ch) = false /\ (c =? DQUOTE) = false.
Proof.
  intros H. assert (Hr : c = 32 \/ 9 <= c <= 13) by (unfold isspace in H; lia). assert (Hp : is_punct c = false).
  { destruct (is_punct c) eqn:E; [|done]. unfold is_punct in E. apply existsb_exists in E as (x & Hx & ->%Z.eqb_eq). simpl in Hx. repeat (destruct Hx as [<-|Hx]; [cbn in Hr; lia|]). done. }
  split_and!; [|done|..]; unfold is_word, isalnum, isdigit, isupper, islower, DQUOTE in *; cbn; lia.
Qed.
(** White space is skipped up to an item. *)
Lemma skip_items : forall l, items_ok [] l = true -> exists l', skip_while isspace (src_text l) = src_text l' /\ l' `suffix_of` l /\ trim l' = trim l.
Proof.
  induction l as [|i l IH]; intros Hok; [by exists []|]. cbn [items_ok] in Hok. apply andb_true_iff in Hok as [Hi Hok]. destruct (IH Hok) as (l' & E & Hs & Ht).
  assert (Hstay : forall c f, item_text i = c :: f -> isspace c = false -> exists l', skip_while isspace (src_text (i :: l)) = src_text l' /\ l' `suffix_of` i :: l /\ trim l' = trim (i :: l)).
  { intros c f Ec Hc. exists (i :: l). split_and!; [|done|done]. change (src_text (i :: l)) with (item_text i ++ src_text l). rewrite Ec. cbn [app skip_while]. by rewrite Hc. }
  assert (Hgo : forall c, item_text i = [c] -> is_tok i = false -> isspace c = true -> exists l', skip_while isspace (src_text (i :: l)) = src_text l' /\ l' `suffix_of` i :: l /\ trim l' = trim (i :: l)).
  { intros c Ec Hti Hc. exists l'. split_and!; [change (src_text (i :: l)) with (item_text i ++ src_text l); rewrite Ec; cbn [app skip_while]; by rewrite Hc|by apply suffix_cons_r|cbn [trim]; by rewrite Hti]. }
  assert (Hns : forall c, is_word c = true \/ is_punct c = true \/ c = "/"%ch \/ c = DQUOTE -> isspace c = false).
  { intros c Hc. destruct (isspace c) eqn:Es; [|done]. destruct (space_class c Es) as (H1 & H2 & H3 & H4). destruct Hc as [?|[?|[->| ->]]]; (congruence || done). }
  destruct i as [c|c| |s|s|t]; cbn [item_ok item_text] in *.
  - apply (Hgo c); [done..|]. unfold is_blank, isspace, NEWLINE, TAB in *. lia.
  - destruct (isspace c) eqn:Ec; [by apply (Hgo c)|by apply (Hstay c [])].
  - by eapply Hstay.
  - by eapply Hstay.
  - by eapply Hstay.
  - apply andb_true_iff in Hi as [Ht' _]. destruct t as [c|w|s]; cbn [tok_text tok_ok] in *.
    + apply (Hstay c []); [done|]. apply Hns. tauto.
    + rewrite !andb_true_iff in Ht'. destruct Ht' as [[Hw _] _]. destruct w as [|c w]; [done|]. apply (Hstay c w); [done|]. apply Hns. by left.
    + by eapply Hstay.
Qed.

Lemma open_include_reads g sp ws name c v r : seg_ok (Include g sp ws name c v) = true ->
  open_include fs cmdline_includepath includepath (src_text v ++ r) = Ok (if is_quoted name then header_text (unquoted name) else None, skip_while isspace r).
Proof.
  cbn [seg_ok]. rewrite !andb_true_iff. intros [[[[[_ Hws] Hn] Hc] Ht] _]. unfold streq in Ht. apply bool_decide_eq_true in Ht. rewrite Ht, <-!app_assoc. cbn [app]. unfold open_include. rewrite (scan_name 256) by done.
  pose proof (name_string _ _ Hn) as Hns. unfold id_ok in Hn. rewrite !andb_true_iff in Hn. destruct Hn as [_ Hl%Nat.ltb_lt]. rewrite (proj2 (Nat.leb_gt 256 (length name))) by lia. rewrite Hns. cbn [skip_while]. rewrite Hc. unfold is_quoted, unquoted.
  destruct (at_ name 0 =? DQUOTE); [|done]. cbn [negb]. unfold header_text, open_file. cbn [omap list_omap]. by destruct (fs (includepath ++ _)).
Qed.

Section Stream.
Context (L : list item) (HL : items_ok [] L = true).

(** The position [l] is [m], what is skipped apart. *)
Definition reaches (l m : list item) : Prop := l `suffix_of` L /\ m `suffix_of` L /\ trim l = trim m.

Lemma suffix_app_r (p m : list item) : p ++ m `suffix_of` L -> m `suffix_of` L.
Proof. intros H. etrans; [|exact H]. by exists p. Qed.
Lemma reaches_gap g l m : gap g = true -> reaches l (g ++ m) -> reaches l m.
Proof. intros Hg (H1 & H2 & H3). split_and!; [done|by eapply suffix_app_r|]. by rewrite H3, trim_gap. Qed.
Lemma reaches_ahead l m : reaches l m -> ahead L l (toks m).
Proof. intros (H1 & H2 & H3). split; [done|]. by rewrite <-toks_trim, H3, toks_trim. Qed.
Lemma ahead_reaches l m : m `suffix_of` L -> ahead L l (toks m) -> reaches l m.
Proof. intros Hm [H1 H2]. split_and!; [done|done|by apply (same_trim L)]. Qed.
Lemma reaches_tok l k rest : reaches l (Tok k :: rest) -> (forall d, next_token (src_text l) d = Ok (Some (tok_string k), src_text (behind k rest), d)) /\
  reaches (behind k rest) rest /\ (length (src_text (behind k rest)) < length (src_text l))%nat.
Proof using HL.
  intros (H1 & H2 & H3). destruct (read_tok L HL l k rest H1 H3) as (E & Hs & Hlen). split_and!; [intros d; apply E; lia|split_and!; [done|by apply (suffix_app_r [Tok k])|apply trim_behind]|done].
Qed.

(** *** Headers *)
Lemma header_code t rest : forall ts l fuel, ahead L l (ts ++ rest) -> no_hash ts = true -> (length (src_text l) < fuel)%nat ->
  exists fuel' l', include_macros_loop hsize fuel t (src_text l) false = include_macros_loop hsize fuel' t (src_text l') false /\ ahead L l' rest /\ (length (src_text l') < fuel')%nat.
Proof using HL.
  induction ts as [|x ts IH]; intros l fuel Ha Hn Hf; [by exists fuel, l|]. cbn [app no_hash forallb] in *. apply andb_true_iff in Hn as [Hx Hn]. apply negb_true_iff in Hx. apply (next_4096 L HL) in Ha as (l1 & E & Ha & Hl).
  destruct fuel as [|fuel]; [lia|]. destruct (IH l1 fuel Ha Hn ltac:(lia)) as (fuel' & l' & E' & H). exists fuel', l'. split; [|done]. rewrite <-E'. cbn [include_macros_loop]. rewrite E. cbn [mbind res_bind]. by rewrite Hx.
Qed.
Lemma header_hash t g k rest fuel l : gap g = true -> reaches l (hash :: g ++ Tok k :: rest) -> (length (src_text l) < fuel)%nat ->
  exists fuel' l', include_macros_loop hsize fuel t (src_text l) false = include_macros_loop hsize (S fuel') t (src_text l') true /\ reaches l' (Tok k :: rest) /\ (length (src_text l') < S fuel')%nat.
Proof using HL.
  intros Hg Hl Hf. destruct (reaches_tok _ _ _ Hl) as (E & Hr & Hlen). cbn [behind] in *. apply reaches_gap in Hr; [|done]. destruct fuel as [|[|fuel]]; [lia..|]. exists fuel, (g ++ Tok k :: rest). split_and!; [|done|lia].
  cbn [include_macros_loop]. rewrite E. done.
Qed.
Lemma header_segs R : forall hs l t fuel, reaches l (segs_items hs ++ R) -> forallb seg_ok hs = true -> (length (src_text l) < fuel)%nat ->
  exists fuel' l', include_macros_loop hsize fuel t (src_text l) false = include_macros_loop hsize fuel' (header_macros t hs) (src_text l') false /\ reaches l' R /\ (length (src_text l') < fuel')%nat.
Proof using HL.
  induction hs as [|s hs IH]; intros l t fuel Hl Hok Hf; [by exists fuel, l|]. cbn [forallb] in Hok. apply andb_true_iff in Hok as [Hs Hok]. unfold segs_items in Hl. cbn [map concat] in Hl. fold (segs_items hs) in Hl. rewrite <-app_assoc in Hl.
  assert (Hsuf : segs_items hs ++ R `suffix_of` L) by (destruct Hl as (_ & H & _); by eapply suffix_app_r). change (header_macros t (s :: hs)) with (header_macros (seg_define t s) hs).
  destruct s as [c|g k|g sp ws name c v|g sp ws name val v]; cbn [seg_ok seg_items seg_define] in *.
  - apply reaches_ahead in Hl. rewrite toks_app in Hl. destruct (header_code t _ _ l fuel Hl Hs Hf) as (fuel1 & l1 & -> & Ha1 & Hf1). apply IH; [by apply ahead_reaches|done|done].
  - rewrite !andb_true_iff, negb_true_iff in Hs. destruct Hs as [[Hg Hk] Hk0]. rewrite <-app_comm_cons, <-app_assoc in Hl. cbn [app] in Hl. destruct (header_hash t g k _ fuel l Hg Hl Hf) as (fuel1 & l1 & -> & Hr & Hf1).
    destruct (reaches_tok _ _ _ Hr) as (E & Hr2 & Hlen). destruct (IH _ t fuel1 Hr2 Hok ltac:(lia)) as (fuel2 & l2 & E2 & H). exists fuel2, l2. split; [|done]. rewrite <-E2. cbn [include_macros_loop]. rewrite E. cbn [mbind res_bind]. rewrite Hk0. cbn [negb].
    unfold not_one_of in Hk. cbn [forallb] in Hk. rewrite !andb_true_iff, !negb_true_iff in Hk. destruct Hk as (-> & _). done.
  - pose proof Hs as Hs'. rewrite !andb_true_iff in Hs'. destruct Hs' as [[[[[Hg _] _] _] _] Hv]. rewrite <-app_comm_cons, <-app_assoc in Hl. cbn [app] in Hl. destruct (header_hash t g _ _ fuel l Hg Hl Hf) as (fuel1 & l1 & -> & Hr & Hf1).
    destruct (reaches_tok _ _ _ Hr) as (E & Hr2 & Hlen). cbn [behind] in *. change (tok_string (Word (str "include"))) with (str "include") in E. cbn [include_macros_loop]. rewrite E. cbn [mbind res_bind]. change (at_ (str "include") 0 =? "#"%ch) with false. change (streq (str "include") (str "define")) with false. cbn [negb mbind res_bind].
    apply (reaches_gap [Blank sp]) in Hr2; [|done]. apply reaches_ahead in Hr2. rewrite toks_app in Hr2. destruct (header_code t _ _ (v ++ segs_items hs ++ R) fuel1 Hr2 Hv ltac:(lia)) as (fuel2 & l2 & -> & Ha2 & Hf2). apply IH; [by apply ahead_reaches|done|done].
  - pose proof Hs as Hs'. rewrite !andb_true_iff in Hs'. destruct Hs' as [[[[Hg _] _] _] _]. rewrite <-app_comm_cons, <-app_assoc in Hl. cbn [app] in Hl. destruct (header_hash t g _ _ fuel l Hg Hl Hf) as (fuel1 & l1 & -> & Hr & Hf1).
    destruct (reaches_tok _ _ _ Hr) as (E & Hr2 & Hlen). cbn [behind] in *. change (tok_string (Word (str "define"))) with (str "define") in E. cbn [include_macros_loop]. rewrite E. cbn [mbind res_bind]. change (at_ (str "define") 0 =? "#"%ch) with false. change (streq (str "define") (str "define")) with true. cbn [negb mbind res_bind].
    rewrite src_text_app, (parse_macro_defines hsize t g sp ws name val v) by done. cbn [mbind res_bind]. apply IH; [split_and!; done|done|]. rewrite src_text_app, length_app in Hlen. lia.
Qed.
End Stream.

Lemma header_reads hs t : items_ok [] (segs_items hs) = true -> forallb seg_ok hs = true ->
  include_macros_loop hsize (S (length (src_text (segs_items hs)))) t (src_text (segs_items hs)) false = Ok (header_macros t hs).
Proof.
  intros HL Hok. destruct (header_segs (segs_items hs) HL [] hs (segs_items hs) t (S (length (src_text (segs_items hs))))) as (fuel & l & -> & (H1 & _ & H3) & Hf); [rewrite app_nil_r; split_and!; done|done|lia|].
  destruct fuel as [|fuel]; [lia|]. cbn [include_macros_loop]. unfold next_token. rewrite (read_end (segs_items hs) HL l H1); [done|]. by rewrite <-toks_trim, H3.
Qed.
Lemma include_macros_reads g sp ws name c v r t : seg_ok (Include g sp ws name c v) = true -> (is_quoted name = true -> header_ok (unquoted name)) ->
  parse_include_macros fs cmdline_includepath hsize includepath t (src_text v ++ r) = Ok (seg_macros t (Include g sp ws name c v), skip_while isspace r).
Proof.
  intros Hs Hh. unfold parse_include_macros. rewrite (open_include_reads g sp ws name c v r Hs). cbn [mbind res_bind seg_macros]. destruct (is_quoted name); [|done]. specialize (Hh eq_refl). unfold header_ok in Hh.
  destruct (headers (unquoted name)) as [hs|]; [|by rewrite Hh]. destruct Hh as (-> & H1 & H2). by rewrite header_reads.
Qed.

(** *** The file *)
Section Loop.
Context (whole : cstr) (L : list item) (HL : items_ok [] L = true) (doc res : data_node) (found : bool).
Abbreviation loop := (fun fuel t f state => parse_file_loop fs cmdline_includepath hsize fuel includepath whole t f doc res found state).

Lemma loop_toks t rest : forall ts l state fuel, ahead L l (ts ++ rest) -> no_hash ts = true -> quiet state ts = true -> (length (src_text l) < fuel)%nat ->
  exists fuel' l', loop fuel t (src_text l) state = loop fuel' t (src_text l') (foldl advance state ts) /\ ahead L l' rest /\ (length (src_text l') < fuel')%nat.
Proof using HL.
  induction ts as [|x ts IH]; intros l state fuel Ha Hn Hq Hf; [by exists fuel, l|]. cbn [app no_hash forallb quiet foldl] in *. apply andb_true_iff in Hn as [Hx Hn], Hq as [Hs Hq]. apply negb_true_iff in Hx.
  apply (next_4096 L HL) in Ha as (l1 & E & Ha & Hl). destruct fuel as [|fuel]; [lia|]. destruct (IH l1 (advance state x) fuel Ha Hn Hq ltac:(lia)) as (fuel' & l' & E' & H). exists fuel', l'. split; [|done]. rewrite <-E'.
  cbn [parse_file_loop]. rewrite E. cbn [mbind res_bind default]. unfold advance in *. destruct ((state <? 6)%nat && _); [|rewrite Hx]; cbn [mbind res_bind]; [by rewrite Hs|done].
Qed.
Lemma loop_hash t g k rest fuel l state : gap g = true -> reaches L l (hash :: g ++ Tok k :: rest) -> (length (src_text l) < fuel)%nat ->
  exists fuel', (length (src_text (behind k rest)) < fuel')%nat /\ reaches L (behind k rest) rest /\
    loop fuel t (src_text l) state = ('(t, f) ← (if streq (tok_string k) (str "define") then parse_macro hsize t (src_text (behind k rest))
      else if streq (tok_string k) (str "include") then parse_include_macros fs cmdline_includepath hsize includepath t (src_text (behind k rest)) else Ok (t, src_text (behind k rest)));
      loop fuel' t f 0%nat).
Proof using HL.
  intros Hg Hl Hf. destruct (reaches_tok L HL _ _ _ Hl) as (E & Hr & Hlen). cbn [behind] in *. apply reaches_gap in Hr; [|done]. destruct (reaches_tok L HL _ _ _ Hr) as (E2 & Hr2 & Hlen2).
  destruct fuel as [|fuel]; [lia|]. exists fuel. split_and!; [lia|done|]. cbn [parse_file_loop]. rewrite E. cbn [mbind res_bind default]. change (tok_string (Punct "#"%ch)) with (str "#").
  assert ((state <? 6)%nat && bool_decide (tokens !! state = Some (str "#")) = false) as ->.
  { destruct (state <? 6)%nat; [|done]. cbn [andb]. apply bool_decide_eq_false. do 6 (destruct state as [|state]; [done|]). done. }
  change (at_ (str "#") 0 =? "#"%ch) with true. cbv iota. rewrite E2. cbn [mbind res_bind default].
  destruct (streq (tok_string k) (str "define")); [by destruct (parse_macro hsize t _) as [[? ?]| |]|]. destruct (streq (tok_string k) (str "include")); [by destruct (parse_include_macros _ _ _ _ t _) as [[? ?]| |]|done].
Qed.

Lemma loop_segs R : forall segs l t state state' fuel, reaches L l (segs_items segs ++ R) -> forallb seg_ok segs = true -> Forall header_ok (includes segs) -> segs_state state segs = Some state' -> (length (src_text l) < fuel)%nat ->
  exists fuel' l', loop fuel t (src_text l) state = loop fuel' (foldl seg_macros t segs) (src_text l') state' /\ reaches L l' R /\ (length (src_text l') < fuel')%nat.
Proof using HL.
  induction segs as [|s segs IH]; intros l t state state' fuel Hl Hok Hh Hst Hf; [injection Hst as <-; by exists fuel, l|]. cbn [forallb segs_state foldl] in *. apply andb_true_iff in Hok as [Hs Hok].
  unfold segs_items in Hl. cbn [map concat] in Hl. fold (segs_items segs) in Hl. rewrite <-app_assoc in Hl. assert (Hsuf : segs_items segs ++ R `suffix_of` L) by (destruct Hl as (_ & H & _); by eapply suffix_app_r).
  destruct (seg_state state s) as [st1|] eqn:E1; [|done].
  assert (Hgo : forall l1 t1 fuel1, reaches L l1 (segs_items segs ++ R) -> (length (src_text l1) < fuel1)%nat ->
    exists fuel' l', loop fuel1 t1 (src_text l1) st1 = loop fuel' (foldl seg_macros t1 segs) (src_text l') state' /\ reaches L l' R /\ (length (src_text l') < fuel')%nat).
  { intros l1 t1 fuel1 Hl1 Hf1. apply IH; try done. destruct s as [| |? ? ? name ? ?|]; try exact Hh. unfold includes in *. cbn [omap list_omap] in Hh. destruct (is_quoted name); [by apply Forall_cons in Hh as [_ ?]|done]. }
  destruct s as [c|g k|g sp ws name c v|g sp ws name val v]; cbn [seg_state seg_macros] in *.
  - destruct (quiet state (toks c)) eqn:Eq; [|done]. injection E1 as <-. cbn [seg_ok seg_items] in *. apply reaches_ahead in Hl. rewrite toks_app in Hl. destruct (loop_toks t _ _ l state fuel Hl Hs Eq Hf) as (fuel1 & l1 & -> & Ha1 & Hf1). apply Hgo; [by apply ahead_reaches|done].
  - injection E1 as <-. cbn [seg_ok seg_items] in *. rewrite !andb_true_iff, negb_true_iff in Hs. destruct Hs as [[Hg Hk] _]. rewrite <-app_comm_cons, <-app_assoc in Hl. cbn [app] in Hl. destruct (loop_hash t g k _ fuel l state Hg Hl Hf) as (fuel1 & Hf1 & Hr & ->).
    unfold not_one_of in Hk. cbn [forallb] in Hk. rewrite !andb_true_iff, !negb_true_iff in Hk. destruct Hk as (-> & -> & _). cbn [mbind res_bind]. by apply Hgo.
  - injection E1 as <-. pose proof Hs as Hs'. cbn [seg_ok seg_items] in Hs', Hl. rewrite !andb_true_iff in Hs'. destruct Hs' as [[[[[Hg _] _] _] _] _]. rewrite <-app_comm_cons, <-app_assoc in Hl. cbn [app] in Hl. destruct (loop_hash t g _ _ fuel l state Hg Hl Hf) as (fuel1 & Hf1 & Hr & ->). cbn [behind] in *.
    change (tok_string (Word (str "include"))) with (str "include"). change (streq (str "include") (str "define")) with false. rewrite streq_refl. cbv iota. rewrite src_text_app.
    rewrite (include_macros_reads g sp ws name c v _ t Hs); [|intros Eq; unfold includes in Hh; cbn [omap list_omap] in Hh; rewrite Eq in Hh; by apply Forall_cons in Hh as [? _]]. cbn [mbind res_bind].
    destruct (skip_items (segs_items segs ++ R)) as (l1 & -> & Hs1 & Ht1); [by apply (suffix_ok L HL)|]. apply Hgo; [split_and!; [by etrans|done|done]|]. apply src_suffix in Hs1. rewrite src_text_app, length_app in Hf1. lia.
  - injection E1 as <-. pose proof Hs as Hs'. cbn [seg_ok seg_items] in Hs', Hl. rewrite !andb_true_iff in Hs'. destruct Hs' as [[[[Hg _] _] _] _]. rewrite <-app_comm_cons, <-app_assoc in Hl. cbn [app] in Hl. destruct (loop_hash t g _ _ fuel l state Hg Hl Hf) as (fuel1 & Hf1 & Hr & ->). cbn [behind] in *.
    change (tok_string (Word (str "define"))) with (str "define"). rewrite streq_refl. cbv iota. rewrite src_text_app, (parse_macro_defines hsize t g sp ws name val v) by done. cbn [mbind res_bind]. apply Hgo; [split_and!; done|]. rewrite src_text_app, length_app in Hf1. lia.
Qed.
End Loop.

(** The entries of the structure [body] between other segments. *)
Lemma loop_file whole sizes pre body post xs trail doc st fuel : let L := segs_items pre ++ body ++ segs_items post in let t := foldl seg_macros [] pre in
  items_ok [] L = true -> forallb seg_ok (pre ++ post) = true -> Forall header_ok (includes (pre ++ post)) -> segs_state 0 pre = Some O -> segs_state 6 post = Some st ->
  toks body = tokens ++ fields_tokens xs trail ++ [str "}"] -> forallb field_ok xs = true -> Forall (size_found whole sizes) xs -> (length (src_text L) < fuel)%nat ->
  parse_file_loop fs cmdline_includepath hsize fuel includepath whole [] (src_text L) doc data_node_hash false 0 = Ok (doc, DATA_HASH (take MAX_ELEMS (map (entry sizes t) xs)), true).
Proof.
  intros L t HL Hok Hh Hpre Hpost Hbody Hxs Hsz Hf. rewrite forallb_app in Hok. apply andb_true_iff in Hok as [Hok1 Hok2]. unfold includes in Hh. rewrite omap_app in Hh. apply Forall_app in Hh as [Hh1 Hh2].
  assert (Hs1 : body ++ segs_items post `suffix_of` L) by by exists (segs_items pre). assert (Hs2 : segs_items post `suffix_of` L) by (exists (segs_items pre ++ body); unfold L; by rewrite <-app_assoc).
  destruct (loop_segs whole L HL doc data_node_hash false (body ++ segs_items post) pre L [] 0 0 fuel) as (fuel1 & l1 & E1 & Hr1 & Hf1); [split_and!; done|done..|]. cbv beta in E1. rewrite E1. clear E1. fold t.
  apply reaches_ahead in Hr1. rewrite toks_app, Hbody, <-!app_assoc in Hr1. change tokens with (take 5 tokens ++ [str "{"]) in Hr1. rewrite <-!app_assoc in Hr1.
  destruct (loop_toks whole L HL doc data_node_hash false t _ (take 5 tokens) l1 0 fuel1 Hr1 ltac:(done) ltac:(done) Hf1) as (fuel2 & l2 & E2 & Ha2 & Hf2). cbv beta in E2. rewrite E2. clear E2. change (foldl advance 0%nat (take 5 tokens)) with 5%nat.
  cbn [app] in Ha2. apply (next_4096 L HL) in Ha2 as (l3 & E3 & Ha3 & Hl3). destruct fuel2 as [|fuel2]; [lia|]. cbn [parse_file_loop]. rewrite E3.
  cbn [mbind res_bind default]. change ((5 <? 6)%nat && bool_decide (tokens !! 5%nat = Some (str "{"))) with true. cbn [mbind res_bind]. change (6 <? 6)%nat with false. cbv iota. unfold data_node_hash, id.
  destruct (fields_read fs cmdline_includepath includepath whole L HL sizes t doc trail (toks (segs_items post)) xs [] (S (length (src_text l3))) l3 [] Hxs Hsz ltac:(cbn; lia) ltac:(lia) Ha3) as (l4 & -> & Ha4). cbn [mbind res_bind app].
  assert (Hl4 : (length (src_text l4) <= length (src_text l3))%nat).
  { assert (Hx : toks l3 = (fields_tokens xs trail ++ [str "}"]) ++ toks l4) by (destruct Ha3 as [_ ->], Ha4 as [_ ->]; by rewrite <-app_assoc). destruct Ha3 as [S3 _], Ha4 as [S4 _]. destruct (suffix_weak_total l4 l3 L S4 S3) as [?|Hs]; [by apply src_suffix|].
    destruct Hs as [p Ep]. rewrite Ep, toks_app in Hx. apply (f_equal length) in Hx. rewrite !length_app in Hx. cbn [length] in Hx. lia. }
  destruct (loop_segs whole L HL doc (DATA_HASH (take MAX_ELEMS (map (entry sizes t) xs))) true [] post l4 t 6 st fuel2) as (fuel5 & l5 & E5 & Hr5 & Hf5); [rewrite app_nil_r; by apply ahead_reaches|done..|lia|]. cbv beta in E5. rewrite E5.
  destruct fuel5 as [|fuel5]; [lia|]. cbn [parse_file_loop]. unfold next_token. destruct Hr5 as (S5 & _ & T5). rewrite (read_end L HL l5 S5); [done|]. by rewrite <-toks_trim, T5.
Qed.
End Files.

(** ** Documentation comments *)

(** A line of a comment: it has no end of a comment, also not together with
    an asterisk before it, and fits into the buffer. *)
Definition line_ok (s : cstr) : bool :=
  no_close true s && no_close false s && forallb (fun c => negb (c =? NEWLINE) && negb (c =? 0)) s && (length s <? 4095)%nat.

Lemma multiline_line d f : forall s star buf, no_close star s = true -> forallb (fun c => negb (c =? NEWLINE) && negb (c =? 0)) s = true ->
  (length (buf ++ s) < 4095)%nat -> exists star',
  multiline_comment (s ++ NEWLINE :: f) (Some d) star buf
  = multiline_comment f (Some (data_node_array_add d (DATA_STRING (eat_asterisk_space (c_string (buf ++ s))))).2) star' [].
Proof.
  induction s as [|c s IH]; intros star buf Hc Hs Hl.
  - exists star. by rewrite app_nil_r.
  - cbn [no_close forallb] in *. rewrite !andb_true_iff, ?negb_true_iff in *. destruct Hc as [Hc1 Hc2], Hs as [[Hn _] Hs].
    rewrite length_app in Hl. cbn [length] in Hl. destruct (IH (c =? "*"%ch) (buf ++ [c]) Hc2 Hs) as (star' & E); [rewrite !length_app; simpl; lia|].
    exists star'. cbn [app multiline_comment]. rewrite Hn, (proj2 (Nat.leb_gt DOC_BUF (length buf + 1))), Hc1 by (unfold DOC_BUF; lia).
    rewrite E. by rewrite <-app_assoc.
Qed.

Lemma multiline_lines r : forall lines acc star, forallb line_ok lines = true -> (length acc <= MAX_ELEMS)%nat ->
  multiline_comment (concat (map (fun s => s ++ [NEWLINE]) lines) ++ 32 :: "*"%ch :: "/"%ch :: r) (Some (DATA_ARRAY acc)) star []
  = Ok (r, Some (DATA_ARRAY (take MAX_ELEMS (acc ++ map (fun s => DATA_STRING (eat_asterisk_space s)) lines)))).
Proof.
  induction lines as [|s lines IH]; intros acc star Hok Hacc.
  - cbn [map concat app]. rewrite app_nil_r, take_ge by done. destruct star; reflexivity.
  - cbn [forallb map concat] in *. apply andb_true_iff in Hok as [Hs Hok]. unfold line_ok in Hs. rewrite !andb_true_iff in Hs.
    destruct Hs as [[[H1 H2] H3] Hl%Nat.ltb_lt]. rewrite <-!app_assoc. cbn [app].
    destruct (multiline_line (DATA_ARRAY acc) (concat (map (fun s => s ++ [NEWLINE]) lines) ++ 32 :: "*"%ch :: "/"%ch :: r) s star []) as (star' & ->);
      [by destruct star|done|done|]. cbn [app]. rewrite c_string_id by (clear -H3; induction s as [|c s IHs]; [done|]; cbn [forallb] in *; rewrite !andb_true_iff in *; tauto).
    rewrite array_add_take by done. rewrite IH; [|done|rewrite length_take; lia]. by rewrite take_app_take, <-app_assoc.
Qed.
(** The same comment where it is not collected. *)
Lemma multiline_skip r : forall lines star, forallb line_ok lines = true ->
  multiline_comment (concat (map (fun s => s ++ [NEWLINE]) lines) ++ 32 :: "*"%ch :: "/"%ch :: r) None star [] = Ok (r, None).
Proof.
  assert (Hline : forall s star f, no_close star s = true -> exists star', multiline_comment (s ++ f) None star [] = multiline_comment f None star' []).
  { induction s as [|c s IH]; intros star f Hs; [by exists star|]. cbn [no_close] in Hs. apply andb_true_iff in Hs as [H1 H2]. apply negb_true_iff in H1. destruct (IH _ f H2) as (star' & E). exists star'. cbn [app multiline_comment]. by rewrite H1. }
  induction lines as [|s lines IH]; intros star Hok; [by destruct star|]. cbn [forallb map concat] in *. apply andb_true_iff in Hok as [Hs Hok]. unfold line_ok in Hs. rewrite !andb_true_iff in Hs. destruct Hs as [[[H1 H2] _] _].
  rewrite <-!app_assoc. destruct (Hline s star ([NEWLINE] ++ concat (map (fun s => s ++ [NEWLINE]) lines) ++ 32 :: "*"%ch :: "/"%ch :: r)) as (star' & ->); [by destruct star|].
  cbn [app multiline_comment]. change (NEWLINE =? "/"%ch) with false. rewrite andb_false_r. change (NEWLINE =? "*"%ch) with false. by apply IH.
Qed.

(** The text of a documentation comment, if there is one. *)
Definition doc_text (lines : list cstr) : cstr :=
  str "/*" ++ doc_prefix ++ concat (map (fun s => s ++ [NEWLINE]) lines) ++ str " */".
Definition doc_part (o : option (list cstr)) : cstr := match o with Some lines => doc_text lines | None => [] end.
(** The lines of a documentation comment, without the leading asterisk. *)
Definition doc_lines (o : option (list cstr)) : list data_node := map (fun s => DATA_STRING (eat_asterisk_space s)) (default [] o).
Definition doc_node (o : option (list cstr)) : data_node := DATA_ARRAY (take MAX_ELEMS (doc_lines o)).
Definition doc_entry (o : option (list cstr)) : list (cstr * data_node) := match doc_lines o with [] => [] | _ => [(str "doc", doc_node o)] end.

Lemma maybe_comment_doc lines f d : forallb line_ok lines = true -> d = None \/ d = Some data_node_array ->
  maybe_comment (drop 1 (doc_text lines) ++ f) d = Ok (f, (fun _ => doc_node (Some lines)) <$> d).
Proof.
  intros Hok Hd. unfold doc_text. change (str "/*") with ["/"%ch; "*"%ch]. change (str " */") with [32; "*"%ch; "/"%ch]. cbn [app drop].
  rewrite <-!app_assoc. cbn [app maybe_comment]. change ("*"%ch =? "/"%ch) with false. change ("*"%ch =? "*"%ch) with true. cbv iota.
  unfold maybe_doc_comment, doc_prefix. cbn [app match_prefix]. rewrite !Z.eqb_refl. destruct Hd as [->| ->]; [by apply multiline_skip|]. exact (multiline_lines f lines [] false Hok ltac:(simpl; lia)).
Qed.

(** The beginning of a file: comments, the documentation, and the rest. *)
Lemma next_token_start g o size f d : gap g = true -> items_ok (doc_part o ++ f) g = true -> forallb line_ok (default [] o) = true -> d = None \/ d = Some data_node_array ->
  next_token2 size (src_text g ++ doc_part o ++ f) d = next_token2 size f ((fun _ => doc_node o) <$> d).
Proof.
  intros Hg Hok Hlines Hd. unfold next_token2. rewrite (gaps_skip (doc_part o ++ f) size d g _ (S (length (doc_part o ++ f))) Hg Hok) by lia. destruct o as [lines|]; cbn [doc_part].
  - change (doc_text lines ++ f) with ("/"%ch :: drop 1 (doc_text lines) ++ f). rewrite token_loop_slash, maybe_comment_doc by done. cbn [mbind res_bind fst snd]. apply token_loop_fuel; [|lia]. cbn [length]. rewrite length_app. lia.
  - by destruct Hd as [->| ->].
Qed.

(** ** Files *)

(** The size of each array that is asked for, among the tokens of the file. *)
Definition sizes_given (sizes : cstr -> option nat) (ts : list cstr) (x : field) : Prop :=
  match f_value x with FSize id => exists n, sizes id = Some n /\ array_def ts id n | _ => True end.

(** The entries of a file: those of the structure, in their order, and the lines of
    the documentation. *)
Lemma parse_file_struct fs cmdline_includepath hsize headers sizes fname g o pre body post xs trail st :
  let L := segs_items pre ++ body ++ segs_items post in
  fs fname = Some (src_text g ++ doc_part o ++ src_text L) -> gap g = true -> items_ok (doc_part o ++ src_text L) g = true -> forallb line_ok (default [] o) = true ->
  items_ok [] L = true -> forallb seg_ok (pre ++ post) = true -> Forall (header_ok fs cmdline_includepath (dirname fname) headers) (includes (pre ++ post)) -> segs_state 0 pre = Some O -> segs_state 6 post = Some st ->
  toks body = tokens ++ fields_tokens xs trail ++ [str "}"] -> forallb field_ok xs = true -> Forall (sizes_given sizes (toks L)) xs -> (length xs < MAX_ELEMS)%nat ->
  parse_file fs cmdline_includepath hsize fname = Ok (Some (DATA_HASH (map (entry sizes (foldl (seg_macros hsize headers) [] pre)) xs ++ doc_entry o))).
Proof.
  intros L Hfs Hg Hgok Hlines HL Hok Hh Hpre Hpost Hbody Hxs Hsz Hlen. set (whole := src_text g ++ doc_part o ++ src_text L) in *. unfold parse_file. rewrite Hfs.
  assert (Hstart : forall size d, d = None \/ d = Some data_node_array -> next_token2 size whole d = next_token2 size (src_text L) ((fun _ => doc_node o) <$> d)) by (intros; by apply next_token_start).
  assert (Hwl : (length (src_text L) <= length whole)%nat) by (unfold whole; rewrite !length_app; lia).
  assert (Hsizes : Forall (size_found whole sizes) xs).
  { eapply Forall_impl; [exact Hsz|]. intros x. unfold sizes_given, size_found. destruct (f_value x) as [| |id]; try done. intros (n & Hn & before & els & trail' & rest & Ets & Hnd & Hels & Hne & Hn2 & Hid). exists n. split; [done|].
    rewrite <-Hn2. transitivity (look_for_array_size (S (length whole)) (src_text L) id []); [cbn [look_for_array_size]; by rewrite (Hstart 2048%nat None) by by left|].
    eapply (look_finds L HL id els trail' rest Hels Hne Hid before); [split; [done|exact Ets]|done|lia]. }
  transitivity ('(doc, r, found) ← parse_file_loop fs cmdline_includepath hsize (S (length whole)) (dirname fname) whole [] (src_text L) (doc_node o) data_node_hash false 0;
    if (0 <? data_node_array_len doc)%nat then Ok (Some (data_node_hash_add r (str "doc") doc).2) else if found : bool then Ok (Some r) else Ok None : res stop (option data_node)).
  { f_equal. cbn [parse_file_loop]. unfold next_token. rewrite (Hstart 4096%nat (Some data_node_array)) by by right. cbn [fmap option_fmap option_map].
    assert (Hft : exists t ts, toks L = t :: ts) by (unfold L; rewrite !toks_app, Hbody; destruct (toks (segs_items pre)); cbn; eauto). destruct Hft as (t & ts & Eft).
    destruct (next_tok L HL L t ts) as (l1 & E1 & _); [split; done|]. pose proof (E1 4096%nat (Some (doc_node o)) ltac:(lia)) as E2. by rewrite E2. }
  pose proof (loop_file fs cmdline_includepath hsize (dirname fname) headers whole sizes pre body post xs trail (doc_node o) st (S (length whole)) HL Hok Hh Hpre Hpost Hbody Hxs Hsizes (le_n_S _ _ Hwl)) as Eloop. cbv zeta in Eloop. fold L in Eloop. rewrite Eloop. clear Eloop. cbn [mbind res_bind]. rewrite take_ge by (rewrite length_map; lia).
  unfold doc_entry, doc_node. destruct (doc_lines o) as [|x lines].
  - cbn [data_node_array_len take length Nat.ltb Nat.leb]. by rewrite app_nil_r.
  - cbn [data_node_array_len]. rewrite (proj2 (Nat.ltb_lt _ _)) by (rewrite length_take; unfold MAX_ELEMS; simpl; lia).
    unfold data_node_hash_add. by rewrite (proj2 (Nat.eqb_neq _ _)) by (rewrite length_map; lia).
Qed.
