(* ===== verification/MetaMain.v ===== *)
(** * The program [metaparse.c] from source to JSON *)

From stdpp Require Import base list strings gmap.
From Stdlib Require Import ZArith Lia.
From S2P Require Import Prelude ParseNum DataStorage MetaParse MetaNorm MetaLex MetaFile.

Local Open Scope Z_scope.

(** ** What is printed can be read *)

(** An entry that is printed as JSON. *)
Definition printable (e : cstr * data_node) : Prop := plain e.1 = true /\ flat e.2 = true /\ strings_ok e.2.

Lemma flat_array l : forallb flat l = true -> flat (DATA_ARRAY (take MAX_ELEMS l)) = true.
Proof.
  intros H. cbn [flat]. apply forallb_forall. intros x Hx. rewrite forallb_forall in H. apply H.
  rewrite <-(take_drop MAX_ELEMS l). apply in_or_app. by left.
Qed.

Lemma node_of_flat : forall v n, node_of v = Some n -> flat n = true.
Proof.
  fix IH 1. intros [s|l] n; cbn [node_of].
  - destruct (streq s (str ",") || streq s (str "NULL")); [done|]. by intros [= <-].
  - destruct (0 <? _)%nat; [|done]. intros [= <-]. apply flat_array. induction l as [|v l IHl]; [done|].
    change (omap node_of (v :: l)) with (match node_of v with Some y => y :: omap node_of l | None => omap node_of l end).
    destruct (node_of v) as [y|] eqn:E; [|done]. cbn [forallb]. by rewrite (IH v y E), IHl.
Qed.

Lemma items_flat l : forallb flat (omap node_of l) = true.
Proof. apply forallb_forall. intros x (v & _ & Hv)%list_elem_of_In%list_elem_of_omap. by eapply node_of_flat. Qed.

Lemma entry_flat sizes t l o : Forall (fun e => flat e.2 = true) (map (entry sizes t) l ++ doc_entry o).
Proof.
  apply Forall_app. split.
  - apply Forall_forall. intros e He. apply list_elem_of_In, in_map_iff in He as (x & <- & _). unfold entry. cbn [snd].
    destruct (f_value x); try done. apply flat_array, items_flat.
  - unfold doc_entry, doc_node. destruct (doc_lines o) eqn:E; [done|]. rewrite <-E. apply Forall_singleton. apply flat_array. unfold doc_lines. generalize (default [] o). intros lines. by induction lines.
Qed.

Lemma hmap_elem elems k v : NoDup elems.*1 -> hmap elems !! k = Some v <-> (k, v) ∈ elems.
Proof. intros H. unfold hmap. symmetry. by apply elem_of_list_to_map. Qed.

(** The normalised entries are printable if those of the file are. *)
Lemma normalized_printable LONG_MIN LONG_MAX elems m out fname : NoDup elems.*1 -> Forall printable elems -> bytes fname ->
  int_variants LONG_MIN LONG_MAX (drop_keys filter_out (hmap elems)) = Some m -> NoDup out.*1 ->
  hmap out = <[str "fname" := DATA_STRING fname]> (close implies m) -> Forall printable out.
Proof.
  intros Hnd Hp Hf Hm Hnd' Hout. apply Forall_forall. intros [k v] Hin. apply hmap_elem in Hin; [|done]. rewrite Hout in Hin.
  assert (Hone : strings_ok (DATA_STRING (str "1"))) by (vm_compute; by repeat constructor).
  destruct (decide (k = str "fname")) as [->|Hne]; [rewrite lookup_insert_eq in Hin; injection Hin as <-; done|].
  rewrite lookup_insert_ne in Hin by done. unfold close in Hin. rewrite with_ones_lookup in Hin.
  assert (Hm0 : forall w, drop_keys filter_out (hmap elems) !! k = Some w -> printable (k, w)).
  { intros w Hw. assert (Hh : hmap elems !! k = Some w).
    { revert Hw. unfold drop_keys. generalize filter_out. intros ids. revert elems Hnd Hp Hm. generalize hmap. intros hm elems _ _ _.
      generalize (hm elems). induction ids as [|id ids IH]; intros m0; cbn [foldl]; [done|]. intros H%IH. by apply lookup_delete_Some in H as [_ ?]. }
    apply hmap_elem in Hh; [|done]. rewrite Forall_forall in Hp. by apply Hp. }
  destruct (m !! k) as [w|] eqn:Em.
  - injection Hin as <-. unfold int_variants in Hm. repeat (case_match; try done); injection Hm as <-; try (by apply Hm0).
    destruct (decide (k = VARIANTS)) as [->|Hk]; [rewrite lookup_insert_eq in Em; injection Em as <-; done|].
    rewrite lookup_insert_ne in Em by done. by apply Hm0.
  - case_bool_decide as Hk; [|done]. injection Hin as <-. split; [|done]. apply implied_in in Hk as (f & ids & Hi & _ & Hx).
    assert (Hb : forallb (fun e => forallb plain e.2) implies = true) by (vm_compute; reflexivity).
    rewrite forallb_forall in Hb. specialize (Hb (f, ids) ltac:(by apply list_elem_of_In)). rewrite forallb_forall in Hb. apply Hb. by apply list_elem_of_In.
Qed.

(** The text in front of the object. *)
Definition header (fname : cstr) : cstr := str "  " ++ [DQUOTE] ++ strip_name fname ++ [DQUOTE] ++ str ": ".

(** C27: from a source file to the output.  The file is any sequence of blanks,
    comments, tokens and characters that are ignored, maybe with a documentation
    comment before the first token; a definition of a test structure is among code
    and directives of the preprocessor.  It is printed as JSON that a reader turns
    back into: the exported fields with their values (names without dots, casts
    skipped, nested arrays without [NULL], the macros that the file and its headers
    define before the structure replaced, and for [ARRAY_SIZE] the number of the
    elements that the array has in the file), the lines of the comment, the tags
    that other tags imply, and the name of the file.  If the number of variants is
    not a number, the program exits with 1. *)
Theorem metaparse_end_to_end LONG_MIN LONG_MAX fs cmdline_includepath hsize headers sizes fname g o pre body post xs trail st :
  let L := segs_items pre ++ body ++ segs_items post in
  fs fname = Some (src_text g ++ doc_part o ++ src_text L) ->
  gap g = true -> items_ok (doc_part o ++ src_text L) g = true -> forallb line_ok (default [] o) = true -> items_ok [] L = true ->
  forallb seg_ok (pre ++ post) = true -> Forall (header_ok fs cmdline_includepath (dirname fname) headers) (includes (pre ++ post)) ->
  segs_state 0 pre = Some O -> segs_state 6 post = Some st ->
  toks body = tokens ++ fields_tokens xs trail ++ [str "}"] -> forallb field_ok xs = true -> Forall (sizes_given sizes (toks L)) xs ->
  let elems := map (entry sizes (foldl (seg_macros hsize headers) [] pre)) xs ++ doc_entry o in
  NoDup elems.*1 -> (length elems <= 89)%nat -> str "fname" ∉ elems.*1 ->
  Forall (fun e => plain e.1 = true /\ strings_ok e.2) elems -> bytes fname ->
  match int_variants LONG_MIN LONG_MAX (drop_keys filter_out (hmap elems)) with
  | None => main LONG_MIN LONG_MAX fs cmdline_includepath hsize fname = Err (Exits 1)
  | Some m => exists out,
      main LONG_MIN LONG_MAX fs cmdline_includepath hsize fname = Ok (0, header fname ++ data_to_json (DATA_HASH out) 2) /\
      jvalue (weight (DATA_HASH out)) (data_to_json (DATA_HASH out) 2) = Some (to_json (DATA_HASH out), []) /\
      NoDup out.*1 /\ hmap out = <[str "fname" := DATA_STRING fname]> (close implies m)
  end.
Proof.
  intros L Hfs Hg Hgok Hlines HL Hok Hh Hpre Hpost Hbody Hxs Hsz elems Hnd Hlen Hfn Hpl Hb.
  assert (Hl : (length xs < MAX_ELEMS)%nat) by (unfold elems in Hlen; rewrite length_app, length_map in Hlen; unfold MAX_ELEMS; lia).
  unfold main. rewrite (parse_file_struct fs cmdline_includepath hsize headers sizes fname g o pre body post xs trail st Hfs Hg Hgok Hlines HL Hok Hh Hpre Hpost Hbody Hxs Hsz Hl). cbn [mbind res_bind]. fold elems.
  pose proof (normalize_correct LONG_MIN LONG_MAX fname elems Hnd Hlen Hfn) as Hn.
  destruct (int_variants LONG_MIN LONG_MAX (drop_keys filter_out (hmap elems))) as [m|] eqn:Em; [|by rewrite Hn].
  destruct Hn as (out & -> & Hnd' & Hm). cbn [mbind res_bind]. exists out.
  assert (Hpr : Forall printable out).
  { eapply normalized_printable; [exact Hnd| |exact Hb|exact Em|done|done]. pose proof (entry_flat sizes (foldl (seg_macros hsize headers) [] pre) xs o) as Hfl. fold elems in Hfl.
    rewrite Forall_forall in Hpl, Hfl |- *. intros e He. destruct (Hpl e He). split; [done|]. split; [by apply Hfl|done]. }
  split_and!; [|..|done|done].
  - unfold header. by rewrite <-!app_assoc.
  - rewrite <-(app_nil_r (data_to_json _ _)). apply data_to_json_roundtrip; try done; rewrite Forall_forall in Hpr.
    + apply forallb_forall. intros e He. apply Hpr. by apply list_elem_of_In.
    + apply forallb_forall. intros e He. apply Hpr. by apply list_elem_of_In.
    + cbn [strings_ok]. clear -Hpr. induction out as [|[k v] out IH]; [done|]. cbn [foldr]. split; [apply (Hpr (k, v)); set_solver|]. apply IH. set_solver.
Qed.

(** ** An example *)

(** *** From a text to its items and segments *)

Definition until (p : Z -> bool) (s : cstr) : nat := prefix_len (fun c => negb (p c)) s.
Fixpoint string_len (prev : Z) (s : cstr) : nat :=
  match s with [] => O | c :: s' => if (c =? DQUOTE) && negb (prev =? BACKSLASH) then O else S (string_len c s') end.
Fixpoint block_len (s : cstr) : nat :=
  match s with [] => O | c :: s' => if starts s (str "*/") then O else S (block_len s') end.
Fixpoint scan (fuel : nat) (s : cstr) : list item :=
  match fuel, s with
  | S fuel, c :: r =>
      if is_blank c then Blank c :: scan fuel r
      else if is_punct c then Tok (Punct c) :: scan fuel r
      else if c =? DQUOTE then let k := string_len 0 r in Tok (Quoted (take k r)) :: scan fuel (drop (S k) r)
      else if starts s (str "//") then let k := until (Z.eqb NEWLINE) s in Line (drop 2 (take k s)) :: scan fuel (drop (S k) s)
      else if starts s (str "/*") then let k := block_len (drop 2 s) in Block (take k (drop 2 s)) :: scan fuel (drop (k + 4) s)
      else if c =? "/"%ch then Slash :: scan fuel r
      else if is_word c then let k := until (fun c => is_blank c || is_punct c || (c =? DQUOTE)) s in Tok (Word (take k s)) :: scan fuel (drop k s)
      else Other c :: scan fuel r
  | _, _ => []
  end.
Definition itemize (s : cstr) : list item := scan (length s) s.

(** Code goes up to the next line with a directive. *)
Fixpoint code_len (s : cstr) : nat :=
  match s with [] => O | c :: s' => if (c =? NEWLINE) && (at_ s' 0 =? "#"%ch) then 1 else S (code_len s') end.
Fixpoint segment (fuel : nat) (s : cstr) : list seg :=
  match fuel, s with
  | S fuel, c :: r =>
      let k := until (Z.eqb NEWLINE) s in
      if starts s (str "#include ") then let name := drop 9 (take k s) in Include [] 32 [] name NEWLINE (itemize (name ++ [NEWLINE])) :: segment fuel (drop (S k) s)
      else if starts s (str "#define ") then
        let d := drop 8 (take k s) in let n := until isspace d in let v := drop (S n) d in
        Define [] 32 [] (take n d) (if streq v [] then NoValue else Plain [32] [v]) (itemize (d ++ [NEWLINE])) :: segment fuel (drop (S k) s)
      else if c =? "#"%ch then let n := until isspace r in Directive [] (Word (take n r)) :: segment fuel (drop n r)
      else let k := code_len s in Code (itemize (take k s)) :: segment fuel (drop k s)
  | _, _ => []
  end.
Definition segments (s : cstr) : list seg := segment (length s) s.
Definition unlines (l : list cstr) : cstr := concat (map (fun s => s ++ [NEWLINE]) l).
Definition quoted (s : string) : cstr := [DQUOTE] ++ str s ++ [DQUOTE].

(** *** The test [epoll_create01.c] *)

Definition ex_notice : list cstr := map str
  ["// SPDX-License-Identifier: GPL-2.0-or-later";
   "/*";
   " * Copyright (c) Linux Test Project, 2021";
   " * Author: Xie Ziyao <ziyaoxie@outlook.com>";
   " */";
   ""]%string.
Definition ex_doc : list cstr := map str
  [" * [Description]";
   " *";
   " * Verify that epoll_create return a nonnegative file descriptor on success.";
   " *";
   " * The size argument informed the kernel of the number of file descriptors";
   " * that the caller expected to add to the epoll instance, but it is no longer";
   " * required."]%string.
Definition ex_before : list cstr :=
  [[]; [];
   str "#include <sys/epoll.h>";
   str "#include " ++ quoted "tst_test.h";
   str "#include " ++ quoted "lapi/epoll.h";
   str "#include " ++ quoted "lapi/syscalls.h";
   str "#include " ++ quoted "epoll_create.h";
   [];
   str "static int tc[] = {1, INT_MAX};";
   [];
   str "static void run(unsigned int n)";
   str "{";
   [TAB] ++ str "TST_EXP_FD(do_epoll_create(tc[n]), " ++ quoted "epoll_create(%d)" ++ str ", tc[n]);";
   [];
   [TAB] ++ str "if (!TST_PASS)";
   [TAB; TAB] ++ str "return;";
   [TAB] ++ str "SAFE_CLOSE(TST_RET);";
   str "}"; []].
Definition ex_struct : list cstr :=
  [str "static struct tst_test test = {";
   [TAB] ++ str ".test_variants = EPOLL_CREATE_VARIANTS,";
   [TAB] ++ str ".tcnt = ARRAY_SIZE(tc),";
   [TAB] ++ str ".setup = variant_info,";
   [TAB] ++ str ".test = run,"].
Definition ex_after : list cstr := [str ";"].
Definition ex_file : cstr :=
  unlines (ex_notice ++ str "/*\" :: ex_doc) ++ str " */" ++ unlines (ex_before ++ ex_struct) ++ str "}" ++ unlines ex_after.

(** The header [epoll_create.h]. *)
Definition ex_header : cstr := unlines
  [str "// SPDX-License-Identifier: GPL-2.0-or-later";
   str "/*";
   str " * Copyright (c) Linux Test Project, 2021";
   str " */";
   [];
   str "#ifndef EPOLL_CREATE_H__";
   str "#define EPOLL_CREATE_H__";
   [];
   str "#define EPOLL_CREATE_VARIANTS 2";
   [];
   str "static int do_epoll_create(int size)";
   str "{";
   [TAB] ++ str "switch (tst_variant) {";
   [TAB] ++ str "case 0:";
   [TAB; TAB] ++ str "return tst_syscall(__NR_epoll_create, size);";
   [TAB] ++ str "break;";
   [TAB] ++ str "case 1:";
   [TAB; TAB] ++ str "return epoll_create(size);";
   [TAB] ++ str "break;";
   [TAB] ++ str "}";
   [];
   [TAB] ++ str "return -1;";
   str "}";
   [];
   str "static void variant_info(void)";
   str "{";
   [TAB] ++ str "switch (tst_variant) {";
   [TAB] ++ str "case 0:";
   [TAB; TAB] ++ str "tst_res(TINFO, " ++ quoted "Testing variant: syscall __NR_epoll_create" ++ str ");";
   [TAB] ++ str "break;";
   [TAB] ++ str "case 1:";
   [TAB; TAB] ++ str "tst_res(TINFO, " ++ quoted "Testing variant: libc epoll_create()" ++ str ");";
   [TAB] ++ str "break;";
   [TAB] ++ str "}";
   str "}";
   [];
   str "#endif /* EPOLL_CREATE_H__ */"].

Definition ex_name : cstr := str "epoll_create/epoll_create01.c".
Definition ex_fs (path : cstr) : option cstr :=
  if streq path ex_name then Some ex_file else if streq path (str "epoll_create/epoll_create.h") then Some ex_header else None.
Definition ex_headers (name : cstr) : option (list seg) := if streq name (str "epoll_create.h") then Some (segments ex_header) else None.

Definition ex_gap : list item := itemize (unlines ex_notice).
Definition ex_pre : list seg := segments (unlines ex_before).
Definition ex_body : list item := itemize (unlines ex_struct ++ str "}").
Definition ex_post : list seg := segments (unlines ex_after).
Definition ex_fields : list field :=
  [mkField (str ".test_variants") [] (FAtom (str "EPOLL_CREATE_VARIANTS")) [];
   mkField (str ".tcnt") [] (FSize (str "tc")) [];
   mkField (str ".setup") [] (FAtom (str "variant_info")) [];
   mkField (str ".test") [] (FAtom (str "run")) []].
Definition ex_sizes (id : cstr) : option nat := if streq id (str "tc") then Some 2%nat else None.
Definition ex_elems : list (cstr * data_node) := map (entry ex_sizes (foldl (seg_macros 128 ex_headers) [] ex_pre)) ex_fields ++ doc_entry (Some ex_doc).
Definition ex_items : list item := segs_items ex_pre ++ ex_body ++ segs_items ex_post.

Lemma ex_size : array_def (toks ex_items) (str "tc") 2.
Proof.
  exists (take 17 (toks ex_items)), [[str "1"]; [str "INT_MAX"]], false, (drop 26 (toks ex_items)).
  split_and!; try (vm_compute; reflexivity). done.
Qed.

Lemma metaparse_end_to_end_witness :
  match int_variants (- 2 ^ 63) (2 ^ 63 - 1) (drop_keys filter_out (hmap ex_elems)) with
  | None => main (- 2 ^ 63) (2 ^ 63 - 1) ex_fs [str "include"] 128 ex_name = Err (Exits 1)
  | Some m => exists out,
      main (- 2 ^ 63) (2 ^ 63 - 1) ex_fs [str "include"] 128 ex_name = Ok (0, header ex_name ++ data_to_json (DATA_HASH out) 2) /\
      jvalue (weight (DATA_HASH out)) (data_to_json (DATA_HASH out) 2) = Some (to_json (DATA_HASH out), []) /\
      NoDup out.*1 /\ hmap out = <[str "fname" := DATA_STRING ex_name]> (close implies m)
  end.
Proof.
  refine (metaparse_end_to_end (- 2 ^ 63) (2 ^ 63 - 1) ex_fs [str "include"] 128 ex_headers ex_sizes ex_name ex_gap (Some ex_doc) ex_pre ex_body ex_post ex_fields true 0 _ _ _ _ _ _ _ _ _ _ _ _ _ _ _ _ _);
    try (vm_compute; reflexivity).
  - change (Forall (header_ok ex_fs [str "include"] (dirname ex_name) ex_headers) (includes (ex_pre ++ ex_post))). replace (includes (ex_pre ++ ex_post)) with (map str ["tst_test.h"; "lapi/epoll.h"; "lapi/syscalls.h"; "epoll_create.h"]%string) by (vm_compute; reflexivity).
    repeat constructor; vm_compute; reflexivity.
  - apply Forall_cons; split; [exact I|]. apply Forall_cons; split; [exists 2%nat; split; [done|exact ex_size]|]. repeat (apply Forall_cons; split; [exact I|]). apply Forall_nil, I.
  - by apply (bool_decide_unpack _); vm_compute.
  - change (5 <= 89)%nat. lia.
  - by apply (bool_decide_unpack _); vm_compute.
  - vm_compute. repeat constructor; discriminate.
  - vm_compute. repeat constructor; discriminate.
Defined.

(** The entries for the example, and the output. *)
Example ex_entries : take 4 ex_elems =
  [(str "test_variants", DATA_STRING (str "2")); (str "tcnt", DATA_INT 2); (str "setup", DATA_STRING (str "variant_info")); (str "test", DATA_STRING (str "run"))].
Proof. vm_compute. reflexivity. Qed.
Example ex_output :
  match main (- 2 ^ 63) (2 ^ 63 - 1) ex_fs [str "include"] 128 ex_name with Ok (0, text) => jvalue 50 (drop (length (header ex_name)) text) | _ => None end = Some (JObj
    [(str "doc", JArr (map (fun s => JStr (eat_asterisk_space s)) ex_doc)); (str "test_variants", JNum 2);
     (str "fname", JStr ex_name)], []).
Proof. vm_compute. reflexivity. Qed.

(** *** Flaws *)

(** A string that looks like punctuation is taken for it. *)
Example string_as_brace :
  parse_array 20 ([DQUOTE] ++ str "}" ++ [DQUOTE] ++ str ", b }") data_node_array = Ok (0, str ", b }", DATA_ARRAY []).
Proof. vm_compute. reflexivity. Qed.

(** A word that fills the buffer is written beyond its end. *)
Example word_overflow : next_token2 8 (str "abcdefgh ") None = Fault.
Proof. vm_compute. reflexivity. Qed.

(** A macro with a blank behind its name takes the next line as its value. *)
Example macro_next_line : parse_macro 128 [] (str " EMPTY " ++ [NEWLINE] ++ str "int x;" ++ [NEWLINE]) = Ok ([(str "EMPTY", str "intx;")], []).
Proof. vm_compute. reflexivity. Qed.

(** In a documentation comment an asterisk at the end of a line closes it
    together with a slash at the beginning of the next one. *)
Example split_close : maybe_comment (str "*\" ++ [NEWLINE] ++ str "a *" ++ [NEWLINE] ++ str "/b") (Some data_node_array)
  = Ok (str "b", Some (DATA_ARRAY [DATA_STRING (str "a *")])).
Proof. vm_compute. reflexivity. Qed.

(** At the end of the file the name of an include file is read uninitialised. *)
Example include_at_end : parse_file (fun _ => Some (str "#include")) [] 128 (str "a.c") = Fault.
Proof. vm_compute. reflexivity. Qed.
