(* ===== verification/FuzzySync.v ===== *)
(** * Fuzzy synchronisation of two threads: [include/tst_fuzzy_sync.h]

    Two threads meet in [tst_fzsync_pair_wait]. The atomic operations are
    sequentially consistent ([include/tst_atomic.h]), so an execution is an
    interleaving of them. A step is one atomic operation of one thread. *)

From stdpp Require Import base list.
From Stdlib Require Import ZArith Lia.
From S2P Require Import Prelude.

Local Open Scope Z_scope.

(** ** The waiting loop *)

Inductive tid : Set := ThA | ThB.
Definition peer (t : tid) : tid := match t with ThA => ThB | ThB => ThA end.
#[export] Instance tid_eq_dec : EqDecision tid.
Proof. solve_decision. Defined.

(** Where a thread is: outside, or at the next atomic operation. [N]: the
    ordinary wait, with the value of [our_cntr] that was loaded; [W]: the wait
    before the reset of the counter; [S0]: the reset; [V]: the wait behind it. *)
Inductive pc : Set := Idle | N1 | N2 (r : Z) | N3 | W1 | W2 | W3 | S0 | V1 | V2.

#[export] Instance pc_eq_dec : EqDecision pc.
Proof. solve_decision. Defined.

(** [cntr t] is [our_cntr] of thread [t]: [a_cntr] for thread A. [arr t] is the
    number of waits that [t] has entered; it is not in the code. [spins] is an
    [int] in the code, which one wait of more than [INT_MAX] spins overflows; here
    it has no bound, and no step depends on it. *)
Record pair : Type := mkPair {
  cntr : tid -> Z;
  at_pc : tid -> pc;
  arr : tid -> Z;
  exit_ : bool;
  spins : Z
}.

Definition upd {X} (f : tid -> X) (t : tid) (x : X) : tid -> X := fun u => if decide (u = t) then x else f u.

Definition goto (s : pair) (t : tid) (c : pc) : pair := mkPair (cntr s) (upd (at_pc s) t c) (arr s) (exit_ s) (spins s).
Definition store_other (s : pair) (t : tid) (v : Z) : pair := mkPair (upd (cntr s) (peer t) v) (at_pc s) (arr s) (exit_ s) (spins s).
Definition add_spin (s : pair) (b : bool) : pair := mkPair (cntr s) (at_pc s) (arr s) (exit_ s) (if b then spins s + 1 else spins s).
Definition enter (s : pair) (t : tid) : pair := mkPair (cntr s) (at_pc s) (upd (arr s) t (arr s t + 1)) (exit_ s) (spins s).

(** [spin t n]: whether the [n]-th wait of [t] counts its spins. *)
Definition wait_step (spin : tid -> Z -> bool) (t : tid) (s : pair) : pair :=
  let our := cntr s t in
  let other := cntr s (peer t) in
  match at_pc s t with
  | Idle =>
      let v := wrap_s 32 (other + 1) in
      goto (enter (store_other s t v) t) t (if v =? INT_MAX then W1 else N1)
  | N1 => goto s t (N2 our)
  | N2 r => goto s t (if r <? other then N3 else Idle)
  | N3 => if exit_ s then goto s t Idle else goto (add_spin s (spin t (arr s t))) t N1
  | W1 => goto s t (if 0 <? our then W2 else S0)
  | W2 => goto s t (if our <? INT_MAX then W3 else S0)
  | W3 => if exit_ s then goto s t S0 else goto (add_spin s (spin t (arr s t))) t W1
  | S0 => goto (store_other s t 0) t V1
  | V1 => goto s t (if 1 <? our then V2 else Idle)
  | V2 => if exit_ s then goto s t Idle else goto s t V1
  end.

(** The state after [tst_fzsync_pair_reset]. *)
Definition init_pair : pair := mkPair (fun _ => 0) (fun _ => Idle) (fun _ => 0) false 0.

(** The waits that a thread has left. *)
Definition left_waits (s : pair) (t : tid) : Z := match at_pc s t with Idle => arr s t | _ => arr s t - 1 end.

(** ** The invariant *)

Lemma INT_MAX_big : 3 <= INT_MAX.
Proof. done. Qed.
Lemma INT_MAX_value : INT_MAX = 2 ^ 31 - 1.
Proof. done. Qed.
#[local] Opaque INT_MAX.

Lemma upd_eq {X} (f : tid -> X) t x : upd f t x t = x.
Proof. unfold upd. by rewrite decide_True. Qed.
Lemma upd_ne {X} (f : tid -> X) t u x : u <> t -> upd f t x u = f u.
Proof. intros H. unfold upd. by rewrite decide_False. Qed.
Lemma peer_ne t : peer t <> t.
Proof. by destruct t. Qed.
Lemma peer_ne' t : t <> peer t.
Proof. by destruct t. Qed.
Lemma peer_peer t : peer (peer t) = t.
Proof. by destruct t. Qed.

Definition pre_reset (c : pc) : bool := match c with W1 | W2 | W3 | S0 => true | _ => false end.
(** The thread has not seen its peer yet. *)
Definition first_stage (c : pc) : bool := match c with N1 | N2 _ | N3 | W1 | W2 | W3 => true | _ => false end.

(** The counter that [t] increments, from the number of its waits. *)
Definition counter_ok (s : pair) (t : tid) : Prop :=
  let v := cntr s (peer t) in let j := arr s t mod INT_MAX in
  match at_pc s t with
  | Idle => v = j
  | N1 | N2 _ | N3 => v = j /\ j <> 0
  | W1 | W2 | W3 | S0 => v = INT_MAX /\ j = 0
  | V1 | V2 => v = 0 /\ j = 0
  end.

Record inv_of (s : pair) (t : tid) : Prop := {
  i_counter : counter_ok s t;
  i_pos : 0 <= arr s t;
  i_ahead : arr s t <= arr s (peer t) \/
            (arr s t = arr s (peer t) + 1 /\ first_stage (at_pc s t) = true /\ pre_reset (at_pc s (peer t)) = false);
  i_loaded : forall r, at_pc s t = N2 r -> cntr s (peer t) <= r -> arr s t <= arr s (peer t);
  i_together : pre_reset (at_pc s (peer t)) = true -> arr s t = arr s (peer t) -> at_pc s t <> Idle
}.
Definition inv (s : pair) : Prop := forall t, inv_of s t.

Lemma mod_succ n : 0 <= n -> (n + 1) mod INT_MAX = if n mod INT_MAX =? INT_MAX - 1 then 0 else n mod INT_MAX + 1.
Proof.
  intros Hn. pose proof INT_MAX_big. pose proof (Z.mod_pos_bound n INT_MAX ltac:(lia)). pose proof (Z.div_mod n INT_MAX ltac:(lia)).
  destruct (Z.eqb_spec (n mod INT_MAX) (INT_MAX - 1)) as [E|E].
  - replace (n + 1) with ((n / INT_MAX + 1) * INT_MAX) by lia. apply Z.mod_mul. lia.
  - replace (n + 1) with (n mod INT_MAX + 1 + n / INT_MAX * INT_MAX) by lia. rewrite Z.mod_add by lia. apply Z.mod_small. lia.
Qed.

Lemma init_inv : inv init_pair.
Proof.
  intros t. split; simpl; try done; try lia.
Qed.

(** The counter that a thread reads, when it is ahead. *)
Lemma ahead_counter s t : inv s -> arr s t = arr s (peer t) + 1 ->
  cntr s t = arr s (peer t) mod INT_MAX /\ pre_reset (at_pc s (peer t)) = false /\ first_stage (at_pc s t) = true /\
  arr s t mod INT_MAX = if arr s (peer t) mod INT_MAX =? INT_MAX - 1 then 0 else arr s (peer t) mod INT_MAX + 1.
Proof.
  intros Hi Ha. destruct (i_ahead _ _ (Hi t)) as [|(_ & Hf & Hp)]; [lia|]. split_and!; try done.
  - pose proof (i_counter _ _ (Hi (peer t))) as Hc. unfold counter_ok in Hc. rewrite peer_peer in Hc.
    destruct (at_pc s (peer t)); try done; simpl in Hc; lia.
  - rewrite Ha. apply mod_succ. apply (i_pos _ _ (Hi (peer t))).
Qed.

(** A thread moves on without touching the counters. *)
Lemma move_inv s s' t c : inv s -> cntr s' = cntr s -> arr s' = arr s -> at_pc s' = upd (at_pc s) t c ->
  counter_ok s' t -> (arr s t = arr s (peer t) + 1 -> first_stage c = true) -> (pre_reset c = true -> pre_reset (at_pc s t) = true) ->
  (forall r, c = N2 r -> cntr s (peer t) <= r -> arr s t <= arr s (peer t)) ->
  (c = Idle -> pre_reset (at_pc s (peer t)) = true -> arr s t <> arr s (peer t)) -> inv s'.
Proof.
  intros Hi Hc Ha Hp Hok Hf Hpre Hn Hid u. destruct (decide (u = t)) as [->|Hne].
  - destruct (Hi t) as [_ H2 H3 _ _]. split; [done|by rewrite Ha|..]; rewrite ?Ha, ?Hc, ?Hp, ?upd_eq, ?(upd_ne _ _ _ _ (peer_ne t)).
    + destruct H3 as [|(H & _ & H')]; [by left|right]. auto.
    + done.
    + intros H1 H2' ->. by apply Hid.
  - assert (u = peer t) as -> by (by destruct u, t). destruct (Hi (peer t)) as [H1 H2 H3 H4 H5]. rewrite peer_peer in *.
    split; rewrite ?peer_peer, ?Ha, ?Hc, ?Hp, ?upd_eq, ?(upd_ne _ _ _ _ (peer_ne t)).
    + unfold counter_ok in *. rewrite Hc, Ha, Hp, (upd_ne _ _ _ _ (peer_ne t)). by rewrite peer_peer in *.
    + done.
    + destruct H3 as [|(H & H' & H'')]; [by left|right]. split_and!; try done. destruct (pre_reset c); [|done]. by rewrite Hpre in H''.
    + done.
    + intros Hc'. apply H5. auto.
Qed.

(** Entering a wait. *)
Lemma enter_inv spin s t : inv s -> at_pc s t = Idle -> inv (wait_step spin t s).
Proof.
  intros Hi Hpc. unfold wait_step. rewrite Hpc. destruct (Hi t) as [H1 H2 H3 _ _]. unfold counter_ok in H1. rewrite Hpc in H1, H3. simpl in H3.
  assert (Hle : arr s t <= arr s (peer t)) by (destruct H3 as [|(_ & ? & _)]; done).
  pose proof INT_MAX_big as HM. pose proof (Z.mod_pos_bound (arr s t) INT_MAX ltac:(lia)) as Hb.
  assert (Hv : wrap_s 32 (cntr s (peer t) + 1) = arr s t mod INT_MAX + 1).
  { pose proof INT_MAX_value. rewrite H1. apply wrap_s_id; [done|]. change (32 - 1) with 31. lia. }
  rewrite Hv. set (j := arr s t mod INT_MAX) in *. set (c := if j + 1 =? INT_MAX then W1 else N1).
  pose proof (mod_succ (arr s t) H2) as Hs. fold j in Hs.
  intros u. destruct (decide (u = t)) as [->|Hne].
  - split; simpl; rewrite ?upd_eq, ?(upd_ne _ _ _ _ (peer_ne t)).
    + unfold counter_ok. simpl. rewrite !upd_eq, Hs. unfold c. destruct (Z.eqb_spec (j + 1) INT_MAX), (Z.eqb_spec j (INT_MAX - 1)); lia.
    + lia.
    + destruct (Z.eq_dec (arr s t) (arr s (peer t))) as [E|]; [right|left; lia]. split; [lia|]. split; [unfold c; by destruct (j + 1 =? INT_MAX)|].
      destruct (pre_reset (at_pc s (peer t))) eqn:Ep; [|done]. by destruct (i_together _ _ (Hi t) Ep E).
    + unfold c. intros r. by destruct (j + 1 =? INT_MAX).
    + unfold c. by destruct (j + 1 =? INT_MAX).
  - assert (u = peer t) as -> by (by destruct u, t). destruct (Hi (peer t)) as [K1 K2 K3 K4 K5]. rewrite peer_peer in *.
    split; simpl; rewrite ?peer_peer, ?upd_eq, ?(upd_ne _ _ _ _ (peer_ne t)), ?(upd_ne _ _ _ _ (peer_ne' t)).
    + unfold counter_ok in *. simpl. rewrite peer_peer in *. by rewrite !(upd_ne _ _ _ _ (peer_ne t)), (upd_ne _ _ _ _ (peer_ne' t)).
    + done.
    + left. destruct K3 as [|(? & _)]; lia.
    + intros r Hr Hle'. specialize (K4 r Hr Hle'). lia.
    + intros _ E. destruct K3 as [|(_ & K & _)]; [lia|]. intros E'. by rewrite E' in K.
Qed.

(** The reset of a counter. *)
Lemma reset_inv spin s t : inv s -> at_pc s t = S0 -> inv (wait_step spin t s).
Proof.
  intros Hi Hpc. unfold wait_step. rewrite Hpc. destruct (Hi t) as [H1 H2 H3 _ _]. unfold counter_ok in H1. rewrite Hpc in H1, H3. simpl in H3.
  assert (Hle : arr s t <= arr s (peer t)) by (destruct H3 as [|(_ & ? & _)]; done).
  intros u. destruct (decide (u = t)) as [->|Hne].
  - assert (counter_ok (goto (store_other s t 0) t V1) t) by (unfold counter_ok; simpl; rewrite !upd_eq; lia).
    split; simpl; rewrite ?upd_eq, ?(upd_ne _ _ _ _ (peer_ne t)); try done; by left.
  - assert (u = peer t) as -> by (by destruct u, t). destruct (Hi (peer t)) as [K1 K2 K3 K4 K5]. rewrite peer_peer in *.
    split; simpl; rewrite ?peer_peer, ?upd_eq, ?(upd_ne _ _ _ _ (peer_ne t)), ?(upd_ne _ _ _ _ (peer_ne' t)); try done.
    + unfold counter_ok in *. simpl. rewrite peer_peer in *. by rewrite !(upd_ne _ _ _ _ (peer_ne t)), (upd_ne _ _ _ _ (peer_ne' t)).
    + destruct K3 as [|(? & ? & K)]; [by left|]. by rewrite Hpc in K.
Qed.

(** Without the exit flag every step keeps the invariant. *)
Lemma step_inv spin s t : inv s -> exit_ s = false -> inv (wait_step spin t s) /\ exit_ (wait_step spin t s) = false.
Proof.
  intros Hi He. split; [|unfold wait_step; destruct (at_pc s t); rewrite ?He; done].
  pose proof (i_counter _ _ (Hi t)) as Hc. unfold counter_ok in Hc.
  assert (Hahead : arr s t = arr s (peer t) + 1 -> cntr s t = arr s (peer t) mod INT_MAX /\ arr s t mod INT_MAX =
    (if arr s (peer t) mod INT_MAX =? INT_MAX - 1 then 0 else arr s (peer t) mod INT_MAX + 1)) by (intros H; by destruct (ahead_counter s t Hi H) as (? & _ & _ & ?)).
  pose proof INT_MAX_big as HM. pose proof (Z.mod_pos_bound (arr s (peer t)) INT_MAX ltac:(lia)) as Hb.
  assert (Hcok : forall c s', cntr s' = cntr s -> arr s' = arr s -> at_pc s' = upd (at_pc s) t c ->
     match c with
     | Idle => cntr s (peer t) = arr s t mod INT_MAX
     | N1 | N2 _ | N3 => cntr s (peer t) = arr s t mod INT_MAX /\ arr s t mod INT_MAX <> 0
     | W1 | W2 | W3 | S0 => cntr s (peer t) = INT_MAX /\ arr s t mod INT_MAX = 0
     | V1 | V2 => cntr s (peer t) = 0 /\ arr s t mod INT_MAX = 0 end -> counter_ok s' t)
    by (intros c s' E1 E2 E3; unfold counter_ok; by rewrite E1, E2, E3, upd_eq).
  destruct (at_pc s t) eqn:Hpc; try (by apply enter_inv); try (by apply reset_inv); unfold wait_step; rewrite Hpc, ?He.
  - eapply (move_inv s _ t (N2 (cntr s t))); try done; [by eapply Hcok; [reflexivity..|]|]. intros r [= <-] Hle.
    destruct (i_ahead _ _ (Hi t)) as [|(Ha & _)]; [done|]. destruct (Hahead Ha) as [Hx Hy]. rewrite Hx in Hle. destruct Hc as [Hc1 Hc2].
    rewrite Hc1, Hy in Hle. rewrite Hy in Hc2. case_match; lia.
  - destruct (Z.ltb_spec r (cntr s (peer t))) as [Hlt|Hge].
    + eapply (move_inv s _ t N3); try done. by eapply Hcok; [reflexivity..|].
    + pose proof (i_loaded _ _ (Hi t) r Hpc Hge). eapply (move_inv s _ t Idle); try done; [by eapply Hcok; [reflexivity..|]; apply Hc|lia|].
      intros _ Hp E. pose proof (i_counter _ _ (Hi (peer t))) as Hc'. unfold counter_ok in Hc'. rewrite E in Hc. destruct (at_pc s (peer t)); try done; lia.
  - eapply (move_inv s _ t N1); try done. by eapply Hcok; [reflexivity..|].
  - destruct (Z.ltb_spec 0 (cntr s t)) as [Hlt|Hge]; [eapply (move_inv s _ t W2)|eapply (move_inv s _ t S0)]; rewrite ?Hpc; try done;
      try (by eapply Hcok; [reflexivity..|]).
    intros Ha. destruct (Hahead Ha) as [Hx Hy]. destruct (Z.eqb_spec (arr s (peer t) mod INT_MAX) (INT_MAX - 1)); lia.
  - destruct (Z.ltb_spec (cntr s t) INT_MAX) as [Hlt|Hge]; [eapply (move_inv s _ t W3)|eapply (move_inv s _ t S0)]; rewrite ?Hpc; try done;
      try (by eapply Hcok; [reflexivity..|]).
    intros Ha. destruct (Hahead Ha) as [Hx Hy]. lia.
  - eapply (move_inv s _ t W1); rewrite ?Hpc; try done. by eapply Hcok; [reflexivity..|].
  - assert (Hna : arr s t <> arr s (peer t) + 1) by (intros Ha; destruct (ahead_counter s t Hi Ha) as (_ & _ & Hf & _); by rewrite Hpc in Hf).
    destruct (Z.ltb_spec 1 (cntr s t)) as [Hlt|Hge]; [eapply (move_inv s _ t V2)|eapply (move_inv s _ t Idle)]; try done;
      try (by eapply Hcok; [reflexivity..|]); [eapply Hcok; [reflexivity..|]; destruct Hc as [-> ->]; done|].
    intros _ Hp E. pose proof (i_counter _ _ (Hi (peer t))) as Hc'. unfold counter_ok in Hc'. rewrite peer_peer in Hc'. destruct (at_pc s (peer t)); try done; lia.
  - assert (Hna : arr s t <> arr s (peer t) + 1) by (intros Ha; destruct (ahead_counter s t Hi Ha) as (_ & _ & Hf & _); by rewrite Hpc in Hf).
    eapply (move_inv s _ t V1); try done. by eapply Hcok; [reflexivity..|].
Qed.

(** ** The barrier *)

(** An execution: the threads make steps in the order of the schedule. *)
Definition run (spin : tid -> Z -> bool) (l : list tid) (s : pair) : pair := foldl (fun s t => wait_step spin t s) s l.

Lemma run_inv spin l : forall s, inv s -> exit_ s = false -> inv (run spin l s) /\ exit_ (run spin l s) = false.
Proof.
  induction l as [|t l IH]; intros s Hi He; [done|]. destruct (step_inv spin s t Hi He). by apply IH.
Qed.

Lemma inv_left s t : inv s -> left_waits s t <= arr s (peer t).
Proof.
  intros Hi. unfold left_waits. destruct (i_ahead _ _ (Hi t)) as [H|(H & Hf & _)]; destruct (at_pc s t); try done; lia.
Qed.

Lemma inv_cntr s t : inv s -> 0 <= cntr s t <= INT_MAX.
Proof.
  intros Hi. pose proof (i_counter _ _ (Hi (peer t))) as Hc. unfold counter_ok in Hc. rewrite peer_peer in Hc. pose proof INT_MAX_big.
  pose proof (Z.mod_pos_bound (arr s (peer t)) INT_MAX ltac:(lia)). destruct (at_pc s (peer t)); lia.
Qed.

(** C8: the waiting function is a barrier, for every interleaving of the two
    threads and any number of rounds, also when the counters reach [INT_MAX]
    and are reset: a thread leaves its [n]-th wait only after the other one has
    entered its own [n]-th wait, the threads are never more than one wait
    apart, and the counters stay within [int]. *)
Theorem fzsync_barrier spin l t : let s := run spin l init_pair in
  left_waits s t <= arr s (peer t) /\ arr s t <= arr s (peer t) + 1 /\ 0 <= cntr s t <= INT_MAX.
Proof.
  intros s. destruct (run_inv spin l init_pair init_inv eq_refl) as [Hi _]. fold s in Hi. split_and!; try apply (inv_cntr s t Hi).
  - by apply inv_left.
  - destruct (i_ahead _ _ (Hi t)) as [|(? & _)]; lia.
Qed.

(** ** Progress *)

(** What a thread waits for has happened. *)
Definition good (s : pair) (t : tid) : Prop :=
  match at_pc s t with
  | Idle | S0 => True
  | N1 | N2 _ | N3 => cntr s (peer t) <= cntr s t
  | W1 | W2 | W3 => cntr s t <= 0 \/ INT_MAX <= cntr s t
  | V1 | V2 => cntr s t <= 1
  end.

(** The steps that such a thread needs at most to get on. *)
Definition dist (s : pair) (t : tid) : nat :=
  match at_pc s t with
  | Idle | S0 | V1 => 1
  | N1 | V2 => 2
  | N3 => 3
  | N2 r => if (cntr s (peer t) <=? r)%Z then 1 else 4
  | W1 => if (cntr s t <=? 0)%Z then 1 else 2
  | W2 => if (INT_MAX <=? cntr s t)%Z then 1 else 3
  | W3 => if (cntr s t <=? 0)%Z then 2 else 3
  end%nat.

(** How far a thread has come. *)
Definition stage (c : pc) : Z := match c with Idle => 3 | V1 | V2 => 2 | S0 => 1 | _ => 0 end.
Definition progress_of (s : pair) (t : tid) : Z := 4 * arr s t + stage (at_pc s t).
Definition progress (s : pair) : Z := progress_of s ThA + progress_of s ThB.

Lemma progress_split s t : progress s = progress_of s t + progress_of s (peer t).
Proof. unfold progress. destruct t; simpl; lia. Qed.

(** The other thread is where it was. *)
Lemma step_other spin s t : progress_of (wait_step spin t s) (peer t) = progress_of s (peer t).
Proof.
  unfold progress_of, wait_step. destruct (at_pc s t); repeat (case_match; simpl); simpl; by rewrite ?(upd_ne _ _ _ _ (peer_ne t)).
Qed.

(** A step of the other thread that does not get on changes nothing that the
    thread looks at. *)
Lemma step_cases spin s t : exit_ s = false -> let s' := wait_step spin t s in
  progress_of s t < progress_of s' t \/
  (progress_of s' t = progress_of s t /\ cntr s' = cntr s /\ arr s' = arr s /\ at_pc s' (peer t) = at_pc s (peer t)).
Proof.
  intros He s'. unfold s', progress_of, wait_step. destruct (at_pc s t) eqn:Hpc; rewrite ?He; simpl; rewrite ?upd_eq, ?(upd_ne _ _ _ _ (peer_ne t)), ?Hpc; simpl.
  - left. destruct (_ =? INT_MAX); simpl; lia.
  - right. done.
  - destruct (r <? cntr s (peer t)); simpl; [right; split_and!; (done || lia)|left; lia].
  - right. done.
  - destruct (0 <? cntr s t); simpl; [right; done|left; lia].
  - destruct (cntr s t <? INT_MAX); simpl; [right; done|left; lia].
  - right. done.
  - left. lia.
  - destruct (1 <? cntr s t); simpl; [right; done|left; lia].
  - right. done.
Qed.

Lemma good_step spin s t : exit_ s = false -> good s t -> let s' := wait_step spin t s in
  progress_of s t < progress_of s' t \/ (good s' t /\ (dist s' t < dist s t)%nat).
Proof.
  intros He Hg s'. pose proof INT_MAX_big as HM. unfold s', progress_of, good, dist, wait_step in *.
  destruct (at_pc s t) eqn:Hpc; rewrite ?He; simpl; rewrite ?upd_eq, ?Hpc; simpl.
  - left. destruct (_ =? INT_MAX); simpl; lia.
  - right. split; [done|]. rewrite (proj2 (Z.leb_le _ _)) by lia. lia.
  - destruct (Z.ltb_spec r (cntr s (peer t))); simpl; [right|left; lia]. split; [done|]. rewrite (proj2 (Z.leb_gt _ _)) by lia. lia.
  - right. split; [done|lia].
  - destruct (Z.ltb_spec 0 (cntr s t)); simpl; [right|left; lia]. split; [lia|]. rewrite (proj2 (Z.leb_gt (cntr s t) 0)), (proj2 (Z.leb_le INT_MAX (cntr s t))) by lia. lia.
  - destruct (Z.ltb_spec (cntr s t) INT_MAX); simpl; [right|left; lia]. split; [lia|].
    rewrite (proj2 (Z.leb_le (cntr s t) 0)), (proj2 (Z.leb_gt INT_MAX (cntr s t))) by lia. lia.
  - right. split; [lia|]. destruct (Z.leb_spec (cntr s t) 0); lia.
  - left. lia.
  - rewrite (proj2 (Z.ltb_ge _ _)) by lia. left. simpl. lia.
  - right. split; [done|lia].
Qed.

(** There is always a thread that can get on. *)
Lemma good_exists s : inv s -> exists t, good s t.
Proof.
  intros Hi. pose proof INT_MAX_big as HM.
  assert (Hb : forall t, 0 <= arr s t mod INT_MAX < INT_MAX) by (intros t; apply Z.mod_pos_bound; lia).
  assert (Hbehind : forall t, arr s (peer t) = arr s t + 1 -> good s t).
  { intros t Ha. pose proof (i_counter _ _ (Hi t)) as Hc. pose proof (i_counter _ _ (Hi (peer t))) as Hc'. unfold counter_ok in Hc, Hc'. rewrite peer_peer in Hc'.
    pose proof (ahead_counter s (peer t) Hi) as Hx. rewrite peer_peer in Hx. destruct (Hx Ha) as (_ & Hp & Hf & Hm). specialize (Hb t). unfold good.
    destruct (Z.eqb_spec (arr s t mod INT_MAX) (INT_MAX - 1)); destruct (at_pc s t); try done; destruct (at_pc s (peer t)); try done; lia. }
  destruct (Z.lt_trichotomy (arr s ThA) (arr s ThB)) as [Hlt|[E|Hgt]].
  - exists ThA. apply Hbehind. destruct (i_ahead _ _ (Hi ThB)) as [|(? & _)]; simpl in *; lia.
  - pose proof (i_counter _ _ (Hi ThA)) as HA. pose proof (i_counter _ _ (Hi ThB)) as HB. unfold counter_ok in HA, HB. simpl in HA, HB.
    pose proof (i_together _ _ (Hi ThA)) as HtA. pose proof (i_together _ _ (Hi ThB)) as HtB. simpl in HtA, HtB. rewrite E in *.
    destruct (at_pc s ThA) eqn:EA, (at_pc s ThB) eqn:EB; try (exfalso; lia); try (by exists ThA; unfold good; rewrite EA; simpl; lia);
      try (by exists ThB; unfold good; rewrite EB; simpl; lia); exfalso; first [by apply HtA|by apply HtB].
  - exists ThB. apply Hbehind. destruct (i_ahead _ _ (Hi ThA)) as [|(? & _)]; simpl in *; lia.
Qed.

Section Fair.
Context (spin : tid -> Z -> bool) (sched : nat -> tid).

(** The state after [n] steps of the schedule. *)
Fixpoint exec (n : nat) : pair := match n with O => init_pair | S n' => wait_step spin (sched n') (exec n') end.

(** Both threads are scheduled again and again. *)
Definition fair : Prop := forall t i, exists n, sched (i + n) = t.

Lemma exec_inv n : inv (exec n) /\ exit_ (exec n) = false.
Proof. induction n as [|n [Hi He]]; [split; [apply init_inv|done]|]. by apply step_inv. Qed.

Lemma exec_step n : progress (exec n) <= progress (exec (S n)).
Proof.
  cbn [exec]. rewrite !(progress_split _ (sched n)), step_other. destruct (step_cases spin (exec n) (sched n) (proj2 (exec_inv n))) as [|(? & _)]; lia.
Qed.

Lemma good_gets_on t : fair -> forall d i, good (exec i) t -> (dist (exec i) t <= d)%nat -> exists j, progress (exec i) < progress (exec j).
Proof.
  intros Hfair. induction d as [|d IH]; intros i Hg Hd.
  { exfalso. unfold dist in Hd. destruct (at_pc (exec i) t); try lia; case_match; lia. }
  destruct (Hfair t i) as (n & Hn). revert i Hg Hd Hn. induction n as [|n IHn]; intros i Hg Hd Hn.
  - rewrite Nat.add_0_r in Hn. destruct (good_step spin (exec i) t (proj2 (exec_inv i)) Hg) as [Hp|[Hg' Hd']].
    + exists (S i). cbn [exec]. rewrite Hn, !(progress_split _ t), step_other. lia.
    + destruct (IH (S i)) as (j & Hj); [cbn [exec]; by rewrite Hn|cbn [exec]; rewrite Hn; lia|]. exists j. pose proof (exec_step i). lia.
  - destruct (decide (sched i = t)) as [E|E].
    + destruct (good_step spin (exec i) t (proj2 (exec_inv i)) Hg) as [Hp|[Hg' Hd']].
      * exists (S i). cbn [exec]. rewrite E, !(progress_split _ t), step_other. lia.
      * destruct (IH (S i)) as (j & Hj); [cbn [exec]; by rewrite E|cbn [exec]; rewrite E; lia|]. exists j. pose proof (exec_step i). lia.
    + assert (sched i = peer t) as E' by (by destruct (sched i), t).
      destruct (step_cases spin (exec i) (peer t) (proj2 (exec_inv i))) as [Hp|(Hp & Hc & Ha & Hpc)].
      * exists (S i). cbn [exec]. rewrite E', !(progress_split _ (peer t)), step_other. lia.
      * rewrite peer_peer in Hpc. destruct (IHn (S i)) as (j & Hj).
        -- unfold good in *. cbn [exec]. by rewrite E', Hc, Hpc.
        -- unfold dist in *. cbn [exec]. by rewrite E', Hc, Hpc.
        -- rewrite <-Hn. f_equal. lia.
        -- exists j. pose proof (exec_step i). lia.
Qed.

Lemma progress_unbounded : fair -> forall n, exists i, n <= progress (exec i).
Proof.
  intros Hfair. assert (H : forall k : nat, exists i, Z.of_nat k <= progress (exec i)).
  { induction k as [|k [i Hk]]; [by exists O|]. destruct (good_exists (exec i) (proj1 (exec_inv i))) as [t Hg].
    destruct (good_gets_on t Hfair _ i Hg (le_n _)) as (j & Hj). exists j. lia. }
  intros n. destruct (H (Z.to_nat n)) as (i & Hi). exists i. lia.
Qed.
End Fair.

(** C13: the barrier never blocks for ever: in every fair execution, in which each
    thread is scheduled again and again, both threads leave any number of
    waits. There is no deadlock and no livelock, also not when the counters
    are reset. *)
Theorem fzsync_live spin sched n : fair sched -> exists i, forall t, n <= left_waits (exec spin sched i) t.
Proof.
  intros Hfair. destruct (progress_unbounded spin sched Hfair (8 * Z.max 0 n + 20)) as (i & Hi). exists i. intros t.
  destruct (exec_inv spin sched i) as [Hinv _]. rewrite (progress_split _ t) in Hi. unfold progress_of, left_waits in *.
  pose proof (i_ahead _ _ (Hinv (peer t))) as Ha. rewrite peer_peer in Ha.
  assert (Hs : forall c, stage c <= 3) by (intros []; simpl; lia). pose proof (Hs (at_pc (exec spin sched i) t)). pose proof (Hs (at_pc (exec spin sched i) (peer t))).
  destruct (at_pc (exec spin sched i) t); destruct Ha as [|(? & _)]; lia.
Qed.

(** ** The exit flag *)

(** The steps to the end of a wait once the flag is set. *)
Definition exit_dist (c : pc) : nat :=
  match c with Idle => 0 | N3 | V2 => 1 | N2 _ | V1 => 2 | N1 | S0 => 3 | W3 => 4 | W2 => 5 | W1 => 6 end%nat.

Fixpoint own_steps (t : tid) (l : list tid) : nat :=
  match l with [] => O | u :: l' => if decide (u = t) then S (own_steps t l') else own_steps t l' end.

(** Once the exit flag is set, a thread leaves the wait that it is in after
    at most six steps of its own, whatever the other thread does and whatever
    the counters are. *)
Theorem fzsync_exit spin t : forall l s, exit_ s = true -> (6 <= own_steps t l)%nat ->
  exists l1 l2, l = l1 ++ l2 /\ at_pc (run spin l1 s) t = Idle.
Proof.
  assert (H : forall l s, exit_ s = true -> (exit_dist (at_pc s t) <= own_steps t l)%nat -> exists l1 l2, l = l1 ++ l2 /\ at_pc (run spin l1 s) t = Idle).
  - induction l as [|u l IH]; intros s He Hd.
    { exists [], []. split; [done|]. simpl in *. destruct (at_pc s t); simpl in Hd; try done; lia. }
    assert (He' : exit_ (wait_step spin u s) = true) by (unfold wait_step; destruct (at_pc s u); rewrite ?He; exact He).
    destruct (decide (at_pc s t = Idle)) as [E|Hne]; [by exists [], (u :: l)|].
    destruct (IH (wait_step spin u s) He') as (l1 & l2 & -> & H1); [|by exists (u :: l1), l2].
    cbn [own_steps] in Hd. destruct (decide (u = t)) as [->|Hu].
    + unfold wait_step. destruct (at_pc s t); try done; rewrite ?He; simpl; rewrite upd_eq; simpl in *; repeat case_match; simpl; lia.
    + unfold wait_step. destruct (at_pc s u); rewrite ?He; simpl; by rewrite upd_ne by done.
  - intros l s He Hl. apply H; [done|]. destruct (at_pc s t); simpl; lia.
Qed.

(** ** Witnesses *)

Lemma fzsync_live_witness : exists i, forall t, 5 <= left_waits (exec (fun _ _ => true) (fun n => if Nat.even n then ThA else ThB) i) t.
Proof.
  apply (fzsync_live (fun _ _ => true) (fun n => if Nat.even n then ThA else ThB) 5). intros t i. destruct (Nat.even i) eqn:E, t.
  - exists O. by rewrite Nat.add_0_r, E.
  - exists 1%nat. by rewrite Nat.add_1_r, Nat.even_succ, <-Nat.negb_even, E.
  - exists 1%nat. by rewrite Nat.add_1_r, Nat.even_succ, <-Nat.negb_even, E.
  - exists O. by rewrite Nat.add_0_r, E.
Defined.

Lemma fzsync_exit_witness : exists l1 l2, repeat ThA 6 = l1 ++ l2 /\
  at_pc (run (fun _ _ => false) l1 (mkPair (fun _ => INT_MAX) (fun _ => W1) (fun _ => 1) true 0)) ThA = Idle.
Proof.
  apply (fzsync_exit (fun _ _ => false) ThA (repeat ThA 6) (mkPair (fun _ => INT_MAX) (fun _ => W1) (fun _ => 1) true 0)); [reflexivity|simpl; lia].
Defined.

(** Two rounds in which thread B is late. *)
Example barrier_run :
  let s := run (fun _ _ => true) [ThA; ThA; ThA; ThA; ThB; ThA; ThA; ThB; ThB; ThA; ThA; ThA] init_pair in
  (at_pc s ThA, at_pc s ThB, arr s ThA, arr s ThB, spins s) = (N3, Idle, 2, 1, 1).
Proof. vm_compute. reflexivity. Qed.
