(* ===== verification/FuzzyStat.v ===== *)
(** * Fuzzy synchronisation: statistics and delay of [include/tst_fuzzy_sync.h]

    The functions that thread A calls around a race: parameters, averages, the
    random delay and the decision to stop. [float] and [double] are IEEE
    binary32 and binary64 ([SpecFloat]); the clock, [drand48] and the remaining
    runtime are inputs. *)

From stdpp Require Import base list strings.
From Stdlib Require Import ZArith Lia SpecFloat.
From S2P Require Import Prelude Timer Timeout.

Local Open Scope Z_scope.

(** ** Arithmetic *)
Definition double := spec_float.
Definition fadd (a b : float) : float := SFadd prec emax a b.
Definition fsub (a b : float) : float := SFsub prec emax a b.
Definition fdiv (a b : float) : float := SFdiv prec emax a b.
Definition dadd (a b : double) : double := SFadd 53 1024 a b.
Definition dsub (a b : double) : double := SFsub 53 1024 a b.
Definition dmul (a b : double) : double := SFmul 53 1024 a b.
Definition ddiv (a b : double) : double := SFdiv 53 1024 a b.
Definition double_of_Z (z : Z) : double := binary_normalize 53 1024 z 0 false.
Definition is_zero (f : spec_float) : bool := match f with S754_zero _ => true | _ => false end.
Definition fzero : float := S754_zero false.
Definition fone : float := float_of_Z 1.
(** [0.5f], and the [double] 1.1. *)
Definition SAMPLING_SLICE : float := lit 5000.
Definition d11 : double := ddiv (double_of_Z 11) (double_of_Z 10).

(** ** State *)
Record tst_fzsync_stat : Set := mkStat { avg : float; avg_dev : float; dev_ratio : float }.

Record fzsync : Set := mkFz {
  avg_alpha : float;
  diff_ss : tst_fzsync_stat; diff_sa : tst_fzsync_stat; diff_sb : tst_fzsync_stat; diff_ab : tst_fzsync_stat;
  fz_spins : Z; spins_avg : tst_fzsync_stat;
  delay : Z; delay_bias : Z; sampling : Z; min_samples : Z; max_dev_ratio : float;
  fz_exit : bool; exec_time_start : float; exec_loops : Z; exec_loop : Z; thread_b : bool; yield_in_wait : bool
}.

(** The four times of a race. *)
Record times : Set := mkTimes { a_start : timespec; b_start : timespec; a_end : timespec; b_end : timespec }.

Abbreviation M := (res brk).

(** ** Parameters *)

(** The macro [CHK]; [low] and [hi] come with their spelling. *)
Definition chk_float (param : string) (v : float) (low hi : Z) (slow shi : string) (def : float) : M float :=
  let v := if is_zero v then def else v in
  if SFltb v (float_of_Z low) then Err (TBROK, str param ++ str " is less than the lower bound " ++ str slow)
  else if SFltb (float_of_Z hi) v then Err (TBROK, str param ++ str " is more than the upper bound " ++ str shi)
  else Ok v.
Definition chk_int (param : string) (v : Z) (low hi : Z) (slow shi : string) (def : Z) : M Z :=
  let v := if v =? 0 then def else v in
  if v <? low then Err (TBROK, str param ++ str " is less than the lower bound " ++ str slow)
  else if hi <? v then Err (TBROK, str param ++ str " is more than the upper bound " ++ str shi)
  else Ok v.

Definition set_params (p : fzsync) (alpha : float) (ms : Z) (mdr : float) (el : Z) (y : bool) : fzsync :=
  mkFz alpha (diff_ss p) (diff_sa p) (diff_sb p) (diff_ab p) (fz_spins p) (spins_avg p) (delay p) (delay_bias p) (sampling p)
    ms mdr (fz_exit p) (exec_time_start p) el (exec_loop p) (thread_b p) y.

Definition tst_fzsync_pair_init (ncpus : Z) (p : fzsync) : M fzsync :=
  alpha ← chk_float "avg_alpha" (avg_alpha p) 0 1 "0" "1" (lit 2500);
  ms ← chk_int "min_samples" (min_samples p) 20 INT_MAX "20" "INT_MAX" 1024;
  mdr ← chk_float "max_dev_ratio" (max_dev_ratio p) 0 1 "0" "1" (lit 1000);
  el ← chk_int "exec_loops" (exec_loops p) 20 INT_MAX "20" "INT_MAX" 3000000;
  Ok (set_params p alpha ms mdr el (if ncpus <=? 1 then true else yield_in_wait p)).

Definition tst_init_stat (s : tst_fzsync_stat) : tst_fzsync_stat := mkStat fzero fzero (dev_ratio s).

Definition set_thread (p : fzsync) (e t : bool) : fzsync :=
  mkFz (avg_alpha p) (diff_ss p) (diff_sa p) (diff_sb p) (diff_ab p) (fz_spins p) (spins_avg p) (delay p) (delay_bias p) (sampling p)
    (min_samples p) (max_dev_ratio p) e (exec_time_start p) (exec_loops p) (exec_loop p) t (yield_in_wait p).

(** Thread B ends once [exit] is set, so that the join returns. *)
Definition tst_fzsync_pair_cleanup (p : fzsync) : fzsync := if thread_b p then set_thread p true false else p.

(** [run_b]: a function for thread B is given; [remaining]: what
    [tst_remaining_runtime] returns. *)
Definition tst_fzsync_pair_reset (run_b : bool) (remaining : Z) (p : fzsync) : fzsync :=
  let p := tst_fzsync_pair_cleanup p in
  mkFz (avg_alpha p) (tst_init_stat (diff_ss p)) (tst_init_stat (diff_sa p)) (tst_init_stat (diff_sb p)) (tst_init_stat (diff_ab p))
    (fz_spins p) (tst_init_stat (spins_avg p)) 0 0 (min_samples p) (min_samples p) (max_dev_ratio p) false (float_of_Z remaining)
    (exec_loops p) 0 (if run_b then true else thread_b p) (yield_in_wait p).

(** ** Statistics *)

(** The product is computed in [float], the rest in [double]. *)
Definition tst_exp_moving_avg (alpha sample prev_avg : float) : float :=
  float_of_double (dadd (double_of_float (fmul alpha sample))
    (dmul (dsub (double_of_Z 1) (double_of_float alpha)) (double_of_float prev_avg))).

Definition tst_upd_stat (s : tst_fzsync_stat) (alpha sample : float) : tst_fzsync_stat :=
  let a := tst_exp_moving_avg alpha sample (avg s) in
  let d := tst_exp_moving_avg alpha (SFabs (fsub a sample)) (avg_dev s) in
  mkStat a d (SFabs (if is_zero a then fzero else fdiv d a)).

Section Update.
Context (long_bits : Z).

Definition tst_upd_diff_stat (s : tst_fzsync_stat) (alpha : float) (t1 t2 : timespec) : M tst_fzsync_stat :=
  match tst_timespec_diff_ns long_bits t1 t2 with
  | Ok d => Ok (tst_upd_stat s alpha (float_of_Z d))
  | _ => Fault
  end.

Definition over_max_dev (p : fzsync) : bool :=
  let over s := SFltb (max_dev_ratio p) (dev_ratio s) in
  over (diff_ss p) || over (diff_sa p) || over (diff_sb p) || over (diff_ab p) || over (spins_avg p).

Definition fmax (a b : float) : float := if SFltb b a then a else b.

Definition int_ (z : Z) : M Z := if in_int z then Ok z else Fault.
(** The cast to [int], undefined when the value does not fit. *)
Definition int_of (f : spec_float) : M Z := trunc INT_MIN INT_MAX f.

Definition per_spin_time (p : fzsync) : float := fdiv (SFabs (avg (diff_ab p))) (fmax (avg (spins_avg p)) fone).

(** The new delay; [rand] is the result of [drand48]. *)
Definition random_delay (rand : double) (p : fzsync) : M Z :=
  let time_delay := float_of_double (dsub (dmul rand (double_of_float (fadd (avg (diff_sa p)) (avg (diff_sb p))))) (double_of_float (avg (diff_sb p)))) in
  r ← int_of (ddiv (dmul d11 (double_of_float time_delay)) (double_of_float (per_spin_time p)));
  int_ (delay_bias p + r).

(** The range the message at the first random delay shows. *)
Definition delay_range (p : fzsync) : M (Z * Z) :=
  l ← int_of (fdiv (avg (diff_sb p)) (per_spin_time p)); l ← int_ (- l); l ← int_ (l + delay_bias p);
  h ← int_of (fdiv (avg (diff_sa p)) (per_spin_time p)); h ← int_ (h + delay_bias p);
  Ok (l, h).

(** The text of the messages is left out. *)
Definition tst_fzsync_pair_update (t : times) (rand : double) (p : fzsync) : M fzsync :=
  let upd ss sa sb ab sp d sm :=
    mkFz (avg_alpha p) ss sa sb ab 0 sp d (delay_bias p) sm (min_samples p) (max_dev_ratio p)
      (fz_exit p) (exec_time_start p) (exec_loops p) (exec_loop p) (thread_b p) (yield_in_wait p) in
  if (0 <? sampling p) || over_max_dev p then
    ss ← tst_upd_diff_stat (diff_ss p) (avg_alpha p) (a_start t) (b_start t);
    sa ← tst_upd_diff_stat (diff_sa p) (avg_alpha p) (a_end t) (a_start t);
    sb ← tst_upd_diff_stat (diff_sb p) (avg_alpha p) (b_end t) (b_start t);
    ab ← tst_upd_diff_stat (diff_ab p) (avg_alpha p) (a_end t) (b_end t);
    Ok (upd ss sa sb ab (tst_upd_stat (spins_avg p) (avg_alpha p) (float_of_Z (fz_spins p)))
          (delay_bias p) (if 0 <? sampling p then sampling p - 1 else sampling p))
  else
    let keep := upd (diff_ss p) (diff_sa p) (diff_sb p) (diff_ab p) (spins_avg p) in
    if SFleb fone (SFabs (avg (diff_ab p))) then
      d ← random_delay rand p;
      if sampling p =? 0 then _ ← delay_range p; Ok (keep d (-1)) else Ok (keep d (sampling p))
    else Ok (keep (delay_bias p) (if sampling p =? 0 then -1 else sampling p)).
End Update.

(** ** The loop of thread A *)

Definition set_run (p : fzsync) (sm : Z) (e : bool) (l : Z) : fzsync :=
  mkFz (avg_alpha p) (diff_ss p) (diff_sa p) (diff_sb p) (diff_ab p) (fz_spins p) (spins_avg p) (delay p) (delay_bias p) sm
    (min_samples p) (max_dev_ratio p) e (exec_time_start p) (exec_loops p) l (thread_b p) (yield_in_wait p).

(** The value is the function's: nothing else sets [exit] while the threads
    meet in [tst_fzsync_wait_a], which [FuzzySync] models. *)
Definition tst_fzsync_run_a (remaining : Z) (p : fzsync) : M (fzsync * bool) :=
  let rem_p := fsub fone (fdiv (float_of_Z remaining) (exec_time_start p)) in
  let sm := if SFltb SAMPLING_SLICE rem_p && (0 <? sampling p) then 0 else sampling p in
  let e := if SFleb fone rem_p then true else fz_exit p in
  l ← int_ (exec_loop p + 1);
  let p := set_run p sm (if exec_loops p <? l then true else e) l in
  if fz_exit p then Ok (tst_fzsync_pair_cleanup p, false) else Ok (p, true).

(** The spins counted in [tst_fzsync_end_race_a] and [_b]. *)
Definition end_race (n : Z) (p : fzsync) : M fzsync :=
  s ← int_ (fz_spins p + n);
  Ok (mkFz (avg_alpha p) (diff_ss p) (diff_sa p) (diff_sb p) (diff_ab p) s (spins_avg p) (delay p) (delay_bias p) (sampling p)
    (min_samples p) (max_dev_ratio p) (fz_exit p) (exec_time_start p) (exec_loops p) (exec_loop p) (thread_b p) (yield_in_wait p)).

Definition tst_fzsync_pair_add_bias (change : Z) (p : fzsync) : M fzsync :=
  if 0 <? sampling p then
    b ← int_ (delay_bias p + change);
    Ok (mkFz (avg_alpha p) (diff_ss p) (diff_sa p) (diff_sb p) (diff_ab p) (fz_spins p) (spins_avg p) (delay p) b (sampling p)
          (min_samples p) (max_dev_ratio p) (fz_exit p) (exec_time_start p) (exec_loops p) (exec_loop p) (thread_b p) (yield_in_wait p))
  else Ok p.

(** The calls of thread A after [tst_fzsync_pair_reset]. *)
Inductive event : Set :=
  | RunA (remaining : Z) | StartRaceA (t : times) (rand : double) | EndRace (spins : Z) | AddBias (change : Z).

Section Run.
Context (long_bits : Z).

(** [None]: [tst_fzsync_run_a] told the test to end. *)
Definition step (e : event) (p : fzsync) : M (option fzsync) :=
  match e with
  | RunA r => '(p, more) ← tst_fzsync_run_a r p; Ok (if more : bool then Some p else None)
  | StartRaceA t rand => p ← tst_fzsync_pair_update long_bits t rand p; Ok (Some p)
  | EndRace n => p ← end_race n p; Ok (Some p)
  | AddBias c => p ← tst_fzsync_pair_add_bias c p; Ok (Some p)
  end.

Fixpoint run (l : list event) (p : fzsync) : M (option fzsync) :=
  match l with
  | [] => Ok (Some p)
  | e :: l => q ← step e p; match q with Some p => run l p | None => Ok None end
  end.
End Run.

Definition is_run (e : event) : bool := match e with RunA _ => true | _ => false end.
Definition is_race (e : event) : bool := match e with StartRaceA _ _ => true | _ => false end.
Definition count (f : event -> bool) (l : list event) : Z := foldr (fun e n => if f e then n + 1 else n) 0 l.
Definition runs : list event -> Z := count is_run.
Definition races : list event -> Z := count is_race.
(** The first half of the time, as thread A measures it. *)
Definition early (start : float) (e : event) : bool :=
  match e with RunA r => negb (SFltb SAMPLING_SLICE (fsub fone (fdiv (float_of_Z r) start))) | _ => true end.

(** ** Lemmas *)

Lemma count_calls_app f l l' : count f (l ++ l') = count f l + count f l'.
Proof. induction l as [|e l IH]; simpl; [done|]. rewrite IH. case_match; lia. Qed.
Lemma count_nonneg f l : 0 <= count f l.
Proof. induction l as [|e l IH]; simpl; [done|]. case_match; lia. Qed.

Ltac binds H := repeat
  match type of H with
  | context [mbind _ ?m] => let E := fresh "E" in destruct m eqn:E; cbn [mbind res_bind] in H; try discriminate H
  end.

Lemma run_snoc lb l e p q : run lb (l ++ [e]) p = Ok (Some q) ->
  exists p', run lb l p = Ok (Some p') /\ step lb e p' = Ok (Some q).
Proof.
  revert p. induction l as [|e' l IH]; intros p H; simpl in *.
  - exists p. split; [done|]. binds H. by case_match.
  - binds H. simpl. case_match; [|done]. by apply IH.
Qed.

Lemma chk_int_ok z v : int_ z = Ok v -> v = z /\ INT_MIN <= z <= INT_MAX.
Proof. unfold int_, in_int. case_match; [|done]. intros [= <-]. split; [done|lia]. Qed.

(** What no call of thread A changes. *)
Definition same_params (p q : fzsync) : Prop :=
  min_samples q = min_samples p /\ exec_loops q = exec_loops p /\ exec_time_start q = exec_time_start p
  /\ avg_alpha q = avg_alpha p /\ max_dev_ratio q = max_dev_ratio p.

(** How one call moves the sampling state and the loop counter. *)
Definition moves (e : event) (p q : fzsync) : Prop :=
  same_params p q /\ fz_exit q = fz_exit p /\
  match e with
  | RunA _ => exec_loop q = exec_loop p + 1 /\ exec_loop q <= exec_loops p /\
      (sampling q = sampling p \/ early (exec_time_start p) e = false /\ 0 < sampling p /\ sampling q = 0)
  | StartRaceA _ _ => exec_loop q = exec_loop p /\
      sampling q = (if 0 <? sampling p then sampling p - 1
                    else if (sampling p =? 0) && negb (over_max_dev p) then -1 else sampling p)
  | _ => exec_loop q = exec_loop p /\ sampling q = sampling p
  end.

Lemma update_ok lb t r p q : tst_fzsync_pair_update lb t r p = Ok q ->
  moves (StartRaceA t r) p q /\ delay_bias q = delay_bias p /\ fz_spins q = 0 /\
  ((0 < sampling p \/ over_max_dev p = true) -> delay q = delay_bias p).
Proof.
  unfold tst_fzsync_pair_update, moves, same_params. intros H.
  destruct (Z.ltb_spec 0 (sampling p)); simpl in H.
  { binds H. injection H as <-. cbn. repeat split; lia. }
  destruct (over_max_dev p) eqn:Eo; simpl in H.
  { binds H. injection H as <-. cbn. rewrite Bool.andb_false_r. repeat split; lia. }
  rewrite Bool.andb_true_r.
  destruct (SFleb fone _).
  - destruct (Z.eqb_spec (sampling p) 0); binds H; injection H as <-; cbn;
      (repeat split; try done); intros [?|?]; (lia || done).
  - injection H as <-. cbn. repeat split; (try done); intros [?|?]; (lia || done).
Qed.

Lemma run_a_ok r p : fz_exit p = false -> INT_MIN <= exec_loop p + 1 <= INT_MAX ->
  let over := SFleb fone (fsub fone (fdiv (float_of_Z r) (exec_time_start p))) in
  exists q, tst_fzsync_run_a r p = Ok (q, (exec_loop p <? exec_loops p) && negb over) /\
    (((exec_loop p <? exec_loops p) && negb over = true -> moves (RunA r) p q) /\
     ((exec_loop p <? exec_loops p) && negb over = false -> fz_exit q = true /\ thread_b q = false)).
Proof.
  intros He Hl over. unfold tst_fzsync_run_a, int_, in_int. rewrite !(proj2 (Z.leb_le _ _)) by lia.
  cbn [andb mbind res_bind set_run fz_exit]. fold over. rewrite He.
  replace (if exec_loops p <? exec_loop p + 1 then true else if over then true else false)
    with (negb ((exec_loop p <? exec_loops p) && negb over)).
  2:{ destruct (Z.ltb_spec (exec_loops p) (exec_loop p + 1)), (Z.ltb_spec (exec_loop p) (exec_loops p)), over; (done || lia). }
  destruct ((exec_loop p <? exec_loops p) && negb over) eqn:E; cbn [negb]; eexists; (split; [done|split; [|try done]]).
  - intros _. unfold moves, same_params, early. cbn. rewrite He. repeat split; [lia|].
    destruct (SFltb SAMPLING_SLICE _); cbn; [|by left]. destruct (Z.ltb_spec 0 (sampling p)); [by right|by left].
  - done.
  - intros _. unfold tst_fzsync_pair_cleanup. cbn. destruct (thread_b p) eqn:Et; cbn; auto.
Qed.

Lemma step_moves lb e p q : fz_exit p = false -> step lb e p = Ok (Some q) -> moves e p q.
Proof.
  intros He. destruct e as [r|t rand|n|c]; simpl; intros H.
  - destruct (decide (INT_MIN <= exec_loop p + 1 <= INT_MAX)) as [Hl|Hl].
    + destruct (run_a_ok r p He Hl) as (p' & E & Ht & _). rewrite E in H. cbn [mbind res_bind] in H.
      case_match; [|done]. injection H as <-. by apply Ht.
    + unfold tst_fzsync_run_a, int_ in H. destruct (in_int (exec_loop p + 1)) eqn:E; [|done]. unfold in_int in E. lia.
  - binds H. injection H as <-. by apply update_ok in E as [? _].
  - unfold end_race in H. binds H. injection H as <-. binds E. injection E as <-. done.
  - unfold tst_fzsync_pair_add_bias in H. destruct (0 <? sampling p).
    + binds H. injection H as <-. binds E. injection E as <-. done.
    + cbn in H. by injection H as <-.
Qed.

(** What holds after the calls [l] from the state [p0] a reset left. *)
Definition reached (p0 : fzsync) (l : list event) (q : fzsync) : Prop :=
  same_params p0 q /\ fz_exit q = false /\ exec_loop q = runs l /\ runs l <= Z.max 0 (exec_loops q) /\
  -1 <= sampling q <= min_samples q /\
  (races l <= min_samples q -> sampling q <= min_samples q - races l /\
     (forallb (early (exec_time_start q)) l = true -> sampling q = min_samples q - races l)).

Lemma run_reached lb b rem p l q : 0 <= min_samples p -> run lb l (tst_fzsync_pair_reset b rem p) = Ok (Some q) ->
  reached (tst_fzsync_pair_reset b rem p) l q.
Proof.
  intros Hm. revert q. set (p0 := tst_fzsync_pair_reset b rem p).
  assert (H0 : same_params p0 p0 /\ fz_exit p0 = false /\ exec_loop p0 = 0 /\ sampling p0 = min_samples p0 /\ 0 <= min_samples p0).
  { repeat split; try done. unfold p0, tst_fzsync_pair_reset, tst_fzsync_pair_cleanup. cbn. case_match; done. }
  clearbody p0. induction l as [|e l IH] using rev_ind; intros q H.
  - injection H as <-. destruct H0 as (? & ? & ? & ? & ?). unfold reached, runs, races. cbn. repeat split; (done || lia).
  - apply run_snoc in H as (p' & Hr & Hs). destruct (IH _ Hr) as (Hp & He & Hl & Hlm & Hsm & Hr').
    apply step_moves in Hs; [|done]. destruct Hs as (Hp' & He' & Hs). unfold reached, runs, races in *.
    rewrite !count_calls_app, forallb_app. cbn [count foldr forallb]. unfold same_params in Hp, Hp'.
    destruct Hp as (? & ? & ? & ? & ?), Hp' as (Hmq & Heq & Htq & ? & ?). rewrite Hmq, Heq, Htq in *.
    pose proof (count_nonneg is_race l). pose proof (count_nonneg is_run l).
    split; [repeat split; congruence|]. split; [congruence|]. rewrite Bool.andb_true_r.
    destruct e; cbn [is_run is_race early] in Hs |- *; rewrite ?Z.add_0_r, ?Bool.andb_true_r.
    + destruct Hs as (? & ? & Hs). split; [lia|]. split; [lia|].
      destruct Hs as [->|(Hf & ? & ->)]; (split; [lia|]); intros Hle; destruct (Hr' Hle) as [? Hx]; (split; [lia|]).
      * rewrite Bool.andb_true_iff. intros [? _]. by apply Hx.
      * by rewrite Hf, Bool.andb_false_r.
    + destruct Hs as [? Hs]. split; [lia|]. split; [lia|]. rewrite Hs. clear Hs.
      destruct (Z.ltb_spec 0 (sampling p')).
      * split; [lia|]. intros Hle. destruct (Hr' ltac:(lia)) as [? Hx]. split; [lia|]. intros E. specialize (Hx E). lia.
      * split; [case_match; lia|]. intros Hle. destruct (Hr' ltac:(lia)) as [? Hx].
        split; [case_match; lia|]. intros E. specialize (Hx E). lia.
    + destruct Hs as [? ->]. repeat split; (lia || apply Hr'; lia || by apply Hr').
    + destruct Hs as [? ->]. repeat split; (lia || apply Hr'; lia || by apply Hr').
Qed.

Lemma init_params n p p0 : tst_fzsync_pair_init n p = Ok p0 -> 20 <= min_samples p0 <= INT_MAX /\ 20 <= exec_loops p0 <= INT_MAX.
Proof.
  unfold tst_fzsync_pair_init. intros H. binds H. injection H as <-. cbn. unfold chk_int in *.
  repeat case_match; simplify_eq; lia.
Qed.

Lemma reset_params b rem p : let q := tst_fzsync_pair_reset b rem p in
  min_samples q = min_samples p /\ exec_loops q = exec_loops p /\ exec_time_start q = float_of_Z rem.
Proof. cbn. unfold tst_fzsync_pair_cleanup. by destruct (thread_b p). Qed.

(** ** Properties *)

(** The sampling period of a fuzzy race, from a pair that
    [tst_fzsync_pair_init] accepted and [tst_fzsync_pair_reset] set up, over
    any calls of thread A that did not end the test.  The state counts the
    mandatory samples down from [min_samples] and stays in -1 .. [min_samples];
    while thread A is within the first half of the time it is exactly the
    number of missing samples.  A race that starts before all the samples are
    there, or while a deviation is above the limit, gets no random delay but
    the bias alone. *)
Theorem fzsync_sampling lb ncpus raw p0 b rem l q t rand q' :
  tst_fzsync_pair_init ncpus raw = Ok p0 ->
  run lb l (tst_fzsync_pair_reset b rem p0) = Ok (Some q) ->
  tst_fzsync_pair_update lb t rand q = Ok q' ->
  -1 <= sampling q <= min_samples p0 /\
  (forallb (early (float_of_Z rem)) l = true -> races l <= min_samples p0 -> sampling q = min_samples p0 - races l) /\
  (forallb (early (float_of_Z rem)) l = true -> races l < min_samples p0 -> delay q' = delay_bias q) /\
  (over_max_dev q = true -> delay q' = delay_bias q) /\
  (sampling q' < 0 -> sampling q <= 0 /\ (forallb (early (float_of_Z rem)) l = true -> min_samples p0 <= races l)).
Proof.
  intros Hi Hr Hu. destruct (init_params _ _ _ Hi) as [Hm _]. apply run_reached in Hr as (Hp & _ & _ & _ & Hs & Hx); [|lia].
  destruct (reset_params b rem p0) as (E1 & _ & E2). destruct Hp as (E3 & _ & E4 & _). rewrite E2 in E4. rewrite E1 in E3.
  rewrite E3, E4 in *. apply update_ok in Hu as ((_ & _ & _ & Hq) & _ & _ & Hd).
  split; [done|]. split; [intros He Hle; by apply Hx|]. split.
  { intros He Hlt. apply Hd. left. destruct (Hx ltac:(lia)) as [_ Hex]. rewrite (Hex He). lia. }
  split; [by auto|]. intros Hneg. split.
  - rewrite Hq in Hneg. destruct (Z.ltb_spec 0 (sampling q)); lia.
  - intros He. destruct (Z.le_gt_cases (min_samples p0) (races l)); [done|].
    destruct (Hx ltac:(lia)) as [_ Hex]. rewrite Hq, (Hex He) in Hneg. rewrite (proj2 (Z.ltb_lt _ _)) in Hneg by lia. lia.
Qed.

(** C38: the loop of a fuzzy race ends.  With fewer than [INT_MAX] loops asked
    for, the calls of thread A that did not end the test hold at most
    [exec_loops] calls of [tst_fzsync_run_a], and the next one does not
    overflow: it goes on when loops are left and the time it measures is not
    used up, and otherwise ends the test with [exit] set and thread B joined. *)
Theorem fzsync_loop_ends lb ncpus raw p0 b rem l q r :
  tst_fzsync_pair_init ncpus raw = Ok p0 -> exec_loops p0 < INT_MAX ->
  run lb l (tst_fzsync_pair_reset b rem p0) = Ok (Some q) ->
  runs l <= exec_loops p0 /\
  let more := (runs l <? exec_loops p0) && negb (SFleb fone (fsub fone (fdiv (float_of_Z r) (float_of_Z rem)))) in
  exists q', tst_fzsync_run_a r q = Ok (q', more) /\ (more = false -> fz_exit q' = true /\ thread_b q' = false).
Proof.
  intros Hi Hlt Hr. destruct (init_params _ _ _ Hi) as [Hm Hl]. apply run_reached in Hr as (Hp & He & Hn & Hle & _); [|lia].
  destruct (reset_params b rem p0) as (_ & E1 & E2). destruct Hp as (_ & E3 & E4 & _). rewrite E2 in E4. rewrite E1 in E3.
  rewrite E3 in Hle. split; [lia|]. pose proof (count_nonneg is_run l) as H0. fold (runs l) in H0.
  destruct (run_a_ok r q He) as (q' & Hq & _ & Hf); [unfold INT_MIN, INT_MAX in *; lia|].
  rewrite Hn, E3, E4 in *. exists q'. by split.
Qed.

(** When the runtime is used up, the next [tst_fzsync_run_a] ends the
    test, unless it was used up before the pair was reset: then the quotient
    of the remaining time is not a number and only the loop counter ends the
    test.  (Runtimes below 2^24 seconds.) *)
Theorem fzsync_time_limit lb ncpus raw p0 b rem l q :
  tst_fzsync_pair_init ncpus raw = Ok p0 -> exec_loops p0 < INT_MAX -> 0 <= rem < 2 ^ 24 ->
  run lb l (tst_fzsync_pair_reset b rem p0) = Ok (Some q) ->
  exists q', tst_fzsync_run_a 0 q = Ok (q', (rem =? 0) && (runs l <? exec_loops p0)).
Proof.
  intros Hi Hlt Hrem Hr. destruct (init_params _ _ _ Hi) as [Hm Hl]. apply run_reached in Hr as (Hp & He & Hn & Hle & _); [|lia].
  destruct (reset_params b rem p0) as (_ & E1 & E2). destruct Hp as (_ & E3 & E4 & _). rewrite E2 in E4. rewrite E1 in E3.
  rewrite E3 in Hle. pose proof (count_nonneg is_run l) as H0. fold (runs l) in H0.
  destruct (run_a_ok 0 q He) as (q' & Hq & _); [unfold INT_MIN, INT_MAX in *; lia|].
  exists q'. rewrite Hq, Hn, E3, E4. do 2 f_equal. destruct rem as [|m|m]; [|..|lia].
  - change (float_of_Z 0) with (S754_zero false). cbn. apply Bool.andb_true_r.
  - destruct (float_of_small m ltac:(lia)) as (_ & _ & ->). change (float_of_Z 0) with (S754_zero false). cbn. by rewrite Bool.andb_false_r.
Qed.

(** ** A race *)
Definition stat0 : tst_fzsync_stat := mkStat fzero fzero fzero.
Definition raw0 : fzsync := mkFz fzero stat0 stat0 stat0 stat0 0 stat0 0 0 0 0 fzero false fzero 0 0 false false.
Definition pair0 : fzsync := match tst_fzsync_pair_init 4 raw0 with Ok p => p | _ => raw0 end.
Definition race : list event :=
  let t := mkTimes (mkTimespec 5 100) (mkTimespec 5 140) (mkTimespec 5 400) (mkTimespec 5 900) in
  [RunA 60; StartRaceA t (lit 5000); EndRace 7; AddBias 2; RunA 59; StartRaceA t (lit 2500); EndRace 9].
Definition raced (rem : Z) : fzsync :=
  match run 64 race (tst_fzsync_pair_reset true rem pair0) with Ok (Some q) => q | _ => raw0 end.

Lemma fzsync_sampling_witness : sampling (raced 60) = min_samples pair0 - 2.
Proof.
  pose (t := mkTimes (mkTimespec 6 0) (mkTimespec 6 0) (mkTimespec 6 0) (mkTimespec 6 0)).
  refine (proj1 (proj2 (fzsync_sampling 64 4 raw0 pair0 true 60 race (raced 60) t (lit 1)
    (match tst_fzsync_pair_update 64 t (lit 1) (raced 60) with Ok q => q | _ => raw0 end) _ _ _)) _ _); vm_compute; (reflexivity || discriminate).
Defined.

Lemma fzsync_loop_ends_witness : runs race <= exec_loops pair0.
Proof.
  refine (proj1 (fzsync_loop_ends 64 4 raw0 pair0 true 60 race (raced 60) 58 _ _ _)); vm_compute; reflexivity.
Defined.

Lemma fzsync_time_limit_witness : exists q', tst_fzsync_run_a 0 (raced 60) = Ok (q', (60 =? 0) && (runs race <? exec_loops pair0)).
Proof.
  apply (fzsync_time_limit 64 4 raw0 pair0 true 60 race (raced 60)); [vm_compute; reflexivity|vm_compute; reflexivity|zeval|vm_compute; reflexivity].
Defined.

(** Samples without deviation, and the random delay that follows. *)
Example calm_delay :
  let s x := mkStat (float_of_Z x) fzero fzero in
  let p := mkFz (lit 2500) (s 10) (s 300) (s 500) (s 200) 5 (s 50) 0 0 0 1024 (lit 1000) false (float_of_Z 60) 3000000 9 true false in
  let t := mkTimes (mkTimespec 6 0) (mkTimespec 6 0) (mkTimespec 6 0) (mkTimespec 6 0) in
  match tst_fzsync_pair_update 64 t fzero p, tst_fzsync_pair_update 64 t (double_of_Z 1) p with
  | Ok a, Ok b => (delay a, delay b, sampling a, delay_range p) = (-137, 82, -1, Ok (-125, 75))
  | _, _ => False
  end.
Proof. vm_compute. reflexivity. Qed.

(** [CHK] allows INT_MAX loops, but the counter overflows before it is above. *)
Example loops_int_max :
  tst_fzsync_run_a 60 (set_run (set_params (raced 60) (lit 2500) 1024 (lit 1000) INT_MAX false) 0 false INT_MAX) = Fault.
Proof. vm_compute. reflexivity. Qed.
