(* ===== verification/Checksum.v ===== *)
(** * Checksum: [lib/tst_checksum.c]

    The table driven CRC-32C and the division by the Castagnoli polynomial one
    bit at a time that it computes. *)

From stdpp Require Import base list strings.
From Stdlib Require Import ZArith Lia.
From S2P Require Import Prelude.

Local Open Scope Z_scope.

Definition crc32c_table : list Z :=
  [0x00000000; 0xf26b8303; 0xe13b70f7; 0x1350f3f4; 0xc79a971f; 0x35f1141c; 0x26a1e7e8; 0xd4ca64eb;
   0x8ad958cf; 0x78b2dbcc; 0x6be22838; 0x9989ab3b; 0x4d43cfd0; 0xbf284cd3; 0xac78bf27; 0x5e133c24;
   0x105ec76f; 0xe235446c; 0xf165b798; 0x030e349b; 0xd7c45070; 0x25afd373; 0x36ff2087; 0xc494a384;
   0x9a879fa0; 0x68ec1ca3; 0x7bbcef57; 0x89d76c54; 0x5d1d08bf; 0xaf768bbc; 0xbc267848; 0x4e4dfb4b;
   0x20bd8ede; 0xd2d60ddd; 0xc186fe29; 0x33ed7d2a; 0xe72719c1; 0x154c9ac2; 0x061c6936; 0xf477ea35;
   0xaa64d611; 0x580f5512; 0x4b5fa6e6; 0xb93425e5; 0x6dfe410e; 0x9f95c20d; 0x8cc531f9; 0x7eaeb2fa;
   0x30e349b1; 0xc288cab2; 0xd1d83946; 0x23b3ba45; 0xf779deae; 0x05125dad; 0x1642ae59; 0xe4292d5a;
   0xba3a117e; 0x4851927d; 0x5b016189; 0xa96ae28a; 0x7da08661; 0x8fcb0562; 0x9c9bf696; 0x6ef07595;
   0x417b1dbc; 0xb3109ebf; 0xa0406d4b; 0x522bee48; 0x86e18aa3; 0x748a09a0; 0x67dafa54; 0x95b17957;
   0xcba24573; 0x39c9c670; 0x2a993584; 0xd8f2b687; 0x0c38d26c; 0xfe53516f; 0xed03a29b; 0x1f682198;
   0x5125dad3; 0xa34e59d0; 0xb01eaa24; 0x42752927; 0x96bf4dcc; 0x64d4cecf; 0x77843d3b; 0x85efbe38;
   0xdbfc821c; 0x2997011f; 0x3ac7f2eb; 0xc8ac71e8; 0x1c661503; 0xee0d9600; 0xfd5d65f4; 0x0f36e6f7;
   0x61c69362; 0x93ad1061; 0x80fde395; 0x72966096; 0xa65c047d; 0x5437877e; 0x4767748a; 0xb50cf789;
   0xeb1fcbad; 0x197448ae; 0x0a24bb5a; 0xf84f3859; 0x2c855cb2; 0xdeeedfb1; 0xcdbe2c45; 0x3fd5af46;
   0x7198540d; 0x83f3d70e; 0x90a324fa; 0x62c8a7f9; 0xb602c312; 0x44694011; 0x5739b3e5; 0xa55230e6;
   0xfb410cc2; 0x092a8fc1; 0x1a7a7c35; 0xe811ff36; 0x3cdb9bdd; 0xceb018de; 0xdde0eb2a; 0x2f8b6829;
   0x82f63b78; 0x709db87b; 0x63cd4b8f; 0x91a6c88c; 0x456cac67; 0xb7072f64; 0xa457dc90; 0x563c5f93;
   0x082f63b7; 0xfa44e0b4; 0xe9141340; 0x1b7f9043; 0xcfb5f4a8; 0x3dde77ab; 0x2e8e845f; 0xdce5075c;
   0x92a8fc17; 0x60c37f14; 0x73938ce0; 0x81f80fe3; 0x55326b08; 0xa759e80b; 0xb4091bff; 0x466298fc;
   0x1871a4d8; 0xea1a27db; 0xf94ad42f; 0x0b21572c; 0xdfeb33c7; 0x2d80b0c4; 0x3ed04330; 0xccbbc033;
   0xa24bb5a6; 0x502036a5; 0x4370c551; 0xb11b4652; 0x65d122b9; 0x97baa1ba; 0x84ea524e; 0x7681d14d;
   0x2892ed69; 0xdaf96e6a; 0xc9a99d9e; 0x3bc21e9d; 0xef087a76; 0x1d63f975; 0x0e330a81; 0xfc588982;
   0xb21572c9; 0x407ef1ca; 0x532e023e; 0xa145813d; 0x758fe5d6; 0x87e466d5; 0x94b49521; 0x66df1622;
   0x38cc2a06; 0xcaa7a905; 0xd9f75af1; 0x2b9cd9f2; 0xff56bd19; 0x0d3d3e1a; 0x1e6dcdee; 0xec064eed;
   0xc38d26c4; 0x31e6a5c7; 0x22b65633; 0xd0ddd530; 0x0417b1db; 0xf67c32d8; 0xe52cc12c; 0x1747422f;
   0x49547e0b; 0xbb3ffd08; 0xa86f0efc; 0x5a048dff; 0x8ecee914; 0x7ca56a17; 0x6ff599e3; 0x9d9e1ae0;
   0xd3d3e1ab; 0x21b862a8; 0x32e8915c; 0xc083125f; 0x144976b4; 0xe622f5b7; 0xf5720643; 0x07198540;
   0x590ab964; 0xab613a67; 0xb831c993; 0x4a5a4a90; 0x9e902e7b; 0x6cfbad78; 0x7fab5e8c; 0x8dc0dd8f;
   0xe330a81a; 0x115b2b19; 0x020bd8ed; 0xf0605bee; 0x24aa3f05; 0xd6c1bc06; 0xc5914ff2; 0x37faccf1;
   0x69e9f0d5; 0x9b8273d6; 0x88d28022; 0x7ab90321; 0xae7367ca; 0x5c18e4c9; 0x4f48173d; 0xbd23943e;
   0xf36e6f75; 0x0105ec76; 0x12551f82; 0xe03e9c81; 0x34f4f86a; 0xc69f7b69; 0xd5cf889d; 0x27a40b9e;
   0x79b737ba; 0x8bdcb4b9; 0x988c474d; 0x6ae7c44e; 0xbe2da0a5; 0x4c4623a6; 0x5f16d052; 0xad7d5351].

(** [while (buf_len--)]; reading beyond the buffer is undefined. *)
Fixpoint crc32c_loop (buf_len : nat) (buf : list Z) (crc : Z) : res unit Z :=
  match buf_len, buf with
  | O, _ => Ok crc
  | S n, b :: buf =>
      e ← or_fault (crc32c_table !! Z.to_nat (Z.land (Z.lxor crc b) 0xff));
      crc32c_loop n buf (Z.lxor e (Z.shiftr crc 8))
  | S _, [] => Fault
  end.

Definition tst_crc32c (buf : list Z) (buf_len : nat) : res unit Z :=
  crc ← crc32c_loop buf_len buf 0xffffffff; Ok (wrap_u 32 (Z.lnot crc)).

(** ** The division *)

(** The Castagnoli polynomial, its coefficients reflected. *)
Definition POLY : Z := 0x82f63b78.
(** One step of the shift register. *)
Definition shift1 (x : Z) : Z := Z.lxor (Z.div2 x) (if Z.odd x then POLY else 0).
(** A message bit enters, least significant bit of each byte first. *)
Definition feed (x : Z) (b : bool) : Z := shift1 (Z.lxor x (Z.b2z b)).
Definition bits8 (b : Z) : list bool := Z.testbit b <$> [0; 1; 2; 3; 4; 5; 6; 7].
Definition message (buf : list Z) : list bool := buf ≫= bits8.
Definition crc_bits (l : list bool) : Z := Z.lxor (foldl feed 0xffffffff l) 0xffffffff.

Definition byte (b : Z) : Prop := 0 <= b < 256.

(** ** The register is linear *)
Lemma shift1_lxor x y : shift1 (Z.lxor x y) = Z.lxor (shift1 x) (shift1 y).
Proof.
  unfold shift1. rewrite <-!Z.bit0_odd, Z.lxor_spec, !Z.div2_spec, Z.shiftr_lxor.
  apply Z.bits_inj'. intros n Hn. rewrite !Z.lxor_spec.
  destruct (Z.testbit x 0), (Z.testbit y 0); simpl xorb; rewrite ?Z.testbit_0_l;
    destruct (Z.testbit (Z.shiftr x 1) n), (Z.testbit (Z.shiftr y 1) n), (Z.testbit POLY n); done.
Qed.

Lemma shift1_double x : shift1 (2 * x) = x.
Proof.
  unfold shift1. rewrite Z.odd_mul. cbn [Z.odd andb]. rewrite Z.lxor_0_r, Z.div2_div, Z.mul_comm. by apply Z.div_mul.
Qed.

Abbreviation shifts n := (Nat.iter n shift1).

Lemma shifts_lxor n x y : shifts n (Z.lxor x y) = Z.lxor (shifts n x) (shifts n y).
Proof. induction n as [|n IH]; simpl; [done|]. by rewrite IH, shift1_lxor. Qed.

Lemma shifts_S n x : shifts (S n) x = shifts n (shift1 x).
Proof. by rewrite Nat.iter_succ_r. Qed.

Lemma shifts_shiftl n x : shifts n (Z.shiftl x (Z.of_nat n)) = x.
Proof.
  induction n as [|n IH]; [apply Z.shiftl_0_r|]. rewrite shifts_S.
  replace (Z.shiftl x (Z.of_nat (S n))) with (2 * Z.shiftl x (Z.of_nat n)); [by rewrite shift1_double|].
  rewrite !Z.shiftl_mul_pow2, Nat2Z.inj_succ, Z.pow_succ_r by lia. lia.
Qed.

(** The number a list of bits stands for, least significant bit first. *)
Fixpoint bits_val (l : list bool) : Z := match l with [] => 0 | b :: l => Z.lxor (Z.b2z b) (2 * bits_val l) end.

(** Feeding bits one at a time, or all at once. *)
Lemma feed_all l x : foldl feed x l = shifts (length l) (Z.lxor x (bits_val l)).
Proof.
  revert x. induction l as [|b l IH]; intros x; cbn [foldl length bits_val]; [by rewrite Z.lxor_0_r|].
  rewrite IH, shifts_S. unfold feed. f_equal.
  rewrite <-(shift1_double (bits_val l)) at 1. rewrite <-shift1_lxor. by rewrite Z.lxor_assoc.
Qed.

Lemma bits8_val b : byte b -> bits_val (bits8 b) = b.
Proof.
  intros Hb. assert (H : forallb (fun i => bits_val (bits8 (Z.of_nat i)) =? Z.of_nat i) (seq 0 256) = true) by (vm_compute; reflexivity).
  rewrite forallb_forall in H. specialize (H (Z.to_nat b)). rewrite in_seq, Z2Nat.id in H by (unfold byte in Hb; lia).
  apply Z.eqb_eq, H. unfold byte in Hb. lia.
Qed.

Lemma table_ok i : (i < 256)%nat -> crc32c_table !! i = Some (shifts 8 (Z.of_nat i)).
Proof.
  intros Hi. replace crc32c_table with ((fun i => shifts 8 (Z.of_nat i)) <$> seq 0 256) by (vm_compute; reflexivity).
  rewrite list_lookup_fmap, lookup_seq_lt by done. done.
Qed.

Lemma split_byte y : Z.lxor (Z.land y 255) (Z.shiftl (Z.shiftr y 8) 8) = y.
Proof.
  apply Z.bits_inj'. intros n Hn. rewrite Z.lxor_spec, Z.land_spec. change 255 with (Z.ones 8).
  destruct (Z.lt_ge_cases n 8).
  - rewrite Z.ones_spec_low, Z.shiftl_spec_low by lia. by rewrite Bool.andb_true_r, Bool.xorb_false_r.
  - rewrite Z.ones_spec_high, Z.shiftl_spec, Z.shiftr_spec by lia. rewrite Bool.andb_false_r, Bool.xorb_false_l. f_equal. lia.
Qed.

(** One round of the loop is eight bits of the division. *)
Lemma round_ok crc b : byte b -> let i := Z.to_nat (Z.land (Z.lxor crc b) 255) in
  exists e, crc32c_table !! i = Some e /\ Z.lxor e (Z.shiftr crc 8) = foldl feed crc (bits8 b).
Proof.
  intros Hb i. assert (Hi : 0 <= Z.land (Z.lxor crc b) 255 < 256).
  { change 255 with (Z.ones 8). rewrite Z.land_ones by lia. apply Z.mod_pos_bound. lia. }
  eexists. split; [apply table_ok; unfold i; lia|]. unfold i. rewrite Z2Nat.id by lia.
  rewrite feed_all, bits8_val by done. cbn [bits8 fmap list_fmap length].
  rewrite <-(split_byte (Z.lxor crc b)) at 2. rewrite shifts_lxor, (shifts_shiftl 8), Z.shiftr_lxor.
  rewrite (Z.shiftr_div_pow2 b), Z.div_small, Z.lxor_0_r by (unfold byte in Hb; lia). done.
Qed.

Lemma loop_ok buf rest crc : Forall byte buf -> crc32c_loop (length buf) (buf ++ rest) crc = Ok (foldl feed crc (message buf)).
Proof.
  intros Hb. revert crc. induction Hb as [|b buf Hb _ IH]; intros crc; [done|]. cbn [length app crc32c_loop].
  destruct (round_ok crc b Hb) as (e & He & Hr). rewrite He. cbn [or_fault mbind res_bind]. rewrite IH, Hr.
  unfold message. cbn [mbind list_bind]. by rewrite foldl_app.
Qed.

Lemma lxor_lt n a b : 0 <= n -> 0 <= a < 2 ^ n -> 0 <= b < 2 ^ n -> 0 <= Z.lxor a b < 2 ^ n.
Proof.
  intros Hn Ha Hb. assert (E : Z.lxor a b = Z.lxor a b mod 2 ^ n); [|rewrite E; by apply Z.mod_pos_bound, Z.pow_pos_nonneg].
  apply Z.bits_inj'. intros k Hk. destruct (Z.lt_ge_cases k n); [by rewrite Z.mod_pow2_bits_low|].
  rewrite Z.mod_pow2_bits_high, Z.lxor_spec by lia.
  rewrite <-(Z.mod_small a (2 ^ n)), <-(Z.mod_small b (2 ^ n)), !Z.mod_pow2_bits_high by lia. done.
Qed.

Lemma feed_range x b : 0 <= x < 2 ^ 32 -> 0 <= feed x b < 2 ^ 32.
Proof.
  intros Hx. unfold feed, shift1. assert (H : 0 <= Z.lxor x (Z.b2z b) < 2 ^ 32) by (apply lxor_lt; [lia..|destruct b; simpl; lia]).
  apply lxor_lt; [lia| |case_match; unfold POLY; lia]. rewrite Z.div2_div. Z.to_euclidean_division_equations; lia.
Qed.

Lemma feeds_range l x : 0 <= x < 2 ^ 32 -> 0 <= foldl feed x l < 2 ^ 32.
Proof. revert x. induction l as [|b l IH]; intros x Hx; simpl; [done|]. by apply IH, feed_range. Qed.

Lemma not_lxor x : 0 <= x < 2 ^ 32 -> wrap_u 32 (Z.lnot x) = Z.lxor x 0xffffffff.
Proof.
  intros Hx. unfold wrap_u. change 0xffffffff with (Z.ones 32). apply Z.bits_inj'. intros k Hk. rewrite Z.lxor_spec.
  destruct (Z.lt_ge_cases k 32).
  - rewrite Z.mod_pow2_bits_low, Z.lnot_spec, Z.ones_spec_low by lia. by destruct (Z.testbit x k).
  - rewrite Z.mod_pow2_bits_high, Z.ones_spec_high by lia.
    rewrite <-(Z.mod_small x (2 ^ 32)), Z.mod_pow2_bits_high by lia. done.
Qed.

Lemma crc32c_ok buf rest : Forall byte buf -> tst_crc32c (buf ++ rest) (length buf) = Ok (crc_bits (message buf)).
Proof.
  intros Hb. unfold tst_crc32c, crc_bits. rewrite loop_ok by done. cbn [mbind res_bind]. f_equal. apply not_lxor, feeds_range. lia.
Qed.

(** ** Bursts *)

Lemma shift1_zero x : 0 <= x < 2 ^ 32 -> shift1 x = 0 -> x = 0.
Proof.
  unfold shift1. rewrite Z.lxor_eq_0_iff, Z.div2_div. intros Hx H. pose proof (Z.div_mod x 2 ltac:(lia)) as Hd.
  rewrite Zmod_odd in Hd. destruct (Z.odd x); unfold POLY in *; lia.
Qed.

Lemma shift1_range x : 0 <= x < 2 ^ 32 -> 0 <= shift1 x < 2 ^ 32.
Proof. intros Hx. rewrite <-(Z.lxor_0_r x). by apply (feed_range x false). Qed.

Lemma shifts_zero n x : 0 <= x < 2 ^ 32 -> shifts n x = 0 -> x = 0.
Proof.
  revert x. induction n as [|n IH]; intros x Hx H; [done|]. rewrite shifts_S in H.
  apply shift1_zero; [done|]. apply IH; [by apply shift1_range|done].
Qed.

Lemma lxor_cancel x a b : Z.lxor (Z.lxor x a) (Z.lxor x b) = Z.lxor a b.
Proof. apply Z.bits_inj'. intros n _. rewrite !Z.lxor_spec. by destruct (Z.testbit x n), (Z.testbit a n), (Z.testbit b n). Qed.

(** The register after a message determines the register before it. *)
Lemma feed_inj l x y : 0 <= x < 2 ^ 32 -> 0 <= y < 2 ^ 32 -> foldl feed x l = foldl feed y l -> x = y.
Proof.
  intros Hx Hy. rewrite !feed_all, <-Z.lxor_eq_0_iff, <-shifts_lxor. intros H.
  apply Z.lxor_eq_0_iff, (shifts_zero (length l)); [by apply lxor_lt|]. rewrite <-H. f_equal.
  by rewrite (Z.lxor_comm x (bits_val l)), (Z.lxor_comm y (bits_val l)), lxor_cancel.
Qed.

Lemma bits_val_cons b l : 0 <= bits_val l -> bits_val (b :: l) = 2 * bits_val l + Z.b2z b.
Proof. intros H. simpl. destruct (bits_val l), b; (done || lia). Qed.

Lemma bits_val_range l : 0 <= bits_val l < 2 ^ Z.of_nat (length l).
Proof.
  induction l as [|b l IH]; [done|]. rewrite bits_val_cons by lia. cbn [length].
  rewrite Nat2Z.inj_succ, Z.pow_succ_r by lia. destruct b; simpl; lia.
Qed.

Lemma bits_val_inj l l' : length l = length l' -> bits_val l = bits_val l' -> l = l'.
Proof.
  revert l'. induction l as [|b l IH]; intros [|b' l'] Hl H; try done. cbn [length] in Hl.
  rewrite !bits_val_cons in H by apply bits_val_range. injection Hl as Hl.
  assert (b = b') as -> by (destruct b, b'; simpl in H; (done || lia)). f_equal. apply IH; [done|lia].
Qed.

Lemma bursts_differ w w' suf x : 0 <= x < 2 ^ 32 -> length w = length w' -> (length w <= 32)%nat -> w <> w' ->
  foldl feed x (w ++ suf) <> foldl feed x (w' ++ suf).
Proof.
  intros Hx Hl H32 Hn H. rewrite !foldl_app in H. apply feed_inj in H; [|by apply feeds_range..].
  rewrite !feed_all, Hl, <-Z.lxor_eq_0_iff, <-shifts_lxor in H. apply Hn, bits_val_inj; [done|].
  assert (Hb : forall u, (length u <= 32)%nat -> 0 <= bits_val u < 2 ^ 32).
  { intros u Hu. pose proof (bits_val_range u). pose proof (Z.pow_le_mono_r 2 (Z.of_nat (length u)) 32). lia. }
  apply Z.lxor_eq_0_iff, (shifts_zero (length w')); [apply lxor_lt; [lia|apply Hb; lia..]|]. by rewrite <-H, lxor_cancel.
Qed.

Lemma loop_short buf n crc : Forall byte buf -> (length buf < n)%nat -> crc32c_loop n buf crc = Fault.
Proof.
  intros Hb. revert n crc. induction Hb as [|b buf Hb _ IH]; intros [|n] crc Hn; cbn [length] in Hn; try lia; [done|].
  cbn [crc32c_loop]. destruct (round_ok crc b Hb) as (e & -> & _). cbn [or_fault mbind res_bind]. apply IH. lia.
Qed.

(** ** Properties *)

(** C12: the table driven checksum is the remainder of the bitwise division by
    the Castagnoli polynomial, for every buffer of bytes and whatever follows
    it in memory; a length beyond the buffer reads out of bounds. *)
Theorem crc32c_bitwise buf rest n : Forall byte buf ->
  tst_crc32c (buf ++ rest) (length buf) = Ok (crc_bits (message buf)) /\
  ((length buf < n)%nat -> tst_crc32c buf n = Fault).
Proof.
  intros Hb. split; [by apply crc32c_ok|]. intros Hn. unfold tst_crc32c. by rewrite loop_short.
Qed.

Lemma crc32c_bitwise_witness : tst_crc32c (str "123456789") 9 = Ok (crc_bits (message (str "123456789"))).
Proof. refine (proj1 (crc32c_bitwise (str "123456789") [] 0 _)). repeat constructor; discriminate. Defined.

(** Two buffers that differ, but only within 32 consecutive bits, have
    different checksums. *)
Theorem crc32c_detects_bursts buf buf' pre w w' suf :
  Forall byte buf -> Forall byte buf' -> message buf = pre ++ w ++ suf -> message buf' = pre ++ w' ++ suf ->
  length w = length w' -> (length w <= 32)%nat -> w <> w' ->
  tst_crc32c buf (length buf) <> tst_crc32c buf' (length buf').
Proof.
  intros Hb Hb' E E' Hl H32 Hn. rewrite <-(app_nil_r buf) at 1. rewrite <-(app_nil_r buf') at 1. rewrite !crc32c_ok by done.
  unfold crc_bits. rewrite E, E'. intros [= H]. rewrite !(Z.lxor_comm _ 0xffffffff), <-Z.lxor_eq_0_iff, lxor_cancel, Z.lxor_eq_0_iff in H.
  rewrite !(foldl_app _ pre) in H. revert H. apply bursts_differ; [|done..]. apply feeds_range. lia.
Qed.

Lemma crc32c_detects_bursts_witness : tst_crc32c [1; 0x80; 0xff; 7] 4 <> tst_crc32c [1; 0x83; 0x12; 7] 4.
Proof.
  apply (crc32c_detects_bursts [1; 0x80; 0xff; 7] [1; 0x83; 0x12; 7] (message [1]) (message [0x80; 0xff]) (message [0x83; 0x12]) (message [7]));
    [repeat constructor; discriminate..|reflexivity|reflexivity|reflexivity|vm_compute; lia|discriminate].
Defined.

(** The check value of the algorithm. *)
Example crc32c_check : tst_crc32c (str "123456789") 9 = Ok 0xe3069283.
Proof. vm_compute. reflexivity. Qed.
