(* ===== verification/Bytes.v ===== *)
(** * Bytes in memory

    Objects in memory as lists of bytes, with little endian integers; reading
    and writing at an offset, where an access outside of the object is a
    [Fault]. *)

From stdpp Require Import base list.
From Stdlib Require Import ZArith Lia.
From S2P Require Import Prelude.

Local Open Scope Z_scope.

Fixpoint le (n : nat) (z : Z) : list Z := match n with O => [] | S n => z mod 256 :: le n (z / 256) end.
Fixpoint unle (l : list Z) : Z := match l with [] => 0 | b :: l => b + 256 * unle l end.
Definition len (l : list Z) : Z := Z.of_nat (length l).
Definition zeros (n : Z) : list Z := replicate (Z.to_nat n) 0.

Definition inside (off n : Z) (buf : list Z) : bool := (0 <=? off) && (off + n <=? len buf).
Definition put {E} (off : Z) (bs buf : list Z) : res E (list Z) :=
  if inside off (len bs) buf then Ok (take (Z.to_nat off) buf ++ bs ++ drop (Z.to_nat off + length bs) buf) else Fault.
Definition get {E} (off n : Z) (buf : list Z) : res E (list Z) :=
  if inside off n buf && (0 <=? n) then Ok (take (Z.to_nat n) (drop (Z.to_nat off) buf)) else Fault.
Definition get_u {E} (off n : Z) (buf : list Z) : res E Z := b ← get off n buf; Ok (unle b).

(** ** Lengths and accesses *)
Lemma len_app l l' : len (l ++ l') = len l + len l'.
Proof. unfold len. rewrite length_app. lia. Qed.
Lemma len_nonneg l : 0 <= len l.
Proof. unfold len. lia. Qed.
Lemma len_zeros n : 0 <= n -> len (zeros n) = n.
Proof. unfold len, zeros. rewrite length_replicate. lia. Qed.
Lemma length_le n z : length (le n z) = n.
Proof. revert z. induction n as [|n IH]; intros z; simpl; [done|]. by rewrite IH. Qed.
Lemma len_le n z : len (le n z) = Z.of_nat n.
Proof. unfold len. by rewrite length_le. Qed.
Lemma unle_le n z : 0 <= z < 256 ^ Z.of_nat n -> unle (le n z) = z.
Proof.
  revert z. induction n as [|n IH]; intros z Hz; [simpl in *; lia|]. cbn [le unle].
  rewrite Nat2Z.inj_succ, Z.pow_succ_r in Hz by lia. rewrite IH; [pose proof (Z.div_mod z 256); lia|].
  split; [apply Z.div_pos; lia|apply Z.div_lt_upper_bound; lia].
Qed.
Lemma inside_iff off n buf : inside off n buf = true <-> 0 <= off /\ off + n <= len buf.
Proof. unfold inside. rewrite Bool.andb_true_iff, !Z.leb_le. done. Qed.
Lemma put_at {E} pre old new post : len old = len new ->
  put (len pre) new (pre ++ old ++ post) = Ok (E := E) (pre ++ new ++ post).
Proof.
  intros H. unfold put. pose proof (len_nonneg pre). pose proof (len_nonneg post).
  rewrite (proj2 (inside_iff _ _ _)) by (rewrite !len_app; lia). f_equal. unfold len in *. rewrite Nat2Z.id.
  rewrite take_app_length. do 2 f_equal. rewrite <-drop_drop, drop_app_length.
  replace (length new) with (length old) by lia. apply drop_app_length.
Qed.
Lemma get_at {E} pre x post : get (len pre) (len x) (pre ++ x ++ post) = Ok (E := E) x.
Proof.
  unfold get. pose proof (len_nonneg pre). pose proof (len_nonneg post). pose proof (len_nonneg x).
  rewrite (proj2 (inside_iff _ _ _)) by (rewrite !len_app; lia). rewrite (proj2 (Z.leb_le _ _)) by lia. cbn [andb].
  f_equal. unfold len. rewrite !Nat2Z.id, drop_app_length, take_app_length. done.
Qed.
Lemma get_u_at {E} pre n z post : 0 <= z < 256 ^ Z.of_nat n -> get_u (len pre) (Z.of_nat n) (pre ++ le n z ++ post) = Ok (E := E) z.
Proof.
  intros Hz. unfold get_u. replace (Z.of_nat n) with (len (le n z)) by apply len_le.
  rewrite get_at. cbn [mbind res_bind]. by rewrite unle_le.
Qed.
Lemma zeros_split a b : 0 <= a <= b -> zeros b = zeros a ++ zeros (b - a).
Proof. intros H. unfold zeros. rewrite <-replicate_add. f_equal. lia. Qed.
Lemma get_prefix {E} n d : 0 <= n <= len d -> get 0 n d = Ok (E := E) (take (Z.to_nat n) d).
Proof.
  intros Hn. unfold get. rewrite (proj2 (inside_iff _ _ _)), (proj2 (Z.leb_le _ _)) by lia. done.
Qed.
Lemma len_take n (d : list Z) : 0 <= n <= len d -> len (take (Z.to_nat n) d) = n.
Proof. intros H. unfold len in *. rewrite length_take. lia. Qed.
Lemma drop_len (x y : list Z) : drop (Z.to_nat (len x)) (x ++ y) = y.
Proof. unfold len. rewrite Nat2Z.id. apply drop_app_length. Qed.
Lemma take_len (x y : list Z) : take (Z.to_nat (len x)) (x ++ y) = x.
Proof. unfold len. rewrite Nat2Z.id. apply take_app_length. Qed.
Lemma len_drop n (l : list Z) : 0 <= n <= len l -> len (drop (Z.to_nat n) l) = len l - n.
Proof. unfold len. rewrite length_drop. lia. Qed.
Lemma len_drop_nat n (l : list Z) : len (drop n l) = Z.max 0 (len l - Z.of_nat n).
Proof. unfold len. rewrite length_drop. lia. Qed.
