(* ===== verification/Netlink.v ===== *)
(** * Routing netlink: [lib/tst_rtnetlink.c]

    Messages and attributes are written into a byte buffer that grows, sent,
    and the answers of the kernel are taken apart and checked.  The message
    formats and the macros [NLMSG_*] and [RTA_*] are those of <linux/netlink.h>
    and <linux/rtnetlink.h>, on a little endian machine with a [size_t] of 64
    bits.  [limit] is the largest block [realloc] can give; the socket is a
    pair of inputs, what [sendmsg] returns and the datagrams that wait. *)

From stdpp Require Import base list strings.
From Stdlib Require Import ZArith Lia.
From S2P Require Import Prelude Bytes.

Local Open Scope Z_scope.

(** The ways in which the library breaks off. *)
Inductive rtnl_error : Set :=
  | NoMessageToSend | NoMessageForAttr | ReallocFailed | ValueTooLong | SublistTooLong
  | SendFailed | SendShort | RecvFailed | NoAck (seq : Z).
Abbreviation M := (res rtnl_error).

(** ** Formats *)
Definition NLM_F_REQUEST : Z := 0x1.
Definition NLM_F_MULTI : Z := 0x2.
Definition NLM_F_ACK : Z := 0x4.
Definition NLMSG_ERROR : Z := 2.
Definition NLMSG_DONE : Z := 3.
Definition USHRT_MAX : Z := 65535.

(** The mask is an [unsigned int]. *)
Definition NLMSG_ALIGN (len : Z) : Z := Z.land (len + 3) 0xfffffffc.
Definition NLMSG_HDRLEN : Z := 16.
Definition NLMSG_LENGTH (len : Z) : Z := len + NLMSG_HDRLEN.
Definition NLMSG_SPACE (len : Z) : Z := NLMSG_ALIGN (NLMSG_LENGTH len).
Definition RTA_LENGTH (len : Z) : Z := 4 + len.
Definition RTA_SPACE (len : Z) : Z := NLMSG_ALIGN (RTA_LENGTH len).

Record nlmsghdr : Set := mkHdr { nlmsg_len : Z; nlmsg_type : Z; nlmsg_flags : Z; nlmsg_seq : Z; nlmsg_pid : Z }.
Definition hdr_bytes (h : nlmsghdr) : list Z :=
  le 4 (nlmsg_len h) ++ le 2 (nlmsg_type h) ++ le 2 (nlmsg_flags h) ++ le 4 (nlmsg_seq h) ++ le 4 (nlmsg_pid h).
Definition hdr_of (b : list Z) : nlmsghdr :=
  let f i n := unle (take n (drop i b)) in mkHdr (f 0 4)%nat (f 4 2)%nat (f 6 2)%nat (f 8 4)%nat (f 12 4)%nat.
Definition get_hdr (off : Z) (buf : list Z) : M nlmsghdr := b ← get off 16 buf; Ok (hdr_of b).

(** ** Context *)

(** [curmsg]: the offset of the current message in the buffer. *)
Record tst_rtnl_context : Set := mkCtx {
  pid : Z; seq : Z; bufsize : Z; datalen : Z; buffer : list Z; curmsg : option Z
}.

(** [struct tst_rtnl_attr_list]: an array that ends with a negative length. *)
Unset Elimination Schemes.
Inductive attr : Set := Attr (type : Z) (data : list Z) (alen : Z) (sublist : option (list attr)).
Set Elimination Schemes.
Definition attr_end : attr := Attr 0 [] (-1) None.

(** The socket is opened and bound. *)
Definition tst_rtnl_create_context : tst_rtnl_context := mkCtx 0 0 1024 0 (zeros 1024) None.

Definition set_buf (c : tst_rtnl_context) (b : list Z) : tst_rtnl_context := mkCtx (pid c) (seq c) (bufsize c) (datalen c) b (curmsg c).

Section Context.
Context (limit : Z).

(** With no current message its offset is the difference of a null pointer and
    the buffer, which is undefined. *)
Definition tst_rtnl_grow_buffer (c : tst_rtnl_context) (size : Z) : M tst_rtnl_context :=
  let curlen := NLMSG_ALIGN (datalen c) in
  let free := wrap_u 64 (bufsize c - curlen) in
  if size <=? free then Ok c
  else
    let needed := wrap_u 64 (size - free) in
    let size := NLMSG_ALIGN (wrap_u 64 (bufsize c + (if needed <? bufsize c then bufsize c else needed))) in
    if limit <? size then Err ReallocFailed
    else if size <? bufsize c then Fault
    else match curmsg c with
         | None => Fault
         | Some m => Ok (mkCtx (pid c) (seq c) size (datalen c) (buffer c ++ zeros (size - bufsize c)) (Some m))
         end.

Definition tst_rtnl_add_message (c : tst_rtnl_context) (header : nlmsghdr) (payload : list Z) : M tst_rtnl_context :=
  c ← tst_rtnl_grow_buffer c (NLMSG_SPACE (len payload));
  '(buf, cur, dlen, extra) ←
    match curmsg c with
    | None => Ok (buffer c, 0, 0, 0)
    | Some m =>
        h ← get_hdr m (buffer c);
        buf ← put (m + 6) (le 2 (Z.lor (nlmsg_flags h) NLM_F_MULTI)) (buffer c);
        Ok (buf, m + NLMSG_ALIGN (nlmsg_len h), NLMSG_ALIGN (datalen c), NLM_F_MULTI)
    end;
  let h := mkHdr (wrap_u 32 (NLMSG_LENGTH (len payload))) (nlmsg_type header) (Z.lor (nlmsg_flags header) extra) (seq c) (pid c) in
  buf ← put cur (hdr_bytes h) buf;
  buf ← put (cur + NLMSG_HDRLEN) payload buf;
  Ok (mkCtx (pid c) (wrap_u 32 (seq c + 1)) (bufsize c) (dlen + nlmsg_len h) buf (Some cur)).

(** [len]: an [unsigned short]. *)
Definition tst_rtnl_add_attr (c : tst_rtnl_context) (type : Z) (data : list Z) (alen : Z) : M tst_rtnl_context :=
  match curmsg c with
  | None => Err NoMessageForAttr
  | Some m =>
      c ← tst_rtnl_grow_buffer c (RTA_SPACE alen);
      l ← get_u m 4 (buffer c);
      let size := NLMSG_ALIGN l in
      let rta_len := wrap_u 16 (RTA_LENGTH alen) in
      buf ← put (m + size) (le 2 rta_len ++ le 2 type) (buffer c);
      d ← get 0 alen data;
      buf ← put (m + size + 4) d buf;
      buf ← put m (le 4 (size + rta_len)) buf;
      Ok (mkCtx (pid c) (seq c) (bufsize c) (NLMSG_ALIGN (datalen c) + rta_len) buf (Some m))
  end.

Definition tst_rtnl_add_attr_string (c : tst_rtnl_context) (type : Z) (data : cstr) : M tst_rtnl_context :=
  tst_rtnl_add_attr c type (data ++ [0]) (wrap_u 16 (len data + 1)).

(** The loop of [tst_rtnl_add_attr_list] over an array; [i] are done. *)
Definition add_each (one : tst_rtnl_context -> attr -> M tst_rtnl_context) :=
  fix go (c : tst_rtnl_context) (l : list attr) (i : Z) : M (tst_rtnl_context * Z) :=
    match l with
    | [] => Fault
    | a :: l =>
        if (let '(Attr _ _ n _) := a in n) <? 0 then Ok (c, i)
        else c ← one c a; go c l (i + 1)
    end.

(** Its body. *)
Fixpoint add_attr_one (c : tst_rtnl_context) (a : attr) : M tst_rtnl_context :=
  let '(Attr type data n sublist) := a in
  if USHRT_MAX <? n then Err ValueTooLong
  else
    let offset := NLMSG_ALIGN (datalen c) in
    c ← tst_rtnl_add_attr c type data n;
    match sublist with
    | None => Ok c
    | Some l =>
        '(c, _) ← add_each add_attr_one c l 0;
        let n := wrap_u 64 (datalen c - offset) in
        if USHRT_MAX <? n then Err SublistTooLong
        else buf ← put offset (le 2 n) (buffer c); Ok (set_buf c buf)
    end.

(** The number of attributes is returned. *)
Definition tst_rtnl_add_attr_list (c : tst_rtnl_context) (l : list attr) : M (tst_rtnl_context * Z) := add_each add_attr_one c l 0.

(** The bytes that are sent, and the context after it. [ret]: the answer of
    [sendmsg]. *)
Definition tst_rtnl_send (c : tst_rtnl_context) (ret : Z) : M (list Z * Z * tst_rtnl_context) :=
  match curmsg c with
  | None => Err NoMessageToSend
  | Some m =>
      h ← get_hdr m (buffer c);
      c ← (if Z.land (nlmsg_flags h) NLM_F_MULTI =? 0 then Ok c
           else
             c ← tst_rtnl_add_message c (mkHdr 0 NLMSG_DONE 0 0 0) [];
             match curmsg c with
             | None => Fault
             | Some m => buf ← put (m + 6) (le 2 0) (buffer c); Ok (set_buf c buf)
             end);
      bytes ← get 0 (datalen c) (buffer c);
      if ret <? 0 then Err SendFailed
      else if negb (datalen c =? 0) && negb (ret =? datalen c) then Err SendShort
      else Ok (bytes, ret, if 0 <? ret then mkCtx (pid c) (seq c) (bufsize c) (datalen c) (buffer c) None else c)
  end.
End Context.

(** ** Answers *)

(** [err]: the message is an error or an acknowledgement. All are offsets. *)
Record tst_rtnl_message : Set := mkMsg { header : Z; err : option Z; payload : Z; payload_size : Z }.

Definition NLMSG_OK (h : nlmsghdr) (size_left : Z) : bool := (16 <=? nlmsg_len h) && (nlmsg_len h <=? size_left).
Definition next_left (h : nlmsghdr) (size_left : Z) : Z := wrap_s 32 (size_left - NLMSG_ALIGN (nlmsg_len h)).

(** [size_left > 0 && NLMSG_OK(ptr, size_left)]. *)
Definition msg_here (buf : list Z) (ptr size_left : Z) : M (option nlmsghdr) :=
  if (0 <? size_left) && (16 <=? size_left) then
    h ← get_hdr ptr buf; Ok (if NLMSG_OK h size_left then Some h else None)
  else Ok None.

Fixpoint count_messages (fuel : nat) (buf : list Z) (ptr size_left msgcount : Z) : M Z :=
  match fuel with
  | O => Fault
  | S fuel =>
      o ← msg_here buf ptr size_left;
      match o with
      | None => Ok msgcount
      | Some h => count_messages fuel buf (ptr + NLMSG_ALIGN (nlmsg_len h)) (next_left h size_left) (msgcount + 1)
      end
  end.

Fixpoint fill_messages (n : nat) (buf : list Z) (ptr size_left : Z) : M (list tst_rtnl_message) :=
  match n with
  | O => Ok []
  | S n =>
      h ← get_hdr ptr buf;
      r ← fill_messages n buf (ptr + NLMSG_ALIGN (nlmsg_len h)) (next_left h size_left);
      Ok (mkMsg ptr (if nlmsg_type h =? NLMSG_ERROR then Some (ptr + NLMSG_HDRLEN) else None)
            (ptr + NLMSG_HDRLEN) (wrap_u 32 (nlmsg_len h - NLMSG_SPACE 0)) :: r)
  end.

(** The datagrams that wait; [broken]: receiving ends with an error and not
    because nothing waits. *)
Definition tst_rtnl_recv (datagrams : list (list Z)) (broken : bool) : M (option (list Z * list tst_rtnl_message)) :=
  if broken then Err RecvFailed
  else
    let buffer := concat datagrams in
    if len buffer =? 0 then Ok None
    else
      let size_left := wrap_s 32 (len buffer) in
      n ← count_messages (S (length buffer)) buffer 0 size_left 0;
      r ← fill_messages (Z.to_nat n) buffer 0 size_left;
      Ok (Some (buffer, r)).

(** [while (res->header && res->header->nlmsg_seq != seq) res++]. *)
Fixpoint find_seq (rbuf : list Z) (res : list tst_rtnl_message) (s : Z) : M (list tst_rtnl_message) :=
  match res with
  | [] => Ok []
  | r :: res' => h ← get_hdr (header r) rbuf; if nlmsg_seq h =? s then Ok res else find_seq rbuf res' s
  end.

(** The value returned and [tst_rtnl_errno]. *)
Fixpoint check_acks_loop (fuel : nat) (buf : list Z) (msg size_left : Z) (rbuf : list Z) (res : list tst_rtnl_message) (errno : Z)
    : M (Z * Z) :=
  match fuel with
  | O => Fault
  | S fuel =>
      o ← msg_here buf msg size_left;
      match o with
      | None => Ok (1, errno)
      | Some h =>
          let next := check_acks_loop fuel buf (msg + NLMSG_ALIGN (nlmsg_len h)) (next_left h size_left) rbuf in
          if Z.land (nlmsg_flags h) NLM_F_ACK =? 0 then next res errno
          else
            res ← find_seq rbuf res (nlmsg_seq h);
            match res with
            | [] => Err (NoAck (nlmsg_seq h))
            | r :: _ =>
                match err r with
                | None => Err (NoAck (nlmsg_seq h))
                | Some e =>
                    v ← get_u e 4 rbuf;
                    let v := wrap_s 32 v in
                    if v =? 0 then next res errno else if v =? INT_MIN then Fault else Ok (0, - v)
                end
            end
      end
  end.

Definition tst_rtnl_check_acks (c : tst_rtnl_context) (rbuf : list Z) (res : list tst_rtnl_message) (errno : Z) : M (Z * Z) :=
  check_acks_loop (S (length (buffer c))) (buffer c) 0 (wrap_s 32 (datalen c)) rbuf res errno.

(** The value, [tst_rtnl_errno] and the bytes sent. *)
Definition tst_rtnl_send_validate (limit : Z) (c : tst_rtnl_context) (ret : Z) (datagrams : list (list Z)) (broken : bool)
    : M (Z * Z * list Z) :=
  '(bytes, ret, c) ← tst_rtnl_send limit c ret;
  if ret <=? 0 then Ok (0, 0, bytes)
  else
    r ← tst_rtnl_recv datagrams broken;
    match r with
    | None => Ok (0, 0, bytes)
    | Some (rbuf, res) => '(v, e) ← tst_rtnl_check_acks c rbuf res 0; Ok (v, e, bytes)
    end.

(** ** The encoding *)

Definition pad (l : list Z) : list Z := l ++ zeros (- len l mod 4).
(** Parts one after the other, each at a multiple of four. *)
Fixpoint join (l : list (list Z)) : list Z := match l with [] => [] | [x] => x | x :: l => pad x ++ join l end.

Definition alen (a : attr) : Z := let '(Attr _ _ n _) := a in n.
(** The attributes before the end mark. *)
Fixpoint live (l : list attr) : list attr := match l with [] => [] | a :: l => if alen a <? 0 then [] else a :: live l end.

Definition rta_bytes (t : Z) (body : list Z) : list Z := le 2 (RTA_LENGTH (len body)) ++ le 2 t ++ body.

Fixpoint enc_attr (a : attr) : list Z :=
  let fix enc_list (l : list attr) : list (list Z) :=
    match l with [] => [] | a :: l => if alen a <? 0 then [] else enc_attr a :: enc_list l end in
  let '(Attr t d n sub) := a in
  rta_bytes t (join (take (Z.to_nat n) d :: match sub with None => [] | Some l => enc_list l end)).

Definition attr_body (a : attr) : list Z :=
  let '(Attr t d n sub) := a in join (take (Z.to_nat n) d :: match sub with None => [] | Some l => enc_attr <$> live l end).

(** Attributes that can be written: lengths that fit, and end marks. *)
Fixpoint wf_attr (a : attr) : bool :=
  let fix wf_list (l : list attr) : bool :=
    match l with [] => false | a :: l => if alen a <? 0 then true else wf_attr a && wf_list l end in
  let '(Attr t d n sub) := a in
  (0 <=? t) && (t <? 65536) && (0 <=? n) && (n <=? len d) && (n <=? 65531) && (len (enc_attr a) <=? 65535)
  && match sub with None => true | Some l => wf_list l end.
Fixpoint wf_list (l : list attr) : bool :=
  match l with [] => false | a :: l => if alen a <? 0 then true else wf_attr a && wf_list l end.

Section AttrInd.
Context (P : attr -> Prop) (Hnone : forall t d n, P (Attr t d n None)) (Hsome : forall t d n l, Forall P l -> P (Attr t d n (Some l))).
Fixpoint attr_ind' (a : attr) : P a :=
  match a with
  | Attr t d n None => Hnone t d n
  | Attr t d n (Some l) => Hsome t d n l
      ((fix go (l : list attr) : Forall P l :=
          match l with [] => Forall_nil_2 P | a :: l => Forall_cons_2 P a l (attr_ind' a) (go l) end) l)
  end.
End AttrInd.

Lemma enc_attr_eq a : enc_attr a = rta_bytes (let '(Attr t _ _ _) := a in t) (attr_body a).
Proof.
  destruct a as [t d n [l|]]; [|done].
  apply (f_equal (fun L => rta_bytes t (join (take (Z.to_nat n) d :: L)))).
  induction l as [|a l IH]; [done|]. cbn [live]. destruct (alen a <? 0); [done|]. cbn [fmap list_fmap]. f_equal. exact IH.
Qed.

Lemma wf_attr_eq t d n sub : wf_attr (Attr t d n sub) = true <->
  0 <= t < 65536 /\ 0 <= n <= 65531 /\ n <= len d /\ len (enc_attr (Attr t d n sub)) <= 65535
  /\ match sub with None => True | Some l => wf_list l = true end.
Proof.
  cbn [wf_attr]. rewrite !Bool.andb_true_iff, !Z.leb_le, Z.ltb_lt.
  replace (match sub with None => true | Some l => _ l end) with (match sub with None => true | Some l => wf_list l end).
  - destruct sub; intuition lia.
  - destruct sub as [l|]; [|done]. induction l as [|a l IH]; [done|]. cbn. by case_match; [|rewrite IH].
Qed.

(** *** Alignment *)
Lemma align_eq x : 0 <= x < 2 ^ 32 - 3 -> NLMSG_ALIGN x = (x + 3) / 4 * 4.
Proof.
  intros Hx. unfold NLMSG_ALIGN. change 0xfffffffc with (Z.shiftl (Z.ones 30) 2).
  replace ((x + 3) / 4 * 4) with (Z.shiftl (Z.shiftr (x + 3) 2) 2)
    by (rewrite Z.shiftl_mul_pow2, Z.shiftr_div_pow2 by lia; done).
  apply Z.bits_inj'. intros n Hn. rewrite Z.land_spec. destruct (Z.lt_ge_cases n 2).
  - rewrite !Z.shiftl_spec_low by lia. apply Bool.andb_false_r.
  - rewrite !Z.shiftl_spec, Z.shiftr_spec by lia. replace (n - 2 + 2) with n by lia.
    destruct (Z.lt_ge_cases n 32).
    + rewrite Z.ones_spec_low by lia. apply Bool.andb_true_r.
    + rewrite Z.ones_spec_high by lia. rewrite <-(Z.mod_small (x + 3) (2 ^ 32)), Z.mod_pow2_bits_high by lia. done.
Qed.

Lemma align_bounds x : 0 <= x < 2 ^ 32 - 3 -> x <= NLMSG_ALIGN x < x + 4 /\ NLMSG_ALIGN x mod 4 = 0.
Proof. intros Hx. rewrite align_eq by done. split; [Z.to_euclidean_division_equations; lia|]. by apply Z.mod_mul. Qed.

Lemma align_id x : 0 <= x < 2 ^ 32 - 3 -> x mod 4 = 0 -> NLMSG_ALIGN x = x.
Proof. intros Hx H. rewrite align_eq by done. Z.to_euclidean_division_equations; lia. Qed.

Lemma align_add x y : 0 <= x -> 0 <= y -> x + y < 2 ^ 32 - 3 -> x mod 4 = 0 -> NLMSG_ALIGN (x + y) = x + NLMSG_ALIGN y.
Proof. intros ? ? ? H. rewrite !align_eq by lia. Z.to_euclidean_division_equations; lia. Qed.

(** *** Lengths *)
Lemma length_hdr h : length (hdr_bytes h) = 16%nat.
Proof. done. Qed.
Lemma len_hdr h : len (hdr_bytes h) = 16.
Proof. done. Qed.


Lemma len_pad l : len (pad l) = len l + - len l mod 4.
Proof. unfold pad. rewrite len_app, len_zeros; [done|]. apply Z.mod_pos_bound. lia. Qed.

Lemma pad_mod l : len (pad l) mod 4 = 0.
Proof. rewrite len_pad. Z.to_euclidean_division_equations; lia. Qed.

Lemma align_pad l : len l < 2 ^ 32 - 3 -> NLMSG_ALIGN (len l) = len (pad l).
Proof. intros Hl. pose proof (len_nonneg l). rewrite align_eq, len_pad by lia. Z.to_euclidean_division_equations; lia. Qed.

Lemma pad_app x y : len x mod 4 = 0 -> pad (x ++ y) = x ++ pad y.
Proof. intros Hx. unfold pad. rewrite len_app, <-app_assoc. do 3 f_equal. Z.to_euclidean_division_equations; lia. Qed.

Lemma pad_id x : len x mod 4 = 0 -> pad x = x.
Proof. intros Hx. unfold pad. replace (- len x mod 4) with 0; [apply app_nil_r|]. Z.to_euclidean_division_equations; lia. Qed.

Lemma len_pad_bounds l : len l <= len (pad l) < len l + 4.
Proof. rewrite len_pad. pose proof (Z.mod_pos_bound (- len l) 4). lia. Qed.

Lemma join_cons x l : l <> [] -> join (x :: l) = pad x ++ join l.
Proof. by destruct l. Qed.

Lemma join_snoc l x : join (l ++ [x]) = pad (join l) ++ x.
Proof.
  induction l as [|y l IH]; [done|]. destruct l as [|z l]; [done|].
  rewrite <-app_comm_cons, join_cons by (by destruct l). rewrite IH, (join_cons y (z :: l)) by done.
  rewrite pad_app, app_assoc by apply pad_mod. done.
Qed.

Lemma join_join x l l' : join (join (x :: l) :: l') = join (x :: l ++ l').
Proof.
  induction l' as [|y l' IH] using rev_ind; [by rewrite app_nil_r|].
  change (join (x :: l) :: l' ++ [y]) with ((join (x :: l) :: l') ++ [y]). rewrite join_snoc, IH, app_assoc.
  change (x :: (l ++ l') ++ [y]) with ((x :: l ++ l') ++ [y]). by rewrite join_snoc.
Qed.

(** A header in front does not move the padding. *)
Lemma join_front h x l : len h mod 4 = 0 -> join ((h ++ x) :: l) = h ++ join (x :: l).
Proof. intros Hh. destruct l as [|y l]; [done|]. rewrite !(join_cons _ (y :: l)) by done. by rewrite pad_app, app_assoc by done. Qed.

(** *** Reading and writing *)




Record hdr_ok (h : nlmsghdr) : Prop := {
  ok_len : 0 <= nlmsg_len h < 2 ^ 32; ok_type : 0 <= nlmsg_type h < 2 ^ 16; ok_flags : 0 <= nlmsg_flags h < 2 ^ 16;
  ok_seq : 0 <= nlmsg_seq h < 2 ^ 32; ok_pid : 0 <= nlmsg_pid h < 2 ^ 32 }.

Lemma hdr_of_bytes h : hdr_ok h -> hdr_of (hdr_bytes h) = h.
Proof.
  intros [H1 H2 H3 H4 H5]. destruct h as [l t f s p]. cbn [nlmsg_len nlmsg_type nlmsg_flags nlmsg_seq nlmsg_pid] in *.
  unfold hdr_of. f_equal.
  - transitivity (unle (le 4 l)); [done|apply unle_le; done].
  - transitivity (unle (le 2 t)); [done|apply unle_le; done].
  - transitivity (unle (le 2 f)); [done|apply unle_le; done].
  - transitivity (unle (le 4 s)); [done|apply unle_le; done].
  - transitivity (unle (le 4 p)); [done|apply unle_le; done].
Qed.

Lemma get_hdr_at pre h post : hdr_ok h -> get_hdr (len pre) (pre ++ hdr_bytes h ++ post) = Ok h.
Proof.
  intros Hh. unfold get_hdr. change 16 with (len (hdr_bytes h)). rewrite get_at. cbn [mbind res_bind]. by rewrite hdr_of_bytes.
Qed.

(** ** The buffer while messages are built *)

Definition set_len (h : nlmsghdr) (l : Z) : nlmsghdr := mkHdr l (nlmsg_type h) (nlmsg_flags h) (nlmsg_seq h) (nlmsg_pid h).
Definition message (h : nlmsghdr) (body : list Z) : list Z := hdr_bytes (set_len h (16 + len body)) ++ body.

(** The buffer holds [pre], the current message and zeros. *)
Record holds (c : tst_rtnl_context) (pre : list Z) (h : nlmsghdr) (body : list Z) (k : Z) : Prop := {
  h_buf : buffer c = pre ++ message h body ++ zeros k;
  h_k : 0 <= k;
  h_pre : len pre mod 4 = 0;
  h_cur : curmsg c = Some (len pre);
  h_data : datalen c = len pre + 16 + len body;
  h_size : bufsize c = len (buffer c);
  h_mod : bufsize c mod 4 = 0;
  h_small : bufsize c < 2 ^ 30;
  h_hdr : hdr_ok (set_len h 0)
}.

(** The code goes on, or [realloc] failed. *)
Definition succeeds {A} (m : M A) (P : A -> Prop) : Prop :=
  match m with Ok a => P a | Err e => e = ReallocFailed | Fault => False end.

Lemma succeeds_bind {A B} (m : M A) (k : A -> M B) P Q :
  succeeds m P -> (forall a, P a -> succeeds (k a) Q) -> succeeds (m ≫= k) Q.
Proof. destruct m; simpl; auto. Qed.
Lemma succeeds_mono {A} (m : M A) (P Q : A -> Prop) : succeeds m P -> (forall a, P a -> Q a) -> succeeds m Q.
Proof. destruct m; simpl; auto. Qed.


Lemma len_message h body : len (message h body) = 16 + len body.
Proof. unfold message. by rewrite len_app, len_hdr. Qed.

Lemma holds_len c pre h body k : holds c pre h body k -> bufsize c = len pre + 16 + len body + k.
Proof. intros H. rewrite (h_size _ _ _ _ _ H), (h_buf _ _ _ _ _ H), !len_app, len_message, len_zeros by apply H. lia. Qed.

Lemma holds_align c pre h body k : holds c pre h body k ->
  NLMSG_ALIGN (datalen c) = len pre + 16 + len (pad body) /\ len pre + 16 + len (pad body) <= bufsize c.
Proof.
  intros H. pose proof (holds_len _ _ _ _ _ H). pose proof (h_small _ _ _ _ _ H). pose proof (h_k _ _ _ _ _ H).
  pose proof (h_mod _ _ _ _ _ H). pose proof (h_pre _ _ _ _ _ H). pose proof (len_nonneg pre). pose proof (len_nonneg body).
  pose proof (len_pad body). rewrite (h_data _ _ _ _ _ H). split.
  - rewrite <-align_pad by lia. apply align_add; [lia..|]. Z.to_euclidean_division_equations; lia.
  - Z.to_euclidean_division_equations; lia.
Qed.

Lemma get_len pre h body post : 16 + len body < 2 ^ 32 -> get_u (len pre) 4 (pre ++ message h body ++ post) = Ok (E := rtnl_error) (16 + len body).
Proof.
  intros Hl. pose proof (len_nonneg body). unfold message, hdr_bytes. rewrite <-!app_assoc. apply (get_u_at pre 4). cbn. lia.
Qed.

Lemma put_len pre h l l' post :
  put (len pre) (le 4 l') (pre ++ hdr_bytes (set_len h l) ++ post) = Ok (E := rtnl_error) (pre ++ hdr_bytes (set_len h l') ++ post).
Proof. unfold hdr_bytes. rewrite <-!app_assoc. apply put_at. by rewrite !len_le. Qed.



(** The same buffer with another body. *)
Lemma holds_body c c' pre h body k body' k' : holds c pre h body k ->
  buffer c' = pre ++ message h body' ++ zeros k' -> 0 <= k' -> len body' + k' = len body + k ->
  bufsize c' = bufsize c -> datalen c' = len pre + 16 + len body' -> curmsg c' = Some (len pre) -> holds c' pre h body' k'.
Proof.
  intros H Hb Hk Hl Hs Hd Hc. pose proof (holds_len _ _ _ _ _ H). destruct H. constructor; try done; try congruence.
  rewrite Hs, Hb, !len_app, len_message, len_zeros by lia. lia.
Qed.

Section Building.
Context (limit : Z) (Hlimit : limit < 2 ^ 30).

Lemma grow_holds c pre h body k size : holds c pre h body k -> 0 <= size < 2 ^ 30 ->
  succeeds (tst_rtnl_grow_buffer limit c size) (fun c' => exists k', holds c' pre h body k' /\
    NLMSG_ALIGN (datalen c) + size <= bufsize c' /\ datalen c' = datalen c /\ seq c' = seq c /\ pid c' = pid c).
Proof.
  intros H Hs. destruct (holds_align _ _ _ _ _ H) as [Ha Hle]. pose proof (holds_len _ _ _ _ _ H) as Hlen.
  pose proof (h_small _ _ _ _ _ H). pose proof (h_k _ _ _ _ _ H). pose proof (len_nonneg pre). pose proof (len_nonneg (pad body)).
  unfold tst_rtnl_grow_buffer. rewrite Ha. set (a := len pre + 16 + len (pad body)) in *. rewrite (wrap_u_id 64 (bufsize c - a)) by lia.
  destruct (Z.leb_spec size (bufsize c - a)).
  { exists k. split; [done|]. split; [lia|done]. }
  rewrite (wrap_u_id 64 (size - _)) by lia.
  set (n := if size - (bufsize c - a) <? bufsize c then bufsize c else size - (bufsize c - a)).
  assert (Hn : size - (bufsize c - a) <= n < 2 ^ 30 /\ 0 <= n) by (unfold n; case_match; lia).
  destruct (align_bounds (bufsize c + n)) as [Hb Hm]; [lia|]. rewrite wrap_u_id by lia.
  destruct (Z.ltb_spec limit (NLMSG_ALIGN (bufsize c + n))); [done|].
  rewrite (proj2 (Z.ltb_ge _ _)) by lia. rewrite (h_cur _ _ _ _ _ H). cbn [succeeds].
  exists (k + (NLMSG_ALIGN (bufsize c + n) - bufsize c)).
  split; [|cbn; split; [lia|done]]. set (s := NLMSG_ALIGN (bufsize c + n)) in *.
  pose proof H as []. constructor; cbn [buffer bufsize curmsg datalen]; try done; try lia.
  - rewrite h_buf0, (zeros_split k (k + (s - bufsize c))) by lia.
    replace (k + (s - bufsize c) - k) with (s - bufsize c) by lia. by rewrite <-!app_assoc.
  - rewrite len_app, <-h_size0, len_zeros by lia. lia.
Qed.

Lemma rta_split n pre h body k : 0 <= n -> RTA_LENGTH n + len (pad body) <= len body + k ->
  pre ++ message h body ++ zeros k =
  (pre ++ hdr_bytes (set_len h (16 + len body)) ++ pad body) ++ zeros 4 ++ zeros n ++ zeros (len body + k - len (pad body) - 4 - n).
Proof.
  intros Hn Hk. unfold RTA_LENGTH in Hk. unfold message, pad at 1. pose proof (len_pad body). pose proof (Z.mod_pos_bound (- len body) 4).
  rewrite (zeros_split (- len body mod 4) k), (zeros_split 4 (k - _)), (zeros_split n (k - _ - 4)) by lia.
  rewrite <-!app_assoc. do 8 f_equal. lia.
Qed.

Lemma add_attr_holds c pre h body k t d n : holds c pre h body k ->
  0 <= t < 2 ^ 16 -> 0 <= n <= 65531 -> n <= len d ->
  succeeds (tst_rtnl_add_attr limit c t d n) (fun c' => exists k',
    holds c' pre h (join [body; rta_bytes t (take (Z.to_nat n) d)]) k' /\ seq c' = seq c /\ pid c' = pid c).
Proof.
  intros H Ht Hn Hd. unfold tst_rtnl_add_attr. rewrite (h_cur _ _ _ _ _ H).
  assert (Hr : RTA_LENGTH n <= RTA_SPACE n < 2 ^ 30).
  { unfold RTA_SPACE, RTA_LENGTH. destruct (align_bounds (4 + n)); lia. }
  eapply succeeds_bind; [apply (grow_holds c pre h body k); [done|unfold RTA_LENGTH in Hr; lia]|].
  intros c1 (k1 & H1 & Hs & Hdat & Hseq & Hpid). destruct (holds_align _ _ _ _ _ H) as [Ha _]. rewrite Hdat, Ha. rewrite Ha in Hs.
  pose proof (holds_len _ _ _ _ _ H1) as Hlen. pose proof (h_small _ _ _ _ _ H1). pose proof (h_k _ _ _ _ _ H1).
  pose proof (len_nonneg pre). pose proof (len_nonneg body). pose proof (len_pad_bounds body).
  rewrite (h_buf _ _ _ _ _ H1), (wrap_u_id 16) by (unfold RTA_LENGTH; lia).
  rewrite get_len by lia. cbn [mbind res_bind]. rewrite (align_add 16), align_pad by (done || lia).
  rewrite (rta_split n) by (unfold RTA_LENGTH in *; lia). set (P := pre ++ _ ++ pad body).
  assert (HP : len P = len pre + (16 + len (pad body))) by (unfold P; rewrite !len_app, len_hdr; lia). rewrite <-HP.
  rewrite put_at by (rewrite len_app, !len_le, len_zeros by lia; done). cbn [mbind res_bind].
  rewrite get_prefix by lia. cbn [mbind res_bind]. set (d' := take (Z.to_nat n) d).
  assert (Hd' : len d' = n) by (apply len_take; lia).
  replace (len P + 4) with (len (P ++ le 2 (RTA_LENGTH n) ++ le 2 t)) by (rewrite !len_app, !len_le; lia).
  rewrite (app_assoc P (le 2 _ ++ le 2 t)), put_at by (rewrite len_zeros; lia). cbn [mbind res_bind].
  unfold P. rewrite <-!app_assoc, put_len. cbn [mbind res_bind succeeds].
  assert (Hj : len (join [body; rta_bytes t d']) = len (pad body) + RTA_LENGTH n).
  { cbn [join]. unfold rta_bytes. rewrite !len_app, !len_le, Hd'. unfold RTA_LENGTH. lia. }
  unfold RTA_LENGTH in *. exists (len body + k1 - len (pad body) - 4 - n).
  split; [eapply holds_body; [exact H1|..]|cbn; by rewrite Hseq, Hpid]; cbn [buffer bufsize datalen curmsg]; try done; try lia.
  unfold message. rewrite Hj. cbn [join]. unfold rta_bytes. rewrite Hd'. rewrite <-!app_assoc, ?Z.add_assoc. reflexivity.
Qed.

(** The length of an attribute, once its sublist is there. *)
Lemma patch_len c pre h body l t B k : holds c pre h ((pad body ++ le 2 l ++ le 2 t) ++ B) k -> len (rta_bytes t B) <= 65535 ->
  let offset := len pre + 16 + len (pad body) in
  exists c', (let n := wrap_u 64 (datalen c - offset) in
    if USHRT_MAX <? n then Err SublistTooLong else buf ← put offset (le 2 n) (buffer c); Ok (set_buf c buf)) = Ok c'
    /\ holds c' pre h (join [body; rta_bytes t B]) k /\ seq c' = seq c /\ pid c' = pid c.
Proof.
  intros H Hl offset. pose proof (len_nonneg B). unfold rta_bytes, RTA_LENGTH in Hl. rewrite !len_app, !len_le in Hl.
  rewrite (h_data _ _ _ _ _ H), !len_app, !len_le. replace (_ - offset) with (4 + len B) by (unfold offset; lia).
  rewrite wrap_u_id by lia. cbn zeta. rewrite (proj2 (Z.ltb_ge USHRT_MAX (4 + len B))) by (unfold USHRT_MAX; lia).
  set (hb := hdr_bytes (set_len h (16 + len ((pad body ++ le 2 l ++ le 2 t) ++ B)))).
  assert (Eb : buffer c = (pre ++ hb ++ pad body) ++ le 2 l ++ (le 2 t ++ B ++ zeros k)).
  { rewrite (h_buf _ _ _ _ _ H). unfold message. fold hb. by rewrite <-!app_assoc. }
  rewrite Eb. replace offset with (len (pre ++ hb ++ pad body)) by (unfold hb; rewrite !len_app, len_hdr; lia).
  rewrite put_at by (by rewrite !len_le). cbn [mbind res_bind]. eexists. split; [done|]. split; [|done].
  eapply holds_body; [exact H|..]; cbn [set_buf buffer bufsize datalen curmsg]; try done.
  - unfold message, hb. replace (len (join _)) with (len ((pad body ++ le 2 l ++ le 2 t) ++ B)).
    + cbn [join]. unfold rta_bytes. by rewrite <-!app_assoc.
    + cbn [join]. unfold rta_bytes. rewrite !len_app, !len_le. lia.
  - apply H.
  - cbn [join]. unfold rta_bytes. rewrite !len_app, !len_le. lia.
  - rewrite (h_data _ _ _ _ _ H). cbn [join]. unfold rta_bytes. rewrite !len_app, !len_le. lia.
  - apply H.
Qed.

(** What adding an attribute, and a list of them, does to the body. *)
Definition adds_one (a : attr) : Prop := forall c pre h body k, wf_attr a = true -> holds c pre h body k ->
  succeeds (add_attr_one limit c a) (fun c' => exists k', holds c' pre h (join [body; enc_attr a]) k' /\ seq c' = seq c /\ pid c' = pid c).

Lemma add_list_holds l : Forall adds_one l -> forall c pre h body k i, wf_list l = true -> holds c pre h body k ->
  succeeds (add_each (add_attr_one limit) c l i) (fun r => exists k',
    holds r.1 pre h (join (body :: (enc_attr <$> live l))) k' /\ seq r.1 = seq c /\ pid r.1 = pid c /\ r.2 = i + Z.of_nat (length (live l))).
Proof.
  induction 1 as [|a l Ha _ IH]; intros c pre h body k i Hw H; cbn [live wf_list add_each] in *; [done|].
  change (let '(Attr _ _ n _) := a in n) with (alen a). destruct (Z.ltb_spec (alen a) 0).
  { exists k. cbn. rewrite Z.add_0_r. done. }
  apply Bool.andb_true_iff in Hw as [Hwa Hwl]. eapply succeeds_bind; [by eapply Ha|].
  intros c1 (k1 & H1 & Hs1 & Hp1). eapply succeeds_mono; [by eapply IH|].
  intros [c2 n] (k2 & H2 & Hs2 & Hp2 & Hn). exists k2. cbn [fst snd] in *. rewrite join_join in H2.
  split; [exact H2|]. rewrite Hs2, Hp2, Hn. cbn [length]. split; [done|]. split; [done|lia].
Qed.

Lemma add_one_holds a : adds_one a.
Proof.
  induction a as [t d n|t d n l IH] using attr_ind'; intros c pre h body k Hw H; apply wf_attr_eq in Hw as (Ht & Hn & Hd & Hl & Hs);
    cbn [add_attr_one]; rewrite (proj2 (Z.ltb_ge USHRT_MAX n)) by (unfold USHRT_MAX; lia).
  - eapply succeeds_bind; [by apply (add_attr_holds c pre h body k)|]. intros c1 H1. exact H1.
  - destruct (holds_align _ _ _ _ _ H) as [-> _].
    eapply succeeds_bind; [by apply (add_attr_holds c pre h body k)|]. intros c1 (k1 & H1 & Hs1 & Hp1).
    eapply succeeds_bind; [by eapply add_list_holds|]. intros [c2 m] (k2 & H2 & Hs2 & Hp2 & _). cbn [fst snd] in *.
    rewrite enc_attr_eq in Hl |- *. set (B := attr_body _) in *. set (enc := enc_attr <$> live l) in *. set (d' := take (Z.to_nat n) d) in *.
    assert (E : join (join [body; rta_bytes t d'] :: enc) = (pad body ++ le 2 (RTA_LENGTH (len d')) ++ le 2 t) ++ B).
    { change (join [body; rta_bytes t d']) with (pad body ++ (le 2 (RTA_LENGTH (len d')) ++ le 2 t ++ d')). rewrite !app_assoc.
      rewrite <-(app_assoc (pad body)). apply join_front. rewrite !len_app, !len_le.
      pose proof (pad_mod body). Z.to_euclidean_division_equations; lia. }
    rewrite E in H2. clear E. destruct (patch_len _ _ _ _ _ _ _ _ H2 Hl) as (c3 & E3 & H3 & Hs3 & Hp3). cbn zeta in E3 |- *. rewrite E3.
    exists k2. split; [exact H3|]. rewrite Hs3, Hp3, Hs2, Hp2. done.
Qed.

(** ** Messages *)

Definition multi (h : nlmsghdr) : nlmsghdr := mkHdr (nlmsg_len h) (nlmsg_type h) (Z.lor (nlmsg_flags h) NLM_F_MULTI) (nlmsg_seq h) (nlmsg_pid h).
(** The header a message gets from the context. *)
Definition stamp (h : nlmsghdr) (s p : Z) : nlmsghdr := mkHdr 0 (nlmsg_type h) (nlmsg_flags h) s p.

Lemma lor_range n a b : 0 <= n -> 0 <= a < 2 ^ n -> 0 <= b < 2 ^ n -> 0 <= Z.lor a b < 2 ^ n.
Proof.
  intros Hn Ha Hb. assert (E : Z.lor a b = Z.lor a b mod 2 ^ n); [|rewrite E; by apply Z.mod_pos_bound, Z.pow_pos_nonneg].
  apply Z.bits_inj'. intros k Hk. destruct (Z.lt_ge_cases k n); [by rewrite Z.mod_pow2_bits_low|].
  rewrite Z.mod_pow2_bits_high, Z.lor_spec by lia.
  rewrite <-(Z.mod_small a (2 ^ n)), <-(Z.mod_small b (2 ^ n)), !Z.mod_pow2_bits_high by lia. done.
Qed.

Lemma hdr_ok_len h l l' : hdr_ok (set_len h l) -> 0 <= l' < 2 ^ 32 -> hdr_ok (set_len h l').
Proof. intros [] Hl. by constructor. Qed.
Lemma hdr_ok_multi h l : hdr_ok (set_len h l) -> hdr_ok (set_len (multi h) l).
Proof. intros []. constructor; try done. apply (lor_range 16); [lia|done|done]. Qed.

(** Writing a message into zeros. *)
Lemma write_message pre h payload k : 16 + len payload <= k ->
  (buf ← put (len pre) (hdr_bytes h) (pre ++ zeros k); put (len pre + NLMSG_HDRLEN) payload buf)
  = Ok (E := rtnl_error) (pre ++ (hdr_bytes h ++ payload) ++ zeros (k - 16 - len payload)).
Proof.
  intros Hk. pose proof (len_nonneg payload).
  rewrite (zeros_split 16 k), (zeros_split (len payload) (k - 16)) by lia.
  rewrite put_at by (by rewrite len_hdr, len_zeros). cbn [mbind res_bind].
  replace (len pre + NLMSG_HDRLEN) with (len (pre ++ hdr_bytes h)) by (rewrite len_app, len_hdr; done).
  rewrite (app_assoc pre), put_at by (by rewrite len_zeros). f_equal. by rewrite <-!app_assoc.
Qed.

Lemma put_flags pre h f post :
  put (len pre + 6) (le 2 f) (pre ++ hdr_bytes h ++ post)
  = Ok (E := rtnl_error) (pre ++ hdr_bytes (mkHdr (nlmsg_len h) (nlmsg_type h) f (nlmsg_seq h) (nlmsg_pid h)) ++ post).
Proof.
  assert (E : forall g, pre ++ hdr_bytes (mkHdr (nlmsg_len h) (nlmsg_type h) g (nlmsg_seq h) (nlmsg_pid h)) ++ post
    = (pre ++ le 4 (nlmsg_len h) ++ le 2 (nlmsg_type h)) ++ le 2 g ++ (le 4 (nlmsg_seq h) ++ le 4 (nlmsg_pid h) ++ post)).
  { intros g. unfold hdr_bytes. cbn [nlmsg_len nlmsg_type nlmsg_flags nlmsg_seq nlmsg_pid]. by rewrite <-!app_assoc. }
  rewrite E. replace (hdr_bytes h) with (hdr_bytes (mkHdr (nlmsg_len h) (nlmsg_type h) (nlmsg_flags h) (nlmsg_seq h) (nlmsg_pid h))) by (by destruct h).
  rewrite E, <-put_at with (old := le 2 (nlmsg_flags h)) by (by rewrite !len_le). f_equal. rewrite !len_app, !len_le. lia.
Qed.

Lemma set_multi c pre h body k : holds c pre h body k ->
  get_hdr (len pre) (buffer c) = Ok (set_len h (16 + len body)) /\
  put (len pre + 6) (le 2 (Z.lor (nlmsg_flags h) NLM_F_MULTI)) (buffer c) = Ok (E := rtnl_error) (pre ++ message (multi h) body ++ zeros k).
Proof.
  intros H. pose proof (holds_len _ _ _ _ _ H). pose proof (h_small _ _ _ _ _ H). pose proof (h_k _ _ _ _ _ H).
  pose proof (len_nonneg pre). pose proof (len_nonneg body). rewrite (h_buf _ _ _ _ _ H). unfold message. rewrite <-!app_assoc. split.
  - apply get_hdr_at. eapply hdr_ok_len; [apply H|lia].
  - apply put_flags.
Qed.

Lemma space_bounds n : 0 <= n < 2 ^ 29 -> 16 + n <= NLMSG_SPACE n < n + 20 /\ NLMSG_SPACE n < 2 ^ 30.
Proof. intros Hn. unfold NLMSG_SPACE, NLMSG_LENGTH, NLMSG_HDRLEN. destruct (align_bounds (n + 16)); lia. Qed.

(** The first message of a context. *)
Lemma add_first p s h payload : hdr_ok (stamp h s p) -> len payload <= 1008 ->
  exists c', tst_rtnl_add_message limit (mkCtx p s 1024 0 (zeros 1024) None) h payload = Ok c' /\
    holds c' [] (stamp h s p) payload (1008 - len payload) /\ seq c' = wrap_u 32 (s + 1) /\ pid c' = p.
Proof.
  intros Hh Hl. pose proof (len_nonneg payload). destruct (align_bounds (len payload + 16)) as [Ha Hm]; [lia|].
  assert (Hsp : NLMSG_SPACE (len payload) <= 1024).
  { unfold NLMSG_SPACE, NLMSG_LENGTH, NLMSG_HDRLEN. rewrite align_eq by lia. Z.to_euclidean_division_equations; lia. }
  unfold tst_rtnl_add_message, tst_rtnl_grow_buffer. cbn [datalen bufsize]. change (NLMSG_ALIGN 0) with 0.
  rewrite (wrap_u_id 64), (proj2 (Z.leb_le (NLMSG_SPACE (len payload)) (1024 - 0))) by lia. cbn [mbind res_bind curmsg buffer seq pid bufsize].
  unfold NLMSG_LENGTH, NLMSG_HDRLEN. rewrite (wrap_u_id 32 (len payload + 16)), Z.lor_0_r by lia.
  set (hd := mkHdr _ _ _ _ _). pose proof (write_message [] hd payload 1024 ltac:(lia)) as W.
  change (len []) with 0 in W. cbn [app] in W. unfold NLMSG_HDRLEN in W. cbn [mbind res_bind] in *.
  destruct (put 0 (hdr_bytes hd) (zeros 1024)) as [buf| |]; [|done..]. cbn [mbind res_bind] in *. rewrite W. cbn [mbind res_bind].
  eexists. split; [done|]. split; [|done]. replace (1024 - 16 - len payload) with (1008 - len payload) by lia.
  constructor; cbn [buffer bufsize curmsg datalen]; try done; try lia.
  - unfold message. replace (set_len (stamp h s p) (16 + len payload)) with hd; [done|]. unfold hd, set_len. cbn. f_equal. lia.
  - unfold hd. cbn [nlmsg_len]. change (len []) with 0. lia.
  - rewrite !len_app, len_hdr, len_zeros by lia. lia.
Qed.

(** A further message: the one before becomes part of a multipart message. *)
Lemma add_next c pre h0 body k h payload : holds c pre h0 body k -> hdr_ok (stamp h (seq c) (pid c)) -> len payload < 2 ^ 29 ->
  succeeds (tst_rtnl_add_message limit c h payload) (fun c' => exists k',
    holds c' (pre ++ pad (message (multi h0) body)) (multi (stamp h (seq c) (pid c))) payload k'
    /\ seq c' = wrap_u 32 (seq c + 1) /\ pid c' = pid c).
Proof.
  intros H Hh Hl. pose proof (len_nonneg payload). destruct (space_bounds (len payload)) as [Hsp Hsp']; [lia|].
  unfold tst_rtnl_add_message. eapply succeeds_bind; [apply (grow_holds c pre h0 body k); [done|lia]|].
  intros c1 (k1 & H1 & Hs & Hdat & Hseq & Hpid). destruct (holds_align _ _ _ _ _ H) as [Ha _]. rewrite (h_cur _ _ _ _ _ H1).
  destruct (set_multi _ _ _ _ _ H1) as [-> Hput]. cbn [mbind res_bind set_len nlmsg_flags nlmsg_len]. rewrite Hput. cbn [mbind res_bind].
  rewrite Hdat, Ha, Hseq, Hpid. rewrite Ha in Hs. pose proof (holds_len _ _ _ _ _ H1) as Hlen. pose proof (h_small _ _ _ _ _ H1).
  pose proof (h_k _ _ _ _ _ H1). pose proof (len_nonneg pre). pose proof (len_nonneg body). pose proof (len_pad_bounds body).
  rewrite (align_add 16), align_pad by (done || lia). set (msg := message (multi h0) body).
  assert (Hmsg : pre ++ msg ++ zeros k1 = (pre ++ pad msg) ++ zeros (len body + k1 - len (pad body))).
  { assert (E : pad msg = msg ++ zeros (- len body mod 4)).
    { unfold pad. do 2 f_equal. unfold msg. rewrite len_message. Z.to_euclidean_division_equations; lia. }
    pose proof (len_pad body). pose proof (Z.mod_pos_bound (- len body) 4). rewrite E, (zeros_split (- len body mod 4) k1) by lia.
    replace (len body + k1 - len (pad body)) with (k1 - - len body mod 4) by lia. by rewrite <-!app_assoc. }
  rewrite Hmsg. clear Hmsg. assert (Hp : len (pre ++ pad msg) = len pre + (16 + len (pad body))).
  { rewrite len_app, !len_pad. unfold msg. rewrite len_message. Z.to_euclidean_division_equations; lia. }
  rewrite <-Hp. unfold NLMSG_LENGTH, NLMSG_HDRLEN. rewrite (wrap_u_id 32 (len payload + 16)) by lia.
  set (hd := mkHdr _ _ _ _ _). set (k2 := len body + k1 - len (pad body)).
  assert (Hk2 : 16 + len payload <= k2) by (unfold k2; lia).
  pose proof (write_message (pre ++ pad msg) hd payload k2 Hk2) as Hw. unfold NLMSG_HDRLEN in Hw.
  destruct (put (len (pre ++ pad msg)) (hdr_bytes hd) _) as [buf| |]; [|done..]. cbn [mbind res_bind] in *. rewrite Hw. cbn [mbind res_bind succeeds].
  exists (k2 - 16 - len payload). split; [|done].
  assert (Ehd : hd = set_len (multi (stamp h (seq c) (pid c))) (16 + len payload)) by (unfold hd, set_len; cbn; f_equal; lia).
  constructor; cbn [buffer bufsize curmsg datalen]; try done; try lia.
  - unfold message at 1. by rewrite <-Ehd.
  - rewrite len_app. pose proof (h_pre _ _ _ _ _ H). pose proof (pad_mod msg). Z.to_euclidean_division_equations; lia.
  - rewrite !len_app, len_hdr, len_zeros by lia. rewrite len_app in Hp. unfold k2. lia.
  - apply H1.
  - apply hdr_ok_multi. exact Hh.
Qed.

(** ** Requests *)

(** A message with its attributes, as the callers build it. *)
Record request : Set := mkReq { r_header : nlmsghdr; r_payload : list Z; r_attrs : list attr }.

Definition add_request (c : tst_rtnl_context) (r : request) : M tst_rtnl_context :=
  c ← tst_rtnl_add_message limit c (r_header r) (r_payload r); '(c, _) ← tst_rtnl_add_attr_list limit c (r_attrs r); Ok c.
Fixpoint add_requests (c : tst_rtnl_context) (l : list request) : M tst_rtnl_context :=
  match l with [] => Ok c | r :: l => c ← add_request c r; add_requests c l end.

(** What is sent: headers and bodies. *)
Definition body_of (r : request) : list Z := join (r_payload r :: (enc_attr <$> live (r_attrs r))).
Fixpoint stamped (f : nlmsghdr -> nlmsghdr) (s : Z) (l : list request) : list (nlmsghdr * list Z) :=
  match l with [] => [] | r :: l => (f (stamp (r_header r) s 0), body_of r) :: stamped f (s + 1) l end.
Definition sent (l : list request) : list (nlmsghdr * list Z) :=
  match l with
  | [_] => stamped (fun h => h) 0 l
  | _ => stamped multi 0 l ++ [(mkHdr 0 NLMSG_DONE 0 (Z.of_nat (length l)) 0, [])]
  end.
Definition stream (l : list (nlmsghdr * list Z)) : list Z := join ((fun m => message m.1 m.2) <$> l).

(** A request that can be sent: fields that fit and no flag for multipart. *)
Definition wf_request (r : request) : bool :=
  let h := r_header r in
  (0 <=? nlmsg_type h) && (nlmsg_type h <? 65536) && (0 <=? nlmsg_flags h) && (nlmsg_flags h <? 65536)
  && (Z.land (nlmsg_flags h) NLM_F_MULTI =? 0) && (len (r_payload r) <? 2 ^ 29) && wf_list (r_attrs r).

Lemma wf_request_iff r : wf_request r = true <->
  (0 <= nlmsg_type (r_header r) < 65536 /\ 0 <= nlmsg_flags (r_header r) < 65536)
  /\ Z.land (nlmsg_flags (r_header r)) NLM_F_MULTI = 0 /\ len (r_payload r) < 2 ^ 29 /\ wf_list (r_attrs r) = true.
Proof. unfold wf_request. rewrite !Bool.andb_true_iff, !Z.leb_le, !Z.ltb_lt, Z.eqb_eq. tauto. Qed.

Lemma wf_stamp r s : wf_request r = true -> 0 <= s < 2 ^ 32 -> hdr_ok (stamp (r_header r) s 0).
Proof. rewrite wf_request_iff. intros (? & _) Hs. constructor; cbn; lia. Qed.

Lemma multi_multi h : multi (multi h) = multi h.
Proof. unfold multi. cbn. by rewrite <-Z.lor_assoc. Qed.
Lemma multi_flag h : Z.land (nlmsg_flags (multi h)) NLM_F_MULTI = NLM_F_MULTI.
Proof.
  cbn [multi nlmsg_flags]. apply Z.bits_inj'. intros n _. rewrite Z.land_spec, Z.lor_spec.
  by destruct (Z.testbit (nlmsg_flags h) n), (Z.testbit NLM_F_MULTI n).
Qed.

Lemma stamped_app f s l l' : stamped f s (l ++ l') = stamped f s l ++ stamped f (s + Z.of_nat (length l)) l'.
Proof.
  revert s. induction l as [|r l IH]; intros s; cbn [app stamped length]; [by rewrite Z.add_0_r|].
  rewrite IH. do 3 f_equal. lia.
Qed.

Lemma add_attrs_holds c pre h body k l : wf_list l = true -> holds c pre h body k ->
  succeeds ('(c, _) ← tst_rtnl_add_attr_list limit c l; Ok c) (fun c' => exists k',
    holds c' pre h (join (body :: (enc_attr <$> live l))) k' /\ seq c' = seq c /\ pid c' = pid c).
Proof.
  intros Hw H. eapply succeeds_bind; [eapply (add_list_holds l); [apply Forall_true, add_one_holds|done..]|].
  intros [c' n] (k' & H' & Hs & Hp & _). by exists k'.
Qed.

(** The state after some requests. *)
Definition built (rs : list request) (c : tst_rtnl_context) : Prop := exists l h b k,
  holds c (pad (stream l)) h b k /\ l ++ [(multi h, b)] = stamped multi 0 rs
  /\ (if decide (length rs = 1%nat) then [(h, b)] = stamped (fun h => h) 0 rs else h = multi h)
  /\ seq c = Z.of_nat (length rs) /\ pid c = 0.

Lemma stream_snoc l m : stream (l ++ [m]) = pad (stream l) ++ message m.1 m.2.
Proof. unfold stream. rewrite fmap_app. apply join_snoc. Qed.

Lemma pad_pad l x : pad (pad l ++ x) = pad l ++ pad x.
Proof. apply pad_app, pad_mod. Qed.

Lemma built_first r : wf_request r = true -> len (r_payload r) <= 1008 ->
  succeeds (add_request tst_rtnl_create_context r) (built [r]).
Proof.
  intros Hw Hl. destruct (add_first 0 0 (r_header r) (r_payload r)) as (c1 & E & H1 & Hs & Hp); [by apply wf_stamp|done|].
  unfold add_request, tst_rtnl_create_context. rewrite E. cbn [mbind res_bind]. apply wf_request_iff in Hw as (_ & _ & _ & Hw).
  eapply succeeds_mono; [by eapply add_attrs_holds|]. intros c2 (k & H2 & Hs2 & Hp2). exists [], (stamp (r_header r) 0 0), (body_of r), k.
  rewrite Hs2, Hp2, Hs, Hp. split; [exact H2|done].
Qed.

Lemma built_next rs r c : built rs c -> rs <> [] -> wf_request r = true -> Z.of_nat (length rs) < 2 ^ 32 - 1 ->
  succeeds (add_request c r) (built (rs ++ [r])).
Proof.
  intros (l & h & b & k & H & Hl & _ & Hs & Hp) Hne Hw Hn. unfold add_request.
  eapply succeeds_bind; [eapply (add_next c _ h b k (r_header r) (r_payload r)); [done| |]|].
  { rewrite Hs, Hp. apply wf_stamp; [done|lia]. }
  { apply wf_request_iff in Hw as (_ & _ & Hpl & _). exact Hpl. }
  intros c1 (k1 & H1 & Hs1 & Hp1). apply wf_request_iff in Hw as (_ & _ & _ & Hw).
  eapply succeeds_mono; [by eapply add_attrs_holds|]. intros c2 (k2 & H2 & Hs2 & Hp2).
  exists (l ++ [(multi h, b)]), (multi (stamp (r_header r) (seq c) (pid c))), (body_of r), k2.
  rewrite stream_snoc, pad_pad. split; [exact H2|]. rewrite Hs2, Hp2, Hs1, Hp1, Hs, Hp, multi_multi, stamped_app, Hl, length_app. cbn [length].
  split; [done|]. split; [|split; [rewrite wrap_u_id by lia; lia|done]].
  rewrite decide_False; [done|]. destruct rs; [done|]. cbn [length]. lia.
Qed.

Lemma built_all rs rs' c : built rs c -> rs <> [] -> Forall (fun r => wf_request r = true) rs' ->
  Z.of_nat (length rs + length rs') < 2 ^ 32 - 1 -> succeeds (add_requests c rs') (built (rs ++ rs')).
Proof.
  revert rs c. induction rs' as [|r rs' IH]; intros rs c Hb Hne Hw Hn; cbn [add_requests]; [by rewrite app_nil_r|].
  inversion Hw as [|? ? Hr Hw']; subst. cbn [length] in Hn. eapply succeeds_bind; [apply built_next; [done..|lia]|].
  intros c1 H1. replace (rs ++ r :: rs') with ((rs ++ [r]) ++ rs') by (by rewrite <-app_assoc).
  apply IH; [done|by destruct rs|done|]. rewrite length_app. cbn [length]. lia.
Qed.

Lemma get_all l post : get 0 (len l) (l ++ post) = Ok (E := rtnl_error) l.
Proof. exact (get_at [] l post). Qed.

Lemma holds_stream c l h b k : holds c (pad (stream l)) h b k ->
  datalen c = len (stream (l ++ [(h, b)])) /\ buffer c = stream (l ++ [(h, b)]) ++ zeros k /\ datalen c < 2 ^ 30.
Proof.
  intros H. pose proof (holds_len _ _ _ _ _ H). pose proof (h_small _ _ _ _ _ H). pose proof (h_k _ _ _ _ _ H). rewrite stream_snoc, (h_data _ _ _ _ _ H), (h_buf _ _ _ _ _ H), <-app_assoc, len_app, len_message. cbn [fst snd]. split; [lia|split; [done|lia]].
Qed.

(** Sending what was built. *)
Definition sends (rs : list request) (c : tst_rtnl_context) : Prop :=
  succeeds (tst_rtnl_send limit c (len (stream (sent rs)))) (fun r => exists k,
    r.1 = (stream (sent rs), len (stream (sent rs))) /\ len (stream (sent rs)) < 2 ^ 30 /\ curmsg r.2 = None /\ datalen r.2 = len (stream (sent rs))
    /\ buffer r.2 = stream (sent rs) ++ zeros k).

Lemma stream_pos l : l <> [] -> 0 < len (stream l).
Proof.
  induction l as [|m l _] using rev_ind; [done|]. intros _. rewrite stream_snoc, len_app, len_message.
  pose proof (len_nonneg (pad (stream l))). pose proof (len_nonneg m.2). lia.
Qed.

(** The last step of [tst_rtnl_send]. *)
Lemma send_tail c l k : l <> [] -> datalen c = len (stream l) -> buffer c = stream l ++ zeros k ->
  exists c', (bytes ← get 0 (datalen c) (buffer c);
    if len (stream l) <? 0 then Err SendFailed
    else if negb (datalen c =? 0) && negb (len (stream l) =? datalen c) then Err SendShort
    else Ok (bytes, len (stream l), if 0 <? len (stream l) then mkCtx (pid c) (seq c) (bufsize c) (datalen c) (buffer c) None else c))
  = Ok (stream l, len (stream l), c') /\ curmsg c' = None /\ datalen c' = len (stream l) /\ buffer c' = stream l ++ zeros k.
Proof.
  intros Hl Hd Hb. pose proof (stream_pos l Hl). rewrite Hd, Hb, get_all. cbn [mbind res_bind].
  rewrite (proj2 (Z.ltb_ge (len (stream l)) 0)), Z.eqb_refl, Bool.andb_false_r, (proj2 (Z.ltb_lt 0 (len (stream l)))) by lia.
  by eexists.
Qed.

Lemma send_single r c : wf_request r = true -> built [r] c -> sends [r] c.
Proof.
  intros Hw (l & h & b & k & H & Hl & Hh & _ & _). apply wf_request_iff in Hw as (_ & Hf & _). cbn in Hh. injection Hh as -> ->.
  destruct l as [|m [|]]; [|done..]. unfold sends, tst_rtnl_send. rewrite (h_cur _ _ _ _ _ H).
  destruct (set_multi _ _ _ _ _ H) as [-> _]. cbn [mbind res_bind set_len stamp nlmsg_flags]. rewrite Hf. cbn [Z.eqb].
  destruct (holds_stream _ _ _ _ _ H) as (Hd & Hb & Hlt). destruct (send_tail c (sent [r]) k) as (c' & E & Hc); [done..|].
  cbn [mbind res_bind] in *. rewrite E. exists k. split; [done|]. split; [|done].
  pose proof (Hd : datalen c = len (stream (sent [r]))) as Hd'. by rewrite <-Hd'.
Qed.

Lemma send_multi rs c : (2 <= length rs)%nat -> Z.of_nat (length rs) < 2 ^ 32 - 1 -> built rs c -> sends rs c.
Proof.
  intros Hn Hm (l & h & b & k & H & Hl & Hh & Hs & Hp). rewrite decide_False in Hh by lia.
  unfold sends, tst_rtnl_send. rewrite (h_cur _ _ _ _ _ H). destruct (set_multi _ _ _ _ _ H) as [-> _].
  cbn [mbind res_bind set_len nlmsg_flags]. rewrite Hh, multi_flag. cbn [Z.eqb NLM_F_MULTI].
  assert (Es : sent rs = (l ++ [(multi h, b)]) ++ [(mkHdr 0 NLMSG_DONE 0 (seq c) 0, [])]).
  { rewrite Hl, Hs. by destruct rs as [|? [|]]; [simpl in Hn; lia..|]. }
  eapply (succeeds_bind _ _ (fun c2 => exists k1, datalen c2 = len (stream (sent rs)) /\ datalen c2 < 2 ^ 30 /\ buffer c2 = stream (sent rs) ++ zeros k1)).
  - eapply succeeds_bind; [eapply (add_next c _ h b k (mkHdr 0 NLMSG_DONE 0 0 0) []); [done| |done]|].
    { rewrite Hs, Hp. constructor; cbn [stamp nlmsg_len nlmsg_type nlmsg_flags nlmsg_seq nlmsg_pid]; unfold NLMSG_DONE; lia. }
    intros c1 (k1 & H1 & _ & _). rewrite (h_cur _ _ _ _ _ H1), (h_buf _ _ _ _ _ H1). set (pre := pad (stream l) ++ _) in *.
    unfold message. rewrite app_nil_r, put_flags.
    cbn [mbind res_bind succeeds]. exists k1. rewrite Es, stream_snoc, stream_snoc, pad_pad. cbn [fst snd set_buf datalen buffer].
    fold pre. rewrite (h_data _ _ _ _ _ H1), len_app, len_message, Hp. unfold message. rewrite app_nil_r, <-app_assoc.
    pose proof (holds_len _ _ _ _ _ H1). pose proof (h_small _ _ _ _ _ H1). pose proof (h_k _ _ _ _ _ H1). split; [lia|split; [lia|done]].
  - intros c2 (k1 & Hd & Hlt & Hb). destruct (send_tail c2 (sent rs) k1) as (c' & E & Hc); [by rewrite Es; destruct l|done..|].
    cbn [mbind res_bind] in *. rewrite E. exists k1. split; [done|]. split; [by rewrite <-Hd|done].
Qed.

Lemma sends_all r rs : Forall (fun r => wf_request r = true) (r :: rs) -> len (r_payload r) <= 1008 ->
  Z.of_nat (length (r :: rs)) < 2 ^ 32 - 1 -> succeeds (add_requests tst_rtnl_create_context (r :: rs)) (sends (r :: rs)).
Proof.
  intros Hw Hl Hn. inversion Hw as [|? ? Hr Hrs]; subst. cbn [length] in Hn.
  cbn [add_requests]. eapply succeeds_bind; [by apply built_first|]. intros c1 H1.
  eapply succeeds_mono; [by apply (built_all [r] rs)|]. cbn [app]. intros c2 H2.
  destruct rs as [|r' rs]; [by apply send_single|]. apply send_multi; [cbn; lia|done|done].
Qed.
End Building.
