(* ===== verification/NetlinkRead.v ===== *)
(** * Routing netlink: reading back

    What [tst_rtnl_send] put on the wire is taken apart again by
    [tst_rtnl_recv] and by the walk over attributes that the receivers of such
    messages do; acknowledgements are matched with the messages sent. *)

From stdpp Require Import base list strings.
From Stdlib Require Import ZArith Lia.
From S2P Require Import Prelude Bytes Netlink.

Local Open Scope Z_scope.

(** ** Attributes *)

(** The loop [for (; RTA_OK(rta, left); rta = RTA_NEXT(rta, left))] over a
    block: types and values. *)
Fixpoint rtattrs (fuel : nat) (bs : list Z) : list (Z * list Z) :=
  match fuel with
  | O => []
  | S fuel =>
      let l := unle (take 2 bs) in
      if (4 <=? len bs) && (4 <=? l) && (l <=? len bs) then
        (unle (take 2 (drop 2 bs)), take (Z.to_nat (l - 4)) (drop 4 bs)) :: rtattrs fuel (drop (Z.to_nat (NLMSG_ALIGN l)) bs)
      else []
  end.

Definition attrs_in (bs : list Z) : list (Z * list Z) := rtattrs (length bs) bs.

Definition reads_each (one : Z * list Z -> attr -> Prop) :=
  fix go (ps : list (Z * list Z)) (l : list attr) {struct l} : Prop :=
    match l with
    | [] => False
    | a :: l => if alen a <? 0 then ps = [] else match ps with p :: ps => one p a /\ go ps l | [] => False end
    end.

(** A type and a value read back an attribute with its sublist. *)
Fixpoint reads_attr (p : Z * list Z) (a : attr) {struct a} : Prop :=
  let '(Attr t d n sub) := a in
  p.1 = t /\ take (Z.to_nat n) p.2 = take (Z.to_nat n) d /\
  match sub with
  | None => len p.2 = n
  | Some l => reads_each reads_attr (attrs_in (drop (Z.to_nat (NLMSG_ALIGN n)) p.2)) l
  end.

(** The body of a message reads back the payload and the attributes. *)
Definition reads_request (body : list Z) (r : request) : Prop :=
  take (length (r_payload r)) body = r_payload r /\
  reads_each reads_attr (attrs_in (drop (Z.to_nat (NLMSG_ALIGN (len (r_payload r)))) body)) (r_attrs r).

Definition rta_ok (p : Z * list Z) : Prop := 0 <= p.1 < 65536 /\ len p.2 <= 65531.

Lemma rtattrs_step fuel p rest : rta_ok p ->
  rtattrs (S fuel) (rta_bytes p.1 p.2 ++ rest) = p :: rtattrs fuel (drop (Z.to_nat (NLMSG_ALIGN (4 + len p.2))) (rta_bytes p.1 p.2 ++ rest)).
Proof.
  intros [Ht Hl]. pose proof (len_nonneg p.2). pose proof (len_nonneg rest). cbn [rtattrs]. unfold rta_bytes at 1 2 3 4 5 6 7.
  assert (El : unle (take 2 ((le 2 (RTA_LENGTH (len p.2)) ++ le 2 p.1 ++ p.2) ++ rest)) = 4 + len p.2).
  { transitivity (unle (le 2 (RTA_LENGTH (len p.2)))); [done|]. apply unle_le. unfold RTA_LENGTH. simpl. lia. }
  rewrite El. rewrite !len_app, !len_le.
  rewrite (proj2 (Z.leb_le 4 (Z.of_nat 2 + (Z.of_nat 2 + len p.2) + len rest))), (proj2 (Z.leb_le 4 (4 + len p.2))),
    (proj2 (Z.leb_le (4 + len p.2) _)) by lia. cbn [andb].
  f_equal; [|f_equal; f_equal].
  - destruct p as [t v]. cbn [fst snd] in *. f_equal.
    + transitivity (unle (le 2 t)); [done|]. apply unle_le. simpl. lia.
    + replace (4 + len v - 4) with (len v) by lia. exact (take_len v rest).
  - do 2 f_equal. exact El.
Qed.

Lemma rtattrs_nil fuel : rtattrs fuel [] = [].
Proof. by destruct fuel. Qed.

Lemma len_rta t v : len (rta_bytes t v) = 4 + len v.
Proof. unfold rta_bytes. rewrite !len_app, !len_le. lia. Qed.

Definition rta (p : Z * list Z) : list Z := rta_bytes p.1 p.2.

Lemma rtattrs_join ps fuel : Forall rta_ok ps -> (length ps <= fuel)%nat -> rtattrs fuel (join (rta <$> ps)) = ps.
Proof.
  intros H. revert fuel. induction H as [|p ps Hp Hps IH]; intros fuel Hf; [apply rtattrs_nil|].
  cbn [length] in Hf. destruct fuel as [|fuel]; [lia|]. pose proof (len_nonneg p.2). destruct Hp as [Ht Hl] eqn:Ep. clear Ep.
  destruct ps as [|p' ps].
  - change (join (rta <$> [p])) with (rta_bytes p.1 p.2). rewrite <-(app_nil_r (rta_bytes _ _)), rtattrs_step by done. f_equal.
    rewrite app_nil_r, drop_ge, rtattrs_nil; [done|]. pose proof (len_rta p.1 p.2). destruct (align_bounds (4 + len p.2)); unfold len in *; lia.
  - rewrite fmap_cons, join_cons by done. unfold pad. rewrite <-app_assoc. change (rta p) with (rta_bytes p.1 p.2) at 1.
    rewrite rtattrs_step by done. f_equal. rewrite app_assoc. change (rta_bytes p.1 p.2 ++ zeros _) with (pad (rta p)).
    replace (4 + len p.2) with (len (rta p)) by apply len_rta. rewrite align_pad, drop_len by (unfold rta; rewrite len_rta; lia).
    apply IH. cbn [length] in *. lia.
Qed.

Lemma attrs_in_join ps : Forall rta_ok ps -> attrs_in (join (rta <$> ps)) = ps.
Proof.
  intros H. apply rtattrs_join; [done|]. clear H. induction ps as [|p ps IH]; [simpl; lia|].
  destruct ps as [|p' ps]; [cbn; lia|]. rewrite fmap_cons, join_cons by done. rewrite length_app. cbn [length] in *.
  unfold pad. rewrite length_app. unfold rta at 1, rta_bytes. rewrite !length_app, !length_le. lia.
Qed.

(** *** The encoding reads back *)
Definition type_of (a : attr) : Z := let '(Attr t _ _ _) := a in t.
Definition parts (a : attr) : Z * list Z := (type_of a, attr_body a).

Lemma enc_parts a : enc_attr a = rta (parts a).
Proof. apply enc_attr_eq. Qed.

Lemma wf_parts a : wf_attr a = true -> rta_ok (parts a).
Proof.
  intros Hw. pose proof (enc_parts a) as E. destruct a as [t d n sub]. apply wf_attr_eq in Hw as (? & _ & _ & Hl & _).
  rewrite E in Hl. unfold rta in Hl. rewrite len_rta in Hl. split; [done|lia].
Qed.

Lemma wf_live l : wf_list l = true -> Forall (fun a => wf_attr a = true) (live l).
Proof.
  induction l as [|a l IH]; cbn [wf_list live]; [done|]. destruct (alen a <? 0); [by constructor|].
  rewrite Bool.andb_true_iff. intros [? ?]. constructor; auto.
Qed.

Lemma attrs_of_list l : wf_list l = true -> attrs_in (join (enc_attr <$> live l)) = parts <$> live l.
Proof.
  intros Hw. replace (enc_attr <$> live l) with (rta <$> (parts <$> live l)).
  - apply attrs_in_join, Forall_fmap. eapply Forall_impl; [by apply wf_live|]. apply wf_parts.
  - rewrite <-list_fmap_compose. apply list_fmap_ext. intros _ a _. by rewrite enc_parts.
Qed.

(** A value followed by attributes: both parts are found. *)
Lemma join_parts v l : len v < 2 ^ 30 ->
  take (length v) (join (v :: l)) = v /\ drop (Z.to_nat (NLMSG_ALIGN (len v))) (join (v :: l)) = join l.
Proof.
  intros Hv. rewrite align_pad by lia. destruct l as [|x l].
  - cbn [join]. split; [by rewrite firstn_all|]. apply drop_ge. pose proof (len_pad_bounds v). unfold len in *. lia.
  - rewrite join_cons, drop_len by done. split; [|done]. unfold pad. rewrite <-app_assoc. apply take_app_length.
Qed.

Lemma reads_live l : Forall (fun a => wf_attr a = true -> reads_attr (parts a) a) l -> wf_list l = true ->
  reads_each reads_attr (parts <$> live l) l.
Proof.
  induction 1 as [|a l Ha _ IH]; cbn [wf_list live reads_each]; [done|]. destruct (alen a <? 0) eqn:E; [done|].
  rewrite Bool.andb_true_iff. intros [? ?]. cbn [fmap list_fmap]. split; [by apply Ha|by apply IH].
Qed.

Lemma reads_enc a : wf_attr a = true -> reads_attr (parts a) a.
Proof.
  induction a as [t d n|t d n l IH] using attr_ind'; intros Hw; apply wf_attr_eq in Hw as (Ht & Hn & Hd & Hl & Hs);
    cbn [reads_attr parts fst snd]; (split; [done|]); cbn [attr_body].
  - cbn [join]. split; [by rewrite take_take, Nat.min_id|]. apply len_take. lia.
  - pose proof (len_take n d ltac:(lia)) as Hv. destruct (join_parts (take (Z.to_nat n) d) (enc_attr <$> live l)) as [H1 H2]; [lia|].
    rewrite Hv in H2. split.
    + replace (Z.to_nat n) with (length (take (Z.to_nat n) d)) at 1 by (unfold len in Hv; lia). exact H1.
    + rewrite H2, attrs_of_list by done. by apply reads_live.
Qed.

Lemma reads_body r : wf_request r = true -> reads_request (body_of r) r.
Proof.
  intros Hw. apply wf_request_iff in Hw as (_ & _ & Hl & Hw). unfold reads_request, body_of.
  destruct (join_parts (r_payload r) (enc_attr <$> live (r_attrs r))) as [H1 H2]; [lia|]. split; [done|].
  rewrite H2, attrs_of_list by done. apply reads_live; [|done]. apply Forall_true, reads_enc.
Qed.

(** ** Messages *)

Definition msg_ok (m : nlmsghdr * list Z) : Prop := hdr_ok (set_len m.1 0).
Definition full (m : nlmsghdr * list Z) : nlmsghdr := set_len m.1 (16 + len m.2).

Lemma stream_cons m l : l <> [] -> stream (m :: l) = pad (message m.1 m.2) ++ stream l.
Proof. intros Hl. unfold stream. rewrite fmap_cons, join_cons; [done|]. by destruct l. Qed.

Lemma stream_head m l : exists t, stream (m :: l) = message m.1 m.2 ++ t /\ len (stream (m :: l)) = 16 + len m.2 + len t.
Proof.
  destruct l as [|m' l].
  - exists []. split; [by rewrite app_nil_r|]. change (stream [m]) with (message m.1 m.2). rewrite len_message. change (len []) with 0. lia.
  - rewrite stream_cons by done. unfold pad. rewrite <-app_assoc. eexists. split; [done|]. by rewrite !len_app, len_message.
Qed.

(** One step of a walk over messages. *)
Lemma walk_step pre m l post : msg_ok m -> len (stream (m :: l)) < 2 ^ 31 ->
  let buf := pre ++ stream (m :: l) ++ post in
  let left := len (stream (m :: l)) in
  let next := len pre + NLMSG_ALIGN (nlmsg_len (full m)) in
  get_hdr (len pre) buf = Ok (full m) /\ msg_here buf (len pre) left = Ok (Some (full m)) /\
  get (len pre + 16) (len m.2) buf = Ok (E := rtnl_error) m.2 /\
  match l with
  | [] => next_left (full m) left <= 0
  | _ => next_left (full m) left = len (stream l) /\ next = len (pre ++ pad (message m.1 m.2))
         /\ buf = (pre ++ pad (message m.1 m.2)) ++ stream l ++ post
  end.
Proof.
  intros Hm Hl buf left next. destruct (stream_head m l) as (t & Es & El). pose proof (len_nonneg m.2). pose proof (len_nonneg t).
  assert (Hf : hdr_ok (full m)) by (eapply hdr_ok_len; [exact Hm|lia]).
  assert (Hg : get_hdr (len pre) buf = Ok (full m)).
  { unfold buf. rewrite Es. unfold message. rewrite <-!app_assoc. by apply get_hdr_at. }
  split; [done|]. split; [|split].
  - unfold msg_here, left. rewrite (proj2 (Z.ltb_lt 0 _)), (proj2 (Z.leb_le 16 _)) by lia. cbn [andb]. rewrite Hg. cbn [mbind res_bind].
    unfold NLMSG_OK, full. cbn [set_len nlmsg_len]. by rewrite (proj2 (Z.leb_le 16 _)), (proj2 (Z.leb_le _ (len (stream _)))) by lia.
  - unfold buf. rewrite Es. unfold message. rewrite <-!app_assoc, app_assoc.
    replace (len pre + 16) with (len (pre ++ hdr_bytes (set_len m.1 (16 + len m.2)))) by (by rewrite len_app, len_hdr). apply get_at.
  - assert (Ha : NLMSG_ALIGN (nlmsg_len (full m)) = len (pad (message m.1 m.2))).
    { rewrite <-align_pad by (rewrite len_message; lia). by rewrite len_message. }
    unfold next_left, next. rewrite Ha. pose proof (len_pad_bounds (message m.1 m.2)). rewrite len_message in *. destruct l as [|m' l].
    + unfold left. change (stream [m]) with (message m.1 m.2). rewrite len_message, wrap_s_id by lia. lia.
    + unfold left, buf in *. rewrite stream_cons in * by done. rewrite !len_app in *. pose proof (len_nonneg (stream (m' :: l))).
      rewrite wrap_s_id by lia. split; [lia|]. split; [done|]. by rewrite <-!app_assoc.
Qed.

Lemma msg_here_end buf ptr left : left <= 0 -> msg_here buf ptr left = Ok None.
Proof. intros H. unfold msg_here. by rewrite (proj2 (Z.ltb_ge 0 left)). Qed.

Lemma count_stream l : Forall msg_ok l -> len (stream l) < 2 ^ 31 -> forall pre post fuel n, (length l < fuel)%nat ->
  count_messages fuel (pre ++ stream l ++ post) (len pre) (len (stream l)) n = Ok (n + Z.of_nat (length l)).
Proof.
  induction 1 as [|m l Hm Hms IH]; intros Hl pre post fuel n Hf; (destruct fuel as [|fuel]; [simpl in Hf; lia|]).
  { cbn [count_messages]. rewrite msg_here_end by done. cbn. f_equal. lia. }
  destruct (walk_step pre m l post Hm Hl) as (_ & Hh & _ & Hn). cbn [count_messages]. rewrite Hh. cbn [mbind res_bind]. destruct l as [|m' l].
  - destruct fuel as [|fuel]; [simpl in Hf; lia|]. cbn [count_messages]. by rewrite msg_here_end.
  - destruct Hn as (-> & -> & ->). rewrite IH; [|rewrite stream_cons, len_app in Hl by done; pose proof (len_nonneg (pad (message m.1 m.2))); lia|simpl in *; lia].
    f_equal. cbn [length]. lia.
Qed.

(** What an element of the array that [tst_rtnl_recv] returns stands for. *)
Definition is_msg (buf : list Z) (r : tst_rtnl_message) (m : nlmsghdr * list Z) : Prop :=
  get_hdr (header r) buf = Ok (full m) /\ get (payload r) (payload_size r) buf = Ok (E := rtnl_error) m.2
  /\ err r = if nlmsg_type m.1 =? NLMSG_ERROR then Some (payload r) else None.

Lemma fill_stream l : Forall msg_ok l -> len (stream l) < 2 ^ 31 -> forall pre post, exists rs,
  fill_messages (length l) (pre ++ stream l ++ post) (len pre) (len (stream l)) = Ok rs /\
  Forall2 (is_msg (pre ++ stream l ++ post)) rs l.
Proof.
  induction 1 as [|m l Hm Hms IH]; intros Hl pre post; [by exists []|].
  destruct (walk_step pre m l post Hm Hl) as (Hg & _ & Hp & Hn). cbn [length fill_messages]. rewrite Hg. cbn [mbind res_bind].
  assert (Hrest : exists rs, fill_messages (length l) (pre ++ stream (m :: l) ++ post) (len pre + NLMSG_ALIGN (nlmsg_len (full m)))
    (next_left (full m) (len (stream (m :: l)))) = Ok rs /\ Forall2 (is_msg (pre ++ stream (m :: l) ++ post)) rs l).
  { destruct l as [|m' l]; [by exists []|]. destruct Hn as (-> & -> & ->). apply IH.
    rewrite stream_cons, len_app in Hl by done. pose proof (len_nonneg (pad (message m.1 m.2))). lia. }
  destruct Hrest as (rs & -> & Hrs). cbn [mbind res_bind]. eexists. split; [done|]. constructor; [|done].
  assert (Hlen : wrap_u 32 (nlmsg_len (full m) - NLMSG_SPACE 0) = len m.2).
  { destruct (stream_head m l) as (t & _ & El). pose proof (len_nonneg m.2). pose proof (len_nonneg t).
    change (NLMSG_SPACE 0) with 16. cbn [full set_len nlmsg_len]. rewrite wrap_u_id by lia. lia. }
  unfold is_msg. cbn [header payload payload_size err]. rewrite Hlen. done.
Qed.

Lemma stream_length l : Z.of_nat (length l) <= len (stream l).
Proof.
  induction l as [|m l IH]; [done|]. pose proof (len_nonneg m.2). destruct l as [|m' l].
  - change (stream [m]) with (message m.1 m.2). rewrite len_message. cbn [length]. lia.
  - rewrite stream_cons, len_app by done. pose proof (len_pad_bounds (message m.1 m.2)). rewrite len_message in *. cbn [length] in *. lia.
Qed.

Lemma recv_stream ds l : concat ds = stream l -> l <> [] -> Forall msg_ok l -> len (stream l) < 2 ^ 31 ->
  exists rs, tst_rtnl_recv ds false = Ok (Some (stream l, rs)) /\ Forall2 (is_msg (stream l)) rs l.
Proof.
  intros Hd Hne Hok Hl. pose proof (stream_pos l Hne). pose proof (stream_length l) as Hlen. unfold tst_rtnl_recv. rewrite Hd.
  rewrite (proj2 (Z.eqb_neq (len (stream l)) 0)), wrap_s_id by lia.
  pose proof (count_stream l Hok Hl [] [] (S (length (stream l))) 0) as Hc. cbn [app] in Hc. rewrite app_nil_r in Hc.
  change (len []) with 0 in Hc. rewrite Hc by (unfold len in Hlen; lia). cbn [mbind res_bind].
  rewrite Z.add_0_l, Nat2Z.id. destruct (fill_stream l Hok Hl [] []) as (rs & Hf & Hrs). cbn [app] in Hf, Hrs. rewrite app_nil_r in *.
  change (len []) with 0 in Hf. rewrite Hf. by exists rs.
Qed.

(** ** Acknowledgements *)

Fixpoint from_seq (rs : list (nlmsghdr * list Z)) (s : Z) : list (nlmsghdr * list Z) :=
  match rs with [] => [] | r :: rs' => if nlmsg_seq r.1 =? s then rs else from_seq rs' s end.

Definition error_code (b : list Z) : Z := wrap_s 32 (unle (take 4 b)).

(** The verdict on the messages: every message that asks for it has its
    acknowledgement, in the order of the messages; the first error ends it. *)
Fixpoint acked (ms rs : list (nlmsghdr * list Z)) : M (Z * Z) :=
  match ms with
  | [] => Ok (1, 0)
  | m :: ms =>
      if Z.land (nlmsg_flags m.1) NLM_F_ACK =? 0 then acked ms rs
      else match from_seq rs (nlmsg_seq m.1) with
           | [] => Err (NoAck (nlmsg_seq m.1))
           | ((h, b) :: _) as rs =>
               if nlmsg_type h =? NLMSG_ERROR then
                 if error_code b =? 0 then acked ms rs else Ok (0, - error_code b)
               else Err (NoAck (nlmsg_seq m.1))
           end
  end.

(** An answer of the kernel: an error has a code, and it is not [INT_MIN]. *)
Definition answer_ok (m : nlmsghdr * list Z) : Prop :=
  msg_ok m /\ (nlmsg_type m.1 = NLMSG_ERROR -> 4 <= len m.2 /\ error_code m.2 <> INT_MIN).

Lemma find_seq_ok rbuf s res rs : Forall2 (is_msg rbuf) res rs -> exists res',
  find_seq rbuf res s = Ok res' /\ Forall2 (is_msg rbuf) res' (from_seq rs s).
Proof.
  induction 1 as [|r m res rs Hr H IH]; [by exists []|]. cbn [find_seq from_seq]. destruct Hr as (Hg & Hp & He) eqn:E. rewrite Hg.
  cbn [mbind res_bind full set_len nlmsg_seq]. destruct (nlmsg_seq m.1 =? s); [|done].
  eexists. split; [done|]. by constructor.
Qed.

Lemma from_seq_sub (P : nlmsghdr * list Z -> Prop) rs s : Forall P rs -> Forall P (from_seq rs s).
Proof. induction 1; cbn [from_seq]; [done|]. case_match; [by constructor|done]. Qed.

Lemma get_shorter off n k buf b : 0 <= k <= n -> get off n buf = Ok (E := rtnl_error) b -> get off k buf = Ok (E := rtnl_error) (take (Z.to_nat k) b).
Proof.
  unfold get, inside. intros Hk H. case_match eqn:E; [|done]. injection H as <-.
  replace ((0 <=? off) && (off + k <=? len buf) && (0 <=? k)) with true by lia. by rewrite take_take, Nat.min_l by lia.
Qed.

Lemma get_len_eq off n buf b : get off n buf = Ok (E := rtnl_error) b -> len b = n.
Proof.
  unfold get, inside. case_match eqn:E; [|done]. intros [= <-]. unfold len in *. rewrite length_take, length_drop. lia.
Qed.

Lemma acks_loop rbuf ms : Forall msg_ok ms -> len (stream ms) < 2 ^ 31 -> forall pre post fuel res rs, (length ms < fuel)%nat ->
  Forall2 (is_msg rbuf) res rs -> Forall answer_ok rs ->
  check_acks_loop fuel (pre ++ stream ms ++ post) (len pre) (len (stream ms)) rbuf res 0 = acked ms rs.
Proof.
  induction 1 as [|m ms Hm Hms IH]; intros Hl pre post fuel res rs Hf Hres Hrs; (destruct fuel as [|fuel]; [simpl in Hf; lia|]).
  { cbn [check_acks_loop acked]. by rewrite msg_here_end. }
  destruct (walk_step pre m ms post Hm Hl) as (_ & Hh & _ & Hn). cbn [check_acks_loop acked]. rewrite Hh. cbn [mbind res_bind].
  assert (Hnext : forall res rs, Forall2 (is_msg rbuf) res rs -> Forall answer_ok rs ->
    check_acks_loop fuel (pre ++ stream (m :: ms) ++ post) (len pre + NLMSG_ALIGN (nlmsg_len (full m)))
      (next_left (full m) (len (stream (m :: ms)))) rbuf res 0 = acked ms rs).
  { intros res' rs' Hr' Ha'. destruct ms as [|m' ms].
    - destruct fuel as [|fuel]; [simpl in Hf; lia|]. cbn [check_acks_loop acked]. by rewrite msg_here_end.
    - destruct Hn as (-> & -> & ->). apply IH; [|simpl in *; lia|done..].
      rewrite stream_cons, len_app in Hl by done. pose proof (len_nonneg (pad (message m.1 m.2))). lia. }
  cbn [full set_len nlmsg_flags nlmsg_seq]. destruct (Z.land (nlmsg_flags m.1) NLM_F_ACK =? 0); [by apply Hnext|].
  destruct (find_seq_ok rbuf (nlmsg_seq m.1) res rs Hres) as (res' & -> & Hres'). cbn [mbind res_bind].
  pose proof (from_seq_sub _ rs (nlmsg_seq m.1) Hrs) as Hrs'.
  generalize dependent (from_seq rs (nlmsg_seq m.1)). intros fs Hres' Hrs'. destruct Hres' as [|r [h b] res' rs' Hr Hres']; [done|].
  pose proof Hr as Hr0. destruct Hr as (_ & Hp & He). rewrite He. cbn [fst snd] in *. inversion Hrs' as [|? ? [_ Hb] _]; subst. cbn [fst snd] in Hb.
  destruct (Z.eqb_spec (nlmsg_type h) NLMSG_ERROR) as [E|E]; [|done]. destruct (Hb E) as [Hb4 Hmin].
  assert (Hgu : get_u (payload r) 4 rbuf = Ok (E := rtnl_error) (unle (take 4 b))).
  { unfold get_u. pose proof (get_len_eq _ _ _ _ Hp). rewrite (get_shorter _ (payload_size r) 4 _ b) by (done || lia). done. }
  rewrite Hgu. cbn [mbind res_bind]. fold (error_code b). destruct (error_code b =? 0) eqn:E0.
  - apply Hnext; [|done]. by constructor.
  - by rewrite (proj2 (Z.eqb_neq _ _) Hmin).
Qed.

(** ** Properties *)

Lemma stamped_ok f s l : (f = multi \/ f = fun h => h) -> Forall (fun r => wf_request r = true) l ->
  0 <= s -> s + Z.of_nat (length l) < 2 ^ 32 -> Forall msg_ok (stamped f s l).
Proof.
  intros Hf Hl. revert s. induction Hl as [|r l Hr Hl IH]; intros s Hs Hn; cbn [stamped length] in *; [done|].
  constructor; [|apply IH; lia]. unfold msg_ok. cbn [fst]. assert (Ho : hdr_ok (set_len (stamp (r_header r) s 0) 0)) by exact (wf_stamp r s Hr ltac:(lia)).
  destruct Hf as [->| ->]; [by apply hdr_ok_multi|done].
Qed.

Lemma sent_ok l : Forall (fun r => wf_request r = true) l -> Z.of_nat (length l) < 2 ^ 32 - 1 -> Forall msg_ok (sent l).
Proof.
  intros Hl Hn. unfold sent. assert (Hd : msg_ok (mkHdr 0 NLMSG_DONE 0 (Z.of_nat (length l)) 0, [])).
  { constructor; cbn [fst set_len nlmsg_len nlmsg_type nlmsg_flags nlmsg_seq nlmsg_pid]; unfold NLMSG_DONE; lia. }
  assert (Hm : Forall msg_ok (stamped multi 0 l ++ [(mkHdr 0 NLMSG_DONE 0 (Z.of_nat (length l)) 0, [])])).
  { apply Forall_app_2; [|by constructor]. apply stamped_ok; [by left|done|lia..]. }
  destruct l as [|r [|r' l]]; [done| |done]. apply stamped_ok; [by right|done|lia..].
Qed.

Lemma sent_nonempty l : sent l <> [].
Proof. by destruct l as [|? [|]]. Qed.

(** The requests behind the messages sent. *)
Definition carries (rs : list request) (ms : list (nlmsghdr * list Z)) : Prop :=
  forall i r, rs !! i = Some r -> exists m, ms !! i = Some m /\ reads_request m.2 r
    /\ nlmsg_type m.1 = nlmsg_type (r_header r) /\ nlmsg_seq m.1 = Z.of_nat i
    /\ nlmsg_flags m.1 = (if decide (length rs = 1%nat) then nlmsg_flags (r_header r) else Z.lor (nlmsg_flags (r_header r)) NLM_F_MULTI).

Lemma stamped_lookup f s l i r : l !! i = Some r -> stamped f s l !! i = Some (f (stamp (r_header r) (s + Z.of_nat i) 0), body_of r).
Proof.
  revert s i. induction l as [|r' l IH]; intros s i H; [done|]. destruct i as [|i]; cbn [stamped].
  - injection H as ->. by rewrite Z.add_0_r.
  - change (stamped f (s + 1) l !! i = Some (f (stamp (r_header r) (s + Z.of_nat (S i)) 0), body_of r)).
    rewrite (IH (s + 1) i H). do 4 f_equal. lia.
Qed.

Lemma sent_carries rs : Forall (fun r => wf_request r = true) rs -> carries rs (sent rs).
Proof.
  intros Hw i r Hi. pose proof (proj1 (Forall_lookup _ _) Hw _ _ Hi) as Hr. unfold sent.
  destruct (decide (length rs = 1%nat)) as [E|E].
  - destruct rs as [|r0 [|]]; try done. destruct i as [|]; [|done]. injection Hi as ->. eexists. split; [done|]. split; [by apply reads_body|done].
  - exists (multi (stamp (r_header r) (Z.of_nat i) 0), body_of r). split; [|split; [by apply reads_body|done]].
    destruct rs as [|r0 [|r1 rs]]; [done|done|]. apply lookup_app_l_Some. exact (stamped_lookup multi 0 _ i r Hi).
Qed.

(** C4: what is put together is what is read.  A fresh context takes any
    sequence of requests whose fields fit, with nested attributes, and growing
    its buffer; the first payload has at most 1008 bytes.  Unless [realloc]
    fails, sending gives bytes that [tst_rtnl_recv] takes apart into one
    message per request, in order, with its type, flags, sequence number and
    body; the body reads back as payload and the tree of attributes; several
    requests are marked as multipart and end with an NLMSG_DONE message. *)
Theorem rtnl_roundtrip limit r rs :
  limit < 2 ^ 30 -> Forall (fun r => wf_request r = true) (r :: rs) -> len (r_payload r) <= 1008 ->
  Z.of_nat (length (r :: rs)) < 2 ^ 32 - 1 ->
  succeeds (add_requests limit tst_rtnl_create_context (r :: rs)) (fun c =>
    succeeds (tst_rtnl_send limit c (len (stream (sent (r :: rs))))) (fun out => exists msgs,
      let bytes := out.1.1 in
      tst_rtnl_recv [bytes] false = Ok (Some (bytes, msgs)) /\ Forall2 (is_msg bytes) msgs (sent (r :: rs))
      /\ length (sent (r :: rs)) = (if decide (rs = []) then 1 else S (S (length rs)))%nat /\ carries (r :: rs) (sent (r :: rs)))).
Proof.
  intros Hlim Hw Hl Hn. eapply succeeds_mono; [by apply sends_all|]. intros c Hs.
  eapply succeeds_mono; [exact Hs|]. intros [[bytes ret] c'] (k & [= -> _] & Hlt & _). cbn [fst].
  destruct (recv_stream [stream (sent (r :: rs))] (sent (r :: rs))) as (msgs & Hr & Hm); [apply app_nil_r|apply sent_nonempty|by apply sent_ok|lia|].
  exists msgs. split; [done|]. split; [done|]. split; [|by apply sent_carries].
  destruct rs as [|r' rs]; [done|]. rewrite decide_False by done. cbn [sent]. rewrite length_app.
  assert (H : forall f s l, length (stamped f s l) = length l) by (intros f s l; revert s; induction l; intros s; cbn; auto).
  rewrite H. cbn. lia.
Qed.

Lemma validate_stream limit r rs ds answers :
  limit < 2 ^ 30 -> Forall (fun r => wf_request r = true) (r :: rs) -> len (r_payload r) <= 1008 ->
  Z.of_nat (length (r :: rs)) < 2 ^ 32 - 1 ->
  concat ds = stream answers -> Forall answer_ok answers -> len (stream answers) < 2 ^ 31 ->
  succeeds (add_requests limit tst_rtnl_create_context (r :: rs)) (fun c =>
    let bytes := stream (sent (r :: rs)) in
    let out := tst_rtnl_send_validate limit c (len bytes) ds false in
    out = Err ReallocFailed \/
    out = (if decide (answers = []) then Ok (0, 0, bytes) else '(v, e) ← acked (sent (r :: rs)) answers; Ok (v, e, bytes))).
Proof.
  intros Hlim Hw Hl Hn Hd Ha Hal. eapply succeeds_mono; [by apply sends_all|]. intros c Hs bytes out. subst out.
  unfold tst_rtnl_send_validate, sends in *. fold bytes in Hs. destruct (tst_rtnl_send limit c (len bytes)) as [[[b ret] c']|e|].
  - right. destruct Hs as (k & [= -> ->] & Hlt & _ & Hdl & Hb). cbn [mbind res_bind snd] in *. fold bytes in Hb, Hdl, Hlt |- *.
    pose proof (stream_pos (sent (r :: rs)) (sent_nonempty _)) as Hpos. fold bytes in Hpos. rewrite (proj2 (Z.leb_gt (len bytes) 0)) by lia.
    destruct (decide (answers = [])) as [->|Hne].
    { unfold tst_rtnl_recv. rewrite Hd. done. }
    destruct (recv_stream ds answers) as (res & -> & Hres); [done|done| |done|].
    { eapply Forall_impl; [exact Ha|]. by intros m [? _]. }
    cbn [mbind res_bind]. unfold tst_rtnl_check_acks. rewrite Hb, Hdl, wrap_s_id by lia.
    pose proof (acks_loop (stream answers) (sent (r :: rs)) (sent_ok _ Hw Hn) ltac:(fold bytes; lia) [] (zeros k)
      (S (length (bytes ++ zeros k))) res answers) as Hk.
    cbn [app] in Hk. change (len []) with 0 in Hk. fold bytes in Hk. rewrite Hk; [done| |done|done].
    rewrite length_app. pose proof (stream_length (sent (r :: rs))). fold bytes in H. unfold len in H. lia.
  - left. cbn in Hs. by subst.
  - done.
Qed.

(** C15: [tst_rtnl_send_validate] gives the verdict of [acked] on the messages
    that were sent and the answers of the kernel, however these are cut into
    datagrams: it succeeds when every message that asks for it is acknowledged
    in order, gives the error code of the first one that is refused, and breaks
    off when an acknowledgement is missing; with no answer it fails. *)
Theorem rtnl_validate_correct limit r rs ds answers :
  limit < 2 ^ 30 -> Forall (fun r => wf_request r = true) (r :: rs) -> len (r_payload r) <= 1008 ->
  Z.of_nat (length (r :: rs)) < 2 ^ 32 - 1 ->
  concat ds = stream answers -> Forall answer_ok answers -> len (stream answers) < 2 ^ 31 ->
  succeeds (add_requests limit tst_rtnl_create_context (r :: rs)) (fun c =>
    let bytes := stream (sent (r :: rs)) in
    let out := tst_rtnl_send_validate limit c (len bytes) ds false in
    out = Err ReallocFailed \/
    out = (if decide (answers = []) then Ok (0, 0, bytes) else '(v, e) ← acked (sent (r :: rs)) answers; Ok (v, e, bytes))).
Proof. apply validate_stream. Qed.

(** ** Two links and an address *)
Definition link_request (name : string) : request :=
  mkReq (mkHdr 0 16 (Z.lor NLM_F_REQUEST NLM_F_ACK) 0 0) (zeros 16)
    [Attr 3 (str name ++ [0]) (len (str name) + 1) None;
     Attr 18 [] 0 (Some [Attr 1 (str "dummy") 5 None; attr_end]); attr_end].
Definition ack (s e : Z) : nlmsghdr * list Z := (mkHdr 0 NLMSG_ERROR 0 s 0, le 4 e ++ zeros 16).

Lemma rtnl_roundtrip_witness :
  succeeds (add_requests 4096 tst_rtnl_create_context [link_request "one"; link_request "second"]) (fun c =>
    succeeds (tst_rtnl_send 4096 c (len (stream (sent [link_request "one"; link_request "second"])))) (fun out => exists msgs,
      let bytes := out.1.1 in
      tst_rtnl_recv [bytes] false = Ok (Some (bytes, msgs)) /\ Forall2 (is_msg bytes) msgs (sent [link_request "one"; link_request "second"])
      /\ length (sent [link_request "one"; link_request "second"]) = (if decide ([link_request "second"] = []) then 1 else 3)%nat
      /\ carries [link_request "one"; link_request "second"] (sent [link_request "one"; link_request "second"]))).
Proof. apply (rtnl_roundtrip 4096 (link_request "one") [link_request "second"]); [done|by repeat constructor|done|done]. Defined.

Lemma rtnl_validate_correct_witness :
  succeeds (add_requests 4096 tst_rtnl_create_context [link_request "one"]) (fun c =>
    let bytes := stream (sent [link_request "one"]) in
    let out := tst_rtnl_send_validate 4096 c (len bytes) [stream [ack 0 0]] false in
    out = Err ReallocFailed \/
    out = (if decide ([ack 0 0] = []) then Ok (0, 0, bytes) else '(v, e) ← acked (sent [link_request "one"]) [ack 0 0]; Ok (v, e, bytes))).
Proof.
  apply (rtnl_validate_correct 4096 (link_request "one") [] [stream [ack 0 0]] [ack 0 0]);
    [done|by repeat constructor|done|done|apply app_nil_r| |done].
  constructor; [|constructor]. split; [constructor; zeval|]. intros _. split; [vm_compute; discriminate|done].
Defined.

(** Both requests succeed, the second one is refused with EEXIST. *)
Example validate_two :
  let rs := [link_request "one"; link_request "second"] in
  let run answers := c ← add_requests 4096 tst_rtnl_create_context rs;
    '(v, e, _) ← tst_rtnl_send_validate 4096 c (len (stream (sent rs))) [stream answers] false; Ok (v, e) in
  run [ack 0 0; ack 1 0] = Ok (1, 0) /\ run [ack 0 0; ack 1 (2 ^ 32 - 17)] = Ok (0, 17) /\ run [ack 0 0] = Err (NoAck 1)
  /\ run [ack 1 0; ack 0 0] = Err (NoAck 1).
Proof. vm_compute. repeat split. Qed.

(** After a message was sent, its length still counts against the room in the
    buffer: the next message may make it grow, while there is no current
    message to find again in the new buffer. *)
Example grow_without_message :
  let r n := mkReq (mkHdr 0 16 1 0 0) (zeros n) [attr_end] in
  (c ← add_requests 4096 tst_rtnl_create_context [r 900];
   '(_, _, c) ← tst_rtnl_send 4096 c 916;
   add_requests 4096 c [r 200]) = Fault.
Proof. vm_compute. reflexivity. Qed.

(** The length of an attribute wraps at 16 bits: the list allows 65535 bytes
    of data, but the header needs four of them. *)
Example attr_length_wraps :
  let r := mkReq (mkHdr 0 16 1 0 0) (zeros 16) [Attr 3 (zeros 65532) 65532 None; attr_end] in
  match add_requests (2 ^ 20) tst_rtnl_create_context [r] with
  | Ok c => get_u 32 2 (buffer c) = Ok (E := rtnl_error) 0 /\ datalen c = 32
  | _ => False
  end.
Proof. vm_compute. repeat split. Qed.
