(* ===== verification/NetDevice.v ===== *)
(** * Network devices: [lib/tst_netdevice.c]

    Devices, addresses, routes and name spaces are changed by one netlink
    request each, built with [Netlink].  The kernel is a set of inputs: what
    [sendmsg] returns, the datagrams it answers with, and the results of the
    [ioctl]s.  [tst_brk] does not return, as it is outside the clean-up of a
    test. *)

From stdpp Require Import base list strings.
From Stdlib Require Import ZArith Lia.
From S2P Require Import Prelude Bytes Netlink NetlinkRead.

Local Open Scope Z_scope.

(** ** Constants of the kernel headers *)
Definition IFNAMSIZ : Z := 16.
Definition RTM_NEWLINK : Z := 16.
Definition RTM_DELLINK : Z := 17.
Definition RTM_NEWADDR : Z := 20.
Definition RTM_DELADDR : Z := 21.
Definition RTM_NEWROUTE : Z := 24.
Definition RTM_DELROUTE : Z := 25.
Definition NLM_F_EXCL : Z := 0x200.
Definition NLM_F_CREATE : Z := 0x400.
Definition IFLA_IFNAME : Z := 3.
Definition IFLA_LINKINFO : Z := 18.
Definition IFLA_NET_NS_PID : Z := 19.
Definition IFLA_NET_NS_FD : Z := 28.
Definition IFLA_INFO_KIND : Z := 1.
Definition IFLA_INFO_DATA : Z := 2.
Definition VETH_INFO_PEER : Z := 1.
Definition IFA_LOCAL : Z := 2.
Definition IFA_FLAGS : Z := 8.
Definition RTA_DST : Z := 1.
Definition RTA_SRC : Z := 2.
Definition RTA_OIF : Z := 4.
Definition RTA_GATEWAY : Z := 5.
Definition AF_INET : Z := 2.
Definition IFF_UP : Z := 1.

(** [struct ifinfomsg] with nothing set, [struct ifaddrmsg], [struct rtmsg]. *)
Definition ifinfomsg : list Z := zeros 16.
Definition ifaddrmsg (family prefix index : Z) : list Z := le 1 family ++ le 1 prefix ++ zeros 2 ++ le 4 index.
Definition rtmsg (family dstprefix srcprefix scope : Z) : list Z :=
  le 1 family ++ le 1 dstprefix ++ le 1 srcprefix ++ [0; 254; 4] ++ le 1 scope ++ [1] ++ zeros 4.

(** ** Outcomes *)
Inductive netdev_error : Set :=
  | Rtnl (e : rtnl_error) | NameTooLong (name : cstr) | IoctlFailed | InterfaceNotFound | NameOrGatewayRequired
  | Failed (errno : Z).
Abbreviation N := (res netdev_error).

Definition rtnl {A} (m : M A) : N A := match m with Ok a => Ok a | Err e => Err (Rtnl e) | Fault => Fault end.

(** What the kernel does: the result of [sendmsg], the answers, and what
    [SIOCGIFINDEX] gives. *)
Record kernel : Set := mkKernel { k_send : Z; k_answers : list (list Z); k_broken : bool; k_index : option Z }.

Definition name_ok (name : cstr) : N unit := if IFNAMSIZ <=? len name then Err (NameTooLong name) else Ok tt.

Definition tst_netdev_index_by_name (k : kernel) (ifname : cstr) : N Z :=
  _ ← name_ok ifname; match k_index k with Some i => Ok i | None => Err IoctlFailed end.

(** The flags that are written back; [get] and [set] are the answers of the
    two [ioctl]s. *)
Definition tst_netdev_set_state (get : option Z) (set : bool) (ifname : cstr) (up : bool) : N Z :=
  _ ← name_ok ifname;
  match get with
  | None => Err IoctlFailed
  | Some flags =>
      let flags := if up then Z.lor flags IFF_UP else Z.ldiff flags IFF_UP in
      if set then Ok flags else Err IoctlFailed
  end.

Section Requests.
Context (limit : Z) (k : kernel).

Definition create_request (type flags : Z) (payload : list Z) : N tst_rtnl_context :=
  rtnl (tst_rtnl_add_message limit tst_rtnl_create_context
          (mkHdr 0 type (Z.lor (Z.lor NLM_F_REQUEST NLM_F_ACK) flags) 0 0) payload).

(** [tst_rtnl_send_validate] and the message when it fails. *)
Definition validate (c : tst_rtnl_context) : N (Z * list Z) :=
  '(ret, errno, bytes) ← rtnl (tst_rtnl_send_validate limit c (k_send k) (k_answers k) (k_broken k));
  if ret =? 0 then Err (Failed errno) else Ok (ret, bytes).

Definition name_attr (name : cstr) : attr := Attr IFLA_IFNAME (name ++ [0]) (len name + 1) None.

Definition tst_create_veth_pair (ifname1 ifname2 : cstr) : N (Z * list Z) :=
  let peerinfo := [name_attr ifname2; attr_end] in
  let peerdata := [Attr VETH_INFO_PEER ifinfomsg 16 (Some peerinfo); attr_end] in
  let attrs := [name_attr ifname1;
                Attr IFLA_LINKINFO [] 0 (Some [Attr IFLA_INFO_KIND (str "veth" ++ [0]) 4 None;
                                               Attr IFLA_INFO_DATA [] 0 (Some peerdata); attr_end]);
                attr_end] in
  _ ← name_ok ifname1;
  _ ← name_ok ifname2;
  c ← create_request RTM_NEWLINK (Z.lor NLM_F_CREATE NLM_F_EXCL) ifinfomsg;
  '(c, n) ← rtnl (tst_rtnl_add_attr_list limit c attrs);
  if n =? 2 then validate c else Ok (0, []).

Definition tst_netdev_add_device (ifname devtype : cstr) : N (Z * list Z) :=
  let attrs := [name_attr ifname;
                Attr IFLA_LINKINFO [] 0 (Some [Attr IFLA_INFO_KIND (devtype ++ [0]) (len devtype) None; attr_end]);
                attr_end] in
  _ ← name_ok ifname;
  c ← create_request RTM_NEWLINK (Z.lor NLM_F_CREATE NLM_F_EXCL) ifinfomsg;
  '(c, n) ← rtnl (tst_rtnl_add_attr_list limit c attrs);
  if n =? 2 then validate c else Ok (0, []).

Definition tst_netdev_remove_device (ifname : cstr) : N (Z * list Z) :=
  _ ← name_ok ifname;
  c ← create_request RTM_DELLINK 0 ifinfomsg;
  c ← rtnl (tst_rtnl_add_attr_string limit c IFLA_IFNAME ifname);
  validate c.

Definition modify_address (action nl_flags : Z) (ifname : cstr) (family : Z) (address : list Z) (prefix addrlen addr_flags : Z)
    : N (Z * list Z) :=
  index ← tst_netdev_index_by_name k ifname;
  if index <? 0 then Err InterfaceNotFound
  else
    c ← create_request action nl_flags (ifaddrmsg family prefix index);
    c ← rtnl (tst_rtnl_add_attr limit c IFA_FLAGS (le 4 addr_flags) 4);
    c ← rtnl (tst_rtnl_add_attr limit c IFA_LOCAL address (wrap_u 16 addrlen));
    validate c.

Definition tst_netdev_add_address (ifname : cstr) (family : Z) (address : list Z) (prefix addrlen flags : Z) : N (Z * list Z) :=
  modify_address RTM_NEWADDR (Z.lor NLM_F_CREATE NLM_F_EXCL) ifname family address prefix addrlen flags.
Definition tst_netdev_add_address_inet (ifname : cstr) (address prefix flags : Z) : N (Z * list Z) :=
  tst_netdev_add_address ifname AF_INET (le 4 address) prefix 4 flags.
Definition tst_netdev_remove_address (ifname : cstr) (family : Z) (address : list Z) (addrlen : Z) : N (Z * list Z) :=
  modify_address RTM_DELADDR 0 ifname family address 0 addrlen 0.
Definition tst_netdev_remove_address_inet (ifname : cstr) (address : Z) : N (Z * list Z) :=
  tst_netdev_remove_address ifname AF_INET (le 4 address) 4.

Definition change_ns (ifname : cstr) (attr value : Z) : N (Z * list Z) :=
  _ ← name_ok ifname;
  c ← create_request RTM_NEWLINK 0 ifinfomsg;
  c ← rtnl (tst_rtnl_add_attr_string limit c IFLA_IFNAME ifname);
  c ← rtnl (tst_rtnl_add_attr limit c attr (le 4 value) 4);
  validate c.
Definition tst_netdev_change_ns_fd (ifname : cstr) (nsfd : Z) : N (Z * list Z) := change_ns ifname IFLA_NET_NS_FD nsfd.
Definition tst_netdev_change_ns_pid (ifname : cstr) (nspid : Z) : N (Z * list Z) := change_ns ifname IFLA_NET_NS_PID nspid.

(** An attribute for an address that may be absent. *)
Definition maybe_attr (c : tst_rtnl_context) (type : Z) (a : option (list Z * Z)) : N tst_rtnl_context :=
  match a with None => Ok c | Some (addr, n) => rtnl (tst_rtnl_add_attr limit c type addr (wrap_u 16 n)) end.

Definition modify_route (action flags : Z) (ifname : option cstr) (family : Z) (src : option (list Z * Z)) (srcprefix : Z)
    (dst : option (list Z * Z)) (dstprefix : Z) (gateway : option (list Z * Z)) : N (Z * list Z) :=
  match ifname, gateway with
  | None, None => Err NameOrGatewayRequired
  | _, _ =>
      index ← match ifname with
              | None => Ok None
              | Some name => _ ← name_ok name; i ← tst_netdev_index_by_name k name; Ok (Some i)
              end;
      if default false ((fun i => i <? 0) <$> index) then Ok (0, [])
      else
        c ← create_request action flags (rtmsg family dstprefix srcprefix (if action =? RTM_DELROUTE then 255 else 0));
        c ← maybe_attr c RTA_SRC src;
        c ← maybe_attr c RTA_DST dst;
        c ← maybe_attr c RTA_GATEWAY gateway;
        c ← maybe_attr c RTA_OIF ((fun i => (le 4 i, 4)) <$> index);
        validate c
  end.

Definition tst_netdev_add_route (ifname : option cstr) (family : Z) (src : option (list Z * Z)) (srcprefix : Z)
    (dst : option (list Z * Z)) (dstprefix : Z) (gateway : option (list Z * Z)) : N (Z * list Z) :=
  modify_route RTM_NEWROUTE (Z.lor NLM_F_CREATE NLM_F_EXCL) ifname family src srcprefix dst dstprefix gateway.
Definition tst_netdev_remove_route (ifname : option cstr) (family : Z) (src : option (list Z * Z)) (srcprefix : Z)
    (dst : option (list Z * Z)) (dstprefix : Z) (gateway : option (list Z * Z)) : N (Z * list Z) :=
  modify_route RTM_DELROUTE 0 ifname family src srcprefix dst dstprefix gateway.

(** An IPv4 address that is used when [used] is not zero. *)
Definition inet (used address : Z) : option (list Z * Z) := if used =? 0 then None else Some (le 4 address, 4).

Definition modify_route_inet (action flags : Z) (ifname : option cstr) (srcaddr srcprefix dstaddr dstprefix gateway : Z) : N (Z * list Z) :=
  modify_route action flags ifname AF_INET (inet srcprefix srcaddr) srcprefix (inet dstprefix dstaddr) dstprefix (inet gateway gateway).
Definition tst_netdev_add_route_inet (ifname : option cstr) (srcaddr srcprefix dstaddr dstprefix gateway : Z) : N (Z * list Z) :=
  modify_route_inet RTM_NEWROUTE (Z.lor NLM_F_CREATE NLM_F_EXCL) ifname srcaddr srcprefix dstaddr dstprefix gateway.
Definition tst_netdev_remove_route_inet (ifname : option cstr) (srcaddr srcprefix dstaddr dstprefix gateway : Z) : N (Z * list Z) :=
  modify_route_inet RTM_DELROUTE 0 ifname srcaddr srcprefix dstaddr dstprefix gateway.

(** ** The operations and their requests *)

Inductive op : Set :=
  | CreateVeth (ifname1 ifname2 : cstr)
  | AddDevice (ifname devtype : cstr)
  | RemoveDevice (ifname : cstr)
  | AddAddress (ifname : cstr) (family : Z) (address : list Z) (prefix flags : Z)
  | RemoveAddress (ifname : cstr) (family : Z) (address : list Z)
  | ChangeNsFd (ifname : cstr) (fd : Z)
  | ChangeNsPid (ifname : cstr) (pid : Z)
  | AddRoute (ifname : option cstr) (family : Z) (src : option (list Z)) (srcprefix : Z) (dst : option (list Z)) (dstprefix : Z) (gateway : option (list Z))
  | RemoveRoute (ifname : option cstr) (family : Z) (src : option (list Z)) (srcprefix : Z) (dst : option (list Z)) (dstprefix : Z) (gateway : option (list Z))
  | AddAddressInet (ifname : cstr) (address prefix flags : Z)
  | RemoveAddressInet (ifname : cstr) (address : Z)
  | AddRouteInet (ifname : option cstr) (srcaddr srcprefix dstaddr dstprefix gateway : Z)
  | RemoveRouteInet (ifname : option cstr) (srcaddr srcprefix dstaddr dstprefix gateway : Z).

Definition sized (a : option (list Z)) : option (list Z * Z) := (fun a => (a, len a)) <$> a.

Definition perform (o : op) : N (Z * list Z) :=
  match o with
  | CreateVeth n1 n2 => tst_create_veth_pair n1 n2
  | AddDevice n t => tst_netdev_add_device n t
  | RemoveDevice n => tst_netdev_remove_device n
  | AddAddress n f a p fl => tst_netdev_add_address n f a p (len a) fl
  | RemoveAddress n f a => tst_netdev_remove_address n f a (len a)
  | ChangeNsFd n v => tst_netdev_change_ns_fd n v
  | ChangeNsPid n v => tst_netdev_change_ns_pid n v
  | AddRoute n f s sp d dp g => tst_netdev_add_route n f (sized s) sp (sized d) dp (sized g)
  | RemoveRoute n f s sp d dp g => tst_netdev_remove_route n f (sized s) sp (sized d) dp (sized g)
  | AddAddressInet n a p fl => tst_netdev_add_address_inet n a p fl
  | RemoveAddressInet n a => tst_netdev_remove_address_inet n a
  | AddRouteInet n s sp d dp g => tst_netdev_add_route_inet n s sp d dp g
  | RemoveRouteInet n s sp d dp g => tst_netdev_remove_route_inet n s sp d dp g
  end.

(** The request an operation stands for; [index] is the interface. *)
Definition plain (t : Z) (d : list Z) : attr := Attr t d (len d) None.
Definition opt_attr (t : Z) (d : option (list Z)) : list attr := match d with None => [] | Some d => [plain t d] end.
Definition kind_info (kind : cstr) (more : list attr) : attr :=
  Attr IFLA_LINKINFO [] 0 (Some (Attr IFLA_INFO_KIND (kind ++ [0]) (len kind) None :: more)).
Definition req (type flags : Z) (payload : list Z) (l : list attr) : request :=
  mkReq (mkHdr 0 type (Z.lor (Z.lor NLM_F_REQUEST NLM_F_ACK) flags) 0 0) payload (l ++ [attr_end]).

Definition NEW : Z := Z.lor NLM_F_CREATE NLM_F_EXCL.
Definition route_attrs (n : option cstr) (index : Z) (s d g : option (list Z)) : list attr :=
  opt_attr RTA_SRC s ++ opt_attr RTA_DST d ++ opt_attr RTA_GATEWAY g ++ opt_attr RTA_OIF ((fun _ => le 4 index) <$> n).

(** Source and destination of an IPv4 route count with their prefix, the
    gateway if it is not 0. *)
Definition inet_addr (used address : Z) : option (list Z) := if used =? 0 then None else Some (le 4 address).

Definition op_request (index : Z) (o : op) : request :=
  match o with
  | CreateVeth n1 n2 =>
      let peer := Attr VETH_INFO_PEER ifinfomsg 16 (Some [name_attr n2; attr_end]) in
      req RTM_NEWLINK NEW ifinfomsg
        [name_attr n1; kind_info (str "veth") [Attr IFLA_INFO_DATA [] 0 (Some [peer; attr_end]); attr_end]]
  | AddDevice n t => req RTM_NEWLINK NEW ifinfomsg [name_attr n; kind_info t [attr_end]]
  | RemoveDevice n => req RTM_DELLINK 0 ifinfomsg [name_attr n]
  | AddAddress n f a p fl => req RTM_NEWADDR NEW (ifaddrmsg f p index) [plain IFA_FLAGS (le 4 fl); plain IFA_LOCAL a]
  | RemoveAddress n f a => req RTM_DELADDR 0 (ifaddrmsg f 0 index) [plain IFA_FLAGS (le 4 0); plain IFA_LOCAL a]
  | ChangeNsFd n v => req RTM_NEWLINK 0 ifinfomsg [name_attr n; plain IFLA_NET_NS_FD (le 4 v)]
  | ChangeNsPid n v => req RTM_NEWLINK 0 ifinfomsg [name_attr n; plain IFLA_NET_NS_PID (le 4 v)]
  | AddRoute n f s sp d dp g => req RTM_NEWROUTE NEW (rtmsg f dp sp 0) (route_attrs n index s d g)
  | RemoveRoute n f s sp d dp g => req RTM_DELROUTE 0 (rtmsg f dp sp 255) (route_attrs n index s d g)
  | AddAddressInet n a p fl => req RTM_NEWADDR NEW (ifaddrmsg AF_INET p index) [plain IFA_FLAGS (le 4 fl); plain IFA_LOCAL (le 4 a)]
  | RemoveAddressInet n a => req RTM_DELADDR 0 (ifaddrmsg AF_INET 0 index) [plain IFA_FLAGS (le 4 0); plain IFA_LOCAL (le 4 a)]
  | AddRouteInet n s sp d dp g => req RTM_NEWROUTE NEW (rtmsg AF_INET dp sp 0) (route_attrs n index (inet_addr sp s) (inet_addr dp d) (inet_addr g g))
  | RemoveRouteInet n s sp d dp g => req RTM_DELROUTE 0 (rtmsg AF_INET dp sp 255) (route_attrs n index (inet_addr sp s) (inet_addr dp d) (inet_addr g g))
  end.

Definition short (n : cstr) : bool := len n <? IFNAMSIZ.
Definition addr_ok (a : list Z) : bool := len a <=? 1024.
Definition opt_ok (p : list Z -> bool) (a : option (list Z)) : bool := match a with None => true | Some a => p a end.

(** Names that fit, addresses of at most 1024 bytes, an interface that is
    there, and for a route a name or a gateway. *)
Definition valid (index : Z) (o : op) : bool :=
  let has_index := bool_decide (k_index k = Some index) && (0 <=? index) in
  match o with
  | CreateVeth n1 n2 => short n1 && short n2
  | AddDevice n t => short n && (len t <=? 1024)
  | RemoveDevice n | ChangeNsFd n _ | ChangeNsPid n _ => short n
  | AddAddress n _ a _ _ | RemoveAddress n _ a => short n && addr_ok a && has_index
  | AddRoute n _ s _ d _ g | RemoveRoute n _ s _ d _ g =>
      match n, g with None, None => false | _, _ => true end && opt_ok short n && (match n with None => true | Some _ => has_index end)
      && opt_ok addr_ok s && opt_ok addr_ok d && opt_ok addr_ok g
  | AddAddressInet n _ _ _ | RemoveAddressInet n _ => short n && has_index
  | AddRouteInet n _ _ _ _ g | RemoveRouteInet n _ _ _ _ g =>
      (match n with None => negb (g =? 0) | Some _ => true end) && opt_ok short n && (match n with None => true | Some _ => has_index end)
  end.
End Requests.

(** ** The requests are built *)
Section Correct.
Context (limit : Z) (k : kernel).

Lemma rtnl_bind {A B} (m : M A) (f : A -> M B) : rtnl (m ≫= f) = rtnl m ≫= (fun a => rtnl (f a)).
Proof. by destruct m. Qed.
Lemma bind_assoc {A B C} (m : N A) (f : A -> N B) (g : B -> N C) : (m ≫= f) ≫= g = m ≫= (fun a => f a ≫= g).
Proof. by destruct m. Qed.
Lemma bind_ext {A B} (m : N A) (f g : A -> N B) : (forall a, f a = g a) -> m ≫= f = m ≫= g.
Proof. destruct m; cbn; auto. Qed.

(** A request, sent. *)
Definition send_request (r : request) : N (Z * list Z) :=
  c ← rtnl (add_request limit tst_rtnl_create_context r); validate limit k c.

Lemma add_each_count l : forall c i c' n, add_each (add_attr_one limit) c l i = Ok (c', n) -> n = i + Z.of_nat (length (live l)).
Proof.
  induction l as [|a l IH]; intros c i c' n H; [done|]. cbn [add_each live] in *. change (let '(Attr _ _ n _) := a in n) with (alen a) in H.
  destruct (alen a <? 0).
  - injection H as _ <-. cbn. lia.
  - destruct (add_attr_one limit c a); [|done..]. cbn [mbind res_bind] in H. apply IH in H. cbn [length]. lia.
Qed.

(** The attributes of a request that are added one by one. *)
Fixpoint add_plain (c : tst_rtnl_context) (l : list attr) : M tst_rtnl_context :=
  match l with [] => Ok c | a :: l => c ← add_attr_one limit c a; add_plain c l end.

Lemma add_plain_list l c : Forall (fun a => 0 <= alen a) l -> ('(c, _) ← tst_rtnl_add_attr_list limit c (l ++ [attr_end]); Ok c) = add_plain c l.
Proof.
  intros H. unfold tst_rtnl_add_attr_list. generalize 0. revert c. induction H as [|a l Ha _ IH]; intros c i; [done|].
  cbn [add_each app add_plain]. change (let '(Attr _ _ n _) := a in n) with (alen a). rewrite (proj2 (Z.ltb_ge _ 0)) by lia.
  destruct (add_attr_one limit c a); [|done..]. cbn [mbind res_bind]. apply IH.
Qed.

Lemma send_request_eq type flags payload l : Forall (fun a => 0 <= alen a) l ->
  send_request (req type flags payload l) =
  c ← create_request limit type flags payload; c ← rtnl (add_plain c l); validate limit k c.
Proof.
  intros Hl. unfold send_request, add_request, create_request, req. cbn [r_header r_payload r_attrs].
  rewrite rtnl_bind, bind_assoc. apply bind_ext. intros c. by rewrite add_plain_list.
Qed.

(** A list of two attributes, as [tst_rtnl_add_attr_list] counts them. *)
Lemma send_two type flags payload a b : 0 <= alen a -> 0 <= alen b ->
  (c ← create_request limit type flags payload; '(c, n) ← rtnl (tst_rtnl_add_attr_list limit c [a; b; attr_end]);
   if n =? 2 then validate limit k c else Ok (0, [])) = send_request (req type flags payload [a; b]).
Proof.
  intros Ha Hb. rewrite send_request_eq by (by repeat constructor). apply bind_ext. intros c.
  rewrite <-(add_plain_list [a; b]) by (by repeat constructor). cbn [app].
  destruct (tst_rtnl_add_attr_list limit c [a; b; attr_end]) as [[c' n]| |] eqn:E; [|done..].
  apply add_each_count in E. cbn [live alen attr_end] in E. rewrite !(proj2 (Z.ltb_ge _ 0)) in E by done. cbn in E. by subst n.
Qed.

Lemma add_attr_plain c t d : len d <= 65535 -> tst_rtnl_add_attr limit c t d (len d) = add_attr_one limit c (plain t d).
Proof.
  intros Hd. cbn [add_attr_one plain]. rewrite (proj2 (Z.ltb_ge USHRT_MAX _)) by (unfold USHRT_MAX; lia).
  by destruct (tst_rtnl_add_attr limit c t d (len d)).
Qed.

Lemma add_string_name c n : short n = true -> tst_rtnl_add_attr_string limit c IFLA_IFNAME n = add_attr_one limit c (name_attr n).
Proof.
  unfold short, IFNAMSIZ. rewrite Z.ltb_lt. intros Hn. pose proof (len_nonneg n). unfold tst_rtnl_add_attr_string. rewrite wrap_u_id by lia.
  pose proof (add_attr_plain c IFLA_IFNAME (n ++ [0])) as Hp. unfold plain in Hp. rewrite len_app in Hp. apply Hp. change (len [0]) with 1. lia.
Qed.

Lemma name_ok_short n : short n = true -> name_ok n = Ok tt.
Proof. unfold short, name_ok. rewrite Z.ltb_lt. intros H. by rewrite (proj2 (Z.leb_gt IFNAMSIZ (len n))). Qed.

Lemma opt_attr_pos t d : Forall (fun a => 0 <= alen a) (opt_attr t d).
Proof. destruct d; constructor; [apply len_nonneg|done]. Qed.

Lemma add_plain_app c l l' : add_plain c (l ++ l') = c ← add_plain c l; add_plain c l'.
Proof. revert c. induction l as [|a l IH]; intros c; [done|]. cbn [app add_plain]. destruct (add_attr_one limit c a); [apply IH|done..]. Qed.

Lemma maybe_attr_plain c t d : opt_ok addr_ok d = true -> maybe_attr limit c t (sized d) = rtnl (add_plain c (opt_attr t d)).
Proof.
  destruct d as [d|]; [|done]. cbn [opt_ok sized fmap option_fmap option_map maybe_attr opt_attr add_plain]. unfold addr_ok. rewrite Z.leb_le. intros Hd.
  pose proof (len_nonneg d). rewrite wrap_u_id, add_attr_plain by lia. by destruct (add_attr_one limit c (plain t d)).
Qed.

(** *** Every operation sends its request *)
Lemma name_attr_pos n : 0 <= alen (name_attr n).
Proof. cbn. pose proof (len_nonneg n). lia. Qed.
Lemma plain_pos t d : 0 <= alen (plain t d).
Proof. apply len_nonneg. Qed.
Ltac attrs_pos := repeat apply Forall_cons_2; first [apply name_attr_pos | apply plain_pos | apply Forall_nil_2].
Lemma change_ns_sends n t v : short n = true -> 0 <= t ->
  change_ns limit k n t v = send_request (req RTM_NEWLINK 0 ifinfomsg [name_attr n; plain t (le 4 v)]).
Proof.
  intros Hn Ht. unfold change_ns. rewrite name_ok_short by done. cbn [mbind res_bind].
  rewrite send_request_eq by attrs_pos. apply bind_ext. intros c.
  cbn [add_plain]. rewrite rtnl_bind, bind_assoc, add_string_name by done. apply bind_ext. intros c1.
  rewrite rtnl_bind, bind_assoc, <-add_attr_plain by done. apply bind_ext. by intros c2.
Qed.

Lemma modify_address_sends action fl n f a p index afl : short n = true -> addr_ok a = true -> k_index k = Some index -> 0 <= index ->
  modify_address limit k action fl n f a p (len a) afl
  = send_request (req action fl (ifaddrmsg f p index) [plain IFA_FLAGS (le 4 afl); plain IFA_LOCAL a]).
Proof.
  unfold addr_ok. rewrite Z.leb_le. intros Hn Ha Hi H0. pose proof (len_nonneg a).
  unfold modify_address, tst_netdev_index_by_name. rewrite name_ok_short, Hi by done. cbn [mbind res_bind].
  rewrite (proj2 (Z.ltb_ge index 0)) by done. rewrite send_request_eq by attrs_pos.
  apply bind_ext. intros c. cbn [add_plain]. rewrite rtnl_bind, bind_assoc, <-add_attr_plain by done. apply bind_ext. intros c1.
  rewrite rtnl_bind, bind_assoc, wrap_u_id, <-add_attr_plain by lia. apply bind_ext. by intros c2.
Qed.

Lemma modify_route_sends action fl n f s sp d dp g index :
  match n, g with None, None => false | _, _ => true end = true -> opt_ok short n = true ->
  (n <> None -> k_index k = Some index /\ 0 <= index) -> opt_ok addr_ok s = true -> opt_ok addr_ok d = true -> opt_ok addr_ok g = true ->
  modify_route limit k action fl n f (sized s) sp (sized d) dp (sized g)
  = send_request (req action fl (rtmsg f dp sp (if action =? RTM_DELROUTE then 255 else 0)) (route_attrs n index s d g)).
Proof.
  intros Hng Hn Hi Hs Hd Hg. rewrite send_request_eq by (unfold route_attrs; repeat apply Forall_app_2; apply opt_attr_pos).
  assert (E : forall c, (c ← maybe_attr limit c RTA_SRC (sized s); c ← maybe_attr limit c RTA_DST (sized d);
    c ← maybe_attr limit c RTA_GATEWAY (sized g); c ← maybe_attr limit c RTA_OIF ((fun i => (le 4 i, 4)) <$> ((fun _ => index) <$> n)); validate limit k c)
    = (c ← rtnl (add_plain c (route_attrs n index s d g)); validate limit k c)).
  { intros c. unfold route_attrs. rewrite add_plain_app, rtnl_bind, bind_assoc, maybe_attr_plain by done. apply bind_ext. clear c. intros c.
    rewrite add_plain_app, rtnl_bind, bind_assoc, maybe_attr_plain by done. apply bind_ext. clear c. intros c.
    rewrite add_plain_app, rtnl_bind, bind_assoc, maybe_attr_plain by done. apply bind_ext. clear c. intros c.
    rewrite <-(maybe_attr_plain c RTA_OIF) by (by destruct n). by destruct n. }
  unfold modify_route. destruct n as [n|].
  - destruct (Hi ltac:(done)) as [Hk H0]. unfold tst_netdev_index_by_name. rewrite name_ok_short, Hk by done. cbn [mbind res_bind].
    cbn [fmap option_fmap option_map default] in *. rewrite (proj2 (Z.ltb_ge index 0)) by done. cbn [id]. destruct (sized g); apply bind_ext, E.
  - destruct g as [g|]; [|done]. cbn [sized fmap option_fmap option_map default mbind res_bind] in *. apply bind_ext, E.
Qed.

Lemma inet_sized u a : inet u a = sized (inet_addr u a).
Proof. unfold inet, inet_addr. by destruct (u =? 0). Qed.
Lemma inet_ok u a : opt_ok addr_ok (inet_addr u a) = true.
Proof. unfold inet_addr. by destruct (u =? 0). Qed.
Lemma modify_route_inet_sends action fl n s sp d dp g index :
  (match n with None => negb (g =? 0) | Some _ => true end) && opt_ok short n && (match n with None => true | Some _ => bool_decide (k_index k = Some index) && (0 <=? index) end) = true ->
  modify_route_inet limit k action fl n s sp d dp g
  = send_request (req action fl (rtmsg AF_INET dp sp (if action =? RTM_DELROUTE then 255 else 0)) (route_attrs n index (inet_addr sp s) (inet_addr dp d) (inet_addr g g))).
Proof.
  intros [[H1 H2]%andb_true_iff H3]%andb_true_iff. unfold modify_route_inet. rewrite !inet_sized. apply modify_route_sends; [|done| |apply inet_ok..].
  - destruct n; [done|]. unfold inet_addr. by destruct (g =? 0).
  - intros Hne. destruct n; [|done]. apply andb_true_iff in H3 as [?%bool_decide_eq_true ?%Z.leb_le]. done.
Qed.

Lemma perform_sends index o : valid k index o = true -> perform limit k o = send_request (op_request index o).
Proof.
  destruct o as [n1 n2|n t|n|n f a p fl|n f a|n v|n v|n f s sp d dp g|n f s sp d dp g|n a p fl|n a|n s sp d dp g|n s sp d dp g]; cbn [valid perform op_request];
    [..|apply modify_route_inet_sends|apply modify_route_inet_sends]; rewrite ?Bool.andb_true_iff, ?bool_decide_eq_true, ?Z.leb_le.
  - intros [H1 H2]. unfold tst_create_veth_pair. rewrite !name_ok_short by done. cbn [mbind res_bind].
    apply send_two; [apply name_attr_pos|done].
  - intros [H1 H2]. unfold tst_netdev_add_device. rewrite name_ok_short by done. cbn [mbind res_bind].
    apply send_two; [apply name_attr_pos|done].
  - intros Hn. unfold tst_netdev_remove_device. rewrite name_ok_short by done. cbn [mbind res_bind].
    rewrite send_request_eq by attrs_pos. apply bind_ext. intros c.
    cbn [add_plain]. rewrite rtnl_bind, bind_assoc, add_string_name by done. apply bind_ext. by intros c1.
  - intros [[Hn Ha] [Hk Hi]]. by apply modify_address_sends.
  - intros [[Hn Ha] [Hk Hi]]. by apply modify_address_sends.
  - intros Hn. by apply change_ns_sends.
  - intros Hn. by apply change_ns_sends.
  - intros (((((Hng & Hn) & Hi) & Hs) & Hd) & Hg). apply modify_route_sends; try done; [by destruct n|].
    intros Hne. destruct n; [|done]. by rewrite Bool.andb_true_iff, bool_decide_eq_true, Z.leb_le in Hi.
  - intros (((((Hng & Hn) & Hi) & Hs) & Hd) & Hg). apply modify_route_sends; try done; [by destruct n|].
    intros Hne. destruct n; [|done]. by rewrite Bool.andb_true_iff, bool_decide_eq_true, Z.leb_le in Hi.
  - intros [Hn [Hk Hi]]. by apply modify_address_sends.
  - intros [Hn [Hk Hi]]. by apply modify_address_sends.
Qed.

(** *** And the answer decides *)
Definition verdict (bytes : list Z) (m : M (Z * Z)) : N (Z * list Z) :=
  match m with
  | Ok (v, e) => if v =? 0 then Err (Failed e) else Ok (v, bytes)
  | Err e => Err (Rtnl e)
  | Fault => Fault
  end.

Lemma send_request_verdict r answers : limit < 2 ^ 30 -> wf_request r = true -> len (r_payload r) <= 1008 ->
  k_send k = len (stream (sent [r])) -> k_broken k = false -> concat (k_answers k) = stream answers -> answers <> [] ->
  Forall answer_ok answers -> len (stream answers) < 2 ^ 31 ->
  send_request r = Err (Rtnl ReallocFailed) \/ send_request r = verdict (stream (sent [r])) (acked (sent [r]) answers).
Proof.
  intros Hlim Hw Hl Hsend Hbr Hc Hne Ha Hal.
  pose proof (validate_stream limit r [] (k_answers k) answers Hlim ltac:(by repeat constructor) Hl ltac:(done) Hc Ha Hal) as H.
  cbn [add_requests] in H. unfold send_request. destruct (add_request limit tst_rtnl_create_context r) as [c|e|]; cbn [mbind res_bind succeeds] in H.
  - rewrite decide_False in H by done. unfold validate. cbn [rtnl mbind res_bind]. rewrite Hsend, Hbr. destruct H as [-> | ->]; [by left|right].
    by destruct (acked (sent [r]) answers) as [[v e]| |].
  - left. by rewrite H.
  - done.
Qed.

(** *** The requests can be sent *)
Lemma len_join_le l : len (join l) <= foldr (fun x n => len x + 3 + n) 0 l.
Proof.
  induction l as [|x l IH]; [done|]. destruct l as [|y l]; [cbn [join foldr]; lia|].
  rewrite join_cons, len_app by done. pose proof (len_pad_bounds x). cbn [foldr] in *. lia.
Qed.

Lemma len_enc a : len (enc_attr a) = 4 + len (attr_body a).
Proof. rewrite enc_parts. apply len_rta. Qed.

Lemma wf_leaf t d n : 0 <= t < 65536 -> 0 <= n <= 65531 -> n <= len d ->
  wf_attr (Attr t d n None) = true /\ len (enc_attr (Attr t d n None)) = 4 + n.
Proof.
  intros Ht Hn Hd. assert (E : len (enc_attr (Attr t d n None)) = 4 + n) by (rewrite len_enc; cbn [attr_body join]; rewrite len_take by lia; done).
  split; [|done]. apply wf_attr_eq. repeat split; lia.
Qed.

Lemma wf_plain t d : 0 <= t < 65536 -> len d <= 65531 -> wf_attr (plain t d) = true.
Proof. intros Ht Hd. pose proof (len_nonneg d). by apply wf_leaf; [|lia..]. Qed.

(** A list before its end mark. *)
Lemma wf_list_snoc l : Forall (fun a => wf_attr a = true) l -> wf_list (l ++ [attr_end]) = true.
Proof.
  induction 1 as [|a l Ha _ IH]; [done|]. cbn [app wf_list]. rewrite Ha, IH. by destruct (alen a <? 0).
Qed.

Lemma wf_opt t d : 0 <= t < 65536 -> opt_ok addr_ok d = true -> Forall (fun a => wf_attr a = true) (opt_attr t d).
Proof.
  intros Ht. destruct d as [d|]; [|by constructor]. cbn. unfold addr_ok. rewrite Z.leb_le. intros Hd.
  constructor; [apply wf_plain; [done|lia]|constructor].
Qed.

Definition total (l : list attr) : Z := foldr (fun a n => len (enc_attr a) + 3 + n) 0 l.

Lemma total_nonneg l : 0 <= total l.
Proof. induction l as [|a l IH]; [done|]. cbn [total foldr]. fold (total l). pose proof (len_nonneg (enc_attr a)). lia. Qed.

(** A container, with a block of its own in front of its attributes. *)
Lemma wf_container t d l : 0 <= t < 65536 -> len d <= 1024 -> Forall (fun a => wf_attr a = true) l -> total l <= 60000 ->
  let a := Attr t d (len d) (Some (l ++ [attr_end])) in wf_attr a = true /\ len (enc_attr a) <= 7 + len d + total l.
Proof.
  intros Ht Hd Hl Hb a. pose proof (len_nonneg d).
  assert (Hlen : len (enc_attr a) <= 7 + len d + total l).
  { rewrite len_enc. cbn [attr_body a]. pose proof (len_join_le (take (Z.to_nat (len d)) d :: (enc_attr <$> live (l ++ [attr_end])))) as H1.
    cbn [foldr] in H1. rewrite len_take in H1 by lia.
    enough (foldr (fun x n => len x + 3 + n) 0 (enc_attr <$> live (l ++ [attr_end])) <= total l) by lia.
    clear. induction l as [|a l IH]; [done|]. cbn [app live]. destruct (alen a <? 0); [apply total_nonneg|]. cbn [fmap list_fmap foldr total]. fold (total l). lia. }
  split; [|done]. apply wf_attr_eq. fold a. repeat split; try lia. by apply wf_list_snoc.
Qed.

Lemma name_attr_wf n : short n = true -> wf_attr (name_attr n) = true /\ len (enc_attr (name_attr n)) <= 20.
Proof.
  unfold short, IFNAMSIZ. rewrite Z.ltb_lt. intros Hn. pose proof (len_nonneg n).
  destruct (wf_leaf IFLA_IFNAME (n ++ [0]) (len n + 1)) as [H1 H2]; [done|lia|rewrite len_app; done|]. split; [done|]. unfold name_attr. lia.
Qed.

Lemma kind_info_wf kind l : len kind <= 1024 -> Forall (fun a => wf_attr a = true) l -> total l <= 2000 ->
  wf_attr (kind_info kind (l ++ [attr_end])) = true.
Proof.
  intros Hk Hl Ht. pose proof (len_nonneg kind).
  destruct (wf_leaf IFLA_INFO_KIND (kind ++ [0]) (len kind)) as [H1 H2]; [done|lia|rewrite len_app; pose proof (len_nonneg [0]); lia|].
  apply (wf_container IFLA_LINKINFO [] (Attr IFLA_INFO_KIND (kind ++ [0]) (len kind) None :: l)); [done|done|by constructor|].
  cbn [total foldr]. fold (total l). rewrite H2. lia.
Qed.

Lemma veth_wf n : short n = true -> wf_attr (kind_info (str "veth")
  [Attr IFLA_INFO_DATA [] 0 (Some [Attr VETH_INFO_PEER ifinfomsg 16 (Some [name_attr n; attr_end]); attr_end]); attr_end]) = true.
Proof.
  intros Hn. destruct (name_attr_wf n Hn) as [W1 L1].
  destruct (wf_container VETH_INFO_PEER ifinfomsg [name_attr n]) as [W2 L2]; [done|done|by constructor|cbn [total foldr]; lia|].
  cbn [total foldr] in L2. change (len ifinfomsg) with 16 in *. cbn [app] in W2, L2. set (peer := Attr VETH_INFO_PEER _ _ _) in *.
  destruct (wf_container IFLA_INFO_DATA [] [peer]) as [W3 L3]; [done|done|by constructor|cbn [total foldr]; lia|].
  cbn [total foldr] in L3. change (len []) with 0 in *. cbn [app] in W3, L3.
  apply (kind_info_wf (str "veth") [Attr IFLA_INFO_DATA [] 0 (Some [peer; attr_end])]); [done|by constructor|]. cbn [total foldr]. lia.
Qed.

Lemma req_wf type flags payload l : In type [RTM_NEWLINK; RTM_DELLINK; RTM_NEWADDR; RTM_DELADDR; RTM_NEWROUTE; RTM_DELROUTE] ->
  flags = 0 \/ flags = NEW -> len payload <= 1008 -> Forall (fun a => wf_attr a = true) l -> wf_request (req type flags payload l) = true.
Proof.
  intros Ht Hf Hp Hl. apply wf_request_iff. cbn [req r_header r_payload r_attrs nlmsg_type nlmsg_flags].
  split; [split|split; [|split; [lia|by apply wf_list_snoc]]].
  - cbn in Ht. repeat (destruct Ht as [<-|Ht]; [done|]). done.
  - by destruct Hf as [->| ->].
  - by destruct Hf as [->| ->].
Qed.

Lemma op_request_wf index o : valid k index o = true -> wf_request (op_request index o) = true /\ len (r_payload (op_request index o)) <= 1008.
Proof.
  destruct o as [n1 n2|n t|n|n f a p fl|n f a|n v|n v|n f s sp d dp g|n f s sp d dp g|n a p fl|n a|n s sp d dp g|n s sp d dp g]; cbn [valid op_request];
    rewrite ?Bool.andb_true_iff, ?bool_decide_eq_true, ?Z.leb_le; intros H; (split; [apply req_wf; [cbn; tauto|by auto|done|]|done]).
  - destruct H as [H1 H2]. constructor; [by apply name_attr_wf|]. constructor; [by apply veth_wf|constructor].
  - destruct H as [H1 H2]. constructor; [by apply name_attr_wf|]. constructor; [by apply (kind_info_wf t [])|constructor].
  - constructor; [by apply name_attr_wf|constructor].
  - destruct H as [[_ Ha] _]. unfold addr_ok in Ha. rewrite Z.leb_le in Ha. constructor; [by apply wf_plain|]. constructor; [apply wf_plain; [done|lia]|constructor].
  - destruct H as [[_ Ha] _]. unfold addr_ok in Ha. rewrite Z.leb_le in Ha. constructor; [by apply wf_plain|]. constructor; [apply wf_plain; [done|lia]|constructor].
  - constructor; [by apply name_attr_wf|]. constructor; [by apply wf_plain|constructor].
  - constructor; [by apply name_attr_wf|]. constructor; [by apply wf_plain|constructor].
  - destruct H as [[[_ Hs] Hd] Hg]. unfold route_attrs. repeat apply Forall_app_2; apply wf_opt; try done. by destruct n.
  - destruct H as [[[_ Hs] Hd] Hg]. unfold route_attrs. repeat apply Forall_app_2; apply wf_opt; try done. by destruct n.
  - constructor; [by apply wf_plain|]. constructor; [by apply wf_plain|constructor].
  - constructor; [by apply wf_plain|]. constructor; [by apply wf_plain|constructor].
  - unfold route_attrs. repeat apply Forall_app_2; apply wf_opt; try done; [apply inet_ok..|by destruct n].
  - unfold route_attrs. repeat apply Forall_app_2; apply wf_opt; try done; [apply inet_ok..|by destruct n].
Qed.
End Correct.

(** The first name of an operation that does not fit. *)
Definition long_name (o : op) : option cstr :=
  let first := list_find (fun n => short n = false) in
  snd <$> first (match o with
                 | CreateVeth n1 n2 => [n1; n2]
                 | AddDevice n _ | RemoveDevice n | AddAddress n _ _ _ _ | RemoveAddress n _ _ | ChangeNsFd n _ | ChangeNsPid n _ | AddAddressInet n _ _ _ | RemoveAddressInet n _ => [n]
                 | AddRoute n _ _ _ _ _ _ | RemoveRoute n _ _ _ _ _ _ | AddRouteInet n _ _ _ _ _ | RemoveRouteInet n _ _ _ _ _ => option_list n
                 end).

Lemma name_too_long n : short n = false -> name_ok n = Err (NameTooLong n).
Proof. unfold short, name_ok. rewrite Z.ltb_ge. intros H. by rewrite (proj2 (Z.leb_le IFNAMSIZ (len n))). Qed.

Lemma refuses_long_name limit k o n : long_name o = Some n -> perform limit k o = Err (NameTooLong n).
Proof.
  unfold long_name. intros H. apply fmap_Some in H as ([i n'] & Hf & ->). apply list_find_Some in Hf as (Hi & Hs & Hb). cbn [snd].
  assert (Hlong := name_too_long n' Hs).
  destruct o as [n1 n2|n t|n|n f a p fl|n f a|n v|n v|n f s sp d dp g|n f s sp d dp g|n a p fl|n a|n s sp d dp g|n s sp d dp g]; cbn [perform].
  1: { destruct i as [|[|i]]; cbn in Hi; simplify_eq; unfold tst_create_veth_pair; [by rewrite Hlong|].
       rewrite (name_ok_short n1); [cbn [mbind res_bind]; by rewrite Hlong|]. apply Bool.not_false_iff_true. by apply (Hb 0%nat n1); [|lia]. }
  1-6, 9-10: destruct i as [|i]; cbn in Hi; simplify_eq;
    unfold tst_netdev_add_address_inet, tst_netdev_remove_address_inet, tst_netdev_add_device, tst_netdev_remove_device, tst_netdev_add_address, tst_netdev_remove_address, modify_address,
      tst_netdev_index_by_name, tst_netdev_change_ns_fd, tst_netdev_change_ns_pid, change_ns; by rewrite Hlong.
  all: destruct n as [n|]; [|done]; destruct i as [|i]; cbn in Hi; simplify_eq;
    unfold tst_netdev_add_route_inet, tst_netdev_remove_route_inet, modify_route_inet, tst_netdev_add_route, tst_netdev_remove_route, modify_route; by rewrite Hlong.
Qed.

(** [IFF_UP] and the other flags of an interface. *)
Lemma set_up_spec flags (up : bool) i : 0 <= i -> Z.testbit (if up then Z.lor flags IFF_UP else Z.ldiff flags IFF_UP) i = if i =? 0 then up else Z.testbit flags i.
Proof.
  intros Hi. assert (Hb : Z.testbit IFF_UP i = (i =? 0)) by (destruct (Z.eqb_spec i 0) as [->|]; [done|]; apply (Z.bits_above_log2 1); [lia|cbn; lia]).
  destruct up; [rewrite Z.lor_spec|rewrite Z.ldiff_spec by done]; rewrite Hb; destruct (i =? 0), (Z.testbit flags i); done.
Qed.

(** ** Properties *)

(** C16: every operation on devices, addresses, routes and name spaces sends
    one request, and the kernel's answer decides.  For names below 16 bytes
    and addresses of at most 1024, the bytes that are sent are the request of
    the operation, which reads back as its payload and tree of attributes; the
    operation succeeds when the answer acknowledges the request, fails with
    the error the kernel gave, and breaks off without an acknowledgement (or
    when [realloc] fails).  A longer name is refused and nothing is sent.  The
    state of a device is set by writing back its flags with only IFF_UP
    changed, and fails when one of the two [ioctl]s does. *)
Theorem netdev_correct limit k index o answers :
  limit < 2 ^ 30 -> k_send k = len (stream (sent [op_request index o])) -> k_broken k = false ->
  concat (k_answers k) = stream answers -> answers <> [] -> Forall answer_ok answers -> len (stream answers) < 2 ^ 31 ->
  let r := op_request index o in
  (valid k index o = true ->
     (perform limit k o = Err (Rtnl ReallocFailed) \/ perform limit k o = verdict (stream (sent [r])) (acked (sent [r]) answers))
     /\ carries [r] (sent [r])) /\
  (forall n, long_name o = Some n -> perform limit k o = Err (NameTooLong n)) /\
  (forall flags n up, short n = true ->
     (exists flags', tst_netdev_set_state (Some flags) true n up = Ok flags' /\ forall i, 0 <= i -> Z.testbit flags' i = if i =? 0 then up else Z.testbit flags i) /\
     (forall set, tst_netdev_set_state None set n up = Err IoctlFailed) /\ tst_netdev_set_state (Some flags) false n up = Err IoctlFailed) /\
  (forall get set n up, short n = false -> tst_netdev_set_state get set n up = Err (NameTooLong n)).
Proof.
  intros Hlim Hs Hb Hc Hne Ha Hal r. split; [|split; [apply refuses_long_name|split]].
  2: { intros flags n up Hn. unfold tst_netdev_set_state. rewrite name_ok_short by done. cbn [mbind res_bind]. split_and!; [|done|done].
       eexists. split; [reflexivity|]. intros i Hi. by apply set_up_spec. }
  2: { intros get set n up Hn. unfold tst_netdev_set_state. by rewrite name_too_long. }
  intros Hv. rewrite (perform_sends limit k index o Hv). destruct (op_request_wf k index o Hv) as [Hw Hp].
  split; [by apply send_request_verdict|]. apply sent_carries. by constructor.
Qed.

(** ** A pair of devices *)
Definition veth_op : op := CreateVeth (str "ltp_veth1") (str "ltp_veth2").
Definition kernel_says (e : Z) : kernel := mkKernel (len (stream (sent [op_request 0 veth_op]))) [stream [ack 0 e]] false None.

Lemma netdev_correct_witness :
  (valid (kernel_says 0) 0 veth_op = true /\
     (perform 4096 (kernel_says 0) veth_op = Err (Rtnl ReallocFailed) \/
      perform 4096 (kernel_says 0) veth_op
      = verdict (stream (sent [op_request 0 veth_op])) (acked (sent [op_request 0 veth_op]) [ack 0 0]))
     /\ carries [op_request 0 veth_op] (sent [op_request 0 veth_op])) /\
  tst_netdev_set_state (Some 2) false (str "eth0") true = Err IoctlFailed.
Proof.
  destruct (netdev_correct 4096 (kernel_says 0) 0 veth_op [ack 0 0]) as (H1 & _ & H2 & _); [done|done|done|apply app_nil_r|done| |done|].
  - constructor; [|constructor]. split; [constructor; zeval|]. intros _. split; [vm_compute; discriminate|done].
  - split; [split; [vm_compute; reflexivity|apply H1; vm_compute; reflexivity]|]. by apply H2.
Defined.

Example veth_created : valid (kernel_says 0) 0 veth_op = true /\
  (fst <$> match perform 4096 (kernel_says 0) veth_op with Ok r => Some r | _ => None end) = Some 1 /\
  perform 4096 (kernel_says (2 ^ 32 - 17)) veth_op = Err (Failed 17) /\
  perform 4096 (kernel_says 0) (RemoveDevice (str "a_name_of_sixteen")) = Err (NameTooLong (str "a_name_of_sixteen")).
Proof. vm_compute. repeat split. Qed.
