(* ===== verification/TimerTest.v ===== *)
(** * Timer tests: [lib/tst_timer_test.c]

    A test of a sleeping system call takes samples, sorts them, and looks for
    calls that returned too early or too late.  The samples, [qsort], the
    resolution of the clock and the timer slack are inputs.  The frequency plot
    and the file of samples are output only and left out. *)

From stdpp Require Import base list strings sets sorting.
From Stdlib Require Import ZArith Lia.
From S2P Require Import Prelude ParseNum.

Local Open Scope Z_scope.

Definition MAX_SAMPLES : Z := 500.
Abbreviation M := (res brk).

Definition ll_ (z : Z) : M Z := if in_ll z then Ok z else Fault.
Definition int_ (z : Z) : M Z := if in_int z then Ok z else Fault.

(** The difference is a [long long], the result an [int]. *)
Definition cmp (a b : Z) : Z := wrap_s 32 (b - a).

Section Timer.
Context (monotonic_resolution timerslack : Z) (virt_env : bool).
Context (qsort : (Z -> Z -> Z) -> list Z -> list Z).

(** All of it is arithmetic on [unsigned int]. *)
Definition compute_threshold (requested_us nsamples : Z) : M Z :=
  if nsamples =? 0 then Fault
  else
    let slack_per_scall := wrap_u 32 (Z.min 100000 (Z.quot requested_us 1000)) in
    let slack_per_scall := Z.max slack_per_scall timerslack in
    Ok (wrap_u 32 ((400 + 2 * monotonic_resolution + slack_per_scall) * nsamples + 3000 / nsamples)).

Definition compute_discard (nsamples : Z) : Z := if nsamples =? 1 then 0 else Z.max 1 (nsamples / 20).

(** The messages: their numbers. *)
Inductive line : Set :=
  | Sleeping (usec nsamples threshold : Z)
  | SamplingFailed
  | Outliners (n hi lo : Z)
  | WokenEarly (n hi lo : Z)
  | Summary (min max median trunc_sum discard : Z)
  | Virtualised
  | SleptTooLong
  | WithinThresholds.

(** [sample] is called [n] times; [None]: it failed. [None] of the result: the
    test ends. *)
Fixpoint take_samples (n : nat) (answers : list (option Z)) (samples : list Z) (cur_sample : nat) : M (option (list Z)) :=
  match n with
  | O => Ok (Some samples)
  | S n =>
      match answers with
      | Some v :: answers =>
          if (cur_sample <? length samples)%nat then take_samples n answers (<[cur_sample := v]> samples) (S cur_sample) else Fault
      | _ => Ok None
      end
  end.

(** [samples[i]] is read before [i] is compared. *)
Fixpoint outliners (fuel : nat) (samples : list Z) (limit nsamples i : Z) : M Z :=
  match fuel with
  | O => Fault
  | S fuel =>
      v ← or_fault (samples !! Z.to_nat i);
      if (limit <? v) && (i <? nsamples) then
        if v <=? wrap_u 32 (3 * monotonic_resolution) then Ok i else outliners fuel samples limit nsamples (i + 1)
      else Ok i
  end.

(** [k]: [i] is [k - 1]; the element before the array is read when all the
    samples are too small. *)
Fixpoint woken_early (k : nat) (samples : list Z) (usec : Z) : M Z :=
  match k with
  | O => Fault
  | S i => v ← or_fault (samples !! i); if v <? usec then woken_early i samples usec else Ok (Z.of_nat i)
  end.

Fixpoint sum_ll (l : list Z) (acc : Z) : M Z :=
  match l with [] => Ok acc | v :: l => acc ← ll_ (acc + v); sum_ll l acc end.

Definition at_i (samples : list Z) (i : Z) : M Z := if i <? 0 then Fault else or_fault (samples !! Z.to_nat i).

Definition do_timer_test (samples : list Z) (answers : list (option Z)) (usec nsamples : Z) : M (list line) :=
  let discard := compute_discard nsamples in
  let keep_samples := wrap_u 32 (nsamples - discard) in
  threshold ← compute_threshold usec keep_samples;
  let log := [Sleeping usec nsamples threshold] in
  o ← take_samples (Z.to_nat nsamples) answers samples 0;
  match o with
  | None => Ok (log ++ [SamplingFailed])
  | Some samples =>
      let n := Z.to_nat nsamples in
      let samples := qsort cmp (take n samples) ++ drop n samples in
      limit ← ll_ (10 * usec);
      i ← outliners (S n) samples limit nsamples 0;
      out ← (if 0 <? i then hi ← at_i samples 0; lo ← at_i samples (i - 1); Ok [Outliners i hi lo] else Ok []);
      i ← woken_early n samples usec;
      early ← (if i <? nsamples - 1 then
                 hi ← at_i samples (i + 1); lo ← at_i samples (nsamples - 1); Ok [WokenEarly (nsamples - 1 - i) hi lo]
               else Ok []);
      median ← at_i samples (Z.quot nsamples 2);
      trunc_mean ← sum_ll (take (n - Z.to_nat discard) (drop (Z.to_nat discard) samples)) 0;
      min ← at_i samples (nsamples - 1);
      max ← at_i samples 0;
      bound ← ll_ (keep_samples * usec); bound ← ll_ (bound + threshold);
      let slow := negb virt_env && (bound <? trunc_mean) in
      let failed := negb (bool_decide (early = [])) || slow in
      Ok (log ++ out ++ early ++ [Summary min max median trunc_mean discard] ++ (if virt_env then [Virtualised] else [])
            ++ (if slow then [SleptTooLong] else []) ++ (if failed then [] else [WithinThresholds]))
  end.
End Timer.

(** ** Set-up *)

Definition tcases : list (Z * Z) :=
  [(1000, 500); (2000, 500); (5000, 300); (10000, 100); (25000, 50); (100000, 10); (1000000, 2)].

Record timer_opts : Set := mkOpts { o_sleep : Z; o_count : Z; o_single : bool; o_runtime : Z }.

Fixpoint tcases_runtime (l : list (Z * Z)) (us : Z) : Z := match l with [] => us | (u, n) :: l => tcases_runtime l (us + u * n) end.

(** An option that is given; otherwise the variable keeps its value [cur]. *)
Definition parse_opt (s : option cstr) (min cur : Z) : option Z :=
  match tst_parse_int LLONG_MIN LLONG_MAX s min INT_MAX with
  | (0, Some v) => Some v
  | (0, None) => Some cur
  | _ => None
  end.

(** [parse_timer_opts]: the product of the two [int]s is an [int]. The maximal
    runtime in seconds is handed to [tst_set_max_runtime]. *)
Definition parse_timer_opts (str_sleep_time str_sample_cnt : option cstr) : M timer_opts :=
  match parse_opt str_sleep_time 0 (-1) with
  | None => Err (TBROK, str "Invalid sleep time '" ++ default [] str_sleep_time ++ str "'")
  | Some sleep_time =>
      match parse_opt str_sample_cnt 1 0 with
      | None => Err (TBROK, str "Invalid sample count '" ++ default [] str_sample_cnt ++ str "'")
      | Some sample_cnt =>
          match str_sleep_time, str_sample_cnt with
          | None, None =>
              let us := tcases_runtime tcases 0 in
              Ok (mkOpts sleep_time sample_cnt false (wrap_s 32 (Z.quot (us + Z.quot us 10) 1000000)))
          | _, _ =>
              let sleep_time := if sleep_time <? 0 then 10000 else sleep_time in
              let sample_cnt := if sample_cnt =? 0 then 500 else sample_cnt in
              us ← int_ (sleep_time * sample_cnt);
              Ok (mkOpts sleep_time sample_cnt true (wrap_s 32 (Z.quot (us + Z.quot us 10) 1000000)))
          end
      end
  end.

(** The tests that are run, and the room for their samples. *)
Definition test_runs (o : timer_opts) : list (Z * Z) := if o_single o then [(o_sleep o, o_count o)] else tcases.
Definition sample_room (o : timer_opts) : Z := Z.max MAX_SAMPLES (o_count o).

(** The clock resolution and the timer slack in microseconds; [slack]: what
    [prctl] returns. *)
Definition timer_params (tv_nsec slack : Z) : Z * Z :=
  (wrap_u 32 (Z.quot tv_nsec 1000), if slack <? 0 then 50 else Z.quot slack 1000).

(** ** Counting *)
Fixpoint count_if (p : Z -> bool) (l : list Z) : Z := match l with [] => 0 | v :: l => (if p v then 1 else 0) + count_if p l end.
Definition sum (l : list Z) : Z := foldr Z.add 0 l.

Lemma count_if_app p l l' : count_if p (l ++ l') = count_if p l + count_if p l'.
Proof. induction l as [|v l IH]; cbn; [done|]. rewrite IH. lia. Qed.
Lemma count_if_perm p l l' : l ≡ₚ l' -> count_if p l = count_if p l'.
Proof. induction 1; cbn; lia. Qed.
Lemma count_if_all p l : Forall (fun v => p v = true) l -> count_if p l = Z.of_nat (length l).
Proof. induction 1 as [|v l Hv _ IH]; cbn [count_if length]; [done|]. rewrite Hv, IH. lia. Qed.
Lemma count_if_none p l : Forall (fun v => p v = false) l -> count_if p l = 0.
Proof. induction 1 as [|v l Hv _ IH]; cbn [count_if]; [done|]. rewrite Hv, IH. lia. Qed.
Lemma count_if_range p l : 0 <= count_if p l <= Z.of_nat (length l).
Proof. induction l as [|v l IH]; cbn [count_if length]; [done|]. case_match; lia. Qed.

(** ** Sorting *)

(** A comparison that orders the elements of a list. *)
Definition consistent (cmp : Z -> Z -> Z) (l : list Z) : Prop := forall x y, x ∈ l -> y ∈ l ->
  (cmp x y <= 0 \/ cmp y x <= 0) /\ (forall z, z ∈ l -> cmp x y <= 0 -> cmp y z <= 0 -> cmp x z <= 0).

(** What the standard says of [qsort]. *)
Definition sorts (qsort : (Z -> Z -> Z) -> list Z -> list Z) : Prop := forall cmp l, consistent cmp l ->
  qsort cmp l ≡ₚ l /\ StronglySorted (fun a b => cmp a b <= 0) (qsort cmp l).

Definition in_range (v : Z) : Prop := 0 <= v < 2 ^ 31.

Lemma cmp_diff a b : in_range a -> in_range b -> cmp a b = b - a.
Proof. unfold in_range, cmp. intros. apply wrap_s_id; lia. Qed.

(** The samples from the largest to the smallest. *)
Definition geq (a b : Z) : Prop := b <= a.
#[export] Instance geq_dec a b : Decision (geq a b) := Z_le_dec b a.
#[export] Instance geq_total : Total geq.
Proof. intros a b. unfold geq. lia. Qed.
#[export] Instance geq_trans : Transitive geq.
Proof. intros a b c. unfold geq. lia. Qed.
#[export] Instance geq_antisymm : AntiSymm (=) geq.
Proof. intros a b. unfold geq. lia. Qed.
Definition desc (s : list Z) : list Z := merge_sort geq s.

Lemma desc_perm s : desc s ≡ₚ s.
Proof. apply merge_sort_Permutation. Qed.
Lemma desc_sorted s : StronglySorted geq (desc s).
Proof. apply (StronglySorted_merge_sort geq). Qed.

Lemma StronglySorted_weaken (R S : Z -> Z -> Prop) l :
  (forall x y, x ∈ l -> y ∈ l -> R x y -> S x y) -> StronglySorted R l -> StronglySorted S l.
Proof.
  intros H Hs. induction Hs as [|v l Hl IH Hv]; constructor.
  - apply IH. intros x y Hx Hy. apply H; by apply list_elem_of_further.
  - rewrite Forall_forall in *. intros x Hx. apply H; [apply list_elem_of_here|by apply list_elem_of_further|by apply Hv].
Qed.

Lemma qsort_desc qsort s : sorts qsort -> Forall in_range s -> qsort cmp s = desc s.
Proof.
  intros Hq Hr. rewrite Forall_forall in Hr. destruct (Hq cmp s) as [Hp Hs].
  { intros x y Hx Hy. rewrite !cmp_diff by auto. split; [lia|]. intros z Hz. rewrite !cmp_diff by auto. lia. }
  eapply (StronglySorted_unique geq); [|apply desc_sorted|by rewrite Hp, desc_perm].
  revert Hs. apply StronglySorted_weaken. intros x y Hx Hy. rewrite Hp in Hx, Hy. rewrite cmp_diff by auto. unfold geq. lia.
Qed.

(** ** The loops *)
Section Loops.
Context (monotonic_resolution : Z).

(** An outlier: beyond ten times the sleep and three times the resolution. *)
Definition outlier (limit v : Z) : bool := (limit <? v) && (wrap_u 32 (3 * monotonic_resolution) <? v).

Lemma outliers_down limit v w : geq v w -> outlier limit v = false -> outlier limit w = false.
Proof. unfold outlier, geq. lia. Qed.

Lemma outliners_loop limit suf : forall pre post fuel, StronglySorted geq suf -> Forall (fun v => outlier limit v = true) pre -> (length suf < fuel)%nat ->
  let n := Z.of_nat (length (pre ++ suf)) in
  outliners monotonic_resolution fuel ((pre ++ suf) ++ post) limit n (Z.of_nat (length pre)) =
  let c := count_if (outlier limit) (pre ++ suf) in
  if (c =? n) && (match post with [] => true | _ => false end) then Fault else Ok c.
Proof.
  induction suf as [|v suf IH]; intros pre post fuel Hs Hp Hf n; (destruct fuel as [|fuel]; [lia|]); cbn [outliners]; rewrite Nat2Z.id.
  - unfold n. rewrite app_nil_r, count_if_all, Z.eqb_refl by done. cbn [andb]. rewrite lookup_app_r, Nat.sub_diag by lia.
    destruct post as [|w post]; [done|]. cbn. by rewrite Z.ltb_irrefl, Bool.andb_false_r.
  - apply StronglySorted_inv in Hs as [Hs Hv]. rewrite <-app_assoc, lookup_app_r, Nat.sub_diag by lia. cbn [app lookup list_lookup or_fault mbind res_bind].
    assert (Hn : Z.of_nat (length pre) < n) by (unfold n; rewrite length_app; cbn [length]; lia). rewrite (proj2 (Z.ltb_lt _ n) Hn), Bool.andb_true_r.
    destruct (outlier limit v) eqn:Ev.
    + unfold outlier in Ev. apply andb_prop in Ev as [E1 E2]. rewrite E1, (proj2 (Z.leb_gt v _)) by lia.
      specialize (IH (pre ++ [v]) post fuel Hs). rewrite <-!app_assoc in IH. cbn [app] in IH.
      replace (Z.of_nat (length pre) + 1) with (Z.of_nat (length (pre ++ [v]))) by (rewrite length_app; cbn; lia).
      apply IH; [|cbn [length] in Hf; lia]. apply Forall_app_2; [done|]. constructor; [|done]. unfold outlier. by rewrite E1, E2.
    + assert (Hc : count_if (outlier limit) (pre ++ v :: suf) = Z.of_nat (length pre)).
      { rewrite count_if_app, count_if_all, (count_if_none _ (v :: suf)); [lia| |done]. constructor; [done|].
        eapply Forall_impl; [exact Hv|]. intros w Hw. by eapply outliers_down. }
      rewrite Hc, (proj2 (Z.eqb_neq _ n)) by lia. unfold outlier in Ev. destruct (limit <? v); [|done].
      cbn [andb] in Ev. by rewrite (proj2 (Z.leb_le v _)) by lia.
Qed.
End Loops.

Lemma woken_loop usec post pre : forall suf, StronglySorted geq (pre ++ suf) -> Forall (fun v => (v <? usec) = true) suf ->
  let n := Z.of_nat (length (pre ++ suf)) in
  woken_early (length pre) ((pre ++ suf) ++ post) usec =
  let c := count_if (fun v => v <? usec) (pre ++ suf) in if c =? n then Fault else Ok (n - 1 - c).
Proof.
  induction pre as [|v pre IH] using rev_ind; intros suf Hs Hl n.
  - cbn [length woken_early app] in *. unfold n. by rewrite count_if_all, Z.eqb_refl.
  - rewrite length_app, Nat.add_1_r. cbn [woken_early]. rewrite <-!app_assoc, lookup_app_r, Nat.sub_diag by lia. cbn [app lookup list_lookup or_fault mbind res_bind].
    destruct (v <? usec) eqn:Ev.
    + specialize (IH (v :: suf)). rewrite <-app_assoc in IH, Hs. cbn [app] in IH, Hs. rewrite IH; [|done|by constructor].
      unfold n. by rewrite <-app_assoc.
    + assert (Hc : count_if (fun v => v <? usec) (pre ++ v :: suf) = Z.of_nat (length suf)).
      { rewrite count_if_app. cbn [count_if]. rewrite Ev, (count_if_all _ suf), (count_if_none _ pre); [lia| |done].
        rewrite <-app_assoc in Hs. apply Forall_forall. intros w Hw.
        pose proof (StronglySorted_app_1_elem_of geq _ _ w v Hs Hw (list_elem_of_here _ _)) as Hge. unfold geq in Hge. lia. }
      unfold n. rewrite <-app_assoc. cbn [app]. rewrite Hc, length_app. cbn [length].
      rewrite (proj2 (Z.eqb_neq (Z.of_nat (length suf)) _)) by lia. f_equal. lia.
Qed.

Lemma sum_ll_ok l : forall acc, Forall in_range l -> 0 <= acc -> acc + Z.of_nat (length l) * 2 ^ 31 <= LLONG_MAX -> sum_ll l acc = Ok (acc + sum l).
Proof.
  induction l as [|v l IH]; intros acc Hl Ha Hb; cbn [sum_ll sum foldr]; [by rewrite Z.add_0_r|].
  inversion Hl as [|? ? Hv Hl']; subst. unfold in_range in Hv. cbn [length] in Hb. unfold ll_, in_ll.
  rewrite (proj2 (Z.leb_le LLONG_MIN _)), (proj2 (Z.leb_le _ LLONG_MAX)) by (unfold LLONG_MIN; lia). cbn [andb mbind res_bind].
  rewrite IH by (done || lia). unfold sum. f_equal. lia.
Qed.

Lemma take_samples_ok s : forall samples cur rest, (cur + length s <= length samples)%nat ->
  take_samples (length s) ((Some <$> s) ++ rest) samples cur = Ok (Some (take cur samples ++ s ++ drop (cur + length s) samples)).
Proof.
  induction s as [|v s IH]; intros samples cur rest Hl; cbn [length take_samples fmap list_fmap app].
  - by rewrite Nat.add_0_r, take_drop.
  - cbn [length] in Hl. rewrite (proj2 (Nat.ltb_lt cur (length samples))) by lia. rewrite IH by (rewrite length_insert; lia).
    do 2 f_equal. rewrite (take_S_r _ cur v) by (apply list_lookup_insert_eq; lia).
    rewrite take_insert_ge, drop_insert_lt by lia. rewrite <-app_assoc. cbn [app].
    by replace (S cur + length s)%nat with (cur + S (length s))%nat by lia.
Qed.

(** ** The verdict *)
Section Verdict.
Context (monotonic_resolution timerslack : Z) (virt_env : bool) (qsort : (Z -> Z -> Z) -> list Z -> list Z).

(** What the samples say, whatever their order. *)
Definition early_count (usec : Z) (s : list Z) : Z := count_if (fun v => v <? usec) s.
Definition outlier_count (usec : Z) (s : list Z) : Z := count_if (outlier monotonic_resolution (10 * usec)) s.
Definition kept_sum (s : list Z) : Z := sum (drop (Z.to_nat (compute_discard (Z.of_nat (length s)))) (desc s)).
Definition threshold (usec keep : Z) : Z := (400 + 2 * monotonic_resolution + Z.max (Z.min 100000 (usec / 1000)) timerslack) * keep + 3000 / keep.

Definition verdict (s : list Z) (usec : Z) : list line :=
  let n := Z.of_nat (length s) in
  let at_ i := nth (Z.to_nat i) (desc s) 0 in
  let discard := compute_discard n in
  let keep := n - discard in
  let o := outlier_count usec s in
  let e := early_count usec s in
  let slow := negb virt_env && (keep * usec + threshold usec keep <? kept_sum s) in
  [Sleeping usec n (threshold usec keep)]
  ++ (if 0 <? o then [Outliners o (at_ 0) (at_ (o - 1))] else [])
  ++ (if 0 <? e then [WokenEarly e (at_ (n - e)) (at_ (n - 1))] else [])
  ++ [Summary (at_ (n - 1)) (at_ 0) (at_ (n / 2)) (kept_sum s) discard]
  ++ (if virt_env then [Virtualised] else [])
  ++ (if slow then [SleptTooLong] else [])
  ++ (if (0 <? e) || slow then [] else [WithinThresholds]).

Lemma at_i_ok d post i : 0 <= i < Z.of_nat (length d) -> at_i (d ++ post) i = Ok (nth (Z.to_nat i) d 0).
Proof.
  intros Hi. unfold at_i. rewrite (proj2 (Z.ltb_ge i 0)), lookup_app_l by lia.
  destruct (lookup_lt_is_Some_2 d (Z.to_nat i)) as [v Hv]; [lia|]. rewrite Hv. cbn. f_equal. symmetry. apply nth_lookup_Some. done.
Qed.

Lemma discard_bounds n : 1 <= n -> 0 <= compute_discard n < n.
Proof. intros Hn. unfold compute_discard. destruct (Z.eqb_spec n 1); [lia|]. Z.to_euclidean_division_equations; lia. Qed.

Lemma length_desc s : length (desc s) = length s.
Proof. by rewrite desc_perm. Qed.

Lemma threshold_nonneg usec keep : 0 <= usec -> 1 <= keep -> 0 <= monotonic_resolution -> 0 <= timerslack -> 0 <= threshold usec keep.
Proof.
  intros Hu Hk Hr Hs. assert (0 <= usec / 1000) by (apply Z.div_pos; lia). assert (0 <= 3000 / keep) by (apply Z.div_pos; lia). unfold threshold. nia.
Qed.

Lemma threshold_ok usec keep : 0 <= usec -> 1 <= keep -> threshold usec keep < 2 ^ 32 -> 0 <= monotonic_resolution -> 0 <= timerslack ->
  compute_threshold monotonic_resolution timerslack usec keep = Ok (threshold usec keep).
Proof.
  intros Hu Hk Ht Hr Hs. unfold compute_threshold. rewrite (proj2 (Z.eqb_neq keep 0)) by lia.
  assert (0 <= usec / 1000) by (apply Z.div_pos; lia). assert (0 <= 3000 / keep) by (apply Z.div_pos; lia).
  rewrite Z.quot_div_nonneg, (wrap_u_id 32 (Z.min _ _)) by lia. fold (threshold usec keep). rewrite wrap_u_id; [done|]. split; [|done]. by apply threshold_nonneg.
Qed.

(** The two searches in the sorted samples. *)
Lemma searches s post usec : let n := Z.of_nat (length s) in
  outliners monotonic_resolution (S (length s)) (desc s ++ post) (10 * usec) n 0 =
    (if (outlier_count usec s =? n) && (match post with [] => true | _ => false end) then Fault else Ok (outlier_count usec s)) /\
  woken_early (length s) (desc s ++ post) usec = (if early_count usec s =? n then Fault else Ok (n - 1 - early_count usec s)).
Proof.
  intros n. unfold n, outlier_count, early_count. rewrite <-(count_if_perm _ _ _ (desc_perm s)), <-(count_if_perm (fun v => v <? usec) _ _ (desc_perm s)).
  rewrite <-(length_desc s). split.
  - exact (outliners_loop monotonic_resolution (10 * usec) (desc s) [] post (S (length (desc s))) (desc_sorted s) (Forall_nil_2 _) (Nat.lt_succ_diag_r _)).
  - pose proof (woken_loop usec post (desc s) []) as H. rewrite app_nil_r in H. apply H; [apply desc_sorted|constructor].
Qed.

Lemma sum_desc s post k : Forall in_range s -> 0 <= k <= Z.of_nat (length s) -> Z.of_nat (length s) <= INT_MAX ->
  sum_ll (take (length s - Z.to_nat k) (drop (Z.to_nat k) (desc s ++ post))) 0 = Ok (sum (drop (Z.to_nat k) (desc s))).
Proof.
  intros Hr Hk Hn. rewrite drop_app_le by (rewrite length_desc; lia).
  replace (length s - Z.to_nat k)%nat with (length (drop (Z.to_nat k) (desc s))) by (by rewrite length_drop, length_desc).
  rewrite take_app_length, sum_ll_ok; [done| |done|].
  - apply Forall_drop. by rewrite desc_perm.
  - rewrite length_drop, length_desc. change INT_MAX with 2147483647 in Hn. unfold LLONG_MAX. lia.
Qed.

Lemma timer_verdict_ok samples s rest usec : sorts qsort -> (1 <= length s <= length samples)%nat -> Z.of_nat (length s) <= INT_MAX ->
  Forall in_range s -> 0 <= usec <= INT_MAX -> 0 <= monotonic_resolution -> 0 <= timerslack ->
  threshold usec (Z.of_nat (length s) - compute_discard (Z.of_nat (length s))) < 2 ^ 32 ->
  do_timer_test monotonic_resolution timerslack virt_env qsort samples ((Some <$> s) ++ rest) usec (Z.of_nat (length s)) =
  if (early_count usec s =? Z.of_nat (length s)) || ((outlier_count usec s =? Z.of_nat (length s)) && (length s =? length samples)%nat) then Fault
  else Ok (verdict s usec).
Proof.
  intros Hq Hn HI Hr Hu Hres Hsl Ht. set (n := Z.of_nat (length s)) in *. destruct (discard_bounds n ltac:(lia)) as [Hd1 Hd2].
  unfold do_timer_test. rewrite (wrap_u_id 32 (n - compute_discard n)) by (unfold INT_MAX in *; lia). rewrite threshold_ok by lia. cbn [mbind res_bind].
  assert (Hto : Z.to_nat n = length s) by apply Nat2Z.id. rewrite Hto, take_samples_ok by lia. cbn [mbind res_bind].
  change (take 0 samples ++ s ++ drop (0 + length s) samples) with (s ++ drop (length s) samples).
  rewrite take_app_length, drop_app_length, qsort_desc by done.
  set (post := drop (length s) samples).
  assert (Hpost : (match post with [] => true | _ => false end) = (length s =? length samples)%nat).
  { unfold post. destruct (Nat.eqb_spec (length s) (length samples)) as [E|E]; [by rewrite drop_ge by lia|].
    destruct (drop (length s) samples) eqn:Ed; [|done]. apply (f_equal length) in Ed. rewrite length_drop in Ed. cbn in Ed. lia. }
  assert (Hll : forall z, 0 <= z <= 2 ^ 62 -> ll_ z = Ok z).
  { intros z Hz. unfold ll_, in_ll. by rewrite (proj2 (Z.leb_le LLONG_MIN z)), (proj2 (Z.leb_le z LLONG_MAX)) by (unfold LLONG_MIN, LLONG_MAX; lia). }
  rewrite (Hll (10 * usec)) by (change INT_MAX with 2147483647 in *; lia). cbn [mbind res_bind]. destruct (searches s post usec) as [E1 E2]. fold n in E1, E2. rewrite E1, Hpost.
  destruct ((outlier_count usec s =? n) && (length s =? length samples)%nat) eqn:Eo; [by rewrite Bool.orb_true_r|]. cbn [mbind res_bind]. rewrite Bool.orb_false_r.
  pose proof (count_if_range (outlier monotonic_resolution (10 * usec)) s) as Ho. pose proof (count_if_range (fun v => v <? usec) s) as He.
  fold (outlier_count usec s) in Ho. fold (early_count usec s) in He. fold n in Ho, He. set (o := outlier_count usec s) in *. set (e := early_count usec s) in *.
  assert (Hat : forall i, 0 <= i < n -> at_i (desc s ++ post) i = Ok (nth (Z.to_nat i) (desc s) 0)).
  { intros i Hi. apply at_i_ok. rewrite length_desc. done. }
  assert (Hout : (if 0 <? o then hi ← at_i (desc s ++ post) 0; lo ← at_i (desc s ++ post) (o - 1); Ok [Outliners o hi lo] else Ok [])
    = Ok (E := brk) (if 0 <? o then [Outliners o (nth (Z.to_nat 0) (desc s) 0) (nth (Z.to_nat (o - 1)) (desc s) 0)] else [])).
  { destruct (Z.ltb_spec 0 o); [rewrite !Hat by lia|]; done. }
  rewrite Hout. cbn [mbind res_bind]. rewrite E2. destruct (e =? n) eqn:Een; [done|]. cbn [mbind res_bind].
  assert (Hearly : (if n - 1 - e <? n - 1 then hi ← at_i (desc s ++ post) (n - 1 - e + 1); lo ← at_i (desc s ++ post) (n - 1);
      Ok [WokenEarly (n - 1 - (n - 1 - e)) hi lo] else Ok [])
    = Ok (E := brk) (if 0 <? e then [WokenEarly e (nth (Z.to_nat (n - e)) (desc s) 0) (nth (Z.to_nat (n - 1)) (desc s) 0)] else [])).
  { destruct (Z.ltb_spec 0 e); [rewrite (proj2 (Z.ltb_lt (n - 1 - e) _)), !Hat by lia|by rewrite (proj2 (Z.ltb_ge (n - 1 - e) _)) by lia].
    cbn [mbind res_bind]. do 3 f_equal; [lia|f_equal; lia]. }
  rewrite Hearly. cbn [mbind res_bind]. rewrite Z.quot_div_nonneg, (Hat (n / 2)) by (Z.to_euclidean_division_equations; lia). cbn [mbind res_bind].
  rewrite sum_desc by (done || lia). cbn [mbind res_bind]. rewrite !Hat by lia. cbn [mbind res_bind].
  assert (Hku : 0 <= (n - compute_discard n) * usec <= 2147483647 * 2147483647) by (change INT_MAX with 2147483647 in *; split; [apply Z.mul_nonneg_nonneg|apply Z.mul_le_mono_nonneg]; lia).
  pose proof (threshold_nonneg usec (n - compute_discard n)). rewrite (Hll ((n - compute_discard n) * usec)) by lia. cbn [mbind res_bind].
  rewrite Hll by lia. cbn [mbind res_bind]. unfold verdict, kept_sum. fold n o e. destruct (0 <? e); [|done].
  by rewrite bool_decide_eq_false_2.
Qed.
End Verdict.

(** ** Properties *)

(** C14: the verdict of a timer test.  For every list of samples below 2^31
    microseconds and every [qsort] that sorts, the test counts the calls that
    returned early and the outliers, sums the samples without the largest
    twentieth (but at least one), and reports that the times are within the
    thresholds exactly when no call returned early and, unless virtualised,
    the sum is within the sum of the sleeps plus the threshold.  When all the
    calls returned early, or all are outliers and the array is full, it reads
    outside of the array instead. *)
Theorem timer_test_verdict resolution slack virt qsort samples s rest usec :
  sorts qsort -> (1 <= length s <= length samples)%nat -> Z.of_nat (length s) <= INT_MAX ->
  Forall in_range s -> 0 <= usec <= INT_MAX -> 0 <= resolution -> 0 <= slack ->
  threshold resolution slack usec (Z.of_nat (length s) - compute_discard (Z.of_nat (length s))) < 2 ^ 32 ->
  let out := do_timer_test resolution slack virt qsort samples ((Some <$> s) ++ rest) usec (Z.of_nat (length s)) in
  let all c := c =? Z.of_nat (length s) in
  if all (early_count usec s) || (all (outlier_count resolution usec s) && (length s =? length samples)%nat) then out = Fault
  else out = Ok (verdict resolution slack virt s usec) /\
    (WithinThresholds ∈ verdict resolution slack virt s usec <->
     early_count usec s = 0 /\
     (virt = true \/ let keep := Z.of_nat (length s) - compute_discard (Z.of_nat (length s)) in
        kept_sum s <= keep * usec + threshold resolution slack usec keep)).
Proof.
  intros Hq Hn HI Hr Hu Hres Hsl Ht out all. subst out. rewrite timer_verdict_ok by done. subst all. cbn beta.
  case_match; [done|]. split; [done|]. pose proof (count_if_range (fun v => v <? usec) s) as He. fold (early_count usec s) in He.
  unfold verdict. set (keep := Z.of_nat (length s) - _). set (e := early_count usec s) in *.
  assert (Hin : forall (b : bool) x, (WithinThresholds ∈ (if b then [x] else [])) <-> b = true /\ x = WithinThresholds).
  { intros [] x; rewrite ?list_elem_of_singleton, ?elem_of_nil; intuition congruence. }
  assert (Hlast : forall b : bool, (WithinThresholds ∈ (if b then [] else [WithinThresholds])) <-> b = false).
  { intros []; rewrite ?list_elem_of_singleton, ?elem_of_nil; intuition congruence. }
  rewrite !elem_of_app, !Hin, Hlast, !list_elem_of_singleton, Bool.orb_false_iff, Bool.andb_false_iff, Z.ltb_ge, Z.ltb_ge, Bool.negb_false_iff.
  intuition (try discriminate; try lia).
Qed.

(** The options [o], an error, or an overflow of the product. *)
Definition opts_ok (m : M timer_opts) : Prop :=
  match m with
  | Ok o =>
      let us := sum ((fun t => t.1 * t.2) <$> test_runs o) in
      Forall (fun t => 0 <= t.1 <= INT_MAX /\ 1 <= t.2 <= sample_room o /\ t.2 <= INT_MAX) (test_runs o)
      /\ o_runtime o = (us + us / 10) / 1000000
  | Err e => e.1 = TBROK
  | Fault => exists sleep count, 0 <= sleep <= INT_MAX /\ 1 <= count <= INT_MAX /\ INT_MAX < sleep * count
  end.

Lemma parse_opt_range s min cur v : 0 <= min -> parse_opt s min cur = Some v -> v = cur \/ min <= v <= INT_MAX.
Proof.
  intros Hmin. unfold parse_opt. destruct (parse_in_range LLONG_MIN LLONG_MAX s min INT_MAX) as [H1 H2].
  rewrite H2 by (unfold INT_MIN; lia). destruct (tst_parse_long LLONG_MIN LLONG_MAX s min INT_MAX) as [r [w|]].
  - destruct H1 as [-> Hw]. intros [= <-]. by right.
  - destruct r; [|done..]. intros [= <-]. by left.
Qed.

Lemma single_ok sl ct : 0 <= sl <= INT_MAX -> 1 <= ct <= INT_MAX ->
  opts_ok (us ← int_ (sl * ct); Ok (mkOpts sl ct true (wrap_s 32 (Z.quot (us + Z.quot us 10) 1000000)))).
Proof.
  intros Hsl Hct. assert (Hpos : 0 <= sl * ct) by (apply Z.mul_nonneg_nonneg; lia).
  unfold int_, in_int. destruct (Z.leb_spec (sl * ct) INT_MAX).
  - rewrite (proj2 (Z.leb_le INT_MIN _)) by (unfold INT_MIN; lia). cbn [andb mbind res_bind opts_ok test_runs o_single o_sleep o_count o_runtime].
    cbn [fmap list_fmap sum foldr fst snd]. rewrite Z.add_0_r. split.
    + constructor; [|constructor]. unfold sample_room. cbn. lia.
    + change INT_MAX with 2147483647 in *. rewrite !Z.quot_div_nonneg by (Z.to_euclidean_division_equations; lia).
      apply wrap_s_id; [lia|]. Z.to_euclidean_division_equations; lia.
  - rewrite Bool.andb_false_r. cbn. by exists sl, ct.
Qed.

(** The options of a timer test.  Whatever the strings, every test that is
    run has a sleep in the range of [int] and at least one sample, and the
    array has room for all of them; the maximal runtime is the time all the
    sleeps take and a tenth more, in seconds.  The product of a sleep time and
    a sample count above INT_MAX overflows. *)
Theorem timer_options_correct s c : opts_ok (parse_timer_opts s c).
Proof.
  unfold parse_timer_opts. destruct (parse_opt s 0 (-1)) as [sleep|] eqn:Es; [|done]. destruct (parse_opt c 1 0) as [count|] eqn:Ec; [|done].
  apply parse_opt_range in Es, Ec; [|lia..].
  assert (Hs : 0 <= (if sleep <? 0 then 10000 else sleep) <= INT_MAX) by (change INT_MAX with 2147483647 in *; destruct (Z.ltb_spec sleep 0); lia).
  assert (Hc : 1 <= (if count =? 0 then 500 else count) <= INT_MAX) by (change INT_MAX with 2147483647 in *; destruct (Z.eqb_spec count 0); lia).
  destruct s as [s|], c as [c|]; [by apply single_ok..|].
  split; [|done]. unfold sample_room, test_runs. cbn [o_single o_count]. repeat constructor; cbn; unfold MAX_SAMPLES, INT_MAX; lia.
Qed.

(** An insertion sort is a [qsort]. *)
Fixpoint insert_by (c : Z -> Z -> Z) (v : Z) (l : list Z) : list Z :=
  match l with [] => [v] | w :: l => if c v w <=? 0 then v :: w :: l else w :: insert_by c v l end.
Definition isort (c : Z -> Z -> Z) (l : list Z) : list Z := foldr (insert_by c) [] l.

Lemma insert_by_perm c v l : insert_by c v l ≡ₚ v :: l.
Proof. induction l as [|w l IH]; cbn; [done|]. case_match; [done|]. rewrite IH. constructor. Qed.
Lemma isort_perm c l : isort c l ≡ₚ l.
Proof. induction l as [|v l IH]; cbn; [done|]. by rewrite insert_by_perm, IH. Qed.

Lemma insert_by_sorted c v l : consistent c (v :: l) -> StronglySorted (fun a b => c a b <= 0) l -> StronglySorted (fun a b => c a b <= 0) (insert_by c v l).
Proof.
  intros Hc Hs. induction Hs as [|w l Hs IH Hw]; cbn; [by repeat constructor|]. rewrite Forall_forall in Hw.
  assert (Hv : v ∈ v :: w :: l) by set_solver. assert (Hww : w ∈ v :: w :: l) by set_solver.
  destruct (Z.leb_spec (c v w) 0) as [Hle|Hgt].
  - constructor; [constructor; [done|by apply Forall_forall]|]. apply Forall_forall. intros x [->|Hx]%elem_of_cons; [done|].
    apply (proj2 (Hc v w Hv Hww) x); [set_solver|done|by apply Hw].
  - constructor.
    + apply IH. intros x y Hx Hy. destruct (Hc x y) as [H1 H2]; [set_solver..|]. split; [done|]. intros z Hz. apply H2. set_solver.
    + apply Forall_forall. intros x Hx. rewrite insert_by_perm in Hx. apply elem_of_cons in Hx as [->|Hx]; [|by apply Hw].
      destruct (Hc v w Hv Hww) as [[?|?] _]; lia.
Qed.

Lemma isort_sorts : sorts isort.
Proof.
  intros c l Hc. split; [apply isort_perm|]. induction l as [|v l IH]; [constructor|]. change (isort c (v :: l)) with (insert_by c v (isort c l)). apply insert_by_sorted.
  - intros x y Hx Hy. rewrite isort_perm in Hx, Hy. destruct (Hc x y Hx Hy) as [H1 H2]. split; [done|]. intros z Hz. rewrite isort_perm in Hz. by apply H2.
  - apply IH. intros x y Hx Hy. destruct (Hc x y) as [H1 H2]; [set_solver..|]. split; [done|]. intros z Hz. apply H2. set_solver.
Qed.

Lemma timer_test_verdict_witness :
  let s := [1100; 1050; 990; 20000] in
  do_timer_test 1 50 false isort (replicate 500 0) ((Some <$> s) ++ []) 1000 4 = Ok (verdict 1 50 false s 1000) /\
  (WithinThresholds ∈ verdict 1 50 false s 1000 <->
   early_count 1000 s = 0 /\ (false = true \/ let keep := 4 - compute_discard 4 in kept_sum s <= keep * 1000 + threshold 1 50 1000 keep)).
Proof.
  apply (timer_test_verdict 1 50 false isort (replicate 500 0) [1100; 1050; 990; 20000] [] 1000);
    [apply isort_sorts|rewrite length_replicate; cbn; lia|done|by repeat constructor|done|done|done|done].
Defined.

Example verdict_early : verdict 1 50 false [1100; 1050; 990; 20000] 1000
  = [Sleeping 1000 4 2356; Outliners 1 20000 20000; WokenEarly 1 990 990; Summary 990 20000 1050 3140 1].
Proof. vm_compute. reflexivity. Qed.
