(* ===== verification/RandomRange.v ===== *)
(** * Random numbers in ranges: [lib/random_range.c]

    The text form of ranges, random multiples of a number in a range, and a
    random bit of a mask.  What [lrand48] returns is an input, a number of 31
    bits; a [long] has 64 bits.  The function that reads a number may be
    supplied by the caller. *)

From stdpp Require Import base list strings.
From Stdlib Require Import ZArith Lia Znumtheory.
From S2P Require Import Prelude ParseNum Tokens.

Local Open Scope Z_scope.

(** ** Parsing of ranges *)
Record range : Set := mkRange { r_min : Z; r_max : Z; r_mult : Z }.

Definition COMMA : Z := ","%ch.
Definition COLON : Z := ":"%ch.
Definition is_comma (c : Z) : bool := c =? COMMA.

Fixpoint ncommas (s : cstr) : nat := match s with [] => 0 | c :: s => (if is_comma c then 1 else 0) + ncommas s end.

(** [sscanf (str, "%i%c")]: a number, and nothing after it. The number is read
    as a [long] and stored as an [int]. *)
Definition str_to_int (s : cstr) : option Z :=
  let r := strtol LLONG_MIN LLONG_MAX 0 s in
  if st_conv r then match st_end r with [] => Some (wrap_s 32 (st_val r)) | _ => None end else None.

(** The string up to the first colon and the one after it. *)
Definition cut (s : cstr) : cstr * option cstr :=
  match strchr s COLON with
  | None => (s, None)
  | Some cp => (take (length s - length cp) s, Some (drop 1 cp))
  end.

(** [errmsg] has 256 bytes. *)
Definition parse_error {A} (s : cstr) : res cstr A :=
  let msg := str "error parsing string " ++ s ++ str " into an integer" in
  if 256 <=? Z.of_nat (length msg) then Fault else Err msg.

Section Parse.
Context (parse_func : cstr -> option Z) (defmin defmax defmult : Z).

Definition parse_field (s : cstr) (def : Z) : res cstr Z :=
  if 0 <? wrap_s 32 (Z.of_nat (length s)) then
    match parse_func s with Some v => Ok v | None => parse_error s end
  else Ok def.

(** The body of the loop: one token. *)
Definition parse_token (tok : cstr) : res cstr range :=
  let '(n1str, n2str) := cut tok in
  let '(n2str, multstr) := match n2str with
                           | None => (None, None)
                           | Some n2 => let '(n2, m) := cut n2 in (Some n2, m)
                           end in
  min ← parse_field n1str defmin;
  max ← match n2str with None => Ok min | Some s => parse_field s defmax end;
  mult ← match multstr with None => Ok defmult | Some s => parse_field s defmult end;
  Ok (mkRange min max mult).

(** [room]: the elements of [ranges] that are left. *)
Fixpoint parse_loop (fuel room : nat) (s : cstr) : res cstr (list range) :=
  match fuel with
  | O => Fault
  | S fuel =>
      match strtok is_comma s with
      | None => Ok []
      | Some (tok, s) =>
          match room with
          | O => Fault
          | S room => r ← parse_token tok; l ← parse_loop fuel room s; Ok (r :: l)
          end
      end
  end.

Definition parse_ranges (s : cstr) : res cstr (list range) := parse_loop (S (length s)) (ncommas s + 1) s.
End Parse.

Definition range_min (rbuf : list range) (r : nat) : res cstr Z := or_fault (r_min <$> rbuf !! r).
Definition range_max (rbuf : list range) (r : nat) : res cstr Z := or_fault (r_max <$> rbuf !! r).
Definition range_mult (rbuf : list range) (r : nat) : res cstr Z := or_fault (r_mult <$> rbuf !! r).

(** ** Random numbers *)
Inductive range_error : Set := MultNotPositive | NoMultiple (min max mult : Z).
Abbreviation R := (res range_error).

(** A value of a type that can hold the numbers of [fits]. *)
Definition narrow (fits : Z -> bool) (z : Z) : R Z := if fits z then Ok z else Fault.

(** What the three functions do up to [nmults], with the type of their
    arguments: the smallest and the largest multiple, and how many there are. *)
Definition multiples (fits : Z -> bool) (min max mult : Z) : R (Z * Z * Z) :=
  if mult <? 1 then Err MultNotPositive
  else
    let '(lo, hi) := if max <? min then (max, min) else (min, max) in
    let r := Z.rem lo mult in
    lo ← (if r =? 0 then Ok lo else d ← narrow fits (mult - r); narrow fits (lo + d));
    let r := Z.rem hi mult in
    hi ← (if r =? 0 then Ok hi else narrow fits (hi - r));
    if hi <? lo then Err (NoMultiple min max mult)
    else
      diff ← narrow fits (hi - lo);
      nmults ← narrow fits (Z.quot diff mult + 1);
      Ok (lo, hi, nmults).

(** [min + (rnd % nmults) * mult] as a number of 64 bits. *)
Definition nth_multiple (lo nmults mult rnd : Z) : R Z :=
  d ← narrow in_ll (Z.rem rnd nmults * mult); narrow in_ll (lo + d).

Definition random_range (min max mult lrand48 : Z) : R Z :=
  '(lo, _, nmults) ← multiples in_int min max mult; nth_multiple lo nmults mult lrand48.

Definition random_rangel (min max mult lrand48 : Z) : R Z :=
  '(lo, _, nmults) ← multiples in_ll min max mult; nth_multiple lo nmults mult lrand48.

(** The mask is an [int]: [cnt] has to be less than 31. The random number is
    drawn in the first call. *)
Fixpoint divider (fuel : nat) (min max cnt rand lrand48 : Z) : R Z :=
  match fuel with
  | O => Fault
  | S fuel =>
      if 32 <? cnt then Ok (-1)
      else
        let rand := if (cnt =? 0) || (rand <? -1) then lrand48 else rand in
        diff ← narrow in_ll (max - min);
        if diff <=? 2147483647 then narrow in_ll (min + rand)
        else
          let half := Z.quot diff 2 in
          med ← narrow in_ll (min + half);
          bit ← narrow in_int (Z.shiftl 1 cnt);
          let top := negb (Z.land rand bit =? 0) in
          if half <=? 2147483647 then narrow in_ll ((if top then med else min) + rand)
          else if top then divider fuel med max (cnt + 1) rand lrand48
          else divider fuel min med (cnt + 1) rand lrand48
  end.

Definition random_rangell (min max mult lrand48 : Z) : R Z :=
  '(lo, hi, nmults) ← multiples in_ll min max mult;
  if hi <=? 2147483647 then nth_multiple lo nmults mult lrand48
  else randnum ← divider 34 lo hi 0 (-1) lrand48; nth_multiple lo nmults mult randnum.

(** ** A random bit *)

(** [bit << 1] of the last bit gives 0, as the supported compilers do it. *)
Fixpoint count_bits (n : nat) (mask bit nbits : Z) : Z :=
  match n with
  | O => nbits
  | S n => count_bits n mask (wrap_s 64 (Z.shiftl bit 1)) (if Z.land mask bit =? 0 then nbits else nbits + 1)
  end.

Fixpoint shift_loop (fuel : nat) (bit mask nshift : Z) : R Z :=
  match fuel with
  | O => Fault
  | S fuel =>
      if bit =? 0 then Ok nshift
      else shift_loop fuel (if Z.land mask 1 =? 0 then bit else bit - 1) (Z.shiftr mask 1) (nshift + 1)
  end.

Definition random_bit (mask lrand48 : Z) : R Z :=
  if mask =? 0 then Ok 0
  else
    bit ← random_range 1 (count_bits 64 mask 1 0) 1 lrand48;
    nshift ← shift_loop 66 bit mask 0;
    Ok (wrap_s 64 (Z.shiftl 1 (nshift - 1))).

(** ** Examples *)
Example parse_ex : parse_ranges str_to_int 0 100 1 (str "5,1:10,:0x20:2,,7::3,:") =
  Ok [mkRange 5 5 1; mkRange 1 10 1; mkRange 0 32 2; mkRange 7 100 3; mkRange 0 100 1].
Proof. vm_compute. reflexivity. Qed.

(** The multiples that are chosen for negative ranges are outside of them. *)
Example random_range_negative : random_range (-10) (-5) 4 0 = Ok (-4) /\ random_range (-5) (-1) 4 0 = Ok 0.
Proof. split; reflexivity. Qed.

(** The number of the multiples does not fit an [int]. *)
Example random_range_all_ints rnd : random_range INT_MIN INT_MAX 1 rnd = Fault /\ random_range 0 INT_MAX 1 rnd = Fault.
Proof. split; reflexivity. Qed.

(** A token that is no number and too long for the error message. *)
Example parse_error_overflow : parse_ranges str_to_int 0 0 1 (replicate 220 "x"%ch) = Fault.
Proof. vm_compute. reflexivity. Qed.

(** ** Multiples of a number in a range *)

(** The smallest multiple that is not below [lo] and the largest that is not
    above [hi]. *)
Definition up (mult lo : Z) : Z := mult * ((lo + mult - 1) / mult).
Definition down (mult hi : Z) : Z := mult * (hi / mult).

Lemma up_spec mult lo : 1 <= mult -> lo <= up mult lo < lo + mult /\ (mult | up mult lo).
Proof. intros Hm. unfold up. split; [|apply Z.divide_factor_l]. pose proof (Z.div_mod (lo + mult - 1) mult). pose proof (Z.mod_pos_bound (lo + mult - 1) mult). lia. Qed.
Lemma down_spec mult hi : 1 <= mult -> hi - mult < down mult hi <= hi /\ (mult | down mult hi).
Proof. intros Hm. unfold down. split; [|apply Z.divide_factor_l]. pose proof (Z.div_mod hi mult). pose proof (Z.mod_pos_bound hi mult). lia. Qed.

(** Two multiples less than [mult] apart are equal. *)
Lemma multiple_unique mult a b : 1 <= mult -> (mult | a) -> (mult | b) -> b - mult < a < b + mult -> a = b.
Proof. intros Hm [p ->] [q ->] H. assert (p = q) by nia. by subst. Qed.

Lemma up_least mult lo v : 1 <= mult -> lo <= v -> (mult | v) -> up mult lo <= v.
Proof.
  intros Hm Hv Hd. destruct (up_spec mult lo Hm) as [Hu Hud]. destruct (Z.le_gt_cases (up mult lo) v) as [|H]; [done|].
  rewrite (multiple_unique mult (up mult lo) v) by (done || lia). lia.
Qed.
Lemma down_greatest mult hi v : 1 <= mult -> v <= hi -> (mult | v) -> v <= down mult hi.
Proof.
  intros Hm Hv Hd. destruct (down_spec mult hi Hm) as [Hu Hud]. destruct (Z.le_gt_cases v (down mult hi)) as [|H]; [done|].
  rewrite (multiple_unique mult (down mult hi) v) by (done || lia). lia.
Qed.

(** The bounds of the range, whatever their order. *)
Definition low (min max : Z) : Z := Z.min min max.
Definition high (min max : Z) : Z := Z.max min max.
Definition count (min max mult : Z) : Z := (down mult (high min max) - up mult (low min max)) / mult + 1.

(** The range is one the C remainders can handle, and the type is wide enough. *)
Record range_ok (fits : Z -> bool) (min max mult : Z) : Prop := {
  ok_mult : 1 <= mult;
  ok_sign : 0 <= low min max \/ mult = 1;
  ok_fits : forall z, 0 <= z <= Z.max (high min max + mult) (high min max - low min max + 1) -> fits z = true;
}.

Lemma narrow_ok fits z : fits z = true -> narrow fits z = Ok z.
Proof. intros H. unfold narrow. by rewrite H. Qed.

Lemma multiples_ok fits min max mult : range_ok fits min max mult ->
  multiples fits min max mult =
  let '(lo, hi) := (up mult (low min max), down mult (high min max)) in
  if hi <? lo then Err (NoMultiple min max mult) else Ok (lo, hi, count min max mult).
Proof.
  intros [Hm Hs Hf]. unfold multiples. rewrite (proj2 (Z.ltb_ge mult 1)) by lia. set (lo := low min max) in *. set (hi := high min max) in *.
  assert (Hlh : lo <= hi) by (unfold lo, hi, low, high; lia).
  replace (if max <? min then (max, min) else (min, max)) with (lo, hi)
    by (unfold lo, hi, low, high; destruct (Z.ltb_spec max min); f_equal; lia).
  pose proof (up_spec mult lo Hm) as [Hu _]. pose proof (down_spec mult hi Hm) as [Hd _].
  assert (Elo : (if Z.rem lo mult =? 0 then Ok lo else d ← narrow fits (mult - Z.rem lo mult); narrow fits (lo + d)) = Ok (E := range_error) (up mult lo)).
  { destruct Hs as [Hs| ->]; [|by rewrite Z.rem_1_r; unfold up; rewrite Z.div_1_r; cbn; f_equal; lia].
    rewrite Z.rem_mod_nonneg by lia. unfold up in *. pose proof (Z.mod_pos_bound lo mult ltac:(lia)). pose proof (Z.div_mod lo mult ltac:(lia)). destruct (Z.eqb_spec (lo mod mult) 0) as [E|E].
    - f_equal. rewrite <-(Z.div_unique (lo + mult - 1) mult (lo / mult) (mult - 1)) by lia. lia.
    - rewrite narrow_ok by (apply Hf; lia). cbn [mbind res_bind].
      assert (Eu : mult * ((lo + mult - 1) / mult) = lo + (mult - lo mod mult)) by (rewrite <-(Z.div_unique (lo + mult - 1) mult (lo / mult + 1) (lo mod mult - 1)) by lia; lia).
      rewrite Eu, narrow_ok by (apply Hf; lia). done. }
  assert (Ehi : (if Z.rem hi mult =? 0 then Ok hi else narrow fits (hi - Z.rem hi mult)) = Ok (E := range_error) (down mult hi)).
  { destruct Hs as [Hs| ->]; [|by rewrite Z.rem_1_r; unfold down; rewrite Z.div_1_r; cbn; f_equal; lia].
    rewrite Z.rem_mod_nonneg by lia. unfold down in *. pose proof (Z.mod_le hi mult ltac:(lia) ltac:(lia)). pose proof (Z.mod_pos_bound hi mult ltac:(lia)).
    rewrite narrow_ok by (apply Hf; lia).
    pose proof (Z.div_mod hi mult ltac:(lia)). destruct (Z.eqb_spec (hi mod mult) 0); f_equal; lia. }
  rewrite Elo. cbn [mbind res_bind]. rewrite Ehi. cbn [mbind res_bind].
  destruct (Z.ltb_spec (down mult hi) (up mult lo)) as [|Hle]; [done|].
  assert (Hq : 0 <= (down mult hi - up mult lo) / mult <= down mult hi - up mult lo) by (split; [apply Z.div_pos|apply Z.div_le_upper_bound]; nia).
  rewrite narrow_ok by (apply Hf; lia). cbn [mbind res_bind]. rewrite Z.quot_div_nonneg by lia.
  rewrite narrow_ok by (apply Hf; lia). done.
Qed.

(** The multiples are those of the numbers below [count]. *)
Lemma multiples_count min max mult v : 1 <= mult -> up mult (low min max) <= down mult (high min max) ->
  (low min max <= v <= high min max /\ (mult | v)) <-> exists i, 0 <= i < count min max mult /\ v = up mult (low min max) + i * mult.
Proof.
  intros Hm Hle. unfold count. destruct (up_spec mult (low min max) Hm) as [Hu [a Ha]]. destruct (down_spec mult (high min max) Hm) as [Hd [b Hb]].
  assert (E : (down mult (high min max) - up mult (low min max)) / mult = b - a)
    by (rewrite Ha, Hb, <-Z.mul_sub_distr_r; apply Z.div_mul; lia).
  rewrite E. split.
  - intros [Hv Hdv]. pose proof (up_least mult _ v Hm (proj1 Hv) Hdv). pose proof (down_greatest mult _ v Hm (proj2 Hv) Hdv).
    destruct Hdv as [q ->]. exists (q - a). split; nia.
  - intros (i & Hi & ->). split; [nia|]. rewrite Ha, <-Z.mul_add_distr_r. apply Z.divide_factor_r.
Qed.

(** [v] is one of the numbers the caller asks for. *)
Definition wanted (min max mult v : Z) : Prop := low min max <= v <= high min max /\ (mult | v).

Lemma in_ll_iff z : in_ll z = true <-> LLONG_MIN <= z <= LLONG_MAX.
Proof. unfold in_ll. rewrite Bool.andb_true_iff, !Z.leb_le. done. Qed.
Lemma in_int_iff z : in_int z = true <-> INT_MIN <= z <= INT_MAX.
Proof. unfold in_int. rewrite Bool.andb_true_iff, !Z.leb_le. done. Qed.

(** The range and the distances in it are numbers of 64 bits. *)
Definition fits_ll (min max : Z) : Prop := LLONG_MIN <= low min max /\ high min max <= LLONG_MAX /\ high min max - low min max <= LLONG_MAX.

Lemma nth_ok min max mult rnd : 1 <= mult -> up mult (low min max) <= down mult (high min max) -> fits_ll min max -> 0 <= rnd ->
  nth_multiple (up mult (low min max)) (count min max mult) mult rnd = Ok (up mult (low min max) + rnd mod count min max mult * mult) /\
  wanted min max mult (up mult (low min max) + rnd mod count min max mult * mult).
Proof.
  intros Hm Hle (Hl & Hh & Hd) Hr. set (i := rnd mod count min max mult).
  assert (Hc : 1 <= count min max mult) by (unfold count; pose proof (Z.div_pos (down mult (high min max) - up mult (low min max)) mult); lia).
  pose proof (Z.mod_pos_bound rnd (count min max mult) ltac:(lia)) as Hi. fold i in Hi.
  assert (Hw : wanted min max mult (up mult (low min max) + i * mult)) by (apply multiples_count; eauto).
  split; [|done]. destruct Hw as [Hw _]. destruct (up_spec mult (low min max) Hm) as [Hu _].
  unfold nth_multiple. rewrite Z.rem_mod_nonneg by lia. fold i. assert (0 <= i * mult) by nia. unfold LLONG_MIN in *.
  rewrite narrow_ok by (apply in_ll_iff; unfold LLONG_MIN; lia). cbn [mbind res_bind].
  rewrite narrow_ok by (apply in_ll_iff; unfold LLONG_MIN; lia). done.
Qed.

(** Every wanted number is chosen for some random number. *)
Lemma nth_reaches min max mult v : 1 <= mult -> fits_ll min max -> wanted min max mult v ->
  up mult (low min max) <= down mult (high min max) /\
  exists rnd, 0 <= rnd < count min max mult /\ nth_multiple (up mult (low min max)) (count min max mult) mult rnd = Ok v.
Proof.
  intros Hm Hf Hw. assert (Hle : up mult (low min max) <= down mult (high min max)).
  { destruct Hw as [Hv Hd]. etrans; [exact (up_least mult _ v Hm (proj1 Hv) Hd)|exact (down_greatest mult _ v Hm (proj2 Hv) Hd)]. }
  split; [done|]. apply multiples_count in Hw as (i & Hi & ->); [|done..]. exists i. split; [done|].
  destruct (nth_ok min max mult i) as [-> _]; try done; [lia|]. by rewrite Z.mod_small.
Qed.

(** What a caller gets: a wanted number, or an error when there is none. *)
Definition answers (min max mult : Z) (r : R Z) : Prop :=
  match r with
  | Ok v => wanted min max mult v
  | Err e => e = NoMultiple min max mult /\ forall v, ~ wanted min max mult v
  | Fault => False
  end.

Lemma none_wanted min max mult v : 1 <= mult -> down mult (high min max) < up mult (low min max) -> ~ wanted min max mult v.
Proof. intros Hm Hlt [Hv Hd]. pose proof (up_least mult _ v Hm (proj1 Hv) Hd). pose proof (down_greatest mult _ v Hm (proj2 Hv) Hd). lia. Qed.

Lemma choose_answers fits min max mult (k : Z * Z * Z -> R Z) : range_ok fits min max mult ->
  (up mult (low min max) <= down mult (high min max) ->
   answers min max mult (k (up mult (low min max), down mult (high min max), count min max mult))) ->
  answers min max mult (x ← multiples fits min max mult; k x).
Proof.
  intros Hok Hk. rewrite multiples_ok by done. cbn beta iota zeta.
  destruct (Z.ltb_spec (down mult (high min max)) (up mult (low min max))) as [Hlt|Hle]; cbn [mbind res_bind]; [|by apply Hk].
  cbn. split; [done|]. intros v. apply none_wanted; [apply Hok|done].
Qed.

(** ** Random numbers beyond 2^31 *)
Lemma divider_ok fuel : forall min max cnt rand lrand48, 0 <= min <= max -> max + 2 ^ 31 <= LLONG_MAX -> max - min <= 2 ^ (61 - cnt) ->
  0 <= cnt <= 30 -> 0 <= lrand48 < 2 ^ 31 -> (cnt = 0 \/ rand = lrand48) -> 31 - cnt <= Z.of_nat fuel ->
  exists v, divider fuel min max cnt rand lrand48 = Ok v /\ 0 <= v.
Proof.
  induction fuel as [|fuel IH]; intros min max cnt rand lrand48 Hmm Hmax Hdiff Hcnt Hl Hr Hfuel; [lia|]. cbn [divider].
  rewrite (proj2 (Z.ltb_ge 32 cnt)) by lia.
  replace (if (cnt =? 0) || (rand <? -1) then lrand48 else rand) with lrand48
    by (destruct Hr as [-> | ->]; [done|by destruct ((cnt =? 0) || (lrand48 <? -1))]).
  assert (Hll : forall z, 0 <= z <= max + 2 ^ 31 -> narrow in_ll z = Ok z)
    by (intros; apply narrow_ok, in_ll_iff; unfold LLONG_MIN in *; lia).
  rewrite (Hll (max - min)) by lia. cbn [mbind res_bind]. destruct (Z.leb_spec (max - min) 2147483647) as [|Hd]; [rewrite (Hll (min + lrand48)) by lia; eexists; split; [reflexivity|lia]|].
  rewrite Z.quot_div_nonneg by lia. set (half := (max - min) / 2). assert (Hhalf : 2 * half <= max - min < 2 * half + 2) by (unfold half; Z.to_euclidean_division_equations; lia).
  rewrite (Hll (min + half)) by lia. cbn [mbind res_bind].
  assert (Hp : 0 < 2 ^ cnt <= 2 ^ 30) by (split; [apply Z.pow_pos_nonneg|apply Z.pow_le_mono_r]; lia).
  rewrite Z.shiftl_1_l, (narrow_ok in_int (2 ^ cnt)) by (apply in_int_iff; unfold INT_MIN, INT_MAX; lia). cbn [mbind res_bind].
  destruct (Z.leb_spec half 2147483647) as [|Hh].
  { rewrite Hll by (case_match; lia). eexists. split; [reflexivity|]. case_match; lia. }
  assert (Hc : cnt < 30) by (assert (cnt <> 30) by (intros ->; change (2 ^ (61 - 30)) with 2147483648 in Hdiff; lia); lia).
  assert (E : 2 ^ (61 - cnt) = 2 * 2 ^ (61 - (cnt + 1))) by (rewrite <-Z.pow_succ_r by lia; f_equal; lia).
  case_match; apply IH; auto; lia.
Qed.

Lemma rangell_answers min max mult lrand48 : range_ok in_ll min max mult -> 0 <= low min max -> high min max + 2 ^ 31 <= LLONG_MAX ->
  high min max - low min max <= 2 ^ 61 -> 0 <= lrand48 < 2 ^ 31 -> answers min max mult (random_rangell min max mult lrand48).
Proof.
  intros Hok Hl Hh Hd Hr. apply choose_answers; [done|]. intros Hle. destruct Hok as [Hm _ _].
  assert (Hf : fits_ll min max) by (unfold fits_ll, LLONG_MIN; lia).
  destruct (Z.leb_spec (down mult (high min max)) 2147483647).
  { destruct (nth_ok min max mult lrand48) as [-> Hw]; try done; lia. }
  pose proof (up_spec mult (low min max) Hm) as [Hu _]. pose proof (down_spec mult (high min max) Hm) as [Hdn _].
  destruct (divider_ok 34 (up mult (low min max)) (down mult (high min max)) 0 (-1) lrand48) as (v & -> & Hv); auto; try lia.
  cbn [mbind res_bind]. destruct (nth_ok min max mult v) as [-> Hw]; done.
Qed.

(** ** Bits *)

(** The number of the bits below [n] that are set. *)
Fixpoint rank (mask : Z) (n : nat) : Z := match n with O => 0 | S n => rank mask n + Z.b2z (Z.testbit mask (Z.of_nat n)) end.

Lemma rank_0 mask : rank mask 0 = 0.
Proof. done. Qed.
Lemma rank_S mask n : rank mask (S n) = rank mask n + Z.b2z (Z.testbit mask (Z.of_nat n)).
Proof. done. Qed.

Lemma rank_mono mask m n : (m <= n)%nat -> 0 <= rank mask n - rank mask m <= Z.of_nat n - Z.of_nat m.
Proof. induction 1 as [|n Hle IH]; cbn [rank]; [lia|]. destruct (Z.testbit mask (Z.of_nat n)); cbn [Z.b2z]; lia. Qed.

Lemma rank_inj mask k k' : Z.testbit mask (Z.of_nat k) = true -> Z.testbit mask (Z.of_nat k') = true -> rank mask k = rank mask k' -> k = k'.
Proof.
  intros H H' E. destruct (Nat.lt_trichotomy k k') as [Hlt|[?|Hlt]]; [|done|].
  - pose proof (rank_mono mask (S k) k' Hlt) as Hr. cbn [rank] in Hr. rewrite H in Hr. cbn [Z.b2z] in Hr. lia.
  - pose proof (rank_mono mask (S k') k Hlt) as Hr. cbn [rank] in Hr. rewrite H' in Hr. cbn [Z.b2z] in Hr. lia.
Qed.

Lemma sign_bits mask i : in_ll mask = true -> 63 <= i -> Z.testbit mask i = (mask <? 0).
Proof.
  rewrite in_ll_iff. unfold LLONG_MIN, LLONG_MAX. intros Hm Hi. destruct (Z.ltb_spec mask 0).
  - apply Z.bits_above_log2_neg; [done|]. destruct (Z.eq_dec mask (-1)) as [->|]; [change (0 < i); lia|].
    assert (Z.log2 (Z.pred (- mask)) < 63) by (apply Z.log2_lt_pow2; lia). lia.
  - destruct (Z.eq_dec mask 0) as [->|]; [apply Z.bits_0|]. apply Z.bits_above_log2; [done|].
    assert (Z.log2 mask < 63) by (apply Z.log2_lt_pow2; lia). lia.
Qed.

(** A mask [b] that is [mask]'s bit [j], or copies of it. *)
Lemma land_eqb mask b j : Z.testbit b j = true -> (forall i, 0 <= i -> Z.testbit b i = true -> Z.testbit mask i = Z.testbit mask j) ->
  (Z.land mask b =? 0) = negb (Z.testbit mask j).
Proof.
  intros Hb Hi. destruct (Z.testbit mask j) eqn:E; cbn [negb].
  - apply Z.eqb_neq. intros H. apply (f_equal (fun z => Z.testbit z j)) in H. by rewrite Z.land_spec, E, Hb, Z.bits_0 in H.
  - apply Z.eqb_eq, Z.bits_inj'. intros i Hi0. rewrite Z.land_spec, Z.bits_0. destruct (Z.testbit b i) eqn:Eb; [|apply Bool.andb_false_r].
    by rewrite (Hi i Hi0 Eb).
Qed.

Lemma land_pow2 mask j : 0 <= j -> (Z.land mask (2 ^ j) =? 0) = negb (Z.testbit mask j).
Proof.
  intros Hj. apply land_eqb; [apply Z.pow2_bits_true; lia|]. intros i Hi. rewrite Z.pow2_bits_eqb by lia. by intros <-%Z.eqb_eq.
Qed.

Lemma land_bit mask j : in_ll mask = true -> 0 <= j < 64 -> (Z.land mask (wrap_s 64 (2 ^ j)) =? 0) = negb (Z.testbit mask j).
Proof.
  intros Hm Hj. destruct (Z.eq_dec j 63) as [->|].
  - change (wrap_s 64 (2 ^ 63)) with (- 2 ^ 63). apply land_eqb; [done|]. intros i Hi Hb.
    rewrite !sign_bits; [done|done|lia|done|]. destruct (Z.le_gt_cases 63 i) as [|Hlt]; [done|].
    replace (- 2 ^ 63) with (Z.lnot (Z.ones 63)) in Hb by done. by rewrite Z.lnot_spec, Z.ones_spec_low in Hb by lia.
  - assert (0 < 2 ^ j <= 2 ^ 62) by (split; [apply Z.pow_pos_nonneg|apply Z.pow_le_mono_r]; lia).
    rewrite wrap_s_id by lia. apply land_pow2. lia.
Qed.

Lemma count_bits_ok mask n : forall j nbits, in_ll mask = true -> (j + n = 64)%nat ->
  count_bits n mask (wrap_s 64 (2 ^ Z.of_nat j)) nbits = nbits + (rank mask 64 - rank mask j).
Proof.
  induction n as [|n IH]; intros j nbits Hm Hj; cbn [count_bits]; [replace j with 64%nat by lia; lia|].
  rewrite land_bit by (done || lia). destruct (Nat.eq_dec j 63) as [->|].
  { replace n with 0%nat by lia. cbn [count_bits]. rewrite (rank_S mask 63).
    destruct (Z.testbit mask (Z.of_nat 63)); cbn [negb Z.b2z]; lia. }
  assert (E : wrap_s 64 (Z.shiftl (wrap_s 64 (2 ^ Z.of_nat j)) 1) = wrap_s 64 (2 ^ Z.of_nat (S j))).
  { assert (0 < 2 ^ Z.of_nat j <= 2 ^ 62) by (split; [apply Z.pow_pos_nonneg|apply Z.pow_le_mono_r]; lia).
    rewrite (wrap_s_id 64 (2 ^ Z.of_nat j)), Z.shiftl_mul_pow2, <-Z.pow_add_r by lia. do 2 f_equal. lia. }
  rewrite E, (IH (S j) _ Hm ltac:(lia)), (rank_S mask j). destruct (Z.testbit mask (Z.of_nat j)); cbn [negb Z.b2z]; lia.
Qed.

(** The loop stops behind the bit of the rank that was chosen. *)
Lemma shift_loop_ok mask fuel : forall s bit, (s <= 64)%nat -> 1 <= bit -> rank mask s + bit <= rank mask 64 -> (65 < fuel + s)%nat ->
  exists k, (k < 64)%nat /\ Z.testbit mask (Z.of_nat k) = true /\ rank mask k + 1 = rank mask s + bit /\
    shift_loop fuel bit (Z.shiftr mask (Z.of_nat s)) (Z.of_nat s) = Ok (Z.of_nat k + 1).
Proof.
  induction fuel as [|fuel IH]; intros s bit Hs Hb Hr Hf; [lia|]. destruct (Nat.eq_dec s 64) as [->|]; [lia|]. cbn [shift_loop].
  rewrite (proj2 (Z.eqb_neq bit 0)) by lia. change 1 with (2 ^ 0) at 2. rewrite land_pow2, Z.shiftr_spec, Z.shiftr_shiftr by lia.
  replace (Z.of_nat s + 1) with (Z.of_nat (S s)) by lia. rewrite Z.add_0_l.
  assert (E : rank mask (S s) = rank mask s + Z.b2z (Z.testbit mask (Z.of_nat s))) by apply rank_S.
  destruct (Z.testbit mask (Z.of_nat s)) eqn:Et; cbn [negb Z.b2z] in *.
  - destruct (Z.eq_dec bit 1) as [->|].
    + exists s. split_and!; [lia|done|lia|]. destruct fuel; [lia|]. change (Ok (E := range_error) (Z.of_nat (S s)) = Ok (Z.of_nat s + 1)). f_equal. lia.
    + destruct (IH (S s) (bit - 1)) as (k & Hk & Hkt & Hkr & ->); try lia. exists k. split_and!; (done || lia).
  - destruct (IH (S s) bit) as (k & Hk & Hkt & Hkr & ->); try lia. exists k. split_and!; (done || lia).
Qed.

Lemma set_bit_exists mask : in_ll mask = true -> mask <> 0 -> exists k, (k < 64)%nat /\ Z.testbit mask (Z.of_nat k) = true.
Proof.
  intros Hm Hz. destruct (Z.ltb_spec mask 0) as [Hn|Hn].
  - exists 63%nat. split; [lia|]. rewrite sign_bits by (done || lia). by apply Z.ltb_lt.
  - rewrite in_ll_iff in Hm. unfold LLONG_MAX in Hm. assert (Z.log2 mask < 63) by (apply Z.log2_lt_pow2; lia). pose proof (Z.log2_nonneg mask).
    exists (Z.to_nat (Z.log2 mask)). split; [lia|]. rewrite Z2Nat.id by lia. apply Z.bit_log2. lia.
Qed.

(** ** The text of ranges *)
Inductive item : Set := Num (n : Z) | Span (min max : option Z) (mult : option (option Z)).

Definition opt_dec (o : option Z) : cstr := default [] (dec <$> o).
Definition item_text (i : item) : cstr :=
  match i with
  | Num n => dec n
  | Span min max mult => opt_dec min ++ COLON :: opt_dec max ++ match mult with None => [] | Some m => COLON :: opt_dec m end
  end.
Fixpoint render (l : list item) : cstr :=
  match l with [] => [] | [i] => item_text i | i :: l => item_text i ++ COMMA :: render l end.

Definition meaning (defmin defmax defmult : Z) (i : item) : range :=
  match i with
  | Num n => mkRange n n defmult
  | Span min max mult => mkRange (default defmin min) (default defmax max) (default defmult (default None mult))
  end.

Definition opt_int (o : option Z) : bool := match o with None => true | Some z => in_int z end.
Definition item_ok (i : item) : bool :=
  match i with Num n => in_int n | Span min max mult => opt_int min && opt_int max && opt_int (default None mult) end.

Lemma strchr_none s c : c ∉ s -> strchr s c = None.
Proof.
  induction s as [|x s IH]; intros H; [done|]. cbn. rewrite elem_of_cons in H.
  rewrite (proj2 (Z.eqb_neq x c)) by naive_solver. apply IH. naive_solver.
Qed.
Lemma strchr_app s c t : c ∉ s -> strchr (s ++ c :: t) c = Some (c :: t).
Proof.
  induction s as [|x s IH]; intros H; cbn; [by rewrite Z.eqb_refl|]. rewrite elem_of_cons in H.
  rewrite (proj2 (Z.eqb_neq x c)) by naive_solver. apply IH. naive_solver.
Qed.

Lemma cut_none s : COLON ∉ s -> cut s = (s, None).
Proof. intros H. unfold cut. by rewrite strchr_none. Qed.
Lemma cut_colon s t : COLON ∉ s -> cut (s ++ COLON :: t) = (s, Some t).
Proof. intros H. unfold cut. rewrite strchr_app, length_app, Nat.add_sub, take_app_length by done. done. Qed.

Lemma dec_plain z c : is_digit 10 c = false -> c <> "-"%ch -> c ∉ dec z.
Proof.
  intros Hc Hm. destruct (dec_split z) as (ds & -> & _ & Hall & _). rewrite elem_of_app.
  intros [H|H]; [destruct (z <? 0); [by apply list_elem_of_singleton in H|by apply elem_of_nil in H]|by apply (forallb_notin _ _ _ Hall Hc)].
Qed.
Lemma opt_plain o c : is_digit 10 c = false -> c <> "-"%ch -> c ∉ opt_dec o.
Proof. intros Hc Hm. destruct o as [z|]; [by apply dec_plain|apply not_elem_of_nil]. Qed.

Lemma str_to_int_dec z : in_int z = true -> str_to_int (dec z) = Some z.
Proof.
  intros Hz%in_int_iff. unfold INT_MIN, INT_MAX in Hz. unfold str_to_int.
  assert (E : strtol LLONG_MIN LLONG_MAX 0 (dec z) = clamp LLONG_MIN LLONG_MAX z []).
  { destruct (Z.eq_dec z 0) as [->|Hne]; [done|]. destruct (dec_split z) as (ds & -> & Hds & Hall & Hv & Hh). specialize (Hh Hne).
    rewrite <-(app_nil_r ds), strtol_digits; try done.
    - rewrite Hv. f_equal. destruct (Z.ltb_spec z 0); lia.
    - rewrite app_nil_r. destruct ds as [|c ds]; [done|]. cbn in Hh. unfold base_of. cbn [Z.eqb].
      rewrite (proj2 (Z.eqb_neq c _) Hh). by destruct ds as [|? [|? ?]]. }
  rewrite E. unfold clamp, LLONG_MIN, LLONG_MAX. rewrite (proj2 (Z.ltb_ge z _)), (proj2 (Z.ltb_ge _ z)) by lia. cbn. rewrite wrap_s_id by lia. done.
Qed.

Lemma dec_short z : in_int z = true -> 0 < Z.of_nat (length (dec z)) < 2 ^ 31.
Proof.
  intros Hz%in_int_iff. unfold INT_MIN, INT_MAX in Hz. split.
  - destruct (dec_split z) as (ds & -> & Hds & _). rewrite length_app. destruct ds; [done|]. cbn [length]. lia.
  - unfold dec. rewrite length_app. pose proof (dec_digits_length (S (Z.to_nat (Z.log2 (Z.abs z)))) (Z.abs z) []) as H. cbn [length] in H.
    pose proof (Z.log2_le_mono (Z.abs z) 2147483648 ltac:(lia)) as Hl. change (Z.log2 2147483648) with 31 in Hl. case_match; cbn [length]; lia.
Qed.

Lemma field_opt o def : opt_int o = true -> parse_field str_to_int (opt_dec o) def = Ok (default def o).
Proof.
  unfold parse_field. destruct o as [z|]; [|done]. change (opt_dec (Some z)) with (dec z). cbn [opt_int default]. intros Hz.
  pose proof (dec_short z Hz). rewrite wrap_s_id, (proj2 (Z.ltb_lt 0 _)), str_to_int_dec by (done || lia). done.
Qed.

Lemma token_item defmin defmax defmult i : item_ok i = true ->
  parse_token str_to_int defmin defmax defmult (item_text i) = Ok (meaning defmin defmax defmult i).
Proof.
  unfold parse_token. destruct i as [n|min max mult]; cbn [item_ok item_text meaning]; intros H.
  - rewrite cut_none by (by apply dec_plain). change (dec n) with (opt_dec (Some n)). by rewrite field_opt.
  - apply andb_prop in H as [[H1 H2]%andb_prop H3]. rewrite cut_colon by (by apply opt_plain).
    destruct mult as [m|]; cbn [default] in *.
    + rewrite cut_colon by (by apply opt_plain). by rewrite !field_opt by done.
    + rewrite app_nil_r, cut_none by (by apply opt_plain). by rewrite !field_opt by done.
Qed.

Lemma item_comma i : forallb (fun c => negb (is_comma c)) (item_text i) = true.
Proof.
  apply forallb_forall. intros x Hx%list_elem_of_In. unfold is_comma. apply negb_true_iff, Z.eqb_neq. intros ->. revert Hx. change (COMMA ∉ item_text i).
  destruct i as [n|min max [m|]]; cbn [item_text]; [by apply dec_plain| |]; rewrite ?elem_of_app, ?elem_of_cons, ?elem_of_app, ?elem_of_cons, ?elem_of_nil;
    pose proof (fun o => opt_plain o COMMA eq_refl ltac:(done)) as H; naive_solver.
Qed.
Lemma item_nonempty i : item_ok i = true -> item_text i <> [].
Proof.
  destruct i as [n|min max mult]; cbn [item_ok item_text]; [|by intros _ [_ ?]%app_nil]. intros H E.
  pose proof (dec_short n H) as Hs. rewrite E in Hs. cbn in Hs. lia.
Qed.

(** ** Tokens *)
Lemma ncommas_app s t : ncommas (s ++ t) = (ncommas s + ncommas t)%nat.
Proof. induction s as [|c s IH]; cbn [ncommas app]; [done|]. rewrite IH. lia. Qed.

(** The rest has a comma less unless it is empty. *)
Lemma strtok_commas s tok rest : strtok is_comma s = Some (tok, rest) -> (rest = [] \/ ncommas rest + 1 <= ncommas s)%nat.
Proof.
  intros H. pose proof (strtok_cases is_comma s) as Hc. rewrite H in Hc. destruct Hc as (_ & _ & gap & _ & [[_ ->]|(c & Hc & ->)]); [by left|right].
  rewrite !ncommas_app. cbn [ncommas]. rewrite Hc. lia.
Qed.

Lemma cut_parts s a o : cut s = (a, o) -> part_of a s /\ match o with None => True | Some b => part_of b s end.
Proof.
  unfold cut. destruct (strchr s COLON) as [cp|] eqn:E; intros [= <- <-]; [|split; [apply part_refl|done]].
  split; [by exists [], (drop (length s - length cp) s); rewrite take_drop|].
  assert (H : exists p, s = p ++ cp).
  { revert E. induction s as [|c s IH]; [done|]. cbn. destruct (c =? COLON); [intros [= <-]; by exists []|].
    intros (p & ->)%IH. by exists (c :: p). }
  destruct H as (p & ->). exists (p ++ take 1 cp), []. by rewrite app_nil_r, <-app_assoc, take_drop.
Qed.

Lemma render_cons i l : l <> [] -> render (i :: l) = item_text i ++ COMMA :: render l.
Proof. by destruct l. Qed.

Lemma loop_render defmin defmax defmult l : forall fuel room, forallb item_ok l = true -> (length l < fuel)%nat -> (length l <= room)%nat ->
  parse_loop str_to_int defmin defmax defmult fuel room (render l) = Ok (meaning defmin defmax defmult <$> l).
Proof.
  induction l as [|i l IH]; intros fuel room Hok Hf Hr; (destruct fuel as [|fuel]; [lia|]); cbn [length] in *; [done|].
  apply andb_prop in Hok as [Hi Hok]. cbn [parse_loop].
  assert (E : strtok is_comma (render (i :: l)) = Some (item_text i, render l)).
  { destruct l as [|j l]; cbn [render].
    - rewrite <-(app_nil_r (item_text i)) at 1. apply strtok_app; [by apply item_nonempty|apply item_comma|done].
    - rewrite strtok_app; [done|by apply item_nonempty|apply item_comma|done]. }
  rewrite E. destruct room as [|room]; [lia|]. rewrite token_item by done. cbn [mbind res_bind]. by rewrite IH by (done || lia).
Qed.

Lemma render_size l : forallb item_ok l = true -> (length l <= length (render l) /\ length l <= ncommas (render l) + 1)%nat.
Proof.
  induction l as [|i l IH]; [cbn; lia|]. cbn [forallb]. intros [Hi Hok]%andb_prop. specialize (IH Hok).
  pose proof (item_nonempty i Hi) as Hne. destruct l as [|j l]; [cbn [render length] in *; destruct (item_text i); [done|cbn [length]; lia]|].
  rewrite render_cons, length_app, ncommas_app by done. cbn [length] in *.
  change (ncommas (COMMA :: render (j :: l))) with (S (ncommas (render (j :: l)))). lia.
Qed.

(** The error message for [f] does not fit its buffer. *)
Definition too_long (f : cstr) : Prop := 219 <= Z.of_nat (length f).

(** What parsing may end with: at most [n] ranges; a message that names a part
    of the text that is no number; or that part is too long for the message. *)
Definition parsed {A} (parse_func : cstr -> option Z) (P : A -> Prop) (s : cstr) (r : res cstr A) : Prop :=
  match r with
  | Ok a => P a
  | Err msg => exists f, part_of f s /\ parse_func f = None /\ msg = str "error parsing string " ++ f ++ str " into an integer"
  | Fault => exists f, part_of f s /\ parse_func f = None /\ too_long f
  end.

Section Safe.
Context (parse_func : cstr -> option Z) (defmin defmax defmult : Z).

Lemma parsed_bind {A B} (P : A -> Prop) (Q : B -> Prop) s (m : res cstr A) (k : A -> res cstr B) :
  parsed parse_func P s m -> (forall a, P a -> parsed parse_func Q s (k a)) -> parsed parse_func Q s (m ≫= k).
Proof. destruct m as [a| |]; cbn; auto. Qed.

Lemma parsed_part {A} (P : A -> Prop) s t (m : res cstr A) : part_of s t -> parsed parse_func P s m -> parsed parse_func P t m.
Proof. intros Hp. destruct m; cbn; [done| |]; intros (f & Hf & H); exists f; (split; [by eapply part_trans|done]). Qed.

Lemma field_parsed s def t : part_of s t -> parsed parse_func (fun _ => True) t (parse_field parse_func s def).
Proof.
  intros Hp. apply (parsed_part _ s); [done|]. unfold parse_field. destruct (0 <? _); [|done]. destruct (parse_func s) eqn:E; [done|].
  unfold parse_error. rewrite !length_app. destruct (Z.leb_spec 256 (Z.of_nat (length (str "error parsing string ") + (length s + length (str " into an integer"))))) as [H|H];
    exists s; (split; [apply part_refl|split; [done|]]); [|done].
  change (length (str "error parsing string ")) with 21%nat in H. change (length (str " into an integer")) with 16%nat in H. unfold too_long. lia.
Qed.

Lemma token_parsed tok : parsed parse_func (fun _ => True) tok (parse_token parse_func defmin defmax defmult tok).
Proof.
  unfold parse_token. destruct (cut tok) as [n1 o] eqn:E. apply cut_parts in E as [H1 H2].
  destruct o as [n2|]; [destruct (cut n2) as [n2' m] eqn:E2; apply cut_parts in E2 as [H3 H4]|];
    apply (parsed_bind (fun _ => True)); [by apply field_parsed|intros min _|by apply field_parsed|done].
  apply (parsed_bind (fun _ => True)); [apply field_parsed; by eapply part_trans|]. intros max _.
  apply (parsed_bind (fun _ => True)); [|done]. destruct m as [m|]; [|done]. apply field_parsed. by eapply part_trans.
Qed.

Lemma loop_parsed fuel : forall room s, (length s < fuel)%nat -> (s = [] \/ ncommas s + 1 <= room)%nat ->
  parsed parse_func (fun l => length l <= room)%nat s (parse_loop parse_func defmin defmax defmult fuel room s).
Proof.
  induction fuel as [|fuel IH]; intros room s Hf Hr; [lia|]. cbn [parse_loop]. destruct (strtok is_comma s) as [[tok rest]|] eqn:E; [|cbn; lia].
  destruct (strtok_parts _ _ _ _ E) as [H1 H2]. pose proof (strtok_shorter _ _ _ _ E) as H3. pose proof (strtok_commas _ _ _ E) as H4. destruct Hr as [-> |Hr]; [cbn in H3; lia|]. destruct room as [|room]; [lia|].
  eapply parsed_bind; [apply (parsed_part _ tok); [done|apply token_parsed]|]. intros r _.
  eapply parsed_bind; [apply (parsed_part _ rest); [done|]; apply (IH room); [lia|]|].
  - destruct H4 as [-> |H4]; [by left|right; lia].
  - intros l Hl. cbn in *. lia.
Qed.
End Safe.

(** ** The bit that is chosen *)
Lemma pick_1 n rnd : 1 <= n <= 64 -> 0 <= rnd -> random_range 1 n 1 rnd = Ok (1 + rnd mod n).
Proof.
  intros Hn Hr. assert (Hlo : low 1 n = 1) by (unfold low; lia). assert (Hhi : high 1 n = n) by (unfold high; lia).
  assert (Eu : up 1 1 = 1) by done. assert (Ed : down 1 n = n) by (unfold down; rewrite Z.div_1_r; lia).
  assert (Ec : count 1 n 1 = n) by (unfold count; rewrite Hlo, Hhi, Eu, Ed, Z.div_1_r; lia).
  unfold random_range. rewrite multiples_ok.
  - rewrite Hlo, Hhi, Eu, Ed. cbn beta iota zeta. rewrite (proj2 (Z.ltb_ge n 1)) by lia. cbn [mbind res_bind].
    destruct (nth_ok 1 n 1 rnd) as [E _]; rewrite ?Hlo, ?Hhi, ?Eu, ?Ed; try done; [lia| |].
    + unfold fits_ll. rewrite Hlo, Hhi. unfold LLONG_MIN, LLONG_MAX. lia.
    + rewrite Hlo, Eu, Ec in E. rewrite Ec, E. f_equal. lia.
  - split; [done|by right|]. rewrite Hlo, Hhi. intros z Hz. apply in_int_iff. unfold INT_MIN, INT_MAX. lia.
Qed.

Lemma random_bit_eq mask rnd n v s : mask <> 0 -> count_bits 64 mask 1 0 = n -> random_range 1 n 1 rnd = Ok v ->
  shift_loop 66 v mask 0 = Ok s -> random_bit mask rnd = Ok (wrap_s 64 (Z.shiftl 1 (s - 1))).
Proof.
  intros Hz En Ev Es. unfold random_bit. rewrite (proj2 (Z.eqb_neq mask 0) Hz), En.
  apply bind_Ok. exists v. split; [exact Ev|]. apply bind_Ok. exists s. split; [exact Es|reflexivity].
Qed.

Lemma bit_chosen mask rnd : in_ll mask = true -> mask <> 0 -> 0 <= rnd -> exists k, (k < 64)%nat /\ Z.testbit mask (Z.of_nat k) = true /\
  rank mask k = rnd mod rank mask 64 /\ random_bit mask rnd = Ok (wrap_s 64 (2 ^ Z.of_nat k)).
Proof.
  intros Hm Hz Hr. destruct (set_bit_exists mask Hm Hz) as (b & Hb & Hbt). pose proof (rank_mono mask (S b) 64 Hb) as H1.
  pose proof (rank_mono mask 0 b ltac:(lia)) as H0. pose proof (rank_mono mask 0 64 ltac:(lia)) as H2.
  rewrite (rank_S mask b), Hbt in H1. rewrite rank_0 in *. cbn [Z.b2z] in H1.
  pose proof (Z.mod_pos_bound rnd (rank mask 64) ltac:(lia)) as Hmod.
  remember (1 + rnd mod rank mask 64) as v eqn:Ev.
  destruct (shift_loop_ok mask 66 0 v) as (k & Hk & Ht & Ek & E); [lia|lia|rewrite rank_0; lia|lia|].
  exists k. rewrite rank_0 in Ek. split_and!; [done|done|lia|]. 
  pose proof (count_bits_ok mask 64 0 0 Hm eq_refl) as Ec. rewrite rank_0, Z.sub_0_r, Z.add_0_l in Ec.
  rewrite (random_bit_eq mask rnd _ v (Z.of_nat k + 1) Hz Ec); [|by rewrite pick_1, Ev by lia|by rewrite Z.shiftr_0_r in E].
  rewrite Z.shiftl_1_l. by replace (Z.of_nat k + 1 - 1) with (Z.of_nat k) by lia.
Qed.

(** ** Properties *)

(** [random_range], for ranges of non-negative numbers and for all ranges
    with the multiple 1, given in any order.  It returns a multiple of [mult]
    in the range; it fails exactly when there is none; and each of them is
    returned for some value of [lrand48]. *)
Theorem random_range_correct min max mult lrand48 : 1 <= mult -> 0 <= low min max \/ mult = 1 ->
  INT_MIN <= low min max -> high min max + mult <= INT_MAX -> high min max - low min max < INT_MAX -> 0 <= lrand48 < 2 ^ 31 ->
  answers min max mult (random_range min max mult lrand48) /\
  (forall v, wanted min max mult v -> exists rnd, 0 <= rnd < 2 ^ 31 /\ random_range min max mult rnd = Ok v).
Proof.
  intros Hm Hs Hl Hh Hd Hr. unfold INT_MIN, INT_MAX in *. assert (Hok : range_ok in_int min max mult).
  { split; [done..|]. intros z Hz. apply in_int_iff. unfold INT_MIN, INT_MAX. lia. }
  assert (Hf : fits_ll min max) by (unfold fits_ll, LLONG_MIN, LLONG_MAX; lia). split.
  - apply choose_answers; [done|]. intros Hle. destruct (nth_ok min max mult lrand48) as [-> Hw]; done || lia.
  - intros v Hv. destruct (nth_reaches min max mult v) as [Hle (rnd & Hrnd & E)]; [done..|]. exists rnd.
    pose proof (up_spec mult (low min max) Hm) as [Hu _]. pose proof (down_spec mult (high min max) Hm) as [Hdn _].
    assert (count min max mult <= 2147483647) by (unfold count; pose proof (Z.div_le_upper_bound (down mult (high min max) - up mult (low min max)) mult 2147483646); nia).
    split; [lia|]. unfold random_range. rewrite multiples_ok by done. cbn beta iota zeta. by rewrite (proj2 (Z.ltb_ge _ _) Hle).
Qed.

Lemma rangell_negative lrand48 : random_rangell (-10) (-5) 4 lrand48 = Ok (-4) /\ random_rangel (-10) (-5) 4 lrand48 = Ok (-4) /\ ~ wanted (-10) (-5) 4 (-4).
Proof.
  assert (E : nth_multiple (-4) 1 4 lrand48 = Ok (-4)) by (unfold nth_multiple; by rewrite Z.rem_1_r). split_and!; [exact E|exact E|].
  intros [[_ H] _]. vm_compute in H. by apply H.
Qed.

(** C39: [random_rangell] and [random_rangel], for ranges of non-negative
    numbers at most 2^61 apart.  The halving of the range in [divider] ends
    before its limit, without an overflow, and the number returned is a
    multiple in the range for every value of [lrand48]; they fail exactly when
    there is none.  Negative numbers, which the comment of the code allows, are
    excluded for a reason: of the multiples of 4 from -10 to -5 the answer is always
    -4, which is outside. *)
Theorem random_range64_correct min max mult lrand48 : 1 <= mult -> 0 <= low min max -> high min max + Z.max mult (2 ^ 31) <= LLONG_MAX ->
  high min max - low min max <= 2 ^ 61 -> 0 <= lrand48 < 2 ^ 31 ->
  (answers min max mult (random_rangell min max mult lrand48) /\ answers min max mult (random_rangel min max mult lrand48)) /\
  (random_rangell (-10) (-5) 4 lrand48 = Ok (-4) /\ random_rangel (-10) (-5) 4 lrand48 = Ok (-4) /\ ~ wanted (-10) (-5) 4 (-4)).
Proof.
  intros Hm Hl Hh Hd Hr. split; [|by apply rangell_negative]. assert (Hok : range_ok in_ll min max mult).
  { split; [done|by left|]. intros z Hz. apply in_ll_iff. unfold LLONG_MIN, LLONG_MAX in *. lia. }
  split; [apply rangell_answers; (done || lia)|]. apply choose_answers; [done|]. intros Hle.
  destruct (nth_ok min max mult lrand48) as [-> Hw]; try done; [unfold fits_ll, LLONG_MIN; lia|lia].
Qed.

(** [random_bit] returns, for every value of [lrand48], one bit that is set
    in the mask, and each of them for some value; 0 for the mask 0.  The loops
    over the 64 bits end also for masks with the sign bit. *)
Theorem random_bit_correct mask lrand48 : in_ll mask = true -> 0 <= lrand48 < 2 ^ 31 ->
  if mask =? 0 then random_bit mask lrand48 = Ok 0
  else (exists k, (k < 64)%nat /\ Z.testbit mask (Z.of_nat k) = true /\ random_bit mask lrand48 = Ok (wrap_s 64 (2 ^ Z.of_nat k))) /\
    (forall k, (k < 64)%nat -> Z.testbit mask (Z.of_nat k) = true ->
       exists rnd, 0 <= rnd < 2 ^ 31 /\ random_bit mask rnd = Ok (wrap_s 64 (2 ^ Z.of_nat k))).
Proof.
  intros Hm Hr. destruct (Z.eqb_spec mask 0) as [->|Hz]; [done|]. split.
  - destruct (bit_chosen mask lrand48) as (k & Hk & Ht & _ & E); [done..|lia|]. eauto.
  - intros k Hk Ht. pose proof (rank_mono mask 0 k ltac:(lia)) as H0. pose proof (rank_mono mask (S k) 64 Hk) as H1. pose proof (rank_mono mask 0 64 ltac:(lia)) as H2.
    rewrite (rank_S mask k), Ht in H1. rewrite rank_0 in *. cbn [Z.b2z] in H1. exists (rank mask k). split; [lia|].
    destruct (bit_chosen mask (rank mask k)) as (k' & _ & Ht' & Er & E); [done..|lia|]. rewrite Z.mod_small in Er by lia.
    assert (k' = k) as <- by (by apply (rank_inj mask)). exact E.
Qed.

(** Parsing of ranges.  The text of any list of ranges, with numbers left
    out anywhere, is parsed into these ranges with the defaults filled in. *)
Theorem parse_ranges_roundtrip defmin defmax defmult l : forallb item_ok l = true ->
  parse_ranges str_to_int defmin defmax defmult (render l) = Ok (meaning defmin defmax defmult <$> l).
Proof. intros H. destruct (render_size l H) as [H1 H2]. apply loop_render; [done|lia|lia]. Qed.

(** Parsing of any text with any function that reads numbers ends, stores
    no more ranges than the array has room for, and fails only with a message
    about a part that is no number.  The exception is a part of 219 characters
    or more: the message overflows its buffer. *)
Theorem parse_ranges_safe parse_func defmin defmax defmult s :
  parsed parse_func (fun l => length l <= ncommas s + 1)%nat s (parse_ranges parse_func defmin defmax defmult s).
Proof. apply loop_parsed; [lia|by right]. Qed.

(** ** Witnesses *)
Lemma random_range_correct_witness : answers 10 3 4 (random_range 10 3 4 77) /\
  (forall v, wanted 10 3 4 v -> exists rnd, 0 <= rnd < 2 ^ 31 /\ random_range 10 3 4 rnd = Ok v).
Proof. apply (random_range_correct 10 3 4 77); [lia|left|..]; zeval. Defined.

Lemma random_range64_correct_witness : (answers 0 (2 ^ 40) 512 (random_rangell 0 (2 ^ 40) 512 123456789) /\
  answers 0 (2 ^ 40) 512 (random_rangel 0 (2 ^ 40) 512 123456789)) /\
  (random_rangell (-10) (-5) 4 123456789 = Ok (-4) /\ random_rangel (-10) (-5) 4 123456789 = Ok (-4) /\ ~ wanted (-10) (-5) 4 (-4)).
Proof. apply (random_range64_correct 0 (2 ^ 40) 512 123456789); [lia|zeval..]. Defined.

Lemma random_bit_correct_witness : (exists k, (k < 64)%nat /\ Z.testbit (-8) (Z.of_nat k) = true /\ random_bit (-8) 5 = Ok (wrap_s 64 (2 ^ Z.of_nat k))) /\
  (forall k, (k < 64)%nat -> Z.testbit (-8) (Z.of_nat k) = true ->
     exists rnd, 0 <= rnd < 2 ^ 31 /\ random_bit (-8) rnd = Ok (wrap_s 64 (2 ^ Z.of_nat k))).
Proof. apply (random_bit_correct (-8) 5); [reflexivity|lia]. Defined.

Lemma parse_ranges_roundtrip_witness :
  parse_ranges str_to_int 0 100 1 (render [Num 5; Span (Some 1) None (Some (Some 4)); Span None None None]) = Ok [mkRange 5 5 1; mkRange 1 100 4; mkRange 0 100 1].
Proof. apply (parse_ranges_roundtrip 0 100 1 [Num 5; Span (Some 1) None (Some (Some 4)); Span None None None]). reflexivity. Defined.
