(* ===== verification/WriteLog.v ===== *)
(** * The log of writes: [testcases/kernel/fs/doio/write_log.c]

    Test programs record each write to a file in a log, mark it as done, and
    judge the file later by scanning the log backwards.  A record on disk has a
    fixed part with bit-fields (on a little endian machine, as the supported
    compilers lay them out), strings of variable length, and its length in two
    bytes.  A file is the list of its bytes; the system calls on the log are
    taken to succeed.  [bufsz] is the size of the buffer of the scan,
    [BSIZE * 32]; a [char] is signed. *)

From stdpp Require Import base list.
From Stdlib Require Import ZArith Lia.
From S2P Require Import Prelude Bytes.

Local Open Scope Z_scope.

Abbreviation M := (res unit).

Definition WLOG_MAX_PATH : Z := 128.
Definition WLOG_MAX_PATTERN : Z := 64.
Definition WLOG_MAX_HOST : Z := 8.
(** [sizeof(struct wlog_rec_disk)], [sizeof(struct wlog_rec)]. *)
Definition DISK : Z := 28.
Definition WLOG_REC_MAX_SIZE : Z := 248 + WLOG_MAX_PATH + WLOG_MAX_PATTERN + WLOG_MAX_HOST + 2.

(** The arrays have one byte more than the longest string. *)
Record wlog_rec : Set := mkRec {
  w_pid : Z; w_offset : Z; w_nbytes : Z; w_oflags : Z; w_done : Z; w_async : Z;
  w_host : list Z; w_hostlen : Z; w_path : list Z; w_pathlen : Z; w_pattern : list Z; w_patternlen : Z
}.

(** A bit-field of [w] bits at [pos]. *)
Definition set_field (pos w v word : Z) : Z := Z.lor (Z.ldiff word (Z.shiftl (Z.ones w) pos)) (Z.shiftl (wrap_u w v) pos).
Definition get_field (pos w word : Z) : Z := Z.land (Z.shiftr word pos) (Z.ones w).

(** [memcpy(buf + off, src, n)] when [n > 0]. *)
Definition copy_in (off n : Z) (src buf : list Z) : M (list Z) :=
  if 0 <? n then d ← get 0 n src; put off d buf else Ok buf.

Definition wlog_rec_pack (wrec : wlog_rec) (buf : list Z) (flag : bool) : M (list Z * Z) :=
  let positive n := if 0 <? n then n else 0 in
  buf ← put 0 (le 4 (wrap_u 32 (w_offset wrec))) buf;
  buf ← put 8 (le 4 (wrap_u 32 (w_nbytes wrec))) buf;
  buf ← put 12 (le 4 (wrap_u 32 (w_oflags wrec))) buf;
  a ← get_u 16 4 buf;
  let a := set_field 24 6 (positive (w_patternlen wrec)) (set_field 17 7 (positive (w_pathlen wrec)) (set_field 0 17 (w_pid wrec) a)) in
  buf ← put 16 (le 4 a) buf;
  b ← get_u 20 4 buf;
  let b := set_field 0 4 (positive (w_hostlen wrec)) (set_field 5 1 (w_async wrec) (set_field 4 1 (w_done wrec) b)) in
  buf ← put 20 (le 4 b) buf;
  if flag then
    let pathlen := get_field 17 7 a in
    let hostlen := get_field 0 4 b in
    let patternlen := get_field 24 6 a in
    buf ← copy_in DISK pathlen (w_path wrec) buf;
    buf ← copy_in (DISK + pathlen) hostlen (w_host wrec) buf;
    buf ← copy_in (DISK + pathlen + hostlen) patternlen (w_pattern wrec) buf;
    Ok (buf, DISK + pathlen + hostlen + patternlen)
  else Ok (buf, DISK).

(** The strings are copied into arrays of zeros. *)
Definition copy_out (n off size : Z) (buf : list Z) : M (list Z) :=
  if 0 <? n then d ← get off n buf; put 0 d (zeros size) else Ok (zeros size).

Definition wlog_rec_unpack (buf : list Z) : M wlog_rec :=
  offset ← get_u 0 4 buf;
  nbytes ← get_u 8 4 buf;
  oflags ← get_u 12 4 buf;
  a ← get_u 16 4 buf;
  b ← get_u 20 4 buf;
  let pathlen := get_field 17 7 a in
  let hostlen := get_field 0 4 b in
  let patternlen := get_field 24 6 a in
  path ← copy_out pathlen DISK (WLOG_MAX_PATH + 1) buf;
  host ← copy_out hostlen (DISK + pathlen) (WLOG_MAX_HOST + 1) buf;
  pattern ← copy_out patternlen (DISK + pathlen + hostlen) (WLOG_MAX_PATTERN + 1) buf;
  Ok (mkRec (get_field 0 17 a) (wrap_s 32 offset) (wrap_s 32 nbytes) (wrap_s 32 oflags) (get_field 4 1 b) (get_field 5 1 b)
        host hostlen path pathlen pattern patternlen).

(** [write] at an offset; a hole is filled with zeros. *)
Definition overwrite (off : Z) (bs file : list Z) : list Z :=
  let file' := file ++ zeros (off - len file) in
  take (Z.to_nat off) file' ++ bs ++ drop (Z.to_nat off + length bs) file'.

(** The file and the value returned; [wbuf]: what the local array holds. *)
Definition wlog_record_write (wbuf file : list Z) (wrec : wlog_rec) (offset : Z) : M (list Z * Z) :=
  '(wbuf, reclen) ← wlog_rec_pack wrec wbuf (offset <? 0);
  if offset <? 0 then
    wbuf ← put reclen [wrap_u 8 (reclen / 256); wrap_u 8 (reclen mod 256)] wbuf;
    d ← get 0 (reclen + 2) wbuf;
    let file' := file ++ d in
    Ok (file', wrap_s 32 (len file' - (reclen + 2)))
  else
    d ← get 0 reclen wbuf;
    Ok (overwrite offset d file, wrap_s 32 offset).

(** ** Scanning backwards *)
Definition WLOG_STOP_SCAN : Z := 0.

Section Scan.
Context {S : Type} (bufsz : Z) (func : S -> wlog_rec -> S * Z).

(** A [char] as an [int]. *)
Definition char_at (i : Z) (buf : list Z) : M Z := b ← get_u i 1 buf; Ok (wrap_s 8 b).

(** The bytes between [bufstart] and [cp] are moved to the end of the buffer;
    [memcpy] must not be used for areas that overlap. *)
Definition keep_leftover (buf : list Z) (bufstart cp : Z) : M (list Z * Z) :=
  let leftover := cp - bufstart in
  if (0 <? leftover) && (bufsz - leftover <? bufstart + leftover) then Fault
  else d ← get bufstart leftover buf; buf ← put (bufsz - leftover) d buf; Ok (buf, leftover).

(** The loop over one buffer: the buffer, [leftover], [recnum], [albuf] and the
    state of the caller. *)
Fixpoint scan_buffer (fuel : nat) (nrecs : Z) (buf : list Z) (bufstart cp recnum : Z) (albuf : list Z) (st : S)
    : M (list Z * Z * Z * list Z * S) :=
  match fuel with
  | O => Fault
  | Datatypes.S fuel =>
      if cp <? bufstart then Ok (buf, 0, recnum, albuf, st)
      else if cp - bufstart <? 2 then '(buf, leftover) ← keep_leftover buf bufstart cp; Ok (buf, leftover, recnum, albuf, st)
      else
        hi ← char_at (cp - 2) buf;
        lo ← char_at (cp - 1) buf;
        let reclen := hi * 256 + lo in
        if cp - bufstart <? reclen + 2 then '(buf, leftover) ← keep_leftover buf bufstart cp; Ok (buf, leftover, recnum, albuf, st)
        else
          let cp := cp - (reclen + 2) in
          d ← get cp reclen buf;
          albuf ← put 0 d albuf;
          wrec ← wlog_rec_unpack albuf;
          let '(st, rval) := func st wrec in
          if rval =? WLOG_STOP_SCAN then Ok (buf, 0, recnum, albuf, st)
          else
            let recnum := recnum + 1 in
            if negb (nrecs =? 0) && (nrecs <=? recnum) then Ok (buf, 0, recnum, albuf, st)
            else scan_buffer fuel nrecs buf bufstart cp recnum albuf st
  end.

(** The loop over the file, from its end; [read] gives what there is. *)
Fixpoint scan_file (fuel : nat) (file : list Z) (nrecs : Z) (buf : list Z) (bufstart offset leftover recnum : Z) (albuf : list Z) (st : S)
    : M S :=
  match fuel with
  | O => Fault
  | Datatypes.S fuel =>
      if ((nrecs =? 0) || (recnum <? nrecs)) && (0 <? offset) then
        let '(bufstart, offset) :=
          if offset + leftover <? bufsz then (bufsz - (offset + leftover), 0) else (bufstart, offset - (bufsz - leftover)) in
        let n := bufsz - bufstart - leftover in
        buf ← put bufstart (take (Z.to_nat n) (drop (Z.to_nat offset) file)) buf;
        '(buf, leftover, recnum, albuf, st) ← scan_buffer (Datatypes.S (length buf)) nrecs buf bufstart bufsz recnum albuf st;
        scan_file fuel file nrecs buf bufstart offset leftover recnum albuf st
      else Ok st
  end.

(** [buf] and [albuf]: what the local arrays hold. *)
Definition wlog_scan_backward (buf albuf file : list Z) (nrecs : Z) (st : S) : M S :=
  scan_file (Datatypes.S (length file)) file nrecs buf 0 (wrap_s 32 (len file)) 0 0 albuf st.
End Scan.

(** ** Examples *)
Definition plain_rec (pid : Z) (path : list Z) : wlog_rec :=
  mkRec pid 4096 512 2 0 0 (zeros 9) 0 (path ++ zeros (129 - len path)) (len path) (zeros 65) 0.
Definition log_of (l : list wlog_rec) : M (list Z) :=
  foldl (fun m r => file ← m; '(file, _) ← wlog_record_write (zeros 452) file r (-1); Ok file) (Ok []) l.
(** The pids of the records that are passed to the caller, who stops at [stop]. *)
Definition pids_until (stop : Z) (acc : list Z) (r : wlog_rec) : list Z * Z := (acc ++ [w_pid r], if w_pid r =? stop then WLOG_STOP_SCAN else 1).
Definition scan_pids (stop nrecs : Z) (l : list wlog_rec) : M (list Z) :=
  file ← log_of l; wlog_scan_backward 260 (pids_until stop) (zeros 260) (zeros 450) file nrecs [].

Definition short_path : list Z := [1; 2; 3].
Example scan_all : scan_pids (-1) 0 ((fun n => plain_rec n short_path) <$> [1; 2; 3; 4; 5; 6; 7; 8; 9; 10]) = Ok [10; 9; 8; 7; 6; 5; 4; 3; 2; 1].
Proof. vm_compute. reflexivity. Qed.
Example scan_three : scan_pids (-1) 3 ((fun n => plain_rec n short_path) <$> [1; 2; 3; 4; 5; 6; 7; 8; 9; 10]) = Ok [10; 9; 8].
Proof. vm_compute. reflexivity. Qed.

(** The caller asks to stop, and is called again for the records of the
    buffer before. *)
Example stop_is_ignored : scan_pids 8 0 ((fun n => plain_rec n short_path) <$> [1; 2; 3; 4; 5; 6; 7; 8; 9; 10]) <> Ok [10; 9; 8].
Proof. vm_compute. discriminate. Qed.

(** A record of 128 bytes or more: its length is read as a negative number. *)
Example long_record : scan_pids (-1) 0 [plain_rec 1 (replicate 100 7)] = Fault.
Proof. vm_compute. reflexivity. Qed.

(** A path of the maximal length does not fit its bit-field. *)
Example longest_path : match log_of [plain_rec 1 (replicate 128 7)] with Ok f => len f = 30 | _ => False end.
Proof. vm_compute. reflexivity. Qed.

(** ** Bit-fields *)
Lemma get_field_spec pos w word i : 0 <= pos -> 0 <= w -> 0 <= i -> Z.testbit (get_field pos w word) i = (i <? w) && Z.testbit word (i + pos).
Proof.
  intros Hp Hw Hi. unfold get_field. rewrite Z.land_spec, Z.shiftr_spec by lia. destruct (Z.ltb_spec i w).
  - by rewrite Z.ones_spec_low, Bool.andb_true_r by lia.
  - by rewrite Z.ones_spec_high, Bool.andb_false_r by lia.
Qed.

Lemma set_field_spec pos w v word i : 0 <= pos -> 0 <= w -> 0 <= i ->
  Z.testbit (set_field pos w v word) i = if (pos <=? i) && (i <? pos + w) then Z.testbit v (i - pos) else Z.testbit word i.
Proof.
  intros Hp Hw Hi. unfold set_field, wrap_u. rewrite Z.lor_spec, Z.ldiff_spec. destruct (Z.leb_spec pos i); cbn [andb].
  - rewrite !Z.shiftl_spec by lia. destruct (Z.ltb_spec i (pos + w)); cbn [andb].
    + by rewrite Z.ones_spec_low, Z.mod_pow2_bits_low, Bool.andb_false_r by lia.
    + rewrite Z.ones_spec_high, Z.mod_pow2_bits_high by lia. by rewrite Bool.andb_true_r, Bool.orb_false_r.
  - rewrite !Z.shiftl_spec_low by lia. by rewrite Bool.andb_true_r, Bool.orb_false_r.
Qed.

Lemma get_set_same pos w v word : 0 <= pos -> 0 <= w -> get_field pos w (set_field pos w v word) = wrap_u w v.
Proof.
  intros Hp Hw. apply Z.bits_inj'. intros i Hi. rewrite get_field_spec, set_field_spec by lia. unfold wrap_u.
  destruct (Z.ltb_spec i w); cbn [andb].
  - rewrite (proj2 (Z.leb_le pos _)), (proj2 (Z.ltb_lt (i + pos) _)), Z.mod_pow2_bits_low by lia. cbn [andb]. f_equal. lia.
  - by rewrite Z.mod_pow2_bits_high by lia.
Qed.

Lemma get_set_other pos w pos' w' v word : 0 <= pos -> 0 <= w -> 0 <= pos' -> 0 <= w' -> pos + w <= pos' \/ pos' + w' <= pos ->
  get_field pos w (set_field pos' w' v word) = get_field pos w word.
Proof.
  intros. apply Z.bits_inj'. intros i Hi. rewrite !get_field_spec, set_field_spec by lia. destruct (Z.ltb_spec i w); cbn [andb]; [|done].
  destruct (Z.leb_spec pos' (i + pos)), (Z.ltb_spec (i + pos) (pos' + w')); cbn [andb]; (done || lia).
Qed.

Lemma bits_below n z : 0 <= n -> (forall i, n <= i -> Z.testbit z i = false) -> 0 <= z < 2 ^ n.
Proof.
  intros Hn H. assert (E : z = z mod 2 ^ n).
  { apply Z.bits_inj'. intros i Hi. destruct (Z.lt_ge_cases i n); [by rewrite Z.mod_pow2_bits_low by lia|].
    by rewrite Z.mod_pow2_bits_high, H by lia. }
  rewrite E. apply Z.mod_pos_bound. apply Z.pow_pos_nonneg; lia.
Qed.

Lemma set_field_range pos w v word n : 0 <= pos -> 0 <= w -> pos + w <= n -> 0 <= word < 2 ^ n -> 0 <= set_field pos w v word < 2 ^ n.
Proof.
  intros Hp Hw Hn Hr. apply bits_below; [lia|]. intros i Hi. rewrite set_field_spec by lia.
  rewrite (proj2 (Z.ltb_ge i (pos + w))), Bool.andb_false_r by lia. rewrite <-(Z.mod_small word (2 ^ n)) by done. apply Z.mod_pow2_bits_high. lia.
Qed.

(** ** Records on disk *)

(** The strings of a record. *)
Definition path (r : wlog_rec) : list Z := take (Z.to_nat (w_pathlen r)) (w_path r).
Definition host (r : wlog_rec) : list Z := take (Z.to_nat (w_hostlen r)) (w_host r).
Definition pattern (r : wlog_rec) : list Z := take (Z.to_nat (w_patternlen r)) (w_pattern r).
Definition reclen (r : wlog_rec) : Z := DISK + w_pathlen r + w_hostlen r + w_patternlen r.

(** A string in an array of zeros. *)
Definition array_ok (size n : Z) (a : list Z) : Prop := 0 <= n <= size /\ len a = size /\ drop (Z.to_nat n) a = zeros (size - n).

(** A record whose fields fit the bit-fields, and which is short enough for
    its length to be read as a signed [char]. *)
Record rec_ok (r : wlog_rec) : Prop := {
  ok_pid : 0 <= w_pid r < 2 ^ 17;
  ok_offset : in_int (w_offset r) = true;
  ok_nbytes : in_int (w_nbytes r) = true;
  ok_oflags : in_int (w_oflags r) = true;
  ok_done : 0 <= w_done r < 2;
  ok_async : 0 <= w_async r < 2;
  ok_host : array_ok 9 (w_hostlen r) (w_host r);
  ok_path : array_ok 129 (w_pathlen r) (w_path r);
  ok_pattern : array_ok 65 (w_patternlen r) (w_pattern r);
  ok_fields : w_pathlen r < 2 ^ 7 /\ w_patternlen r < 2 ^ 6;
  ok_len : reclen r < 128;
}.

(** The fixed part: some bytes and bits of it are not written. *)
Definition fixed (f : list Z) (r : wlog_rec) : Prop := exists x a b y,
  f = le 4 (wrap_u 32 (w_offset r)) ++ x ++ le 4 (wrap_u 32 (w_nbytes r)) ++ le 4 (wrap_u 32 (w_oflags r)) ++ le 4 a ++ le 4 b ++ y
  /\ len x = 4 /\ len y = 4 /\ 0 <= a < 2 ^ 32 /\ 0 <= b < 2 ^ 32
  /\ get_field 0 17 a = w_pid r /\ get_field 17 7 a = w_pathlen r /\ get_field 24 6 a = w_patternlen r
  /\ get_field 0 4 b = w_hostlen r /\ get_field 4 1 b = w_done r /\ get_field 5 1 b = w_async r.
Definition encodes (d : list Z) (r : wlog_rec) : Prop := exists f, fixed f r /\ d = f ++ path r ++ host r ++ pattern r.

Lemma len_fixed f r : fixed f r -> len f = 28.
Proof. intros (x & a & b & y & -> & Hx & Hy & _). rewrite !len_app, !len_le. lia. Qed.

Lemma array_split size n a : array_ok size n a -> len (take (Z.to_nat n) a) = n /\ a = take (Z.to_nat n) a ++ zeros (size - n).
Proof.
  intros (Hn & Hl & Hd). split; [apply len_take; lia|]. rewrite <-Hd. symmetry. apply take_drop.
Qed.

Lemma len_encodes d r : rec_ok r -> encodes d r -> len d = reclen r.
Proof.
  intros Hr (f & Hf & ->). rewrite !len_app, (len_fixed f r Hf). unfold path, host, pattern.
  rewrite (proj1 (array_split _ _ _ (ok_path r Hr))), (proj1 (array_split _ _ _ (ok_host r Hr))), (proj1 (array_split _ _ _ (ok_pattern r Hr))).
  unfold reclen, DISK. lia.
Qed.

(** Reading a field behind [pre]; copying a string out of the record. *)
Lemma copy_out_ok size n a pre post : array_ok size n a ->
  copy_out n (len pre) size (pre ++ take (Z.to_nat n) a ++ post) = Ok a.
Proof.
  intros Ha. destruct (array_split _ _ _ Ha) as [Hl E]. destruct Ha as (Hn & Hs & _). unfold copy_out. destruct (Z.ltb_spec 0 n) as [H|H].
  - pose proof (get_at (E := unit) pre (take (Z.to_nat n) a) post) as G. rewrite Hl in G. rewrite G. cbn [mbind res_bind].
    rewrite E at 2. rewrite (zeros_split n size) by lia.
    pose proof (put_at (E := unit) [] (zeros n) (take (Z.to_nat n) a) (zeros (size - n))) as P. cbn [app] in P. rewrite <-P; [done|].
    rewrite len_zeros; lia.
  - replace n with 0 in * by lia. cbn [Z.to_nat take app] in E. rewrite Z.sub_0_r in E. by rewrite E.
Qed.

Lemma wrap_su z : in_int z = true -> wrap_s 32 (wrap_u 32 z) = z.
Proof.
  unfold in_int, INT_MIN, INT_MAX. rewrite Bool.andb_true_iff, !Z.leb_le. intros Hz. unfold wrap_s, wrap_u.
  rewrite Zplus_mod_idemp_l. rewrite Z.mod_small by lia. lia.
Qed.

Lemma get_u_le4 {E} pre z post : 0 <= z < 2 ^ 32 -> get_u (len pre) 4 (pre ++ le 4 z ++ post) = Ok (E := E) z.
Proof. intros Hz. apply (get_u_at pre 4). done. Qed.
Lemma wrap_u_range z : 0 <= wrap_u 32 z < 2 ^ 32.
Proof. apply Z.mod_pos_bound. lia. Qed.

Lemma unpack_encodes d r rest : rec_ok r -> encodes d r -> wlog_rec_unpack (d ++ rest) = Ok r.
Proof.
  intros Hr (f & Hf & ->). pose proof (len_fixed f r Hf) as Hlf. rewrite <-!app_assoc. unfold wlog_rec_unpack.
  assert (Hfix : forall k n v, (exists pre post, f = pre ++ le 4 v ++ post /\ len pre = k) -> 0 <= v < 2 ^ 32 -> n = 4 ->
    get_u k n (f ++ path r ++ host r ++ pattern r ++ rest) = Ok (E := unit) v).
  { intros k n v (pre & post & -> & <-) Hv ->. rewrite <-!app_assoc. by apply get_u_le4. }
  destruct Hf as (x & a & b & y & Ef & Hx & Hy & Ha & Hb & Hpid & Hpl & Hpt & Hh & Hdn & Has).
  set (o := wrap_u 32 (w_offset r)) in *. set (nb := wrap_u 32 (w_nbytes r)) in *. set (fl := wrap_u 32 (w_oflags r)) in *.
  rewrite (Hfix 0 4 o); [|by exists [], (x ++ le 4 nb ++ le 4 fl ++ le 4 a ++ le 4 b ++ y)|apply wrap_u_range|done]. cbn [mbind res_bind].
  rewrite (Hfix 8 4 nb); [|exists (le 4 o ++ x), (le 4 fl ++ le 4 a ++ le 4 b ++ y); rewrite len_app, len_le, Hx, <-!app_assoc; done|apply wrap_u_range|done]. cbn [mbind res_bind].
  rewrite (Hfix 12 4 fl); [|exists (le 4 o ++ x ++ le 4 nb), (le 4 a ++ le 4 b ++ y); rewrite !len_app, !len_le, Hx, <-!app_assoc; done|apply wrap_u_range|done]. cbn [mbind res_bind].
  rewrite (Hfix 16 4 a); [|exists (le 4 o ++ x ++ le 4 nb ++ le 4 fl), (le 4 b ++ y); rewrite !len_app, !len_le, Hx, <-!app_assoc; done|done|done]. cbn [mbind res_bind].
  rewrite (Hfix 20 4 b); [|exists (le 4 o ++ x ++ le 4 nb ++ le 4 fl ++ le 4 a), y; rewrite !len_app, !len_le, Hx, <-!app_assoc; done|done|done]. cbn [mbind res_bind].
  rewrite Hpl, Hh, Hpt, Hpid, Hdn, Has. unfold o, nb, fl. rewrite !wrap_su by apply Hr. clear Hfix.
  destruct (array_split _ _ _ (ok_path r Hr)) as [Lp _]. destruct (array_split _ _ _ (ok_host r Hr)) as [Lh _].
  change DISK with 28. rewrite <-Hlf. unfold path, host, pattern. change (WLOG_MAX_PATH + 1) with 129. change (WLOG_MAX_HOST + 1) with 9. change (WLOG_MAX_PATTERN + 1) with 65.
  rewrite (copy_out_ok 129 _ (w_path r)) by apply Hr. cbn [mbind res_bind].
  rewrite <-Lp at 1. rewrite <-len_app, (app_assoc f), (copy_out_ok 9 _ (w_host r)) by apply Hr. cbn [mbind res_bind].
  rewrite <-Lh at 1. rewrite <-Lp at 1. rewrite <-!len_app. rewrite <-app_assoc, (app_assoc f), (app_assoc (f ++ _)), (copy_out_ok 65 _ (w_pattern r)) by apply Hr. by destruct r.
Qed.

Definition bytes (l : list Z) : Prop := Forall (fun b => 0 <= b < 256) l.

Lemma unle_range l : bytes l -> 0 <= unle l < 256 ^ len l.
Proof.
  induction 1 as [|b l Hb _ IH]; [done|]. unfold len in *. cbn [unle length]. rewrite Nat2Z.inj_succ, Z.pow_succ_r by lia. lia.
Qed.

Lemma chop (l : list Z) n : 0 <= n <= len l -> exists a b, l = a ++ b /\ len a = n /\ len b = len l - n.
Proof.
  intros Hn. exists (take (Z.to_nat n) l), (drop (Z.to_nat n) l). split; [by rewrite take_drop|].
  split; [by apply len_take|]. unfold len in *. rewrite length_drop. lia.
Qed.

Lemma copy_in_ok n a pre post : 0 <= n <= len a -> n <= len post ->
  copy_in (len pre) n a (pre ++ post) = Ok (pre ++ take (Z.to_nat n) a ++ drop (Z.to_nat n) post).
Proof.
  intros Hn Hp. unfold copy_in. destruct (Z.ltb_spec 0 n).
  - rewrite get_prefix by lia. cbn [mbind res_bind]. rewrite <-(take_drop (Z.to_nat n) post) at 1. apply put_at. rewrite !len_take by lia. done.
  - replace n with 0 by lia. by cbn [Z.to_nat take app drop]; rewrite drop_0.
Qed.

Lemma positive_id n : 0 <= n -> (if 0 <? n then n else 0) = n.
Proof. intros. destruct (Z.ltb_spec 0 n); lia. Qed.

(** The two words with bit-fields. *)
Definition word_a (r : wlog_rec) (a : Z) : Z :=
  set_field 24 6 (w_patternlen r) (set_field 17 7 (w_pathlen r) (set_field 0 17 (w_pid r) a)).
Definition word_b (r : wlog_rec) (b : Z) : Z := set_field 0 4 (w_hostlen r) (set_field 5 1 (w_async r) (set_field 4 1 (w_done r) b)).

Lemma word_a_ok r a : rec_ok r -> 0 <= a < 2 ^ 32 -> 0 <= word_a r a < 2 ^ 32 /\ get_field 0 17 (word_a r a) = w_pid r /\
  get_field 17 7 (word_a r a) = w_pathlen r /\ get_field 24 6 (word_a r a) = w_patternlen r.
Proof.
  intros Hr Ha. pose proof (ok_pid r Hr). pose proof (ok_fields r Hr). destruct (ok_path r Hr) as [? _]. destruct (ok_pattern r Hr) as [? _].
  unfold word_a. split; [repeat (apply set_field_range; [lia..|]); done|].
  repeat first [rewrite get_set_same by lia | rewrite get_set_other by lia]. rewrite !wrap_u_id by lia. done.
Qed.
Lemma word_b_ok r b : rec_ok r -> 0 <= b < 2 ^ 32 -> 0 <= word_b r b < 2 ^ 32 /\ get_field 0 4 (word_b r b) = w_hostlen r /\
  get_field 4 1 (word_b r b) = w_done r /\ get_field 5 1 (word_b r b) = w_async r.
Proof.
  intros Hr Hb. pose proof (ok_done r Hr). pose proof (ok_async r Hr). destruct (ok_host r Hr) as [? _].
  unfold word_b. split; [repeat (apply set_field_range; [lia..|]); done|].
  repeat first [rewrite get_set_same by lia | rewrite get_set_other by lia]. rewrite !wrap_u_id by lia. done.
Qed.

(** An access behind [pre]. *)
Lemma put_here {E} k pre old new post : len pre = k -> len old = len new -> put k new (pre ++ old ++ post) = Ok (E := E) (pre ++ new ++ post).
Proof. intros <- H. by apply put_at. Qed.
Lemma put_front {E} old new post : len old = len new -> put 0 new (old ++ post) = Ok (E := E) (new ++ post).
Proof. apply (put_at []). Qed.
Lemma get_u_here {E} k n pre x post : len pre = k -> len x = n -> get_u k n (pre ++ x ++ post) = Ok (E := E) (unle x).
Proof. intros <- <-. unfold get_u. by rewrite get_at. Qed.

(** The fixed part is written and the rest of the buffer kept. *)
Lemma pack_fixed r buf flag : rec_ok r -> bytes buf -> 28 <= len buf ->
  exists f, fixed f r /\ wlog_rec_pack r buf flag =
    if flag then
      buf ← copy_in 28 (w_pathlen r) (w_path r) (f ++ drop 28 buf);
      buf ← copy_in (28 + w_pathlen r) (w_hostlen r) (w_host r) buf;
      buf ← copy_in (28 + w_pathlen r + w_hostlen r) (w_patternlen r) (w_pattern r) buf;
      Ok (buf, reclen r)
    else Ok (f ++ drop 28 buf, 28).
Proof.
  intros Hr Hb Hl. destruct (chop buf 4 ltac:(lia)) as (b0 & f1 & -> & H0 & H1). destruct (chop f1 4 ltac:(lia)) as (x & f2 & -> & Hx & H2).
  destruct (chop f2 4 ltac:(lia)) as (b2 & f3 & -> & H2' & H3). destruct (chop f3 4 ltac:(lia)) as (b3 & f4 & -> & H3' & H4).
  destruct (chop f4 4 ltac:(lia)) as (ba & f5 & -> & Hba & H5). destruct (chop f5 4 ltac:(lia)) as (bb & f6 & -> & Hbb & H6).
  destruct (chop f6 4 ltac:(lia)) as (y & rest & -> & Hy & Hrest). clear H1 H2 H3 H4 H5 H6 Hrest Hl.
  replace (drop 28 _) with rest; [|rewrite !app_assoc, drop_app_ge by (rewrite !length_app; unfold len in *; lia); replace (28 - _)%nat with 0%nat by (rewrite !length_app; unfold len in *; lia); by rewrite drop_0].
  do 4 (apply Forall_app in Hb as [_ Hb]). apply Forall_app in Hb as [Ba Hb]. apply Forall_app in Hb as [Bb _].
  destruct (word_a_ok r (unle ba) Hr) as (Ra & Epid & Epl & Ept); [apply unle_range in Ba; by rewrite Hba in Ba|].
  destruct (word_b_ok r (unle bb) Hr) as (Rb & Eh & Ed & Eas); [apply unle_range in Bb; by rewrite Hbb in Bb|].
  set (o := le 4 (wrap_u 32 (w_offset r))). set (nb := le 4 (wrap_u 32 (w_nbytes r))). set (fl := le 4 (wrap_u 32 (w_oflags r))).
  exists (o ++ x ++ nb ++ fl ++ le 4 (word_a r (unle ba)) ++ le 4 (word_b r (unle bb)) ++ y). split.
  { exists x, (word_a r (unle ba)), (word_b r (unle bb)), y. split_and!; done || lia. }
  assert (Ho : len o = 4) by apply len_le. assert (Hn : len nb = 4) by apply len_le. assert (Hfl : len fl = 4) by apply len_le.
  unfold wlog_rec_pack. fold o nb fl. rewrite !positive_id by (destruct (ok_path r Hr), (ok_host r Hr), (ok_pattern r Hr); lia).
  rewrite (put_front b0 o) by lia. cbn [mbind res_bind].
  rewrite (app_assoc o), (put_here 8 (o ++ x) b2 nb) by (rewrite ?len_app; lia). cbn [mbind res_bind].
  rewrite (app_assoc (o ++ x)), (put_here 12 ((o ++ x) ++ nb) b3 fl) by (rewrite ?len_app; lia). cbn [mbind res_bind].
  rewrite (app_assoc _ fl), (get_u_here 16 4 (((o ++ x) ++ nb) ++ fl) ba) by (rewrite ?len_app; lia). cbn [mbind res_bind].
  fold (word_a r (unle ba)). rewrite (put_here 16 (((o ++ x) ++ nb) ++ fl) ba (le 4 (word_a r (unle ba)))) by (rewrite ?len_app, ?len_le; lia). cbn [mbind res_bind].
  set (a := le 4 (word_a r (unle ba))). assert (Ha : len a = 4) by apply len_le.
  rewrite (app_assoc _ a), (get_u_here 20 4 ((((o ++ x) ++ nb) ++ fl) ++ a) bb) by (rewrite ?len_app; lia). cbn [mbind res_bind].
  fold (word_b r (unle bb)). rewrite (put_here 20 ((((o ++ x) ++ nb) ++ fl) ++ a) bb (le 4 (word_b r (unle bb)))) by (rewrite ?len_app, ?len_le; lia). cbn [mbind res_bind].
  rewrite Epl, Ept, Eh. unfold reclen. change DISK with 28. by rewrite <-!app_assoc.
Qed.

(** The whole record is written in front of the buffer. *)
Lemma pack_encodes r buf : rec_ok r -> bytes buf -> 130 <= len buf ->
  exists d rest, encodes d r /\ wlog_rec_pack r buf true = Ok (d ++ rest, reclen r) /\ len rest = len buf - reclen r.
Proof.
  intros Hr Hb Hl. destruct (pack_fixed r buf true Hr Hb) as (f & Hf & E); [lia|]. pose proof (len_fixed f r Hf) as Lf.
  destruct (ok_path r Hr) as (Rp & Lp & _). destruct (ok_host r Hr) as (Rh & Lh & _). destruct (ok_pattern r Hr) as (Rt & Lt & _).
  pose proof (ok_len r Hr) as Hlen. unfold reclen in *. change DISK with 28 in *.
  set (rest := drop 28 buf) in *. assert (Lr : len rest = len buf - 28) by (apply (len_drop 28); lia).
  pose proof (copy_in_ok (w_pathlen r) (w_path r) f rest ltac:(lia) ltac:(lia)) as E1. rewrite Lf in E1. rewrite E1 in E. cbn [mbind res_bind] in E. fold (path r) in E. assert (Pl : len (path r) = w_pathlen r) by (apply len_take; lia).
  replace (28 + w_pathlen r) with (len (f ++ path r)) in E by (rewrite len_app; lia).
  rewrite (app_assoc f), copy_in_ok in E by (rewrite ?len_drop; lia). cbn [mbind res_bind] in E. fold (host r) in E. assert (Hl' : len (host r) = w_hostlen r) by (apply len_take; lia).
  replace (len (f ++ path r) + w_hostlen r) with (len ((f ++ path r) ++ host r)) in E by (rewrite !len_app; lia).
  rewrite (app_assoc (f ++ path r)), copy_in_ok in E by (rewrite ?len_drop; rewrite ?len_drop; lia). cbn [mbind res_bind] in E. fold (pattern r) in E.
  eexists (f ++ path r ++ host r ++ pattern r), _. split; [by exists f|]. rewrite <-!app_assoc in *. split; [rewrite E; do 2 f_equal; rewrite !len_app; lia|].
  rewrite !len_drop; rewrite ?len_drop; rewrite ?len_drop; lia.
Qed.

(** ** The log as a list of records *)

(** A record and its length in two bytes. *)
Definition item (d : list Z) : list Z := d ++ [0; len d].
Definition log (ds : list (list Z)) : list Z := concat (item <$> ds).
Definition represents (file : list Z) (rs : list wlog_rec) : Prop :=
  exists ds, file = log ds /\ Forall2 encodes ds rs /\ Forall rec_ok rs.

Lemma log_app ds ds' : log (ds ++ ds') = log ds ++ log ds'.
Proof. unfold log. by rewrite fmap_app, concat_app. Qed.
Lemma log_snoc ds d : log (ds ++ [d]) = log ds ++ item d.
Proof. rewrite log_app. unfold log. cbn. by rewrite app_nil_r. Qed.
Lemma len_item d : len (item d) = len d + 2.
Proof. unfold item. rewrite len_app. done. Qed.

(** The size of a log depends on the lengths of its records only. *)
Definition log_size (rs : list wlog_rec) : Z := foldr (fun r n => reclen r + 2 + n) 0 rs.
Lemma len_log ds rs : Forall2 encodes ds rs -> Forall rec_ok rs -> len (log ds) = log_size rs.
Proof.
  induction 1 as [|d r ds rs Hd _ IH]; [done|]. intros Hok. inversion Hok; subst. change (log_size (r :: rs)) with (reclen r + 2 + log_size rs). unfold log in *. cbn [fmap list_fmap concat].
  rewrite len_app, len_item, (len_encodes d r), IH by done. lia.
Qed.

(** Appending: the record is at the offset returned. *)
Lemma append_represents wbuf file rs r : rec_ok r -> bytes wbuf -> 130 <= len wbuf -> represents file rs -> len file + 130 <= INT_MAX ->
  exists file', wlog_record_write wbuf file r (-1) = Ok (file', log_size rs) /\ represents file' (rs ++ [r]) /\ len file' = len file + reclen r + 2.
Proof.
  intros Hr Hb Hl (ds & -> & Hds & Hrs) Hmax. destruct (pack_encodes r wbuf Hr Hb Hl) as (d & rest & Hd & E & Hrest).
  pose proof (len_encodes d r Hr Hd) as Ld. pose proof (ok_len r Hr) as Hlen. pose proof (len_nonneg d) as Hnn. pose proof (len_nonneg (log ds)).
  unfold INT_MAX in Hmax. unfold wlog_record_write. change (-1 <? 0) with true. rewrite E. cbn [mbind res_bind].
  rewrite (Z.div_small (reclen r) 256), (Z.mod_small (reclen r) 256), !wrap_u_id by lia.
  destruct (chop rest 2 ltac:(lia)) as (two & rest' & -> & H2 & _). rewrite (put_here (reclen r) d two [0; reclen r]) by done. cbn [mbind res_bind].
  pose proof (get_at (E := unit) [] (item d) rest') as G. unfold item in G at 2. rewrite <-app_assoc, Ld in G. change (len []) with 0 in G. cbn [app] in G.
  rewrite len_item, Ld in G. cbn [app]. rewrite G. cbn [mbind res_bind]. rewrite len_app, len_item, Ld.
  rewrite wrap_s_id by lia. exists (log ds ++ item d). rewrite <-log_snoc. split_and!.
  - rewrite log_snoc. do 2 f_equal. rewrite (len_log ds rs) by done. lia.
  - exists (ds ++ [d]). split_and!; [done|by apply Forall2_app; [|constructor]|apply Forall_app_2; [done|by constructor]].
  - rewrite log_snoc, len_app, len_item. lia.
Qed.

(** The part of a record that is rewritten; the strings stay. *)
Definition same_strings (r r' : wlog_rec) : Prop :=
  w_pathlen r' = w_pathlen r /\ w_hostlen r' = w_hostlen r /\ w_patternlen r' = w_patternlen r /\ path r' = path r /\ host r' = host r /\ pattern r' = pattern r.

Lemma overwrite_at pre old new post : len old = len new -> overwrite (len pre) new (pre ++ old ++ post) = pre ++ new ++ post.
Proof.
  intros H. unfold overwrite. pose proof (len_nonneg old). pose proof (len_nonneg post). replace (zeros _) with (@nil Z)
    by (unfold zeros; rewrite !len_app; replace (Z.to_nat _) with 0%nat by lia; done).
  rewrite app_nil_r. unfold len in *. rewrite Nat2Z.id, take_app_length. do 2 f_equal.
  rewrite <-drop_drop, drop_app_length. replace (length new) with (length old) by lia. apply drop_app_length.
Qed.

Lemma update_represents wbuf file l1 r l2 r' : rec_ok r' -> same_strings r r' -> bytes wbuf -> 130 <= len wbuf -> represents file (l1 ++ r :: l2) ->
  len file <= INT_MAX ->
  exists file', wlog_record_write wbuf file r' (log_size l1) = Ok (file', log_size l1) /\ represents file' (l1 ++ r' :: l2) /\ len file' = len file.
Proof.
  intros Hr (Sp & Sh & St & Ep & Eh & Et) Hb Hl (ds & -> & Hds & Hrs) Hmax. apply Forall2_app_inv_r in Hds as (d1 & d2 & H1 & H2 & ->).
  inversion H2 as [|d ? d2' ? Hd H2']; subst. apply Forall_app in Hrs as [R1 R2]. inversion R2 as [|? ? Rr R2']; subst.
  pose proof (len_log d1 l1 H1 R1) as L1. pose proof (len_nonneg (log d1)) as Hnn. destruct Hd as (f & Hf & Ed).
  assert (Efile : log (d1 ++ d :: d2') = log d1 ++ f ++ (path r ++ host r ++ pattern r ++ [0; len d]) ++ log d2').
  { rewrite log_app. f_equal. unfold log. cbn [fmap list_fmap concat]. unfold item. rewrite Ed, <-!app_assoc. done. }
  rewrite Efile in *. rewrite !len_app in Hmax. pose proof (len_fixed f r Hf) as Lf.
  pose proof (len_nonneg (path r ++ host r ++ pattern r ++ [0; len d])). rewrite !len_app in *. pose proof (len_nonneg (log d2')).
  destruct (pack_fixed r' wbuf false Hr Hb ltac:(lia)) as (f' & Hf' & E). pose proof (len_fixed f' r' Hf') as Lf'.
  unfold wlog_record_write. rewrite (proj2 (Z.ltb_ge (log_size l1) 0)), E by lia. cbn [mbind res_bind].
  pose proof (get_at (E := unit) [] f' (drop 28 wbuf)) as G. rewrite Lf' in G. change (len []) with 0 in G. cbn [app] in G. rewrite G. cbn [mbind res_bind].
  rewrite <-L1, overwrite_at by lia. rewrite wrap_s_id by (unfold INT_MAX in *; lia).
  eexists. split; [reflexivity|]. split; [|rewrite !len_app; lia]. exists (d1 ++ (f' ++ path r' ++ host r' ++ pattern r') :: d2').
  rewrite Ep, Eh, Et. split_and!.
  - rewrite log_app. f_equal. unfold log. cbn [fmap list_fmap concat]. unfold item. rewrite <-!app_assoc.
    do 5 f_equal. rewrite Ed, !len_app, Lf, Lf'. done.
  - apply Forall2_app; [done|]. constructor; [|done]. exists f'. by rewrite Ep, Eh, Et.
  - apply Forall_app. split; [done|]. by constructor.
Qed.

(** ** The scan *)

(** The end of a list that is long enough. *)
Lemma suffix_of (a b c d : list Z) : a ++ b = c ++ d -> len d <= len b -> exists b', b = b' ++ d /\ a ++ b' = c.
Proof.
  intros E Hl. apply app_eq_inv in E as [(k & -> & ->)|(k & -> & ->)]; [|by exists k].
  rewrite len_app in Hl. assert (k = []) as -> by (destruct k; [done|unfold len in Hl; cbn [length] in Hl; lia]). by exists []; rewrite !app_nil_r.
Qed.

Lemma log_empty ds : log ds = [] -> ds = [].
Proof. destruct ds as [|d ds]; [done|]. unfold log. cbn [fmap list_fmap concat]. unfold item. intros [[_ ?]%app_nil _]%app_nil. done. Qed.

(** The last record of a log of which at least two bytes are known. *)
Lemma log_last ds rs U part : Forall2 encodes ds rs -> Forall rec_ok rs -> U ++ part = log ds -> 2 <= len part ->
  exists ds' d rs' r p, ds = ds' ++ [d] /\ rs = rs' ++ [r] /\ Forall2 encodes ds' rs' /\ Forall rec_ok rs' /\ encodes d r /\ rec_ok r /\
    part = p ++ [0; len d] /\ U ++ p = log ds' ++ d /\ len d = reclen r.
Proof.
  intros Hds Hrs E Hl. destruct (exists_last (l := ds)) as (ds' & d & Eds).
  { intros ->. unfold log in E. cbn in E. apply app_nil in E as [_ ->]. done. }
  subst ds. apply Forall2_app_inv_l in Hds as (rs' & l & H1 & H2 & ->). inversion H2 as [|? r ? l' Hd Hl']; subst. inversion Hl'; subst.
  apply Forall_app in Hrs as [R1 R2]. inversion R2; subst. rewrite log_snoc in E. unfold item in E. rewrite app_assoc in E.
  destruct (suffix_of U part (log ds' ++ d) [0; len d] E) as (p & -> & Ep); [done|]. exists ds', d, rs', r, p. split_and!; try done. by apply len_encodes.
Qed.

Lemma log_short ds rs U part : Forall2 encodes ds rs -> Forall rec_ok rs -> U ++ part = log ds -> len part < 2 -> U = [] -> rs = [].
Proof.
  intros Hds Hrs E Hl ->. cbn [app] in E. subst part. rewrite (len_log ds rs Hds Hrs) in Hl. destruct rs as [|r rs]; [done|].
  inversion Hrs as [|? ? Hr Hrs']; subst. change (log_size (r :: rs)) with (reclen r + 2 + log_size rs) in Hl.
  assert (0 <= log_size rs) by (inversion Hds as [|? ? ds' ? ? H']; subst; rewrite <-(len_log ds' rs H' Hrs'); apply len_nonneg).
  destruct (ok_path r Hr) as [? _], (ok_host r Hr) as [? _], (ok_pattern r Hr) as [? _]. unfold reclen, DISK in Hl. lia.
Qed.

Section ScanOk.
Context {S : Type} (bufsz : Z) (func : S -> wlog_rec -> S * Z).
Hypothesis (Hbuf : 258 <= bufsz).

(** The caller never asks to stop. *)
Definition goes_on : Prop := forall st r, (func st r).2 <> WLOG_STOP_SCAN.

(** What the caller sees: the last records first, all of them or as many as
    it asked for, until it asks to stop. *)
Fixpoint visits (l : list wlog_rec) (st : S) : S :=
  match l with
  | [] => st
  | r :: l => let '(st, rval) := func st r in if rval =? WLOG_STOP_SCAN then st else visits l st
  end.
Definition visit (nrecs recnum : Z) (rs : list wlog_rec) (st : S) : S :=
  visits (if nrecs =? 0 then reverse rs else take (Z.to_nat (nrecs - recnum)) (reverse rs)) st.

Lemma visit_snoc nrecs recnum rs r st : nrecs = 0 \/ recnum < nrecs ->
  visit nrecs recnum (rs ++ [r]) st = let '(st, rval) := func st r in if rval =? WLOG_STOP_SCAN then st else visit nrecs (recnum + 1) rs st.
Proof.
  intros Hn. unfold visit. rewrite reverse_snoc. destruct (Z.eqb_spec nrecs 0); [done|].
  replace (Z.to_nat (nrecs - recnum)) with (Datatypes.S (Z.to_nat (nrecs - (recnum + 1)))) by lia. done.
Qed.
Lemma visit_enough nrecs recnum rs st : nrecs <> 0 -> nrecs <= recnum -> visit nrecs recnum rs st = st.
Proof. intros H0 Hn. unfold visit. rewrite (proj2 (Z.eqb_neq nrecs 0) H0). by replace (Z.to_nat (nrecs - recnum)) with 0%nat by lia. Qed.

Lemma keep_ok pre part post : len (pre ++ part ++ post) = bufsz -> part = [] \/ len pre + 2 * len part <= bufsz ->
  exists q, keep_leftover bufsz (pre ++ part ++ post) (len pre) (len pre + len part) = Ok (q ++ part, len part) /\ len (q ++ part) = bufsz.
Proof.
  intros Hl Ho. unfold keep_leftover. replace (len pre + len part - len pre) with (len part) by lia. pose proof (len_nonneg part).
  replace ((0 <? len part) && (bufsz - len part <? len pre + len part)) with false; cycle 1.
  { destruct (Z.ltb_spec 0 (len part)); [|done]. destruct Ho as [->|]; [done|]. cbn [andb]. symmetry. apply Z.ltb_ge. lia. }
  rewrite get_at. cbn [mbind res_bind]. pose proof Hl as Hl'. rewrite !len_app in Hl'. pose proof (len_nonneg pre). pose proof (len_nonneg post).
  set (buf := pre ++ part ++ post) in *. destruct (chop buf (bufsz - len part) ltac:(lia)) as (q & old & -> & Hq & Hold).
  exists q. rewrite <-(app_nil_r old), (put_here (bufsz - len part) q old part []) by lia. cbn [mbind res_bind]. rewrite app_nil_r. split; [done|].
  rewrite len_app. lia.
Qed.

Lemma char_ok i b pre post : len pre = i -> 0 <= b < 128 -> char_at i (pre ++ [b] ++ post) = Ok b.
Proof.
  intros Hi Hb. unfold char_at. rewrite (get_u_here i 1 pre [b]) by done. cbn [mbind res_bind]. change (unle [b]) with (b + 256 * 0).
  rewrite wrap_s_id by lia. f_equal. lia.
Qed.

(** What is left after the records in one buffer: either the caller has enough,
    or asked to stop and all of the file was read, or the buffer ends with the last bytes of a shorter log. *)
Definition scanned (nrecs : Z) (U : list Z) (goal : S) (out : list Z * Z * Z * list Z * S) : Prop :=
  let '(buf, leftover, recnum, albuf, st) := out in
  len buf = bufsz /\ 450 <= len albuf /\
  (((nrecs <> 0 /\ nrecs <= recnum \/ U = []) /\ st = goal) \/
   exists rs ds q part, Forall2 encodes ds rs /\ Forall rec_ok rs /\ U ++ part = log ds /\ buf = q ++ part /\ leftover = len part /\
     (nrecs = 0 \/ recnum < nrecs) /\ visit nrecs recnum rs st = goal /\ len part <= 128 /\ (U = [] -> rs = [])).

(** The bytes that are left are moved to the end of the buffer. *)
Lemma scan_keep nrecs rs ds U part pre post recnum albuf st :
  Forall2 encodes ds rs -> Forall rec_ok rs -> U ++ part = log ds -> len (pre ++ part ++ post) = bufsz ->
  450 <= len albuf -> nrecs = 0 \/ recnum < nrecs -> len pre = 0 \/ U = [] -> len part <= 128 -> (U = [] -> rs = []) ->
  exists out, ('(buf, leftover) ← keep_leftover bufsz (pre ++ part ++ post) (len pre) (len pre + len part);
               Ok (buf, leftover, recnum, albuf, st)) = Ok (E := unit) out /\ scanned nrecs U (visit nrecs recnum rs st) out.
Proof using Hbuf.
  intros Hds Hrs E Hl Ha Hn Hpre Hp HU. destruct (keep_ok pre part post Hl) as (q & -> & Hq).
  { destruct Hpre as [Hpre|HUn]; [right; lia|left]. specialize (HU HUn). subst. inversion Hds; subst. unfold log in E. cbn in E. done. }
  cbn [mbind res_bind]. eexists. split; [reflexivity|]. split; [done|]. split; [done|]. right. by exists rs, ds, q, part.
Qed.

Lemma scan_buffer_ok nrecs fuel : forall rs ds U part pre post recnum albuf st,
  Forall2 encodes ds rs -> Forall rec_ok rs -> U ++ part = log ds -> len (pre ++ part ++ post) = bufsz ->
  450 <= len albuf -> len part < Z.of_nat fuel -> nrecs = 0 \/ recnum < nrecs -> len pre = 0 \/ U = [] -> goes_on \/ U = [] ->
  exists out, scan_buffer bufsz func fuel nrecs (pre ++ part ++ post) (len pre) (len pre + len part) recnum albuf st = Ok out /\
    scanned nrecs U (visit nrecs recnum rs st) out.
Proof using Hbuf.
  induction fuel as [|fuel IH]; intros rs ds U part pre post recnum albuf st Hds Hrs E Hl Ha Hf Hn Hpre Hgo; pose proof (len_nonneg part); [lia|].
  cbn [scan_buffer]. rewrite (proj2 (Z.ltb_ge (len pre + len part) (len pre))) by lia. replace (len pre + len part - len pre) with (len part) by lia.
  destruct (Z.ltb_spec (len part) 2) as [Hlt|Hge].
  { apply (scan_keep _ rs ds); try done; [lia|]. by apply (log_short ds rs U part). }
  destruct (log_last ds rs U part Hds Hrs E Hge) as (ds' & d & rs' & r & p & -> & -> & Hds' & Hrs' & Hd & Hr & Ep & EU & Ld).
  pose proof (ok_len r Hr) as Hlen. pose proof (len_nonneg d).
  assert (Lp : len part = len p + 2) by (rewrite Ep, len_app; done).
  assert (Hhi : char_at (len pre + len part - 2) (pre ++ part ++ post) = Ok 0).
  { rewrite Lp, Ep, <-app_assoc, app_assoc. apply (char_ok _ 0 (pre ++ p) ([len d] ++ post)); [rewrite len_app; lia|lia]. }
  assert (Hlo : char_at (len pre + len part - 1) (pre ++ part ++ post) = Ok (len d)).
  { rewrite Lp, Ep. replace (pre ++ (p ++ [0; len d]) ++ post) with (((pre ++ p) ++ [0]) ++ [len d] ++ post) by (rewrite <-!app_assoc; done).
    apply char_ok; [rewrite !len_app; change (len [0]) with 1; lia|lia]. }
  rewrite Hhi. cbn [mbind res_bind]. rewrite Hlo. cbn [mbind res_bind]. replace (0 * 256 + len d) with (len d) by lia.
  destruct (Z.ltb_spec (len part) (len d + 2)) as [Hshort|Hlong].
  { apply (scan_keep _ (rs' ++ [r]) (ds' ++ [d])); try done; [lia|]. intros ->. cbn [app] in E. rewrite log_snoc in E.
    rewrite E, len_app, len_item in Hshort. pose proof (len_nonneg (log ds')). lia. }
  rewrite log_snoc in E. destruct (suffix_of U part (log ds') (item d) E) as (part' & -> & E'); [by rewrite len_item|].
  rewrite len_app, len_item in *. clear Hhi Hlo.
  replace (len pre + (len part' + (len d + 2)) - (len d + 2)) with (len pre + len part') by lia.
  replace (pre ++ (part' ++ item d) ++ post) with ((pre ++ part') ++ d ++ [0; len d] ++ post) by (unfold item; by rewrite <-!app_assoc).
  rewrite <-len_app, get_at. cbn [mbind res_bind]. destruct (chop albuf (len d) ltac:(lia)) as (a & b & -> & La & Lb).
  rewrite (put_front a d b) by done. cbn [mbind res_bind]. rewrite (unpack_encodes d r b Hr Hd). cbn [mbind res_bind].
  rewrite visit_snoc by done. destruct (func st r) as [st' rval] eqn:Ef.
  assert (Hl' : len ((pre ++ part') ++ d ++ [0; len d] ++ post) = bufsz) by (rewrite !len_app, len_item in Hl; rewrite !len_app; change (len [0; len d]) with 2; lia).
  assert (Ha' : 450 <= len (d ++ b)) by (rewrite len_app in *; lia). rewrite (len_app pre part').
  destruct (Z.eqb_spec rval WLOG_STOP_SCAN) as [Hstop|_].
  { eexists. split; [reflexivity|]. split; [done|]. split; [done|]. left. split; [right|done]. destruct Hgo as [Hgo|?]; [|done]. destruct (Hgo st r). by rewrite Ef. }
  destruct (negb (nrecs =? 0) && (nrecs <=? recnum + 1)) eqn:Estop.
  - apply andb_prop in Estop as [H1 H2]. apply negb_true_iff, Z.eqb_neq in H1. apply Z.leb_le in H2.
    eexists. split; [reflexivity|]. rewrite visit_enough by done. split; [done|]. split; [done|]. left. split; [by left|done].
  - rewrite <-app_assoc in *. pose proof (len_nonneg part'). apply (IH rs' ds' U part' pre (d ++ [0; len d] ++ post)); try done; [lia|].
    destruct (Z.eqb_spec nrecs 0); [by left|right]. cbn [negb andb] in Estop. apply Z.leb_gt in Estop. lia.
Qed.

Lemma scan_done fuel file nrecs buf bufstart offset leftover recnum albuf st : (0 < fuel)%nat ->
  (nrecs <> 0 /\ nrecs <= recnum) \/ offset <= 0 -> scan_file bufsz func fuel file nrecs buf bufstart offset leftover recnum albuf st = Ok st.
Proof.
  intros Hf H. destruct fuel as [|fuel]; [lia|]. cbn [scan_file]. replace (_ && _) with false; [done|]. symmetry.
  destruct (Z.eqb_spec nrecs 0), (Z.ltb_spec recnum nrecs), (Z.ltb_spec 0 offset); cbn; (done || lia).
Qed.

(** One buffer full of a log: [V] is what is read from the file in front of the
    bytes that are left. *)
Lemma scan_round nrecs rs ds U V part q recnum albuf st : Forall2 encodes ds rs -> Forall rec_ok rs -> U ++ V ++ part = log ds ->
  len (q ++ V ++ part) = bufsz -> 450 <= len albuf -> nrecs = 0 \/ recnum < nrecs -> len q = 0 \/ U = [] -> goes_on \/ U = [] ->
  exists out, scan_buffer bufsz func (Datatypes.S (length (q ++ V ++ part))) nrecs (q ++ V ++ part) (len q) bufsz recnum albuf st = Ok out /\
    scanned nrecs U (visit nrecs recnum rs st) out.
Proof using Hbuf.
  intros Hds Hrs E Hl Ha Hn Hq Hgo. pose proof (scan_buffer_ok nrecs (Datatypes.S (length (q ++ V ++ part))) rs ds U (V ++ part) q [] recnum albuf st) as H.
  rewrite app_nil_r in H. replace (len q + len (V ++ part)) with bufsz in H by (rewrite <-Hl, !len_app; lia). apply H; try done.
  unfold len. rewrite !length_app. lia.
Qed.

Lemma scan_file_ok nrecs file fuel : forall rs ds U part tail q bufstart recnum albuf st,
  Forall2 encodes ds rs -> Forall rec_ok rs -> U ++ part = log ds -> file = U ++ tail -> len (q ++ part) = bufsz ->
  450 <= len albuf -> (length U < fuel)%nat -> len part <= 128 -> bufstart = 0 \/ U = [] -> (U = [] -> rs = []) ->
  goes_on \/ len U + len part < bufsz ->
  scan_file bufsz func fuel file nrecs (q ++ part) bufstart (len U) (len part) recnum albuf st = Ok (visit nrecs recnum rs st).
Proof using Hbuf.
  induction fuel as [|fuel IH]; intros rs ds U part tail q bufstart recnum albuf st Hds Hrs E Efile Hl Ha Hf Hp Hbs HU Hgo; [lia|].
  pose proof (len_nonneg part). rewrite len_app in Hl. destruct (decide (U = [])) as [->|HUn].
  { rewrite (HU eq_refl), scan_done by (lia || by right). unfold visit. cbn [reverse]. by rewrite reverse_nil, take_nil; destruct (nrecs =? 0). }
  destruct (decide (nrecs <> 0 /\ nrecs <= recnum)) as [[H1 H2]|Hn]; [rewrite scan_done, visit_enough by (done || lia || by left); done|].
  assert (HUl : 0 < len U) by (destruct U; [done|unfold len; cbn [length]; lia]). destruct Hbs as [->|]; [|done].
  assert (Hgoon : nrecs = 0 \/ recnum < nrecs) by lia. assert (Hc : ((nrecs =? 0) || (recnum <? nrecs)) && (0 <? len U) = true).
  { rewrite (proj2 (Z.ltb_lt 0 (len U))) by done. destruct Hgoon as [->|]; [done|]. by rewrite (proj2 (Z.ltb_lt recnum nrecs)), Bool.orb_true_r. }
  cbn [scan_file]. rewrite Hc. clear Hc.
  (* what is read, and where it goes *)
  assert (Hround : forall U' V bs, U = U' ++ V -> 0 <= bs -> bs + len V + len part = bufsz -> bs = 0 \/ U' = [] -> V <> [] -> goes_on \/ U' = [] ->
    (buf ← put bs (take (Z.to_nat (bufsz - bs - len part)) (drop (Z.to_nat (len U')) file)) (q ++ part);
     '(buf, leftover, recnum, albuf, st) ← scan_buffer bufsz func (Datatypes.S (length buf)) nrecs buf bs bufsz recnum albuf st;
     scan_file bufsz func fuel file nrecs buf bs (len U') leftover recnum albuf st) = Ok (visit nrecs recnum rs st)).
  { intros U' V bs -> Hbs0 Hsum Hcase HV Hgo'. rewrite <-app_assoc in E, Efile. destruct (chop q bs ltac:(pose proof (len_nonneg V); lia)) as (qa & qb & -> & La & Lb).
    replace (bufsz - bs - len part) with (len V) by lia. rewrite Efile at 1. rewrite drop_len, take_len.
    rewrite <-app_assoc, (put_here bs qa qb V) by lia. cbn [mbind res_bind]. rewrite <-La in *.
    destruct (scan_round nrecs rs ds U' V part qa recnum albuf st) as (out & -> & Hout); try done; [rewrite !len_app; lia|]. cbn [mbind res_bind].
    destruct out as [[[[buf' leftover] recnum'] albuf'] st']. destruct Hout as (Hb' & Ha' & [(H12 & ->)|(rs' & ds' & q' & part' & Hds' & Hrs' & E' & -> & -> & Hn' & Hv & Hp' & HU')]).
    - apply scan_done; [|destruct H12 as [?| ->]; [by left|by right]]. rewrite length_app in Hf. destruct V; [done|]. cbn [length] in Hf. lia.
    - rewrite <-Hv. apply (IH rs' ds' U' part' (V ++ tail)); try done; [rewrite length_app in Hf; destruct V; [done|]; cbn [length] in Hf; lia|].
      destruct Hgo' as [?| ->]; [by left|right]. change (len []) with 0. lia. }
  destruct (Z.ltb_spec (len U + len part) bufsz) as [Hlt|Hge].
  - apply (Hround [] U (bufsz - (len U + len part))); (done || lia || by right).
  - assert (Hgo' : goes_on) by (destruct Hgo as [?|?]; [done|lia]). destruct (chop U (len U - (bufsz - len part)) ltac:(lia)) as (U' & V & -> & L1 & L2).
    replace (len (U' ++ V) - (bufsz - len part)) with (len U') by lia. apply (Hround U' V 0); try done; [lia|by left| |by left].
    intros ->. change (len []) with 0 in L2. lia.
Qed.
End ScanOk.

(** ** Programs that keep a log *)

(** A new record, or the completion of the [i]-th one at the offset that was
    returned for it. *)
Inductive wlog_op : Set := Append (r : wlog_rec) | Update (i : nat) (r : wlog_rec).

Definition run_op (wbuf : list Z) (s : list Z * list Z) (o : wlog_op) : M (list Z * list Z) :=
  let '(file, offs) := s in
  match o with
  | Append r => '(file, off) ← wlog_record_write wbuf file r (-1); Ok (file, offs ++ [off])
  | Update i r => off ← or_fault (offs !! i); '(file, _) ← wlog_record_write wbuf file r off; Ok (file, offs)
  end.
(** Every call finds something else in its local array. *)
Fixpoint run_ops (s : list Z * list Z) (l : list (list Z * wlog_op)) : M (list Z * list Z) :=
  match l with [] => Ok s | (wbuf, o) :: l => s ← run_op wbuf s o; run_ops s l end.

(** The log as a list of records. *)
Definition op_list (rs : list wlog_rec) (o : wlog_op) : list wlog_rec := match o with Append r => rs ++ [r] | Update i r => <[i := r]> rs end.
Definition ops_list (rs : list wlog_rec) (l : list (list Z * wlog_op)) : list wlog_rec := foldl (fun rs wo => op_list rs wo.2) rs l.
Definition op_valid (rs : list wlog_rec) (o : wlog_op) : Prop :=
  match o with Append r => rec_ok r | Update i r' => rec_ok r' /\ exists r, rs !! i = Some r /\ same_strings r r' end.
Fixpoint ops_valid (rs : list wlog_rec) (l : list (list Z * wlog_op)) : Prop :=
  match l with [] => True | (wbuf, o) :: l => op_valid rs o /\ bytes wbuf /\ len wbuf = WLOG_REC_MAX_SIZE + 2 /\ ops_valid (op_list rs o) l end.

(** The file holds the records, and the offsets are those of the records. *)
Definition logged (s : list Z * list Z) (rs : list wlog_rec) : Prop :=
  represents s.1 rs /\ length s.2 = length rs /\ forall i, (i < length rs)%nat -> s.2 !! i = Some (log_size (take i rs)).

Lemma log_size_app l l' : log_size (l ++ l') = log_size l + log_size l'.
Proof. induction l as [|r l IH]; [done|]. cbn [app]. change (log_size (r :: l ++ l')) with (reclen r + 2 + log_size (l ++ l')). rewrite IH. unfold log_size at 3. cbn [foldr]. fold (log_size l). lia. Qed.
Lemma log_size_one r : log_size [r] = reclen r + 2.
Proof. unfold log_size. cbn. lia. Qed.
Lemma log_size_lens rs : log_size rs = foldr (fun n m => n + 2 + m) 0 (reclen <$> rs).
Proof. induction rs as [|r rs IH]; [done|]. cbn. rewrite <-IH. done. Qed.

Lemma same_lens (rs : list wlog_rec) (i : nat) r r' : rs !! i = Some r -> reclen r' = reclen r -> reclen <$> <[i := r']> rs = reclen <$> rs.
Proof. intros Hi E. rewrite list_fmap_insert, E. apply list_insert_id. by rewrite list_lookup_fmap, Hi. Qed.

Lemma represents_size file rs : represents file rs -> len file = log_size rs.
Proof. intros (ds & -> & Hds & Hrs). by apply len_log. Qed.
Lemma rec_positive r : rec_ok r -> 28 <= reclen r.
Proof. intros Hr. destruct (ok_path r Hr) as [? _], (ok_host r Hr) as [? _], (ok_pattern r Hr) as [? _]. unfold reclen, DISK. lia. Qed.

Lemma op_logged wbuf s rs o : logged s rs -> op_valid rs o -> bytes wbuf -> len wbuf = WLOG_REC_MAX_SIZE + 2 -> log_size (op_list rs o) + 130 <= INT_MAX ->
  exists s', run_op wbuf s o = Ok s' /\ logged s' (op_list rs o).
Proof.
  destruct s as [file offs]. intros (Hrep & Hlo & Hoff) Hv Hb Hl Hsz. cbn [fst snd] in *. change (WLOG_REC_MAX_SIZE + 2) with 452 in Hl.
  pose proof (represents_size _ _ Hrep) as Lf. destruct o as [r|i r']; cbn [op_list op_valid run_op] in *.
  - rewrite log_size_app, log_size_one in Hsz. pose proof (rec_positive r Hv).
    destruct (append_represents wbuf file rs r Hv Hb) as (file' & -> & Hrep' & _); [lia|done|lia|]. cbn [mbind res_bind].
    eexists. split; [reflexivity|]. split; [done|]. cbn [snd]. rewrite !length_app. cbn [length]. split; [lia|]. intros i Hi.
    destruct (decide (i < length rs)%nat) as [Hlt|].
    + rewrite lookup_app_l, take_app_le by lia. by apply Hoff.
    + replace i with (length offs) by lia. rewrite list_lookup_middle by done. by rewrite Hlo, take_app_length.
  - destruct Hv as [Hr' (r & Hi & Hs)]. pose proof (lookup_lt_Some _ _ _ Hi) as Hlt. rewrite (Hoff i Hlt). cbn [or_fault mbind res_bind].
    assert (El : reclen r' = reclen r) by (destruct Hs as (E1 & E2 & E3 & _); unfold reclen; lia).
    rewrite log_size_lens, (same_lens _ _ _ _ Hi El), <-log_size_lens in Hsz.
    rewrite <-(take_drop_middle rs i r Hi) in Hrep. rewrite (insert_take_drop rs i r') by done.
    destruct (update_represents wbuf file (take i rs) r (drop (S i) rs) r' Hr' Hs Hb) as (file' & -> & Hrep' & _); [lia|done|lia|]. cbn [mbind res_bind].
    eexists. split; [reflexivity|]. split; [done|]. cbn [snd]. rewrite <-(insert_take_drop rs i r') by done. rewrite length_insert. split; [done|].
    intros j Hj. rewrite (Hoff j Hj). f_equal. by rewrite !log_size_lens, !fmap_take, (same_lens _ _ _ _ Hi El).
Qed.

Lemma log_size_nonneg rs : Forall rec_ok rs -> 0 <= log_size rs.
Proof.
  induction 1 as [|r rs Hr _ IH]; [done|]. change (log_size (r :: rs)) with (reclen r + 2 + log_size rs). pose proof (rec_positive r Hr). lia.
Qed.

(** The log only grows. *)
Lemma ops_size l : forall rs, ops_valid rs l -> log_size rs <= log_size (ops_list rs l).
Proof.
  induction l as [|[wbuf o] l IH]; intros rs Hv; [done|]. destruct Hv as (Ho & _ & _ & Hv). cbn [ops_list foldl snd]. etrans; [|apply (IH _ Hv)].
  destruct o as [r|i r']; cbn [op_list op_valid] in *.
  - rewrite log_size_app, log_size_one. pose proof (rec_positive r Ho). lia.
  - destruct Ho as [_ (r & Hi & E1 & E2 & E3 & _)]. rewrite !log_size_lens, (same_lens _ _ r r' Hi); [done|]. unfold reclen. lia.
Qed.

Lemma ops_logged l : forall s rs, logged s rs -> ops_valid rs l -> log_size (ops_list rs l) + 130 <= INT_MAX ->
  exists s', run_ops s l = Ok s' /\ logged s' (ops_list rs l).
Proof.
  induction l as [|[wbuf o] l IH]; intros s rs Hs Hv Hsz; [by exists s|]. destruct Hv as (Ho & Hb & Hl & Hv). cbn [run_ops ops_list foldl snd] in *.
  pose proof (ops_size l _ Hv) as Hle. destruct (op_logged wbuf s rs o Hs Ho Hb Hl) as (s' & -> & Hs'); [unfold ops_list in Hle; lia|].
  cbn [mbind res_bind]. by apply IH.
Qed.

(** ** Properties *)

(** C6: the log of writes.  Any sequence of records that are appended and
    completed in any order (whatever the local arrays hold) leaves a file from
    which the backward scan delivers exactly these records, completed ones as
    completed, the last one first, all of them or as many as are asked for;
    for every size of the buffer, records that span two buffers included.
    The fields have to fit their bit-fields, and a record has to be shorter
    than 128 bytes ([long_record] shows what happens otherwise).  A caller that
    asks to stop is obeyed when the log fits into the buffer ([stop_is_ignored]
    shows what happens otherwise). *)
Theorem wlog_scan_correct {S} bufsz (func : S -> wlog_rec -> S * Z) nrecs l buf albuf st :
  258 <= bufsz -> goes_on func \/ log_size (ops_list [] l) < bufsz -> len buf = bufsz -> len albuf = WLOG_REC_MAX_SIZE ->
  ops_valid [] l -> log_size (ops_list [] l) + 130 <= INT_MAX ->
  exists file offs, run_ops ([], []) l = Ok (file, offs) /\ length offs = length (ops_list [] l) /\
    wlog_scan_backward bufsz func buf albuf file nrecs st = Ok (visit func nrecs 0 (ops_list [] l) st).
Proof.
  intros Hbuf Hgo Lb La Hv Hsz. destruct (ops_logged l ([], []) []) as ([file offs] & E & Hrep & Hlo & _); [|done|done|].
  { split; [by exists []|]. split; [done|]. cbn. lia. }
  exists file, offs. split; [done|]. split; [done|]. cbn [fst] in Hrep. pose proof (represents_size _ _ Hrep) as Lf. pose proof (len_nonneg file).
  destruct Hrep as (ds & -> & Hds & Hrs). unfold wlog_scan_backward. unfold INT_MAX in Hsz. rewrite wrap_s_id by lia.
  pose proof (scan_file_ok bufsz func Hbuf nrecs (log ds) (Datatypes.S (length (log ds))) (ops_list [] l) ds (log ds) [] [] buf 0 0 albuf st) as H1.
  rewrite !app_nil_r in H1. apply H1; try done; [by rewrite La|lia|by left| |].
  - intros ->%log_empty. by inversion Hds.
  - destruct Hgo as [?|?]; [by left|right]. change (len []) with 0. lia.
Qed.

(** ** Witnesses *)
Lemma bytes_zeros n : bytes (zeros n).
Proof. apply Forall_forall. intros x [-> _]%elem_of_replicate. lia. Qed.

Definition done_rec (pid : Z) : wlog_rec := mkRec pid 4096 512 2 1 0 (zeros 9) 0 (short_path ++ zeros 126) 3 (zeros 65) 0.
Lemma plain_ok : rec_ok (plain_rec 7 short_path).
Proof. split; try (vm_compute; repeat split; (reflexivity || discriminate)). Qed.
Lemma done_ok : rec_ok (done_rec 7).
Proof. split; try (vm_compute; repeat split; (reflexivity || discriminate)). Qed.
Definition ex_ops : list (list Z * wlog_op) :=
  (zeros 452,.) <$> [Append (plain_rec 7 short_path); Append (plain_rec 7 short_path); Update 0 (done_rec 7)].
Definition seen (acc : list (Z * Z)) (r : wlog_rec) : list (Z * Z) * Z := (acc ++ [(w_pid r, w_done r)], 1).

Lemma wlog_scan_correct_witness : exists file offs, run_ops ([], []) ex_ops = Ok (file, offs) /\ length offs = 2%nat /\
  wlog_scan_backward 300 seen (zeros 300) (zeros 450) file 0 [] = Ok [(7, 0); (7, 1)].
Proof.
  apply (wlog_scan_correct 300 seen 0 ex_ops (zeros 300) (zeros 450) []); [lia|left; intros st r; discriminate|reflexivity|reflexivity| |vm_compute; discriminate].
  assert (H : forall n, bytes (zeros n)) by apply bytes_zeros.
  cbn [ops_valid ex_ops fmap list_fmap op_valid op_list app]. split_and!; try (apply H || apply plain_ok || apply done_ok || done || reflexivity).
  exists (plain_rec 7 short_path). split; [reflexivity|]. repeat split.
Defined.
