(* ===== verification/FileData.v ===== *)
(** * Data for file tests: [pattern.c], [dataascii.c], [databin.c] and
      [string_to_tokens.c] of [testcases/kernel/fs/doio]

    Buffers are filled with data that depends on the position in the file, and
    checked later, possibly in other pieces.  A buffer is a list of bytes, and
    an access outside of it a [Fault].  [rand] is an input. *)

From stdpp Require Import base list strings.
From Stdlib Require Import ZArith Lia.
From S2P Require Import Prelude Tokens Bytes.

Local Open Scope Z_scope.

Abbreviation M := (res unit).
Definition int_op (z : Z) : M Z := if in_int z then Ok z else Fault.

(** ** [pattern.c] *)

(** [memcmp (buf + i, src + j, n) == 0]. *)
Definition same (i : Z) (buf : list Z) (j : Z) (src : list Z) (n : Z) : M bool :=
  x ← get i n buf; y ← get j n src; Ok (bool_decide (x = y)).
Definition copy (i : Z) (buf : list Z) (j : Z) (src : list Z) (n : Z) : M (list Z) := d ← get j n src; put i d buf.

Fixpoint check_loop (fuel : nat) (buf : list Z) (buflen ncmp nleft : Z) : M Z :=
  match fuel with
  | O => Fault
  | S fuel =>
      if ncmp <? buflen then
        let nb := if ncmp <? nleft then ncmp else nleft in
        eq ← same 0 buf ncmp buf nb;
        if eq : bool then check_loop fuel buf buflen (ncmp + nb) (nleft - nb) else Ok (-1)
      else Ok 0
  end.

Definition reduce (patshift patlen : Z) : Z := if patlen =? 0 then patshift else Z.rem patshift patlen.

Definition pattern_check (fuel : nat) (buf : list Z) (buflen : Z) (pat : list Z) (patlen patshift : Z) : M Z :=
  let patshift := reduce patshift patlen in
  let nb := patlen - patshift in
  if buflen <? nb then eq ← same 0 buf patshift pat buflen; Ok (if eq : bool then 0 else -1)
  else
    eq ← same 0 buf patshift pat nb;
    if negb eq then Ok (-1)
    else
      let nleft := buflen - nb in
      if 0 <? patshift then
        if nleft <? patshift then eq ← same nb buf 0 pat nleft; Ok (if eq : bool then 0 else -1)
        else
          eq ← same nb buf 0 pat patshift;
          if negb eq then Ok (-1) else check_loop fuel buf buflen (nb + patshift) (nleft - patshift)
      else check_loop fuel buf buflen nb nleft.

Fixpoint fill_loop (fuel : nat) (buf : list Z) (buflen ncopied nleft : Z) : M (list Z) :=
  match fuel with
  | O => Fault
  | S fuel =>
      if ncopied <? buflen then
        let trans := if ncopied <? nleft then ncopied else nleft in
        buf ← copy ncopied buf 0 buf trans;
        fill_loop fuel buf buflen (ncopied + trans) (nleft - trans)
      else Ok buf
  end.

Definition pattern_fill (fuel : nat) (buf : list Z) (buflen : Z) (pat : list Z) (patlen patshift : Z) : M (list Z) :=
  let patshift := reduce patshift patlen in
  let trans := patlen - patshift in
  if buflen <? trans then copy 0 buf patshift pat buflen
  else
    buf ← copy 0 buf patshift pat trans;
    let nleft := buflen - trans in
    if 0 <? patshift then
      if nleft <? patshift then copy trans buf 0 pat nleft
      else buf ← copy trans buf 0 pat patshift; fill_loop fuel buf buflen (trans + patshift) (nleft - patshift)
    else fill_loop fuel buf buflen trans nleft.

(** ** [dataascii.c] *)

(** The default list of characters, with its size; it includes the NUL. *)
Definition CHARS : list Z := str "ABCDEFGHIJKLMNOPQRSTUVWXYZabcdefghjiklmnopqrstuvwxyz" ++ [NEWLINE; 0].
Definition charlist (listofchars : option cstr) : list Z * Z :=
  match listofchars with None => (CHARS, 54) | Some l => (l ++ [0], len l) end.

(** [charlist[cnt % chars_size]]. *)
Definition char_for (l : list Z) (chars_size cnt : Z) : M Z :=
  if chars_size =? 0 then Fault else get_u (Z.rem cnt chars_size) 1 l.

(** The loop from [cnt] to [total]; [n]: the iterations that are left. *)
Fixpoint ascii_gen (n : nat) (l : list Z) (chars_size : Z) (buffer : list Z) (chr cnt : Z) : M (list Z) :=
  match n with
  | O => Ok buffer
  | S n => c ← char_for l chars_size cnt; buffer ← put chr [c] buffer; ascii_gen n l chars_size buffer (chr + 1) (cnt + 1)
  end.
Definition dataasciigen (listofchars : option cstr) (buffer : list Z) (bsize offset : Z) : M (list Z * Z) :=
  total ← int_op (offset + bsize);
  let '(l, chars_size) := charlist listofchars in
  buffer ← ascii_gen (Z.to_nat (total - offset)) l chars_size buffer 0 offset;
  Ok (buffer, bsize).

Fixpoint ascii_chk (n : nat) (l : list Z) (chars_size : Z) (buffer : list Z) (chr cnt : Z) : M Z :=
  match n with
  | O => Ok (-1)
  | S n =>
      c ← char_for l chars_size cnt; b ← get_u chr 1 buffer;
      if b =? c then ascii_chk n l chars_size buffer (chr + 1) (cnt + 1) else Ok cnt
  end.
Definition dataasciichk (listofchars : option cstr) (buffer : list Z) (bsize offset : Z) : M Z :=
  total ← int_op (offset + bsize);
  let '(l, chars_size) := charlist listofchars in
  ascii_chk (Z.to_nat (total - offset)) l chars_size buffer 0 offset.

(** ** [databin.c] *)

(** The byte that is the same everywhere. *)
Definition fixed_byte (mode : Z) : Z :=
  if mode =? "c"%ch then 0xf0 else if mode =? "o"%ch then 0xff else if mode =? "z"%ch then 0 else 0x55.
Definition counting (offset ind : Z) : M Z := p ← int_op (offset + ind); Ok (Z.land (Z.rem p 8) 127).

Fixpoint bin_count (n : nat) (buffer : list Z) (offset ind : Z) : M (list Z) :=
  match n with O => Ok buffer | S n => c ← counting offset ind; buffer ← put ind [c] buffer; bin_count n buffer offset (ind + 1) end.
Fixpoint bin_rand (rands buffer : list Z) (ind : Z) : M (list Z) :=
  match rands with [] => Ok buffer | r :: rands => buffer ← put ind [Z.lor (Z.land r 127) 64] buffer; bin_rand rands buffer (ind + 1) end.

(** [rands]: what [rand] returns, one number for each byte; [bsize] is not
    negative. *)
Definition databingen (mode : Z) (rands buffer : list Z) (bsize offset : Z) : M (list Z) :=
  if mode =? "C"%ch then bin_count (Z.to_nat bsize) buffer offset 0
  else if mode =? "r"%ch then bin_rand rands buffer 0
  else put 0 (replicate (Z.to_nat bsize) (fixed_byte mode)) buffer.

Fixpoint bin_chk_count (n : nat) (buffer : list Z) (offset cnt : Z) : M Z :=
  match n with
  | O => Ok (-1)
  | S n =>
      c ← counting offset cnt; b ← get_u cnt 1 buffer;
      if wrap_s 8 b =? c then bin_chk_count n buffer offset (cnt + 1) else int_op (offset + cnt)
  end.
Fixpoint bin_chk (n : nat) (expbits : Z) (buffer : list Z) (offset cnt : Z) : M Z :=
  match n with
  | O => Ok (-1)
  | S n => b ← get_u cnt 1 buffer; if b =? expbits then bin_chk n expbits buffer offset (cnt + 1) else int_op (offset + cnt)
  end.
Definition databinchk (mode : Z) (buffer : list Z) (bsize offset : Z) : M Z :=
  if mode =? "C"%ch then bin_chk_count (Z.to_nat bsize) buffer offset 0
  else if mode =? "r"%ch then Ok (-1)
  else bin_chk (Z.to_nat bsize) (fixed_byte mode) buffer offset 0.

(** ** [string_to_tokens.c] *)

(** The tokens from the [num_toks]-th on, into an array of [room] elements that
    holds [arr] so far; NULL is [None]. *)
Fixpoint string_token_loop (n : nat) (sep : Z -> bool) (s : cstr) (room : nat) (arr : list (option cstr)) : M (list (option cstr) * bool) :=
  match n with
  | O => Ok (arr, true)
  | S n =>
      if (length arr <? room)%nat then
        match strtok sep s with
        | None => Ok (arr ++ [None], false)
        | Some (tok, rest) => string_token_loop n sep rest room (arr ++ [Some tok])
        end
      else Fault
  end.

Definition string_to_tokens (arg_string : cstr) (room : nat) (array_size : Z) (separator : option cstr) : M (list (option cstr) * Z) :=
  match separator with
  | None => Ok ([], -1)
  | Some seps =>
      if array_size <=? 1 then Ok ([], -1)
      else
        let sep c := bool_decide (c ∈ seps) in
        match strtok sep arg_string with
        | None => if (0 <? room)%nat then Ok ([None], 0) else Fault
        | Some (tok, rest) =>
            if (0 <? room)%nat then
              '(arr, full) ← string_token_loop (Z.to_nat (array_size - 1)) sep rest room [Some tok];
              if full : bool then
                if (length arr <? room)%nat then Ok (arr ++ [None], Z.of_nat (length arr)) else Fault
              else Ok (arr, Z.of_nat (length arr) - 1)
            else Fault
        end
  end.

(** ** Examples *)
Example fill_ex : pattern_fill 10 (zeros 10) 10 [1; 2; 3] 3 4 = Ok [2; 3; 1; 2; 3; 1; 2; 3; 1; 2].
Proof. reflexivity. Qed.
(** With an empty pattern the loop does not end. *)
Example fill_forever fuel : fill_loop fuel (zeros 4) 4 0 4 = Fault.
Proof. induction fuel as [|fuel IH]; [done|]. exact IH. Qed.
Example ascii_ex : dataasciigen (Some (str "abc")) (zeros 5) 5 7 = Ok (str "bcabc", 5).
Proof. reflexivity. Qed.
Example tokens_ex : string_to_tokens (str "a,b;c") 4 4 (Some (str ",;")) = Ok ([Some (str "a"); Some (str "b"); Some (str "c"); None], 3).
Proof. reflexivity. Qed.
(** As many tokens as the array has elements: the NULL is written behind it. *)
Example tokens_overflow : string_to_tokens (str "a,b,c,d") 4 4 (Some (str ",")) = Fault.
Proof. reflexivity. Qed.

(** ** Periodic data *)

(** [n] bytes of the endless repetition of [p], from position [s] on. *)
Fixpoint cyc (p : list Z) (s : Z) (n : nat) : list Z :=
  match n with O => [] | S n => nth (Z.to_nat (s mod len p)) p 0 :: cyc p (s + 1) n end.

Lemma length_cyc p n : forall s, length (cyc p s n) = n.
Proof. induction n as [|n IH]; intros s; cbn; [done|]. by rewrite IH. Qed.
Lemma len_cyc p s n : len (cyc p s n) = Z.of_nat n.
Proof. unfold len. by rewrite length_cyc. Qed.
Lemma cyc_app p a b : forall s, cyc p s (a + b) = cyc p s a ++ cyc p (s + Z.of_nat a) b.
Proof.
  induction a as [|a IH]; intros s; cbn [Nat.add cyc app]; [by rewrite Z.add_0_r|]. rewrite IH.
  replace (s + 1 + Z.of_nat a) with (s + Z.of_nat (S a)) by lia. done.
Qed.
Lemma cyc_mod p n : forall s k, len p <> 0 -> (len p | k) -> cyc p (s + k) n = cyc p s n.
Proof.
  induction n as [|n IH]; intros s k Hp Hk; cbn [cyc]; [done|]. replace (s + k + 1) with (s + 1 + k) by lia. rewrite IH by done. do 3 f_equal.
  destruct Hk as [q ->]. by rewrite Z_mod_plus_full.
Qed.
Lemma cyc_reduce p s n : len p <> 0 -> cyc p (s mod len p) n = cyc p s n.
Proof.
  intros Hp. rewrite (Z.div_mod s (len p)) at 2 by done. rewrite Z.add_comm. symmetry. apply cyc_mod; [done|]. apply Z.divide_factor_l.
Qed.
Lemma cyc_slice p n : forall s, 0 <= s -> s + Z.of_nat n <= len p -> cyc p s n = take n (drop (Z.to_nat s) p).
Proof.
  induction n as [|n IH]; intros s Hs Hn; cbn [cyc]; [done|]. rewrite Z.mod_small by lia. unfold len in *.
  destruct (lookup_lt_is_Some_2 p (Z.to_nat s)) as [x Hx]; [lia|]. rewrite (drop_S p x) by done. cbn [take]. rewrite (nth_lookup_Some p _ 0 x Hx). f_equal.
  rewrite IH by (unfold len; lia). by replace (Z.to_nat (s + 1)) with (S (Z.to_nat s)) by lia.
Qed.
Lemma cyc_take p s a b : (b <= a)%nat -> take b (cyc p s a) = cyc p s b.
Proof. intros H. replace a with (b + (a - b))%nat by lia. rewrite cyc_app. rewrite take_app_le by (rewrite length_cyc; lia). by rewrite firstn_all2 by (rewrite length_cyc; lia). Qed.
Lemma cyc_drop p s a b : (b <= a)%nat -> drop b (cyc p s a) = cyc p (s + Z.of_nat b) (a - b).
Proof. intros H. replace a with (b + (a - b))%nat at 1 by lia. rewrite cyc_app. rewrite drop_app_ge by (rewrite length_cyc; lia). by rewrite length_cyc, Nat.sub_diag, drop_0. Qed.

Section Pattern.
Context (pat : list Z) (patlen : Z) (Hpat : 0 < patlen <= len pat).
#[local] Abbreviation P := (take (Z.to_nat patlen) pat).

Lemma len_P : len P = patlen.
Proof using Hpat. apply len_take. lia. Qed.

Lemma get_pat j n : 0 <= j -> 0 <= n -> j + n <= patlen -> get j n pat = Ok (E := unit) (cyc P j (Z.to_nat n)).
Proof using Hpat.
  intros Hj Hn Hl. unfold get. rewrite (proj2 (inside_iff j n pat)), (proj2 (Z.leb_le 0 n)) by lia. cbn [andb].
  rewrite cyc_slice by (rewrite ?len_P; lia). rewrite skipn_firstn_comm, take_take. f_equal. f_equal. lia.
Qed.

(** The first [a] bytes of a buffer. *)
Lemma get_front s a b rest : (b <= a)%nat -> get 0 (Z.of_nat b) (cyc P s a ++ rest) = Ok (E := unit) (cyc P s b).
Proof.
  intros H. pose proof (len_nonneg rest). rewrite get_prefix by (rewrite len_app, len_cyc; lia). rewrite Nat2Z.id, take_app_le by (rewrite length_cyc; lia). by rewrite cyc_take.
Qed.
Lemma put_next s a b rest : Z.of_nat b <= len rest ->
  put (Z.of_nat a) (cyc P (s + Z.of_nat a) b) (cyc P s a ++ rest) = Ok (E := unit) (cyc P s (a + b) ++ drop b rest).
Proof.
  intros H. rewrite <-(take_drop b rest) at 1. rewrite <-(len_cyc P s a). rewrite put_at.
  - rewrite (len_cyc P s a), cyc_app, <-app_assoc. done.
  - rewrite len_cyc. unfold len in *. rewrite length_take. lia.
Qed.

Lemma fill_loop_ok s buflen fuel : forall a rest, (0 < a)%nat -> ((patlen | Z.of_nat a) \/ Z.of_nat a = buflen) -> Z.of_nat a <= buflen <= Z.of_nat a + len rest ->
  buflen - Z.of_nat a < Z.of_nat fuel ->
  fill_loop fuel (cyc P s a ++ rest) buflen (Z.of_nat a) (buflen - Z.of_nat a) = Ok (cyc P s (Z.to_nat buflen) ++ drop (Z.to_nat buflen - a) rest).
Proof using Hpat.
  induction fuel as [|fuel IH]; intros a rest Ha Hd Hl Hf; [lia|]. cbn [fill_loop]. destruct (Z.ltb_spec (Z.of_nat a) buflen) as [Hlt|Hge].
  - destruct Hd as [Hd|]; [|lia]. set (b := if Z.of_nat a <? buflen - Z.of_nat a then Z.of_nat a else buflen - Z.of_nat a).
    assert (Hb : 0 < b <= Z.of_nat a /\ b <= buflen - Z.of_nat a /\ (b = Z.of_nat a \/ b = buflen - Z.of_nat a)) by (unfold b; case_match; lia).
    clearbody b. unfold copy. replace b with (Z.of_nat (Z.to_nat b)) at 1 by lia. rewrite get_front by lia. cbn [mbind res_bind].
    rewrite <-(cyc_mod P _ s (Z.of_nat a)) by (rewrite len_P; (lia || done)). rewrite put_next by lia. cbn [mbind res_bind].
    replace (Z.of_nat a + b) with (Z.of_nat (a + Z.to_nat b)) by lia. replace (buflen - Z.of_nat a - b) with (buflen - Z.of_nat (a + Z.to_nat b)) by lia.
    rewrite IH; [|lia| |rewrite len_drop_nat; lia|lia].
    + rewrite drop_drop. do 3 f_equal. lia.
    + destruct Hb as (_ & _ & [-> |Hb]); [left|right; lia]. replace (Z.of_nat _) with (Z.of_nat a + Z.of_nat a) by lia. by apply Z.divide_add_r.
  - replace a with (Z.to_nat buflen) by lia. by rewrite Nat.sub_diag, drop_0.
Qed.

Lemma reduce_ok patshift : 0 <= patshift -> reduce patshift patlen = patshift mod patlen /\ 0 <= patshift mod patlen < patlen.
Proof using Hpat.
  intros H. unfold reduce. rewrite (proj2 (Z.eqb_neq patlen 0)), Z.rem_mod_nonneg by lia. split; [done|]. apply Z.mod_pos_bound. lia.
Qed.

Lemma fill_ok fuel buf buflen patshift : 0 <= patshift -> 0 <= buflen <= len buf -> buflen < Z.of_nat fuel ->
  pattern_fill fuel buf buflen pat patlen patshift = Ok (cyc P patshift (Z.to_nat buflen) ++ drop (Z.to_nat buflen) buf).
Proof using Hpat.
  intros Hs Hb Hf. unfold pattern_fill. destruct (reduce_ok patshift Hs) as [-> Hr].
  rewrite <-(cyc_reduce P patshift), len_P by (rewrite len_P; lia). set (s := patshift mod patlen) in *.
  assert (Hput : forall n, 0 <= n <= len buf -> s + n <= patlen -> copy 0 buf s pat n = Ok (cyc P s (Z.to_nat n) ++ drop (Z.to_nat n) buf)).
  { intros n Hn Hsn. unfold copy. rewrite get_pat by lia. cbn [mbind res_bind].
    pose proof (put_next s 0 (Z.to_nat n) buf) as H. rewrite Z.add_0_r in H. apply H. lia. }
  destruct (Z.ltb_spec buflen (patlen - s)); [apply Hput; lia|]. rewrite Hput by lia. cbn [mbind res_bind].
  set (a := Z.to_nat (patlen - s)). assert (Ea : patlen - s = Z.of_nat a) by lia. rewrite Ea.
  assert (Hput2 : forall n, 0 <= n <= s -> Z.of_nat a + n <= buflen ->
    copy (Z.of_nat a) (cyc P s a ++ drop a buf) 0 pat n = Ok (cyc P s (a + Z.to_nat n) ++ drop (a + Z.to_nat n) buf)).
  { intros n Hn Hsn. unfold copy. rewrite get_pat by lia. cbn [mbind res_bind].
    rewrite <-(cyc_mod P _ 0 patlen), <-drop_drop by (rewrite len_P; lia || done). replace (0 + patlen) with (s + Z.of_nat a) by lia.
    apply put_next. rewrite len_drop_nat. lia. }
  destruct (Z.ltb_spec 0 s) as [Hpos|Hz].
  - destruct (Z.ltb_spec (buflen - Z.of_nat a) s).
    + rewrite Hput2 by lia. replace (a + Z.to_nat (buflen - Z.of_nat a))%nat with (Z.to_nat buflen) by lia. done.
    + rewrite Hput2 by lia. cbn [mbind res_bind]. replace (Z.of_nat a + s) with (Z.of_nat (a + Z.to_nat s)) by lia.
      replace (buflen - Z.of_nat a - s) with (buflen - Z.of_nat (a + Z.to_nat s)) by lia. rewrite fill_loop_ok; [|lia| |rewrite len_drop_nat; lia|lia].
      * rewrite drop_drop. do 3 f_equal. lia.
      * left. exists 1. lia.
  - rewrite fill_loop_ok; [|lia| |rewrite len_drop_nat; lia|lia].
    + rewrite drop_drop. do 3 f_equal. lia.
    + left. exists 1. lia.
Qed.

(** Comparing a part of the buffer with the bytes expected there. *)
Definition expected (s : Z) (buf : list Z) (n : Z) : bool := bool_decide (take (Z.to_nat n) buf = cyc P s (Z.to_nat n)).

Lemma expected_step s buf a n : 0 <= a -> 0 <= n -> a + n <= len buf -> expected s buf a = true ->
  expected s buf (a + n) = bool_decide (take (Z.to_nat n) (drop (Z.to_nat a) buf) = cyc P (s + a) (Z.to_nat n)).
Proof.
  unfold expected. intros Ha Hn Hl E%bool_decide_eq_true. apply bool_decide_ext. replace (Z.to_nat (a + n)) with (Z.to_nat a + Z.to_nat n)%nat by lia.
  rewrite cyc_app, Z2Nat.id by lia. rewrite <-(take_take_drop buf), E. split; [apply app_inv_head|by intros ->].
Qed.
Lemma expected_less s buf a n : 0 <= a <= n -> expected s buf n = true -> expected s buf a = true.
Proof.
  unfold expected. intros Ha E%bool_decide_eq_true. apply bool_decide_eq_true. rewrite <-(cyc_take P s (Z.to_nat n)), <-E, take_take by lia. f_equal. lia.
Qed.

Lemma get_part {E} a n buf : 0 <= a -> 0 <= n -> a + n <= len buf -> get a n buf = Ok (E := E) (take (Z.to_nat n) (drop (Z.to_nat a) buf)).
Proof. intros. unfold get. by rewrite (proj2 (inside_iff a n buf)), (proj2 (Z.leb_le 0 n)) by lia. Qed.

Lemma check_loop_ok s buf buflen fuel : forall a, 0 < a -> (patlen | a) \/ a = buflen -> a <= buflen <= len buf -> buflen - a < Z.of_nat fuel ->
  expected s buf a = true -> check_loop fuel buf buflen a (buflen - a) = Ok (if expected s buf buflen then 0 else -1).
Proof using Hpat.
  induction fuel as [|fuel IH]; intros a Ha Hd Hl Hf He; [lia|]. cbn [check_loop]. destruct (Z.ltb_spec a buflen) as [Hlt|Hge].
  - destruct Hd as [Hd|]; [|lia]. set (b := if a <? buflen - a then a else buflen - a).
    assert (Hb : 0 < b <= a /\ b <= buflen - a /\ (b = a \/ b = buflen - a)) by (unfold b; destruct (Z.ltb_spec a (buflen - a)); lia).
    clearbody b. unfold same. rewrite !get_part by lia. cbn [mbind res_bind]. rewrite drop_0.
    assert (E0 : take (Z.to_nat b) buf = cyc P s (Z.to_nat b)) by (apply (expected_less s buf b a) in He; [by apply bool_decide_eq_true in He|lia]).
    rewrite E0. pose proof (expected_step s buf a b ltac:(lia) ltac:(lia) ltac:(lia) He) as Es.
    rewrite (cyc_mod P _ s a) in Es by (rewrite len_P; (lia || done)).
    replace (bool_decide (cyc P s (Z.to_nat b) = take (Z.to_nat b) (drop (Z.to_nat a) buf))) with (expected s buf (a + b)) by (rewrite Es; apply bool_decide_ext; done).
    destruct (expected s buf (a + b)) eqn:Ee.
    + replace (buflen - a - b) with (buflen - (a + b)) by lia. apply IH; [lia| |lia|lia|done].
      destruct Hb as (_ & _ & [-> |Hb]); [left|right; lia]. by apply Z.divide_add_r.
    + destruct (expected s buf buflen) eqn:Eb; [|done]. apply (expected_less s buf (a + b) buflen) in Eb; [congruence|lia].
  - by replace buflen with a by lia; rewrite He.
Qed.

Lemma check_ok fuel buf buflen patshift : 0 <= patshift -> 0 <= buflen <= len buf -> buflen < Z.of_nat fuel ->
  pattern_check fuel buf buflen pat patlen patshift = Ok (if expected patshift buf buflen then 0 else -1).
Proof using Hpat.
  intros Hs Hb Hf. unfold pattern_check. destruct (reduce_ok patshift Hs) as [-> Hr]. assert (Ee : forall n, expected patshift buf n = expected (patshift mod patlen) buf n).
  { intros n. unfold expected. by rewrite <-(cyc_reduce P patshift), len_P by (rewrite len_P; lia). }
  rewrite Ee. set (s := patshift mod patlen) in *. clearbody s. clear Ee.
  assert (H1 : forall n, 0 <= n <= len buf -> s + n <= patlen -> same 0 buf s pat n = Ok (expected s buf n)).
  { intros n Hn Hsn. unfold same. rewrite (get_part 0 n buf), get_pat by lia. cbn [mbind res_bind]. by rewrite drop_0. }
  destruct (Z.ltb_spec buflen (patlen - s)); [by rewrite H1 by lia|]. rewrite H1 by lia. cbn [mbind res_bind].
  assert (Hno : forall n, 0 <= n <= buflen -> expected s buf n = false -> expected s buf buflen = false).
  { intros n Hn En. destruct (expected s buf buflen) eqn:Eb; [|done]. apply (expected_less s buf n) in Eb; [congruence|lia]. }
  destruct (expected s buf (patlen - s)) eqn:E1; cbn [negb]; [|by rewrite (Hno (patlen - s)) by (done || lia)].
  assert (H2 : forall n, 0 <= n <= s -> patlen - s + n <= buflen -> same (patlen - s) buf 0 pat n = Ok (expected s buf (patlen - s + n))).
  { intros n Hn Hsn. unfold same. rewrite (get_part (patlen - s) n buf), get_pat by lia. cbn [mbind res_bind]. rewrite (expected_step s buf (patlen - s) n) by (done || lia).
    replace (s + (patlen - s)) with (0 + patlen) by lia. rewrite cyc_mod by (rewrite len_P; (lia || done)). done. }
  destruct (Z.ltb_spec 0 s) as [Hpos|Hz].
  - destruct (Z.ltb_spec (buflen - (patlen - s)) s).
    + rewrite H2 by lia. cbn [mbind res_bind]. by replace (patlen - s + (buflen - (patlen - s))) with buflen by lia.
    + rewrite H2 by lia. cbn [mbind res_bind]. destruct (expected s buf (patlen - s + s)) eqn:E2; cbn [negb]; [|by rewrite (Hno (patlen - s + s)) by (done || lia)].
      replace (buflen - (patlen - s) - s) with (buflen - (patlen - s + s)) by lia. apply check_loop_ok; try done; [lia| |lia|lia]. left. exists 1. lia.
  - apply check_loop_ok; try done; [lia| |lia|lia]. left. exists 1. lia.
Qed.
End Pattern.

(** ** Data of the two generators *)
Inductive kind : Set := Ascii (listofchars : option cstr) | Bin (mode : Z).
Definition generate (k : kind) (buf : list Z) (bsize offset : Z) : M (list Z) :=
  match k with Ascii l => '(buf, _) ← dataasciigen l buf bsize offset; Ok buf | Bin m => databingen m [] buf bsize offset end.
Definition check (k : kind) (buf : list Z) (bsize offset : Z) : M Z :=
  match k with Ascii l => dataasciichk l buf bsize offset | Bin m => databinchk m buf bsize offset end.
(** What is repeated. *)
Definition period (k : kind) : list Z :=
  match k with
  | Ascii None => CHARS
  | Ascii (Some l) => l
  | Bin m => if m =? "C"%ch then [0; 1; 2; 3; 4; 5; 6; 7] else [fixed_byte m]
  end.
(** The list is not empty, and the data is not random. *)
Definition kind_ok (k : kind) : Prop := match k with Ascii l => l <> Some [] | Bin m => m <> "r"%ch end.

Lemma period_pos k : kind_ok k -> 0 < len (period k).
Proof. destruct k as [[[|c l]|]|m]; cbn [kind_ok period]; intros H; [done|unfold len; cbn [length]; lia|done|by destruct (m =? "C"%ch)]. Qed.

Lemma get_one {E} i (l : list Z) x : 0 <= i -> l !! Z.to_nat i = Some x -> get_u i 1 l = Ok (E := E) x.
Proof.
  intros Hi Hx. pose proof (lookup_lt_Some _ _ _ Hx). unfold get_u. rewrite get_part by (unfold len; lia). cbn [mbind res_bind].
  rewrite (drop_S l x) by done. replace (take (Z.to_nat 1) (x :: drop (S (Z.to_nat i)) l)) with [x] by done. change (unle [x]) with (x + 256 * 0). f_equal. lia.
Qed.

Lemma nth_lookup_len (p : list Z) i : 0 <= i < len p -> p !! Z.to_nat i = Some (nth (Z.to_nat i) p 0).
Proof. unfold len. intros H. destruct (lookup_lt_is_Some_2 p (Z.to_nat i)) as [x Hx]; [lia|]. by rewrite (nth_lookup_Some p _ 0 x Hx). Qed.

Lemma lookup_cyc p n : forall s i, 0 < len p -> (i < n)%nat -> cyc p s n !! i = p !! Z.to_nat ((s + Z.of_nat i) mod len p).
Proof.
  induction n as [|n IH]; intros s [|i] Hp Hi; try lia; cbn [cyc].
  - rewrite Z.add_0_r. symmetry. apply nth_lookup_len. by apply Z.mod_pos_bound.
  - change ((?x :: ?l) !! S i) with (l !! i). rewrite IH by lia. do 3 f_equal. lia.
Qed.

Lemma char_for_ok p more cnt : 0 <= cnt -> 0 < len p -> char_for (p ++ more) (len p) cnt = Ok (nth (Z.to_nat (cnt mod len p)) p 0).
Proof.
  intros Hc Hp. unfold char_for. rewrite (proj2 (Z.eqb_neq (len p) 0)), Z.rem_mod_nonneg by lia. pose proof (Z.mod_pos_bound cnt (len p) Hp).
  apply get_one; [lia|]. rewrite lookup_app_l by (unfold len in *; lia). apply nth_lookup_len. lia.
Qed.

Lemma put_one {E} pre x y post : put (len pre) [y] (pre ++ x :: post) = Ok (E := E) (pre ++ y :: post).
Proof. exact (put_at pre [x] [y] post eq_refl). Qed.

(** A loop that writes one byte after the other. *)
Lemma writes_ok p (loop : nat -> list Z -> Z -> Z -> M (list Z)) :
  (forall buf i cnt, loop 0%nat buf i cnt = Ok buf) ->
  (forall n buf i cnt, 0 <= cnt -> cnt < INT_MAX -> loop (S n) buf i cnt = buf ← put i [nth (Z.to_nat (cnt mod len p)) p 0] buf; loop n buf (i + 1) (cnt + 1)) ->
  forall n pre rest cnt, 0 <= cnt -> cnt + Z.of_nat n <= INT_MAX -> Z.of_nat n <= len rest ->
  loop n (pre ++ rest) (len pre) cnt = Ok (pre ++ cyc p cnt n ++ drop n rest).
Proof.
  intros H0 HS. induction n as [|n IH]; intros pre rest cnt Hc Hm Hl; [rewrite H0; by cbn; rewrite drop_0|]. rewrite HS by lia.
  destruct rest as [|x rest]; [unfold len in Hl; cbn in Hl; lia|]. rewrite put_one. cbn [mbind res_bind cyc drop]. set (y := nth _ p 0).
  specialize (IH (pre ++ [y]) rest (cnt + 1)). rewrite <-!app_assoc, len_app in IH. cbn [app] in IH. apply IH; [lia|lia|]. unfold len in *. cbn [length] in Hl. lia.
Qed.

(** Where two buffers differ first. *)
Fixpoint mismatch (off : Z) (a b : list Z) : Z :=
  match a, b with x :: a, y :: b => if x =? y then mismatch (off + 1) a b else off | _, _ => -1 end.

Lemma mismatch_spec a : forall b off, length a = length b ->
  (mismatch off a b = -1 /\ a = b) \/ exists i, mismatch off a b = off + Z.of_nat i /\ (i < length a)%nat /\ take i a = take i b /\ a !! i <> b !! i.
Proof.
  induction a as [|x a IH]; intros [|y b] off Hl; cbn in Hl; try lia; [by left|]. cbn [mismatch]. destruct (Z.eqb_spec x y) as [->|Hne].
  - destruct (IH b (off + 1) ltac:(lia)) as [[E ->]|(i & E & Hi & Ht & Hd)]; [by left|right]. exists (S i). split_and!; [lia|cbn; lia|cbn; by f_equal|done].
  - right. exists 0%nat. split_and!; [lia|cbn; lia|done|cbn; congruence].
Qed.
Lemma mismatch_refl a : forall off, mismatch off a a = -1.
Proof. induction a as [|x a IH]; intros off; cbn; [done|]. by rewrite Z.eqb_refl. Qed.

(** A loop that compares one byte after the other. *)
Lemma reads_ok p (loop : nat -> list Z -> Z -> Z -> M Z) buf :
  (forall i cnt, loop 0%nat buf i cnt = Ok (-1)) ->
  (forall n i cnt b, 0 <= i -> 0 <= cnt -> cnt < INT_MAX -> buf !! Z.to_nat i = Some b ->
     loop (S n) buf i cnt = if b =? nth (Z.to_nat (cnt mod len p)) p 0 then loop n buf (i + 1) (cnt + 1) else Ok cnt) ->
  forall n i cnt, 0 <= i -> 0 <= cnt -> cnt + Z.of_nat n <= INT_MAX -> i + Z.of_nat n <= len buf ->
  loop n buf i cnt = Ok (mismatch cnt (take n (drop (Z.to_nat i) buf)) (cyc p cnt n)).
Proof.
  intros H0 HS. induction n as [|n IH]; intros i cnt Hi Hc Hm Hl; [by rewrite H0|].
  destruct (lookup_lt_is_Some_2 buf (Z.to_nat i)) as [b Hb]; [unfold len in Hl; lia|]. rewrite (HS n i cnt b) by (done || lia).
  rewrite (drop_S buf b) by done. cbn [take cyc mismatch]. destruct (b =? _); [|done]. rewrite IH by lia. by replace (Z.to_nat (i + 1)) with (S (Z.to_nat i)) by lia.
Qed.

Definition bytes (l : list Z) : Prop := Forall (fun b => 0 <= b < 256) l.

Lemma int_op_ok z : 0 <= z <= INT_MAX -> int_op z = Ok z.
Proof. unfold int_op, in_int, INT_MIN. intros H. by rewrite (proj2 (Z.leb_le _ z)), (proj2 (Z.leb_le z _)) by lia. Qed.

Lemma charlist_ok l : exists more, charlist l = (period (Ascii l) ++ more, len (period (Ascii l))).
Proof. destruct l as [l|]; [by exists [0]|exists []; by rewrite app_nil_r]. Qed.

Lemma counting_ok offset i : 0 <= offset + i <= INT_MAX -> counting offset i = Ok (nth (Z.to_nat ((offset + i) mod 8)) [0; 1; 2; 3; 4; 5; 6; 7] 0).
Proof.
  intros H. unfold counting. rewrite int_op_ok by done. cbn [mbind res_bind]. rewrite Z.rem_mod_nonneg by lia. f_equal.
  pose proof (Z.mod_pos_bound (offset + i) 8 ltac:(lia)) as Hb. generalize dependent ((offset + i) mod 8). intros z Hz.
  assert (z = 0 \/ z = 1 \/ z = 2 \/ z = 3 \/ z = 4 \/ z = 5 \/ z = 6 \/ z = 7) as Hc by lia. by repeat destruct Hc as [-> |Hc]; [..|subst z].
Qed.

Lemma cyc_one b n : forall s, cyc [b] s n = replicate n b.
Proof. induction n as [|n IH]; intros s; cbn [cyc replicate]; [done|]. rewrite IH. change (len [b]) with 1. by rewrite Z.mod_1_r. Qed.

Definition ascii_gen_from (l : list Z) (size : Z) (n : nat) (buf : list Z) (i cnt : Z) : M (list Z) := ascii_gen n l size buf i cnt.

Lemma generate_ok k buf bsize offset : kind_ok k -> 0 <= bsize <= len buf -> 0 <= offset -> offset + bsize <= INT_MAX ->
  generate k buf bsize offset = Ok (cyc (period k) offset (Z.to_nat bsize) ++ drop (Z.to_nat bsize) buf).
Proof.
  intros Hk Hb Ho Hm. pose proof (period_pos k Hk) as Hp. destruct k as [l|m]; cbn [generate].
  - unfold dataasciigen. rewrite int_op_ok by lia. cbn [mbind res_bind]. destruct (charlist_ok l) as [more ->]. replace (offset + bsize - offset) with bsize by lia.
    pose proof (writes_ok (period (Ascii l)) (ascii_gen_from (period (Ascii l) ++ more) (len (period (Ascii l))))
      ltac:(done) ltac:(intros; unfold ascii_gen_from; cbn [ascii_gen]; by rewrite char_for_ok by done) (Z.to_nat bsize) [] buf offset Ho ltac:(lia) ltac:(lia)) as H.
    cbn [app] in H. change (len []) with 0 in H. unfold ascii_gen_from in H. by rewrite H.
  - unfold databingen. cbn [kind_ok] in Hk. cbn [period] in *. destruct (Z.eqb_spec m "C"%ch).
    + pose proof (writes_ok [0; 1; 2; 3; 4; 5; 6; 7] (fun n buf i cnt => bin_count n buf (cnt - i) i)) as H. specialize (H ltac:(done)).
      specialize (H ltac:(intros n b i cnt H1 H2; cbn [bin_count]; rewrite counting_ok by lia; cbn [mbind res_bind];
        replace (cnt - i + i) with cnt by lia; replace (cnt + 1 - (i + 1)) with (cnt - i) by lia; done) (Z.to_nat bsize) [] buf offset ltac:(lia) ltac:(lia) ltac:(lia)).
      cbn [app] in H. change (len []) with 0 in H. by rewrite Z.sub_0_r in H.
    + rewrite (proj2 (Z.eqb_neq m _) Hk), cyc_one. rewrite <-(take_drop (Z.to_nat bsize) buf) at 1. apply (put_at []).
      unfold len in *. rewrite length_replicate, length_take. lia.
Qed.

Lemma digit_range z : 0 <= z < 8 -> 0 <= nth (Z.to_nat z) [0; 1; 2; 3; 4; 5; 6; 7] 0 < 8.
Proof.
  intros Hz. assert (z = 0 \/ z = 1 \/ z = 2 \/ z = 3 \/ z = 4 \/ z = 5 \/ z = 6 \/ z = 7) as Hc by lia.
  repeat destruct Hc as [-> |Hc]; subst; zeval.
Qed.

Lemma chk_count_step n buf i cnt b : 0 <= i -> 0 <= cnt -> cnt < INT_MAX -> bytes buf -> buf !! Z.to_nat i = Some b ->
  bin_chk_count (S n) buf (cnt - i) i = if b =? nth (Z.to_nat (cnt mod len [0; 1; 2; 3; 4; 5; 6; 7])) [0; 1; 2; 3; 4; 5; 6; 7] 0
    then bin_chk_count n buf (cnt + 1 - (i + 1)) (i + 1) else Ok cnt.
Proof.
  intros Hi H1 H2 Hbytes Hx. cbn [bin_chk_count]. rewrite counting_ok by lia. cbn [mbind res_bind]. rewrite (get_one i buf b Hi Hx). cbn [mbind res_bind].
  replace (cnt - i + i) with cnt by lia. replace (cnt + 1 - (i + 1)) with (cnt - i) by lia. change (len [0; 1; 2; 3; 4; 5; 6; 7]) with 8.
  rewrite int_op_ok by lia. pose proof (digit_range (cnt mod 8) (Z.mod_pos_bound cnt 8 ltac:(lia))) as Hy. set (y := nth _ _ 0) in *. clearbody y.
  assert (Hbb : 0 <= b < 256) by (apply (proj1 (Forall_lookup _ _) Hbytes _ _ Hx)).
  replace (wrap_s 8 b =? y) with (b =? y); [done|]. unfold wrap_s. change (2 ^ (8 - 1)) with 128. change (2 ^ 8) with 256.
  destruct (Z.eqb_spec b y), (Z.eqb_spec ((b + 128) mod 256 - 128) y); Z.to_euclidean_division_equations; (done || lia).
Qed.

Lemma check_kind_ok k buf bsize offset : kind_ok k -> bytes buf -> 0 <= bsize <= len buf -> 0 <= offset -> offset + bsize <= INT_MAX ->
  check k buf bsize offset = Ok (mismatch offset (take (Z.to_nat bsize) buf) (cyc (period k) offset (Z.to_nat bsize))).
Proof.
  intros Hk Hbytes Hb Ho Hm. pose proof (period_pos k Hk) as Hp. destruct k as [l|m]; cbn [check].
  - unfold dataasciichk. rewrite int_op_ok by lia. cbn [mbind res_bind]. destruct (charlist_ok l) as [more ->]. replace (offset + bsize - offset) with bsize by lia.
    pose proof (reads_ok (period (Ascii l)) (fun n buf i cnt => ascii_chk n (period (Ascii l) ++ more) (len (period (Ascii l))) buf i cnt) buf ltac:(done)) as H.
    specialize (H ltac:(intros n i cnt b Hi H1 H2 Hx; cbn [ascii_chk]; rewrite char_for_ok by done; cbn [mbind res_bind]; by rewrite (get_one i buf b Hi Hx))
      (Z.to_nat bsize) 0 offset ltac:(lia) ltac:(lia) ltac:(lia) ltac:(lia)). by rewrite drop_0 in H.
  - unfold databinchk. cbn [kind_ok] in Hk. cbn [period] in *. destruct (Z.eqb_spec m "C"%ch).
    + pose proof (reads_ok [0; 1; 2; 3; 4; 5; 6; 7] (fun n buf i cnt => bin_chk_count n buf (cnt - i) i) buf) as H. specialize (H ltac:(done)).
      specialize (H (fun n i cnt b Hi H1 H2 Hx => chk_count_step n buf i cnt b Hi H1 H2 Hbytes Hx) (Z.to_nat bsize) 0 offset ltac:(lia) ltac:(lia) ltac:(lia) ltac:(lia)). cbn [app] in H. by rewrite Z.sub_0_r, drop_0 in H.
    + rewrite (proj2 (Z.eqb_neq m _) Hk).
      pose proof (reads_ok [fixed_byte m] (fun n buf i cnt => bin_chk n (fixed_byte m) buf (cnt - i) i) buf ltac:(done)) as H.
      specialize (H ltac:(intros k i cnt b Hi H1 H2 Hx; cbn [bin_chk]; rewrite (get_one i buf b Hi Hx); cbn [mbind res_bind];
        replace (cnt - i + i) with cnt by lia; replace (cnt + 1 - (i + 1)) with (cnt - i) by lia; change (len [fixed_byte m]) with 1; rewrite Z.mod_1_r, int_op_ok by lia; done)
        (Z.to_nat bsize) 0 offset ltac:(lia) ltac:(lia) ltac:(lia) ltac:(lia)). cbv beta in H. by rewrite Z.sub_0_r, drop_0 in H.
Qed.

(** ** Tokens *)
Lemma string_token_loop_ok sep n : forall s room arr, exists ts, tokens_of sep s ts /\
  ((length ts < n)%nat -> (length arr + length ts < room)%nat -> string_token_loop n sep s room arr = Ok (arr ++ (Some <$> ts) ++ [None], false)) /\
  ((n <= length ts)%nat -> (length arr + n <= room)%nat -> string_token_loop n sep s room arr = Ok (arr ++ (Some <$> take n ts), true)).
Proof.
  induction n as [|n IH]; intros s room arr.
  { pose proof (strtoks_spec sep s) as Hts. exists (strtoks sep s). split_and!; [done|lia|]. intros. cbn. by rewrite app_nil_r. }
  cbn [string_token_loop]. destruct (strtok sep s) as [[tok rest]|] eqn:E.
  - destruct (IH rest room (arr ++ [Some tok])) as (ts & Hts & H1 & H2). exists (tok :: ts). rewrite length_app in H1, H2. cbn [length] in *. split_and!; [by eapply tokens_step| |].
    + intros Hn Hr. rewrite (proj2 (Nat.ltb_lt _ _)), H1, <-app_assoc by lia. done.
    + intros Hn Hr. rewrite (proj2 (Nat.ltb_lt _ _)), H2, <-app_assoc by lia. done.
  - exists []. cbn [length]. split_and!; [|intros Hn Hr; by rewrite (proj2 (Nat.ltb_lt _ _)) by lia|lia]. constructor. pose proof (strtok_cases sep s) as H. by rewrite E in H.
Qed.

(** ** Properties *)

(** C40: Pattern buffers.  [pattern_fill] ends and writes at every position the
    byte of the pattern that belongs there, for every shift, and nothing else;
    [pattern_check] ends, and returns 0 exactly for buffers that hold what
    [pattern_fill] writes. *)
Theorem pattern_correct fuel buf buflen pat patlen patshift : 0 < patlen <= len pat -> 0 <= patshift -> 0 <= buflen <= len buf -> buflen < Z.of_nat fuel ->
  exists buf', pattern_fill fuel buf buflen pat patlen patshift = Ok buf' /\ length buf' = length buf /\
    (forall i, 0 <= i < buflen -> buf' !! Z.to_nat i = pat !! Z.to_nat ((patshift + i) mod patlen)) /\
    (forall i, buflen <= i -> buf' !! Z.to_nat i = buf !! Z.to_nat i) /\
    (forall c, buflen <= len c -> pattern_check fuel c buflen pat patlen patshift =
       Ok (if bool_decide (take (Z.to_nat buflen) c = take (Z.to_nat buflen) buf') then 0 else -1)).
Proof.
  intros Hp Hs Hb Hf. exists (cyc (take (Z.to_nat patlen) pat) patshift (Z.to_nat buflen) ++ drop (Z.to_nat buflen) buf).
  pose proof (len_P pat patlen Hp) as Lp. split; [by apply fill_ok|]. split_and!.
  - rewrite length_app, length_cyc, length_drop. unfold len in Hb. lia.
  - intros i Hi. rewrite lookup_app_l by (rewrite length_cyc; lia).
    rewrite lookup_cyc, Z2Nat.id, Lp by (rewrite ?Lp; lia). pose proof (Z.mod_pos_bound (patshift + i) patlen ltac:(lia)). apply lookup_take_lt. lia.
  - intros i Hi. rewrite lookup_app_r by (rewrite length_cyc; lia). rewrite length_cyc, lookup_drop. f_equal. lia.
  - intros c Hc. rewrite check_ok by (done || lia). unfold expected. rewrite take_app_le, (firstn_all2 (cyc _ _ _)) by (rewrite length_cyc; lia). done.
Qed.

(** C17: data for files.  What the generators write (any list of characters, all
    the binary patterns but the random one) passes the check, also when it is
    checked in other pieces than it was written in.  For any buffer the check
    returns -1 exactly when it holds this data, and otherwise the position in
    the file of the first byte that differs. *)
Theorem file_data_correct k buf bsize offset : kind_ok k -> bytes buf -> bytes (period k) -> 0 <= bsize <= len buf -> 0 <= offset -> offset + bsize <= INT_MAX ->
  exists buf', generate k buf bsize offset = Ok buf' /\ drop (Z.to_nat bsize) buf' = drop (Z.to_nat bsize) buf /\
    (forall a n, 0 <= a -> 0 <= n -> a + n <= bsize -> check k (drop (Z.to_nat a) buf') n (offset + a) = Ok (-1)) /\
    (forall c, bytes c -> bsize <= len c ->
       (check k c bsize offset = Ok (-1) /\ take (Z.to_nat bsize) c = take (Z.to_nat bsize) buf') \/
       exists i, (i < Z.to_nat bsize)%nat /\ check k c bsize offset = Ok (offset + Z.of_nat i) /\ take i c = take i buf' /\ c !! i <> buf' !! i).
Proof.
  intros Hk Hbuf Hper Hb Ho Hm. pose proof (period_pos k Hk) as Hp. set (data := cyc (period k) offset (Z.to_nat bsize)).
  exists (data ++ drop (Z.to_nat bsize) buf). assert (Ld : length data = Z.to_nat bsize) by apply length_cyc.
  assert (Hbd : bytes data).
  { apply Forall_lookup. intros i x Hx. pose proof (lookup_lt_Some _ _ _ Hx) as Hi. unfold data in Hx. rewrite lookup_cyc in Hx by lia.
    exact (proj1 (Forall_lookup _ _) Hper _ _ Hx). }
  split; [by apply generate_ok|]. split; [rewrite drop_app_ge by lia; by rewrite Ld, Nat.sub_diag, drop_0|]. split.
  - intros a n Ha Hn Han. rewrite check_kind_ok; [|done| |unfold len; rewrite length_drop, length_app, length_drop; unfold len in Hb; lia|lia|lia].
    + rewrite <-(mismatch_refl (cyc (period k) (offset + a) (Z.to_nat n)) (offset + a)). do 2 f_equal. rewrite drop_app_le by lia.
      rewrite take_app_le by (rewrite length_drop; lia). unfold data. rewrite cyc_drop, cyc_take by lia. by rewrite Z2Nat.id by lia.
    + apply Forall_drop, Forall_app. split; [done|]. by apply Forall_drop.
  - intros c Hc Hl. rewrite check_kind_ok by (done || lia). fold data. rewrite take_app_le, (firstn_all2 data) by lia.
    destruct (mismatch_spec (take (Z.to_nat bsize) c) data offset) as [[-> E]|(i & -> & Hi & Ht & Hd)]; [rewrite length_take, Ld; unfold len in Hl; lia|by left|right].
    rewrite length_take in Hi. exists i. split; [lia|]. split; [done|]. rewrite take_take, Nat.min_l in Ht by lia. rewrite lookup_take_lt in Hd by lia.
    rewrite take_app_le, lookup_app_l by lia. done.
Qed.

(** [string_to_tokens].  The array holds the tokens of the string and then
    NULL when there are fewer tokens than [array_size].  With as many or more,
    [array_size] tokens are stored and the NULL behind them, which an array of
    [array_size] elements has no room for. *)
Theorem string_to_tokens_correct s room array_size seps : 2 <= array_size <= Z.of_nat room ->
  let sep c := bool_decide (c ∈ seps) in
  exists ts, tokens_of sep s ts /\
    let n := Z.of_nat (length ts) in
    string_to_tokens s room array_size (Some seps) =
      if n <? array_size then Ok ((Some <$> ts) ++ [None], n)
      else if array_size <? Z.of_nat room then Ok ((Some <$> take (Z.to_nat array_size) ts) ++ [None], array_size)
      else Fault.
Proof.
  intros Hs sep. unfold string_to_tokens. rewrite (proj2 (Z.leb_gt array_size 1)) by lia. fold sep. destruct (strtok sep s) as [[tok rest]|] eqn:E.
  - destruct (string_token_loop_ok sep (Z.to_nat (array_size - 1)) rest room [Some tok]) as (ts & Hts & H1 & H2). exists (tok :: ts). split; [by eapply tokens_step|].
    cbn zeta. rewrite (proj2 (Nat.ltb_lt 0 room)) by lia. cbn [length] in *. destruct (Z.ltb_spec (Z.of_nat (S (length ts))) array_size).
    + rewrite H1 by lia. cbn [mbind res_bind]. rewrite !length_app, length_fmap. cbn [length fmap list_fmap app]. do 2 f_equal. lia.
    + rewrite H2 by lia. cbn [mbind res_bind]. rewrite length_app, length_fmap, length_take. cbn [length]. rewrite Nat.min_l by lia.
      replace (Z.to_nat array_size) with (S (Z.to_nat (array_size - 1))) by lia. cbn [take fmap list_fmap app].
      destruct (Z.ltb_spec array_size (Z.of_nat room)).
      * rewrite (proj2 (Nat.ltb_lt _ _)) by lia. do 2 f_equal. lia.
      * rewrite (proj2 (Nat.ltb_ge _ _)) by lia. done.
  - exists []. split; [constructor; pose proof (strtok_cases sep s) as H; by rewrite E in H|]. cbn zeta. cbn [length].
    rewrite (proj2 (Nat.ltb_lt 0 room)), (proj2 (Z.ltb_lt (Z.of_nat 0) array_size)) by lia. done.
Qed.

Lemma pattern_correct_witness : exists buf', pattern_fill 11 (zeros 12) 10 [1; 2; 3] 3 4 = Ok buf' /\ length buf' = 12%nat.
Proof.
  destruct (pattern_correct 11 (zeros 12) 10 [1; 2; 3] 3 4 ltac:(done) ltac:(done) ltac:(done) ltac:(done)) as (buf' & H & Hl & _).
  exists buf'. split; [exact H|]. by rewrite Hl.
Defined.

Lemma file_data_correct_witness : exists buf', generate (Ascii (Some (str "abc"))) (zeros 6) 5 7 = Ok buf'
  /\ check (Ascii (Some (str "abc"))) (drop 2 buf') 3 9 = Ok (-1).
Proof.
  destruct (file_data_correct (Ascii (Some (str "abc"))) (zeros 6) 5 7) as (buf' & H & _ & Hc & _);
    [done|by repeat constructor|by repeat constructor|done|done|done|].
  exists buf'. split; [exact H|]. exact (Hc 2 3 ltac:(done) ltac:(done) ltac:(done)).
Defined.

Lemma string_to_tokens_correct_witness : exists ts, tokens_of (fun c => bool_decide (c ∈ str ",")) (str "a,b") ts.
Proof. destruct (string_to_tokens_correct (str "a,b") 4 4 (str ",") ltac:(done)) as (ts & H & _). exists ts. exact H. Defined.
