(* ===== verification/Cgroup.v ===== *)
(** * Control groups: [lib/tst_cgroup.c]

    The library finds the mounted hierarchies of control groups, mounts what is
    missing, makes directories for a test in each of them, and hides behind
    [struct tst_cg_group] that there are several.  Everything it knows of the
    kernel comes from system calls.  A kernel is any function from the calls
    made so far (the newest first) to the answer of the newest one; the calls
    are kept in [trace].  A file that is opened, read or written and closed is
    one call.  [tst_brk] ends the program ([Err], with the state it leaves);
    messages are left out. *)

From stdpp Require Import base list strings.
From Stdlib Require Import ZArith Lia.
From S2P Require Import Prelude ParseNum Tokens.

Local Open Scope Z_scope.

Definition PATH_MAX : Z := 4096.
Definition NAME_MAX : Z := 255.
Definition BUFSIZ : Z := 8192.
Definition ENOENT : Z := 2.
Definition EACCES : Z := 13.
Definition EEXIST : Z := 17.

Definition slen (s : cstr) : Z := Z.of_nat (length s).

(** ** The kernel *)
Inductive call : Set :=
| C_mounts
| C_open (path : cstr) | C_mkdir (path : cstr) | C_rmdir (path : cstr)
| C_mount (source path fstype : cstr) (opts : option cstr) | C_umount (path : cstr)
| C_mkdirat (fd : Z) (name : cstr) | C_openat (fd : Z) (name : cstr) | C_unlinkat (fd : Z) (name : cstr)
| C_access (fd : Z) (name : cstr) | C_chown (fd : Z) (name : cstr) (owner group : Z)
| C_read (fd : Z) (name : cstr) | C_write (fd : Z) (name text : cstr)
| C_dprintf (fd : Z) (text : cstr) | C_close (fd : Z).

Record mntent : Set := mkMnt { m_type : cstr; m_dir : cstr; m_opts : cstr }.

(** A number that is negative for an error, the contents of a file that could
    be read, the entries of [/proc/self/mounts]. *)
Record kernel : Set := mkKernel {
  k_ret : list call -> Z;
  k_text : list call -> option cstr;
  k_mounts : list call -> option (list mntent)
}.

(** ** Data *)
Definition TST_CG_V1 : Z := 1.
Definition TST_CG_V2 : Z := 2.

(** The buffers [dir_name] may point to: [mnt_path] of the root, the two
    constants, the static [cgroup_test_dir], the name of a group. *)
Inductive dname : Set := DMnt | DLtp | DDrain | DTest | DGroup (name : cstr).
Inductive which : Set := Mnt | Ltp | Drain | Test.
(** Pointers to a [struct cgroup_dir]: inside a root, or from [malloc]. *)
Inductive dptr : Set := PRoot (i : nat) (w : which) | PHeap (n : nat).

Record cgroup_dir : Set := mkDir {
  dir_name : option dname; dir_parent : option dptr; dir_root : nat; dir_ctrls : Z; dir_fd : Z; dir_created : bool
}.
Record cgroup_root : Set := mkRoot {
  ver : Z; mnt_path : cstr; root_ctrls : Z;
  mnt_dir : cgroup_dir; ltp_dir : cgroup_dir; drain_dir : cgroup_dir; test_dir : cgroup_dir;
  we_mounted_it : bool; no_cpuset_prefix : bool
}.
Definition no_dir : cgroup_dir := mkDir None None 0 0 0 false.
Definition no_root : cgroup_root := mkRoot 0 [] 0 no_dir no_dir no_dir no_dir false false.

Definition CTRL_MEMORY : nat := 1.
Definition CTRL_CPU : nat := 2.
Definition CTRL_CPUSET : nat := 3.
Definition CTRL_IO : nat := 4.
Definition CTRL_PIDS : nat := 5.
Definition CTRL_BLKIO : nat := 12.
Definition CTRL_BASE : nat := 17.
Definition ROOTS_MAX : nat := 18.
Definition ctrl_names : list cstr :=
  str <$> ["cgroup"; "memory"; "cpu"; "cpuset"; "io"; "pids"; "hugetlb"; "cpuacct"; "devices"; "freezer"; "net_cls"; "net_prio";
           "blkio"; "misc"; "perf_event"; "debug"; "rdma"; "base"]%string.

(** The files of the controllers: name, name on version 1, controller. *)
Definition cgroup_file : Set := cstr * option cstr * nat.
Definition file (name : string) (v1 : option string) (c : nat) : cgroup_file := (str name, str <$> v1, c).
Definition cgroup_ctrl_files : list cgroup_file :=
  [file "cgroup.procs" (Some "tasks"%string) 0; file "cgroup.controllers" None 0; file "cgroup.subtree_control" None 0;
   file "cgroup.clone_children" (Some "cgroup.clone_children"%string) 0; file "cgroup.kill" None 0].
Definition memory_ctrl_files : list cgroup_file :=
  [file "memory.current" (Some "memory.usage_in_bytes"%string) CTRL_MEMORY; file "memory.events" None CTRL_MEMORY;
   file "memory.low" None CTRL_MEMORY; file "memory.min" None CTRL_MEMORY; file "memory.max" (Some "memory.limit_in_bytes"%string) CTRL_MEMORY;
   file "memory.stat" (Some "memory.stat"%string) CTRL_MEMORY; file "memory.swappiness" (Some "memory.swappiness"%string) CTRL_MEMORY;
   file "memory.swap.current" (Some "memory.memsw.usage_in_bytes"%string) CTRL_MEMORY;
   file "memory.swap.max" (Some "memory.memsw.limit_in_bytes"%string) CTRL_MEMORY;
   file "memory.kmem.usage_in_bytes" (Some "memory.kmem.usage_in_bytes"%string) CTRL_MEMORY;
   file "memory.kmem.limit_in_bytes" (Some "memory.kmem.limit_in_bytes"%string) CTRL_MEMORY].
Definition cpu_ctrl_files : list cgroup_file :=
  [file "cpu.max" (Some "cpu.cfs_quota_us"%string) CTRL_CPU; file "cpu.cfs_period_us" (Some "cpu.cfs_period_us"%string) CTRL_CPU].
Definition cpuset_ctrl_files : list cgroup_file :=
  [file "cpuset.cpus" (Some "cpuset.cpus"%string) CTRL_CPUSET; file "cpuset.mems" (Some "cpuset.mems"%string) CTRL_CPUSET;
   file "cpuset.memory_migrate" (Some "cpuset.memory_migrate"%string) CTRL_CPUSET].
Definition io_ctrl_files : list cgroup_file := [file "io.stat" None CTRL_IO].
Definition pids_ctrl_files : list cgroup_file :=
  [file "pids.max" (Some "pids.max"%string) CTRL_PIDS; file "pids.current" (Some "pids.current"%string) CTRL_PIDS].
(** The other controllers have no files. *)
Definition files_of (c : nat) : list cgroup_file :=
  match c with
  | 0%nat => cgroup_ctrl_files | 1%nat => memory_ctrl_files | 2%nat => cpu_ctrl_files | 3%nat => cpuset_ctrl_files
  | 4%nat => io_ctrl_files | 5%nat => pids_ctrl_files | _ => []
  end.

(** [dirs] without the NULLs at its end. *)
Record tst_cg_group : Set := mkGroup { group_name : cstr; dirs_by_ctrl : list (option dptr); dirs : list dptr }.
Definition no_group : tst_cg_group := mkGroup [] (replicate ROOTS_MAX None) [].

(** The static variables; [ctrls]: [ctrl_root] and [we_require_it] of each
    controller; [heap]: the directories from [malloc], [None] when freed. *)
Record cg : Set := mkCg {
  roots : list cgroup_root; ctrls : list (option nat * bool); cgroup_test_dir : cstr; heap : list (option cgroup_dir);
  test_group : tst_cg_group; drain_group : tst_cg_group; trace : list call
}.
Definition initial : cg :=
  mkCg (replicate (S ROOTS_MAX) no_root) (replicate 18 (None, false)) [] [] no_group no_group [].

Definition with_roots (x : list cgroup_root) (s : cg) : cg := mkCg x (ctrls s) (cgroup_test_dir s) (heap s) (test_group s) (drain_group s) (trace s).
Definition with_ctrls (x : list (option nat * bool)) (s : cg) : cg := mkCg (roots s) x (cgroup_test_dir s) (heap s) (test_group s) (drain_group s) (trace s).
Definition with_test_dir (x : cstr) (s : cg) : cg := mkCg (roots s) (ctrls s) x (heap s) (test_group s) (drain_group s) (trace s).
Definition with_heap (x : list (option cgroup_dir)) (s : cg) : cg := mkCg (roots s) (ctrls s) (cgroup_test_dir s) x (test_group s) (drain_group s) (trace s).
Definition with_group (test : bool) (x : tst_cg_group) (s : cg) : cg :=
  if test then mkCg (roots s) (ctrls s) (cgroup_test_dir s) (heap s) x (drain_group s) (trace s)
  else mkCg (roots s) (ctrls s) (cgroup_test_dir s) (heap s) (test_group s) x (trace s).
Definition with_trace (x : list call) (s : cg) : cg := mkCg (roots s) (ctrls s) (cgroup_test_dir s) (heap s) (test_group s) (drain_group s) x.

Definition dir_of (w : which) (r : cgroup_root) : cgroup_dir :=
  match w with Mnt => mnt_dir r | Ltp => ltp_dir r | Drain => drain_dir r | Test => test_dir r end.
Definition set_dir (w : which) (d : cgroup_dir) (r : cgroup_root) : cgroup_root :=
  match w with
  | Mnt => mkRoot (ver r) (mnt_path r) (root_ctrls r) d (ltp_dir r) (drain_dir r) (test_dir r) (we_mounted_it r) (no_cpuset_prefix r)
  | Ltp => mkRoot (ver r) (mnt_path r) (root_ctrls r) (mnt_dir r) d (drain_dir r) (test_dir r) (we_mounted_it r) (no_cpuset_prefix r)
  | Drain => mkRoot (ver r) (mnt_path r) (root_ctrls r) (mnt_dir r) (ltp_dir r) d (test_dir r) (we_mounted_it r) (no_cpuset_prefix r)
  | Test => mkRoot (ver r) (mnt_path r) (root_ctrls r) (mnt_dir r) (ltp_dir r) (drain_dir r) d (we_mounted_it r) (no_cpuset_prefix r)
  end.
Definition set_mounted (b : bool) (r : cgroup_root) : cgroup_root :=
  mkRoot (ver r) (mnt_path r) (root_ctrls r) (mnt_dir r) (ltp_dir r) (drain_dir r) (test_dir r) b (no_cpuset_prefix r).
Definition set_created (b : bool) (d : cgroup_dir) : cgroup_dir := mkDir (dir_name d) (dir_parent d) (dir_root d) (dir_ctrls d) (dir_fd d) b.
Definition set_fd (fd : Z) (d : cgroup_dir) : cgroup_dir := mkDir (dir_name d) (dir_parent d) (dir_root d) (dir_ctrls d) fd (dir_created d).
Definition set_dir_ctrls (c : Z) (d : cgroup_dir) : cgroup_dir := mkDir (dir_name d) (dir_parent d) (dir_root d) c (dir_fd d) (dir_created d).

Definition has_ctrl (field : Z) (c : nat) : bool := negb (Z.land field (Z.shiftl 1 (Z.of_nat c)) =? 0).
Definition add_ctrl (field : Z) (c : nat) : Z := Z.lor field (Z.shiftl 1 (Z.of_nat c)).

(** ** Programs *)
Definition C (A : Type) : Type := cg -> res (Z * cg) (A * cg).
#[export] Instance C_ret : MRet C := fun A a s => Ok (a, s).
#[export] Instance C_bind : MBind C := fun A B k m s => match m s with Ok (a, s') => k a s' | Err e => Err e | Fault => Fault end.

Definition tst_brk {A} (ttype : Z) : C A := fun s => Err (ttype, s).
Definition fault {A} : C A := fun _ => Fault.
Definition deref {A} (o : option A) : C A := match o with Some a => mret a | None => fault end.
Definition get : C cg := fun s => Ok (s, s).
Definition update (f : cg -> cg) : C unit := fun s => Ok (tt, f s).
Definition when (b : bool) (m : C unit) : C unit := if b then m else mret tt.
Fixpoint each {A} (l : list A) (f : A -> C unit) : C unit :=
  match l with [] => mret tt | x :: l => _ ← f x; each l f end.

Definition find_index {A} (p : A -> bool) (l : list A) : option nat :=
  (fix go l i := match l with [] => None | x :: l => if p x then Some i else go l (S i) end) l 0%nat.
Definition cgroup_find_ctrl (name : cstr) : option nat := find_index (streq name) ctrl_names.
Definition ctrl_name (c : nat) : cstr := nth c ctrl_names [].

(** Roots, controllers and directories. *)
Definition root_at (i : nat) : C cgroup_root := s ← get; deref (roots s !! i).
Definition set_root (i : nat) (f : cgroup_root -> cgroup_root) : C unit := r ← root_at i; update (fun s => with_roots (<[i := f r]> (roots s)) s).
Definition ctrl_root (c : nat) : C (option nat) := s ← get; x ← deref (ctrls s !! c); mret (fst x).
Definition set_ctrl (c : nat) (f : option nat * bool -> option nat * bool) : C unit :=
  s ← get; x ← deref (ctrls s !! c); update (with_ctrls (<[c := f x]> (ctrls s))).
Definition dir_at (p : dptr) : C cgroup_dir :=
  match p with
  | PRoot i w => r ← root_at i; mret (dir_of w r)
  | PHeap n => s ← get; o ← deref (heap s !! n); deref o
  end.
Definition set_dir_at (p : dptr) (d : cgroup_dir) : C unit :=
  match p with
  | PRoot i w => set_root i (set_dir w d)
  | PHeap n => _ ← dir_at p; update (fun s => with_heap (<[n := Some d]> (heap s)) s)
  end.

(** The indices of the roots up to the first without a version. *)
Fixpoint live (rs : list cgroup_root) (i : nat) : option (list nat) :=
  match rs with
  | [] => None
  | r :: rs => if ver r =? 0 then Some [] else cons i <$> live rs (S i)
  end.
Definition cgroup_v2_mounted : C bool := r ← root_at 0; mret (negb (ver r =? 0)).
Definition cgroup_v1_mounted : C bool := r ← root_at 1; mret (negb (ver r =? 0)).
Definition cgroup_mounted : C bool := v2 ← cgroup_v2_mounted; if v2 : bool then mret true else cgroup_v1_mounted.
Definition all_roots : C (list nat) :=
  v2 ← cgroup_v2_mounted; let i := if v2 : bool then 0%nat else 1%nat in s ← get; deref (live (drop i (roots s)) i).
Definition cgroup_ctrl_on_v2 (c : nat) : C bool :=
  i ← ctrl_root c; match i with None => mret false | Some i => r ← root_at i; mret (ver r =? TST_CG_V2) end.
Definition all_ctrls : list nat := seq 0 18.

Section Kernel.
Context (k : kernel) (tmpdir : cstr) (pid : Z).

(** ** System calls and [tst_safe_file_at.c] *)
Definition sys (c : call) : C Z := fun s => let t := c :: trace s in Ok (k_ret k t, with_trace t s).
Definition sys_text (c : call) : C (option cstr) := fun s => let t := c :: trace s in Ok (k_text k t, with_trace t s).
Definition sys_mounts : C (option (list mntent)) := fun s => let t := C_mounts :: trace s in Ok (k_mounts k t, with_trace t s).
(** A call that must not fail. *)
Definition safe (c : call) : C Z := r ← sys c; if r <? 0 then tst_brk TBROK else mret r.
Definition safe_ (c : call) : C unit := _ ← safe c; mret tt.
Definition safe_file_readat (fd : Z) (name : cstr) (nbyte : Z) : C cstr :=
  t ← sys_text (C_read fd name);
  match t with None => tst_brk TBROK | Some t => if nbyte - 1 <=? slen t then tst_brk TBROK else mret t end.

(** [dir_name], when it is not NULL. *)
Definition name_of (root : nat) (n : dname) : C cstr :=
  match n with
  | DMnt => r ← root_at root; mret (mnt_path r)
  | DLtp => mret (str "ltp")
  | DDrain => mret (str "drain")
  | DTest => s ← get; mret (cgroup_test_dir s)
  | DGroup name => mret name
  end.

Definition cgroup_dir_mk (parent : dptr) (n : dname) (new : dptr) : C unit :=
  p ← dir_at parent;
  d ← dir_at new;
  let d := mkDir (Some n) (Some parent) (dir_root p) (dir_ctrls p) (dir_fd d) false in
  _ ← set_dir_at new d;
  name ← name_of (dir_root p) n;
  r ← sys (C_mkdirat (dir_fd p) name);
  let opendir created := fd ← safe (C_openat (dir_fd p) name); set_dir_at new (set_fd fd (set_created created d)) in
  if r =? 0 then _ ← set_dir_at new (set_created true d); opendir true
  else if r =? - EEXIST then opendir false
  else if r =? - EACCES then tst_brk TCONF
  else tst_brk TBROK.

(** ** Scanning *)
Definition is_char (c x : Z) : bool := x =? c.

(** The controllers named by the tokens. *)
Fixpoint ctrl_set (toks : list cstr) (field : Z) : Z :=
  match toks with
  | [] => field
  | t :: toks => ctrl_set toks (match cgroup_find_ctrl t with Some c => add_ctrl field c | None => field end)
  end.

Definition backref (i : nat) (v : Z) (dir : cstr) (fd field : Z) (no_prefix : bool) : C unit :=
  _ ← (if slen dir <? PATH_MAX then mret tt else fault);
  _ ← set_root i (fun r =>
    let d := mnt_dir r in
    mkRoot v dir field (mkDir (Some DMnt) (dir_parent d) i (dir_ctrls d) fd (dir_created d))
      (ltp_dir r) (drain_dir r) (test_dir r) (we_mounted_it r) no_prefix);
  each all_ctrls (fun c => when (has_ctrl field c) (set_ctrl c (fun x => (Some i, snd x)))).

(** The loop over the roots of version 1: [None] to discard the mount, or the
    first free root. *)
Fixpoint v1_search (field : Z) (rs : list cgroup_root) (i : nat) : C (option nat) :=
  match rs with
  | [] => fault
  | r :: rs =>
      if ver r =? 0 then mret (Some i)
      else if Z.land field (root_ctrls r) =? 0 then v1_search field rs (S i)
      else if field =? root_ctrls r then mret None
      else tst_brk TBROK
  end.

Definition cgroup_root_scan (m : mntent) : C unit :=
  fd ← safe (C_open (m_dir m));
  let discard := _ ← sys (C_close fd); mret tt in
  if negb (streq (m_type m) (str "cgroup")) then
    buf ← safe_file_readat fd (str "cgroup.controllers") BUFSIZ;
    let field := ctrl_set (strtoks (is_char " "%ch) buf) 0 in
    r ← root_at 0;
    if negb (ver r =? 0) && (field =? root_ctrls r) then discard
    else if negb (root_ctrls r =? 0) then tst_brk TBROK
    else backref 0 TST_CG_V2 (m_dir m) fd field false
  else
    let toks := strtoks (is_char ","%ch) (m_opts m) in
    let field := ctrl_set toks 0 in
    let no_prefix := existsb (streq (str "noprefix")) toks in
    if field =? 0 then discard
    else
      s ← get;
      i ← v1_search field (drop 1 (roots s)) 1;
      match i with
      | None => discard
      | Some i => if (ROOTS_MAX <=? i)%nat then tst_brk TBROK else backref i TST_CG_V1 (m_dir m) fd field no_prefix
      end.

Definition tst_cg_scan : C unit :=
  l ← sys_mounts;
  match l with
  | None | Some [] => tst_brk TBROK
  | Some l => each l (fun m => when (strneq 6 (m_type m) (str "cgroup")) (cgroup_root_scan m))
  end.

(** ** Mounting *)
Definition ltp_mount (name : cstr) : C cstr :=
  let p := tmpdir ++ str "/" ++ str "cgroup_" ++ name in
  if slen p <? PATH_MAX then mret p else fault.

(** [mkdir]: whether to go on, and whether the directory was made. *)
Definition mount_dir (path : cstr) : C (option bool) :=
  r ← sys (C_mkdir path);
  if r =? 0 then mret (Some true)
  else if r =? - EEXIST then mret (Some false)
  else if r =? - EACCES then mret None
  else tst_brk TBROK.

Definition cgroup_mount_v2 : C unit :=
  path ← ltp_mount (str "unified");
  made ← mount_dir path;
  match made with
  | None => mret tt
  | Some made =>
      _ ← when made (set_root 0 (fun r => set_dir Mnt (set_created true (mnt_dir r)) r));
      ret ← sys (C_mount (str "cgroup2") path (str "cgroup2") (Some (str "memory_recursiveprot")));
      ret ← (if ret =? - EINVAL then sys (C_mount (str "cgroup2") path (str "cgroup2") None) else mret ret);
      if ret =? 0 then _ ← tst_cg_scan; set_root 0 (set_mounted true)
      else
        r ← root_at 0;
        when (dir_created (mnt_dir r)) (_ ← set_root 0 (fun r => set_dir Mnt (set_created false (mnt_dir r)) r); safe_ (C_rmdir path))
  end.

Definition cgroup_mount_v1 (c : nat) : C unit :=
  io ← ctrl_root CTRL_IO;
  if (c =? CTRL_BLKIO)%nat && bool_decide (io <> None) then mret tt
  else
    path ← ltp_mount (ctrl_name c);
    made ← mount_dir path;
    match made with
    | None => mret tt
    | Some made =>
        ret ← sys (C_mount (ctrl_name c) path (str "cgroup") (Some (ctrl_name c)));
        if ret =? 0 then
          _ ← tst_cg_scan;
          i ← ctrl_root c;
          match i with
          | None => mret tt
          | Some i =>
              _ ← set_root i (fun r => set_dir Mnt (set_created made (mnt_dir r)) (set_mounted true r));
              r ← root_at i;
              when (c =? CTRL_MEMORY)%nat (safe_ (C_write (dir_fd (mnt_dir r)) (str "memory.use_hierarchy") (dec 1)))
          end
        else when made (safe_ (C_rmdir path))
    end.

Definition cgroup_copy_cpuset (i : nat) : C unit :=
  r ← root_at i;
  each (if no_cpuset_prefix r then [str "mems"; str "cpus"] else [str "cpuset.mems"; str "cpuset.cpus"])
    (fun name => v ← safe_file_readat (dir_fd (mnt_dir r)) name BUFSIZ; safe_ (C_write (dir_fd (ltp_dir r)) name v)).

(** ** Requiring a controller *)
Definition have_root (c : nat) : C bool := i ← ctrl_root c; mret (bool_decide (i <> None)).

Definition cgroup_find_hierarchy (c : nat) (base : bool) (needs_ver : Z) : C unit :=
  found ← have_root c;
  when (negb found) (
    _ ← tst_cg_scan;
    found ← have_root c;
    when (negb found) (
      v2 ← cgroup_v2_mounted;
      _ ← when (negb v2 && negb (needs_ver =? TST_CG_V1)) cgroup_mount_v2;
      found ← have_root c;
      when (negb found) (
        _ ← when (negb (needs_ver =? TST_CG_V2)) (cgroup_mount_v1 c);
        _ ← when base (set_ctrl c (fun x => (Some 0%nat, snd x)));
        found ← have_root c;
        when (negb found) (tst_brk TCONF)))).

Definition subtree_control : cstr := str "cgroup.subtree_control".

Definition cgroup_mkdirs (c : nat) (base : bool) (needs_ver test_pid : Z) : C unit :=
  o ← ctrl_root c;
  i ← deref o;
  _ ← set_root i (fun r => set_dir Mnt (set_dir_ctrls (add_ctrl (dir_ctrls (mnt_dir r)) c) (mnt_dir r)) r);
  v2 ← cgroup_ctrl_on_v2 c;
  if v2 && (needs_ver =? TST_CG_V1) then tst_brk TCONF
  else if negb v2 && (needs_ver =? TST_CG_V2) then tst_brk TCONF
  else
    r ← root_at i;
    let enable := C_write (dir_fd (mnt_dir r)) subtree_control (str "+" ++ ctrl_name c) in
    _ ← when (v2 && negb base) (if we_mounted_it r then safe_ enable else _ ← sys enable; mret tt);
    _ ← (if dir_fd (ltp_dir r) =? 0 then cgroup_dir_mk (PRoot i Mnt) DLtp (PRoot i Ltp)
         else set_root i (fun r => set_dir Ltp (set_dir_ctrls (Z.lor (dir_ctrls (ltp_dir r)) (dir_ctrls (mnt_dir r))) (ltp_dir r)) r));
    r ← root_at i;
    let ltp := dir_fd (ltp_dir r) in
    _ ← when (negb base) (
      if v2 : bool then safe_ (C_write ltp subtree_control (str "+" ++ ctrl_name c))
      else
        _ ← safe_ (C_write ltp (str "cgroup.clone_children") (dec 1));
        when (c =? CTRL_CPUSET)%nat (cgroup_copy_cpuset i));
    _ ← cgroup_dir_mk (PRoot i Ltp) DDrain (PRoot i Drain);
    _ ← update (with_test_dir (str "test-" ++ dec (if test_pid =? 0 then pid else test_pid)));
    cgroup_dir_mk (PRoot i Ltp) DTest (PRoot i Test).

(** The name of the controller is read before the test for NULL. *)
Definition tst_cg_require (name : cstr) (needs_ver test_pid : Z) : C unit :=
  c ← deref (cgroup_find_ctrl name);
  let base := streq (ctrl_name c) (str "base") in
  if base && negb (needs_ver =? TST_CG_V2) then tst_brk TCONF
  else
    _ ← set_ctrl c (fun x => (fst x, true));
    _ ← cgroup_find_hierarchy c base needs_ver;
    cgroup_mkdirs c base needs_ver test_pid.

(** ** Cleaning up *)
Definition cgroup_drain (v source_dfd dest_dfd : Z) : C unit :=
  let name := if v =? TST_CG_V1 then str "tasks" else str "cgroup.procs" in
  pids ← safe_file_readat source_dfd name BUFSIZ;
  fd ← safe (C_openat dest_dfd name);
  _ ← each (strtoks (is_char NEWLINE) pids) (fun tok => ret ← sys (C_dprintf fd tok); when (ret <? slen tok) (tst_brk TBROK));
  safe_ (C_close fd).

Definition close_fd (fd : Z) : C unit := when (0 <? fd) (safe_ (C_close fd)).
Definition close_path_fds (i : nat) : C unit :=
  r ← root_at i;
  _ ← close_fd (dir_fd (test_dir r));
  _ ← close_fd (dir_fd (ltp_dir r));
  _ ← close_fd (dir_fd (drain_dir r));
  close_fd (dir_fd (mnt_dir r)).

Definition remove_test_dir (i : nat) : C unit :=
  r ← root_at i;
  match dir_name (test_dir r) with
  | None => mret tt
  | Some n =>
      _ ← cgroup_drain (ver r) (dir_fd (test_dir r)) (dir_fd (drain_dir r));
      name ← name_of i n;
      safe_ (C_unlinkat (dir_fd (ltp_dir r)) name)
  end.

Definition unlink_named (i : nat) (parent dir : cgroup_dir) : C unit :=
  match dir_name dir with None => mret tt | Some n => name ← name_of i n; safe_ (C_unlinkat (dir_fd parent) name) end.

Definition remove_ltp_dir (i : nat) : C unit :=
  r ← root_at i;
  when (dir_created (ltp_dir r)) (
    _ ← cgroup_drain (ver r) (dir_fd (drain_dir r)) (dir_fd (mnt_dir r));
    _ ← unlink_named i (ltp_dir r) (drain_dir r);
    unlink_named i (mnt_dir r) (ltp_dir r)).

Definition disable_ctrl (c : nat) : C unit :=
  o ← ctrl_root c;
  v2 ← cgroup_ctrl_on_v2 c;
  match o with
  | None => mret tt
  | Some i =>
      r ← root_at i;
      when (v2 && we_mounted_it r && negb (streq (ctrl_name c) (str "base")))
        (safe_ (C_write (dir_fd (mnt_dir r)) subtree_control (str "-" ++ ctrl_name c)))
  end.

Definition unmount_root (i : nat) : C unit :=
  r ← root_at i;
  when (we_mounted_it r) (ret ← sys (C_umount (mnt_path r)); when (ret =? 0) (safe_ (C_rmdir (mnt_path r)))).

Definition clear_data : C unit :=
  _ ← update (fun s => with_ctrls (replicate 18 (None, false)) s);
  l ← all_roots;
  _ ← each l close_path_fds;
  update (with_roots (replicate (S ROOTS_MAX) no_root)).

Definition tst_cg_cleanup : C unit :=
  mounted ← cgroup_mounted;
  _ ← when mounted (
    l ← all_roots;
    _ ← each l remove_test_dir;
    _ ← each l remove_ltp_dir;
    _ ← each all_ctrls disable_ctrl;
    each l unmount_root);
  clear_data.

(** ** Files of a group *)
Definition CTRL_NAME_MAX : Z := 31.

Definition cgroup_file_find (file_name : cstr) : C cgroup_file :=
  match strchr file_name "."%ch with
  | None => tst_brk TBROK
  | Some sep =>
      let len := (length file_name - length sep)%nat in
      if CTRL_NAME_MAX <? Z.of_nat len then fault
      else
        match cgroup_find_ctrl (take len file_name) with
        | None => tst_brk TBROK
        | Some c =>
            match find (fun f : cgroup_file => streq file_name (fst (fst f))) (files_of c) with
            | None => tst_brk TBROK
            | Some f => mret f
            end
        end
  end.

Definition cgroup_file_alias (f : cgroup_file) (d : cgroup_dir) : C (option cstr) :=
  let '(name, name_v1, c) := f in
  r ← root_at (dir_root d);
  if negb (ver r =? TST_CG_V1) then mret (Some name)
  else
    match name_v1 with
    | Some v1 =>
        if (c =? CTRL_CPUSET)%nat && no_cpuset_prefix r then sep ← deref (strchr v1 "."%ch); mret (Some (drop 1 sep))
        else mret (Some v1)
    | None => mret None
    end.

(** [for_each_dir]: the directory of the controller, or all of them. *)
Definition dirs_for (g : tst_cg_group) (c : nat) : C (list dptr) :=
  if (ROOTS_MAX <? length (dirs g))%nat then fault
  else if (c =? 0)%nat then mret (dirs g)
  else o ← deref (dirs_by_ctrl g !! c); mret (match o with Some p => [p] | None => [] end).

(** What is done to each file that the name stands for. *)
Definition for_each_file (g : tst_cg_group) (file_name : cstr) (act : Z -> cstr -> C unit) : C unit :=
  f ← cgroup_file_find file_name;
  l ← dirs_for g (snd f);
  each l (fun p =>
    d ← dir_at p;
    a ← cgroup_file_alias f d;
    match a with None => mret tt | Some a => act (dir_fd d) a end).

Definition safe_cg_printf (g : tst_cg_group) (file_name text : cstr) : C unit :=
  for_each_file g file_name (fun fd a => safe_ (C_write fd a text)).
Definition safe_cg_fchown (g : tst_cg_group) (file_name : cstr) (owner group : Z) : C unit :=
  for_each_file g file_name (fun fd a => safe_ (C_chown fd a owner group)).

Fixpoint open_files (f : cgroup_file) (l : list dptr) (fds : list Z) : C (list Z) :=
  match l with
  | [] => mret fds
  | p :: l =>
      d ← dir_at p;
      a ← cgroup_file_alias f d;
      match a with None => open_files f l fds | Some a => fd ← safe (C_openat (dir_fd d) a); open_files f l (fds ++ [fd]) end
  end.
Definition safe_cg_open (g : tst_cg_group) (file_name : cstr) : C (list Z) :=
  f ← cgroup_file_find file_name;
  l ← dirs_for g (snd f);
  open_files f l [].

Fixpoint access_files (f : cgroup_file) (l : list dptr) : C bool :=
  match l with
  | [] => mret false
  | p :: l =>
      d ← dir_at p;
      a ← cgroup_file_alias f d;
      match a with
      | None => access_files f l
      | Some a =>
          r ← sys (C_access (dir_fd d) a);
          if r =? 0 then mret true else if r =? - ENOENT then access_files f l else tst_brk TBROK
      end
  end.
Definition safe_cg_has (g : tst_cg_group) (file_name : cstr) : C bool :=
  f ← cgroup_file_find file_name;
  l ← dirs_for g (snd f);
  access_files f l.

(** The loop over the directories: the buffer [out] of [len] bytes, the bytes
    that count of it, and the value returned. *)
Fixpoint read_dirs (f : cgroup_file) (len : Z) (l : list dptr) (out : list Z) (prev_len read_ret : Z) : C (list Z * Z) :=
  match l with
  | [] => mret (out, read_ret)
  | p :: l =>
      d ← dir_at p;
      a ← cgroup_file_alias f d;
      match a with
      | None => read_dirs f len l out prev_len read_ret
      | Some a =>
          let prev_buf := take (Z.to_nat prev_len) out in
          t ← safe_file_readat (dir_fd d) a len;
          let out := t ++ [0] ++ drop (S (length t)) out in
          if negb (prev_len =? 0) && negb (bool_decide (take (Z.to_nat prev_len) out = prev_buf)) then tst_brk TBROK
          else read_dirs f len l out (Z.min BUFSIZ (slen t)) (slen t)
      end
  end.
Definition safe_cg_read (g : tst_cg_group) (file_name : cstr) (out : list Z) : C (list Z * Z) :=
  f ← cgroup_file_find file_name;
  l ← dirs_for g (snd f);
  '(out, read_ret) ← read_dirs f (slen out) l out 0 0;
  if read_ret <? slen out then mret (<[Z.to_nat (Z.max read_ret 0) := 0]> out, read_ret) else fault.

Definition tst_cg_ver (g : tst_cg_group) (name : cstr) : C Z :=
  if streq name (str "cgroup") then tst_brk TBROK
  else
    match cgroup_find_ctrl name with
    | None => tst_brk TBROK
    | Some c =>
        o ← deref (dirs_by_ctrl g !! c);
        match o with None => tst_brk TBROK | Some p => d ← dir_at p; r ← root_at (dir_root d); mret (ver r) end
    end.

(** ** Groups *)

(** The controllers of a directory that is added. *)
Fixpoint add_by_ctrl (parent : option tst_cg_group) (p : dptr) (d : cgroup_dir) (v1 : bool) (l : list nat) (by_ctrl : list (option dptr))
    : C (list (option dptr)) :=
  match l with
  | [] => mret by_ctrl
  | c :: l =>
      if has_ctrl (dir_ctrls d) c then
        _ ← match parent with
            | Some g => when (negb v1 && negb (streq (ctrl_name c) (str "base"))) (safe_cg_printf g subtree_control (str "+" ++ ctrl_name c))
            | None => mret tt
            end;
        add_by_ctrl parent p d v1 l (<[c := Some p]> by_ctrl)
      else add_by_ctrl parent p d v1 l by_ctrl
  end.

Definition cgroup_group_add_dir (parent : option tst_cg_group) (g : tst_cg_group) (p : dptr) : C tst_cg_group :=
  d ← dir_at p;
  r ← root_at (dir_root d);
  let v1 := ver r =? TST_CG_V1 in
  by_ctrl ← add_by_ctrl parent p d v1 all_ctrls (if v1 then dirs_by_ctrl g else <[0%nat := Some p]> (dirs_by_ctrl g));
  if (length (dirs g) <=? ROOTS_MAX)%nat then mret (mkGroup (group_name g) by_ctrl (dirs g ++ [p])) else fault.

Definition malloc_dir : C dptr := fun s => Ok (PHeap (length (heap s)), with_heap (heap s ++ [Some no_dir]) s).
Definition free_dir (p : dptr) : C unit :=
  _ ← dir_at p; match p with PHeap n => update (fun s => with_heap (<[n := None]> (heap s)) s) | PRoot _ _ => fault end.

(** The loop of [tst_cg_group_mk]; [name]: what [vsnprintf] gives for the
    format. *)
Fixpoint group_dirs (parent : tst_cg_group) (name : cstr) (l : list dptr) (g : tst_cg_group) : C tst_cg_group :=
  match l with
  | [] => mret g
  | p :: l =>
      new ← malloc_dir;
      _ ← cgroup_dir_mk p (DGroup name) new;
      g ← cgroup_group_add_dir (Some parent) g new;
      group_dirs parent name l g
  end.
Definition tst_cg_group_mk (parent : tst_cg_group) (name : cstr) : C tst_cg_group :=
  if NAME_MAX <=? slen name then tst_brk TBROK
  else
    l ← dirs_for parent 0;
    group_dirs parent name l (mkGroup name (replicate ROOTS_MAX None) []).

Definition tst_cg_group_rm (g : tst_cg_group) : C unit :=
  l ← dirs_for g 0;
  each l (fun p =>
    d ← dir_at p;
    _ ← sys (C_close (dir_fd d));
    parent ← deref (dir_parent d);
    pd ← dir_at parent;
    n ← deref (dir_name d);
    name ← name_of (dir_root d) n;
    _ ← safe_ (C_unlinkat (dir_fd pd) name);
    free_dir p).

Fixpoint root_dirs (w : which) (l : list nat) (g : tst_cg_group) : C tst_cg_group :=
  match l with
  | [] => mret g
  | i :: l =>
      d ← dir_at (PRoot i w);
      if dir_ctrls d =? 0 then root_dirs w l g else g ← cgroup_group_add_dir None g (PRoot i w); root_dirs w l g
  end.
Definition group_from_roots (test : bool) : C unit :=
  s ← get;
  let g := if test then test_group s else drain_group s in
  match group_name g with
  | _ :: _ => tst_brk TBROK
  | [] =>
      l ← all_roots;
      g ← root_dirs (if test then Test else Drain) l g;
      match dirs g with
      | [] => tst_brk TBROK
      | p :: _ =>
          d ← dir_at p;
          n ← deref (dir_name d);
          name ← name_of (dir_root d) n;
          update (with_group test (mkGroup (take (Z.to_nat NAME_MAX) name) (dirs_by_ctrl g) (dirs g)))
      end
  end.

Definition tst_cg_init : C unit := _ ← group_from_roots true; group_from_roots false.

(** [do_cgroup_requires] of [lib/tst_test.c]. *)
Definition do_cgroup_requires (needs_ver : Z) (names : list cstr) : C unit :=
  _ ← each names (fun name => tst_cg_require name needs_ver 0);
  tst_cg_init.

(** ** The state as text *)

(** A bit-field of type [int] with one bit. *)
Definition bit (b : bool) : Z := if b then -1 else 0.
Definition CONFIG_HEADER : cstr := str "ctrl_name ver we_require_it mnt_path we_mounted_it ltp_dir.we_created_it test_dir.dir_name".

Definition config_line (c : nat) (required : bool) (r : cgroup_root) (test_name : option cstr) : cstr :=
  ctrl_name c ++ [TAB] ++ dec (ver r) ++ [TAB] ++ dec (bit required) ++ [TAB] ++ mnt_path r ++ [TAB] ++ dec (bit (we_mounted_it r)) ++ [TAB]
  ++ dec (bit (dir_created (ltp_dir r))) ++ [TAB] ++ default (str "NULL") test_name ++ [NEWLINE].

Fixpoint config_lines (l : list nat) (text : cstr) : C cstr :=
  match l with
  | [] => mret text
  | c :: l =>
      s ← get;
      x ← deref (ctrls s !! c);
      match fst x with
      | None => config_lines l text
      | Some i =>
          r ← root_at i;
          name ← match dir_name (test_dir r) with None => mret None | Some n => name ← name_of i n; mret (Some name) end;
          config_lines l (text ++ config_line c (snd x) r name)
      end
  end.
Definition tst_cg_print_config : C cstr := config_lines all_ctrls (CONFIG_HEADER ++ [NEWLINE]).

(** [%<width>s] and [%d] of [sscanf], each with the white space before it. *)
Definition scan_s (width : nat) (s : cstr) : option (cstr * cstr) :=
  let s := skip_while isspace s in
  let tok := take width (span (fun c => negb (isspace c)) s) in
  match tok with [] => None | _ => Some (tok, drop (length tok) s) end.
Definition scan_d (s : cstr) : option (Z * cstr) :=
  let r := strtol LLONG_MIN LLONG_MAX 10 s in
  if st_conv r then Some (wrap_s 32 (st_val r), st_end r) else None.

Record config : Set := mkConfig { f_ctrl : cstr; f_ver : Z; f_require : Z; f_path : cstr; f_mounted : Z; f_created : Z; f_test : cstr }.
Definition PATH_MAX_STRLEN : nat := 4095.
Definition scan_config (line : cstr) : option config :=
  '(a, s) ← scan_s 31 line; '(b, s) ← scan_d s; '(c, s) ← scan_d s; '(d, s) ← scan_s PATH_MAX_STRLEN s; '(e, s) ← scan_d s; '(f, s) ← scan_d s;
  '(g, _) ← scan_s 255 s; Some (mkConfig a b c d e f g).

Definition cgroup_find_root (path : cstr) : C (option nat) :=
  l ← all_roots; s ← get;
  mret (find (fun i => match roots s !! i with Some r => streq (mnt_path r) path | None => false end) l).

(** The directories of a root that a line tells of. *)
Definition restore_dirs (f : config) (i : nat) : C unit :=
  r ← root_at i;
  _ ← when (bool_decide (dir_name (ltp_dir r) = None)) (
    _ ← cgroup_dir_mk (PRoot i Mnt) DLtp (PRoot i Ltp);
    _ ← cgroup_dir_mk (PRoot i Ltp) DDrain (PRoot i Drain);
    when (negb (f_created f =? 0)) (
      _ ← set_root i (fun r => set_dir Ltp (set_created true (ltp_dir r)) r);
      set_root i (fun r => set_dir Drain (set_created true (drain_dir r)) r)));
  r ← root_at i;
  when (bool_decide (dir_name (test_dir r) = None) && negb (streq (f_test f) (str "NULL"))) (
    _ ← update (with_test_dir (f_test f));
    _ ← cgroup_dir_mk (PRoot i Ltp) DTest (PRoot i Test);
    set_root i (fun r => set_dir Test (set_created true (test_dir r)) r)).

Definition cgroup_parse_config_line (line : cstr) : C unit :=
  match scan_config line with
  | None => tst_brk TBROK
  | Some f =>
      match cgroup_find_ctrl (f_ctrl f) with
      | None => tst_brk TBROK
      | Some c =>
          _ ← set_ctrl c (fun x => (fst x, Z.odd (f_require f)));
          o ← cgroup_find_root (f_path f);
          match o with
          | None => tst_brk TBROK
          | Some i =>
              _ ← when (negb (f_mounted f =? 0)) (set_root i (set_mounted true));
              restore_dirs f i
          end
      end
  end.

Definition tst_cg_load_config (text : cstr) : C unit :=
  if BUFSIZ <=? slen text + 1 then tst_brk TBROK
  else each (drop 1 (strtoks (is_char NEWLINE) text)) cgroup_parse_config_line.

(** ** [testcases/lib/tst_cgctl.c] *)
Definition cgctl_require (name : cstr) (test_pid : Z) : C cstr := _ ← tst_cg_require name 0 test_pid; tst_cg_print_config.
Definition cgctl_cleanup (text : cstr) : C unit := _ ← tst_cg_scan; _ ← tst_cg_load_config text; tst_cg_cleanup.
Definition cgctl_print : C cstr := _ ← tst_cg_scan; tst_cg_print_config.
End Kernel.

(** ** Examples: a kernel that does what it is told

    File descriptors are numbered by the calls; [files] gives the contents of
    files by name. *)
Definition easy_kernel (mounts : list mntent) (files : cstr -> cstr) : kernel := {|
  k_ret t := match t with
             | C_open _ :: _ | C_openat _ _ :: _ => 3 + Z.of_nat (length t)
             | C_dprintf _ text :: _ | C_write _ _ text :: _ => slen text
             | _ => 0
             end;
  k_text t := match t with C_read _ name :: _ => Some (files name) | _ => None end;
  k_mounts _ := Some mounts
|}.
Definition v2_mounts : list mntent :=
  [mkMnt (str "ext4") (str "/") (str "rw"); mkMnt (str "cgroup2") (str "/sys/fs/cgroup") (str "rw,nosuid")].
Definition v2_files (name : cstr) : cstr :=
  if streq name (str "cgroup.controllers") then str "cpuset cpu io memory pids" ++ [NEWLINE] else str "7" ++ [NEWLINE].
Definition v2_kernel : kernel := easy_kernel v2_mounts v2_files.
Definition v1_mounts : list mntent :=
  [mkMnt (str "cgroup") (str "/cg/cpu") (str "rw,cpu,cpuacct"); mkMnt (str "cgroup") (str "/cg/memory") (str "rw,memory");
   mkMnt (str "cgroup") (str "/again/cpu") (str "rw,cpuacct,cpu"); mkMnt (str "cgroup2") (str "/cg/unified") (str "rw")].
Definition v1_kernel : kernel := easy_kernel v1_mounts (fun name => if streq name (str "cgroup.controllers") then [] else str "7" ++ [NEWLINE]).

Example require_v2 : match do_cgroup_requires v2_kernel (str "/tmp") 42 0 [str "memory"; str "cpu"] initial with
  | Ok (_, s) => dirs (test_group s) = [PRoot 0 Test] /\ dirs_by_ctrl (test_group s) !! CTRL_CPU = Some (Some (PRoot 0 Test))
  | _ => False
  end.
Proof. vm_compute. done. Qed.

Example require_v1 : match do_cgroup_requires v1_kernel (str "/tmp") 42 0 [str "memory"; str "cpuacct"] initial with
  | Ok (_, s) => dirs (test_group s) = [PRoot 1 Test; PRoot 2 Test] /\ dirs_by_ctrl (test_group s) !! CTRL_MEMORY = Some (Some (PRoot 2 Test))
  | _ => False
  end.
Proof. vm_compute. done. Qed.

(** The newline at the end of [cgroup.controllers] stays with the last
    controller, which is not found then. *)
Example last_controller_lost : match tst_cg_require v2_kernel (str "/tmp") 42 (str "pids") TST_CG_V2 0 initial with
  | Err (t, _) => t = TCONF | _ => False end.
Proof. vm_compute. done. Qed.

(** A controller that is not known: its name is read through NULL. *)
Example unknown_controller : tst_cg_require v2_kernel (str "/tmp") 42 (str "cpus") 0 0 initial = Fault.
Proof. reflexivity. Qed.

(** The name of a file with a long prefix overruns [ctrl_name]. *)
Example long_file_name : cgroup_file_find (str "a_controller_with_a_name_of_many_letters.max") initial = Fault.
Proof. reflexivity. Qed.
