(* ===== verification/CgroupSpec.v ===== *)
(** * Control groups: the operations of [lib/tst_cgroup.c]

    A weakest precondition for the programs of [Cgroup], what is known of the
    static variables between calls, and what scanning, mounting and requiring a
    controller do to them.  A program that ends with [tst_brk] must do so for a
    reason in [Why]; one that goes wrong satisfies no postcondition. *)

From stdpp Require Import base list strings relations.
From Stdlib Require Import ZArith Lia.
From S2P Require Import Prelude ParseNum Tokens Cgroup.

Local Open Scope Z_scope.

Definition wpe (Why : Z -> cg -> Prop) {A} (m : C A) (Q : A -> cg -> Prop) (s : cg) : Prop :=
  match m s with Ok (a, s') => Q a s' | Err (t, s') => Why t s' | Fault => False end.
(** Any reason will do. *)
Definition any (t : Z) (s : cg) : Prop := True.
Abbreviation wp := (wpe any).

Section Rules.
Context {Why : Z -> cg -> Prop} {A B : Type}.
#[local] Abbreviation wp := (wpe Why).
Implicit Types (Q : A -> cg -> Prop) (s : cg).

Lemma wp_mono (m : C A) Q Q' s : wp m Q s -> (forall a s', Q a s' -> Q' a s') -> wp m Q' s.
Proof. unfold wpe. intros H HQ. destruct (m s) as [[a s']| |]; auto. Qed.
Lemma wp_bind (m : C B) (f : B -> C A) Q s : wp m (fun a => wp (f a) Q) s -> wp (m ≫= f) Q s.
Proof. unfold wpe, mbind, C_bind. by destruct (m s) as [[a s']| |]. Qed.
Lemma wp_ret a Q s : Q a s -> wp (mret a) Q s.
Proof. done. Qed.
Lemma wp_brk t Q s : Why t s -> wp (tst_brk t) Q s.
Proof. done. Qed.
Lemma wp_deref (o : option A) a Q s : o = Some a -> Q a s -> wp (deref o) Q s.
Proof. intros ->. done. Qed.
End Rules.
Lemma wp_any {Why A} (m : C A) Q s : wpe Why m Q s -> wp m Q s.
Proof. unfold wpe. by destruct (m s) as [[a s']|[t s']|]. Qed.

Section Rules2.
Context {Why : Z -> cg -> Prop}.
#[local] Abbreviation wp := (wpe Why).
Implicit Types (s : cg).
Lemma wp_get Q s : Q s s -> wp get Q s.
Proof. done. Qed.
Lemma wp_update f Q s : Q tt (f s) -> wp (update f) Q s.
Proof. done. Qed.
Lemma wp_when b m Q s : (b = true -> wp m Q s) -> (b = false -> Q tt s) -> wp (when b m) Q s.
Proof. destruct b; intros H1 H2; [by apply H1|by apply H2]. Qed.
Lemma wp_root_at i r Q s : roots s !! i = Some r -> Q r s -> wp (root_at i) Q s.
Proof. intros H HQ. apply wp_bind, wp_get. by eapply wp_deref. Qed.
Lemma wp_set_root i f r Q s : roots s !! i = Some r -> Q tt (with_roots (<[i := f r]> (roots s)) s) -> wp (set_root i f) Q s.
Proof. intros H HQ. apply wp_bind. by eapply wp_root_at. Qed.
Lemma wp_ctrl_root c x Q s : ctrls s !! c = Some x -> Q (fst x) s -> wp (ctrl_root c) Q s.
Proof. intros H HQ. apply wp_bind, wp_get, wp_bind. by eapply wp_deref. Qed.
Lemma wp_set_ctrl c f x Q s : ctrls s !! c = Some x -> Q tt (with_ctrls (<[c := f x]> (ctrls s)) s) -> wp (set_ctrl c f) Q s.
Proof. intros H HQ. apply wp_bind, wp_get, wp_bind. by eapply wp_deref. Qed.
Lemma wp_dir_at_root i w r Q s : roots s !! i = Some r -> Q (dir_of w r) s -> wp (dir_at (PRoot i w)) Q s.
Proof. intros H HQ. apply wp_bind. by eapply wp_root_at. Qed.

(** A loop whose body keeps [I]. *)
Lemma wp_each {A} (I : cg -> Prop) (l : list A) f Q s :
  I s -> (forall x s, x ∈ l -> I s -> wp (f x) (fun _ => I) s) -> (forall s, I s -> Q tt s) -> wp (each l f) Q s.
Proof.
  intros Hs Hf HQ. revert s Hs Hf. induction l as [|x l IH]; intros s Hs Hf; [by apply HQ|]. cbn [each]. apply wp_bind.
  eapply wp_mono; [apply Hf; [left|done]|]. intros [] s' Hs'. apply IH; [done|]. intros y s1 Hy. apply Hf. by right.
Qed.
(** The same with the part of the list that was done. *)
Lemma wp_each_done {A} (I : list A -> cg -> Prop) (l : list A) f Q s :
  I [] s -> (forall done x s, I done s -> x ∈ l -> wp (f x) (fun _ => I (done ++ [x])) s) -> (forall s, I l s -> Q tt s) -> wp (each l f) Q s.
Proof.
  intros Hs Hf HQ. cut (forall rest done s, (forall x, x ∈ rest -> x ∈ l) -> done ++ rest = l -> I done s -> wp (each rest f) Q s).
  { intros H. by apply (H l []). }
  induction rest as [|x rest IH]; intros done s1 Hin El Hd; [rewrite app_nil_r in El; subst; by apply HQ|]. cbn [each]. apply wp_bind.
  eapply wp_mono; [apply Hf; [exact Hd|apply Hin; left]|]. intros [] s2 H2. apply (IH (done ++ [x])); [intros y Hy; apply Hin; by right| |done].
  by rewrite <-app_assoc.
Qed.
End Rules2.

(** Programs that are known to return. *)
Lemma bind_run {A B} (m : C A) (f : A -> C B) s a s' : m s = Ok (a, s') -> (m ≫= f) s = f a s'.
Proof. intros H. unfold mbind, C_bind. by rewrite H. Qed.
Lemma root_at_run i r s : roots s !! i = Some r -> root_at i s = Ok (r, s).
Proof. intros H. unfold root_at, mbind, C_bind, get. by rewrite H. Qed.
Lemma dir_at_run i w r s : roots s !! i = Some r -> dir_at (PRoot i w) s = Ok (dir_of w r, s).
Proof. intros H. unfold dir_at. by rewrite (bind_run _ _ _ _ _ (root_at_run _ _ _ H)). Qed.

(** ** Controllers as bits *)
Lemma has_ctrl_bit f c : has_ctrl f c = Z.testbit f (Z.of_nat c).
Proof.
  unfold has_ctrl. destruct (Z.testbit f (Z.of_nat c)) eqn:E.
  - apply negb_true_iff, Z.eqb_neq. intros H. assert (Z.testbit (Z.land f (Z.shiftl 1 (Z.of_nat c))) (Z.of_nat c) = true); [|by rewrite H, Z.testbit_0_l in *].
    rewrite Z.land_spec, E, Z.shiftl_spec, Z.sub_diag by lia. done.
  - apply negb_false_iff, Z.eqb_eq. apply Z.bits_inj'. intros n Hn. rewrite Z.land_spec, Z.testbit_0_l, Z.shiftl_spec by lia.
    destruct (Z.eq_dec n (Z.of_nat c)) as [->|Hne]; [by rewrite E|].
    destruct (Z.testbit f n); [|done]. cbn. destruct (Z.ltb_spec n (Z.of_nat c)); [by apply Z.testbit_neg_r; lia|].
    apply Z.bits_above_log2; cbn; lia.
Qed.
Lemma has_add f c d : has_ctrl (add_ctrl f c) d = (c =? d)%nat || has_ctrl f d.
Proof.
  rewrite !has_ctrl_bit. unfold add_ctrl. rewrite Z.lor_spec, <-(has_ctrl_bit (Z.shiftl 1 _)). unfold has_ctrl.
  rewrite orb_comm. f_equal. destruct (Nat.eqb_spec c d) as [->|Hne].
  - rewrite Z.land_diag, Z.shiftl_1_l. apply negb_true_iff, Z.eqb_neq. pose proof (Z.pow_pos_nonneg 2 (Z.of_nat d)). lia.
  - apply negb_false_iff, Z.eqb_eq. rewrite !Z.shiftl_1_l. apply Z.bits_inj'. intros n Hn. rewrite Z.land_spec, Z.testbit_0_l, !Z.pow2_bits_eqb by lia.
    destruct (Z.eqb_spec (Z.of_nat c) n), (Z.eqb_spec (Z.of_nat d) n); lia || done.
Qed.
Lemma has_lor f g c : has_ctrl (Z.lor f g) c = has_ctrl f c || has_ctrl g c.
Proof. by rewrite !has_ctrl_bit, Z.lor_spec. Qed.
Lemma has_0 c : has_ctrl 0 c = false.
Proof. by rewrite has_ctrl_bit, Z.testbit_0_l. Qed.
Lemma has_nonzero f c : has_ctrl f c = true -> f <> 0.
Proof. intros H ->. by rewrite has_0 in H. Qed.
Lemma add_nonzero f c : add_ctrl f c <> 0.
Proof. apply (has_nonzero _ c). by rewrite has_add, Nat.eqb_refl. Qed.

(** ** Steps *)
Ltac wps :=
  repeat (lazymatch goal with
  | |- wpe _ (mbind _ _) _ _ => apply wp_bind
  | |- wpe _ (mret _) _ _ => apply wp_ret
  | |- wpe _ get _ _ => apply wp_get
  | |- wpe _ (update _) _ _ => apply wp_update
  | |- wpe any (tst_brk _) _ _ => exact I
  | |- wpe _ (tst_brk _) _ _ => apply wp_brk
  | |- wpe _ (deref (Some _)) _ _ => eapply wp_deref; [reflexivity|]
  | |- wpe _ (if ?b then _ else _) _ _ => let E := fresh "E" in destruct b eqn:E
  | |- wpe _ (when _ _) _ _ => apply wp_when; let E := fresh "E" in intros E
  | |- wpe _ (let '(_, _) := ?x in _) _ _ => destruct x
  end; cbv beta zeta).

#[export] Instance which_eq_dec : EqDecision which.
Proof. solve_decision. Defined.
Lemma dir_of_set w w' d r : dir_of w' (set_dir w d r) = if decide (w = w') then d else dir_of w' r.
Proof. by destruct w, w'. Qed.
Lemma set_dir_twice w d d' r : set_dir w d' (set_dir w d r) = set_dir w d' r.
Proof. by destruct w. Qed.
Lemma ver_set_dir w d r : ver (set_dir w d r) = ver r.
Proof. by destruct w. Qed.
Lemma path_set_dir w d r : mnt_path (set_dir w d r) = mnt_path r.
Proof. by destruct w. Qed.
Lemma ctrls_set_dir w d r : root_ctrls (set_dir w d r) = root_ctrls r.
Proof. by destruct w. Qed.
Lemma mounted_set_dir w d r : we_mounted_it (set_dir w d r) = we_mounted_it r.
Proof. by destruct w. Qed.

Definition text_of (n : dname) (r : cgroup_root) (s : cg) : cstr :=
  match n with DMnt => mnt_path r | DLtp => str "ltp" | DDrain => str "drain" | DTest => cgroup_test_dir s | DGroup x => x end.

(** ** The static variables between calls *)

Definition name_in (w : which) : dname := match w with Mnt => DMnt | Ltp => DLtp | Drain => DDrain | Test => DTest end.
Definition inside_of (w : which) : which := match w with Ltp => Mnt | _ => Ltp end.

(** Roots 1 to [n] are of version 1, with disjoint sets of controllers; root 0
    is the one of version 2. *)
Record wf (s : cg) : Prop := mkWf {
  wf_roots : length (roots s) = S ROOTS_MAX;
  wf_ctrls : length (ctrls s) = 18%nat;
  wf_v2 : forall r, roots s !! 0%nat = Some r -> (ver r = 0 /\ root_ctrls r = 0) \/ ver r = TST_CG_V2;
  wf_v1 : exists n, (n < ROOTS_MAX)%nat /\ forall i r, roots s !! i = Some r -> (1 <= i)%nat ->
            if (i <=? n)%nat then ver r = TST_CG_V1 /\ root_ctrls r <> 0 else r = no_root;
  wf_disjoint : forall i j r r', roots s !! i = Some r -> roots s !! j = Some r' -> (1 <= i)%nat -> (1 <= j)%nat -> i <> j ->
            Z.land (root_ctrls r) (root_ctrls r') = 0;
  wf_mnt : forall i r, roots s !! i = Some r -> ver r <> 0 -> dir_root (mnt_dir r) = i;
  wf_ctrl : forall c i q, ctrls s !! c = Some (Some i, q) -> exists r, roots s !! i = Some r /\
            ((ver r <> 0 /\ has_ctrl (root_ctrls r) c = true) \/ (c = CTRL_BASE /\ i = 0%nat));
  wf_dirs : forall i r w, roots s !! i = Some r -> w <> Mnt -> dir_name (dir_of w r) <> None ->
            dir_name (dir_of w r) = Some (name_in w) /\ dir_root (dir_of w r) = i /\ dir_parent (dir_of w r) = Some (PRoot i (inside_of w));
  wf_fd : forall i r w, roots s !! i = Some r -> w <> Mnt -> dir_name (dir_of w r) = None -> dir_fd (dir_of w r) = 0
}.

Lemma initial_wf : wf initial.
Proof.
  assert (Hn : forall i r, roots initial !! i = Some r -> r = no_root) by (intros i r H; cbn [initial roots] in H; by apply lookup_replicate in H as [-> _]).
  split; try done.
  - intros r H. rewrite (Hn _ _ H). by left.
  - exists 0%nat. split; [by unfold ROOTS_MAX; lia|]. intros [|i] r H Hi; [lia|]. exact (Hn _ _ H).
  - intros i j r r' H1 H2 _ _ _. by rewrite (Hn _ _ H1), (Hn _ _ H2).
  - intros i r H Hv. by rewrite (Hn _ _ H) in Hv.
  - intros c i q H. cbn [initial ctrls] in H. by apply lookup_replicate in H as [[=] _].
  - intros i r w H _ Hw. rewrite (Hn _ _ H) in Hw. by destruct w.
  - intros i r w H _ _. rewrite (Hn _ _ H). by destruct w.
Qed.

(** The roots that are in use. *)
Lemma live_spec rs : forall i n, (n < length rs)%nat ->
  (forall j r, rs !! j = Some r -> if (j <? n)%nat then ver r <> 0 else j = n -> ver r = 0) -> live rs i = Some (seq i n).
Proof.
  induction rs as [|r rs IH]; intros i n Hn H; cbn in Hn; [lia|]. cbn [live]. destruct n as [|n].
  - pose proof (H 0%nat r eq_refl eq_refl) as Hv. by rewrite Hv.
  - pose proof (H 0%nat r eq_refl) as Hv. cbn in Hv. rewrite (proj2 (Z.eqb_neq _ _) Hv). rewrite (IH (S i) n); [done|lia|].
    intros j r' Hj. specialize (H (S j) r' Hj). change (S j <? S n)%nat with (j <? n)%nat in H. destruct (j <? n)%nat; [done|]. intros ->. by apply H.
Qed.

Definition used (s : cg) (i : nat) : Prop := exists r, roots s !! i = Some r /\ ver r <> 0.

Lemma wf_live_roots s : wf s -> exists n, (n < ROOTS_MAX)%nat /\ live (drop 1 (roots s)) 1 = Some (seq 1 n) /\
  (forall i, (1 <= i)%nat -> used s i <-> (i <= n)%nat).
Proof.
  intros W. destruct (wf_v1 s W) as (n & Hn & H). exists n. pose proof (wf_roots s W) as Hl. unfold ROOTS_MAX in *. split; [done|]. split.
  - apply live_spec; [rewrite length_drop; lia|]. intros j r Hj. rewrite lookup_drop in Hj. specialize (H _ _ Hj ltac:(lia)).
    destruct (Nat.ltb_spec j n), (Nat.leb_spec (1 + j) n); try lia.
    + destruct H as [-> _]. done.
    + intros _. by rewrite H.
  - intros i Hi. split.
    + intros (r & Hr & Hv). specialize (H _ _ Hr Hi). destruct (Nat.leb_spec i n); [done|]. by rewrite H in Hv.
    + intros Hin. destruct (lookup_lt_is_Some_2 (roots s) i) as [r Hr]; [lia|]. exists r. split; [done|]. specialize (H _ _ Hr Hi).
      rewrite (proj2 (Nat.leb_le _ _) Hin) in H. by destruct H as [-> _].
Qed.

(** [for_each_root] visits each of them once. *)
Lemma wp_all_roots {Why} Q s : wf s ->
  (forall l, NoDup l -> (length l <= ROOTS_MAX)%nat -> (forall i, (i ∈ l) <-> used s i) -> Q l s) -> wpe Why all_roots Q s.
Proof.
  intros W HQ. destruct (wf_live_roots s W) as (n & Hn & Hl & Hu). unfold all_roots, cgroup_v2_mounted. pose proof (wf_roots s W) as Hlen.
  destruct (roots s) as [|r0 rs] eqn:Er; [done|]. wps. eapply wp_root_at; [by rewrite Er|]. change (drop 1 (r0 :: rs)) with rs in Hl. wps. rewrite Er. destruct (negb (ver r0 =? 0)) eqn:E.
  - change (drop 0 (r0 :: rs)) with (r0 :: rs). cbn [live]. apply negb_true_iff in E. rewrite E, Hl. wps. apply HQ.
    + change (0%nat :: seq 1 n) with (seq 0 (S n)). apply NoDup_seq.
    + cbn [length]. rewrite length_seq. lia.
    + intros i. change (0%nat :: seq 1 n) with (seq 0 (S n)). rewrite elem_of_seq. destruct i as [|i].
      * split; [|lia]. intros _. exists r0. rewrite Er. split; [done|]. by apply Z.eqb_neq.
      * rewrite Hu by lia. lia.
  - change (drop 1 (r0 :: rs)) with rs. rewrite Hl. wps. apply HQ; [apply NoDup_seq|rewrite length_seq; lia|]. intros i. rewrite elem_of_seq. destruct i as [|i].
    + split; [lia|]. intros (r & Hr & Hv). rewrite Er in Hr. injection Hr as <-. apply negb_false_iff, Z.eqb_eq in E. done.
    + rewrite Hu by lia. lia.
Qed.

Lemma wf_same s s' : roots s' = roots s -> ctrls s' = ctrls s -> wf s -> wf s'.
Proof. intros E1 E2 []. split; rewrite ?E1, ?E2; done. Qed.

(** ** Steps of the search for a controller *)

(** Calls that make or remove no directory of a hierarchy, and among these
    those that mount or unmount nothing either. *)
Definition quiet (c : call) : bool := match c with C_mkdirat _ _ | C_unlinkat _ _ => false | _ => true end.
Definition plain (c : call) : bool :=
  match c with C_mkdirat _ _ | C_unlinkat _ _ | C_mkdir _ | C_rmdir _ | C_mount _ _ _ _ | C_umount _ => false | _ => true end.

Definition ext_by (p : call -> bool) (t0 t : list call) : Prop := exists l, t = l ++ t0 /\ forallb p l = true.
Abbreviation ext := (ext_by quiet).
(** The same state after such calls. *)
Definition same_by (p : call -> bool) (s s' : cg) : Prop := exists t, ext_by p (trace s) t /\ s' = with_trace t s.
Abbreviation same_but := (same_by quiet).

Section Ext.
Context {p : call -> bool}.
Lemma ext_refl t : ext_by p t t.
Proof. by exists []. Qed.
Lemma ext_cons c t : p c = true -> ext_by p t (c :: t).
Proof. intros H. exists [c]. cbn. by rewrite H. Qed.
Lemma ext_trans a b c : ext_by p a b -> ext_by p b c -> ext_by p a c.
Proof. intros (l & -> & H) (l' & -> & H'). exists (l' ++ l). by rewrite app_assoc, forallb_app, H, H'. Qed.
Lemma ext_weaken (p' : call -> bool) a b : (forall c, p c = true -> p' c = true) -> ext_by p a b -> ext_by p' a b.
Proof. intros Hp (l & -> & H). exists l. split; [done|]. rewrite forallb_forall in *. auto. Qed.

Lemma same_refl s : same_by p s s.
Proof. exists (trace s). split; [apply ext_refl|by destruct s]. Qed.
Lemma same_trans a b c : same_by p a b -> same_by p b c -> same_by p a c.
Proof. intros (t & Ht & ->) (t' & Ht' & ->). exists t'. split; [by eapply ext_trans|done]. Qed.
Lemma same_call c s : p c = true -> same_by p s (with_trace (c :: trace s) s).
Proof. intros H. eexists. split; [by apply ext_cons|done]. Qed.
Lemma same_roots s s' : same_by p s s' -> roots s' = roots s.
Proof. by intros (t & _ & ->). Qed.
Lemma same_ctrls s s' : same_by p s s' -> ctrls s' = ctrls s.
Proof. by intros (t & _ & ->). Qed.
Lemma same_wf s s' : same_by p s s' -> wf s -> wf s'.
Proof. intros (t & _ & ->). by apply wf_same. Qed.
End Ext.
Lemma plain_quiet c : plain c = true -> quiet c = true.
Proof. by destruct c. Qed.
Lemma plain_same s s' : same_by plain s s' -> same_but s s'.
Proof. intros (t & Ht & ->). exists t. split; [|done]. eapply ext_weaken; [apply plain_quiet|done]. Qed.

Definition reg (i : nat) (v : Z) (dir : cstr) (fd field : Z) (np : bool) (r : cgroup_root) : cgroup_root :=
  mkRoot v dir field (mkDir (Some DMnt) (dir_parent (mnt_dir r)) i (dir_ctrls (mnt_dir r)) fd (dir_created (mnt_dir r)))
    (ltp_dir r) (drain_dir r) (test_dir r) (we_mounted_it r) np.
Definition point (i : nat) (field : Z) (cs : list (option nat * bool)) : list (option nat * bool) :=
  imap (fun c x => if has_ctrl field c then (Some i, snd x) else x) cs.
Definition registered (i : nat) (v : Z) (dir : cstr) (fd field : Z) (np : bool) (r : cgroup_root) (s : cg) : cg :=
  with_ctrls (point i field (ctrls s)) (with_roots (<[i := reg i v dir fd field np r]> (roots s)) s).
Definition marked (i : nat) (mounted made : bool) (r : cgroup_root) (s : cg) : cg :=
  with_roots (<[i := set_dir Mnt (set_created made (mnt_dir r)) (set_mounted mounted r)]> (roots s)) s.

Lemma lookup_point i field cs c x : point i field cs !! c = Some x <->
  exists y, cs !! c = Some y /\ x = if has_ctrl field c then (Some i, snd y) else y.
Proof.
  unfold point. rewrite list_lookup_imap. destruct (cs !! c) as [y|]; cbn; [|naive_solver]. split; [intros [= <-]; eauto|]. by intros (y' & [= <-] & ->).
Qed.

(** Controllers as [cgroup.controllers] names them. *)
Definition v2_ctrls (buf : cstr) : Z := ctrl_set (strtoks (is_char " "%ch) buf) 0.
Definition controllers_file : cstr := str "cgroup.controllers".
(** Controllers as the options of a mount name them. *)
Definition v1_ctrls (opts : cstr) : Z := ctrl_set (strtoks (is_char ","%ch) opts) 0.

(** ** Reasons to give up *)

(** The newest call did not do what it was to do. *)
Definition failed (k : kernel) (t : list call) : Prop :=
  match t with
  | [] => False
  | C_mounts :: _ => k_mounts k t = None \/ k_mounts k t = Some []
  | C_read _ _ :: _ => forall x, k_text k t = Some x -> BUFSIZ - 1 <= slen x
  | C_dprintf _ text :: _ => k_ret k t < slen text
  | C_mkdir _ :: _ | C_mkdirat _ _ :: _ => k_ret k t <> 0 /\ k_ret k t <> - EEXIST
  | _ :: _ => k_ret k t < 0
  end.

(** A hierarchy was found that shares controllers with another one, but not
    all, or a second one of version 2; or there are too many. *)
Definition clash (k : kernel) (s : cg) : Prop :=
  (exists r fd t buf, roots s !! 0%nat = Some r /\ ver r <> 0 /\ trace s = C_read fd controllers_file :: t /\ k_text k (trace s) = Some buf /\ v2_ctrls buf <> root_ctrls r) \/
  (exists i r t l m, roots s !! i = Some r /\ ver r <> 0 /\ k_mounts k t = Some l /\ m ∈ l /\ Z.land (v1_ctrls (m_opts m)) (root_ctrls r) <> 0 /\ v1_ctrls (m_opts m) <> root_ctrls r) \/
  used s (ROOTS_MAX - 1).

Record reasons (k : kernel) : Type := mkReasons {
  why : Z -> cg -> Prop;
  why_failed t s : failed k (trace s) -> why t s
}.
Arguments why {k}.
#[global] Coercion why : reasons >-> Funclass.
Canonical any_reasons (k : kernel) : reasons k := mkReasons k any (fun _ _ _ => I).

Section Kernel.
Context (k : kernel) (tmpdir : cstr) (pid : Z) {Why : reasons k}.
#[local] Abbreviation wp := (wpe Why).

(** Calls that return a number, which is negative when they fail. *)
Definition numeric (c : call) : bool := match c with C_mounts | C_read _ _ | C_dprintf _ _ | C_mkdir _ | C_mkdirat _ _ => false | _ => true end.

Lemma wp_sys c Q s : Q (k_ret k (c :: trace s)) (with_trace (c :: trace s) s) -> wp (sys k c) Q s.
Proof. done. Qed.
Lemma wp_sys_text c Q s : Q (k_text k (c :: trace s)) (with_trace (c :: trace s) s) -> wp (sys_text k c) Q s.
Proof. done. Qed.
Lemma wp_sys_mounts Q s : Q (k_mounts k (C_mounts :: trace s)) (with_trace (C_mounts :: trace s) s) -> wp (sys_mounts k) Q s.
Proof. done. Qed.
Lemma wp_safe c Q s : numeric c = true -> (0 <= k_ret k (c :: trace s) -> Q (k_ret k (c :: trace s)) (with_trace (c :: trace s) s)) -> wp (safe k c) Q s.
Proof. intros Hc H. apply wp_bind, wp_sys. wps; [|apply H; by apply Z.ltb_ge]. apply (why_failed k). apply Z.ltb_lt in E. cbn [trace with_trace]. by destruct c. Qed.
Lemma wp_safe_ c Q s : numeric c = true -> (0 <= k_ret k (c :: trace s) -> Q tt (with_trace (c :: trace s) s)) -> wp (safe_ k c) Q s.
Proof. intros Hc H. by apply wp_bind, wp_safe. Qed.
Lemma wp_readat fd name Q s :
  (forall t, k_text k (C_read fd name :: trace s) = Some t -> slen t < BUFSIZ - 1 -> Q t (with_trace (C_read fd name :: trace s) s)) ->
  wp (safe_file_readat k fd name BUFSIZ) Q s.
Proof.
  intros H. apply wp_bind, wp_sys_text. destruct (k_text k _) as [t|] eqn:Et; wps.
  - apply (why_failed k). cbn [trace with_trace failed]. rewrite Et. intros x [= <-]. by apply Z.leb_le.
  - apply H; [done|]. by apply Z.leb_gt.
  - apply (why_failed k). cbn [trace with_trace failed]. by rewrite Et.
Qed.

Lemma wp_name_of i n r Q s : roots s !! i = Some r -> Q (text_of n r s) s -> wp (name_of i n) Q s.
Proof. intros Hr HQ. destruct n; cbn [name_of text_of] in *; wps; try done. by eapply wp_root_at. Qed.

(** A directory in the directory [pw] of the same root. *)
Lemma wp_dir_mk i pw w n r Q s : roots s !! i = Some r -> dir_root (dir_of pw r) = i ->
  let p := dir_of pw r in
  let name := text_of n (set_dir w no_dir r) s in
  let t := C_mkdirat (dir_fd p) name :: trace s in
  let fd := k_ret k (C_openat (dir_fd p) name :: t) in
  (k_ret k t = 0 \/ k_ret k t = - EEXIST -> 0 <= fd -> Q tt (with_trace (C_openat (dir_fd p) name :: t)
     (with_roots (<[i := set_dir w (mkDir (Some n) (Some (PRoot i pw)) i (dir_ctrls p) fd (k_ret k t =? 0)) r]> (roots s)) s))) ->
  wp (cgroup_dir_mk k (PRoot i pw) n (PRoot i w)) Q s.
Proof.
  intros Hr Hi p name t fd HQ. unfold cgroup_dir_mk. wps. eapply wp_dir_at_root; [exact Hr|]. fold p. wps. eapply wp_dir_at_root; [exact Hr|].
  change (dir_root p = i) in Hi. rewrite Hi. wps. eapply wp_set_root; [exact Hr|]. pose proof (lookup_lt_Some _ _ _ Hr) as Hl.
  wps. eapply wp_name_of; [by apply list_lookup_insert_eq|]. replace (text_of n _ _) with name by (unfold name, text_of; destruct n; [by rewrite !path_set_dir|done..]).
  wps. apply wp_sys. cbn [trace with_roots]. fold t. wps; [| |by apply (why_failed k); split; apply Z.eqb_neq..].
  - eapply wp_set_root; [by apply list_lookup_insert_eq|]. wps. apply wp_safe; [done|]. intros Hfd. eapply wp_set_root; [by apply list_lookup_insert_eq; cbn; rewrite length_insert|].
    cbn [roots with_roots with_trace trace] in *. rewrite !list_insert_insert_eq, !set_dir_twice. unfold fd, t in *. apply HQ; [left; by apply Z.eqb_eq|done].
  - wps. apply wp_safe; [done|]. intros Hfd. eapply wp_set_root; [by apply list_lookup_insert_eq|].
    cbn [roots with_roots with_trace trace] in *. rewrite !list_insert_insert_eq, !set_dir_twice. unfold fd, t in *. apply HQ; [right; by apply Z.eqb_eq|done].
Qed.

(** What a scan does. *)
Inductive found (s : cg) : cg -> Prop :=
| found_calls t : ext_by plain (trace s) t -> found s (with_trace t s)
| found_v2 r dir fd buf t0 : roots s !! 0%nat = Some r -> root_ctrls r = 0 -> k_text k (C_read fd controllers_file :: t0) = Some buf ->
    ver r = 0 \/ v2_ctrls buf <> 0 -> found s (registered 0 TST_CG_V2 dir fd (v2_ctrls buf) false r s)
| found_v1 i r dir fd field np : roots s !! i = Some r -> (1 <= i < ROOTS_MAX)%nat -> ver r = 0 -> field <> 0 ->
    (forall j r', (1 <= j < i)%nat -> roots s !! j = Some r' -> ver r' <> 0 /\ Z.land field (root_ctrls r') = 0) ->
    found s (registered i TST_CG_V1 dir fd field np r s).

(** Something was mounted. *)
Definition mount_done (t : list call) : Prop := exists l source path fstype opts t0, t = l ++ C_mount source path fstype opts :: t0 /\ k_ret k (C_mount source path fstype opts :: t0) = 0.
Lemma mount_done_later l t : mount_done t -> mount_done (l ++ t).
Proof. intros (l' & ? & ? & ? & ? & t0 & -> & H). exists (l ++ l'). do 5 eexists. split; [by rewrite app_assoc|exact H]. Qed.

Inductive step (s : cg) : cg -> Prop :=
| step_found s' : found s s' -> step s s'
| step_calls t : ext (trace s) t -> step s (with_trace t s)
| step_mark i r mounted made : roots s !! i = Some r -> ver r <> 0 \/ i = 0%nat -> (mounted = true -> we_mounted_it r = true \/ mount_done (trace s)) -> step s (marked i mounted made r s)
| step_require c x b : ctrls s !! c = Some x -> step s (with_ctrls (<[c := (fst x, b)]> (ctrls s)) s)
| step_base x : ctrls s !! CTRL_BASE = Some x -> step s (with_ctrls (<[CTRL_BASE := (Some 0%nat, snd x)]> (ctrls s)) s).

Lemma registered_wf i v dir fd field np r s : wf s -> roots s !! i = Some r -> v <> 0 ->
  (i = 0%nat /\ v = TST_CG_V2 /\ root_ctrls r = 0) \/
  ((1 <= i < ROOTS_MAX)%nat /\ v = TST_CG_V1 /\ ver r = 0 /\ field <> 0 /\
   forall j r', (1 <= j < i)%nat -> roots s !! j = Some r' -> ver r' <> 0 /\ Z.land field (root_ctrls r') = 0) ->
  wf (registered i v dir fd field np r s).
Proof.
  intros W Hr Hv Hc. destruct W as [L1 L2 V2 V1 Dj Mn Ct Dr Fd]. pose proof (lookup_lt_Some _ _ _ Hr) as Hl.
  assert (Hup : forall j r', <[i := reg i v dir fd field np r]> (roots s) !! j = Some r' -> (j = i /\ r' = reg i v dir fd field np r) \/ (j <> i /\ roots s !! j = Some r')).
  { intros j r' H. apply list_lookup_insert_Some in H as [(-> & <- & _)|[Hne H]]; [by left|right]. split; [congruence|done]. }
  split; cbn [registered roots ctrls with_ctrls with_roots].
  - by rewrite length_insert.
  - unfold point. by rewrite length_imap.
  - intros r' H. destruct (Hup _ _ H) as [[<- ->]|[_ H']]; [|by apply V2]. right. cbn. destruct Hc as [(_ & -> & _)|([? _] & _)]; [done|lia].
  - destruct V1 as (n & Hn & V1). destruct Hc as [(-> & _)|([H1 H2] & -> & Hv0 & Hf & Hbefore)].
    + exists n. split; [done|]. intros j r' H Hj. destruct (Hup _ _ H) as [[-> _]|[_ H']]; [lia|by apply V1].
    + assert (Hi : i = S n).
      { destruct (Nat.lt_trichotomy i (S n)) as [Hlt|[->|Hgt]]; [|done|].
        - specialize (V1 i r Hr H1). rewrite (proj2 (Nat.leb_le i n)) in V1 by lia. destruct V1 as [V1 _]. by rewrite V1 in Hv0.
        - destruct (lookup_lt_is_Some_2 (roots s) (S n)) as [r' Hr']; [lia|]. specialize (V1 _ _ Hr' ltac:(lia)). rewrite (proj2 (Nat.leb_gt (S n) n)) in V1 by lia.
          destruct (Hbefore (S n) r' ltac:(lia) Hr') as [Hx _]. by rewrite V1 in Hx. }
      exists (S n). split; [lia|]. intros j r' H Hj. destruct (Hup _ _ H) as [[-> ->]|[Hne H']].
      * rewrite (proj2 (Nat.leb_le _ _)) by lia. done.
      * specialize (V1 _ _ H' Hj). destruct (Nat.leb_spec j n), (Nat.leb_spec j (S n)); try done; lia.
  - assert (Hdis : forall j r', j <> i -> (1 <= j)%nat -> (1 <= i)%nat -> roots s !! j = Some r' -> Z.land field (root_ctrls r') = 0).
    { intros j r' Hne Hj Hi H. destruct Hc as [(-> & _)|(_ & _ & Hv0 & _ & Hbefore)]; [lia|]. destruct (decide (j < i)%nat) as [Hji|Hji]; [by apply (Hbefore j r')|].
      destruct V1 as (n & Hn & V1). pose proof (V1 _ _ Hr Hi) as Vi. specialize (V1 _ _ H Hj). destruct (Nat.leb_spec i n).
      - destruct Vi as [Vi _]. by rewrite Vi in Hv0.
      - rewrite (proj2 (Nat.leb_gt j n)) in V1 by lia. by rewrite V1, Z.land_0_r. }
    intros a b ra rb Ha Hb H1 H2 Hne. destruct (Hup _ _ Ha) as [[-> ->]|[Hna Ha']], (Hup _ _ Hb) as [[-> ->]|[Hnb Hb']]; [done| | |by apply (Dj a b)].
    + by apply (Hdis b).
    + rewrite Z.land_comm. by apply (Hdis a).
  - intros j r' H Hv'. destruct (Hup _ _ H) as [[-> ->]|[_ H']]; [done|by apply Mn].
  - intros c j q H. apply lookup_point in H as (y & Hy & E). destruct (has_ctrl field c) eqn:Ef.
    + injection E as -> _. exists (reg i v dir fd field np r). rewrite list_lookup_insert_eq by done. split; [done|]. by left.
    + subst y. destruct (Ct _ _ _ Hy) as (r' & Hr' & Hor). destruct (decide (j = i)) as [->|Hne].
      * exists (reg i v dir fd field np r). rewrite list_lookup_insert_eq by done. split; [done|]. rewrite Hr in Hr'. injection Hr' as <-.
        destruct Hor as [[Hvr Hh]|?]; [|by right]. exfalso. destruct Hc as [(_ & _ & H0)|(_ & _ & Hv0 & _)]; [by rewrite H0, has_0 in Hh|done].
      * exists r'. rewrite list_lookup_insert_ne by congruence. done.
  - intros j r' w H Hw Hn. destruct (Hup _ _ H) as [[-> ->]|[_ H']]; [|by apply Dr]. specialize (Dr i r w Hr Hw). destruct w; [done|by apply Dr..].
  - intros j r' w H Hw Hn. destruct (Hup _ _ H) as [[-> ->]|[_ H']]; [|by apply (Fd j)]. specialize (Fd i r w Hr Hw). destruct w; [done|by apply Fd..].
Qed.

(** Other values for what [wf] says nothing of. *)
Lemma put_root_wf i r r' s : wf s -> roots s !! i = Some r -> ver r <> 0 \/ i = 0%nat -> ver r' = ver r -> root_ctrls r' = root_ctrls r ->
  (ver r <> 0 -> dir_root (mnt_dir r') = i) ->
  (forall w, w <> Mnt -> dir_name (dir_of w r') <> None -> dir_name (dir_of w r') = Some (name_in w) /\ dir_root (dir_of w r') = i /\
    dir_parent (dir_of w r') = Some (PRoot i (inside_of w))) ->
  (forall w, w <> Mnt -> dir_name (dir_of w r') = None -> dir_fd (dir_of w r') = 0) ->
  wf (with_roots (<[i := r']> (roots s)) s).
Proof.
  intros W Hr Hlive Ev Ec Em Ed Ef. destruct W as [L1 L2 V2 V1 Dj Mn Ct Dr Fd]. pose proof (lookup_lt_Some _ _ _ Hr) as Hl.
  assert (Hup : forall j x, <[i := r']> (roots s) !! j = Some x -> exists y, roots s !! j = Some y /\ ver x = ver y /\ root_ctrls x = root_ctrls y /\ (j = i /\ x = r' \/ x = y)).
  { intros j x H. apply list_lookup_insert_Some in H as [(<- & <- & _)|[Hne H]]; [exists r; split_and!; [done|done|done|by left]|exists x; split_and!; [done|done|done|by right]]. }
  split; cbn [roots ctrls with_roots].
  - by rewrite length_insert.
  - done.
  - intros x H. destruct (Hup _ _ H) as (y & Hy & -> & -> & _). by apply V2.
  - destruct V1 as (n & Hn & V1). exists n. split; [done|]. intros j x H Hj. destruct (Hup _ _ H) as (y & Hy & E1 & E2 & Hxy). specialize (V1 _ _ Hy Hj).
    destruct (Nat.leb_spec j n); [by rewrite E1, E2|]. destruct Hxy as [[-> _]| ->]; [|done]. rewrite Hr in Hy. injection Hy as <-. destruct Hlive; [by rewrite V1 in *|lia].
  - intros a b x x' Ha Hb. destruct (Hup _ _ Ha) as (y & Hy & _ & -> & _), (Hup _ _ Hb) as (y' & Hy' & _ & -> & _). by apply Dj.
  - intros j x H Hv. destruct (Hup _ _ H) as (y & Hy & E1 & _ & [[-> ->]| ->]); [|by apply Mn]. apply Em. by rewrite <-Ev.
  - intros c j q H. destruct (Ct _ _ _ H) as (y & Hy & Hor). destruct (decide (i = j)) as [<-|Hne].
    + exists r'. rewrite list_lookup_insert_eq, Ev, Ec by done. rewrite Hr in Hy. by injection Hy as <-.
    + exists y. by rewrite list_lookup_insert_ne.
  - intros j x w H Hw. destruct (Hup _ _ H) as (y & Hy & _ & _ & [[-> ->]| ->]); [by apply Ed|by apply Dr].
  - intros j x w H Hw. destruct (Hup _ _ H) as (y & Hy & _ & _ & [[-> ->]| ->]); [by apply Ef|by apply (Fd j)].
Qed.

Lemma ctrl_wf c x y s : wf s -> ctrls s !! c = Some x -> (fst y = fst x \/ c = CTRL_BASE /\ fst y = Some 0%nat) -> wf (with_ctrls (<[c := y]> (ctrls s)) s).
Proof.
  intros W Hx Hy. destruct W as [L1 L2 V2 V1 Dj Mn Ct Dr Fd]. split; try done; cbn [ctrls with_ctrls].
  - by rewrite length_insert.
  - intros d i q H. cbn [roots with_ctrls]. apply list_lookup_insert_Some in H as [(<- & -> & _)|[_ H]]; [|by apply (Ct d i q)]. cbn in Hy.
    destruct Hy as [E|[-> [= ->]]].
    + destruct x as [o q']. cbn in E. subst o. by apply (Ct c i q').
    + destruct (lookup_lt_is_Some_2 (roots s) 0) as [r Hr]; [rewrite L1; lia|]. exists r. split; [done|]. by right.
Qed.

Lemma step_wf s s' : wf s -> step s s' -> wf s'.
Proof.
  intros W H. destruct H as [s' [t Ht|r dir fd buf t0 Hr Hc Hb Hv|i r dir fd field np Hr Hi Hv Hf Hd]|t Ht|i r mounted made Hr Hl _|c x b Hx|x Hx].
  - by apply (wf_same s).
  - apply registered_wf; [done..|]. by left.
  - apply registered_wf; [done..|]. by right.
  - by apply (wf_same s).
  - apply put_root_wf with r; try done.
    + intros Hv. exact (wf_mnt s W i r Hr Hv).
    + intros w Hw Hn. pose proof (wf_dirs s W i r w Hr Hw) as Dr. destruct w; [done|by apply Dr..].
    + intros w Hw Hn. pose proof (wf_fd s W i r w Hr Hw) as Fd. destruct w; [done|by apply Fd..].
  - eapply ctrl_wf; [done|exact Hx|by left].
  - eapply ctrl_wf; [done|exact Hx|by right].
Qed.

Abbreviation steps := (rtc step).
Lemma steps_wf s s' : wf s -> steps s s' -> wf s'.
Proof. intros W H. induction H as [|a b c Hab _ IH]; [done|]. apply IH. by eapply step_wf. Qed.
Lemma found_steps s s' : rtc found s s' -> steps s s'.
Proof. apply rtc_subrel. constructor. done. Qed.
Lemma found_wf s s' : wf s -> rtc found s s' -> wf s'.
Proof. intros W H. eapply steps_wf; [done|]. by apply found_steps. Qed.
Lemma found_ext s s' : rtc found s s' -> ext_by plain (trace s) (trace s').
Proof. induction 1 as [|a b c Hab _ IH]; [apply ext_refl|]. eapply ext_trans; [|exact IH]. destruct Hab; [done|apply ext_refl..]. Qed.
Lemma found_mounted s s' : rtc found s s' -> mount_done (trace s) -> mount_done (trace s').
Proof. intros (l & -> & _)%found_ext. apply mount_done_later. Qed.

(** ** Scanning *)
Lemma wp_point i field Q s : length (ctrls s) = 18%nat -> Q tt (with_ctrls (point i field (ctrls s)) s) ->
  wp (each all_ctrls (fun c => when (has_ctrl field c) (set_ctrl c (fun x => (Some i, snd x))))) Q s.
Proof.
  intros Hl HQ. set (upto (l : list nat) := imap (fun c x => if bool_decide (c ∈ l) && has_ctrl field c then (Some i, snd x) else x) (ctrls s)).
  apply (wp_each_done (fun l s' => s' = with_ctrls (upto l) s)).
  - replace (upto []) with (ctrls s); [by destruct s|]. apply list_eq. intros d. unfold upto. rewrite list_lookup_imap.
    destruct (ctrls s !! d); [cbn; by rewrite bool_decide_eq_false_2 by apply not_elem_of_nil|done].
  - intros l c s1 -> Hc. assert (Hup : forall d x, ctrls s !! d = Some x -> d <> c -> (if bool_decide (d ∈ l ++ [c]) && has_ctrl field d then (Some i, snd x) else x)
        = (if bool_decide (d ∈ l) && has_ctrl field d then (Some i, snd x) else x)).
    { intros d x _ Hne. replace (bool_decide (d ∈ l ++ [c])) with (bool_decide (d ∈ l)); [done|]. apply bool_decide_ext. rewrite elem_of_app, list_elem_of_singleton. naive_solver. }
    apply elem_of_seq in Hc. destruct (lookup_lt_is_Some_2 (ctrls s) c) as [x Hx]; [lia|]. set (y := if bool_decide (c ∈ l) && has_ctrl field c then (Some i, snd x) else x).
    assert (Hy : upto l !! c = Some y) by (unfold upto; by rewrite list_lookup_imap, Hx).
    assert (Hins : forall z, (if bool_decide (c ∈ l ++ [c]) && has_ctrl field c then (Some i, snd x) else x) = z -> <[c := z]> (upto l) = upto (l ++ [c])).
    { intros z Hz. apply list_eq. intros d. destruct (decide (c = d)) as [<-|Hne].
      - rewrite list_lookup_insert_eq by (unfold upto; rewrite length_imap; lia). unfold upto. by rewrite list_lookup_imap, Hx; cbn; rewrite Hz.
      - rewrite list_lookup_insert_ne by done. unfold upto. rewrite !list_lookup_imap. destruct (ctrls s !! d) as [x'|] eqn:Ed; [|done]. cbn. by rewrite (Hup d x'). }
    rewrite bool_decide_eq_true_2 in Hins by (apply elem_of_app; right; by apply list_elem_of_singleton). wps.
    + eapply wp_set_ctrl; [exact Hy|]. cbn [with_ctrls ctrls]. rewrite (Hins (Some i, snd y)); [by destruct s|]. rewrite E. unfold y. by destruct (_ && _).
    + rewrite <-(Hins y); [by rewrite list_insert_id|]. rewrite E. cbn [andb]. unfold y. by rewrite E, andb_false_r.
  - intros s1 ->. replace (upto all_ctrls) with (point i field (ctrls s)); [done|]. unfold upto, point. apply imap_ext. intros c x Hx.
    pose proof (lookup_lt_Some _ _ _ Hx). rewrite bool_decide_eq_true_2; [done|]. apply elem_of_seq. lia.
Qed.

Lemma wp_backref i v dir fd field np r Q s : slen dir < PATH_MAX -> roots s !! i = Some r -> length (ctrls s) = 18%nat ->
  Q tt (registered i v dir fd field np r s) -> wp (backref i v dir fd field np) Q s.
Proof.
  intros Hd Hr Hl HQ. unfold backref. rewrite (proj2 (Z.ltb_lt _ _)) by done. wps. eapply wp_set_root; [exact Hr|]. by apply wp_point.
Qed.

Lemma wp_v1_search field s Q : Q None s -> forall rs i, (exists j r, rs !! j = Some r /\ ver r = 0) ->
  (forall j r, rs !! j = Some r -> ver r <> 0 -> Z.land field (root_ctrls r) <> 0 -> field <> root_ctrls r -> Why TBROK s) ->
  (forall j r, rs !! j = Some r -> ver r = 0 ->
     (forall j' r', (j' < j)%nat -> rs !! j' = Some r' -> ver r' <> 0 /\ Z.land field (root_ctrls r') = 0) -> Q (Some (i + j)%nat) s) ->
  wp (v1_search field rs i) Q s.
Proof.
  intros HN. induction rs as [|r rs IH]; intros i (j0 & r0 & Hj0 & Hr0) HE HQ; [done|]. cbn [v1_search]. wps.
  - rewrite <-(Nat.add_0_r i). eapply HQ; [done|by apply Z.eqb_eq|]. intros; lia.
  - apply Z.eqb_neq in E. apply Z.eqb_eq in E0. apply IH.
    + destruct j0 as [|j0]; [injection Hj0 as <-; done|by exists j0, r0].
    + intros j r' Hj. by apply (HE (S j)).
    + intros j r' Hj Hv Hb. replace (S i + j)%nat with (i + S j)%nat by lia. eapply HQ; [exact Hj|done|]. intros [|j'] r'' Hlt H''; [by injection H'' as <-|]. apply (Hb j'); [lia|done].
  - done.
  - apply (HE 0%nat r); [done|by apply Z.eqb_neq..].
Qed.

Lemma wp_sys_quiet c Q s : quiet c = true -> (forall r s', same_but s s' -> Q r s') -> wp (sys k c) Q s.
Proof. intros Hc HQ. apply wp_sys, HQ. by apply same_call. Qed.
Lemma wp_safe_quiet c Q s : quiet c && numeric c = true -> (forall r s', same_but s s' -> Q r s') -> wp (safe k c) Q s.
Proof. intros [Hc Hn]%andb_true_iff HQ. apply wp_safe; [done|]. intros _. apply HQ. by apply same_call. Qed.
Lemma wp_safe__quiet c Q s : quiet c && numeric c = true -> (forall s', same_but s s' -> Q tt s') -> wp (safe_ k c) Q s.
Proof. intros [Hc Hn]%andb_true_iff HQ. apply wp_safe_; [done|]. intros _. apply HQ. by apply same_call. Qed.
Lemma wp_sys_plain c Q s : plain c = true -> (forall r s', same_by plain s s' -> Q r s') -> wp (sys k c) Q s.
Proof. intros Hc HQ. apply wp_sys, HQ. by apply same_call. Qed.
Lemma wp_safe_plain c Q s : plain c && numeric c = true -> (forall r s', same_by plain s s' -> Q r s') -> wp (safe k c) Q s.
Proof. intros [Hc Hn]%andb_true_iff HQ. apply wp_safe; [done|]. intros _. apply HQ. by apply same_call. Qed.
Lemma wp_safe__plain c Q s : plain c && numeric c = true -> (forall s', same_by plain s s' -> Q tt s') -> wp (safe_ k c) Q s.
Proof. intros [Hc Hn]%andb_true_iff HQ. apply wp_safe_; [done|]. intros _. apply HQ. by apply same_call. Qed.

Lemma same_found s s' : same_by plain s s' -> rtc found s s'.
Proof. intros (t & Ht & ->). apply rtc_once. by constructor. Qed.
Lemma same_steps s s' : same_but s s' -> steps s s'.
Proof. intros (t & Ht & ->). apply rtc_once. by constructor. Qed.

(** What the kernel says about mounts fits into [mnt_path]. *)
Context (Hpaths : forall t l m, k_mounts k t = Some l -> m ∈ l -> slen (m_dir m) < PATH_MAX).
Context (Hclash : forall s, clash k s -> Why TBROK s).

Lemma wp_root_scan m l0 t0 Q s : wf s -> k_mounts k t0 = Some l0 -> m ∈ l0 -> (forall s', rtc found s s' -> Q tt s') -> wp (cgroup_root_scan k m) Q s.
Proof using Hclash Hpaths.
  intros W Hl0 Hm HQ. pose proof (Hpaths _ _ _ Hl0 Hm) as Hd. unfold cgroup_root_scan. wps. apply wp_safe_plain; [done|]. intros fd s1 H1. pose proof (same_wf _ _ H1 W) as W1.
  destruct (negb (streq _ _)) eqn:E.
  - wps. apply wp_readat. intros buf Hbuf _. set (s2 := with_trace _ s1). assert (H2 : same_by plain s s2) by (eapply same_trans; [exact H1|by apply same_call]).
    wps. destruct (lookup_lt_is_Some_2 (roots s2) 0) as [r Hr]; [rewrite (same_roots _ _ H2), (wf_roots _ W); lia|]. eapply wp_root_at; [exact Hr|]. wps.
    + apply wp_sys_plain; [done|]. intros _ s3 H3. wps. apply HQ, same_found. by eapply same_trans.
    + apply Hclash. left. apply negb_true_iff, Z.eqb_neq in E1. assert (Hv : ver r <> 0).
      { intros Hv. destruct (wf_v2 _ (same_wf _ _ H2 W) r Hr) as [[_ ?]|Hv2]; [done|]. by rewrite Hv2 in Hv. }
      exists r, fd, (trace s1), buf. split_and!; [done|done|done|done|]. intros Ef. unfold v2_ctrls in Ef. by rewrite Ef, Z.eqb_refl, (proj2 (Z.eqb_neq _ _) Hv) in E0.
    + eapply wp_backref; [done|exact Hr|by rewrite (same_ctrls _ _ H2), (wf_ctrls _ W)|]. apply HQ. eapply rtc_r; [by apply same_found|].
      eapply found_v2; [done|by apply negb_false_iff, Z.eqb_eq in E1|exact Hbuf|]. apply negb_false_iff, Z.eqb_eq in E1. fold (v2_ctrls buf) in E0. rewrite E1 in E0.
      destruct (Z.eq_dec (ver r) 0) as [?|Hne]; [by left|right]. rewrite (proj2 (Z.eqb_neq _ _) Hne) in E0. by apply Z.eqb_neq in E0.
  - wps; [apply wp_sys_plain; [done|]; intros _ s3 H3; wps; apply HQ, same_found; by eapply same_trans|]. apply Z.eqb_neq in E0.
    destruct (wf_live_roots _ W1) as (n & Hn & _ & Hu). apply wp_v1_search.
    + wps. apply wp_sys_plain; [done|]. intros _ s3 H3. wps. apply HQ, same_found. by eapply same_trans.
    + pose proof (wf_roots _ W1) as Hl. unfold ROOTS_MAX in *. destruct (lookup_lt_is_Some_2 (roots s1) (S n)) as [r Hr]; [lia|]. exists n, r. rewrite lookup_drop. split; [done|].
      destruct (Z.eq_dec (ver r) 0) as [|Hne]; [done|]. assert (S n <= n)%nat; [|lia]. apply Hu; [lia|by exists r].
    + intros j r Hj Hv Hne1 Hne2. rewrite lookup_drop in Hj. apply Hclash. right. left. by exists (1 + j)%nat, r, t0, l0, m.
    + intros j r Hj Hv Hb. rewrite lookup_drop in Hj. wps.
      * apply Nat.leb_le in E1. apply Hclash. right. right. apply Hu; [unfold ROOTS_MAX; lia|]. pose proof (lookup_lt_Some _ _ _ Hj) as Hjl.
        destruct (lookup_lt_is_Some_2 (roots s1) (ROOTS_MAX - 1)) as [r' Hr']; [unfold ROOTS_MAX in *; lia|]. apply Hu; [unfold ROOTS_MAX; lia|]. exists r'. split; [done|].
        apply (Hb (ROOTS_MAX - 2)%nat); [unfold ROOTS_MAX in *; lia|]. by rewrite lookup_drop.
      * apply Nat.leb_gt in E1. eapply wp_backref; [done|exact Hj|apply (wf_ctrls _ W1)|]. apply HQ.
        eapply rtc_r; [by apply same_found|]. apply found_v1; [done|lia|done|done|]. intros j' r' Hj' Hr'. apply (Hb (j' - 1)%nat); [lia|].
        rewrite lookup_drop. by replace (1 + (j' - 1))%nat with j' by lia.
Qed.

Lemma wp_scan Q s : wf s -> (forall s', rtc found s s' -> Q tt s') -> wp (tst_cg_scan k) Q s.
Proof using Hclash Hpaths.
  intros W HQ. unfold tst_cg_scan. wps. apply wp_sys_mounts. set (s1 := with_trace _ s). assert (H1 : same_by plain s s1) by by apply same_call.
  destruct (k_mounts k _) as [[|m l]|] eqn:El; [by apply wp_brk, (why_failed k); right| |by apply wp_brk, (why_failed k); left].
  apply (wp_each (fun s' => rtc found s s')); [by apply same_found| |done].
  intros x s2 Hx H2. wps; [|done]. eapply wp_root_scan; [by eapply found_wf|exact El|done|]. intros s3 H3. by etrans.
Qed.

(** ** Mounting *)
Context (Htmp : slen tmpdir < PATH_MAX - 32).

Lemma wp_ltp_mount name Q s : (length name <= 16)%nat -> (forall p, Q p s) -> wp (ltp_mount tmpdir name) Q s.
Proof using Htmp.
  intros Hn HQ. unfold ltp_mount. wps; [apply HQ|]. apply Z.ltb_ge in E. unfold slen in *. rewrite !length_app in E. cbn in E. lia.
Qed.
Lemma wp_mount_dir path Q s : (forall o s', same_but s s' -> Q o s') -> wp (mount_dir k path) Q s.
Proof.
  intros HQ. unfold mount_dir. wps. apply wp_sys. assert (H : same_but s (with_trace (C_mkdir path :: trace s) s)) by by apply same_call. wps; [by apply HQ..|].
  apply (why_failed k). split; by apply Z.eqb_neq.
Qed.

Lemma root0 s : wf s -> exists r, roots s !! 0%nat = Some r.
Proof. intros W. apply lookup_lt_is_Some_2. rewrite (wf_roots _ W). lia. Qed.
Lemma ctrl_some s c : wf s -> (c < 18)%nat -> exists x, ctrls s !! c = Some x.
Proof. intros W Hc. apply lookup_lt_is_Some_2. by rewrite (wf_ctrls _ W). Qed.

(** Setting one of the two flags of a root. *)
Lemma wp_mark i f r Q s0 s : steps s0 s -> wf s0 -> roots s !! i = Some r -> ver r <> 0 \/ i = 0%nat ->
  (exists mounted made, f r = set_dir Mnt (set_created made (mnt_dir r)) (set_mounted mounted r) /\ (mounted = true -> we_mounted_it r = true \/ mount_done (trace s))) ->
  (forall s', steps s0 s' -> Q tt s') -> wp (set_root i f) Q s.
Proof.
  intros H0 W Hr Hl (mounted & made & Hf & Hm) HQ. eapply wp_set_root; [exact Hr|]. apply HQ. eapply rtc_r; [exact H0|]. rewrite Hf. by apply (step_mark s i r mounted made).
Qed.

Lemma wp_mount_v2 Q s : wf s -> (forall s', steps s s' -> Q tt s') -> wp (cgroup_mount_v2 k tmpdir) Q s.
Proof using Hclash Hpaths Htmp.
  intros W HQ. unfold cgroup_mount_v2. wps. apply wp_ltp_mount; [by vm_compute; lia|]. intros path. wps. apply wp_mount_dir. intros [made|] s1 H1.
  2: { wps. by apply HQ, same_steps. }
  apply wp_bind. assert (Hmark : wp (when made (set_root 0 (fun r => set_dir Mnt (set_created true (mnt_dir r)) r))) (fun _ s' => steps s s') s1).
  { pose proof (same_wf _ _ H1 W) as W1. destruct (root0 _ W1) as [r Hr]. wps; [|by apply same_steps].
    eapply wp_mark; [by apply same_steps|done|exact Hr|by right|exists (we_mounted_it r), true; split; [by destruct r|by left]|done]. }
  eapply wp_mono; [exact Hmark|]. intros [] s2 H2. wps. apply wp_sys. set (r1 := k_ret k _). set (s3 := with_trace _ s2).
  assert (H03 : steps s s3) by (etrans; [exact H2|by apply same_steps, same_call]). assert (D3 : r1 = 0 -> mount_done (trace s3)) by (intros E; by eexists [], _, _, _, _, _).
  assert (Hagain : forall Q', (forall r' s', steps s s' -> (r' = 0 -> mount_done (trace s')) -> Q' r' s') -> wp (if r1 =? - EINVAL then sys k (C_mount (str "cgroup2") path (str "cgroup2") None) else mret r1) Q' s3).
  { intros Q' HQ'. wps; [|by apply HQ']. apply wp_sys. apply HQ'; [etrans; [exact H03|by apply same_steps, same_call]|]. intros E'. by eexists [], _, _, _, _, _. }
  apply wp_bind, Hagain. intros r2 s4 H4 D4. pose proof (steps_wf _ _ W H4) as W4. destruct (Z.eqb_spec r2 0) as [Ez|_].
  - wps. apply wp_scan; [done|]. intros s5 H5. assert (H05 : steps s s5) by (etrans; [exact H4|by apply found_steps]). pose proof (steps_wf _ _ W H05) as W5. destruct (root0 _ W5) as [r Hr].
    eapply wp_mark; [exact H05|done|exact Hr|by right|exists true, (dir_created (mnt_dir r)); split; [by destruct r as [? ? ? [] ? ? ? ? ?]|]|done].
    intros _. right. eapply found_mounted; [exact H5|by apply D4].
  - destruct (root0 _ W4) as [r Hr]. wps. eapply wp_root_at; [exact Hr|]. wps; [|by apply HQ].
    eapply wp_mark; [exact H4|done|exact Hr|by right|exists (we_mounted_it r), false; split; [by destruct r|by left]|]. intros s5 H5. apply wp_safe__quiet; [done|].
    intros s6 H6. apply HQ. etrans; [exact H5|by apply same_steps].
Qed.

Lemma name_short c : (length (ctrl_name c) <= 16)%nat.
Proof. unfold ctrl_name. destruct (decide (c < 18)%nat) as [H|H]; [|by rewrite nth_overflow by (vm_compute; lia); cbn; lia]. do 18 (destruct c as [|c]; [by vm_compute; lia|]). lia. Qed.

Lemma wp_mount_v1 c Q s : wf s -> (c < 18)%nat -> (forall s', steps s s' -> Q tt s') -> wp (cgroup_mount_v1 k tmpdir c) Q s.
Proof using Hclash Hpaths Htmp.
  intros W Hc HQ. unfold cgroup_mount_v1. wps. destruct (ctrl_some s CTRL_IO W) as [io Hio]; [unfold CTRL_IO; lia|]. eapply wp_ctrl_root; [exact Hio|]. wps; [by apply HQ|].
  apply wp_ltp_mount; [apply name_short|]. intros path. wps. apply wp_mount_dir. intros [made|] s1 H1; [|wps; by apply HQ, same_steps].
  wps. apply wp_sys. set (s2 := with_trace _ s1). assert (H2 : same_but s1 s2) by by apply same_call.
  assert (H02 : steps s s2) by (etrans; by apply same_steps). pose proof (steps_wf _ _ W H02) as W2. change (k_ret k (_ :: _)) with (k_ret k (trace s2)). destruct (Z.eqb_spec (k_ret k (trace s2)) 0) as [Ez|_].
  - assert (D2 : mount_done (trace s2)) by by eexists [], _, _, _, _, _.
    wps. apply wp_scan; [done|]. intros s3 H3. assert (H03 : steps s s3) by (etrans; [exact H02|by apply found_steps]). pose proof (steps_wf _ _ W H03) as W3. destruct (ctrl_some _ c W3 Hc) as [[i q] Hi].
    wps. eapply wp_ctrl_root; [exact Hi|]. cbn [fst]. destruct i as [i|]; [|by apply HQ]. destruct (wf_ctrl _ W3 _ _ _ Hi) as (r & Hr & Hor). wps.
    eapply wp_mark; [exact H03|done|exact Hr|by destruct Hor as [[? _]|[_ ?]]; [left|right]|exists true, made; split; [by destruct r|intros _; right; by eapply found_mounted]|]. intros s4 H4.
    pose proof (steps_wf _ _ W H4) as W4. wps. pose proof (wf_roots _ W3) as L3. pose proof (wf_roots _ W4) as L4. apply lookup_lt_Some in Hr.
    destruct (lookup_lt_is_Some_2 (roots s4) i) as [r' Hr']; [by rewrite L4, <-L3|]. eapply wp_root_at; [exact Hr'|]. wps; [|by apply HQ].
    apply wp_safe__quiet; [done|]. intros s5 H5. apply HQ. etrans; [exact H4|by apply same_steps].
  - wps; [|by apply HQ]. apply wp_safe__quiet; [done|]. intros s3 H3. apply HQ. etrans; [exact H02|by apply same_steps].
Qed.

(** ** Looking for a controller *)
Definition has_root (s : cg) (c : nat) : Prop := exists i q, ctrls s !! c = Some (Some i, q).

Lemma wp_unless_root c m Q s : wf s -> (c < 18)%nat -> (has_root s c -> Q tt s) -> (forall q, ctrls s !! c = Some (None, q) -> wp m Q s) -> wp (found ← have_root c; when (negb found) m) Q s.
Proof.
  intros W Hc HT HF. unfold have_root. wps. destruct (ctrl_some s c W Hc) as [[[i|] q] Hx]; (eapply wp_ctrl_root; [exact Hx|]); apply wp_ret; cbn [fst].
  - rewrite bool_decide_eq_true_2 by done. apply HT. by exists i, q.
  - rewrite bool_decide_eq_false_2; [by eapply HF|]. by intros [].
Qed.

Lemma wp_find_hierarchy c needs_ver Q s : wf s -> (c < 18)%nat -> (forall s' q, ctrls s' !! c = Some (None, q) -> Why TCONF s') -> (forall s', steps s s' -> has_root s' c -> Q tt s') ->
  wp (cgroup_find_hierarchy k tmpdir c (c =? CTRL_BASE)%nat needs_ver) Q s.
Proof using Hclash Hpaths Htmp.
  intros W Hc HW HQ. unfold cgroup_find_hierarchy. apply wp_unless_root; [done|done|by apply HQ|]. intros _ _.
  apply wp_bind, wp_scan; [done|]. intros s1 H1%found_steps. pose proof (steps_wf _ _ W H1) as W1. apply wp_unless_root; [done|done|by apply HQ|]. intros _ _.
  unfold cgroup_v2_mounted. wps. destruct (root0 _ W1) as [r Hr]. eapply wp_root_at; [exact Hr|]. apply wp_ret, wp_bind.
  assert (Hbase : forall s3, steps s s3 -> wp (_ ← when (c =? CTRL_BASE)%nat (set_ctrl c (fun x => (Some 0%nat, snd x))); found ← have_root c; when (negb found) (tst_brk TCONF)) Q s3).
  { intros s3 H3. pose proof (steps_wf _ _ W H3) as W3. destruct (ctrl_some _ c W3 Hc) as [x Hx]. apply wp_bind, wp_when; intros Eb.
    - eapply wp_set_ctrl; [exact Hx|]. apply Nat.eqb_eq in Eb as ->. assert (H4 : steps s (with_ctrls (<[CTRL_BASE := (Some 0%nat, snd x)]> (ctrls s3)) s3)).
      { eapply rtc_r; [exact H3|]. by apply step_base. }
      apply wp_unless_root; [exact (steps_wf _ _ W H4)|done|by apply HQ|]. intros q Hq. by apply wp_brk, (HW _ q).
    - apply wp_unless_root; [done|done|by apply HQ|]. intros q Hq. by apply wp_brk, (HW _ q). }
  assert (Hnext : forall s2, steps s s2 -> wp (found ← have_root c; when (negb found) (_ ← when (negb (needs_ver =? TST_CG_V2)) (cgroup_mount_v1 k tmpdir c);
    _ ← when (c =? CTRL_BASE)%nat (set_ctrl c (fun x => (Some 0%nat, snd x))); found ← have_root c; when (negb found) (tst_brk TCONF))) Q s2).
  { intros s2 H2. pose proof (steps_wf _ _ W H2) as W2. apply wp_unless_root; [done|done|by apply HQ|]. intros _ _. apply wp_bind, wp_when; intros _; [|by apply Hbase].
    apply wp_mount_v1; [done|done|]. intros s3 H3. apply Hbase. by etrans. }
  apply wp_when; intros _; [|by apply Hnext]. apply wp_mount_v2; [done|]. intros s2 H2. apply Hnext. by etrans.
Qed.
End Kernel.
