(* ===== verification/CgroupRequire.v ===== *)
(** * Control groups: requiring controllers

    [tst_cg_require] makes the directories for a test in the hierarchy of a
    controller; the groups of the test are put together from these.  The
    theorems are about [do_cgroup_requires] of [lib/tst_test.c], which requires
    all controllers that a test asks for. *)

From stdpp Require Import base list strings relations.
From Stdlib Require Import ZArith Lia.
From S2P Require Import Prelude ParseNum Tokens Cgroup CgroupSpec.

Local Open Scope Z_scope.

(** The version of a hierarchy is one that the test can use. *)
Definition fits (needs_ver v : Z) : Prop := (needs_ver = TST_CG_V1 -> v = TST_CG_V1) /\ (needs_ver = TST_CG_V2 -> v = TST_CG_V2).

(** A controller that the test cannot use: it has no hierarchy, or one of the
    other version, or is the pseudo controller for groups of version 2. *)
Definition lacking (needs_ver : Z) (c : nat) (s : cg) : Prop :=
  (c = CTRL_BASE /\ needs_ver <> TST_CG_V2) \/
  exists o q, ctrls s !! c = Some (o, q) /\ match o with None => True | Some i => exists r, roots s !! i = Some r /\ ~ fits needs_ver (ver r) end.

Section Require.
Context (k : kernel) (tmpdir : cstr) (pid : Z) {Why : reasons k}.
#[local] Abbreviation wp := (wpe Why).
Context (Hpaths : forall t l m, k_mounts k t = Some l -> m ∈ l -> slen (m_dir m) < PATH_MAX).
Context (Hclash : forall s, clash k s -> Why TBROK s).
Context (Htmp : slen tmpdir < PATH_MAX - 32).

(** ** Directories made and removed *)

(** The directories that were made, the newest first: where, and the name. *)
Fixpoint mades (t : list call) : list (Z * cstr) :=
  match t with
  | [] => []
  | c :: t' => match c with C_mkdirat fd n => if k_ret k t =? 0 then [(fd, n)] else [] | _ => [] end ++ mades t'
  end.
Fixpoint unlinked (t : list call) : list (Z * cstr) :=
  match t with
  | [] => []
  | c :: t' => match c with C_unlinkat fd n => [(fd, n)] | _ => [] end ++ unlinked t'
  end.
Lemma mades_ext t0 t : ext t0 t -> mades t = mades t0.
Proof. intros (l & -> & H). induction l as [|c l IH]; [done|]. cbn in H. apply andb_true_iff in H as [Hc H]. rewrite <-IH by done. by destruct c. Qed.
Lemma unlinked_ext t0 t : ext t0 t -> unlinked t = unlinked t0.
Proof. intros (l & -> & H). induction l as [|c l IH]; [done|]. cbn in H. apply andb_true_iff in H as [Hc H]. rewrite <-IH by done. by destruct c. Qed.

(** ** Calls in a trace *)

(** A call that did not fail. *)
Definition worked (c : call) (t : list call) : Prop := exists l t0, t = l ++ c :: t0 /\ 0 <= k_ret k (c :: t0).
(** The directory [name] was made, or was there already, and then opened. *)
Definition opened_at (parent : Z) (name : cstr) (fd : Z) (t : list call) : Prop := exists l t0, let mkdir := C_mkdirat parent name :: t0 in
  t = l ++ C_openat parent name :: mkdir /\ (k_ret k mkdir = 0 \/ k_ret k mkdir = - EEXIST) /\ fd = k_ret k (C_openat parent name :: mkdir) /\ 0 <= fd.
(** The contents of a file of the one directory were written to that of the
    other. *)
Definition copied (from to : Z) (name : cstr) (t : list call) : Prop := exists v t0, k_text k (C_read from name :: t0) = Some v /\
  exists l, t = l ++ C_write to name v :: C_read from name :: t0 /\ 0 <= k_ret k (C_write to name v :: C_read from name :: t0).
Lemma worked_later c l t : worked c t -> worked c (l ++ t).
Proof. intros (l' & t0 & -> & H). exists (l ++ l'), t0. by rewrite app_assoc. Qed.
Lemma opened_later p n fd l t : opened_at p n fd t -> opened_at p n fd (l ++ t).
Proof. intros (l' & t0 & -> & H). exists (l ++ l'), t0. by rewrite app_assoc. Qed.
Lemma copied_later a b n l t : copied a b n t -> copied a b n (l ++ t).
Proof. intros (v & t0 & Hv & l' & -> & H). exists v, t0. split; [done|]. exists (l ++ l'). by rewrite app_assoc. Qed.
Lemma opened_asked p n fd t : opened_at p n fd t -> C_mkdirat p n ∈ t.
Proof. intros (l & t0 & -> & _). apply elem_of_app. right. right. left. Qed.

(** What makes the controller available to the groups inside of [fd]. *)
Definition enabling (c : nat) (v fd : Z) : call :=
  if v =? TST_CG_V2 then C_write fd subtree_control (str "+" ++ ctrl_name c) else C_write fd (str "cgroup.clone_children") (dec 1).
Definition cpuset_files (r : cgroup_root) : list cstr :=
  if no_cpuset_prefix r then [str "mems"; str "cpus"] else [str "cpuset.mems"; str "cpuset.cpus"].
(** The controller was enabled in [ltp], in version 2 it was asked for at the
    mount point as well, and in version 1 the CPUs were copied from there. *)
Record enabled (c : nat) (r : cgroup_root) (t : list call) : Prop := {
  en_ltp : worked (enabling c (ver r) (dir_fd (ltp_dir r))) t;
  en_mnt : ver r = TST_CG_V2 -> enabling c (ver r) (dir_fd (mnt_dir r)) ∈ t;
  en_cpuset : ver r <> TST_CG_V2 -> c = CTRL_CPUSET -> forall name, name ∈ cpuset_files r -> copied (dir_fd (mnt_dir r)) (dir_fd (ltp_dir r)) name t
}.

Lemma enabled_later c r l t : enabled c r t -> enabled c r (l ++ t).
Proof. intros [H1 H2 H3]. split; [by apply worked_later|intros Hv; apply elem_of_app; right; by apply H2|intros Hv Hc name Hn; by apply copied_later, H3]. Qed.
Lemma enabled_same c r r' t : ver r' = ver r -> dir_fd (ltp_dir r') = dir_fd (ltp_dir r) -> dir_fd (mnt_dir r') = dir_fd (mnt_dir r) -> no_cpuset_prefix r' = no_cpuset_prefix r ->
  enabled c r t -> enabled c r' t.
Proof. intros E1 E2 E3 E4 [H1 H2 H3]. unfold cpuset_files in *. split; unfold cpuset_files; by rewrite ?E1, ?E2, ?E3, ?E4. Qed.

(** ** One root after the other steps *)
Section Root.
Context (s : cg) (i : nat) (Hi : (i < length (roots s))%nat).

(** The state with another root [i], name of the test and calls. *)
Definition now (b : cstr) (r : cgroup_root) (t : list call) : cg := with_trace t (with_test_dir b (with_roots (<[i := r]> (roots s)) s)).

Lemma now_root b r t : roots (now b r t) !! i = Some r.
Proof using Hi. by apply list_lookup_insert_eq. Qed.
Lemma wp_now_root b r t Q : Q r (now b r t) -> wp (root_at i) Q (now b r t).
Proof using Hi. intros HQ. eapply wp_root_at; [apply now_root|done]. Qed.
Lemma wp_now_set b r t f Q : Q tt (now b (f r) t) -> wp (set_root i f) Q (now b r t).
Proof using Hi. intros HQ. eapply wp_set_root; [apply now_root|]. unfold now at 1. cbn [roots with_trace with_test_dir with_roots]. by rewrite list_insert_insert_eq. Qed.
Lemma wp_now_call c b r t Q : quiet c && numeric c = true -> (forall t', ext t t' -> worked c t' -> Q tt (now b r t')) -> wp (safe_ k c) Q (now b r t).
Proof. intros [Hc Hn]%andb_true_iff HQ. apply wp_safe_; [done|]. intros Hret. apply (HQ (c :: t)); [by apply ext_cons|by exists [], t]. Qed.
Lemma wp_now_sys c b r t Q : quiet c = true -> (forall x t', ext t t' -> c ∈ t' -> Q x (now b r t')) -> wp (sys k c) Q (now b r t).
Proof. intros Hc HQ. apply wp_sys. apply (HQ _ (c :: t)); [by apply ext_cons|left]. Qed.
Lemma wp_now_mk pw w b r t Q : w <> Mnt -> dir_root (dir_of pw r) = i ->
  let p := dir_of pw r in
  let name := match w with Ltp => str "ltp" | Drain => str "drain" | _ => b end in
  let t1 := C_mkdirat (dir_fd p) name :: t in
  (forall fd, k_ret k t1 = 0 \/ k_ret k t1 = - EEXIST -> 0 <= fd -> fd = k_ret k (C_openat (dir_fd p) name :: t1) ->
     Q tt (now b (set_dir w (mkDir (Some (name_in w)) (Some (PRoot i pw)) i (dir_ctrls p) fd (k_ret k t1 =? 0)) r) (C_openat (dir_fd p) name :: t1))) ->
  wp (cgroup_dir_mk k (PRoot i pw) (name_in w) (PRoot i w)) Q (now b r t).
Proof using Hi.
  intros Hw Hr p name t1 HQ. eapply wp_dir_mk; [apply now_root|done|]. replace (text_of _ _ _) with name by by destruct w. intros Hmk Hfd. fold p.
  specialize (HQ _ Hmk Hfd eq_refl). unfold now in *. cbn [roots with_trace with_test_dir with_roots trace] in *. by rewrite list_insert_insert_eq.
Qed.
Lemma wp_now_copy_cpuset b r t Q : (forall t', ext t t' -> (forall name, name ∈ cpuset_files r -> copied (dir_fd (mnt_dir r)) (dir_fd (ltp_dir r)) name t') -> Q tt (now b r t')) ->
  wp (cgroup_copy_cpuset k i) Q (now b r t).
Proof using Hi.
  intros HQ. unfold cgroup_copy_cpuset. apply wp_bind, wp_now_root. fold (cpuset_files r).
  apply (wp_each_done (fun done s' => exists t', ext t t' /\ (forall name, name ∈ done -> copied (dir_fd (mnt_dir r)) (dir_fd (ltp_dir r)) name t') /\ s' = now b r t')).
  - exists t. split_and!; [apply ext_refl|by intros name ?%elem_of_nil|done].
  - intros done name s1 (t1 & H1 & Hc & ->) _. apply wp_bind, wp_readat. intros v Hv _. cbn [now trace with_trace with_test_dir with_roots] in *.
    apply wp_safe_; [done|]. intros Hw. cbn [trace with_trace] in Hw. set (c1 := C_read _ _) in *. set (c2 := C_write _ _ _) in *. exists (c2 :: c1 :: t1). split_and!; [|  |done].
    + eapply ext_trans; [exact H1|]. eapply ext_trans; by apply ext_cons.
    + intros x [Hx| ->%list_elem_of_singleton]%elem_of_app; [apply (copied_later _ _ _ [c2; c1]); by apply Hc|]. exists v, t1. split; [done|]. by exists [].
  - intros s1 (t1 & H1 & Hc & ->). by apply HQ.
Qed.
End Root.

(** ** Making the directories *)
Definition opened (fd : Z) : Prop := 0 <= fd /\ exists x y t, fd = k_ret k (C_openat x y :: t).
Definition dir_text (b : cstr) (w : which) : cstr := match w with Ltp => str "ltp" | Drain => str "drain" | _ => b end.
(** The directory [w] of a root, if the last attempt made it. *)
Definition made (b : cstr) (r : cgroup_root) (w : which) : list (Z * cstr) :=
  if dir_created (dir_of w r) then [(dir_fd (dir_of (inside_of w) r), dir_text b w)] else [].

Record mkdirs_post (c : nat) (needs_ver : Z) (i : nat) (b : cstr) (r r' : cgroup_root) (t0 t : list call) : Prop := {
  mp_ver : ver r <> 0 /\ fits needs_ver (ver r);
  mp_same : ver r' = ver r /\ mnt_path r' = mnt_path r /\ root_ctrls r' = root_ctrls r /\ we_mounted_it r' = we_mounted_it r /\ no_cpuset_prefix r' = no_cpuset_prefix r;
  mp_mnt : mnt_dir r' = set_dir_ctrls (add_ctrl (dir_ctrls (mnt_dir r)) c) (mnt_dir r);
  mp_ltp : if dir_fd (ltp_dir r) =? 0
           then exists fd cr, opened fd /\ ltp_dir r' = mkDir (Some DLtp) (Some (PRoot i Mnt)) i (dir_ctrls (mnt_dir r')) fd cr
           else ltp_dir r' = set_dir_ctrls (Z.lor (dir_ctrls (ltp_dir r)) (dir_ctrls (mnt_dir r'))) (ltp_dir r);
  mp_sub : forall w, w = Drain \/ w = Test ->
           exists fd cr, opened fd /\ dir_of w r' = mkDir (Some (name_in w)) (Some (PRoot i Ltp)) i (dir_ctrls (ltp_dir r')) fd cr;
  mp_mades : mades t = made b r' Test ++ made b r' Drain ++ (if dir_fd (ltp_dir r) =? 0 then made b r' Ltp else []) ++ mades t0;
  mp_unlinked : unlinked t = unlinked t0;
  mp_calls : exists l, t = l ++ t0;
  mp_opened : forall w, w = Drain \/ w = Test \/ (w = Ltp /\ dir_fd (ltp_dir r) = 0) -> opened_at (dir_fd (dir_of (inside_of w) r')) (dir_text b w) (dir_fd (dir_of w r')) t;
  mp_enabled : exists o t1, t = o :: C_mkdirat (dir_fd (ltp_dir r')) b :: t1 /\ (c <> CTRL_BASE -> enabled c r' t1)
}.

Lemma wf_ver s i r : wf s -> roots s !! i = Some r -> ver r = 0 \/ ver r = TST_CG_V1 \/ ver r = TST_CG_V2.
Proof.
  intros W Hr. destruct i as [|i]; [destruct (wf_v2 _ W _ Hr) as [[? _]|?]; auto|]. destruct (wf_v1 _ W) as (n & _ & H). specialize (H _ _ Hr ltac:(lia)).
  destruct (S i <=? n)%nat; [right; left; by destruct H|by rewrite H; left].
Qed.

(** Neither of the two refusals because of the version. *)
Lemma fits_intro c needs_ver i r s : wf s -> roots s !! i = Some r -> (ver r <> 0 /\ has_ctrl (root_ctrls r) c = true) \/ (c = CTRL_BASE /\ i = 0%nat) ->
  (c = CTRL_BASE -> needs_ver = TST_CG_V2) -> (ver r =? TST_CG_V2) && (needs_ver =? TST_CG_V1) = false ->
  negb (ver r =? TST_CG_V2) && (needs_ver =? TST_CG_V2) = false -> ver r <> 0 /\ fits needs_ver (ver r).
Proof.
  intros W Hr Hor Hb E1 E2. unfold fits, TST_CG_V1, TST_CG_V2 in *. pose proof (wf_ver _ _ _ W Hr) as Hv. unfold TST_CG_V1, TST_CG_V2 in Hv.
  destruct (Z.eqb_spec (ver r) 2), (Z.eqb_spec needs_ver 1), (Z.eqb_spec needs_ver 2); cbn in *; try done; try lia.
  all: destruct Hor as [[? _]|[-> _]]; [|specialize (Hb eq_refl)]; lia.
Qed.

(** The first half: the [ltp] directory, with the controller enabled in it. *)
Record ltp_post (c : nat) (i : nat) (r r' : cgroup_root) (t0 t : list call) : Prop := {
  lp_same : ver r' = ver r /\ mnt_path r' = mnt_path r /\ root_ctrls r' = root_ctrls r /\ we_mounted_it r' = we_mounted_it r /\ no_cpuset_prefix r' = no_cpuset_prefix r /\ mnt_dir r' = mnt_dir r;
  lp_root : dir_root (ltp_dir r') = i;
  lp_ltp : if dir_fd (ltp_dir r) =? 0
           then exists fd cr, opened fd /\ ltp_dir r' = mkDir (Some DLtp) (Some (PRoot i Mnt)) i (dir_ctrls (mnt_dir r')) fd cr
           else ltp_dir r' = set_dir_ctrls (Z.lor (dir_ctrls (ltp_dir r)) (dir_ctrls (mnt_dir r'))) (ltp_dir r);
  lp_mades : mades t = (if dir_fd (ltp_dir r) =? 0 then made [] r' Ltp else []) ++ mades t0;
  lp_unlinked : unlinked t = unlinked t0;
  lp_calls : exists l, t = l ++ t0;
  lp_opened : dir_fd (ltp_dir r) = 0 -> opened_at (dir_fd (mnt_dir r')) (str "ltp") (dir_fd (ltp_dir r')) t
}.

Lemma ltp_post_ext c i r r' t0 t t' : ltp_post c i r r' t0 t -> ext t t' -> ltp_post c i r r' t0 t'.
Proof.
  intros [] H. split; try done; [by rewrite (mades_ext _ _ H)|by rewrite (unlinked_ext _ _ H)|..]; destruct H as (l & -> & _).
  - destruct lp_calls0 as (l' & ->). exists (l ++ l'). by rewrite app_assoc.
  - intros Hfd. by apply opened_later, lp_opened0.
Qed.

Lemma wp_ltp c i b r t Q s : (i < length (roots s))%nat -> dir_root (mnt_dir r) = i -> (dir_fd (ltp_dir r) <> 0 -> dir_root (ltp_dir r) = i) ->
  (forall r' t', ltp_post c i r r' t t' -> Q tt (now s i b r' t')) ->
  wp (if dir_fd (ltp_dir r) =? 0 then cgroup_dir_mk k (PRoot i Mnt) DLtp (PRoot i Ltp)
      else set_root i (fun r => set_dir Ltp (set_dir_ctrls (Z.lor (dir_ctrls (ltp_dir r)) (dir_ctrls (mnt_dir r))) (ltp_dir r)) r)) Q (now s i b r t).
Proof.
  intros Hi Hm Hl HQ. wps.
  - apply (wp_now_mk s i Hi Mnt Ltp); [done|done|]. intros fd Hmk Hfd Efd. apply HQ. split; try done.
    + cbn. rewrite E. eexists _, _. split; [split; [done|by eauto]|done].
    + rewrite E. cbn -[made]. unfold made. cbn. by destruct (k_ret k _ =? 0).
    + eexists [_; _]. done.
    + intros _. by exists [], t.
  - apply wp_now_set; [done|]. apply HQ. apply Z.eqb_neq in E as Hne. split; try done; cbn; try by rewrite E. { by apply Hl. } by exists [].
Qed.

(** The second half: the controller is enabled before the directories in
    [ltp] are made. *)
Lemma wp_enable c v i b r t Q s : (i < length (roots s))%nat -> v = (ver r =? TST_CG_V2) ->
  (forall t', ext t t' -> (c <> CTRL_BASE -> worked (enabling c (ver r) (dir_fd (ltp_dir r))) t') ->
     (ver r <> TST_CG_V2 -> c = CTRL_CPUSET -> forall name, name ∈ cpuset_files r -> copied (dir_fd (mnt_dir r)) (dir_fd (ltp_dir r)) name t') -> Q tt (now s i b r t')) ->
  wp (when (negb (c =? CTRL_BASE)%nat) (if v then safe_ k (C_write (dir_fd (ltp_dir r)) subtree_control (str "+" ++ ctrl_name c))
      else _ ← safe_ k (C_write (dir_fd (ltp_dir r)) (str "cgroup.clone_children") (dec 1)); when (c =? CTRL_CPUSET)%nat (cgroup_copy_cpuset k i))) Q (now s i b r t).
Proof.
  intros Hi -> HQ. unfold enabling in HQ. wps.
  - apply wp_now_call; [done|]. intros t1 Ht Hin. apply HQ; [done|done|]. by apply Z.eqb_eq in E0.
  - apply wp_now_call; [done|]. intros t1 Ht Hin. wps; [|apply HQ; [done|done|]; intros _ Hc; by apply Nat.eqb_neq in E1].
    apply wp_now_copy_cpuset; [done|]. intros t' Ht' Hcp. apply HQ; [by eapply ext_trans| |by intros _ _]. intros _. destruct Ht' as (l & -> & _). by apply worked_later.
  - apply negb_false_iff, Nat.eqb_eq in E as ->. by apply HQ; [apply ext_refl|..].
Qed.

(** At the mount point. *)
Lemma wp_ask c v i b r t Q s : (i < length (roots s))%nat -> v = (ver r =? TST_CG_V2) ->
  (forall t', ext t t' -> (c <> CTRL_BASE -> ver r = TST_CG_V2 -> enabling c (ver r) (dir_fd (mnt_dir r)) ∈ t') -> Q tt (now s i b r t')) ->
  wp (when (v && negb (c =? CTRL_BASE)%nat) (if we_mounted_it r then safe_ k (C_write (dir_fd (mnt_dir r)) subtree_control (str "+" ++ ctrl_name c))
     else _ ← sys k (C_write (dir_fd (mnt_dir r)) subtree_control (str "+" ++ ctrl_name c)); mret tt)) Q (now s i b r t).
Proof.
  intros Hi -> HQ. unfold enabling in HQ. wps.
  - apply andb_true_iff in E as [E _]. rewrite E in HQ. apply wp_now_call; [done|]. intros t1 Ht (l & t0 & -> & _).
    apply HQ; [done|]. intros _ _. apply elem_of_app. right. left.
  - apply andb_true_iff in E as [E _]. rewrite E in HQ. apply wp_now_sys; [done|]. intros x t1 Ht Hin. wps. by apply HQ.
  - apply HQ; [apply ext_refl|]. intros Hne Hv. rewrite Hv, (proj2 (Nat.eqb_neq _ _) Hne) in E. done.
Qed.

Lemma wp_mkdirs c needs_ver test_pid i q Q s : wf s -> ctrls s !! c = Some (Some i, q) -> (c = CTRL_BASE -> needs_ver = TST_CG_V2) ->
  (forall s', lacking needs_ver c s' -> Why TCONF s') ->
  let b := str "test-" ++ dec (if test_pid =? 0 then pid else test_pid) in
  (forall r r' t, roots s !! i = Some r -> mkdirs_post c needs_ver i b r r' (trace s) t -> Q tt (now s i b r' t)) ->
  wp (cgroup_mkdirs k pid c (c =? CTRL_BASE)%nat needs_ver test_pid) Q s.
Proof.
  intros W Hc Hbase HW b HQ. destruct (wf_ctrl _ W _ _ _ Hc) as (r & Hr & Hor). pose proof (lookup_lt_Some _ _ _ Hr) as Hi. specialize (HQ r). unfold cgroup_mkdirs.
  wps. eapply wp_ctrl_root; [exact Hc|]. cbn [fst]. wps. eapply wp_set_root; [exact Hr|]. set (r1 := set_dir Mnt _ r).
  change (with_roots (<[i := r1]> (roots s)) s) with (now s i (cgroup_test_dir s) r1 (trace s)). set (b0 := cgroup_test_dir s). unfold cgroup_ctrl_on_v2.
  wps. eapply wp_ctrl_root; [exact Hc|]. cbn [fst]. wps. apply wp_now_root; [done|]. apply wp_ret. change (ver r1) with (ver r).
  assert (Hno : ~ fits needs_ver (ver r) -> Why TCONF (now s i b0 r1 (trace s))).
  { intros Hf. apply HW. right. exists (Some i), q. split; [done|]. exists r1. split; [by apply now_root|done]. }
  destruct ((ver r =? TST_CG_V2) && (needs_ver =? TST_CG_V1)) eqn:E1.
  { apply wp_brk, Hno. apply andb_true_iff in E1 as [E1%Z.eqb_eq E2%Z.eqb_eq]. intros [Hf _]. rewrite Hf in E1; done. }
  destruct (negb (ver r =? TST_CG_V2) && (needs_ver =? TST_CG_V2)) eqn:E2.
  { apply wp_brk, Hno. apply andb_true_iff in E2 as [E2%negb_true_iff%Z.eqb_neq E3%Z.eqb_eq]. intros [_ Hf]. by apply E2, Hf. }
  destruct (fits_intro c needs_ver i r s W Hr Hor Hbase E1 E2) as [Hv Hfit]. clear Hno E1 E2. wps. apply wp_now_root; [done|].
  apply wp_bind, (wp_ask c); [done|done|]. intros t1 Ht1 Hask. apply wp_bind. apply (wp_ltp c); [done|exact (wf_mnt _ W i r Hr Hv)| |].
  { intros Hfd. destruct (dir_name (ltp_dir r)) eqn:En; [|by pose proof (wf_fd _ W i r Ltp Hr ltac:(done) En)]. apply (wf_dirs _ W i r Ltp Hr); [done|cbn; by rewrite En]. }
  intros r2 t2 P2. pose proof (lp_same _ _ _ _ _ _ P2) as (A1 & A2 & A3 & A4 & A5 & A6). wps. apply wp_now_root; [done|].
  apply wp_bind, (wp_enable c); [done|by rewrite A1|]. intros t3 Ht3 Hen Hcp. pose proof (ltp_post_ext _ _ _ _ _ _ _ P2 Ht3) as [_ L2 L3 L4 L5 L6 L7]. apply wp_bind.
  apply (wp_now_mk s i Hi Ltp Drain); [done|done|]. intros fd3 Hmk3 Hfd3 Efd3. cbn [dir_of]. wps. set (r3 := set_dir Drain _ r2). set (t4 := C_openat _ _ :: _).
  change (with_test_dir _ (now s i b0 r3 t4)) with (now s i b r3 t4). apply (wp_now_mk s i Hi Ltp Test); [done|done|]. intros fd5 Hmk5 Hfd5 Efd5. apply HQ; [done|].
  split; try done.
  - intros w [-> | ->]; [exists fd3|exists fd5]; eexists; (split; [split; [done|do 3 eexists; eassumption]|done]).
  - cbn -[made]. rewrite L4, (mades_ext _ _ Ht1). unfold made. cbn. by destruct (k_ret k _ =? 0), (k_ret k _ =? 0).
  - cbn. by rewrite L5, (unlinked_ext _ _ Ht1).
  - destruct L6 as (l & ->), Ht1 as (l1 & -> & _). unfold t4. rewrite (app_assoc l l1). by eexists (_ :: _ :: _ :: _ :: _).
  - intros w [->|[->|[-> Hz]]]; cbn [inside_of dir_of dir_text].
    + exists [C_openat (dir_fd (ltp_dir r3)) b; C_mkdirat (dir_fd (ltp_dir r3)) b], t3. done.
    + by exists [], t4.
    + apply (opened_later _ _ _ [C_openat _ _; C_mkdirat _ _; C_openat _ _; C_mkdirat _ _]). by apply L7.
  - eexists _, _. split; [done|]. intros Hne. apply (enabled_later c _ [C_openat _ _; C_mkdirat _ _]), (enabled_same c r2); [done..|].
    destruct Ht3 as (l3 & -> & _), (lp_calls _ _ _ _ _ _ P2) as (l2 & E2). split; [by apply Hen| |by apply Hcp].
    rewrite A1, A6, E2, app_assoc. intros Hv2. apply elem_of_app. right. by apply Hask.
Qed.

(** ** What the search for a hierarchy leaves alone *)
Definition kept (r r' : cgroup_root) : Prop :=
  (ver r <> 0 -> ver r' = ver r) /\ (forall w, w <> Mnt -> dir_of w r' = dir_of w r) /\ dir_ctrls (mnt_dir r') = dir_ctrls (mnt_dir r).
Record stays (s s' : cg) : Prop := {
  stays_roots : length (roots s') = length (roots s);
  stays_root : forall i r r', roots s !! i = Some r -> roots s' !! i = Some r' -> kept r r';
  stays_name : cgroup_test_dir s' = cgroup_test_dir s;
  stays_mades : mades (trace s') = mades (trace s);
  stays_unlinked : unlinked (trace s') = unlinked (trace s);
  stays_groups : (heap s', test_group s', drain_group s') = (heap s, test_group s, drain_group s)
}.

Lemma kept_refl r : kept r r.
Proof. done. Qed.
Lemma insert_stays i r0 r1 s s' : roots s !! i = Some r0 -> kept r0 r1 -> roots s' = <[i := r1]> (roots s) -> cgroup_test_dir s' = cgroup_test_dir s ->
  trace s' = trace s -> (heap s', test_group s', drain_group s') = (heap s, test_group s, drain_group s) -> stays s s'.
Proof.
  intros H0 Hk Er En Et Eg. split; rewrite ?Er, ?Et; try done; [by rewrite length_insert|]. intros j r r' Hr Hr'.
  apply list_lookup_insert_Some in Hr' as [(<- & <- & _)|[_ Hr']]; [by rewrite H0 in Hr; injection Hr as <-|]. rewrite Hr in Hr'. injection Hr' as <-. done.
Qed.
Lemma same_stays s s' : roots s' = roots s -> cgroup_test_dir s' = cgroup_test_dir s -> ext (trace s) (trace s') ->
  (heap s', test_group s', drain_group s') = (heap s, test_group s, drain_group s) -> stays s s'.
Proof.
  intros Er En Ht Eg. split; rewrite ?Er; try done; [|by apply mades_ext|by apply unlinked_ext]. intros i r r' Hr Hr'. rewrite Hr in Hr'. injection Hr' as <-. apply kept_refl.
Qed.
Lemma stays_trans a b c : stays a b -> stays b c -> stays a c.
Proof.
  intros [L1 R1 N1 M1 U1 G1] [L2 R2 N2 M2 U2 G2]. split; try congruence. intros i r r' Hr Hr'. destruct (lookup_lt_is_Some_2 (roots b) i) as [r1 H1].
  { rewrite L1. by apply lookup_lt_Some in Hr. }
  destruct (R1 _ _ _ Hr H1) as (A1 & B1 & C1), (R2 _ _ _ H1 Hr') as (A2 & B2 & C2). split_and!; [|intros w Hw; by rewrite B2, B1|congruence].
  intros Hv. by rewrite A2, A1 by (rewrite ?A1 by done; done).
Qed.

Lemma step_stays s s' : wf s -> step k s s' -> stays s s'.
Proof.
  intros W H. destruct H as [s' [t Ht|r dir fd buf t0 Hr Hc Hb Hv|i r dir fd field np Hr Hi Hv Hf Hd]|t Ht|i r mounted cr Hr Hl _|c x b Hx|x Hx].
  - apply same_stays; [done|done| |done]. eapply ext_weaken; [apply plain_quiet|done].
  - eapply insert_stays; [exact Hr| |done..]. split_and!; [|by intros []|done]. cbn. intros Hne. destruct (wf_v2 _ W _ Hr) as [[? _]| ->]; done.
  - eapply insert_stays; [exact Hr| |done..]. split_and!; [done|by intros []|done].
  - by apply same_stays.
  - eapply insert_stays; [exact Hr| |done..]. split_and!; [done|by intros []|done].
  - apply same_stays; [done|done|apply ext_refl|done].
  - apply same_stays; [done|done|apply ext_refl|done].
Qed.
Lemma steps_stays s s' : wf s -> rtc (step k) s s' -> stays s s'.
Proof.
  intros W H. induction H as [s|a b c Hab _ IH]; [apply same_stays; [done|done|apply ext_refl|done]|]. eapply stays_trans; [by apply step_stays|]. apply IH. by eapply step_wf.
Qed.

(** ** One controller *)
Lemma find_index_Some {A} (p : A -> bool) l i : find_index p l = Some i -> (i < length l)%nat /\ exists x, l !! i = Some x /\ p x = true.
Proof.
  unfold find_index. cut (forall n, (fix go l i := match l with [] => None | x :: l => if p x then Some i else go l (S i) end) l n = Some i ->
    (n <= i < n + length l)%nat /\ exists x, l !! (i - n)%nat = Some x /\ p x = true).
  { intros H E. destruct (H 0%nat E) as ([_ ?] & x & Hx & ?). rewrite Nat.sub_0_r in Hx. eauto. }
  induction l as [|x l IH]; intros n E; [done|]. destruct (p x) eqn:Ex.
  - injection E as ->. split; [cbn; lia|]. exists x. by rewrite Nat.sub_diag.
  - destruct (IH _ E) as (Hl & y & Hy & Hp). split; [cbn; lia|]. exists y. split; [|done]. by replace (i - n)%nat with (S (i - S n)) by lia.
Qed.
Lemma find_ctrl_lt name c : cgroup_find_ctrl name = Some c -> (c < 18)%nat.
Proof. intros H. by apply find_index_Some in H as [H _]. Qed.
Lemma base_index c : (c < 18)%nat -> streq (ctrl_name c) (str "base") = (c =? CTRL_BASE)%nat.
Proof. intros H. do 18 (destruct c as [|c]; [done|]). lia. Qed.

Definition test_name (test_pid : Z) : cstr := str "test-" ++ dec (if test_pid =? 0 then pid else test_pid).

Lemma wp_require name c needs_ver test_pid Q s : wf s -> cgroup_find_ctrl name = Some c -> (forall s', lacking needs_ver c s' -> Why TCONF s') ->
  (forall s1 i q r r' t, rtc (step k) s s1 -> ctrls s1 !! c = Some (Some i, q) -> roots s1 !! i = Some r ->
     mkdirs_post c needs_ver i (test_name test_pid) r r' (trace s1) t -> Q tt (now s1 i (test_name test_pid) r' t)) ->
  wp (tst_cg_require k tmpdir pid name needs_ver test_pid) Q s.
Proof using Hclash Hpaths Htmp.
  intros W Hn HW HQ. pose proof (find_ctrl_lt _ _ Hn) as Hc. unfold tst_cg_require. rewrite Hn. wps.
  { apply HW. left. rewrite base_index in E by done. apply andb_true_iff in E as [E1%Nat.eqb_eq E2%negb_true_iff%Z.eqb_neq]. done. }
  rewrite base_index in * by done. destruct (ctrl_some _ _ W Hc) as [x Hx]. eapply wp_set_ctrl; [exact Hx|]. set (s0 := with_ctrls _ s). assert (H0 : step k s s0) by by apply step_require.
  wps. eapply wp_find_hierarchy; [done|done|done|by eapply step_wf|done|intros s' q Hq; apply HW; right; by exists None, q|]. intros s1 H1 (i & q & Hi). assert (H01 : rtc (step k) s s1) by by eapply rtc_l.
  eapply wp_mkdirs; [by eapply steps_wf|exact Hi| |done|].
  - intros ->. apply andb_false_iff in E as [E|E]; [done|]. by apply negb_false_iff, Z.eqb_eq in E.
  - intros r r' t Hr P. by eapply HQ.
Qed.

(** ** Between two controllers *)
Record inv (needs_ver : Z) (s : cg) : Prop := {
  inv_wf : wf s;
  inv_fits : forall i r, roots s !! i = Some r -> dir_ctrls (mnt_dir r) <> 0 -> ver r <> 0 /\ fits needs_ver (ver r);
  inv_nonzero : forall i r w, roots s !! i = Some r -> dir_ctrls (dir_of w r) <> 0 -> dir_ctrls (mnt_dir r) <> 0;
  inv_mnt : forall i r w c, roots s !! i = Some r -> has_ctrl (dir_ctrls (dir_of w r)) c = true -> has_ctrl (dir_ctrls (mnt_dir r)) c = true;
  inv_ltp : forall i r c, roots s !! i = Some r -> has_ctrl (dir_ctrls (test_dir r)) c = true -> has_ctrl (dir_ctrls (ltp_dir r)) c = true;
  inv_drain : forall i r, roots s !! i = Some r -> dir_ctrls (drain_dir r) = dir_ctrls (test_dir r);
  inv_named : forall i r w, roots s !! i = Some r -> w = Drain \/ w = Test -> dir_ctrls (dir_of w r) <> 0 -> dir_name (dir_of w r) <> None
}.
Definition required (s : cg) (c : nat) : Prop := exists i r, roots s !! i = Some r /\ has_ctrl (dir_ctrls (test_dir r)) c = true.

Lemma initial_inv needs_ver : inv needs_ver initial.
Proof.
  assert (Hn : forall i r, roots initial !! i = Some r -> r = no_root) by (intros i r H; cbn [initial roots] in H; by apply lookup_replicate in H as [-> _]).
  split; [apply initial_wf|..].
  all: intros i r; intros; match goal with H : roots initial !! _ = Some _ |- _ => apply Hn in H; subst r end; try done.
  all: match goal with w : which |- _ => by destruct w | |- _ => idtac end.
Qed.

Lemma stays_back s s' i r' : stays s s' -> roots s' !! i = Some r' -> exists r, roots s !! i = Some r /\ kept r r'.
Proof.
  intros S H. destruct (lookup_lt_is_Some_2 (roots s) i) as [r Hr]; [rewrite <-(stays_roots _ _ S); by apply lookup_lt_Some in H|]. exists r. split; [done|by eapply stays_root].
Qed.
Lemma kept_ctrls r r' w : kept r r' -> dir_ctrls (dir_of w r') = dir_ctrls (dir_of w r).
Proof. intros (_ & H & Hm). destruct w; [done|by rewrite H..]. Qed.

Lemma kept_dirs r r' : kept r r' -> ltp_dir r' = ltp_dir r /\ drain_dir r' = drain_dir r /\ test_dir r' = test_dir r.
Proof. intros (_ & H & _). split_and!; [by apply (H Ltp)|by apply (H Drain)|by apply (H Test)]. Qed.

Lemma stays_inv needs_ver s s' : inv needs_ver s -> stays s s' -> wf s' -> inv needs_ver s'.
Proof.
  intros [_ F Z M L D N] S W. split; [done|..]; intros i r'.
  - intros H Hc. destruct (stays_back _ _ _ _ S H) as (r & Hr & K). change (mnt_dir r') with (dir_of Mnt r') in Hc. rewrite (kept_ctrls _ _ _ K) in Hc.
    destruct (F i r Hr Hc) as [Hv Hf]. destruct K as (Kv & _). by rewrite Kv.
  - intros w H Hc. destruct (stays_back _ _ _ _ S H) as (r & Hr & K). rewrite (kept_ctrls _ _ _ K) in Hc. change (mnt_dir r') with (dir_of Mnt r'). rewrite (kept_ctrls _ _ _ K). by eapply Z.
  - intros w c H Hc. destruct (stays_back _ _ _ _ S H) as (r & Hr & K). rewrite (kept_ctrls _ _ _ K) in Hc. change (mnt_dir r') with (dir_of Mnt r'). rewrite (kept_ctrls _ _ _ K). by eapply M.
  - intros c H. destruct (stays_back _ _ _ _ S H) as (r & Hr & (-> & _ & ->)%kept_dirs). by eapply L.
  - intros H. destruct (stays_back _ _ _ _ S H) as (r & Hr & (_ & -> & ->)%kept_dirs). by eapply D.
  - intros w H Hw. destruct (stays_back _ _ _ _ S H) as (r & Hr & _ & K & _). rewrite (K w) by by destruct Hw as [-> | ->]. by eapply N.
Qed.
Lemma stays_required s s' c : stays s s' -> required s c -> required s' c.
Proof.
  intros S (i & r & Hr & Hc). destruct (lookup_lt_is_Some_2 (roots s') i) as [r' Hr']; [rewrite (stays_roots _ _ S); by apply lookup_lt_Some in Hr|].
  exists i, r'. split; [done|]. by destruct (kept_dirs _ _ (stays_root _ _ S _ _ _ Hr Hr')) as (_ & _ & ->).
Qed.

(** The directories of the root after [cgroup_mkdirs]. *)
Section Post.
Context (c : nat) (needs_ver : Z) (i : nat) (b : cstr) (s : cg) (r r' : cgroup_root) (t : list call).
Context (I : inv needs_ver s) (Hr : roots s !! i = Some r) (P : mkdirs_post c needs_ver i b r r' (trace s) t).

Lemma post_mnt d : has_ctrl (dir_ctrls (mnt_dir r')) d = (c =? d)%nat || has_ctrl (dir_ctrls (mnt_dir r)) d.
Proof using P. rewrite (mp_mnt _ _ _ _ _ _ _ _ P). apply has_add. Qed.
Lemma post_ltp d : has_ctrl (dir_ctrls (ltp_dir r')) d = has_ctrl (dir_ctrls (mnt_dir r')) d.
Proof using I Hr P.
  pose proof (mp_ltp _ _ _ _ _ _ _ _ P) as H. destruct (_ =? 0); [by destruct H as (fd & cr & _ & ->)|]. rewrite H. cbn [dir_ctrls set_dir_ctrls]. rewrite has_lor.
  destruct (has_ctrl (dir_ctrls (ltp_dir r)) d) eqn:E; [|done]. cbn. rewrite post_mnt, (inv_mnt _ _ I i r Ltp d Hr E). by rewrite orb_true_r.
Qed.
Lemma post_sub w : w = Drain \/ w = Test -> dir_ctrls (dir_of w r') = dir_ctrls (ltp_dir r').
Proof using P. intros Hw. by destruct (mp_sub _ _ _ _ _ _ _ _ P w Hw) as (fd & cr & _ & ->). Qed.
Lemma post_all w d : has_ctrl (dir_ctrls (dir_of w r')) d = (c =? d)%nat || has_ctrl (dir_ctrls (mnt_dir r)) d.
Proof using I Hr P. rewrite <-post_mnt. destruct w; [done|by apply post_ltp|rewrite post_sub by auto; by apply post_ltp..]. Qed.
Lemma post_named w : dir_name (dir_of w r') = None -> w = Mnt \/ (w = Ltp /\ dir_fd (ltp_dir r) <> 0 /\ dir_name (ltp_dir r) = None).
Proof using P.
  intros H. destruct w; [by left| |exfalso..]; cbn [dir_of] in H.
  - right. pose proof (mp_ltp _ _ _ _ _ _ _ _ P) as L. destruct (Z.eqb_spec (dir_fd (ltp_dir r)) 0); [by destruct L as (fd & cr & _ & L); rewrite L in H|]. by rewrite L in H.
  - by destruct (mp_sub _ _ _ _ _ _ _ _ P Drain ltac:(auto)) as (fd & cr & _ & L); cbn in L; rewrite L in H.
  - by destruct (mp_sub _ _ _ _ _ _ _ _ P Test ltac:(auto)) as (fd & cr & _ & L); cbn in L; rewrite L in H.
Qed.

Lemma post_dirs w : w <> Mnt -> dir_name (dir_of w r') = Some (name_in w) /\ dir_root (dir_of w r') = i /\ dir_parent (dir_of w r') = Some (PRoot i (inside_of w)).
Proof using I Hr P.
  intros Hw. destruct w; [done|..|by destruct (mp_sub _ _ _ _ _ _ _ _ P Drain ltac:(auto)) as (fd & cr & _ & ->)
    |by destruct (mp_sub _ _ _ _ _ _ _ _ P Test ltac:(auto)) as (fd & cr & _ & ->)].
  cbn [dir_of]. pose proof (mp_ltp _ _ _ _ _ _ _ _ P) as L. destruct (Z.eqb_spec (dir_fd (ltp_dir r)) 0) as [|Hfd]; [by destruct L as (fd & cr & _ & ->)|]. rewrite L. cbn.
  destruct (dir_name (ltp_dir r)) eqn:En; [|by pose proof (wf_fd _ (inv_wf _ _ I) i r Ltp Hr ltac:(done) En)].
  rewrite <-En. apply (wf_dirs _ (inv_wf _ _ I) i r Ltp Hr); [done|]. cbn. by rewrite En.
Qed.

Lemma now_wf : wf (now s i b r' t).
Proof using I Hr P.
  destruct (mp_ver _ _ _ _ _ _ _ _ P) as [Hv _]. destruct (mp_same _ _ _ _ _ _ _ _ P) as (E1 & _ & E2 & _).
  apply (wf_same (with_roots (<[i := r']> (roots s)) s)); [done|done|]. apply put_root_wf with r; [apply (inv_wf _ _ I)|done|by left|done|done|..].
  - intros _. rewrite (mp_mnt _ _ _ _ _ _ _ _ P). exact (wf_mnt _ (inv_wf _ _ I) i r Hr Hv).
  - intros w Hw _. by apply post_dirs.
  - intros w Hw Hn. by rewrite (proj1 (post_dirs w Hw)) in Hn.
Qed.

Lemma now_lookup j x : roots (now s i b r' t) !! j = Some x -> (j = i /\ x = r') \/ roots s !! j = Some x.
Proof using Type. clear I Hr P. cbn. intros H. apply list_lookup_insert_Some in H as [(-> & -> & _)|[_ H]]; [by left|by right]. Qed.

Lemma post_nonzero w : dir_ctrls (dir_of w r') <> 0.
Proof using I Hr P. apply (has_nonzero _ c). by rewrite post_all, Nat.eqb_refl. Qed.

Lemma now_inv : inv needs_ver (now s i b r' t).
Proof using I Hr P.
  destruct (mp_ver _ _ _ _ _ _ _ _ P) as [Hv Hf]. destruct (mp_same _ _ _ _ _ _ _ _ P) as (E1 & _).
  split; [apply now_wf|..]; intros j x.
  - intros [[-> ->]|H]%now_lookup; [by rewrite E1|by apply (inv_fits _ _ I j)].
  - intros w [[-> ->]|H]%now_lookup; [intros _; by apply (post_nonzero Mnt)|by apply (inv_nonzero _ _ I j)].
  - intros w d [[-> ->]|H]%now_lookup; [by rewrite post_all, post_mnt|by apply (inv_mnt _ _ I j)].
  - intros d [[-> ->]|H]%now_lookup; [|by apply (inv_ltp _ _ I j)]. by rewrite (post_all Test d : has_ctrl (dir_ctrls (test_dir r')) d = _), (post_all Ltp d : has_ctrl (dir_ctrls (ltp_dir r')) d = _).
  - intros [[-> ->]|H]%now_lookup; [|by apply (inv_drain _ _ I j)]. transitivity (dir_ctrls (ltp_dir r')); [by apply (post_sub Drain); auto|symmetry; by apply (post_sub Test); auto].
  - intros w [[-> ->]|H]%now_lookup Hw; [|by apply (inv_named _ _ I j)]. intros _. by rewrite (proj1 (post_dirs w ltac:(by destruct Hw as [-> | ->]))).
Qed.

Lemma now_required : required (now s i b r' t) c.
Proof using I Hr P.
  exists i, r'. split; [|by rewrite (post_all Test c : has_ctrl (dir_ctrls (test_dir r')) c = _), Nat.eqb_refl]. cbn. apply list_lookup_insert_eq. by apply lookup_lt_Some in Hr.
Qed.
Lemma now_required_old d : required s d -> required (now s i b r' t) d.
Proof using I Hr P.
  intros (j & x & Hx & Hd). destruct (decide (j = i)) as [->|Hne].
  - exists i, r'. rewrite Hr in Hx. injection Hx as <-. split; [cbn; apply list_lookup_insert_eq; by apply lookup_lt_Some in Hr|].
    rewrite (post_all Test d : has_ctrl (dir_ctrls (test_dir r')) d = _). by rewrite (inv_mnt _ _ I i r Test d Hr Hd), orb_true_r.
  - exists j, x. split; [|done]. cbn. by rewrite list_lookup_insert_ne.
Qed.
End Post.

Lemma wp_require_inv name c needs_ver test_pid Q s : inv needs_ver s -> cgroup_find_ctrl name = Some c -> (forall s', lacking needs_ver c s' -> Why TCONF s') ->
  (forall s', inv needs_ver s' -> required s' c -> (forall d, required s d -> required s' d) -> heap s' = heap s -> test_group s' = test_group s -> drain_group s' = drain_group s -> Q tt s') ->
  wp (tst_cg_require k tmpdir pid name needs_ver test_pid) Q s.
Proof using Hclash Hpaths Htmp.
  intros I Hn HW HQ. eapply wp_require; [apply (inv_wf _ _ I)|exact Hn|done|]. intros s1 i q r r' t H1 _ Hr P. pose proof (steps_stays _ _ (inv_wf _ _ I) H1) as S1.
  assert (I1 : inv needs_ver s1) by (eapply stays_inv; [exact I|done|]; eapply steps_wf; [apply (inv_wf _ _ I)|done]). pose proof (stays_groups _ _ S1) as [= G1 G2 G3].
  apply HQ; [by eapply now_inv|by eapply now_required| |done..]. intros d Hd. eapply now_required_old; [done|done|done|]. by eapply stays_required.
Qed.
End Require.
