(* ===== verification/CgroupGroup.v ===== *)
(** * Control groups: the groups of a test

    The group of a test and the one for its left-over processes are put
    together from the hierarchies of the required controllers; reading and
    writing the files of a group goes to the right directory of each. *)

From stdpp Require Import base list strings relations.
From Stdlib Require Import ZArith Lia.
From S2P Require Import Prelude ParseNum Tokens Cgroup CgroupSpec CgroupRequire.

Local Open Scope Z_scope.

(** ** Adding directories to a group *)
Section Groups.
Context (s : cg) (w : which) {Why : Z -> cg -> Prop}.
#[local] Abbreviation wp := (wpe Why).
(** Root [i] has a directory in the group, and it is the one for [c]. *)
Definition takes_part (i : nat) : bool :=
  match roots s !! i with Some r => negb (dir_ctrls (dir_of w r) =? 0) | None => false end.
Definition serves (c i : nat) : bool :=
  match roots s !! i with
  | Some r => negb (dir_ctrls (dir_of w r) =? 0) && (has_ctrl (dir_ctrls (dir_of w r)) c || ((c =? 0)%nat && negb (ver r =? TST_CG_V1)))
  | None => false
  end.
(** The group that the roots [l] make. *)
Record group_of (l : list nat) (g : tst_cg_group) : Prop := {
  go_len : length (dirs_by_ctrl g) = ROOTS_MAX;
  go_dirs : dirs g = (fun i => PRoot i w) <$> List.filter takes_part l;
  go_ctrl : forall c, (c < ROOTS_MAX)%nat -> dirs_by_ctrl g !! c = Some ((fun i => PRoot i w) <$> last (List.filter (serves c) l))
}.

Lemma no_group_of : group_of [] no_group.
Proof. split; [done|done|]. intros c Hc. exact (lookup_replicate_2 ROOTS_MAX None c Hc). Qed.

Lemma wp_add_by_ctrl k p d v1 l : forall by_ctrl Q,
  (forall by', length by' = length by_ctrl ->
     (forall c, by' !! c = if bool_decide (c ∈ l) && has_ctrl (dir_ctrls d) c && (c <? length by_ctrl)%nat then Some (Some p) else by_ctrl !! c) -> Q by' s) ->
  wp (add_by_ctrl k None p d v1 l by_ctrl) Q s.
Proof.
  induction l as [|c l IH]; intros by_ctrl Q HQ; cbn [add_by_ctrl].
  - wps. apply HQ; [done|]. intros c. by rewrite bool_decide_eq_false_2 by apply not_elem_of_nil.
  - wps; apply IH; intros by' Hl Hby; apply HQ; rewrite ?length_insert in Hl; [done| |done|]; intros e; rewrite Hby, ?length_insert.
    + destruct (decide (e = c)) as [->|Hne].
      * rewrite (bool_decide_eq_true_2 (c ∈ c :: l)) by left. rewrite E. destruct (Nat.ltb_spec c (length by_ctrl)); cbn; [|].
        -- destruct (bool_decide (c ∈ l)); cbn; [done|]. by rewrite list_lookup_insert_eq.
        -- rewrite andb_false_r. rewrite (lookup_ge_None_2 by_ctrl) by done. apply lookup_ge_None_2. by rewrite length_insert.
      * rewrite list_lookup_insert_ne by congruence. replace (bool_decide (e ∈ c :: l)) with (bool_decide (e ∈ l)); [done|]. apply bool_decide_ext. rewrite elem_of_cons. naive_solver.
    + destruct (decide (e = c)) as [->|Hne]; [by rewrite E, !andb_false_r|].
      replace (bool_decide (e ∈ c :: l)) with (bool_decide (e ∈ l)); [done|]. apply bool_decide_ext. rewrite elem_of_cons. naive_solver.
Qed.

Lemma wp_add_root k l i g r Q : group_of l g -> (length l < ROOTS_MAX)%nat -> roots s !! i = Some r -> dir_ctrls (dir_of w r) <> 0 -> dir_root (dir_of w r) = i ->
  (forall g', group_of (l ++ [i]) g' -> group_name g' = group_name g -> Q g' s) -> wp (cgroup_group_add_dir k None g (PRoot i w)) Q s.
Proof.
  intros G Hl Hr Hc Hi HQ. unfold cgroup_group_add_dir. wps. eapply wp_dir_at_root; [exact Hr|]. rewrite Hi. wps. eapply wp_root_at; [exact Hr|]. wps.
  apply wp_add_by_ctrl. intros by' Hlen Hby. assert (Hd : (length (dirs g) <= ROOTS_MAX)%nat).
  { rewrite (go_dirs _ _ G), length_fmap. pose proof (filter_length_le takes_part l). lia. }
  rewrite (proj2 (Nat.leb_le _ _) Hd). wps. apply HQ; [|done].
  assert (Hlb : forall x : option dptr, length (if ver r =? TST_CG_V1 then dirs_by_ctrl g else <[0%nat := x]> (dirs_by_ctrl g)) = ROOTS_MAX) by (intros; case_match; rewrite ?length_insert; apply (go_len _ _ G)).
  split; cbn [dirs dirs_by_ctrl].
  - by rewrite Hlen, Hlb.
  - rewrite List.filter_app, fmap_app, (go_dirs _ _ G). cbn [List.filter]. unfold takes_part at 3. rewrite Hr. by rewrite (proj2 (Z.eqb_neq _ _) Hc).
  - intros c Hcl. rewrite Hby, Hlb, (proj2 (Nat.ltb_lt _ _) Hcl), andb_true_r. rewrite bool_decide_eq_true_2 by (apply elem_of_seq; unfold ROOTS_MAX in Hcl; lia).
    cbn [andb]. rewrite List.filter_app. cbn [List.filter]. unfold serves at 2. rewrite Hr, (proj2 (Z.eqb_neq _ _) Hc). cbn [negb andb].
    destruct (has_ctrl _ c); cbn [orb]; [by rewrite last_snoc|]. destruct (ver r =? TST_CG_V1); cbn [negb].
    + rewrite andb_false_r, app_nil_r. by apply (go_ctrl _ _ G).
    + rewrite andb_true_r. destruct (Nat.eqb_spec c 0) as [->|Hne].
      * rewrite last_snoc. apply list_lookup_insert_eq. rewrite (go_len _ _ G). done.
      * rewrite app_nil_r, list_lookup_insert_ne by congruence. by apply (go_ctrl _ _ G).
Qed.

Lemma wp_root_dirs k rest : forall l g Q, group_of l g -> (length l + length rest <= ROOTS_MAX)%nat ->
  (forall i, i ∈ rest -> exists r, roots s !! i = Some r /\ (dir_ctrls (dir_of w r) <> 0 -> dir_root (dir_of w r) = i)) ->
  (forall g', group_of (l ++ rest) g' -> Q g' s) -> wp (root_dirs k w rest g) Q s.
Proof.
  induction rest as [|i rest IH]; intros l g Q G Hl Hr HQ; cbn [root_dirs].
  - wps. apply HQ. by rewrite app_nil_r.
  - cbn [length] in Hl. destruct (Hr i) as (r & Hi & Hroot); [by left|]. wps. eapply wp_dir_at_root; [exact Hi|].
    assert (Hrest : forall j, j ∈ rest -> exists r, roots s !! j = Some r /\ (dir_ctrls (dir_of w r) <> 0 -> dir_root (dir_of w r) = j)) by (intros j Hj; apply Hr; by right).
    wps.
    + apply (IH (l ++ [i])); [|rewrite length_app; cbn; lia|done|by rewrite <-app_assoc]. destruct G as [G1 G2 G3]. apply Z.eqb_eq in E.
      split; [done| |]; [|intros c Hc]; rewrite List.filter_app; cbn [List.filter].
      * unfold takes_part at 2. by rewrite Hi, E, app_nil_r.
      * unfold serves at 2. rewrite Hi, E, app_nil_r. by apply G3.
    + apply Z.eqb_neq in E. eapply wp_add_root; [exact G|lia|exact Hi|done|by apply Hroot|]. intros g' G' _. apply (IH (l ++ [i])); [done|rewrite length_app; cbn; lia|done|by rewrite <-app_assoc].
Qed.
End Groups.

(** ** The groups of the test *)
Definition live_roots (s : cg) : list nat := match all_roots s with Ok (l, _) => l | _ => [] end.

Lemma all_roots_runs s : wf s -> all_roots s = Ok (live_roots s, s).
Proof.
  intros W. pose proof (wp_all_roots (Why := any) (fun _ s' => s' = s) s W ltac:(done)) as H. unfold wpe, live_roots in *.
  assert (HE : forall e, all_roots s <> Err e).
  { intros e. unfold all_roots, cgroup_v2_mounted, root_at, get, deref, mbind, C_bind, mret, C_ret. destruct (roots s !! 0%nat); cbn; [|done]. by destruct (live _ _). }
  destruct (all_roots s) as [[l s']|e|]; [by subst|by destruct (HE e)|done].
Qed.
Lemma live_roots_spec s : wf s -> NoDup (live_roots s) /\ (length (live_roots s) <= ROOTS_MAX)%nat /\ forall i, (i ∈ live_roots s) <-> used s i.
Proof.
  intros W. pose proof (wp_all_roots (Why := any) (fun l _ => NoDup l /\ (length l <= ROOTS_MAX)%nat /\ forall i, (i ∈ l) <-> used s i) s W ltac:(done)) as H.
  unfold wpe in H. by rewrite (all_roots_runs s W) in H.
Qed.
Lemma wp_live_roots {Why} Q s : wf s -> Q (live_roots s) s -> wpe Why all_roots Q s.
Proof. intros W HQ. unfold wpe. by rewrite all_roots_runs. Qed.
Lemma live_roots_same s s' : roots s' = roots s -> live_roots s' = live_roots s.
Proof.
  intros E. unfold live_roots, all_roots, cgroup_v2_mounted, root_at, get, deref, mbind, C_bind, mret, C_ret. rewrite E.
  destruct (roots s !! 0%nat) as [r|]; cbn; [|done]. rewrite E. by destruct (live _ _).
Qed.
Lemma group_of_same s s' w l g : roots s' = roots s -> group_of s w l g -> group_of s' w l g.
Proof.
  intros E [G1 G2 G3]. assert (E1 : takes_part s' w = takes_part s w) by (unfold takes_part; by rewrite E).
  assert (E2 : serves s' w = serves s w) by (unfold serves; by rewrite E). split; [done|by rewrite E1|by rewrite E2].
Qed.

Lemma inv_same needs_ver s s' : roots s' = roots s -> ctrls s' = ctrls s -> inv needs_ver s -> inv needs_ver s'.
Proof. intros E1 E2 [W F Z M L D N]. split; rewrite ?E1; try done. by apply (wf_same s). Qed.

Definition group_for (w : which) (s : cg) : tst_cg_group := match w with Test => test_group s | _ => drain_group s end.

Section Kernel.
Context (k : kernel) (tmpdir : cstr) (pid needs_ver : Z) {Why : reasons k}.
#[local] Abbreviation wp := (wpe Why).

Lemma wp_group_from_roots w Q s : inv needs_ver s -> w = Test \/ w = Drain -> group_for w s = no_group -> ((forall c, ~ required s c) -> Why TBROK s) ->
  (forall g, group_of s w (live_roots s) g -> Q tt (with_group (bool_decide (w = Test)) g s)) ->
  wp (group_from_roots k (bool_decide (w = Test))) Q s.
Proof.
  intros I Hw Hg HE HQ. unfold group_from_roots. apply wp_bind, wp_get. cbv zeta. assert (Eg : (if bool_decide (w = Test) then test_group s else drain_group s) = no_group) by by destruct Hw as [-> | ->].
  rewrite Eg. cbn [group_name no_group]. apply wp_bind, wp_live_roots; [apply (inv_wf _ _ I)|]. destruct (live_roots_spec s (inv_wf _ _ I)) as (_ & Hlen & Hin). wps.
  replace (if bool_decide (w = Test) then Test else Drain) with w by by destruct Hw as [-> | ->].
  assert (Hdir : forall i r, roots s !! i = Some r -> dir_ctrls (dir_of w r) <> 0 -> dir_root (dir_of w r) = i /\ dir_name (dir_of w r) <> None).
  { intros i r Hr Hc. assert (Hn : dir_name (dir_of w r) <> None) by (apply (inv_named _ _ I i r w Hr); [tauto|done]). split; [|done].
    apply (wf_dirs _ (inv_wf _ _ I) i r w Hr); [by destruct Hw as [-> | ->]|done]. }
  apply (wp_root_dirs s w k (live_roots s) []); [apply no_group_of|done| |].
  - intros i Hi. apply Hin in Hi as (r & Hr & _). exists r. split; [done|]. intros Hc. by apply (Hdir i).
  - intros g G. cbn [app] in G. destruct (dirs g) as [|p ps] eqn:Ed.
    { apply wp_brk, HE. intros c (i & r & Hr & Hc). assert (Hz : dir_ctrls (dir_of w r) <> 0) by (apply has_nonzero in Hc; destruct Hw as [-> | ->]; [done|by rewrite (inv_drain _ _ I i r Hr : dir_ctrls (dir_of Drain r) = _)]).
      rewrite (go_dirs _ _ _ _ G) in Ed. apply fmap_nil_inv in Ed. assert (Hx : i ∈ List.filter (takes_part s w) (live_roots s)); [|rewrite Ed in Hx; by apply elem_of_nil in Hx].
      apply list_elem_of_In, List.filter_In. split; [|unfold takes_part; rewrite Hr; by apply negb_true_iff, Z.eqb_neq].
      apply list_elem_of_In, Hin. exists r. split; [done|]. by apply (inv_fits _ _ I i r Hr), (inv_nonzero _ _ I i r w Hr). }
    assert (Hp : p ∈ dirs g) by (rewrite Ed; left).
    rewrite (go_dirs _ _ _ _ G) in Hp. apply list_elem_of_fmap in Hp as (i & -> & Hp). apply list_elem_of_In, List.filter_In in Hp as [_ Hp].
    unfold takes_part in Hp. destruct (roots s !! i) as [r|] eqn:Hr; [|done]. apply negb_true_iff, Z.eqb_neq in Hp. destruct (Hdir i r Hr Hp) as [Hroot Hname].
    wps. eapply wp_dir_at_root; [exact Hr|]. rewrite Hroot. destruct (dir_name (dir_of w r)) as [n|]; [|done]. wps. eapply wp_name_of; [exact Hr|]. wps.
    apply HQ. rewrite <-Ed. destruct G as [G1 G2 G3]. by split.
Qed.

(** What a test finds after its controllers were required. *)
Record cg_ready (s : cg) : Prop := {
  cr_inv : inv needs_ver s;
  cr_test : group_of s Test (live_roots s) (test_group s);
  cr_drain : group_of s Drain (live_roots s) (drain_group s);
  cr_nodup : NoDup (live_roots s);
  cr_live : forall i, (i ∈ live_roots s) <-> used s i;
  cr_few : (length (live_roots s) <= ROOTS_MAX)%nat
}.

Lemma wp_init Q s : inv needs_ver s -> test_group s = no_group -> drain_group s = no_group -> ((forall c, ~ required s c) -> forall s', Why TBROK s') ->
  (forall s', cg_ready s' -> roots s' = roots s -> trace s' = trace s -> cgroup_test_dir s' = cgroup_test_dir s -> Q tt s') -> wp (tst_cg_init k) Q s.
Proof.
  intros I H1 H2 HE HQ. unfold tst_cg_init. wps. apply (wp_group_from_roots Test); [done|auto|done|intros Hn; by apply HE|]. intros g G. set (s1 := with_group _ g s).
  assert (I1 : inv needs_ver s1) by by apply (inv_same needs_ver s).
  apply (wp_group_from_roots Drain); [done|auto|done|intros Hn; by apply HE|]. intros g2 G2. apply HQ; [|done..]. set (s2 := with_group _ g2 s1).
  assert (El : live_roots s2 = live_roots s) by by apply live_roots_same. rewrite (live_roots_same s s1 eq_refl) in G2.
  destruct (live_roots_spec s (inv_wf _ _ I)) as (L1 & L2 & L3). split; rewrite ?El; try done; [by apply (inv_same needs_ver s)|by apply (group_of_same s)|by apply (group_of_same s1)].
Qed.
End Kernel.

(** ** Requiring the controllers of a test *)
Section Requires.
Context (k : kernel) (tmpdir : cstr) (pid needs_ver : Z) {Why : reasons k}.
#[local] Abbreviation wp := (wpe Why).
Context (Hpaths : forall t l m, k_mounts k t = Some l -> m ∈ l -> slen (m_dir m) < PATH_MAX).
Context (Hclash : forall s, clash k s -> Why TBROK s).
Context (Htmp : slen tmpdir < PATH_MAX - 32).

(** Reasons that have to do with the controllers. *)
Definition lacks (names : list cstr) (s : cg) : Prop := exists name c, name ∈ names /\ cgroup_find_ctrl name = Some c /\ lacking needs_ver c s.

Lemma wp_requires names Q s : inv needs_ver s -> (forall name, name ∈ names -> cgroup_find_ctrl name <> None) -> (forall s', lacks names s' -> Why TCONF s') ->
  (forall s', inv needs_ver s' -> (forall name c, name ∈ names -> cgroup_find_ctrl name = Some c -> required s' c) ->
     test_group s' = test_group s -> drain_group s' = drain_group s -> Q tt s') ->
  wp (each names (fun name => tst_cg_require k tmpdir pid name needs_ver 0)) Q s.
Proof using Hclash Hpaths Htmp.
  intros I Hn HW HQ.
  apply (wp_each_done (fun done s' => inv needs_ver s' /\ (forall name c, name ∈ done -> cgroup_find_ctrl name = Some c -> required s' c) /\
    test_group s' = test_group s /\ drain_group s' = drain_group s)).
  - split_and!; [done|by intros ? ? ?%elem_of_nil|done|done].
  - intros l name s1 (I1 & R1 & G1 & G2) Hin. destruct (cgroup_find_ctrl name) as [c|] eqn:Ec; [|by destruct (Hn name)].
    eapply wp_require_inv; [done|done|done|exact I1|exact Ec|intros s' Hs; apply HW; by exists name, c|]. intros s2 I2 Rc R2 _ G1' G2'. split_and!; [done| |congruence|congruence].
    intros x d [Hx| ->%list_elem_of_singleton]%elem_of_app Hd; [by eapply R2, R1|congruence].
  - intros s1 (I1 & R1 & G1 & G2). by apply HQ.
Qed.

Lemma wp_do_cgroup_requires names Q : (forall name, name ∈ names -> cgroup_find_ctrl name <> None) -> (forall s', lacks names s' -> Why TCONF s') -> (names = [] -> forall s', Why TBROK s') ->
  (forall s, cg_ready needs_ver s -> (forall name c, name ∈ names -> cgroup_find_ctrl name = Some c -> required s c) -> Q tt s) ->
  wp (do_cgroup_requires k tmpdir pid needs_ver names) Q initial.
Proof using Hclash Hpaths Htmp.
  intros Hn HW HE HQ. unfold do_cgroup_requires. apply wp_bind, wp_requires; [apply initial_inv|done|done|]. intros s I R G1 G2. eapply wp_init; [exact I|done|done| |].
  { intros Hno. apply HE. destruct names as [|name names]; [done|]. destruct (cgroup_find_ctrl name) as [c|] eqn:Ec; [|by destruct (Hn name); [left|]]. destruct (Hno c). apply (R name); [left|done]. }
  intros s' C Er _ _. apply HQ; [done|]. intros name c Hin Hc. destruct (R name c Hin Hc) as (i & r & Hr & H). exists i, r. by rewrite Er.
Qed.
End Requires.

(** The hierarchy of a required controller. *)
Lemma ready_serves needs_ver s c : cg_ready needs_ver s -> required s c -> (c < ROOTS_MAX)%nat ->
  exists i r, roots s !! i = Some r /\ ver r <> 0 /\ fits needs_ver (ver r) /\ dir_ctrls (test_dir r) <> 0 /\
    (has_ctrl (dir_ctrls (test_dir r)) c = true \/ c = 0%nat) /\
    last (List.filter (serves s Test c) (live_roots s)) = Some i /\ last (List.filter (serves s Drain c) (live_roots s)) = Some i.
Proof.
  intros C (i & r & Hr & Hc) Hlt. pose proof (cr_inv _ _ C) as I.
  assert (Eq : List.filter (serves s Drain c) (live_roots s) = List.filter (serves s Test c) (live_roots s)).
  { apply List.filter_ext. unfold serves. intros j. destruct (roots s !! j) as [x|] eqn:Hx; [|done]. cbn [dir_of]. by rewrite (inv_drain _ _ I j x Hx). }
  destruct (last (List.filter (serves s Test c) (live_roots s))) as [j|] eqn:El.
  - apply last_Some_elem_of in El as Hj. apply list_elem_of_In, List.filter_In in Hj as [_ Hj]. unfold serves in Hj. destruct (roots s !! j) as [x|] eqn:Hx; [|done].
    apply andb_true_iff in Hj as [Hz Hj]. apply negb_true_iff, Z.eqb_neq in Hz. cbn [dir_of] in *. pose proof (inv_nonzero _ _ I j x Test Hx Hz) as Hm.
    destruct (inv_fits _ _ I j x Hx Hm) as [Hv Hf]. exists j, x. rewrite Eq. split_and!; try done. apply orb_true_iff in Hj as [?|[?%Nat.eqb_eq _]%andb_true_iff]; auto.
  - exfalso. apply last_None in El. assert (Hin : i ∈ List.filter (serves s Test c) (live_roots s)); [|rewrite El in Hin; by apply elem_of_nil in Hin].
    apply list_elem_of_In, List.filter_In. pose proof (has_nonzero _ _ Hc) as Hz. destruct (inv_fits _ _ I i r Hr (inv_nonzero _ _ I i r Test Hr Hz)) as [Hv _]. split.
    + apply list_elem_of_In, (cr_live _ _ C). by exists r.
    + unfold serves. rewrite Hr. cbn [dir_of]. by rewrite (proj2 (Z.eqb_neq _ _) Hz), Hc.
Qed.

(** ** Files *)
Definition file_name (f : cgroup_file) : cstr := fst (fst f).
(** The name of a file in a hierarchy; a file may be missing in version 1. *)
Definition alias_of (f : cgroup_file) (r : cgroup_root) : option cstr :=
  if ver r =? TST_CG_V1 then
    match snd (fst f) with
    | Some v1 => if (snd f =? CTRL_CPUSET)%nat && no_cpuset_prefix r then drop 1 <$> strchr v1 "."%ch else Some v1
    | None => None
    end
  else Some (file_name f).

Lemma file_table c f : f ∈ files_of c -> (forall s, cgroup_file_find (file_name f) s = Ok (f, s)) /\ snd f = c /\
  (forall v1, snd (fst f) = Some v1 -> c = CTRL_CPUSET -> strchr v1 "."%ch <> None).
Proof.
  destruct (decide (c < 6)%nat) as [Hc|Hc]; [|destruct c as [|[|[|[|[|[|c]]]]]]; try lia; by intros ?%elem_of_nil].
  do 6 (destruct c as [|c]; [cbn [files_of cgroup_ctrl_files memory_ctrl_files cpu_ctrl_files cpuset_ctrl_files io_ctrl_files pids_ctrl_files];
    repeat (intros [->|H]%elem_of_cons; [split; [done|split; [done|by intros v1 [= <-]]]|revert H]); by intros ?%elem_of_nil|]). lia.
Qed.

(** What is done to the file in the directory [w] of root [i]. *)
Definition call_for (s : cg) (w : which) (f : cgroup_file) (mk : Z -> cstr -> call) (i : nat) : option call :=
  r ← roots s !! i; a ← alias_of f r; Some (mk (dir_fd (dir_of w r)) a).

Section Run.
Context (k : kernel) (s : cg) (w : which).

Lemma safe_run c s0 : 0 <= k_ret k (c :: trace s0) -> safe_ k c s0 = Ok (tt, with_trace (c :: trace s0) s0).
Proof. intros H. unfold safe_, safe, mbind, C_bind, sys. by rewrite (proj2 (Z.ltb_ge _ _) H). Qed.

Lemma alias_runs c f r i t : f ∈ files_of c -> roots s !! i = Some r -> dir_root (dir_of w r) = i ->
  cgroup_file_alias f (dir_of w r) (with_trace t s) = Ok (alias_of f r, with_trace t s).
Proof.
  intros Hf Hr Hi. destruct (file_table c f Hf) as (_ & Hc & Hs). destruct f as [[name v1] c']. cbn in Hc, Hs. subst c'. unfold cgroup_file_alias, alias_of, file_name. cbn [fst snd].
  rewrite Hi, (bind_run _ _ _ _ _ (root_at_run i r (with_trace t s) Hr)). destruct (ver r =? TST_CG_V1); cbn [negb]; [|done].
  destruct v1 as [v1|]; [|done]. destruct (Nat.eqb_spec c CTRL_CPUSET) as [->|]; [|done]. cbn [andb]. destruct (no_cpuset_prefix r); [|done].
  destruct (strchr v1 _) eqn:E; [done|]. by destruct (Hs v1).
Qed.

Lemma files_run c f mk l : f ∈ files_of c -> (forall fd a t, 0 <= k_ret k (mk fd a :: t)) ->
  (forall i, i ∈ l -> exists r, roots s !! i = Some r /\ dir_root (dir_of w r) = i) -> forall t,
  each ((fun i => PRoot i w) <$> l) (fun p => d ← dir_at p; a ← cgroup_file_alias f d; match a with None => mret tt | Some a => safe_ k (mk (dir_fd d) a) end) (with_trace t s)
  = Ok (tt, with_trace (rev (omap (call_for s w f mk) l) ++ t) s).
Proof.
  intros Hf Hk. induction l as [|i l IH]; intros Hl t; [done|]. destruct (Hl i) as (r & Hr & Hi); [by left|]. cbn [fmap list_fmap each].
  assert (IH' := IH (fun j Hj => Hl j (list_elem_of_further _ _ _ Hj))). clear IH. cbn [omap list_omap]. unfold call_for at 1. rewrite Hr. cbn [mbind option_bind].
  set (t' := option_list (a ← alias_of f r; Some (mk (dir_fd (dir_of w r)) a)) ++ t). erewrite (bind_run _ _ _ tt (with_trace t' s)).
  - rewrite IH'. unfold t'. destruct (alias_of f r) as [a|]; [|done]. cbn. by rewrite <-app_assoc.
  - rewrite (bind_run _ _ _ _ _ (dir_at_run i w r (with_trace t s) Hr)), (bind_run _ _ _ _ _ (alias_runs c f r i t Hf Hr Hi)). unfold t'.
    destruct (alias_of f r) as [a|]; [|done]. exact (safe_run (mk (dir_fd (dir_of w r)) a) (with_trace t s) (Hk _ _ _)).
Qed.
End Run.

(** The roots a file stands for: all hierarchies of the group for the files of
    the groups themselves, and the one of the controller for the others. *)
Definition homes (s : cg) (w : which) (c : nat) : list nat :=
  if (c =? 0)%nat then List.filter (takes_part s w) (live_roots s) else option_list (last (List.filter (serves s w c) (live_roots s))).

Lemma ready_dirs needs_ver s w i r : cg_ready needs_ver s -> w = Test \/ w = Drain -> roots s !! i = Some r -> dir_ctrls (dir_of w r) <> 0 -> dir_root (dir_of w r) = i.
Proof.
  intros C Hw Hr Hc. pose proof (cr_inv _ _ C) as I. apply (wf_dirs _ (inv_wf _ _ I) i r w Hr); [by destruct Hw as [-> | ->]|]. apply (inv_named _ _ I i r w Hr); [tauto|done].
Qed.

Lemma homes_dirs needs_ver s w c i : cg_ready needs_ver s -> w = Test \/ w = Drain -> i ∈ homes s w c -> exists r, roots s !! i = Some r /\ dir_root (dir_of w r) = i.
Proof.
  intros C Hw Hi. assert (Ht : takes_part s w i = true).
  { unfold homes in Hi. destruct (c =? 0)%nat; [by apply list_elem_of_In, List.filter_In in Hi as [_ ?]|].
    destruct (last _) as [j|] eqn:El; [|by apply elem_of_nil in Hi]. apply list_elem_of_singleton in Hi as ->. apply last_Some_elem_of, list_elem_of_In, List.filter_In in El as [_ Hs].
    unfold serves, takes_part in *. destruct (roots s !! j); [|done]. by apply andb_true_iff in Hs as [? _]. }
  unfold takes_part in Ht. destruct (roots s !! i) as [r|] eqn:Hr; [|done]. exists r. split; [done|]. apply negb_true_iff, Z.eqb_neq in Ht. by eapply ready_dirs.
Qed.

Lemma for_each_file_run needs_ver k s w c f mk : cg_ready needs_ver s -> w = Test \/ w = Drain -> f ∈ files_of c -> (c < ROOTS_MAX)%nat ->
  (forall fd a t, 0 <= k_ret k (mk fd a :: t)) ->
  for_each_file (group_for w s) (file_name f) (fun fd a => safe_ k (mk fd a)) s = Ok (tt, with_trace (rev (omap (call_for s w f mk) (homes s w c)) ++ trace s) s).
Proof.
  intros C Hw Hf Hc Hk. destruct (file_table c f Hf) as (Hfind & Hsnd & _). unfold for_each_file. rewrite (bind_run _ _ _ _ _ (Hfind s)). rewrite Hsnd.
  assert (G : group_of s w (live_roots s) (group_for w s)) by (destruct Hw as [-> | ->]; [apply (cr_test _ _ C)|apply (cr_drain _ _ C)]).
  assert (Hd : dirs_for (group_for w s) c s = Ok ((fun i => PRoot i w) <$> homes s w c, s)).
  { unfold dirs_for, homes. rewrite (proj2 (Nat.ltb_ge _ _)).
    - destruct (c =? 0)%nat; [by rewrite (go_dirs _ _ _ _ G)|]. rewrite (go_ctrl _ _ _ _ G) by done. by destruct (last _).
    - rewrite (go_dirs _ _ _ _ G), length_fmap. pose proof (filter_length_le (takes_part s w) (live_roots s)). pose proof (cr_few _ _ C). lia. }
  rewrite (bind_run _ _ _ _ _ Hd). replace s with (with_trace (trace s) s) at 2 by by destruct s. apply (files_run k s w c f); [done|done|].
  intros i Hi. by eapply homes_dirs.
Qed.

(** C21: writing to the files of a test's group.  The file of a required
    controller is written once, in the directory of the hierarchy that has the
    controller and under the name it has there; a file of the groups themselves
    (such as [cgroup.procs]) once in each hierarchy the group is part of. *)
Theorem cgroup_files_correct k tmpdir pid needs_ver names s :
  (forall t l m, k_mounts k t = Some l -> m ∈ l -> slen (m_dir m) < PATH_MAX) -> slen tmpdir < PATH_MAX - 32 ->
  (forall name, name ∈ names -> cgroup_find_ctrl name <> None) ->
  (forall fd a text t, 0 <= k_ret k (C_write fd a text :: t)) ->
  do_cgroup_requires k tmpdir pid needs_ver names initial = Ok (tt, s) ->
  (forall name c f text, name ∈ names -> cgroup_find_ctrl name = Some c -> c <> 0%nat -> f ∈ files_of c -> exists i r,
     roots s !! i = Some r /\ has_ctrl (dir_ctrls (test_dir r)) c = true /\
     safe_cg_printf k (test_group s) (file_name f) text s =
       Ok (tt, with_trace (option_list ((fun a => C_write (dir_fd (test_dir r)) a text) <$> alias_of f r) ++ trace s) s)) /\
  (forall f text, f ∈ files_of 0 -> exists l,
     NoDup l /\ (forall i, (i ∈ l) <-> exists r, roots s !! i = Some r /\ ver r <> 0 /\ dir_ctrls (test_dir r) <> 0) /\
     safe_cg_printf k (test_group s) (file_name f) text s =
       Ok (tt, with_trace (rev (omap (fun i => r ← roots s !! i; a ← alias_of f r; Some (C_write (dir_fd (test_dir r)) a text)) l) ++ trace s) s)).
Proof.
  intros Hpaths Htmp Hn Hw Hrun.
  pose proof (wp_do_cgroup_requires k tmpdir pid needs_ver (Why := any_reasons k) Hpaths ltac:(done) Htmp names (fun _ s => cg_ready needs_ver s /\ forall name c, name ∈ names -> cgroup_find_ctrl name = Some c -> required s c) Hn ltac:(done) ltac:(done) ltac:(done)) as H.
  unfold wpe in H. rewrite Hrun in H. destruct H as [C R]. split.
  - intros name c f text Hin Hc Hne Hf. pose proof (find_ctrl_lt _ _ Hc) as Hlt. destruct (ready_serves _ s c C (R _ _ Hin Hc) Hlt) as (i & r & Hr & _ & _ & _ & Hh & L & _).
    exists i, r. split_and!; [done|by destruct Hh|]. etrans; [apply (for_each_file_run needs_ver k s Test c f (fun fd a => C_write fd a text)); auto|].
    unfold homes. rewrite (proj2 (Nat.eqb_neq _ _) Hne), L.
    assert (E : call_for s Test f (fun fd a => C_write fd a text) i = (fun a => C_write (dir_fd (test_dir r)) a text) <$> alias_of f r) by (unfold call_for; rewrite Hr; cbn; by destruct (alias_of f r)).
    cbn. rewrite E. by destruct (alias_of f r).
  - intros f text Hf. exists (homes s Test 0). split_and!.
    + unfold homes. cbn [Nat.eqb]. apply NoDup_ListNoDup, List.NoDup_filter, NoDup_ListNoDup, (cr_nodup _ _ C).
    + intros i. unfold homes. cbn [Nat.eqb]. rewrite list_elem_of_In, List.filter_In, <-list_elem_of_In, (cr_live _ _ C). unfold takes_part, used. cbn [dir_of].
      destruct (roots s !! i) as [r|]; [|split; [by intros [? ?]|by intros (? & ? & _)]]. rewrite negb_true_iff, Z.eqb_neq. naive_solver.
    + apply (for_each_file_run needs_ver k s Test 0 f (fun fd a => C_write fd a text)); auto. unfold ROOTS_MAX. lia.
Qed.

(** ** Witnesses *)
Lemma v1_paths t l m : k_mounts v1_kernel t = Some l -> m ∈ l -> slen (m_dir m) < PATH_MAX.
Proof. intros [= <-]. unfold v1_mounts. repeat (intros [->|H]%elem_of_cons; [by vm_compute|revert H]). by intros ?%elem_of_nil. Qed.
Lemma v1_names name : name ∈ [str "memory"; str "cpuacct"] -> cgroup_find_ctrl name <> None.
Proof. repeat (intros [->|H]%elem_of_cons; [by vm_compute|revert H]). by intros ?%elem_of_nil. Qed.
Lemma v1_writes fd a text t : 0 <= k_ret v1_kernel (C_write fd a text :: t).
Proof. cbn. unfold slen. lia. Qed.

Lemma cgroup_files_correct_witness : exists s, do_cgroup_requires v1_kernel (str "/tmp") 42 0 [str "memory"; str "cpuacct"] initial = Ok (tt, s) /\
  exists s', safe_cg_printf v1_kernel (test_group s) (str "memory.max") (str "4096") s = Ok (tt, s').
Proof.
  destruct (do_cgroup_requires v1_kernel (str "/tmp") 42 0 [str "memory"; str "cpuacct"] initial) as [[[] s]|e|] eqn:E; [|exfalso; vm_compute in E; discriminate..].
  exists s. split; [reflexivity|]. destruct (cgroup_files_correct v1_kernel (str "/tmp") 42 0 [str "memory"; str "cpuacct"] s v1_paths ltac:(done) v1_names v1_writes E) as [H _].
  destruct (H (str "memory") CTRL_MEMORY (file "memory.max" (Some "memory.limit_in_bytes"%string) CTRL_MEMORY) (str "4096") ltac:(left) ltac:(done) ltac:(done)) as (i & r & _ & _ & Hw).
  - do 4 right. left.
  - eexists. exact Hw.
Defined.
