(* ===== verification/CgroupCleanup.v ===== *)
(** * Control groups: cleaning up

    [tst_cg_cleanup] after [do_cgroup_requires]: which directories are removed,
    and that nothing the library made for the test is left. *)

From stdpp Require Import base list strings relations.
From Stdlib Require Import ZArith Lia.
From S2P Require Import Prelude ParseNum Tokens Cgroup CgroupSpec CgroupRequire CgroupGroup.

Local Open Scope Z_scope.

(** ** What is removed *)
Definition named (i : nat) (r : cgroup_root) (s : cg) (w : which) : list (Z * cstr) :=
  match dir_name (dir_of w r) with Some n => [(dir_fd (dir_of (inside_of w) r), text_of n r s)] | None => [] end.
(** For each root, the directory of the test, and the other two if [ltp] was
    made by the library. *)
Definition test_rm (s : cg) (i : nat) : list (Z * cstr) := match roots s !! i with Some r => named i r s Test | None => [] end.
Definition ltp_rm (s : cg) (i : nat) : list (Z * cstr) :=
  match roots s !! i with Some r => if dir_created (ltp_dir r) then named i r s Drain ++ named i r s Ltp else [] | None => [] end.

(** The mount point of a hierarchy that the library mounted. *)
Definition ours (s : cg) (p : cstr) : Prop := exists i r, roots s !! i = Some r /\ ver r <> 0 /\ we_mounted_it r = true /\ mnt_path r = p.

Lemma with_trace_id s : with_trace (trace s) s = s.
Proof. by destruct s. Qed.
Lemma unlinked_app l t : unlinked (l ++ t) = unlinked l ++ unlinked t.
Proof. induction l as [|c l IH]; [done|]. cbn. by rewrite IH, app_assoc. Qed.

Section Cleanup.
Context (k : kernel) {Why : reasons k}.
#[local] Abbreviation wp := (wpe Why).

(** What cleaning up may call after the calls [t]: it makes and mounts nothing,
    unmounts only what the library mounted, and removes a mount point only right
    after it was unmounted. *)
Definition allowed (s : cg) (c : call) (t : list call) : Prop :=
  match c with
  | C_umount p => ours s p
  | C_rmdir p => ours s p /\ exists t', t = C_umount p :: t' /\ k_ret k t = 0
  | C_mkdirat _ _ | C_mkdir _ | C_mount _ _ _ _ => False
  | _ => True
  end.
Fixpoint orderly (s : cg) (l t : list call) : Prop := match l with [] => True | c :: l => allowed s c (l ++ t) /\ orderly s l t end.

Lemma orderly_app s l l' t : orderly s (l' ++ l) t <-> orderly s l' (l ++ t) /\ orderly s l t.
Proof. induction l' as [|c l' IH]; cbn; [tauto|]. rewrite IH, app_assoc. tauto. Qed.
Lemma orderly_same s s' l t : roots s' = roots s -> orderly s' l t -> orderly s l t.
Proof. intros E. induction l as [|c l IH]; [done|]. cbn. intros [H Hl]. split; [|by apply IH]. unfold allowed, ours in *. by rewrite E in H. Qed.
Lemma orderly_plain s l t : forallb plain l = true -> orderly s l t.
Proof. induction l as [|c l IH]; [done|]. cbn. intros [Hc Hl]%andb_true_iff. split; [by destruct c|by apply IH]. Qed.
Lemma orderly_mades s l t : orderly s l t -> mades k (l ++ t) = mades k t.
Proof. induction l as [|c l IH]; [done|]. cbn. intros [Hc Hl]. rewrite (IH Hl). by destruct c. Qed.
Lemma orderly_in s l t c : orderly s l t -> c ∈ l -> exists l1 l2, l = l1 ++ c :: l2 /\ allowed s c (l2 ++ t).
Proof. intros H (l1 & l2 & ->)%list_elem_of_split. exists l1, l2. split; [done|]. apply orderly_app in H as [_ [H _]]. done. Qed.
Lemma plain_unlinked l : forallb plain l = true -> unlinked l = [].
Proof. induction l as [|c l IH]; [done|]. cbn. intros [Hc Hl]%andb_true_iff. rewrite (IH Hl). by destruct c. Qed.

(** The state [s] after calls that removed [x], in this order. *)
Definition removed (x : list (Z * cstr)) (s s' : cg) : Prop := exists l, s' = with_trace (l ++ trace s) s /\ unlinked l = rev x /\ orderly s l (trace s).

Lemma removed_nil s s' : same_by plain s s' -> removed [] s s'.
Proof. intros (t & (l & -> & Hl) & ->). exists l. split_and!; [done|by apply plain_unlinked|by apply orderly_plain]. Qed.
Lemma removed_app x y a b c : removed x a b -> removed y b c -> removed (x ++ y) a c.
Proof.
  intros (l & -> & Hu & Ho) (l' & -> & Hu' & Ho'). cbn in *. exists (l' ++ l). split_and!; [by rewrite app_assoc|by rewrite unlinked_app, Hu', Hu, rev_app_distr|].
  apply orderly_app. split; [|done]. by eapply orderly_same in Ho'.
Qed.
Lemma removed_roots x s s' : removed x s s' -> roots s' = roots s.
Proof. by intros (l & -> & _). Qed.

Lemma wp_drain v a b Q s : (forall s', same_by plain s s' -> Q tt s') -> wp (cgroup_drain k v a b) Q s.
Proof.
  intros HQ. unfold cgroup_drain. wps. apply wp_readat. intros pids _ _. set (s1 := with_trace _ s). assert (H1 : same_by plain s s1) by by apply same_call.
  wps. apply wp_safe_plain; [done|]. intros fd s2 H2. wps. apply (wp_each (fun s' => same_by plain s s')); [by eapply same_trans| |].
  - intros tok s3 _ H3. wps. apply wp_sys. assert (H4 : same_by plain s (with_trace (C_dprintf fd tok :: trace s3) s3)) by (eapply same_trans; [exact H3|by apply same_call]).
    wps; [|done]. apply (why_failed k). by apply Z.ltb_lt in E.
  - intros s3 H3. apply wp_safe__plain; [done|]. intros s4 H4. apply HQ. by eapply same_trans.
Qed.

Lemma wp_unlink fd name Q s : (forall s', removed [(fd, name)] s s' -> Q tt s') -> wp (safe_ k (C_unlinkat fd name)) Q s.
Proof. intros HQ. apply wp_safe_; [done|]. intros _. apply HQ. by exists [C_unlinkat fd name]. Qed.

Lemma wp_remove_test i r Q s : roots s !! i = Some r -> (forall s', removed (test_rm s i) s s' -> Q tt s') -> wp (remove_test_dir k i) Q s.
Proof.
  intros Hr HQ. unfold remove_test_dir. wps. eapply wp_root_at; [exact Hr|]. unfold test_rm, named in HQ. rewrite Hr in HQ. cbn [dir_of] in HQ.
  destruct (dir_name (test_dir r)) as [n|]; [|wps; apply HQ, removed_nil, same_refl]. wps. apply wp_drain. intros s1 (t & Ht & ->). wps.
  eapply wp_name_of; [exact Hr|]. apply wp_unlink. intros s2 H2. apply HQ. apply (removed_app [] _ s (with_trace t s)); [apply removed_nil; by exists t|by destruct n].
Qed.

Lemma wp_unlink_named i w r Q s : roots s !! i = Some r -> (forall s', removed (named i r s w) s s' -> Q tt s') -> wp (unlink_named k i (dir_of (inside_of w) r) (dir_of w r)) Q s.
Proof.
  intros Hr HQ. unfold unlink_named, named in *. destruct (dir_name (dir_of w r)) as [n|]; [|wps; apply HQ, removed_nil, same_refl]. wps.
  eapply wp_name_of; [exact Hr|]. by apply wp_unlink.
Qed.

Lemma wp_remove_ltp i r Q s : roots s !! i = Some r -> (forall s', removed (ltp_rm s i) s s' -> Q tt s') -> wp (remove_ltp_dir k i) Q s.
Proof.
  intros Hr HQ. unfold remove_ltp_dir. wps. eapply wp_root_at; [exact Hr|]. unfold ltp_rm in HQ. rewrite Hr in HQ. wps; rewrite ?E in HQ; [|apply HQ, removed_nil, same_refl].
  apply wp_drain. intros s1 (t & Ht & ->). wps. apply (wp_unlink_named i Drain r); [exact Hr|]. intros s2 H2.
  assert (H02 : removed (named i r s Drain) s s2) by (apply (removed_app [] _ s (with_trace t s)); [apply removed_nil; by exists t|exact H2]).
  apply (wp_unlink_named i Ltp r); [by rewrite (removed_roots _ _ _ H02)|]. intros s3 H3. apply HQ. eapply removed_app; [exact H02|]. by destruct H02 as (l2 & -> & _).
Qed.

(** A loop over the roots that removes [f i] for each of them. *)
Lemma wp_remove_each f (rm : cg -> nat -> list (Z * cstr)) l Q s :
  (forall i s1 Q, i ∈ l -> roots s1 = roots s -> (forall s', removed (rm s1 i) s1 s' -> Q tt s') -> wp (f i) Q s1) ->
  (forall i t, rm (with_trace t s) i = rm s i) -> (forall s', removed (concat (rm s <$> l)) s s' -> Q tt s') -> wp (each l f) Q s.
Proof.
  intros Hf Hrm HQ. apply (wp_each_done (fun done s' => removed (concat (rm s <$> done)) s s')); [apply removed_nil, same_refl| |done].
  intros done i s1 H1 Hi. apply Hf; [done|by eapply removed_roots|]. intros s2 H2. rewrite fmap_app, concat_app. cbn [fmap list_fmap concat]. rewrite app_nil_r.
  eapply removed_app; [exact H1|]. destruct H1 as (t & -> & _). by rewrite Hrm in H2.
Qed.

Lemma wp_disable c Q s : wf s -> (c < 18)%nat -> (forall s', same_by plain s s' -> Q tt s') -> wp (disable_ctrl k c) Q s.
Proof.
  intros W Hc HQ. unfold disable_ctrl, cgroup_ctrl_on_v2. destruct (ctrl_some _ c W Hc) as [[o q] Hx]. wps. eapply wp_ctrl_root; [exact Hx|]. wps.
  eapply wp_ctrl_root; [exact Hx|]. cbn [fst]. destruct o as [i|]; [|wps; apply HQ, same_refl]. destruct (wf_ctrl _ W _ _ _ Hx) as (r & Hr & _).
  wps. eapply wp_root_at; [exact Hr|]. wps. eapply wp_root_at; [exact Hr|]. wps; [apply wp_safe__plain; [done|]; intros s1 H1; by apply HQ|apply HQ, same_refl].
Qed.
Lemma wp_unmount i r Q s : roots s !! i = Some r -> ver r <> 0 -> (forall l, removed [] s (with_trace (l ++ trace s) s) -> (we_mounted_it r = true -> C_umount (mnt_path r) ∈ l) -> Q tt (with_trace (l ++ trace s) s)) -> wp (unmount_root k i) Q s.
Proof.
  intros Hr Hv HQ. unfold unmount_root. wps. eapply wp_root_at; [exact Hr|]. wps; [|rewrite <-(with_trace_id s); apply (HQ []); [cbn [app]; rewrite with_trace_id; apply removed_nil, same_refl|by rewrite E]]. apply wp_sys.
  assert (Ho : ours s (mnt_path r)) by by exists i, r. wps.
  - apply wp_safe_; [done|]. intros _. apply (HQ [C_rmdir (mnt_path r); C_umount (mnt_path r)]); [|intros _; right; left]. exists [C_rmdir (mnt_path r); C_umount (mnt_path r)]. split; [done|]. split; [done|].
    split; [split; [done|]; eexists; split; [done|by apply Z.eqb_eq]|by split].
  - apply (HQ [C_umount (mnt_path r)]); [|intros _; left]. by exists [C_umount (mnt_path r)].
Qed.
Lemma wp_close_fd fd Q s : (forall s', same_by plain s s' -> Q tt s') -> wp (close_fd k fd) Q s.
Proof. intros HQ. unfold close_fd. wps; [apply wp_safe__plain; [done|]; intros s1 H1; by apply HQ|apply HQ, same_refl]. Qed.
Lemma wp_close_path_fds i r Q s : roots s !! i = Some r -> (forall s', same_by plain s s' -> Q tt s') -> wp (close_path_fds k i) Q s.
Proof.
  intros Hr HQ. unfold close_path_fds. wps. eapply wp_root_at; [exact Hr|]. wps. apply wp_close_fd. intros s1 H1. wps. apply wp_close_fd. intros s2 H2.
  wps. apply wp_close_fd. intros s3 H3. apply wp_close_fd. intros s4 H4. apply HQ. repeat (eapply same_trans; [eassumption|]). apply same_refl.
Qed.

(** A loop of calls that remove nothing. *)
Lemma wp_quiet_each {A} (f : A -> C unit) l Q s : (forall x s1 Q, x ∈ l -> same_by plain s s1 -> (forall s', same_by plain s1 s' -> Q tt s') -> wp (f x) Q s1) ->
  (forall s', same_by plain s s' -> Q tt s') -> wp (each l f) Q s.
Proof.
  intros Hf HQ. apply (wp_each (fun s' => same_by plain s s')); [apply same_refl| |done]. intros x s1 Hx H1. apply Hf; [done|done|]. intros s2 H2. by eapply same_trans.
Qed.

Definition cleared (s : cg) : cg := with_roots (roots initial) (with_ctrls (ctrls initial) s).

Lemma live_root s i : wf s -> i ∈ live_roots s -> exists r, roots s !! i = Some r.
Proof. intros W Hi. apply live_roots_spec in Hi as (r & Hr & _); [by exists r|done]. Qed.

Lemma wp_clear Q s : wf s -> (forall s', same_by plain s s' -> Q tt (cleared s')) -> wp (clear_data k) Q s.
Proof.
  intros W HQ. unfold clear_data. wps. set (s1 := with_ctrls _ s). assert (W1 : wf s1).
  { destruct W as [L1 L2 V2 V1 Dj Mn Ct Dr Fd]. split; try done. intros c i q H. by apply lookup_replicate in H as [[=] _]. }
  apply wp_live_roots; [done|]. wps. apply wp_quiet_each.
  - intros i s2 Q' Hi H2 HQ'. destruct (live_root s1 i W1 Hi) as [r Hr]. eapply wp_close_path_fds; [by rewrite (same_roots _ _ H2)|done].
  - intros s2 (t & Ht & ->). wps. apply (HQ (with_trace t s)). by exists t.
Qed.

Lemma not_mounted s : wf s -> wp cgroup_mounted (fun b s' => s' = s /\ (b = false -> live_roots s = [])) s.
Proof.
  intros W. unfold cgroup_mounted, cgroup_v2_mounted, cgroup_v1_mounted. destruct (root0 _ W) as [r0 H0]. pose proof (wf_roots _ W) as Hl.
  destruct (lookup_lt_is_Some_2 (roots s) 1) as [r1 H1]; [rewrite Hl; unfold ROOTS_MAX; lia|]. wps. eapply wp_root_at; [exact H0|]. wps; [done|]. eapply wp_root_at; [exact H1|]. wps.
  split; [done|]. intros E1. apply negb_false_iff, Z.eqb_eq in E, E1. destruct (live_roots s) as [|i l] eqn:El; [done|]. exfalso.
  destruct (live_roots_spec s W) as (_ & _ & Hu). destruct (wf_live_roots s W) as (n & _ & _ & Hn). assert (Hi : used s i) by (apply Hu; rewrite El; left).
  assert (H1n : ~ used s 1) by (intros (r & Hr & Hv); congruence). destruct i as [|i]; [destruct Hi as (r & Hr & Hv); congruence|].
  apply H1n, Hn; [done|]. apply Hn in Hi; lia.
Qed.

(** All hierarchies that the library mounted. *)
Lemma wp_unmount_all x Q s s0 : wf s -> removed x s s0 ->
  (forall s', removed x s s' -> (forall p, ours s p -> exists l, trace s' = l ++ trace s0 /\ C_umount p ∈ l) -> Q tt s') -> wp (each (live_roots s) (unmount_root k)) Q s0.
Proof.
  intros W R0 HQ. apply (wp_each_done (fun done s' => removed x s s' /\ exists l, trace s' = l ++ trace s0 /\
    forall i r, i ∈ done -> roots s !! i = Some r -> we_mounted_it r = true -> C_umount (mnt_path r) ∈ l)).
  - split; [done|]. exists []. split; [done|]. by intros i r ?%elem_of_nil.
  - intros done i s1 (R1 & l & El & Hl) Hi. pose proof Hi as (r & Hr & Hv)%(live_roots_spec s W). apply (wp_unmount i r); [by rewrite (removed_roots _ _ _ R1)|done|]. intros l2 R2 Hu.
    split; [rewrite <-(app_nil_r x); by eapply removed_app|]. cbn [trace with_trace] in *. exists (l2 ++ l). split; [by rewrite El, app_assoc|].
    intros j y [Hj| ->%list_elem_of_singleton]%elem_of_app Hy Hm; [apply elem_of_app; right; by eapply Hl|]. rewrite Hr in Hy. injection Hy as <-. apply elem_of_app. left. by apply Hu.
  - intros s' (R & l & El & Hl). apply HQ; [done|]. intros p (i & r & Hr & Hv & Hm & <-). exists l. split; [done|]. eapply Hl; [|done|done]. apply (live_roots_spec s W). by exists r.
Qed.

(** What was removed, and that all hierarchies of the library were unmounted. *)
Definition cleaned (s s' : cg) : Prop := removed (concat (test_rm s <$> live_roots s) ++ concat (ltp_rm s <$> live_roots s)) s s' /\
  exists l, trace s' = l ++ trace s /\ forall p, ours s p -> C_umount p ∈ l.

Lemma wp_cleanup Q s : wf s -> (forall s', cleaned s s' -> Q tt (cleared s')) -> wp (tst_cg_cleanup k) Q s.
Proof.
  intros W HQ. unfold tst_cg_cleanup. apply wp_bind. eapply wp_mono; [by apply not_mounted|]. intros b s0 [-> Hb]. apply wp_bind.
  assert (Hclear : forall s1, cleaned s s1 -> wp (clear_data k) Q s1).
  { intros s1 [H1 (l & El & Hl)]. assert (W1 : wf s1) by (destruct H1 as (t & -> & _); by apply (wf_same s)). apply wp_clear; [done|]. intros s2 H2. apply HQ. split.
    - rewrite <-(app_nil_r (_ ++ _)). eapply removed_app; [exact H1|by apply removed_nil].
    - destruct H2 as (t & (l2 & -> & _) & ->). exists (l2 ++ l). split; [cbn; by rewrite El, app_assoc|]. intros p Hp. apply elem_of_app. right. by apply Hl. }
  destruct b.
  2: { apply Hclear. split; [rewrite (Hb eq_refl); apply removed_nil, same_refl|]. exists []. split; [done|]. intros p (i & r & Hr & Hv & _).
       assert (Hi : i ∈ live_roots s) by (apply (live_roots_spec s W); by exists r). rewrite (Hb eq_refl) in Hi. by apply elem_of_nil in Hi. }
  cbn [when]. wps. apply wp_live_roots; [done|]. wps. apply (wp_remove_each _ test_rm); [|done|].
  { intros i s1 Q' Hi E HQ'. destruct (live_root s i W Hi) as [r Hr]. eapply wp_remove_test; [by rewrite E|done]. }
  intros s1 H1. assert (Es1 : exists t, s1 = with_trace t s) by (destruct H1 as (l1 & -> & _); by eexists). destruct Es1 as (t1 & ->). wps. apply (wp_remove_each _ ltp_rm); [|done|].
  { intros i s1 Q' Hi E HQ'. destruct (live_root s i W Hi) as [r Hr]. eapply wp_remove_ltp; [by rewrite E|done]. }
  intros s2 H2. assert (H02 := removed_app _ _ _ _ _ H1 H2). assert (Es2 : exists t, s2 = with_trace t s) by (destruct H2 as (l2 & -> & _); by eexists). destruct Es2 as (t2 & ->).
  wps. apply wp_quiet_each.
  { intros c s3 Q' Hc H3 HQ'. apply elem_of_seq in Hc. apply wp_disable; [|lia|done]. destruct H3 as (t3 & _ & ->). by apply (wf_same s). }
  intros s3 H3. assert (H03 := removed_app _ _ _ _ _ H02 (removed_nil _ _ H3)). rewrite app_nil_r in H03. eapply wp_unmount_all; [done|exact H03|].
  intros s4 H4 Hu. apply Hclear. split; [done|]. destruct H03 as (l3 & -> & _), H4 as (l4 & -> & _). exists l4. split; [done|]. intros p Hp. destruct (Hu p Hp) as (l & El & Hin).
  cbn [trace with_trace] in El. rewrite app_assoc in El. apply app_inv_tail in El as ->. apply elem_of_app. by left.
Qed.
End Cleanup.

(** ** Every directory is accounted for *)
Section Account.
Context (k : kernel) (tmpdir : cstr) (pid needs_ver F : Z) {Why : reasons k}.
#[local] Abbreviation wp := (wpe Why).
Context (Hpaths : forall t l m, k_mounts k t = Some l -> m ∈ l -> slen (m_dir m) < PATH_MAX).
Context (Hclash : forall s, clash k s -> Why TBROK s).
Context (Htmp : slen tmpdir < PATH_MAX - 32).
(** The controllers of version 2 do not change, and 0 is the number of a file
    that is open already. *)
Context (Hstable : forall fd t buf, k_text k (C_read fd controllers_file :: t) = Some buf -> v2_ctrls buf = F).
Context (Hopen : forall fd name t, k_ret k (C_openat fd name :: t) <> 0).

Definition own_name : cstr := test_name pid 0.
Definition has_dir (r : cgroup_root) (w : which) : Prop := dir_name (dir_of w r) <> None.

(** The controller was enabled before the directory of the test was made. *)
Definition ready_for (c : nat) (r : cgroup_root) (t : list call) : Prop := exists l t0, t = l ++ C_mkdirat (dir_fd (ltp_dir r)) own_name :: t0 /\ enabled k c r t0.

Record acct (s : cg) : Prop := {
  ac_v2 : forall r, roots s !! 0%nat = Some r -> ver r <> 0 -> root_ctrls r = F;
  ac_unused : forall i r w, roots s !! i = Some r -> ver r = 0 -> w <> Mnt -> ~ has_dir r w;
  ac_fd : forall i r w, roots s !! i = Some r -> w <> Mnt -> has_dir r w -> dir_fd (dir_of w r) <> 0;
  ac_nest : forall i r w, roots s !! i = Some r -> w <> Mnt -> has_dir r w -> has_dir r Ltp;
  ac_name : forall i r, roots s !! i = Some r -> has_dir r Test -> cgroup_test_dir s = own_name;
  ac_made : forall x, x ∈ mades k (trace s) -> exists i r w, roots s !! i = Some r /\ w <> Mnt /\ has_dir r w /\
              x = (dir_fd (dir_of (inside_of w) r), dir_text own_name w) /\ (w = Ltp -> dir_created (ltp_dir r) = true);
  ac_opened : forall i r w, roots s !! i = Some r -> w <> Mnt -> has_dir r w -> opened_at k (dir_fd (dir_of (inside_of w) r)) (dir_text own_name w) (dir_fd (dir_of w r)) (trace s);
  ac_enabled : forall i r c, roots s !! i = Some r -> has_ctrl (dir_ctrls (mnt_dir r)) c = true -> has_dir r Test /\ (c <> CTRL_BASE -> ready_for c r (trace s));
  ac_mounted : forall i r, roots s !! i = Some r -> we_mounted_it r = true -> mount_done k (trace s);
  ac_created : forall i r, roots s !! i = Some r -> has_dir r Ltp -> dir_created (ltp_dir r) = true -> (dir_fd (mnt_dir r), str "ltp") ∈ mades k (trace s);
  ac_unlinked : unlinked (trace s) = []
}.

Lemma initial_acct : acct initial.
Proof.
  assert (Hn : forall i r, roots initial !! i = Some r -> r = no_root) by (intros i r H; cbn [initial roots] in H; by apply lookup_replicate in H as [-> _]).
  assert (Hd : forall i r w, roots initial !! i = Some r -> ~ has_dir r w) by (intros i r w H; rewrite (Hn _ _ H); by destruct w; intros []).
  split; try done.
  - intros r H Hv. by rewrite (Hn _ _ H) in Hv.
  - intros i r w H _ _. by eapply Hd.
  - intros i r w H _ Hx. by destruct (Hd i r w H).
  - intros i r w H _ Hx. by destruct (Hd i r w H).
  - intros i r H Hx. by destruct (Hd i r Test H).
  - intros x Hx. by apply elem_of_nil in Hx.
  - intros i r w H _ Hx. by destruct (Hd i r w H).
  - intros i r c H Hx. rewrite (Hn _ _ H) in Hx. by rewrite has_0 in Hx.
  - intros i r H Hx. by rewrite (Hn _ _ H) in Hx.
  - intros i r H Hx. by destruct (Hd i r Ltp H).
Qed.

(** A root that is replaced by one with the same directories. *)
Definition same_dirs (t : list call) (r r' : cgroup_root) : Prop :=
  (forall w, w <> Mnt -> dir_of w r' = dir_of w r) /\ dir_ctrls (mnt_dir r') = dir_ctrls (mnt_dir r) /\
  (ver r <> 0 -> ver r' = ver r /\ dir_fd (mnt_dir r') = dir_fd (mnt_dir r) /\ no_cpuset_prefix r' = no_cpuset_prefix r) /\ (ver r' = 0 -> ver r = 0) /\
  (we_mounted_it r' = true -> we_mounted_it r = true \/ mount_done k t).
Lemma ready_later c r l t : ready_for c r t -> ready_for c r (l ++ t).
Proof. intros (l' & t0 & -> & H). exists (l ++ l'), t0. by rewrite app_assoc. Qed.
Lemma ready_same c r r' t : ver r' = ver r -> dir_fd (ltp_dir r') = dir_fd (ltp_dir r) -> dir_fd (mnt_dir r') = dir_fd (mnt_dir r) -> no_cpuset_prefix r' = no_cpuset_prefix r ->
  ready_for c r t -> ready_for c r' t.
Proof. intros E1 E2 E3 E4 (l & t0 & -> & H). exists l, t0. rewrite E2. split; [done|]. by eapply enabled_same in H. Qed.

Lemma same_dirs_acct s s' : acct s -> (forall i r', roots s' !! i = Some r' -> exists r, roots s !! i = Some r /\ same_dirs (trace s) r r') ->
  (forall i r, roots s !! i = Some r -> exists r', roots s' !! i = Some r' /\ same_dirs (trace s) r r') ->
  (forall r, roots s' !! 0%nat = Some r -> ver r <> 0 -> root_ctrls r = F) ->
  cgroup_test_dir s' = cgroup_test_dir s -> ext (trace s) (trace s') -> acct s'.
Proof.
  intros [V U Fd N Nm M As En Mo Cr Un] Hback Hfwd HV Et Hx.
  assert (Hd : forall t r r' w, same_dirs t r r' -> w <> Mnt -> has_dir r' w <-> has_dir r w) by (intros t r r' w (H & _) Hw; unfold has_dir; by rewrite H).
  assert (Hin : forall i t r r' w, roots s !! i = Some r -> same_dirs t r r' -> w <> Mnt -> has_dir r w -> dir_fd (dir_of (inside_of w) r') = dir_fd (dir_of (inside_of w) r)).
  { intros i t r r' w Hr (Hs & _ & Hm & _) Hw Hdir. destruct w; cbn [inside_of]; [done| |by rewrite Hs..]. cbn [dir_of]. apply Hm. intros Hv. by apply (U i r Ltp Hr Hv). }
  assert (Htr : exists l, trace s' = l ++ trace s) by (destruct Hx as (l & -> & _); by exists l). destruct Htr as [l El].
  split; [done|..].
  - intros i r' w H' Hv Hw. destruct (Hback _ _ H') as (r & Hr & S). rewrite (Hd _ _ _ w S) by done. apply (U i r w Hr); [|done]. by apply S.
  - intros i r' w H' Hw Hdir. destruct (Hback _ _ H') as (r & Hr & S). apply (Hd _ _ _ w S) in Hdir; [|done]. rewrite (proj1 S w) by done. by eapply Fd.
  - intros i r' w H' Hw Hdir. destruct (Hback _ _ H') as (r & Hr & S). apply (Hd _ _ _ w S) in Hdir; [|done]. apply (Hd _ _ _ Ltp S); [done|]. by eapply N.
  - intros i r' H' Hdir. destruct (Hback _ _ H') as (r & Hr & S). apply (Hd _ _ _ Test S) in Hdir; [|done]. rewrite Et. by eapply Nm.
  - intros x Hm. rewrite (mades_ext _ _ _ Hx) in Hm. destruct (M x Hm) as (i & r & w & Hr & Hw & Hdir & -> & Hl). destruct (Hfwd _ _ Hr) as (r' & Hr' & S). exists i, r', w.
    split_and!; [done|done|by apply (Hd _ _ _ w S)|by rewrite (Hin i _ r r' w Hr S)|]. intros ->. pose proof (proj1 S Ltp ltac:(done)) as E. cbn in E. rewrite E. by apply Hl.
  - intros i r' w H' Hw Hdir. destruct (Hback _ _ H') as (r & Hr & S). apply (Hd _ _ _ w S) in Hdir; [|done]. rewrite (Hin i _ r r' w Hr S), (proj1 S w) by done.
    rewrite El. apply opened_later. by eapply As.
  - intros i r' c H' Hc. destruct (Hback _ _ H') as (r & Hr & S). rewrite (proj1 (proj2 S)) in Hc. destruct (En i r c Hr Hc) as [Hdir Hok]. split; [by apply (Hd _ _ _ Test S)|]. intros Hne.
    pose proof S as (Hs & _ & Hv & _). destruct Hv as (Ev & Em & Enp); [intros Hv; by apply (U i r Test Hr Hv)|]. pose proof (Hs Ltp ltac:(done)) as Hltp. cbn in Hltp.
    rewrite El. apply ready_later, (ready_same c r); [done|by rewrite Hltp|done|done|by apply Hok].
  - intros i r' H' Hm. destruct (Hback _ _ H') as (r & Hr & S). rewrite El. apply mount_done_later. destruct (proj2 (proj2 (proj2 (proj2 S))) Hm) as [?|?]; [by eapply Mo|done].
  - intros i r' H' Hdir Hc. destruct (Hback _ _ H') as (r & Hr & S). apply (Hd _ _ _ Ltp S) in Hdir; [|done]. rewrite (mades_ext _ _ _ Hx).
    pose proof (Hin i _ r r' Ltp Hr S ltac:(done) Hdir) as E. cbn in E. rewrite E. pose proof (proj1 S Ltp ltac:(done)) as Elt. cbn in Elt. rewrite Elt in Hc. by apply (Cr i).
  - by rewrite (unlinked_ext _ _ Hx).
Qed.

Lemma insert_acct s s' i r r' : acct s -> roots s !! i = Some r -> roots s' = <[i := r']> (roots s) -> same_dirs (trace s) r r' -> (i = 0%nat -> ver r' <> 0 -> root_ctrls r' = F) ->
  cgroup_test_dir s' = cgroup_test_dir s -> ext (trace s) (trace s') -> acct s'.
Proof.
  intros A Hr Er S HF Et Hx. assert (Srefl : forall x, same_dirs (trace s) x x) by (intros x; split_and!; auto). apply (same_dirs_acct s); [done|..|done|done]; rewrite Er.
  - intros j x H. apply list_lookup_insert_Some in H as [(<- & <- & _)|[_ H]]; eauto.
  - intros j x H. destruct (decide (i = j)) as [<-|Hne]; [|exists x; by rewrite list_lookup_insert_ne]. exists r'. rewrite list_lookup_insert_eq by by eapply lookup_lt_Some.
    split; [done|]. congruence.
  - intros x H. apply list_lookup_insert_Some in H as [(-> & <- & _)|[_ H]]; [by apply HF|by apply (ac_v2 _ A)].
Qed.
Lemma quiet_acct s s' : acct s -> roots s' = roots s -> cgroup_test_dir s' = cgroup_test_dir s -> ext (trace s) (trace s') -> acct s'.
Proof. intros A Er Et Hx. assert (Srefl : forall x, same_dirs (trace s) x x) by (intros x; split_and!; auto). apply (same_dirs_acct s); [done|..|done|done]; rewrite Er; [eauto|eauto|apply (ac_v2 _ A)]. Qed.

Lemma step_acct s s' : wf s -> acct s -> step k s s' -> acct s'.
Proof using Hstable.
  intros W A H. destruct H as [s' [t Ht|r dir fd buf t0 Hr Hc Hb Hv|i r dir fd field np Hr Hi Hv Hf Hd]|t Ht|i r mounted cr Hr Hl Hm|c x b Hx|x Hx].
  - apply (quiet_acct s); [done..|]. eapply ext_weaken; [apply plain_quiet|done].
  - assert (Hz : ver r = 0). { destruct (Z.eq_dec (ver r) 0) as [|Hne]; [done|]. destruct Hv as [?|Hz]; [done|]. destruct Hz. by rewrite (Hstable _ _ _ Hb), <-(ac_v2 _ A r Hr Hne). }
    eapply (insert_acct s); [done|exact Hr|done| |intros _ _; by apply (Hstable fd t0)|done|apply ext_refl]. split_and!; [by intros []|done|done|done|by left].
  - eapply (insert_acct s); [done|exact Hr|done| |intros ->; lia|done|apply ext_refl]. split_and!; [by intros []|done|done|done|by left].
  - by apply (quiet_acct s).
  - eapply (insert_acct s); [done|exact Hr|done|split_and!; [by intros []|done|done|done|exact Hm]|intros ->; exact (ac_v2 _ A r Hr)|done|apply ext_refl].
  - apply (quiet_acct s); [done..|apply ext_refl].
  - apply (quiet_acct s); [done..|apply ext_refl].
Qed.
Lemma steps_acct s s' : wf s -> acct s -> rtc (step k) s s' -> acct s'.
Proof using Hstable. intros W A H. induction H as [|a b c Hab _ IH]; [done|]. apply IH; [by eapply step_wf|by eapply step_acct]. Qed.

Section Post.
Context (c i : nat) (s : cg) (r r' : cgroup_root) (t : list call).
Context (I : inv needs_ver s) (A : acct s) (Hr : roots s !! i = Some r) (P : mkdirs_post k c needs_ver i own_name r r' (trace s) t).

Lemma post_mnt_fd : dir_fd (mnt_dir r') = dir_fd (mnt_dir r).
Proof using P. by rewrite (mp_mnt _ _ _ _ _ _ _ _ _ P). Qed.
Lemma post_ltp_old : dir_fd (ltp_dir r) <> 0 -> dir_fd (ltp_dir r') = dir_fd (ltp_dir r) /\ dir_created (ltp_dir r') = dir_created (ltp_dir r).
Proof using P. intros H. pose proof (mp_ltp _ _ _ _ _ _ _ _ _ P) as L. rewrite (proj2 (Z.eqb_neq _ _) H) in L. by rewrite L. Qed.
Lemma post_fds w : w <> Mnt -> dir_fd (dir_of w r') <> 0.
Proof using P Hopen.
  assert (Ho : forall fd, opened k fd -> fd <> 0) by (intros fd (_ & x & y & t' & ->); apply Hopen).
  intros Hw. destruct w; [done|..|by destruct (mp_sub _ _ _ _ _ _ _ _ _ P Drain ltac:(auto)) as (fd & cr & Hfd%Ho & ->)
    |by destruct (mp_sub _ _ _ _ _ _ _ _ _ P Test ltac:(auto)) as (fd & cr & Hfd%Ho & ->)].
  cbn [dir_of]. pose proof (mp_ltp _ _ _ _ _ _ _ _ _ P) as L. destruct (Z.eqb_spec (dir_fd (ltp_dir r)) 0); [by destruct L as (fd & cr & Hfd%Ho & ->)|]. by rewrite L.
Qed.
(** Where a directory of the old root was made is where the new one has it. *)
Lemma post_inside w : w <> Mnt -> has_dir r w -> dir_fd (dir_of (inside_of w) r') = dir_fd (dir_of (inside_of w) r).
Proof using A Hr P.
  intros Hw Hd. pose proof (ac_nest _ A i r w Hr Hw Hd) as HL. pose proof (ac_fd _ A i r Ltp Hr ltac:(done) HL) as Hfd.
  destruct w; [done|apply post_mnt_fd|by apply post_ltp_old..].
Qed.

(** The new controller and those that were enabled before. *)
Lemma post_ready d : has_ctrl (dir_ctrls (mnt_dir r')) d = true -> d <> CTRL_BASE -> ready_for d r' t.
Proof using I A Hr P.
  intros Hd Hne. rewrite (post_mnt _ _ _ _ _ _ _ _ _ P) in Hd. destruct (Nat.eqb_spec c d) as [Ed|_].
  - destruct (mp_enabled _ _ _ _ _ _ _ _ _ P) as (o & t1 & Et & Hen). rewrite Ed in Hen. exists [o], t1. split; [exact Et|by apply Hen].
  - cbn in Hd. destruct (ac_enabled _ A i r d Hr Hd) as [Hdir Hok]. pose proof (ac_nest _ A i r Test Hr ltac:(done) Hdir) as HL.
    destruct (mp_calls _ _ _ _ _ _ _ _ _ P) as (l & El). rewrite El. apply ready_later. destruct (mp_same _ _ _ _ _ _ _ _ _ P) as (E1 & _ & _ & _ & E5).
    apply (ready_same d r); [done|by apply post_ltp_old, (ac_fd _ A i r Ltp Hr)|apply post_mnt_fd|done|by apply Hok].
Qed.

Lemma now_acct : acct (now s i own_name r' t).
Proof using I A Hr P Hopen.
  pose proof (post_dirs _ _ _ _ _ _ _ _ _ I Hr P) as Hdirs. destruct (mp_ver _ _ _ _ _ _ _ _ _ P) as [Hv _]. destruct (mp_same _ _ _ _ _ _ _ _ _ P) as (E1 & _ & E2 & Em & _).
  assert (Hd : forall w, w <> Mnt -> has_dir r' w) by (intros w Hw; unfold has_dir; by rewrite (proj1 (Hdirs w Hw))).
  assert (Hnew : roots (now s i own_name r' t) !! i = Some r') by (apply list_lookup_insert_eq; by apply lookup_lt_Some in Hr). split.
  - intros x [[<- ->]|H]%now_lookup Hx; [rewrite E2; apply (ac_v2 _ A r Hr); by rewrite <-E1|by apply (ac_v2 _ A)].
  - intros j x w [[-> ->]|H]%now_lookup Hx; [congruence|by apply (ac_unused _ A j)].
  - intros j x w [[-> ->]|H]%now_lookup Hw Hx; [by apply post_fds|by apply (ac_fd _ A j)].
  - intros j x w [[-> ->]|H]%now_lookup Hw Hx; [by apply Hd|by apply (ac_nest _ A j x w)].
  - done.
  - intros x Hx. cbn [now trace with_trace] in Hx. rewrite (mp_mades _ _ _ _ _ _ _ _ _ P) in Hx.
    assert (Hmade : forall w, w <> Mnt -> x ∈ made own_name r' w -> exists j y w', roots (now s i own_name r' t) !! j = Some y /\ w' <> Mnt /\ has_dir y w' /\
        x = (dir_fd (dir_of (inside_of w') y), dir_text own_name w') /\ (w' = Ltp -> dir_created (ltp_dir y) = true)).
    { intros w Hw Hin. unfold made in Hin. destruct (dir_created _) eqn:Ecr; [|by apply elem_of_nil in Hin]. apply list_elem_of_singleton in Hin as ->.
      exists i, r', w. split_and!; [done|done|by apply Hd|done|by intros ->]. }
    apply elem_of_app in Hx as [Hx|Hx]; [by apply (Hmade Test)|]. apply elem_of_app in Hx as [Hx|Hx]; [by apply (Hmade Drain)|]. apply elem_of_app in Hx as [Hx|Hx].
    + destruct (_ =? 0); [|by apply elem_of_nil in Hx]. by apply (Hmade Ltp).
    + destruct (ac_made _ A x Hx) as (j & y & w & Hj & Hw & Hdir & -> & Hl). destruct (decide (j = i)) as [->|Hne].
      * assert (y = r) as -> by congruence. exists i, r', w. split_and!; [done|done|by apply Hd|by rewrite post_inside|]. intros ->. rewrite (proj2 (post_ltp_old (ac_fd _ A i r Ltp Hr ltac:(done) Hdir))). by apply Hl.
      * exists j, y, w. split_and!; try done. cbn. by rewrite list_lookup_insert_ne.
  - intros j x w [[-> ->]|H]%now_lookup Hw Hx; cbn [now trace with_trace].
    + destruct (decide (w = Ltp /\ dir_fd (ltp_dir r) <> 0)) as [[-> Hfd]|Hother].
      * destruct (mp_calls _ _ _ _ _ _ _ _ _ P) as (l & El). rewrite El. apply opened_later. cbn [inside_of dir_of]. rewrite post_mnt_fd, (proj1 (post_ltp_old Hfd)).
        apply (ac_opened _ A i r Ltp Hr); [done|]. intros Hn. by destruct Hfd, (wf_fd _ (inv_wf _ _ I) i r Ltp Hr).
      * apply (mp_opened _ _ _ _ _ _ _ _ _ P). destruct w; [done|right; right; split; [done|]; destruct (Z.eq_dec (dir_fd (ltp_dir r)) 0); [done|by destruct Hother]|auto..].
    + destruct (mp_calls _ _ _ _ _ _ _ _ _ P) as (l & El). rewrite El. apply opened_later. by apply (ac_opened _ A j x w).
  - intros j x d [[-> ->]|H]%now_lookup Hx; cbn [now trace with_trace]; [split; [by apply Hd|intros Hne; by apply post_ready]|].
    destruct (ac_enabled _ A j x d H Hx) as [Hdx Hok]. split; [done|]. intros Hne. destruct (mp_calls _ _ _ _ _ _ _ _ _ P) as (l & El). rewrite El. by apply ready_later, Hok.
  - intros j x Hj Hm. cbn [now trace with_trace]. destruct (mp_calls _ _ _ _ _ _ _ _ _ P) as (l & El). rewrite El. apply mount_done_later.
    apply now_lookup in Hj as [[-> ->]|H]; [apply (ac_mounted _ A i r Hr); by rewrite <-Em|by apply (ac_mounted _ A j x)].
  - intros j x Hj Hx Hc. cbn [now trace with_trace]. rewrite (mp_mades _ _ _ _ _ _ _ _ _ P), !elem_of_app. apply now_lookup in Hj as [[-> ->]|H]; [|right; right; right; by apply (ac_created _ A j)].
    destruct (Z.eqb_spec (dir_fd (ltp_dir r)) 0) as [|Hfd]; [right; right; left; unfold made; cbn [dir_of]; rewrite Hc; left|].
    right. right. right. rewrite post_mnt_fd. rewrite (proj2 (post_ltp_old Hfd)) in Hc. apply (ac_created _ A i r Hr); [|done]. intros Hn. by destruct Hfd, (wf_fd _ (inv_wf _ _ I) i r Ltp Hr).
  - cbn. rewrite (mp_unlinked _ _ _ _ _ _ _ _ _ P). apply (ac_unlinked _ A).
Qed.
End Post.

Lemma wp_requires_acct names Q s : inv needs_ver s -> acct s -> test_group s = no_group -> drain_group s = no_group ->
  (forall name, name ∈ names -> cgroup_find_ctrl name <> None) -> (forall s', lacks needs_ver names s' -> Why TCONF s') ->
  (forall s', inv needs_ver s' -> acct s' -> test_group s' = no_group -> drain_group s' = no_group -> Q tt s') ->
  wp (each names (fun name => tst_cg_require k tmpdir pid name needs_ver 0)) Q s.
Proof using Hclash Hpaths Htmp Hstable Hopen.
  intros I A G1 G2 Hn HW HQ. apply (wp_each (fun s' => inv needs_ver s' /\ acct s' /\ test_group s' = no_group /\ drain_group s' = no_group)); [done| |by intros s' (? & ? & ? & ?); apply HQ].
  intros name s1 Hin (I1 & A1 & T1 & D1). destruct (cgroup_find_ctrl name) as [c|] eqn:Ec; [|by destruct (Hn name)].
  eapply wp_require; [done|done|done|apply (inv_wf _ _ I1)|exact Ec|intros s' Hs; apply HW; by exists name, c|]. intros s2 i q r r' t H2 _ Hr P. pose proof (steps_stays _ _ _ (inv_wf _ _ I1) H2) as S2.
  assert (I2 : inv needs_ver s2) by (eapply stays_inv; [exact I1|done|]; eapply steps_wf; [apply (inv_wf _ _ I1)|done]). pose proof (stays_groups _ _ _ S2) as [= _ T2 D2].
  split_and!; [by eapply now_inv|eapply now_acct; try done; eapply steps_acct; [apply (inv_wf _ _ I1)|done|done]|cbn; congruence|cbn; congruence].
Qed.

Lemma wp_do_cgroup_requires_acct names Q : (forall name, name ∈ names -> cgroup_find_ctrl name <> None) -> (forall t s', Why t s') ->
  (forall s, inv needs_ver s -> acct s -> Q tt s) -> wp (do_cgroup_requires k tmpdir pid needs_ver names) Q initial.
Proof using Hclash Hpaths Htmp Hstable Hopen.
  intros Hn HW HQ. unfold do_cgroup_requires. apply wp_bind, wp_requires_acct; [apply initial_inv|apply initial_acct|done|done|done|done|]. intros s I A G1 G2.
  eapply wp_init; [exact I|done|done|done|]. intros s' C Er Et Eb. apply HQ; [apply (cr_inv _ _ C)|]. apply (quiet_acct s); [done|done|done|]. rewrite Et. apply ext_refl.
Qed.
End Account.

Lemma named_eq k pid F i r w s : wf s -> acct k pid F s -> roots s !! i = Some r -> w <> Mnt ->
  named i r s w = if bool_decide (dir_name (dir_of w r) = None) then [] else [(dir_fd (dir_of (inside_of w) r), dir_text (own_name pid) w)].
Proof.
  intros W A Hr Hw. unfold named. destruct (dir_name (dir_of w r)) as [n|] eqn:En; [|done]. rewrite bool_decide_eq_false_2 by done.
  destruct (wf_dirs _ W i r w Hr Hw ltac:(by rewrite En)) as (E & _). rewrite En in E. injection E as ->. do 2 f_equal.
  destruct w; [done|done|done|]. apply (ac_name _ _ _ _ A i r Hr). unfold has_dir. by rewrite En.
Qed.

Lemma elem_of_rev {X} (x : X) (xs : list X) : x ∈ rev xs <-> x ∈ xs.
Proof. by rewrite !list_elem_of_In, <-in_rev. Qed.

Section Removed.
Context (k : kernel) (pid F : Z) (s : cg) (W : wf s) (A : acct k pid F s).
#[local] Abbreviation l := (live_roots s).
#[local] Abbreviation gone := (concat (test_rm s <$> l) ++ concat (ltp_rm s <$> l)).

Lemma elem_of_roots {X} (f : nat -> list X) (x : X) : x ∈ concat (f <$> l) <-> exists i r, i ∈ l /\ roots s !! i = Some r /\ x ∈ f i.
Proof using W.
  rewrite list_elem_of_In, in_concat. split.
  - intros (y & Hy & Hx). apply list_elem_of_In, list_elem_of_fmap in Hy as (i & -> & Hi). destruct (live_root s i W Hi) as [r Hr]. exists i, r. split_and!; [done|done|by apply list_elem_of_In].
  - intros (i & r & Hi & _ & Hx). exists (f i). split; [|by apply list_elem_of_In]. apply list_elem_of_In, list_elem_of_fmap. by exists i.
Qed.

(** A directory of a root that is in use, and when it is removed. *)
Lemma dir_live i r w : roots s !! i = Some r -> w <> Mnt -> dir_name (dir_of w r) <> None -> i ∈ l.
Proof using W A.
  intros Hr Hw Hd. apply (live_roots_spec s W). exists r. split; [done|]. intros Hv. by apply (ac_unused _ _ _ _ A i r w Hr Hv Hw).
Qed.
Lemma in_named i r w : roots s !! i = Some r -> w <> Mnt -> dir_name (dir_of w r) <> None -> (dir_fd (dir_of (inside_of w) r), dir_text (own_name pid) w) ∈ named i r s w.
Proof using W A. intros Hr Hw Hd. rewrite (named_eq k pid F i r w s W A Hr Hw), bool_decide_eq_false_2 by done. left. Qed.

Lemma all_removed x : x ∈ mades k (trace s) -> x ∈ rev gone \/ exists i r, roots s !! i = Some r /\ dir_created (ltp_dir r) = false /\ x = (dir_fd (ltp_dir r), str "drain").
Proof using W A.
  intros Hx. destruct (ac_made _ _ _ _ A x Hx) as (i & r & w & Hr & Hw & Hd & -> & Hl). pose proof (dir_live i r w Hr Hw Hd) as Hi. pose proof (in_named i r w Hr Hw Hd) as Hin.
  rewrite elem_of_rev, elem_of_app, !elem_of_roots. destruct w; [done|..].
  - left. right. exists i, r. split_and!; [done|done|]. unfold ltp_rm. rewrite Hr, (Hl eq_refl). apply elem_of_app. by right.
  - destruct (dir_created (ltp_dir r)) eqn:Ec; [|right; by exists i, r]. left. right. exists i, r. split_and!; [done|done|]. unfold ltp_rm. rewrite Hr, Ec. apply elem_of_app. by left.
  - left. left. exists i, r. split_and!; [done|done|]. unfold test_rm. by rewrite Hr.
Qed.

Lemma removed_asked x : x ∈ gone -> C_mkdirat (fst x) (snd x) ∈ trace s /\ (x ∈ mades k (trace s) \/ exists i r, roots s !! i = Some r /\ fst x = dir_fd (ltp_dir r)).
Proof using W A.
  assert (Hnamed : forall i r w, roots s !! i = Some r -> w <> Mnt -> x ∈ named i r s w -> has_dir r w /\ x = (dir_fd (dir_of (inside_of w) r), dir_text (own_name pid) w) /\ C_mkdirat (fst x) (snd x) ∈ trace s).
  { intros i r w Hr Hw Hin. rewrite (named_eq k pid F i r w s W A Hr Hw) in Hin. case_bool_decide as E; [by apply elem_of_nil in Hin|]. apply list_elem_of_singleton in Hin as ->.
    split_and!; [done|done|by eapply opened_asked, (ac_opened _ _ _ _ A i r w)]. }
  rewrite elem_of_app, !elem_of_roots. intros [(i & r & _ & Hr & Hx)|(i & r & _ & Hr & Hx)]; unfold test_rm, ltp_rm in Hx; rewrite Hr in Hx.
  - apply (Hnamed i r Test) in Hx as (_ & -> & Ha); [|done..]. split; [done|]. right. by exists i, r.
  - destruct (dir_created _) eqn:Ec; [|by apply elem_of_nil in Hx]. apply elem_of_app in Hx as [Hx|Hx].
    + apply (Hnamed i r Drain) in Hx as (_ & -> & Ha); [|done..]. split; [done|]. right. by exists i, r.
    + apply (Hnamed i r Ltp) in Hx as (Hd & -> & Ha); [|done..]. split; [done|]. left. by apply (ac_created _ _ _ _ A i).
Qed.

Lemma ltp_last i r : roots s !! i = Some r -> dir_created (ltp_dir r) = true -> dir_name (ltp_dir r) <> None -> exists newer older,
  rev gone = newer ++ (dir_fd (mnt_dir r), str "ltp") :: older /\
  (dir_name (drain_dir r) <> None -> (dir_fd (ltp_dir r), str "drain") ∈ older) /\ (dir_name (test_dir r) <> None -> (dir_fd (ltp_dir r), own_name pid) ∈ older).
Proof using W A.
  intros Hr Hc Hd. pose proof (dir_live i r Ltp Hr ltac:(done) Hd) as Hi. apply list_elem_of_split in Hi as Hsplit. destruct Hsplit as (l1 & l2 & El).
  exists (rev (concat (ltp_rm s <$> l2))), (rev (concat (test_rm s <$> l) ++ concat (ltp_rm s <$> l1) ++ named i r s Drain)). split_and!.
  - rewrite El at 2. rewrite fmap_app, concat_app. cbn [fmap list_fmap concat]. unfold ltp_rm at 2. rewrite Hr, Hc, (named_eq k pid F i r Ltp s W A Hr ltac:(done)).
    rewrite bool_decide_eq_false_2 by done. rewrite !rev_app_distr. cbn [rev app]. by rewrite <-!app_assoc.
  - intros Hn. rewrite elem_of_rev, !elem_of_app. right. right. by apply (in_named i r Drain).
  - intros Hn. rewrite elem_of_rev, elem_of_app. left. apply elem_of_roots. exists i, r. split_and!; [done|done|]. unfold test_rm. rewrite Hr. by apply (in_named i r Test).
Qed.
End Removed.

Lemma requires_acct k tmpdir pid needs_ver names F s :
  (forall t l m, k_mounts k t = Some l -> m ∈ l -> slen (m_dir m) < PATH_MAX) -> slen tmpdir < PATH_MAX - 32 -> (forall name, name ∈ names -> cgroup_find_ctrl name <> None) ->
  (forall fd t buf, k_text k (C_read fd controllers_file :: t) = Some buf -> v2_ctrls buf = F) -> (forall fd name t, k_ret k (C_openat fd name :: t) <> 0) ->
  do_cgroup_requires k tmpdir pid needs_ver names initial = Ok (tt, s) -> inv needs_ver s /\ acct k pid F s.
Proof.
  intros Hpaths Htmp Hn Hstable Hopen Hrun.
  pose proof (wp_do_cgroup_requires_acct k tmpdir pid needs_ver F (Why := any_reasons k) Hpaths ltac:(done) Htmp Hstable Hopen names (fun _ s => inv needs_ver s /\ acct k pid F s) Hn ltac:(done) ltac:(done)) as H.
  unfold wpe in H. by rewrite Hrun in H.
Qed.

(** ** The properties *)

(** Why requiring controllers may end the program: the newest call failed, the
    mounted hierarchies clash, one of the controllers cannot be used, or there
    are none. *)
Definition refused (k : kernel) (needs_ver : Z) (names : list cstr) (t : Z) (s : cg) : Prop :=
  failed k (trace s) \/ (t = TBROK /\ clash k s) \/ (t = TCONF /\ lacks needs_ver names s) \/ names = [].
Definition refused_reasons (k : kernel) (needs_ver : Z) (names : list cstr) : reasons k :=
  mkReasons k (refused k needs_ver names) (fun _ _ H => or_introl H).

(** What was called for the controller [c] in its hierarchy [r]: the three
    directories were made, each in the one that was opened before, and before
    that of the test was made the controller was enabled. *)
Record prepared (k : kernel) (pid : Z) (c : nat) (r : cgroup_root) (t : list call) : Prop := {
  pp_ltp : opened_at k (dir_fd (mnt_dir r)) (str "ltp") (dir_fd (ltp_dir r)) t;
  pp_drain : opened_at k (dir_fd (ltp_dir r)) (str "drain") (dir_fd (drain_dir r)) t;
  pp_test : opened_at k (dir_fd (ltp_dir r)) (own_name pid) (dir_fd (test_dir r)) t;
  pp_enabled : c <> 0%nat -> c <> CTRL_BASE -> ready_for k pid c r t
}.


(** The only reason for [tst_cg_cleanup]: the newest call failed. *)
Definition failed_reasons (k : kernel) : reasons k := mkReasons k (fun _ s => failed k (trace s)) (fun _ _ H => H).



