(* ===== verification/CgroupConfig.v ===== *)
(** * Control groups: the state as text

    [tst_cg_print_config] writes what [tst_cg_cleanup] needs, and
    [tst_cg_load_config] reads it in another process; shell tests use the two
    through [testcases/lib/tst_cgctl.c]. *)

From stdpp Require Import base list strings relations.
From Stdlib Require Import ZArith Lia.
From S2P Require Import Prelude ParseNum Tokens Cgroup CgroupSpec CgroupRequire CgroupGroup CgroupCleanup.

Local Open Scope Z_scope.

(** ** Lines *)

(** What [%s] reads back: a word that fits. *)
Definition word (n : nat) (w : cstr) : Prop := w <> [] /\ (length w <= n)%nat /\ forallb (fun c => negb (isspace c)) w = true.

Lemma scan_word n w t : word n w -> scan_s n (w ++ TAB :: t) = Some (w, TAB :: t).
Proof.
  intros (Hne & Hl & Hw). unfold scan_s. assert (Hs : skip_while isspace (w ++ TAB :: t) = w ++ TAB :: t).
  { destruct w as [|c w]; [done|]. cbn in Hw |- *. apply andb_true_iff in Hw as [Hc _]. apply negb_true_iff in Hc. by rewrite Hc. }
  rewrite Hs, span_app by done. rewrite take_ge by done. destruct w as [|c w]; [done|]. by rewrite drop_app_length.
Qed.
Lemma scan_word_tab n w t : word n w -> scan_s n (TAB :: w ++ TAB :: t) = Some (w, TAB :: t).
Proof. intros Hw. rewrite <-(scan_word n w t Hw). done. Qed.
Lemma scan_last n w : word n w -> scan_s n (TAB :: w) = Some (w, []).
Proof.
  intros (Hne & Hl & Hw). unfold scan_s. change (skip_while isspace (TAB :: w)) with (skip_while isspace w). assert (Hs : skip_while isspace w = w).
  { destruct w as [|c w]; [done|]. cbn in Hw |- *. apply andb_true_iff in Hw as [Hc _]. apply negb_true_iff in Hc. by rewrite Hc. }
  rewrite Hs, span_all by done. rewrite take_ge by done. destruct w as [|c w]; [done|]. by rewrite drop_all.
Qed.
Lemma scan_small v t : v = -1 \/ v = 0 \/ v = 1 \/ v = 2 -> scan_d (TAB :: dec v ++ TAB :: t) = Some (v, TAB :: t).
Proof. intros [-> |[-> |[-> | ->]]]; reflexivity. Qed.
Lemma bit_small b : bit b = -1 \/ bit b = 0 \/ bit b = 1 \/ bit b = 2.
Proof. destruct b; auto. Qed.

(** A line without its end. *)
Definition line (c : nat) (required : bool) (r : cgroup_root) (test : option cstr) : cstr :=
  ctrl_name c ++ [TAB] ++ dec (ver r) ++ [TAB] ++ dec (bit required) ++ [TAB] ++ mnt_path r ++ [TAB] ++ dec (bit (we_mounted_it r)) ++ [TAB]
  ++ dec (bit (dir_created (ltp_dir r))) ++ [TAB] ++ default (str "NULL") test.
Lemma line_end c q r test : config_line c q r test = line c q r test ++ [NEWLINE].
Proof. unfold config_line, line. by rewrite <-!app_assoc. Qed.

Lemma name_word c : (c < 18)%nat -> word 31 (ctrl_name c).
Proof.
  intros Hc. assert (H : forallb (fun c => match ctrl_name c with [] => false | n => (length n <=? 31)%nat && forallb (fun c => negb (isspace c)) n end) (seq 0 18) = true) by reflexivity.
  rewrite forallb_forall in H. specialize (H c). rewrite in_seq in H. specialize (H ltac:(lia)). unfold word. destruct (ctrl_name c); [done|].
  apply andb_true_iff in H as [H1 H2]. apply Nat.leb_le in H1. done.
Qed.

Lemma scan_line c q r test : (c < 18)%nat -> word PATH_MAX_STRLEN (mnt_path r) -> (forall n, test = Some n -> word 255 n) -> ver r = 1 \/ ver r = 2 ->
  scan_config (line c q r test) = Some (mkConfig (ctrl_name c) (ver r) (bit q) (mnt_path r) (bit (we_mounted_it r)) (bit (dir_created (ltp_dir r))) (default (str "NULL") test)).
Proof.
  intros Hc Hp Ht Hv. unfold scan_config, line. rewrite <-!app_comm_cons, !app_nil_l. rewrite (scan_word 31) by by apply name_word. cbn [mbind option_bind].
  rewrite scan_small by tauto. cbn [mbind option_bind]. rewrite scan_small by apply bit_small. cbn [mbind option_bind]. rewrite (scan_word_tab PATH_MAX_STRLEN) by done.
  cbn [mbind option_bind]. rewrite scan_small by apply bit_small. cbn [mbind option_bind]. rewrite scan_small by apply bit_small. cbn [mbind option_bind].
  rewrite scan_last; [done|]. destruct test as [n|]; [by apply Ht|]. split_and!; [done|cbn; lia|done].
Qed.

Definition one_line (l : cstr) : Prop := l <> [] /\ forallb (fun c => negb (is_char NEWLINE c)) l = true.

Definition text_lines (ls : list cstr) : cstr := concat ((fun l => l ++ [NEWLINE]) <$> ls).

Lemma lines_tokens ls : Forall one_line ls -> strtoks (is_char NEWLINE) (text_lines ls) = ls.
Proof.
  induction 1 as [|l ls [Hne Hl] _ IH]; [done|]. unfold text_lines in *. cbn [fmap list_fmap concat]. rewrite <-app_assoc. cbn [app].
  erewrite strtoks_some; [by rewrite IH|]. apply (strtok_app (is_char NEWLINE) l); done.
Qed.

Lemma word_line n w : word n w -> forallb (fun c => negb (is_char NEWLINE c)) w = true.
Proof.
  intros (_ & _ & H). rewrite forallb_forall in *. intros c Hc. specialize (H c Hc). apply negb_true_iff in H. apply negb_true_iff. unfold is_char.
  destruct (Z.eqb_spec c NEWLINE) as [->|]; [done|done].
Qed.
Lemma small_line v : v = -1 \/ v = 0 \/ v = 1 \/ v = 2 -> forallb (fun c => negb (is_char NEWLINE c)) (dec v) = true.
Proof. intros [-> |[-> |[-> | ->]]]; reflexivity. Qed.
Lemma line_one_line c q r test : (c < 18)%nat -> word PATH_MAX_STRLEN (mnt_path r) -> (forall n, test = Some n -> word 255 n) -> ver r = 1 \/ ver r = 2 -> one_line (line c q r test).
Proof.
  intros Hc Hp Ht Hv. pose proof (name_word c Hc) as Hn. split.
  - unfold line. destruct Hn as [Hn _]. by destruct (ctrl_name c).
  - unfold line. rewrite !forallb_app. cbn [forallb]. rewrite (word_line 31 (ctrl_name c)), (word_line PATH_MAX_STRLEN (mnt_path r)), !small_line by (done || tauto || apply bit_small).
    destruct test as [n|]; [|done]. cbn. by rewrite (word_line 255 n) by by apply Ht.
Qed.

(** ** Printing *)

(** What can be printed so that it can be read: controllers have a mounted
    hierarchy, and mount points are distinct words. *)
Record printable (s : cg) : Prop := {
  pr_wf : wf s;
  pr_live : forall c i q, ctrls s !! c = Some (Some i, q) -> used s i;
  pr_path : forall i r, roots s !! i = Some r -> ver r <> 0 -> word PATH_MAX_STRLEN (mnt_path r);
  pr_distinct : forall i j r r', roots s !! i = Some r -> roots s !! j = Some r' -> ver r <> 0 -> ver r' <> 0 -> mnt_path r = mnt_path r' -> i = j;
  pr_test : forall i r, roots s !! i = Some r -> dir_name (test_dir r) <> None -> word 255 (cgroup_test_dir s) /\ cgroup_test_dir s <> str "NULL"
}.

Definition test_text (s : cg) (r : cgroup_root) : option cstr := match dir_name (test_dir r) with None => None | Some _ => Some (cgroup_test_dir s) end.
Definition entry (s : cg) (c : nat) : option cstr :=
  '(o, q) ← ctrls s !! c; i ← o; r ← roots s !! i; Some (line c q r (test_text s r)).
Definition entries (s : cg) : list cstr := omap (entry s) all_ctrls.

Lemma entry_some s c l : entry s c = Some l <-> exists i q r, ctrls s !! c = Some (Some i, q) /\ roots s !! i = Some r /\ l = line c q r (test_text s r).
Proof.
  unfold entry. destruct (ctrls s !! c) as [[[i|] q]|]; cbn [mbind option_bind]; [|naive_solver..]. destruct (roots s !! i) as [r|] eqn:E; cbn [mbind option_bind]; [|naive_solver].
  split; [intros [= <-]; eauto 10|]. intros (? & ? & ? & [= <- <-] & Hr & ->). rewrite E in Hr. by injection Hr as <-.
Qed.

Lemma config_lines_run s l text : wf s -> (forall c, c ∈ l -> (c < 18)%nat) -> config_lines l text s = Ok (text ++ text_lines (omap (entry s) l), s).
Proof.
  intros W. revert text. induction l as [|c l IH]; intros text Hl; [cbn; by rewrite app_nil_r|]. cbn [config_lines omap list_omap].
  destruct (ctrl_some s c W) as [[o q] Hx]; [apply Hl; left|]. unfold get at 1, mbind at 1, C_bind at 1. rewrite Hx. cbn [deref]. unfold mbind at 1, C_bind at 1, mret at 1, C_ret at 1.
  cbn [fst snd]. unfold entry at 1. rewrite Hx. destruct o as [i|]; [|cbn; apply IH; intros d Hd; apply Hl; by right].
  destruct (wf_ctrl s W c i q Hx) as (r & Hr & _). rewrite (bind_run _ _ _ _ _ (root_at_run _ _ _ Hr)).
  assert (Hn : (match dir_name (test_dir r) with None => mret None | Some n => name ← name_of i n; mret (Some name) end : C (option cstr)) s = Ok (test_text s r, s)).
  { unfold test_text. destruct (dir_name (test_dir r)) as [n|] eqn:En; [|done]. destruct (wf_dirs s W i r Test Hr) as [E _]; [done|cbn; by rewrite En|]. cbn in E. rewrite En in E. by injection E as ->. }
  rewrite (bind_run _ _ _ _ _ Hn), IH by (intros d Hd; apply Hl; by right). cbn [mbind option_bind]. rewrite Hr. cbn [mbind option_bind]. unfold text_lines. cbn [fmap list_fmap concat]. by rewrite line_end, !app_assoc.
Qed.

Lemma text_lines_cons l ls : text_lines (l :: ls) = (l ++ [NEWLINE]) ++ text_lines ls.
Proof. done. Qed.
Lemma header_line : one_line CONFIG_HEADER.
Proof. split; [done|reflexivity]. Qed.
#[local] Opaque CONFIG_HEADER.

Lemma print_run s : wf s -> tst_cg_print_config s = Ok (text_lines (CONFIG_HEADER :: entries s), s).
Proof.
  intros W. unfold tst_cg_print_config, entries. rewrite config_lines_run, text_lines_cons; [reflexivity|done|]. intros c Hc. apply elem_of_seq in Hc. lia.
Qed.

Lemma live_ver s i : wf s -> used s i -> exists r, roots s !! i = Some r /\ (ver r = 1 \/ ver r = 2).
Proof. intros W (r & Hr & Hv). exists r. split; [done|]. destruct (wf_ver s i r W Hr) as [?|[?|?]]; [done|by left|by right]. Qed.

Lemma ctrl_lt s c x : wf s -> ctrls s !! c = Some x -> (c < 18)%nat.
Proof. intros W H. rewrite <-(wf_ctrls s W). by eapply lookup_lt_Some. Qed.
Lemma test_text_word s i r n : printable s -> roots s !! i = Some r -> test_text s r = Some n -> word 255 n /\ n <> str "NULL" /\ n = cgroup_test_dir s /\ dir_name (test_dir r) <> None.
Proof. intros P Hr H. unfold test_text in H. destruct (dir_name (test_dir r)) eqn:E; [|done]. injection H as <-. destruct (pr_test s P i r Hr); [by rewrite E|done]. Qed.

Lemma drop_first {A} (x : A) l : drop 1 (x :: l) = l.
Proof. done. Qed.
Lemma omap_some {A B} (f : A -> option B) (l : list A) x : x ∈ omap f l -> exists c, f c = Some x.
Proof. intros H. apply list_elem_of_omap in H as (c & _ & Hc). by exists c. Qed.
Lemma elem_of_entries s l : l ∈ entries s -> exists c, entry s c = Some l.
Proof. apply omap_some. Qed.
Lemma config_entry_line s c l : printable s -> entry s c = Some l -> one_line l.
Proof.
  intros P Hc. apply entry_some in Hc as (i & q & r & Hx & Hr & ->). destruct (pr_live s P c i q Hx) as (r' & Hr' & Hv). rewrite Hr in Hr'. injection Hr' as <-.
  apply line_one_line; [by eapply ctrl_lt, Hx; apply P|by eapply pr_path|intros n Hn; by eapply test_text_word|]. destruct (wf_ver s i r (pr_wf s P) Hr) as [?|[?|?]]; [done|by left|by right].
Qed.
Lemma entries_lines s : printable s -> Forall one_line (entries s).
Proof. intros P. apply Forall_forall. intros l Hl. apply elem_of_entries in Hl as (c & Hc). by eapply config_entry_line. Qed.
(** The text read back, line by line. *)
Lemma print_tokens s : printable s -> drop 1 (strtoks (is_char NEWLINE) (text_lines (CONFIG_HEADER :: entries s))) = entries s.
Proof. intros P. rewrite lines_tokens; [apply drop_first|]. apply Forall_cons. split; [apply header_line|by apply entries_lines]. Qed.

(** ** Reading one line *)
Section Load.
Context (k : kernel) {Why : reasons k}.
#[local] Abbreviation wp := (wpe Why).

(** Calls that make and open directories. *)
Definition making (c : call) : bool := match c with C_mkdirat _ _ | C_openat _ _ => true | _ => false end.
Lemma making_unlinked t0 t : ext_by making t0 t -> unlinked t = unlinked t0.
Proof. intros (l & -> & Hl). induction l as [|c l IH]; [done|]. cbn in *. apply andb_true_iff in Hl as [Hc Hl]. rewrite (IH Hl). by destruct c. Qed.

Abbreviation ltp_made r t := (C_mkdirat (dir_fd (mnt_dir r)) (str "ltp") :: t).
Abbreviation ltp_opened r t := (C_openat (dir_fd (mnt_dir r)) (str "ltp") :: ltp_made r t).

(** A root with [ltp] and [drain], which were not known before. *)
Record dirs_post (f : config) (j : nat) (r r' : cgroup_root) (t t' : list call) : Prop := {
  dp_calls : ext_by making (ltp_opened r t) t';
  dp_ltp : ltp_dir r' = mkDir (Some DLtp) (Some (PRoot j Mnt)) j (dir_ctrls (mnt_dir r)) (k_ret k (ltp_opened r t)) ((k_ret k (ltp_made r t) =? 0) || negb (f_created f =? 0));
  dp_drain : exists fd cr, drain_dir r' = mkDir (Some DDrain) (Some (PRoot j Ltp)) j (dir_ctrls (mnt_dir r)) fd cr
}.
Definition test_post (f : config) (j : nat) (r r' : cgroup_root) (b' : cstr) : Prop :=
  b' = f_test f /\ exists fd cr, test_dir r' = mkDir (Some DTest) (Some (PRoot j Ltp)) j (dir_ctrls (ltp_dir r')) fd cr.

(** The other fields; [we_mounted_it] was set before. *)
Record line_post (f : config) (j : nat) (r r' : cgroup_root) (b b' : cstr) (t t' : list call) : Prop := {
  lp_same : ver r' = ver r /\ mnt_path r' = mnt_path r /\ root_ctrls r' = root_ctrls r /\ mnt_dir r' = mnt_dir r;
  lp_dirs : if decide (dir_name (ltp_dir r) = None) then dirs_post f j r r' t t' else ltp_dir r' = ltp_dir r /\ drain_dir r' = drain_dir r;
  lp_test : if decide (dir_name (test_dir r) = None /\ f_test f <> str "NULL") then test_post f j r r' b' else b' = b /\ test_dir r' = test_dir r;
  lp_calls : ext_by making t t'
}.

Lemma now_id s j r : roots s !! j = Some r -> now s j (cgroup_test_dir s) r (trace s) = s.
Proof. intros H. unfold now. rewrite list_insert_id by done. by destruct s. Qed.

Lemma find_unique {A} (p : A -> bool) l x : x ∈ l -> p x = true -> (forall y, y ∈ l -> p y = true -> y = x) -> find p l = Some x.
Proof.
  intros Hx Hp Hu. destruct (find p l) as [y|] eqn:E.
  - apply find_some in E as [Hy Hpy]. f_equal. apply Hu; [by apply list_elem_of_In|done].
  - apply list_elem_of_In in Hx. by rewrite (find_none p l E x Hx) in Hp.
Qed.
Lemma wp_find_root path j r Q s : wf s -> roots s !! j = Some r -> ver r <> 0 -> mnt_path r = path ->
  (forall i r', roots s !! i = Some r' -> ver r' <> 0 -> mnt_path r' = path -> i = j) -> Q (Some j) s -> wp (cgroup_find_root path) Q s.
Proof.
  intros W Hr Hv Hp Hu HQ. unfold cgroup_find_root. wps. apply wp_live_roots; [done|]. wps. destruct (live_roots_spec s W) as (_ & _ & Hl).
  rewrite (find_unique _ _ j); [done|apply Hl; by exists r|rewrite Hr; by apply bool_decide_eq_true|]. intros y Hy Hpy. destruct (roots s !! y) as [r'|] eqn:E; [|done].
  apply Hl in Hy as (r'' & E' & Hv'). rewrite E in E'. injection E' as <-. apply bool_decide_eq_true in Hpy. by eapply Hu.
Qed.

Lemma wp_line_dirs f j b r t Q s : (j < length (roots s))%nat -> dir_root (mnt_dir r) = j ->
  (forall r' t', ver r' = ver r -> mnt_path r' = mnt_path r -> root_ctrls r' = root_ctrls r -> mnt_dir r' = mnt_dir r -> we_mounted_it r' = we_mounted_it r -> test_dir r' = test_dir r ->
     dirs_post f j r r' t t' -> Q tt (now s j b r' t')) ->
  wp (_ ← cgroup_dir_mk k (PRoot j Mnt) DLtp (PRoot j Ltp);
      _ ← cgroup_dir_mk k (PRoot j Ltp) DDrain (PRoot j Drain);
      when (negb (f_created f =? 0)) (
        _ ← set_root j (fun r => set_dir Ltp (set_created true (ltp_dir r)) r);
        set_root j (fun r => set_dir Drain (set_created true (drain_dir r)) r))) Q (now s j b r t).
Proof.
  intros Hj Hroot HQ. apply wp_bind, (wp_now_mk k s j Hj Mnt Ltp); [done|done|]. intros fd _ _ Efd. apply wp_bind, (wp_now_mk k s j Hj Ltp Drain); [done|done|]. intros fd' _ _ Efd'.
  apply wp_when; intros Ec; [apply wp_bind, wp_now_set, wp_now_set; [done|done|]|]; (apply HQ; [done..|]); (split; [by eexists [_; _]| |by eexists _, _]); cbn; rewrite Efd, ?Ec, ?orb_true_r, ?orb_false_r; done.
Qed.

Lemma wp_line_test f j b r t Q s : (j < length (roots s))%nat -> dir_root (ltp_dir r) = j ->
  (forall r' t', ver r' = ver r -> mnt_path r' = mnt_path r -> root_ctrls r' = root_ctrls r -> mnt_dir r' = mnt_dir r -> we_mounted_it r' = we_mounted_it r -> ltp_dir r' = ltp_dir r -> drain_dir r' = drain_dir r ->
     test_post f j r r' (f_test f) -> ext_by making t t' -> Q tt (now s j (f_test f) r' t')) ->
  wp (_ ← update (with_test_dir (f_test f)); _ ← cgroup_dir_mk k (PRoot j Ltp) DTest (PRoot j Test);
      set_root j (fun r => set_dir Test (set_created true (test_dir r)) r)) Q (now s j b r t).
Proof.
  intros Hj Hroot HQ. apply wp_bind, wp_update. change (with_test_dir (f_test f) (now s j b r t)) with (now s j (f_test f) r t).
  apply wp_bind, (wp_now_mk k s j Hj Ltp Test); [done|done|]. intros fd _ _ Efd. apply wp_now_set; [done|]. apply HQ; try done; [split; [done|by eexists _, _]|by eexists [_; _]].
Qed.

Lemma wp_restore_dirs f j b r t Q s : (j < length (roots s))%nat -> dir_root (mnt_dir r) = j -> (dir_name (ltp_dir r) <> None -> dir_root (ltp_dir r) = j) ->
  (forall r' b' t', we_mounted_it r' = we_mounted_it r -> line_post f j r r' b b' t t' -> Q tt (now s j b' r' t')) -> wp (restore_dirs k f j) Q (now s j b r t).
Proof.
  intros Hj Hm Hltp HQ. unfold restore_dirs. apply wp_bind, wp_now_root; [done|]. apply wp_bind.
  assert (Hlast : forall r1 t1, ver r1 = ver r -> mnt_path r1 = mnt_path r -> root_ctrls r1 = root_ctrls r -> mnt_dir r1 = mnt_dir r -> we_mounted_it r1 = we_mounted_it r -> test_dir r1 = test_dir r ->
      (forall r' t', ltp_dir r' = ltp_dir r1 -> drain_dir r' = drain_dir r1 -> ext_by making t1 t' ->
         if decide (dir_name (ltp_dir r) = None) then dirs_post f j r r' t t' else ltp_dir r' = ltp_dir r /\ drain_dir r' = drain_dir r) ->
      dir_root (ltp_dir r1) = j \/ dir_name (test_dir r) <> None \/ f_test f = str "NULL" -> ext_by making t t1 ->
      wp (r ← root_at j; when (bool_decide (dir_name (test_dir r) = None) && negb (streq (f_test f) (str "NULL"))) (
         _ ← update (with_test_dir (f_test f)); _ ← cgroup_dir_mk k (PRoot j Ltp) DTest (PRoot j Test); set_root j (fun r => set_dir Test (set_created true (test_dir r)) r))) Q (now s j b r1 t1)).
  { intros r1 t1 E1 E2 E3 E4 E5 E6 Hd Hroot Hx1. apply wp_bind, wp_now_root; [done|]. rewrite E6. unfold streq.
    destruct (decide (dir_name (test_dir r) = None /\ f_test f <> str "NULL")) as [[Hn Hne]|Hno].
    - rewrite (bool_decide_eq_true_2 _ Hn), (bool_decide_eq_false_2 _ Hne). cbn [negb andb when]. apply wp_line_test; [done|by destruct Hroot as [?|[?|?]]|].
      intros r' t' F1 F2 F3 F4 F5 F6 F7 Hp Hx. apply HQ; [congruence|]. split; [split_and!; congruence|by apply Hd|by rewrite decide_True|by eapply ext_trans].
    - replace (_ && _) with false; [|symmetry; apply andb_false_iff; destruct (decide (dir_name (test_dir r) = None)); [right; apply negb_false_iff, bool_decide_eq_true; by apply dec_stable; intros ?; apply Hno|left; by apply bool_decide_eq_false]].
      cbn [when]. apply wp_ret. apply HQ; [done|]. split; [split_and!; congruence|apply Hd; [done|done|apply ext_refl]|by rewrite decide_False|done]. }
  apply wp_when; intros Hn.
  - apply bool_decide_eq_true in Hn. apply wp_line_dirs; [done|done|]. intros r1 t1 E1 E2 E3 E4 E5 E6 D. apply Hlast; try done.
    + intros r' t' F1 F2 Hx. rewrite decide_True by done. destruct D as [D1 D2 D3]. split; [by eapply ext_trans|by rewrite F1|by rewrite F2].
    + left. by rewrite (dp_ltp _ _ _ _ _ _ D).
    + eapply ext_trans; [|exact (dp_calls _ _ _ _ _ _ D)]. by eexists [_; _].
  - apply bool_decide_eq_false in Hn. apply Hlast; try done; [|left; by apply Hltp|apply ext_refl]. intros r' t' F1 F2 _. by rewrite decide_False.
Qed.

Definition requiring (c : nat) (q : bool) (s : cg) : cg := with_ctrls (match ctrls s !! c with Some x => <[c := (fst x, q)]> (ctrls s) | None => ctrls s end) s.
Definition mounting (b : bool) (r : cgroup_root) : cgroup_root := if b then set_mounted true r else r.

Lemma wp_parse_line l f c j r Q s : scan_config l = Some f -> cgroup_find_ctrl (f_ctrl f) = Some c -> wf s -> roots s !! j = Some r -> ver r <> 0 -> mnt_path r = f_path f ->
  (forall i r', roots s !! i = Some r' -> ver r' <> 0 -> mnt_path r' = f_path f -> i = j) ->
  (forall r' b t, we_mounted_it r' = we_mounted_it r || negb (f_mounted f =? 0) -> line_post f j r r' (cgroup_test_dir s) b (trace s) t ->
     Q tt (now (requiring c (Z.odd (f_require f)) s) j b r' t)) ->
  wp (cgroup_parse_config_line k l) Q s.
Proof.
  intros Hl Hc W Hr Hv Hp Hu HQ. unfold cgroup_parse_config_line. rewrite Hl, Hc. destruct (ctrl_some s c W (find_ctrl_lt _ _ Hc)) as [x Hx].
  apply wp_bind. eapply wp_set_ctrl; [exact Hx|]. assert (Es : requiring c (Z.odd (f_require f)) s = with_ctrls (<[c := (fst x, Z.odd (f_require f))]> (ctrls s)) s) by (unfold requiring; by rewrite Hx).
  rewrite <-Es. set (s1 := requiring _ _ _) in *. assert (W1 : wf s1) by (rewrite Es; eapply ctrl_wf; [done|exact Hx|by left]).
  assert (Hr1 : roots s1 !! j = Some r) by done. apply wp_bind. eapply (wp_find_root _ j r); [done|done|done|done|exact Hu|]. pose proof (lookup_lt_Some _ _ _ Hr1) as Hj.
  assert (E : s1 = now s1 j (cgroup_test_dir s) r (trace s)) by (symmetry; exact (now_id s1 j r Hr1)). rewrite E. apply wp_bind.
  assert (Hm : forall Q', Q' tt (now s1 j (cgroup_test_dir s) (mounting (negb (f_mounted f =? 0)) r) (trace s)) ->
    wp (when (negb (f_mounted f =? 0)) (set_root j (set_mounted true))) Q' (now s1 j (cgroup_test_dir s) r (trace s))).
  { intros Q' H. unfold mounting in H. destruct (negb (f_mounted f =? 0)); [by apply wp_now_set|done]. }
  apply Hm. clear Hm. assert (Em : mnt_dir (mounting (negb (f_mounted f =? 0)) r) = mnt_dir r /\ ltp_dir (mounting (negb (f_mounted f =? 0)) r) = ltp_dir r) by (unfold mounting; by destruct (negb _)).
  apply wp_restore_dirs; [done|rewrite (proj1 Em); by apply (wf_mnt _ W)|rewrite (proj2 Em); intros Hn; by apply (wf_dirs _ W j r Ltp)|].
  intros r' b' t' Hw P. apply HQ; [rewrite Hw; unfold mounting; destruct (negb _); cbn; by rewrite ?orb_true_r, ?orb_false_r|].
  unfold mounting in P. destruct (negb _); [|done]. destruct P as [P1 P2 P3 P4]. split; try done. cbn in P2. destruct (decide _); [|done]. destruct P2. by split.
Qed.

Lemma line_wf f j r r' b b' t t' s : wf s -> roots s !! j = Some r -> ver r <> 0 -> line_post f j r r' b b' t t' -> wf (now s j b' r' t').
Proof.
  intros W Hr Hv [(E1 & _ & E2 & E3) Hd Ht _]. apply (wf_same (with_roots (<[j := r']> (roots s)) s)); [done|done|]. apply put_root_wf with r; [done|done|by left|done|done|..].
  - intros _. rewrite E3. by apply (wf_mnt _ W).
  - intros w Hw. pose proof (wf_dirs _ W j r w Hr Hw) as Hold. destruct w; [done|..]; cbn [dir_of] in *.
    + destruct (decide _); [by destruct Hd as [_ -> _]|]. by destruct Hd as [-> _].
    + destruct (decide _); [by destruct Hd as [_ _ (fd & cr & ->)]|]. by destruct Hd as [_ ->].
    + destruct (decide (dir_name (test_dir r) = None /\ _)); [by destruct Ht as (_ & fd & cr & ->)|]. by destruct Ht as [_ ->].
  - intros w Hw. pose proof (wf_fd _ W j r w Hr Hw) as Hold. destruct w; [done|..]; cbn [dir_of] in *.
    + destruct (decide _); [by destruct Hd as [_ -> _]|]. by destruct Hd as [-> _].
    + destruct (decide _); [by destruct Hd as [_ _ (fd & cr & ->)]|]. by destruct Hd as [_ ->].
    + destruct (decide (dir_name (test_dir r) = None /\ _)); [by destruct Ht as (_ & fd & cr & ->)|]. by destruct Ht as [_ ->].
Qed.

(** ** Reading all lines *)
Section Restore.
Context (s s2 : cg) (P : printable s) (W2 : wf s2).
Context (Hfresh : forall i r w, roots s2 !! i = Some r -> w <> Mnt -> dir_name (dir_of w r) = None).
Context (Hfound : forall i r, roots s !! i = Some r -> ver r <> 0 -> exists j r2, roots s2 !! j = Some r2 /\ ver r2 <> 0 /\ mnt_path r2 = mnt_path r).
Context (Hdistinct : forall i j r r', roots s2 !! i = Some r -> roots s2 !! j = Some r' -> ver r <> 0 -> ver r' <> 0 -> mnt_path r = mnt_path r' -> i = j).

(** One of the controllers [l] uses the hierarchy at [path], which is [r]. *)
Definition attached (l : list nat) (path : cstr) (r : cgroup_root) : Prop :=
  exists c i q, c ∈ l /\ ctrls s !! c = Some (Some i, q) /\ roots s !! i = Some r /\ mnt_path r = path.

(** The root [r] of the process that printed, in place of [r2]. *)
Record restored (r r2 r' : cgroup_root) (t' : list call) : Prop := {
  rs_mounted : we_mounted_it r' = we_mounted_it r2 || we_mounted_it r;
  rs_ltp : exists t l, t' = l ++ ltp_opened r2 t /\ dir_name (ltp_dir r') <> None /\ dir_fd (ltp_dir r') = k_ret k (ltp_opened r2 t) /\
             dir_created (ltp_dir r') = (k_ret k (ltp_made r2 t) =? 0) || dir_created (ltp_dir r);
  rs_drain : dir_name (drain_dir r') <> None;
  rs_test : dir_name (test_dir r') = None <-> dir_name (test_dir r) = None
}.
Definition untouched (r2 r' : cgroup_root) : Prop := we_mounted_it r' = we_mounted_it r2 /\ forall w, w <> Mnt -> dir_name (dir_of w r') = None.

Record loading (l : list nat) (s' : cg) : Prop := {
  ld_wf : wf s';
  ld_calls : ext_by making (trace s2) (trace s');
  ld_root : forall j r2, roots s2 !! j = Some r2 -> exists r', roots s' !! j = Some r' /\ ver r' = ver r2 /\ mnt_path r' = mnt_path r2 /\ mnt_dir r' = mnt_dir r2 /\
     ((exists r, ver r2 <> 0 /\ attached l (mnt_path r2) r /\ restored r r2 r' (trace s')) \/
      ((ver r2 <> 0 -> forall r, ~ attached l (mnt_path r2) r) /\ untouched r2 r'));
  ld_test : forall j r', roots s' !! j = Some r' -> dir_name (test_dir r') <> None -> cgroup_test_dir s' = cgroup_test_dir s
}.

Lemma loading_start : loading [] s2.
Proof using W2 Hfresh.
  split; [done|apply ext_refl|..].
  - intros j r2 Hr. exists r2. split_and!; try done. right. split; [intros _ r (c & i & q & Hc & _); by apply elem_of_nil in Hc|]. split; [done|]. intros w Hw. by eapply Hfresh.
  - intros j r' Hr Hn. destruct Hn. by apply (Hfresh j r' Test).
Qed.

(** A hierarchy is known by its path. *)
Lemma attached_unique l l' p r r' : attached l p r -> attached l' p r' -> r = r'.
Proof using P.
  intros (c & i & q & _ & Hc & Hr & Hp) (c' & i' & q' & _ & Hc' & Hr' & Hp'). destruct (pr_live _ P _ _ _ Hc) as (x & Hx & Hv). rewrite Hr in Hx. injection Hx as <-.
  destruct (pr_live _ P _ _ _ Hc') as (x & Hx & Hv'). rewrite Hr' in Hx. injection Hx as <-.
  assert (i = i') as <- by (eapply (pr_distinct _ P i i'); [done..|congruence]). congruence.
Qed.

Lemma name_found c : (c < 18)%nat -> cgroup_find_ctrl (ctrl_name c) = Some c.
Proof using Type.
  clear. intros Hc. assert (H : forallb (fun c => bool_decide (cgroup_find_ctrl (ctrl_name c) = Some c)) (seq 0 18) = true) by reflexivity.
  rewrite forallb_forall in H. specialize (H c). rewrite in_seq in H. specialize (H ltac:(lia)). by apply bool_decide_eq_true in H.
Qed.

(** A controller without a hierarchy has no line. *)
Lemma loading_skip l c s' : entry s c = None -> loading l s' -> loading (l ++ [c]) s'.
Proof using Type.
  intros He [L1 L2 L3 L4]. split; [done|done| |done]. intros j r2 Hr2. destruct (L3 j r2 Hr2) as (r' & H1 & H2 & H3 & H4 & Hor). exists r'. split_and!; try done.
  assert (Ha : forall p r, attached (l ++ [c]) p r <-> attached l p r).
  { intros p r. split; intros (d & i & q & Hd & Hrest); exists d, i, q; (split; [|done]); [|apply elem_of_app; by left]. apply elem_of_app in Hd as [Hd|Hd]; [done|].
    apply list_elem_of_singleton in Hd as ->. destruct Hrest as (Hc & Hr & _). assert (He' : entry s c <> None) by (unfold entry; rewrite Hc; cbn [mbind option_bind]; by rewrite Hr). done. }
  destruct Hor as [(r & Hv & Hr & Hs)|[Hn Hu]]; [left; exists r; by rewrite Ha|right]. split; [|done]. intros Hv r. rewrite Ha. by apply Hn.
Qed.

(** The root of a line after it was read. *)
Lemma line_restored f j r r2 r' r'' b b' t t' : f_created f = bit (dir_created (ltp_dir r)) -> f_test f = default (str "NULL") (test_text s r) ->
  (forall n, test_text s r = Some n -> n <> str "NULL") -> mnt_dir r' = mnt_dir r2 -> f_mounted f = bit (we_mounted_it r) ->
  we_mounted_it r'' = we_mounted_it r' || negb (f_mounted f =? 0) -> line_post f j r' r'' b b' t t' -> restored r r2 r' t \/ untouched r2 r' -> restored r r2 r'' t'.
Proof using Type.
  intros Ec Et HNULL Em Emt Hm [_ Hd Htst (l & El & _)] Hor. assert (Hbit : forall x, negb (bit x =? 0) = x) by by intros [].
  assert (Htext : f_test f = str "NULL" <-> dir_name (test_dir r) = None).
  { rewrite Et. unfold test_text in *. destruct (dir_name (test_dir r)); [|done]. cbn. split; [|done]. intros E. by destruct (HNULL _ eq_refl). }
  assert (Htest : (dir_name (test_dir r') = None \/ (dir_name (test_dir r') = None <-> dir_name (test_dir r) = None)) -> dir_name (test_dir r'') = None <-> dir_name (test_dir r) = None).
  { intros H. destruct (decide (dir_name (test_dir r') = None /\ f_test f <> str "NULL")) as [[Hn Hne]|Hno].
    - destruct Htst as (_ & fd & cr & ->). cbn. rewrite <-Htext. done.
    - destruct Htst as [_ ->]. destruct H as [Hn|H]; [|done]. rewrite Hn. split; [|done]. intros _. apply Htext. apply dec_stable. intros Hne. by apply Hno. }
  destruct Hor as [[R1 (t0 & l0 & Et0 & R2 & R3 & R4) R5 R6]|[Hu1 Hu2]].
  - rewrite decide_False in Hd by done. destruct Hd as [Hd1 Hd2]. split.
    + rewrite Hm, R1, Emt, Hbit, <-orb_assoc. by destruct (we_mounted_it r).
    + exists t0, (l ++ l0). rewrite Hd1. split_and!; [by rewrite El, Et0, app_assoc|done..].
    + by rewrite Hd2.
    + apply Htest. by right.
  - pose proof (Hu2 Ltp ltac:(done)) as Hl0. cbn in Hl0. rewrite decide_True in Hd by done. destruct Hd as [(l1 & -> & _) D2 (fd & cr & D3)]. split.
    + by rewrite Hm, Hu1, Emt, Hbit.
    + exists t, l1. rewrite D2, Em. cbn. split_and!; [done|done|done|]. by rewrite Ec, Hbit.
    + by rewrite D3.
    + apply Htest. left. by apply (Hu2 Test).
Qed.

Lemma loading_line l c ln s' Q : entry s c = Some ln -> loading l s' -> (forall s'', loading (l ++ [c]) s'' -> Q tt s'') -> wp (cgroup_parse_config_line k ln) Q s'.
Proof using P W2 Hfresh Hfound Hdistinct.
  intros He L HQ. apply entry_some in He as (i & q & r & Hc & Hr & ->). destruct (pr_live _ P _ _ _ Hc) as (x & Hx & Hv). rewrite Hr in Hx. injection Hx as <-.
  pose proof (ctrl_lt _ _ _ (pr_wf _ P) Hc) as Hlt. assert (Hver : ver r = 1 \/ ver r = 2) by (destruct (wf_ver s i r (pr_wf s P) Hr) as [?|[?|?]]; [done|by left|by right]).
  destruct (Hfound i r Hr Hv) as (j & r2 & Hr2 & Hv2 & Hp2). destruct (ld_root _ _ L j r2 Hr2) as (r' & Hr' & Ev & Ep & Em & Hor).
  assert (Htw : forall n, test_text s r = Some n -> word 255 n /\ n <> str "NULL") by (intros n Hn; by destruct (test_text_word s i r n P Hr Hn) as (? & ? & _)).
  eapply (wp_parse_line _ _ c j r'); [apply scan_line; [done|by eapply (pr_path _ P)|intros n Hn; by apply Htw|done]|by apply name_found|apply L|done|by rewrite Ev|by rewrite Ep, Hp2|..].
  { intros i' y Hy Hvy Hpy. destruct (lookup_lt_is_Some_2 (roots s2) i') as [y2 Hy2]; [rewrite (wf_roots _ W2), <-(wf_roots _ (ld_wf _ _ L)); by eapply lookup_lt_Some|].
    destruct (ld_root _ _ L i' y2 Hy2) as (y' & Hy' & Evy & Epy & _). rewrite Hy in Hy'. injection Hy' as <-. cbn in Hpy. eapply (Hdistinct i' j); [done|done|by rewrite <-Evy|done|congruence]. }
  set (f := mkConfig _ _ _ _ _ _ _). intros r'' b t Hm LP. apply HQ. set (s1 := requiring c _ s').
  assert (W1 : wf s1). { destruct (ctrl_some s' c (ld_wf _ _ L) Hlt) as [y Hy]. unfold s1, requiring. rewrite Hy. eapply ctrl_wf; [apply L|exact Hy|by left]. }
  assert (Hatt : attached (l ++ [c]) (mnt_path r2) r) by (exists c, i, q; split_and!; [apply elem_of_app; right; by left|done..]).
  assert (Hres : restored r r2 r'' t).
  { eapply (line_restored f j r r2 r'); [done|done|intros n Hn; by apply Htw|done|done|exact Hm|exact LP|]. destruct Hor as [(r0 & _ & Ha & Hs)|[_ Hu]]; [left|by right].
    by rewrite (attached_unique _ _ _ _ _ Hatt Ha). }
  split.
  - eapply line_wf; [exact W1|exact Hr'|by rewrite Ev|exact LP].
  - eapply ext_trans; [apply L|exact (lp_calls _ _ _ _ _ _ _ _ LP)].
  - intros j' y2 Hy2. destruct (decide (j' = j)) as [->|Hne].
    + rewrite Hr2 in Hy2. injection Hy2 as <-. exists r''. destruct (lp_same _ _ _ _ _ _ _ _ LP) as (F1 & F2 & _ & F4). split_and!; [|congruence..|].
      * cbn. apply list_lookup_insert_eq. by eapply lookup_lt_Some.
      * left. by exists r.
    + destruct (ld_root _ _ L j' y2 Hy2) as (y & Hy & Evy & Epy & Emy & Hory). exists y. split_and!; [|done..|].
      * cbn. by rewrite list_lookup_insert_ne.
      * destruct Hory as [(r0 & Hv0 & Ha & Hs)|[Hn Hu]]; [left; exists r0|right]; split_and!; try done.
        -- destruct Ha as (d & e & q' & Hd & Hrest). exists d, e, q'. split; [apply elem_of_app; by left|done].
        -- destruct Hs as [S1 (t0 & l0 & Et0 & S2) S3 S4]. split; [done| |done|done]. destruct (lp_calls _ _ _ _ _ _ _ _ LP) as (l1 & El1 & _). exists t0, (l1 ++ l0). cbn. rewrite El1, Et0, app_assoc. done.
        -- intros Hv0 r0 (d & e & q' & Hd & Hcd & Hre & Hpe). apply elem_of_app in Hd as [Hd|Hd]; [apply (Hn Hv0 r0); by exists d, e, q'|]. apply list_elem_of_singleton in Hd as ->.
           rewrite Hc in Hcd. injection Hcd as <- <-. rewrite Hr in Hre. injection Hre as <-. apply Hne. eapply Hdistinct; [done|done|done|done|congruence].
  - intros j' y Hy Hn. cbn [now cgroup_test_dir with_trace with_test_dir]. pose proof (lp_test _ _ _ _ _ _ _ _ LP) as Ht.
    assert (Htxt : f_test f <> str "NULL" -> f_test f = cgroup_test_dir s) by (cbn; unfold test_text; by destruct (dir_name (test_dir r))).
    destruct (decide (dir_name (test_dir r') = None /\ f_test f <> str "NULL")) as [[_ Hne]|Hno]; [destruct Ht as [-> _]; by apply Htxt|]. destruct Ht as [-> Etd].
    apply now_lookup in Hy as [[-> ->]|Hy]; [|by apply (ld_test _ _ L j' y)]. apply (ld_test _ _ L j r' Hr'). by rewrite <-Etd.
Qed.

Lemma wp_load_lines ls : forall l s' Q, loading l s' -> (forall s'', loading (l ++ ls) s'' -> Q tt s'') -> wp (each (omap (entry s) ls) (cgroup_parse_config_line k)) Q s'.
Proof using P W2 Hfresh Hfound Hdistinct.
  induction ls as [|c ls IH]; intros l s' Q L HQ; [rewrite app_nil_r in HQ; by apply HQ|]. cbn [omap list_omap].
  assert (HQ' : forall s'', loading ((l ++ [c]) ++ ls) s'' -> Q tt s'') by (intros s''; rewrite <-app_assoc; apply HQ).
  destruct (entry s c) as [ln|] eqn:E; [|apply (IH (l ++ [c])); [by apply loading_skip|done]]. cbn [each]. apply wp_bind. eapply loading_line; [done|done|]. intros s'' L''. by apply (IH (l ++ [c])).
Qed.

Lemma wp_load Q : (BUFSIZ <= slen (text_lines (CONFIG_HEADER :: entries s)) + 1 -> Why TBROK s2) -> (forall s', loading all_ctrls s' -> Q tt s') ->
  wp (tst_cg_load_config k (text_lines (CONFIG_HEADER :: entries s))) Q s2.
Proof using P W2 Hfresh Hfound Hdistinct.
  intros HE HQ. unfold tst_cg_load_config. wps; [apply HE; by apply Z.leb_le|]. rewrite print_tokens by done. apply (wp_load_lines _ []); [apply loading_start|done].
Qed.

(** What is removed for a root that was restored. *)
Lemma named_text s' j r' w n : wf s' -> roots s' !! j = Some r' -> w <> Mnt -> (w = Test -> n = cgroup_test_dir s') -> dir_name (dir_of w r') <> None ->
  named j r' s' w = [(dir_fd (dir_of (inside_of w) r'), dir_text n w)].
Proof using Type.
  intros W Hr Hw Ht Hn. unfold named. destruct (wf_dirs _ W j r' w Hr Hw Hn) as (-> & _). destruct w; [done|done|done|]. cbn. by rewrite Ht.
Qed.

Lemma restored_removed s' j r r2 r' : wf s' -> roots s' !! j = Some r' -> (dir_name (test_dir r') <> None -> cgroup_test_dir s' = cgroup_test_dir s) -> mnt_dir r' = mnt_dir r2 ->
  restored r r2 r' (trace s') -> exists t l, trace s' = l ++ ltp_opened r2 t /\ let ltp := k_ret k (ltp_opened r2 t) in
    test_rm s' j = (if decide (dir_name (test_dir r) = None) then [] else [(ltp, cgroup_test_dir s)]) /\
    ltp_rm s' j = (if (k_ret k (ltp_made r2 t) =? 0) || dir_created (ltp_dir r) then [(ltp, str "drain"); (dir_fd (mnt_dir r2), str "ltp")] else []).
Proof using Type.
  intros W Hr Ht Em [_ (t & l & Et & R1 & R2 & R3) R4 R5]. exists t, l. split; [done|]. unfold test_rm, ltp_rm. rewrite Hr. split.
  - case_decide as Hn; [unfold named; cbn; by rewrite (proj2 R5 Hn)|]. assert (Hn' : dir_name (test_dir r') <> None) by by rewrite R5.
    rewrite (named_text s' j r' Test (cgroup_test_dir s)); [cbn; by rewrite R2|done|done|done|by rewrite Ht|done].
  - rewrite R3. destruct (_ || _); [|done]. rewrite (named_text s' j r' Drain []), (named_text s' j r' Ltp []) by done. cbn. by rewrite R2, Em.
Qed.
End Restore.
End Load.

(** ** Two processes *)

(** The second process finds the hierarchies of the first. *)
Record same_mounts (s s2 : cg) : Prop := {
  sm_found : forall i r, roots s !! i = Some r -> ver r <> 0 -> exists j r2, roots s2 !! j = Some r2 /\ ver r2 <> 0 /\ mnt_path r2 = mnt_path r;
  sm_distinct : forall i j r r', roots s2 !! i = Some r -> roots s2 !! j = Some r' -> ver r <> 0 -> ver r' <> 0 -> mnt_path r = mnt_path r' -> i = j
}.

(** [r] is the hierarchy of some controller in [s], and [r2] that hierarchy in
    [s2], where [ltp] was opened before the calls [t]. *)
Record restored_at (k : kernel) (s s2 : cg) (trace : list call) (r r2 : cgroup_root) (ltp : Z) (made : bool) : Prop := {
  ra_attached : attached s all_ctrls (mnt_path r) r;
  ra_root : r2 ∈ roots s2 /\ mnt_path r2 = mnt_path r;
  ra_calls : let mkdir := C_mkdirat (dir_fd (mnt_dir r2)) (str "ltp") in let open := C_openat (dir_fd (mnt_dir r2)) (str "ltp") in
             exists t l, trace = l ++ open :: mkdir :: t /\ ltp = k_ret k (open :: mkdir :: t) /\ made = (k_ret k (mkdir :: t) =? 0)
}.
(** What the first process would have removed of it, with [ltp] if the second
    one made it. *)
Definition to_remove (s : cg) (r r2 : cgroup_root) (ltp : Z) (made : bool) : list (Z * cstr) :=
  (if decide (dir_name (test_dir r) = None) then [] else [(ltp, cgroup_test_dir s)]) ++
  (if made || dir_created (ltp_dir r) then [(ltp, str "drain"); (dir_fd (mnt_dir r2), str "ltp")] else []).

Lemma found_fresh k s s' : rtc (found k) s s' -> forall i r', roots s' !! i = Some r' -> exists r, roots s !! i = Some r /\ we_mounted_it r' = we_mounted_it r /\ forall w, w <> Mnt -> dir_of w r' = dir_of w r.
Proof.
  assert (Hins : forall a i x y, roots a !! i = Some x -> we_mounted_it y = we_mounted_it x -> (forall w, w <> Mnt -> dir_of w y = dir_of w x) ->
    forall j r', <[i := y]> (roots a) !! j = Some r' -> exists r, roots a !! j = Some r /\ we_mounted_it r' = we_mounted_it r /\ forall w, w <> Mnt -> dir_of w r' = dir_of w r).
  { intros a i x y Hx Hm Hd j r' Hj. apply list_lookup_insert_Some in Hj as [(<- & <- & _)|[_ Hj]]; [by exists x|by exists r']. }
  induction 1 as [a|a b c Hab _ IH]; [intros i r' H; by exists r'|]. intros i r' Hi. destruct (IH i r' Hi) as (r1 & H1 & E1 & D1).
  assert (H0 : exists r, roots a !! i = Some r /\ we_mounted_it r1 = we_mounted_it r /\ forall w, w <> Mnt -> dir_of w r1 = dir_of w r).
  { destruct Hab as [t Ht|r dir fd buf t0 Hr _ _ _|n r dir fd field np Hr _ _ _ _]; [by exists r1|refine (Hins _ _ _ _ Hr _ _ _ _ H1); [done|by intros []]..]. }
  destruct H0 as (r & Hr & E0 & D0). exists r. split_and!; [done|congruence|]. intros w Hw. by rewrite D1, D0.
Qed.

(** What a scan leaves in a new process. *)
Lemma scan_fresh k s2 : rtc (found k) initial s2 -> wf s2 /\ ext_by plain [] (trace s2) /\
  forall i r, roots s2 !! i = Some r -> we_mounted_it r = false /\ forall w, w <> Mnt -> dir_name (dir_of w r) = None.
Proof.
  intros H. split_and!; [by eapply found_wf; [apply initial_wf|]|exact (found_ext _ _ _ H)|]. intros i r' Hr'. destruct (found_fresh _ _ _ H i r' Hr') as (r & Hr & E & D).
  cbn [initial roots] in Hr. apply lookup_replicate in Hr as [-> _]. split; [done|]. intros w Hw. rewrite D by done. by destruct w.
Qed.

Lemma elem_of_removed s' x : wf s' ->
  x ∈ rev (concat (test_rm s' <$> live_roots s') ++ concat (ltp_rm s' <$> live_roots s')) <-> exists j, j ∈ live_roots s' /\ x ∈ test_rm s' j ++ ltp_rm s' j.
Proof. intros W. rewrite elem_of_rev, elem_of_app, !(elem_of_roots s' W). setoid_rewrite elem_of_app. pose proof (live_root s') as Hl. naive_solver. Qed.

(** What the clean up removes after loading. *)
Section Removed.
Context (k : kernel) (s s2 s' : cg) (P : printable s) (W2 : wf s2) (M : same_mounts s s2) (L : loading k s s2 all_ctrls s').
Context (Hunmounted : forall i r, roots s2 !! i = Some r -> we_mounted_it r = false).
#[local] Abbreviation rm_of j := (test_rm s' j ++ ltp_rm s' j).
#[local] Abbreviation at_root := (restored_at k s s2 (trace s')).

Lemma rm_restored j r r2 r' : roots s2 !! j = Some r2 -> roots s' !! j = Some r' -> mnt_dir r' = mnt_dir r2 -> attached s all_ctrls (mnt_path r2) r -> restored k r r2 r' (trace s') ->
  exists ltp made, at_root r r2 ltp made /\ rm_of j = to_remove s r r2 ltp made.
Proof using L.
  intros Hr2 Hr' Em Ha R. destruct (restored_removed k s s' j r r2 r') as (t & l & Et & E1 & E2); [apply L|done|by apply (ld_test _ _ _ _ _ L j)|done|done|].
  exists (k_ret k (C_openat (dir_fd (mnt_dir r2)) (str "ltp") :: C_mkdirat (dir_fd (mnt_dir r2)) (str "ltp") :: t)), (k_ret k (C_mkdirat (dir_fd (mnt_dir r2)) (str "ltp") :: t) =? 0).
  split; [|by rewrite E1, E2]. assert (Ep : mnt_path r = mnt_path r2) by by destruct Ha as (c & i & q & _ & _ & _ & ?).
  split; [by rewrite Ep|split; [by eapply list_elem_of_lookup_2|done]|by exists t, l].
Qed.

Lemma rm_only j x : j ∈ live_roots s' -> x ∈ rm_of j -> exists r r2 ltp made, at_root r r2 ltp made /\ x ∈ to_remove s r r2 ltp made.
Proof using W2 L.
  intros Hj Hx. apply live_roots_spec in Hj as (r' & Hr' & _); [|apply L].
  destruct (lookup_lt_is_Some_2 (roots s2) j) as [r2 Hr2]; [rewrite (wf_roots _ W2), <-(wf_roots _ (ld_wf _ _ _ _ _ L)); by eapply lookup_lt_Some|].
  destruct (ld_root _ _ _ _ _ L j r2 Hr2) as (y & Hy & _ & _ & Em & Hor). rewrite Hr' in Hy. injection Hy as <-. destruct Hor as [(r & Hv & Ha & R)|[_ [_ Hu]]].
  - destruct (rm_restored j r r2 r') as (ltp & made & Hat & E); [done..|]. exists r, r2, ltp, made. by rewrite <-E.
  - exfalso. unfold test_rm, ltp_rm, named in Hx. rewrite Hr', (Hu Test), (Hu Drain), (Hu Ltp) in Hx by done. by destruct (dir_created _); apply elem_of_nil in Hx.
Qed.

Lemma rm_all r : attached s all_ctrls (mnt_path r) r -> exists j r2 ltp made, j ∈ live_roots s' /\ at_root r r2 ltp made /\ rm_of j = to_remove s r r2 ltp made.
Proof using P M L.
  intros Ha. destruct Ha as (c & i & q & Hc & Hx & Hr & Hp) eqn:E. clear E. destruct (pr_live _ P _ _ _ Hx) as (y & Hy & Hv). rewrite Hr in Hy. injection Hy as <-.
  destruct (sm_found _ _ M i r Hr Hv) as (j & r2 & Hr2 & Hv2 & Hp2). destruct (ld_root _ _ _ _ _ L j r2 Hr2) as (r' & Hr' & Ev & _ & Em & Hor). rewrite Hp2 in Hor.
  destruct Hor as [(r0 & _ & Ha0 & R)|[Hn _]]; [|by destruct (Hn Hv2 r)]. rewrite <-(attached_unique s P _ _ _ _ _ Ha Ha0) in R.
  destruct (rm_restored j r r2 r') as (ltp & made & Hat & E); [done|done|done|by rewrite Hp2|done|]. exists j, r2, ltp, made. split; [|done].
  apply live_roots_spec; [apply L|]. exists r'. by rewrite Ev.
Qed.

(** The hierarchies that the first process mounted. *)
Lemma ours_restored p : ours s' p <-> exists r, attached s all_ctrls p r /\ we_mounted_it r = true.
Proof using P W2 M L Hunmounted.
  split.
  - intros (j & r' & Hr' & Hv & Hm & Hp). destruct (lookup_lt_is_Some_2 (roots s2) j) as [r2 Hr2]; [rewrite (wf_roots _ W2), <-(wf_roots _ (ld_wf _ _ _ _ _ L)); by eapply lookup_lt_Some|].
    destruct (ld_root _ _ _ _ _ L j r2 Hr2) as (y & Hy & _ & Ep & _ & Hor). rewrite Hr' in Hy. injection Hy as <-. pose proof (Hunmounted j r2 Hr2) as Hz.
    destruct Hor as [(r & _ & Ha & R)|[_ [Hu _]]]; [|congruence]. exists r. rewrite (rs_mounted _ _ _ _ _ R), Hz in Hm. split; [by rewrite <-Hp, Ep|done].
  - intros (r & Ha & Hm). pose proof Ha as (c & i & q & Hc & Hx & Hr & Hp). destruct (pr_live _ P _ _ _ Hx) as (y & Hy & Hv). rewrite Hr in Hy. injection Hy as <-.
    destruct (sm_found _ _ M i r Hr Hv) as (j & r2 & Hr2 & Hv2 & Hp2). destruct (ld_root _ _ _ _ _ L j r2 Hr2) as (r' & Hr' & Ev & Ep & _ & Hor). rewrite Hp2, Hp in Hor.
    destruct Hor as [(r0 & _ & Ha0 & R)|[Hn _]]; [|by destruct (Hn Hv2 r)]. rewrite <-(attached_unique s P _ _ _ _ _ Ha Ha0) in R.
    exists j, r'. split_and!; [done|by rewrite Ev|by rewrite (rs_mounted _ _ _ _ _ R), Hm, orb_true_r|by rewrite Ep, Hp2].
Qed.
End Removed.

Lemma restored_at_later k s s2 t l r r2 ltp made : restored_at k s s2 t r r2 ltp made -> restored_at k s s2 (l ++ t) r r2 ltp made.
Proof. intros [A B (t0 & l0 & -> & H)]. split; [done|done|]. exists t0, (l ++ l0). by rewrite app_assoc. Qed.

(** For each hierarchy of [s] all of that was removed, and no other directory
    of a hierarchy; what the first process had mounted was unmounted, and nothing
    else, and a mount point is removed only right after it was unmounted. *)
Definition cleaned_up (k : kernel) (s s' : cg) : Prop :=
  roots s' = roots initial /\ exists s2, tst_cg_scan k initial = Ok (tt, s2) /\
  (forall r, attached s all_ctrls (mnt_path r) r -> exists r2 ltp made, restored_at k s s2 (trace s') r r2 ltp made /\
     forall x, x ∈ to_remove s r r2 ltp made -> x ∈ unlinked (trace s')) /\
  (forall x, x ∈ unlinked (trace s') -> exists r r2 ltp made, restored_at k s s2 (trace s') r r2 ltp made /\ x ∈ to_remove s r r2 ltp made) /\
  (forall p, C_umount p ∈ trace s' <-> exists r, attached s all_ctrls p r /\ we_mounted_it r = true) /\
  (forall p, C_rmdir p ∈ trace s' -> exists l t, trace s' = l ++ C_rmdir p :: C_umount p :: t /\ k_ret k (C_umount p :: t) = 0).

(** Why the second process may end: the scan did, the newest call failed, or
    the text is too long for the buffer. *)
Definition not_cleaned_up (k : kernel) (text : cstr) (t : Z) (s : cg) : Prop :=
  tst_cg_scan k initial = Err (t, s) \/ failed k (trace s) \/ BUFSIZ <= slen text + 1.
Definition cleanup_reasons (k : kernel) (text : cstr) : reasons k := mkReasons k (not_cleaned_up k text) (fun _ _ H => or_intror (or_introl H)).

Lemma scan_runs k : (forall t l m, k_mounts k t = Some l -> m ∈ l -> slen (m_dir m) < PATH_MAX) ->
  match tst_cg_scan k initial with Ok (_, s2) => rtc (found k) initial s2 | Err _ => True | Fault => False end.
Proof. intros Hp. pose proof (wp_scan k (Why := any_reasons k) Hp ltac:(done) (fun _ s2 => rtc (found k) initial s2) initial initial_wf ltac:(done)) as H. unfold wpe in H. by destruct (tst_cg_scan k initial) as [[]|[]|]. Qed.

(** The calls before the clean up unmount and remove nothing. *)
Lemma loaded_calls k s s2 s3 c : ext_by plain [] (trace s2) -> loading k s s2 all_ctrls s3 -> c ∈ trace s3 -> plain c = true \/ making c = true.
Proof.
  intros (l2 & E2 & Hl2) L Hin. destruct (ld_calls _ _ _ _ _ L) as (l & E & Hl). rewrite E, E2, app_nil_r in Hin. rewrite forallb_forall in *.
  apply elem_of_app in Hin as [Hin|Hin]; apply list_elem_of_In in Hin; auto.
Qed.

(** The clean up itself, after loading. *)
Lemma cleaned_up_intro k s s2 s3 s4 : printable s -> wf s2 -> same_mounts s s2 -> tst_cg_scan k initial = Ok (tt, s2) -> ext_by plain [] (trace s2) ->
  (forall i r, roots s2 !! i = Some r -> we_mounted_it r = false) -> loading k s s2 all_ctrls s3 -> cleaned k s3 s4 -> cleaned_up k s (cleared s4).
Proof.
  intros P W2 M Es2 X2 Hm L [(l & -> & Hu & Ho) (l' & El & Hl)]. cbn [trace with_trace] in El. apply app_inv_tail in El as <-. pose proof (ld_wf _ _ _ _ _ L) as W3.
  assert (U3 : unlinked (trace s3) = []). { rewrite (making_unlinked _ _ (ld_calls _ _ _ _ _ L)). destruct X2 as (l2 & -> & Hl2). rewrite app_nil_r. by apply plain_unlinked. }
  assert (Hnew : forall c, c ∈ l ++ trace s3 -> plain c = false -> making c = false -> c ∈ l).
  { intros c [?|Hin]%elem_of_app Hc1 Hc2; [done|]. destruct (loaded_calls k s s2 s3 c X2 L Hin); congruence. }
  split; [done|]. exists s2. split; [done|]. change (trace (cleared (with_trace (l ++ trace s3) s3))) with (l ++ trace s3). rewrite unlinked_app, U3, app_nil_r, Hu. split_and!.
  - intros r Ha. destruct (rm_all k s s2 s3 P M L r Ha) as (j & r2 & ltp & made & Hj & Hat & E). exists r2, ltp, made. split; [by apply restored_at_later|].
    intros x Hx. rewrite <-E in Hx. apply (elem_of_removed s3 x W3). by exists j.
  - intros x Hx. apply (elem_of_removed s3 x W3) in Hx as (j & Hj & Hx). destruct (rm_only k s s2 s3 W2 L j x Hj Hx) as (r & r2 & ltp & made & Hat & Hin).
    exists r, r2, ltp, made. split; [by apply restored_at_later|done].
  - intros p. rewrite <-(ours_restored k s s2 s3 P W2 M L Hm). split; [|intros Hp; apply elem_of_app; left; by apply Hl]. intros Hp%Hnew; [|done..].
    by destruct (orderly_in k s3 l _ _ Ho Hp) as (l1 & l2 & _ & ?).
  - intros p Hp%Hnew; [|done..]. destruct (orderly_in k s3 l _ _ Ho Hp) as (l1 & l2 & -> & _ & t' & Et & Hret). exists l1, t'. rewrite <-app_assoc. cbn. by rewrite Et in Hret |- *.
Qed.

(** C18: the state of one process, printed, is enough for another one to clean
    up.  The text is read back without undefined behaviour, and unless the scan
    for hierarchies fails or the text is too long the second process ends only
    because one of its calls failed.  What is removed is, for the hierarchies of
    the controllers of the first process, the directory of the test if there is
    one, and [drain] and [ltp] if the first process had made [ltp] or it had to
    be made again; what is unmounted are the hierarchies that it had mounted;
    and nothing else. *)
Theorem cgctl_roundtrip k s : printable s -> (forall t l m, k_mounts k t = Some l -> m ∈ l -> slen (m_dir m) < PATH_MAX) ->
  (forall s2, tst_cg_scan k initial = Ok (tt, s2) -> same_mounts s s2) ->
  exists text, tst_cg_print_config s = Ok (text, s) /\
  match cgctl_cleanup k text initial with
  | Ok (_, s') => cleaned_up k s s'
  | Err (t, s') => not_cleaned_up k text t s'
  | Fault => False
  end.
Proof.
  intros P Hpaths Hsame. set (text := text_lines (CONFIG_HEADER :: entries s)). exists text. split; [apply print_run; apply P|].
  pose proof (scan_runs k Hpaths) as H2. destruct (tst_cg_scan k initial) as [[[] s2]|[t0 s0]|] eqn:Es2; [| |done].
  2: { unfold cgctl_cleanup, mbind, C_bind. rewrite Es2. by left. }
  destruct (scan_fresh k s2 H2) as (W2 & X2 & F2). pose proof (Hsame s2 eq_refl) as M.
  assert (H : wpe (cleanup_reasons k text) (_ ← tst_cg_load_config k text; tst_cg_cleanup k) (fun _ s' => cleaned_up k s s') s2).
  { apply wp_bind, (wp_load k s s2 P W2 (fun i r w Hr => proj2 (F2 i r Hr) w) (sm_found _ _ M) (sm_distinct _ _ M)); [intros Hb; right; by right|]. intros s3 L.
    apply wp_cleanup; [apply L|]. intros s4 C. eapply cleaned_up_intro; try done. intros i r Hr. by apply (F2 i r). }
  unfold cgctl_cleanup. rewrite (bind_run _ _ _ _ _ Es2). unfold wpe in H. by destruct ((tst_cg_load_config k text ≫= _) s2) as [[[] s']|[t s']|].
Qed.

(** *** The hypotheses, as programs *)
Definition word_b (n : nat) (w : cstr) : bool := negb (bool_decide (w = [])) && (length w <=? n)%nat && forallb (fun c => negb (isspace c)) w.
Definition live_at (s : cg) (i : nat) : bool := match roots s !! i with Some r => negb (ver r =? 0) | None => false end.
Definition path_at (s : cg) (i : nat) : cstr := match roots s !! i with Some r => mnt_path r | None => [] end.
Definition distinct_b (s : cg) : bool :=
  forallb (fun i => forallb (fun j => negb (live_at s i && live_at s j && streq (path_at s i) (path_at s j)) || (i =? j)%nat) (seq 0 19)) (seq 0 19).
Definition printable_b (s : cg) : bool :=
  forallb (fun x => match fst x with Some i => live_at s i | None => true end) (ctrls s) &&
  forallb (fun i => negb (live_at s i) || word_b PATH_MAX_STRLEN (path_at s i)) (seq 0 19) && distinct_b s &&
  word_b 255 (cgroup_test_dir s) && negb (streq (cgroup_test_dir s) (str "NULL")).
Definition same_mounts_b (s s2 : cg) : bool :=
  forallb (fun i => negb (live_at s i) || existsb (fun j => live_at s2 j && streq (path_at s2 j) (path_at s i)) (seq 0 19)) (seq 0 19) && distinct_b s2.

Lemma word_b_sound n w : word_b n w = true -> word n w.
Proof. intros H. apply andb_true_iff in H as [[H1 H2]%andb_true_iff H3]. split_and!; [by apply negb_true_iff, bool_decide_eq_false in H1|by apply Nat.leb_le|done]. Qed.
Lemma live_at_ok s i r : roots s !! i = Some r -> ver r <> 0 -> live_at s i = true.
Proof. intros H Hv. unfold live_at. rewrite H. by apply negb_true_iff, Z.eqb_neq. Qed.
Lemma all_below {n} (p : nat -> bool) i : forallb p (seq 0 n) = true -> (i < n)%nat -> p i = true.
Proof. intros H Hi. rewrite forallb_forall in H. apply H, in_seq. lia. Qed.
Lemma distinct_ok s : wf s -> distinct_b s = true -> forall i j r r', roots s !! i = Some r -> roots s !! j = Some r' -> ver r <> 0 -> ver r' <> 0 -> mnt_path r = mnt_path r' -> i = j.
Proof.
  intros W H i j r r' Hi Hj Hv Hv' E. pose proof (lookup_lt_Some _ _ _ Hi) as Li. pose proof (lookup_lt_Some _ _ _ Hj) as Lj. rewrite (wf_roots _ W) in Li, Lj.
  pose proof (all_below _ _ (all_below _ _ H Li) Lj) as Hij. cbv beta in Hij. rewrite (live_at_ok s i r), (live_at_ok s j r') in Hij by done. unfold path_at in Hij. rewrite Hi, Hj in Hij.
  unfold streq in Hij. rewrite bool_decide_eq_true_2 in Hij by done. by apply Nat.eqb_eq.
Qed.

Lemma printable_ok s : wf s -> printable_b s = true -> printable s.
Proof.
  intros W H. apply andb_true_iff in H as [[[[H1 H2]%andb_true_iff H3]%andb_true_iff H4]%andb_true_iff H5]. split; [done|..].
  - intros c i q Hc. rewrite forallb_forall in H1. specialize (H1 (Some i, q)). rewrite <-list_elem_of_In in H1. specialize (H1 (list_elem_of_lookup_2 _ _ _ Hc)). cbn in H1. unfold live_at in H1.
    destruct (roots s !! i) as [r|] eqn:E; [|done]. exists r. split; [done|]. by apply negb_true_iff, Z.eqb_neq in H1.
  - intros i r Hr Hv. pose proof (lookup_lt_Some _ _ _ Hr) as Hi. rewrite (wf_roots _ W) in Hi. pose proof (all_below _ _ H2 Hi) as Hw. cbv beta in Hw. rewrite (live_at_ok s i r) in Hw by done.
    unfold path_at in Hw. rewrite Hr in Hw. by apply word_b_sound.
  - by apply distinct_ok.
  - intros _ _ _ _. split; [by apply word_b_sound|]. by apply negb_true_iff, bool_decide_eq_false in H5.
Qed.
Lemma same_mounts_ok s s2 : wf s -> wf s2 -> same_mounts_b s s2 = true -> same_mounts s s2.
Proof.
  intros W W2 H. apply andb_true_iff in H as [H1 H2]. split; [|by apply distinct_ok]. intros i r Hr Hv. pose proof (lookup_lt_Some _ _ _ Hr) as Hi. rewrite (wf_roots _ W) in Hi.
  pose proof (all_below _ _ H1 Hi) as Hx. cbv beta in Hx. rewrite (live_at_ok s i r) in Hx by done. apply existsb_exists in Hx as (j & _ & Hj). apply andb_true_iff in Hj as [Hl Hp].
  unfold live_at in Hl. unfold path_at in Hp. rewrite Hr in Hp. destruct (roots s2 !! j) as [r2|] eqn:E; [|done]. exists j, r2. split_and!; [done|by apply negb_true_iff, Z.eqb_neq in Hl|by apply bool_decide_eq_true in Hp].
Qed.

Lemma scan_wf k s2 : (forall t l m, k_mounts k t = Some l -> m ∈ l -> slen (m_dir m) < PATH_MAX) -> tst_cg_scan k initial = Ok (tt, s2) -> wf s2.
Proof. intros Hp E. pose proof (scan_runs k Hp) as H. rewrite E in H. eapply found_wf; [apply initial_wf|exact H]. Qed.

Lemma cgctl_require_prints k tmpdir pid name c test_pid text s : (forall t l m, k_mounts k t = Some l -> m ∈ l -> slen (m_dir m) < PATH_MAX) -> slen tmpdir < PATH_MAX - 32 ->
  cgroup_find_ctrl name = Some c -> cgctl_require k tmpdir pid name test_pid initial = Ok (text, s) -> wf s /\ tst_cg_print_config s = Ok (text, s).
Proof.
  intros Hp Ht Hc E. pose proof (wp_require_inv k tmpdir pid (Why := any_reasons k) Hp ltac:(done) Ht name c 0 test_pid (fun _ s => wf s) initial (initial_inv 0) Hc ltac:(done) (fun s' I _ _ _ _ _ => inv_wf _ _ I)) as H.
  unfold wpe in H. unfold cgctl_require, mbind, C_bind in E. destruct (tst_cg_require k tmpdir pid name 0 test_pid initial) as [[[] s0]| |]; [|done..].
  rewrite (print_run s0 H) in E. injection E as <- <-. split; [done|]. by apply print_run.
Qed.

(** One process requires the memory controller, for the test with the number 77,
    another one cleans up. *)
Lemma cgctl_roundtrip_witness : exists s text s', cgctl_require v1_kernel (str "/tmp") 42 (str "memory") 77 initial = Ok (text, s) /\
  cgctl_cleanup v1_kernel text initial = Ok (tt, s') /\ cleaned_up v1_kernel s s' /\ map snd (unlinked (trace s')) = [str "ltp"; str "drain"; str "ltp"; str "drain"; str "test-77"].
Proof.
  destruct (cgctl_require v1_kernel (str "/tmp") 42 (str "memory") 77 initial) as [[text s]|e|] eqn:E; [|exfalso; vm_compute in E; discriminate..].
  destruct (cgctl_require_prints v1_kernel (str "/tmp") 42 (str "memory") CTRL_MEMORY 77 text s v1_paths ltac:(reflexivity) ltac:(reflexivity) E) as [W Ep].
  destruct (cgctl_roundtrip v1_kernel s) as (text' & Ep' & H).
  - apply printable_ok; [exact W|]. vm_compute in E. injection E as _ <-. vm_compute. reflexivity.
  - exact v1_paths.
  - intros s2 E2. apply same_mounts_ok; [exact W|exact (scan_wf _ _ v1_paths E2)|]. vm_compute in E. injection E as _ <-. vm_compute in E2. injection E2 as <-. vm_compute. reflexivity.
  - rewrite Ep in Ep'. injection Ep' as <-. destruct (cgctl_cleanup v1_kernel text initial) as [[[] s']|e|] eqn:E2; [|exfalso; vm_compute in E; injection E as <- _; vm_compute in E2; discriminate..].
    exists s, text, s'. split; [reflexivity|]. split; [exact E2|]. split; [exact H|]. vm_compute in E. injection E as <- _. vm_compute in E2. injection E2 as <-. reflexivity.
Defined.
