(* ===== verification/NetAddr.v ===== *)
(** * Addresses and prefixes: [lib/tst_net.c] and [testcases/lib/tst_net_ip_prefix.c]

    [inet_pton] and [inet_ntop] of the C library, parsing of [address/prefix],
    and the program that prints an address and its prefix as shell variables.
    A [struct in_addr] is its [s_addr], with the bytes of memory from the least
    significant one on (a little-endian machine); a [struct in6_addr] is its
    list of bytes. *)

From stdpp Require Import base list strings.
From Stdlib Require Import ZArith Lia.
From S2P Require Import Prelude ParseNum.

Local Open Scope Z_scope.

(** ** Bytes of an address *)
Definition octets (a : Z) : list Z := [a mod 256; a / 256 mod 256; a / 65536 mod 256; a / 16777216 mod 256].
Definition addr_of (l : list Z) : Z := match l with [a; b; c; d] => a + 256 * b + 65536 * c + 16777216 * d | _ => 0 end.
Definition htonl (a : Z) : Z := addr_of (rev (octets a)).
Abbreviation ntohl := htonl.

(** ** [inet_pton] and [inet_ntop] *)
Fixpoint fields (sep : Z) (s : cstr) : list cstr :=
  match s with
  | [] => [[]]
  | c :: s => if c =? sep then [] :: fields sep s else match fields sep s with f :: l => (c :: f) :: l | [] => [[c]] end
  end.
(** A decimal number up to 255 without leading zeros. *)
Definition octet (f : cstr) : option Z :=
  match f with
  | [] => None
  | c :: t =>
      if forallb isdigit f && ((c =? "0"%ch) && bool_decide (t = []) || negb (c =? "0"%ch)) && (length f <=? 3)%nat && (digits_val 10 0 f <=? 255)
      then Some (digits_val 10 0 f) else None
  end.
Definition inet_pton4 (s : cstr) : option Z :=
  match fields "."%ch s with
  | [a; b; c; d] => a ← octet a; b ← octet b; c ← octet c; d ← octet d; Some (addr_of [a; b; c; d])
  | _ => None
  end.
Definition inet_ntop4 (a : Z) : cstr :=
  match octets a with [a; b; c; d] => dec a ++ str "." ++ dec b ++ str "." ++ dec c ++ str "." ++ dec d | _ => [] end.

(** [%x] for a number of 16 bits. *)
Definition hexdigit (d : Z) : Z := if d <? 10 then "0"%ch + d else "a"%ch + d - 10.
Fixpoint strip (l : list Z) : list Z := match l with [d] => [d] | d :: l' => if d =? 0 then strip l' else l | [] => [] end.
Definition hex (n : Z) : cstr := map hexdigit (strip [n / 4096 mod 16; n / 256 mod 16; n / 16 mod 16; n mod 16]).

Definition hex_digit_value (c : Z) : option Z := let d := digit_val c in if d <? 16 then Some d else None.
(** The loop over the characters: the bytes so far, the position of [::], the
    digits since the last colon and their value. *)
Fixpoint pton6_loop (src curtok : cstr) (tmp : list Z) (colonp : option nat) (xdigits : nat) (val : Z) : option (list Z * option nat * nat * Z) :=
  match src with
  | [] => Some (tmp, colonp, xdigits, val)
  | ch :: src =>
      match hex_digit_value ch with
      | Some d =>
          if (xdigits =? 4)%nat then None
          else let val := val * 16 + d in if 65535 <? val then None else pton6_loop src curtok tmp colonp (S xdigits) val
      | None =>
          if ch =? ":"%ch then
            if (xdigits =? 0)%nat then
              match colonp with Some _ => None | None => pton6_loop src src tmp (Some (length tmp)) 0 val end
            else
              match src with
              | [] => None
              | _ => if (16 <? length tmp + 2)%nat then None else pton6_loop src src (tmp ++ [val / 256; val mod 256]) colonp 0 0
              end
          else if (ch =? "."%ch) && (length tmp + 4 <=? 16)%nat then
            a ← inet_pton4 curtok; Some (tmp ++ octets a, colonp, 0%nat, val)
          else None
      end
  end.
Definition inet_pton6 (s : cstr) : option (list Z) :=
  start ← match s with
          | [] => None
          | c :: s' => if c =? ":"%ch then match s' with d :: _ => if d =? ":"%ch then Some s' else None | [] => None end else Some s
          end;
  '(tmp, colonp, xdigits, val) ← pton6_loop start start [] None 0 0;
  tmp ← (if (0 <? xdigits)%nat then if (16 <? length tmp + 2)%nat then None else Some (tmp ++ [val / 256; val mod 256]) else Some tmp);
  match colonp with
  | Some n => if (length tmp =? 16)%nat then None else Some (take n tmp ++ replicate (16 - length tmp) 0 ++ drop n tmp)
  | None => if (length tmp =? 16)%nat then Some tmp else None
  end.

Fixpoint words (l : list Z) : list Z := match l with a :: b :: l => 256 * a + b :: words l | _ => [] end.
(** The first longest run of zeros: its start and length. *)
Definition longer (cur best : option (nat * nat)) : option (nat * nat) :=
  match cur, best with
  | Some (_, n), Some (_, m) => if (m <? n)%nat then cur else best
  | Some _, None => cur
  | None, _ => best
  end.
Fixpoint zero_run (i : nat) (ws : list Z) (cur best : option (nat * nat)) : option (nat * nat) :=
  match ws with
  | [] => longer cur best
  | w :: ws =>
      if w =? 0 then zero_run (S i) ws (match cur with Some (b, n) => Some (b, S n) | None => Some (i, 1%nat) end) best
      else zero_run (S i) ws None (longer cur best)
  end.
Fixpoint ntop6_loop (i : nat) (ws : list Z) (best : option (nat * nat)) (tail : Z) (w5 : Z) : cstr :=
  match ws with
  | [] => match best with Some (b, n) => if (b + n =? 8)%nat then str ":" else [] | None => [] end
  | w :: ws =>
      match best with
      | Some (b, n) =>
          if (b <=? i)%nat && (i <? b + n)%nat then (if (i =? b)%nat then str ":" else []) ++ ntop6_loop (S i) ws best tail w5
          else if (i =? 6)%nat && (b =? 0)%nat && ((n =? 6)%nat || (n =? 5)%nat && (w5 =? 65535)) then str ":" ++ inet_ntop4 tail
          else (if (i =? 0)%nat then [] else str ":") ++ hex w ++ ntop6_loop (S i) ws best tail w5
      | None => (if (i =? 0)%nat then [] else str ":") ++ hex w ++ ntop6_loop (S i) ws best tail w5
      end
  end.
Definition inet_ntop6 (a : list Z) : cstr :=
  let ws := words a in
  let best := match zero_run 0 ws None None with Some (b, n) => if (n <? 2)%nat then None else Some (b, n) | None => None end in
  ntop6_loop 0 ws best (addr_of (drop 12 a)) (nth 5 ws 0).

(** ** [tst_net.c] *)

(** [tst_brk], [exit] after the usage, a failed [assert]. *)
Inductive stop : Set := Broken | Exit (code : Z) | Aborted.
Abbreviation M := (res stop).

Definition MAX_IPV4_PREFIX : Z := 32.
Definition MAX_IPV6_PREFIX : Z := 128.

(** A run of ones with only zeros on both sides; the fuel is the number of bits. *)
Fixpoint bit_count_loop (fuel : nat) (i c : Z) (seen_one : bool) : Z :=
  match fuel with
  | O => c
  | S fuel =>
      if 0 <? i then
        if Z.odd i then bit_count_loop fuel (Z.shiftr i 1) (c + 1) true
        else if seen_one then -1 else bit_count_loop fuel (Z.shiftr i 1) c seen_one
      else c
  end.
Definition tst_bit_count (i : Z) : Z := bit_count_loop 32 i 0 false.
Definition tst_mask2prefix (mask : Z) : Z := tst_bit_count (ntohl mask).
Definition tst_ipv4_mask_to_int (prefix : cstr) : Z := match inet_pton4 prefix with None => -1 | Some a => tst_mask2prefix a end.
Definition tst_safe_atoi (s : cstr) : option Z :=
  let r := strtol LLONG_MIN LLONG_MAX 0 s in
  if negb (st_conv r) || negb (bool_decide (st_end r = [])) || negb (st_errno r =? 0) then None
  else if in_int (st_val r) then Some (st_val r) else None.

(** The prefix and the string, which is cut at the slash. *)
Definition tst_get_prefix (ip_str : cstr) (is_ipv6 : bool) : M (Z * cstr) :=
  match strchr ip_str "/"%ch with
  | None => Ok (-1, ip_str)
  | Some t =>
      let ip := take (length ip_str - length t) ip_str in
      let prefix_str := drop 1 t in
      prefix ← (if negb is_ipv6 && bool_decide (strchr prefix_str "."%ch <> None) then Ok (tst_ipv4_mask_to_int prefix_str)
                else match tst_safe_atoi prefix_str with Some p => Ok p | None => Err Broken end);
      if (prefix <? 0) || (is_ipv6 && (MAX_IPV6_PREFIX <? prefix)) || (negb is_ipv6 && (MAX_IPV4_PREFIX <? prefix)) then Err Broken
      else Ok (prefix, ip)
  end.

Definition tst_get_in_addr (ip_str : cstr) : M Z := match inet_pton4 ip_str with Some a => Ok a | None => Err Broken end.
Definition tst_get_in6_addr (ip_str : cstr) : M (list Z) := match inet_pton6 ip_str with Some a => Ok a | None => Err Broken end.

(** Addresses of sockets. *)
Definition AF_INET : Z := 2.
Definition AF_INET6 : Z := 10.
Record sockaddr_in : Set := mkSin { sin_family : Z; sin_port : Z; sin_addr : Z }.
Record sockaddr_in6 : Set := mkSin6 { sin6_family : Z; sin6_port : Z; sin6_flowinfo : Z; sin6_addr : list Z; sin6_scope_id : Z }.
Inductive sockaddr_storage : Set := Inet (a : sockaddr_in) | Inet6 (a : sockaddr_in6) | Other (ss_family : Z).
Definition htons (p : Z) : Z := p mod 256 * 256 + p / 256.
Definition INADDR_ANY : Z := 0.
Definition INADDR_BROADCAST : Z := 4294967295.
Definition INADDR_LOOPBACK : Z := 2130706433.
Definition in6addr_any : list Z := replicate 16 0.
Definition in6addr_loopback : list Z := replicate 15 0 ++ [1].

(** Of what [getsockname] answers. *)
Definition tst_get_connect_address (getsockname : sockaddr_storage) : sockaddr_storage :=
  match getsockname with
  | Inet a =>
      let addr := ntohl (sin_addr a) in
      if (addr =? INADDR_ANY) || (addr =? INADDR_BROADCAST) then Inet (mkSin (sin_family a) (sin_port a) (htonl INADDR_LOOPBACK)) else Inet a
  | Inet6 a =>
      if bool_decide (sin6_addr a = in6addr_any) then Inet6 (mkSin6 (sin6_family a) (sin6_port a) (sin6_flowinfo a) in6addr_loopback (sin6_scope_id a)) else Inet6 a
  | Other f => Other f
  end.
Definition tst_init_sockaddr_inet (ip_str : cstr) (port : Z) : M sockaddr_in := a ← tst_get_in_addr ip_str; Ok (mkSin AF_INET (htons port) a).
Definition tst_init_sockaddr_inet_bin (ip_val port : Z) : sockaddr_in := mkSin AF_INET (htons port) (htonl ip_val).
Definition tst_init_sockaddr_inet6 (ip_str : cstr) (port : Z) : M sockaddr_in6 := a ← tst_get_in6_addr ip_str; Ok (mkSin6 AF_INET6 (htons port) 0 a 0).
Definition tst_init_sockaddr_inet6_bin (ip_val : list Z) (port : Z) : sockaddr_in6 := mkSin6 AF_INET6 (htons port) 0 ip_val 0.

(** Lines of output; nothing is printed for NULL. *)
Definition tst_print_svar (name : string) (val : option cstr) : list cstr :=
  match val with Some v => [str "export " ++ str name ++ str "=" ++ [DQUOTE] ++ v ++ [DQUOTE]] | None => [] end.
Definition tst_print_svar_change (name : string) (val : option cstr) : list cstr :=
  match val with Some v => [str "export " ++ str name ++ str "=" ++ [DQUOTE] ++ str "${" ++ str name ++ str ":-" ++ v ++ str "}" ++ [DQUOTE]] | None => [] end.

(** ** [tst_net_ip_prefix.c] *)
Definition DEFAULT_IPV4_PREFIX : Z := 24.
Definition DEFAULT_IPV6_PREFIX : Z := 64.
Definition print_ivar (name : string) (val : Z) : list cstr := [str "export " ++ str name ++ str "=" ++ dec val].

Definition is_help (args : list cstr) : bool := match args with a :: _ => streq a (str "-h") || streq a (str "--help") | [] => false end.

(** The arguments after the name of the program; what it prints. *)
Definition ip_prefix_main (args : list cstr) : M (list cstr) :=
  if is_help args then Err (Exit 0)
  else
    match args with
    | [] => Err (Exit 1)
    | a :: rest =>
        let is_rhost := streq a (str "-r") in
        ip_str ← or_fault (if is_rhost then head rest else Some a);
        let is_ipv6 := bool_decide (strchr ip_str ":"%ch <> None) in
        '(prefix, ip_str) ← (if bool_decide (strchr ip_str "/"%ch <> None) then tst_get_prefix ip_str is_ipv6
                             else Ok (if is_ipv6 then DEFAULT_IPV6_PREFIX else DEFAULT_IPV4_PREFIX, ip_str));
        _ ← (if is_ipv6 then _ ← tst_get_in6_addr ip_str; Ok tt else _ ← tst_get_in_addr ip_str; Ok tt);
        Ok (if is_ipv6 then print_ivar (if is_rhost then "IPV6_RPREFIX" else "IPV6_LPREFIX") prefix ++ tst_print_svar (if is_rhost then "IPV6_RHOST" else "IPV6_LHOST") (Some ip_str)
            else print_ivar (if is_rhost then "IPV4_RPREFIX" else "IPV4_LPREFIX") prefix ++ tst_print_svar (if is_rhost then "IPV4_RHOST" else "IPV4_LHOST") (Some ip_str))
    end.

Example pton_ex : inet_pton4 (str "10.0.2.15") = Some (10 + 256 * 0 + 65536 * 2 + 16777216 * 15) /\ inet_pton4 (str "10.0.02.1") = None /\ inet_pton4 (str "1.2.3.256") = None.
Proof. vm_compute. done. Qed.
Example pton6_ex : inet_pton6 (str "fd00:1:1:1::2") = Some [253; 0; 0; 1; 0; 1; 0; 1; 0; 0; 0; 0; 0; 0; 0; 2] /\ inet_pton6 (str "1::2::3") = None /\
  (inet_ntop6 <$> inet_pton6 (str "0:0:0:5:0:0:0:0")) = Some (str "0:0:0:5::") /\ (inet_ntop6 <$> inet_pton6 (str "::ffff:1.2.3.4")) = Some (str "::ffff:1.2.3.4").
Proof. vm_compute. done. Qed.
Example ip_prefix_ex : ip_prefix_main [str "10.0.0.2/24"] = Ok [str "export IPV4_LPREFIX=24"; str "export IPV4_LHOST=" ++ [DQUOTE] ++ str "10.0.0.2" ++ [DQUOTE]].
Proof. vm_compute. done. Qed.

(** ** Addresses as text *)
Lemma octets_addr a b c d : 0 <= a < 256 -> 0 <= b < 256 -> 0 <= c < 256 -> 0 <= d < 256 -> octets (addr_of [a; b; c; d]) = [a; b; c; d].
Proof. intros. unfold octets, addr_of. repeat f_equal; Z.to_euclidean_division_equations; lia. Qed.
Lemma addr_octets a : 0 <= a < 2 ^ 32 -> addr_of (octets a) = a.
Proof. intros. unfold octets, addr_of. Z.to_euclidean_division_equations; lia. Qed.
Lemma octets_range a o : o ∈ octets a -> 0 <= o < 256.
Proof. unfold octets. intros H. repeat (apply elem_of_cons in H as [->|H]; [by apply Z.mod_pos_bound|]). by apply elem_of_nil in H. Qed.
Lemma htonl_addr a b c d : 0 <= a < 256 -> 0 <= b < 256 -> 0 <= c < 256 -> 0 <= d < 256 -> htonl (addr_of [a; b; c; d]) = addr_of [d; c; b; a].
Proof. intros. unfold htonl. by rewrite octets_addr. Qed.
Lemma addr_split a : 0 <= a < 2 ^ 32 -> exists b c d e, a = addr_of [b; c; d; e] /\ 0 <= b < 256 /\ 0 <= c < 256 /\ 0 <= d < 256 /\ 0 <= e < 256.
Proof.
  intros H. exists (a mod 256), (a / 256 mod 256), (a / 65536 mod 256), (a / 16777216 mod 256). split; [symmetry; by apply addr_octets|].
  split_and!; by apply Z.mod_pos_bound.
Qed.
Lemma htonl_range a : 0 <= htonl a < 2 ^ 32.
Proof. unfold htonl, octets. cbn [rev app addr_of]. Z.to_euclidean_division_equations; lia. Qed.
Lemma htonl_htonl a : 0 <= a < 2 ^ 32 -> htonl (htonl a) = a.
Proof. intros H. destruct (addr_split a H) as (b & c & d & e & -> & ? & ? & ? & ?). by rewrite !htonl_addr. Qed.

Lemma bytes_forall (P : Z -> bool) : forallb P (map Z.of_nat (seq 0 256)) = true -> forall b, 0 <= b < 256 -> P b = true.
Proof. intros H b Hb. rewrite forallb_forall in H. apply H. apply in_map_iff. exists (Z.to_nat b). rewrite in_seq. lia. Qed.

Lemma octet_dec b : 0 <= b < 256 -> octet (dec b) = Some b.
Proof.
  intros Hb. pose proof (bytes_forall (fun b => match octet (dec b) with Some x => x =? b | None => false end) ltac:(vm_compute; reflexivity) b Hb) as H. cbv beta in H.
  destruct (octet (dec b)); [|done]. by apply Z.eqb_eq in H as ->.
Qed.
Lemma no_dot_dec b : 0 <= b < 256 -> forallb (fun c => negb (c =? "."%ch)) (dec b) = true.
Proof. intros Hb. apply (bytes_forall (fun b => forallb (fun c => negb (c =? "."%ch)) (dec b))); [vm_compute; reflexivity|done]. Qed.

Lemma fields_last sep f : forallb (fun c => negb (c =? sep)) f = true -> fields sep f = [f].
Proof. induction f as [|c f IH]; [done|]. cbn. intros [Hc H]%andb_true_iff. apply negb_true_iff in Hc. by rewrite Hc, IH. Qed.
Lemma fields_cons sep f s : forallb (fun c => negb (c =? sep)) f = true -> fields sep (f ++ sep :: s) = f :: fields sep s.
Proof. induction f as [|c f IH]; cbn; [by rewrite Z.eqb_refl|]. intros [Hc H]%andb_true_iff. apply negb_true_iff in Hc. by rewrite Hc, IH. Qed.

Lemma pton4_dotted a b c d : 0 <= a < 256 -> 0 <= b < 256 -> 0 <= c < 256 -> 0 <= d < 256 ->
  inet_pton4 (dec a ++ str "." ++ dec b ++ str "." ++ dec c ++ str "." ++ dec d) = Some (addr_of [a; b; c; d]).
Proof.
  intros. unfold inet_pton4. change (str ".") with ["."%ch]. cbn [app]. rewrite !fields_cons, fields_last by by apply no_dot_dec. by rewrite !octet_dec.
Qed.
Lemma pton4_ntop4 a : 0 <= a < 2 ^ 32 -> inet_pton4 (inet_ntop4 a) = Some a.
Proof. intros H. destruct (addr_split a H) as (b & c & d & e & -> & ? & ? & ? & ?). unfold inet_ntop4. rewrite octets_addr by done. by apply pton4_dotted. Qed.
Lemma ntop4_dotted a b c d : 0 <= a < 256 -> 0 <= b < 256 -> 0 <= c < 256 -> 0 <= d < 256 ->
  inet_ntop4 (addr_of [a; b; c; d]) = dec a ++ str "." ++ dec b ++ str "." ++ dec c ++ str "." ++ dec d.
Proof. intros. unfold inet_ntop4. by rewrite octets_addr. Qed.

(** ** Prefixes *)

(** Ones in a row. *)
Definition ones (j k : Z) : Z := (2 ^ j - 1) * 2 ^ k.

Lemma ones_even j k : 0 <= j -> 0 < k -> ones j k = 2 * ones j (k - 1).
Proof. intros. unfold ones. replace k with (Z.succ (k - 1)) at 1 by lia. rewrite Z.pow_succ_r by lia. lia. Qed.
Lemma ones_odd j : 0 < j -> ones j 0 = 2 * ones (j - 1) 0 + 1.
Proof. intros. unfold ones. replace j with (Z.succ (j - 1)) at 1 by lia. rewrite Z.pow_succ_r by lia. lia. Qed.

(** Half of a row, if the number is not zero. *)
Lemma ones_half i j k : 0 < i -> 0 <= j -> 0 <= k -> i = ones j k ->
  if Z.odd i then k = 0 /\ 0 < j /\ i / 2 = ones (j - 1) 0 else 0 < k /\ i / 2 = ones j (k - 1).
Proof.
  intros Hi Hj Hk E. destruct (Z.eq_dec k 0) as [->|Hk0].
  - destruct (Z.eq_dec j 0) as [->|Hj0]; [unfold ones in E; cbn in E; lia|]. pose proof (ones_odd j ltac:(lia)) as Ho. rewrite E, Ho, (Z.add_comm _ 1), Z.odd_add_mul_2. cbn [Z.odd].
    split_and!; [done|lia|]. Z.to_euclidean_division_equations; lia.
  - pose proof (ones_even j k Hj ltac:(lia)) as He. rewrite E, He, Z.odd_mul. cbn. split; [lia|]. Z.to_euclidean_division_equations; lia.
Qed.

Lemma bit_count_spec fuel : forall i c seen, 0 <= i < 2 ^ Z.of_nat fuel ->
  (exists j k, 0 <= j /\ 0 <= k /\ (seen = true -> i = 0 \/ k = 0) /\ i = ones j k /\ bit_count_loop fuel i c seen = c + j) \/
  (bit_count_loop fuel i c seen = -1 /\ forall j k, 0 <= j -> 0 <= k -> (seen = true -> k = 0) -> i <> ones j k).
Proof.
  induction fuel as [|fuel IH]; intros i c seen Hi; cbn [bit_count_loop].
  { left. exists 0, 0. split_and!; [lia..|right; lia|unfold ones; cbn; lia|lia]. }
  destruct (Z.ltb_spec 0 i) as [H0|H0]; [|left; exists 0, 0; split_and!; [lia..|left; lia|unfold ones; cbn; lia|lia]].
  rewrite Nat2Z.inj_succ, Z.pow_succ_r in Hi by lia. rewrite Z.shiftr_div_pow2 by lia. change (2 ^ 1) with 2. assert (Hh : 0 <= i / 2 < 2 ^ Z.of_nat fuel) by (Z.to_euclidean_division_equations; lia).
  pose proof (Z.div_mod i 2 ltac:(lia)) as Hdm. rewrite Zmod_odd in Hdm. pose proof (ones_half i) as Hhalf. destruct (Z.odd i) eqn:Eo.
  - destruct (IH (i / 2) (c + 1) true Hh) as [(j & k & Hj & Hk & Hs & E & ->)|[-> Hn]].
    + left. exists (j + 1), 0. split_and!; [lia..|by right| |lia]. rewrite ones_odd by lia. replace (j + 1 - 1) with j by lia.
      destruct (Hs eq_refl) as [Ez| ->]; [|lia]. rewrite Ez in E. unfold ones in E |- *. assert (2 ^ j = 1) by (pose proof (Z.pow_pos_nonneg 2 k); nia). lia.
    + right. split; [done|]. intros j k Hj Hk Hs E. destruct (Hhalf j k H0 Hj Hk E) as (-> & Hj' & E'). by apply (Hn (j - 1) 0 ltac:(lia) ltac:(lia) ltac:(done)).
  - destruct seen; [right; split; [done|]; intros j k Hj Hk Hs E; destruct (Hhalf j k H0 Hj Hk E) as [Hk' _]; specialize (Hs eq_refl); lia|].
    destruct (IH (i / 2) c false Hh) as [(j & k & Hj & Hk & _ & E & ->)|[-> Hn]].
    + left. exists j, (k + 1). split_and!; [lia..|done| |lia]. rewrite ones_even by lia. replace (k + 1 - 1) with k by lia. lia.
    + right. split; [done|]. intros j k Hj Hk _ E. destruct (Hhalf j k H0 Hj Hk E) as [Hk' E']. by apply (Hn j (k - 1) Hj ltac:(lia) ltac:(done)).
Qed.

(** The number of ones of a mask that is a row of ones, or -1. *)
Lemma bit_count_ones i : 0 <= i < 2 ^ 32 ->
  (exists j k, 0 <= j /\ 0 <= k /\ i = ones j k /\ tst_bit_count i = j) \/ (tst_bit_count i = -1 /\ forall j k, 0 <= j -> 0 <= k -> i <> ones j k).
Proof.
  intros H. destruct (bit_count_spec 32 i 0 false H) as [(j & k & Hj & Hk & _ & E & E')|[E Hn]]; [left; exists j, k; split_and!; [done|done|done|]; unfold tst_bit_count; lia|right].
  split; [done|]. intros j k Hj Hk. by apply Hn.
Qed.

Lemma strchr_at c a t : forallb (fun x => negb (x =? c)) a = true -> strchr (a ++ c :: t) c = Some (c :: t).
Proof. induction a as [|x a IH]; cbn; [by rewrite Z.eqb_refl|]. intros [Hx H]%andb_true_iff. apply negb_true_iff in Hx. by rewrite Hx, IH. Qed.
Lemma strchr_absent c a : forallb (fun x => negb (x =? c)) a = true -> strchr a c = None.
Proof. induction a as [|x a IH]; cbn; [done|]. intros [Hx H]%andb_true_iff. apply negb_true_iff in Hx. by rewrite Hx, IH. Qed.

Definition max_prefix (is_ipv6 : bool) : Z := if is_ipv6 then MAX_IPV6_PREFIX else MAX_IPV4_PREFIX.
Definition no_slash (ip : cstr) : bool := forallb (fun x => negb (x =? "/"%ch)) ip.

Lemma get_prefix_slash ip t v6 : no_slash ip = true -> tst_get_prefix (ip ++ "/"%ch :: t) v6 =
  (prefix ← (if negb v6 && bool_decide (strchr t "."%ch <> None) then Ok (tst_ipv4_mask_to_int t) else match tst_safe_atoi t with Some p => Ok p | None => Err Broken end);
   if (0 <=? prefix) && (prefix <=? max_prefix v6) then Ok (prefix, ip) else Err Broken).
Proof.
  intros H. unfold tst_get_prefix. rewrite (strchr_at _ _ _ H). replace (length _ - length _)%nat with (length ip) by (rewrite length_app; cbn [length]; lia).
  rewrite take_app_length. cbn [drop]. assert (Hif : forall p : Z, (p <? 0) || (v6 && (MAX_IPV6_PREFIX <? p)) || (negb v6 && (MAX_IPV4_PREFIX <? p)) = negb ((0 <=? p) && (p <=? max_prefix v6))).
  { intros p. unfold max_prefix. destruct v6; cbn; destruct (Z.ltb_spec p 0), (Z.leb_spec 0 p); try lia; cbn; rewrite ?orb_false_r, ?Z.leb_antisym, ?negb_involutive; done. }
  destruct (if _ && _ then _ else _) as [p|e|]; [|done..]. cbn. rewrite Hif. by destruct (_ && _).
Qed.

Lemma prefix_decimal p v6 : 0 <= p <= max_prefix v6 -> tst_safe_atoi (dec p) = Some p /\ strchr (dec p) "."%ch = None.
Proof.
  intros Hp. assert (H : (match tst_safe_atoi (dec p) with Some x => x =? p | None => false end && forallb (fun c => negb (c =? "."%ch)) (dec p)) = true).
  { unfold max_prefix, MAX_IPV6_PREFIX, MAX_IPV4_PREFIX in Hp.
    apply (bytes_forall (fun p => match tst_safe_atoi (dec p) with Some x => x =? p | None => false end && forallb (fun c => negb (c =? "."%ch)) (dec p))); [vm_compute; reflexivity|destruct v6; lia]. }
  apply andb_true_iff in H as [H1 H2]. split; [|by apply strchr_absent]. destruct (tst_safe_atoi (dec p)); [|done]. by apply Z.eqb_eq in H1 as ->.
Qed.

Lemma dotted_mask m : 0 <= m < 2 ^ 32 -> strchr (inet_ntop4 m) "."%ch <> None /\ tst_ipv4_mask_to_int (inet_ntop4 m) = tst_bit_count (ntohl m).
Proof.
  intros H. split; [|unfold tst_ipv4_mask_to_int; by rewrite pton4_ntop4]. destruct (addr_split m H) as (b & c & d & e & -> & ? & ? & ? & ?). rewrite ntop4_dotted by done.
  change (str ".") with ["."%ch]. cbn [app]. rewrite strchr_at by by apply no_dot_dec. done.
Qed.

Lemma prefix_given ip v6 p : no_slash ip = true -> 0 <= p <= max_prefix v6 -> tst_get_prefix (ip ++ str "/" ++ dec p) v6 = Ok (p, ip).
Proof.
  intros H Hp. change (str "/" ++ dec p) with ("/"%ch :: dec p). rewrite get_prefix_slash by done. destruct (prefix_decimal p v6 Hp) as [-> ->]. rewrite bool_decide_eq_false_2, andb_false_r by auto. cbn.
  by rewrite (proj2 (Z.leb_le _ _) (proj1 Hp)), (proj2 (Z.leb_le _ _) (proj2 Hp)).
Qed.

(** A server that listens on all addresses is reached at the loopback address, and
    both ways to fill in an address agree. *)
Lemma connect_address_ok ip port : 0 <= ip < 2 ^ 32 ->
  tst_init_sockaddr_inet (inet_ntop4 (htonl ip)) port = Ok (tst_init_sockaddr_inet_bin ip port) /\
  tst_get_connect_address (Inet (tst_init_sockaddr_inet_bin ip port)) = Inet (tst_init_sockaddr_inet_bin (if (ip =? INADDR_ANY) || (ip =? INADDR_BROADCAST) then INADDR_LOOPBACK else ip) port).
Proof.
  intros H. unfold tst_init_sockaddr_inet, tst_get_in_addr. rewrite pton4_ntop4 by apply htonl_range. split; [done|]. unfold tst_get_connect_address, tst_init_sockaddr_inet_bin. cbn [sin_addr sin_family sin_port].
  rewrite htonl_htonl by done. by destruct (_ || _).
Qed.

(** C34: splitting [address/prefix].  Without a slash the prefix is -1; a decimal
    number up to the maximum is that prefix; for IPv4 a netmask in dotted form
    whose ones are in a row, at any place, is the number of its ones, and any
    other netmask is refused.  Whatever follows the slash, the address is what is
    before it and the prefix is in range, or the program stops. *)
Theorem get_prefix_correct ip v6 : no_slash ip = true ->
  tst_get_prefix ip v6 = Ok (-1, ip) /\
  (forall p, 0 <= p <= max_prefix v6 -> tst_get_prefix (ip ++ str "/" ++ dec p) v6 = Ok (p, ip)) /\
  (forall m, 0 <= m < 2 ^ 32 -> v6 = false ->
     (exists j k, 0 <= j /\ 0 <= k /\ ntohl m = ones j k /\ tst_get_prefix (ip ++ str "/" ++ inet_ntop4 m) v6 = Ok (j, ip)) \/
     (tst_get_prefix (ip ++ str "/" ++ inet_ntop4 m) v6 = Err Broken /\ forall j k, 0 <= j -> 0 <= k -> ntohl m <> ones j k)) /\
  (forall t, match tst_get_prefix (ip ++ str "/" ++ t) v6 with Ok (p, ip') => ip' = ip /\ 0 <= p <= max_prefix v6 | Err e => e = Broken | Fault => False end).
Proof.
  intros H. change (str "/") with ["/"%ch]. cbn [app]. split_and!.
  - unfold tst_get_prefix. by rewrite strchr_absent.
  - intros p Hp. by apply prefix_given.
  - intros m Hm ->. rewrite get_prefix_slash by done. destruct (dotted_mask m Hm) as [Hdot ->]. rewrite bool_decide_eq_true_2 by done. cbn [negb andb mbind res_bind].
    destruct (bit_count_ones (ntohl m) (htonl_range m)) as [(j & k & Hj & Hk & E & ->)|[-> Hn]]; [left|by right]. exists j, k. split_and!; [done..|].
    rewrite (proj2 (Z.leb_le _ _) Hj). cbn. destruct (Z.leb_spec j MAX_IPV4_PREFIX) as [|Hbig]; [done|]. exfalso. pose proof (htonl_range m) as Hr. rewrite E in Hr. unfold ones, MAX_IPV4_PREFIX in *.
    pose proof (Z.pow_le_mono_r 2 33 j ltac:(lia) ltac:(lia)). pose proof (Z.pow_pos_nonneg 2 k ltac:(lia) Hk). nia.
  - intros t. rewrite get_prefix_slash by done. destruct (if _ && _ then _ else _) as [p|e|] eqn:E; cbn; [|revert E; destruct (negb v6 && _), (tst_safe_atoi t); congruence..].
    destruct (_ && (p <=? _)) eqn:Er; [|done]. apply andb_true_iff in Er as [H1 H2]. apply Z.leb_le in H1, H2. done.
Qed.

Lemma get_prefix_correct_witness : tst_get_prefix (str "10.0.0.2/24") false = Ok (24, str "10.0.0.2") /\ tst_get_prefix (str "10.0.0.2/0.255.255.0") false = Ok (16, str "10.0.0.2").
Proof.
  destruct (get_prefix_correct (str "10.0.0.2") false ltac:(reflexivity)) as (_ & H & _). split; [apply (H 24); unfold max_prefix, MAX_IPV4_PREFIX; lia|vm_compute; reflexivity].
Defined.
