(* ===== verification/NetVars.v ===== *)
(** * Variables of network tests: [testcases/lib/tst_net_vars.c]

    The program computes netmask, broadcast address, network and host part of two
    addresses, and a network that is not in use, and prints them for shell
    tests.  [unsigned int] and [int] are written out where they wrap; [rand] is
    an input. *)

From stdpp Require Import base list strings.
From Stdlib Require Import ZArith Lia.
From S2P Require Import Prelude ParseNum NetAddr.

Local Open Scope Z_scope.

Definition BASE_IPV4_PREFIX : Z := 8.
Definition BASE_IPV6_PREFIX : Z := 16.

(** ** Masks and networks *)

(** [1 << n] of an [int] is defined below 31 only, and [1 << 31] is not an
    [int]. *)
Definition prefix2mask (prefix : Z) : M Z :=
  if prefix =? 0 then Ok (htonl 0)
  else
    let n := wrap_u 32 (32 - prefix) in
    if n <? 31 then Ok (htonl (wrap_u 32 (Z.lnot (2 ^ n - 1)))) else Fault.

Definition calc_network (ip mask : Z) : Z := Z.land ip mask.
Definition is_in_subnet_ipv4 (network mask ip : Z) : bool := Z.land ip mask =? Z.land network mask.
(** Four [int]s, which are equal as their bytes are. *)
Definition and_bytes (a b : list Z) : list Z := zip_with Z.land a b.
Definition is_in_subnet_ipv6 (network mask ip6 : list Z) : bool :=
  forallb (fun i => bool_decide (and_bytes (take 4 (drop (4 * i) ip6)) (take 4 (drop (4 * i) mask)) = and_bytes (take 4 (drop (4 * i) network)) (take 4 (drop (4 * i) mask)))) (seq 0 4).

Definition get_ipv4_netmask (prefix : Z) : M (option cstr) :=
  mask ← prefix2mask prefix;
  Ok (if MAX_IPV4_PREFIX <? prefix then None else Some (inet_ntop4 mask)).

(** The loop of [get_ipv6_netmask] and [get_ipv6_net32_unused]: [0xffU << (8 - i)]
    stored in a byte. *)
Fixpoint mask6_loop (n : nat) (i : Z) : list Z :=
  match n with
  | O => []
  | S n => (if 0 <? i then if 8 <=? i then 255 else 255 * 2 ^ (8 - i) mod 256 else 0) :: mask6_loop n (i - 8)
  end.
Definition mask6 (prefix : Z) : list Z := mask6_loop 16 prefix.
Definition get_ipv6_netmask (prefix : Z) : option cstr := if MAX_IPV6_PREFIX <? prefix then None else Some (inet_ntop6 (mask6 prefix)).

Definition get_ipv4_broadcast (ip prefix : Z) : M cstr :=
  mask ← prefix2mask prefix;
  Ok (inet_ntop4 (Z.lor (Z.land ip mask) (wrap_u 32 (Z.lnot mask)))).

(** ** A network that is not in use *)
Definition DEFAULT_IPV4_UNUSED_PART1 : Z := 10.
Definition DEFAULT_IPV6_UNUSED_PART1 : Z := 253.
Definition DEFAULT_IPV4_UNUSED_PART2 : Z := 23.
Definition DEFAULT_IPV6_UNUSED_PART2 : Z := 35.

Section Unused.
(** The results of [rand]. *)
Context (rand : nat -> Z).

Definition two4 (a b : Z) : cstr := dec a ++ str "." ++ dec b.
Definition get_ipv4_net16_unused (ip prefix : Z) : M (option cstr) :=
  mask ← prefix2mask prefix;
  let net_unused := two4 DEFAULT_IPV4_UNUSED_PART1 DEFAULT_IPV4_UNUSED_PART2 in
  network ← tst_get_in_addr (net_unused ++ str ".0.0");
  if negb (is_in_subnet_ipv4 ip mask network) then Ok (Some net_unused)
  else
    let net_unused := two4 DEFAULT_IPV4_UNUSED_PART1 (rand 0%nat mod 128 + if Z.land (Z.shiftr ip 8) 255 <? 128 then 128 else 0) in
    network ← tst_get_in_addr (net_unused ++ str ".0.0");
    if negb (is_in_subnet_ipv4 ip mask network) then Ok (Some net_unused)
    else
      let net_unused := two4 (rand 1%nat mod 128 + if Z.land ip 255 <? 128 then 128 else 0) DEFAULT_IPV4_UNUSED_PART2 in
      network ← tst_get_in_addr (net_unused ++ str ".0.0");
      Ok (if negb (is_in_subnet_ipv4 ip mask network) then Some net_unused else None).

Definition two6 (a b : Z) : cstr := hex a ++ str ":" ++ hex b.
(** [256 * s6_addr[0] < 128] is only true of 0. *)
Definition get_ipv6_net32_unused (ip6 : list Z) (prefix : Z) : M (option cstr) :=
  if 128 <? prefix then Ok None
  else
    let mask := mask6 prefix in
    let net_unused := two6 (256 * DEFAULT_IPV6_UNUSED_PART1) DEFAULT_IPV6_UNUSED_PART2 in
    network ← tst_get_in6_addr (net_unused ++ str "::");
    if negb (is_in_subnet_ipv6 ip6 mask network) then Ok (Some net_unused)
    else
      let net_unused := two6 (256 * DEFAULT_IPV6_UNUSED_PART1 + rand 0%nat mod 128 + if nth 1 ip6 0 <? 128 then 128 else 0) DEFAULT_IPV6_UNUSED_PART2 in
      network ← tst_get_in6_addr (net_unused ++ str "::");
      if negb (is_in_subnet_ipv6 ip6 mask network) then Ok (Some net_unused)
      else
        let net_unused := two6 (256 * (rand 1%nat mod 128) + if 256 * nth 0 ip6 0 <? 128 then 128 else 0) DEFAULT_IPV6_UNUSED_PART2 in
        network ← tst_get_in6_addr (net_unused ++ str "::");
        Ok (if negb (is_in_subnet_ipv6 ip6 mask network) then Some net_unused else None).
End Unused.

(** ** Network and host part *)

(** The groups with colons between them. *)
Fixpoint join (l : list cstr) : cstr := match l with [] => [] | [x] => x | x :: l => x ++ ":"%ch :: join l end.
Definition zero_or_colon (c : Z) : bool := (c =? ":"%ch) || (c =? "0"%ch).
(** The first longest run of [:0] that starts the string or with a colon. *)
Fixpoint longest (i : nat) (buf : cstr) (best max : nat) : nat * nat :=
  match buf with
  | [] => (best, max)
  | c :: rest =>
      if (0 <? i)%nat && negb (c =? ":"%ch) then longest (S i) rest best max
      else
        let j := prefix_len zero_or_colon buf in
        if (max <? j)%nat then longest (S i) rest i j else longest (S i) rest best max
  end.

(** The three buffers are long enough for eight groups.  In the last case more is
    moved than the rest of the string, from behind its end. *)
Definition get_ipv6_network (a : list Z) (prefix : Z) : option cstr :=
  if MAX_IPV6_PREFIX <? prefix then None
  else if prefix =? MAX_IPV6_PREFIX then Some []
  else
    let groups := hex <$> words a in
    let buf := join groups in
    let ret := join (take (Z.to_nat (Z.shiftr prefix 4)) groups) in
    let border := length ret in
    let '(best, max) := longest 0 buf 0 2 in
    let best_end := (best + max - 1)%nat in
    let length := border in
    let ret :=
      if (2 <? max)%nat && (best <? border)%nat then
        if (best =? 0)%nat && (border <=? best_end)%nat then str ":"
        else if (best =? 0)%nat && (best_end <? border)%nat then str ":" ++ drop best_end ret
        else if (0 <? best)%nat && (border <=? best_end)%nat then take best ret ++ str ":"
        else take best ret ++ str ":" ++ drop best_end ret
      else ret in
    if (length <? 46)%nat then Some ret else None.

Definition get_host_from_ip (ip net : option cstr) : M (option cstr) :=
  match ip, net with
  | Some ip, Some net =>
      (* [strstr(ip, net) == ip] *)
      if negb (bool_decide (strstr ip net = Some ip)) then Ok None
      else
        let index := length net in
        if (index =? length ip)%nat then Ok (Some [])
        else if (0 <? index)%nat && (index <? length ip)%nat then
          if (at_ ip index =? ":"%ch) || (at_ ip index =? "."%ch) then Ok (Some (drop (S index) ip)) else Err Aborted
        else Ok (Some ip)
  | _, _ => Ok None
  end.

(** [buf] is not initialised when there is nothing to print. *)
Fixpoint ipv4_network_loop (n : nat) (ip i prefix : Z) : cstr :=
  match n with
  | O => []
  | S n => (if i <? prefix then str "." else []) ++ dec (Z.land (Z.shiftr ip i) 255) ++ ipv4_network_loop n ip (i - 8) prefix
  end.
Definition get_ipv4_network (ip prefix : Z) : M (option cstr) :=
  let ip := wrap_s 32 (htonl (wrap_u 32 ip)) in
  if MAX_IPV4_PREFIX <? prefix then Ok None
  else if prefix =? MAX_IPV4_PREFIX then Ok (Some [])
  else
    let prefix := Z.land prefix (MAX_IPV4_PREFIX - 8) in
    if prefix =? 0 then Fault else Ok (Some (ipv4_network_loop (Z.to_nat (prefix / 8)) ip prefix prefix)).

(** Of an [unsigned int], to an [int]. *)
Definition round_down_prefix (prefix : Z) (is_ipv6 : bool) : Z :=
  let base_prefix := if is_ipv6 then BASE_IPV6_PREFIX else BASE_IPV4_PREFIX in
  wrap_s 32 (prefix / base_prefix * base_prefix).

(** ** The program *)
(** A run sets the variables of one family of addresses: a field is the one of
    that family. *)
Record ltp_net_variables : Set := mkVars {
  lbroadcast : option cstr; rbroadcast : option cstr; lnetmask : option cstr; rnetmask : option cstr; lnetwork : option cstr; rnetwork : option cstr;
  lhost : option cstr; rhost : option cstr; net_unused : option cstr }.

Section Program.
Context (rand : nat -> Z).

Definition get_ipv4_info (lip_str rip_str : cstr) (lprefix rprefix : Z) : M ltp_net_variables :=
  let lprefix_round := round_down_prefix (wrap_u 32 lprefix) false in
  let rprefix_round := round_down_prefix (wrap_u 32 rprefix) false in
  lip ← tst_get_in_addr lip_str;
  rip ← tst_get_in_addr rip_str;
  lb ← get_ipv4_broadcast lip (wrap_u 32 lprefix);
  rb ← get_ipv4_broadcast rip (wrap_u 32 rprefix);
  lm ← get_ipv4_netmask (wrap_u 32 lprefix);
  rm ← get_ipv4_netmask (wrap_u 32 rprefix);
  ln ← get_ipv4_network (wrap_s 32 lip) (wrap_u 32 lprefix_round);
  rn ← get_ipv4_network (wrap_s 32 rip) (wrap_u 32 rprefix_round);
  lh ← get_host_from_ip (Some lip_str) ln;
  rh ← get_host_from_ip (Some rip_str) rn;
  un ← get_ipv4_net16_unused rand lip (wrap_u 32 lprefix_round);
  Ok (mkVars (Some lb) (Some rb) lm rm ln rn lh rh un).

Definition get_ipv6_info (lip_str rip_str : cstr) (lprefix rprefix : Z) : M ltp_net_variables :=
  let lprefix_round := round_down_prefix (wrap_u 32 lprefix) true in
  let rprefix_round := round_down_prefix (wrap_u 32 rprefix) true in
  lip ← tst_get_in6_addr lip_str;
  rip ← tst_get_in6_addr rip_str;
  let ln := get_ipv6_network lip (wrap_u 32 lprefix_round) in
  let rn := get_ipv6_network rip (wrap_u 32 rprefix_round) in
  lh ← get_host_from_ip (Some lip_str) ln;
  rh ← get_host_from_ip (Some rip_str) rn;
  un ← get_ipv6_net32_unused rand lip (wrap_u 32 lprefix_round);
  Ok (mkVars None None (get_ipv6_netmask (wrap_u 32 lprefix)) (get_ipv6_netmask (wrap_u 32 rprefix)) ln rn lh rh un).

Definition print_vars (is_ipv6 : bool) (v : ltp_net_variables) : list cstr :=
  if is_ipv6 then
    tst_print_svar "IPV6_LNETMASK" (lnetmask v) ++ tst_print_svar_change "IPV6_RNETMASK" (rnetmask v) ++ tst_print_svar "IPV6_LNETWORK" (lnetwork v) ++
    tst_print_svar "IPV6_RNETWORK" (rnetwork v) ++ tst_print_svar "LHOST_IPV6_HOST" (lhost v) ++ tst_print_svar "RHOST_IPV6_HOST" (rhost v) ++
    tst_print_svar "IPV6_NET32_UNUSED" (net_unused v)
  else
    tst_print_svar "IPV4_LBROADCAST" (lbroadcast v) ++ tst_print_svar_change "IPV4_RBROADCAST" (rbroadcast v) ++ tst_print_svar "IPV4_LNETMASK" (lnetmask v) ++
    tst_print_svar_change "IPV4_RNETMASK" (rnetmask v) ++ tst_print_svar "IPV4_LNETWORK" (lnetwork v) ++ tst_print_svar "IPV4_RNETWORK" (rnetwork v) ++
    tst_print_svar "LHOST_IPV4_HOST" (lhost v) ++ tst_print_svar "RHOST_IPV4_HOST" (rhost v) ++ tst_print_svar "IPV4_NET16_UNUSED" (net_unused v).

(** [check_prefix_range] only warns. *)
Definition net_vars_main (args : list cstr) : M (list cstr) :=
  match args with
  | lip_str :: rip_str :: _ =>
      if is_help args then Err (Exit 0)
      else
        let is_ipv6 := bool_decide (strchr lip_str ":"%ch <> None) in
        '(lprefix, lip_str) ← tst_get_prefix lip_str is_ipv6;
        '(rprefix, rip_str) ← tst_get_prefix rip_str is_ipv6;
        _ ← (if is_ipv6 then _ ← tst_get_in6_addr lip_str; Ok tt else _ ← tst_get_in_addr lip_str; Ok tt);
        let tmp := bool_decide (strchr rip_str ":"%ch <> None) in
        _ ← (if tmp then _ ← tst_get_in6_addr rip_str; Ok tt else _ ← tst_get_in_addr rip_str; Ok tt);
        if negb (eqb is_ipv6 tmp) then Err Broken
        else if streq lip_str rip_str then Err Broken
        else
          v ← (if is_ipv6 then get_ipv6_info lip_str rip_str lprefix rprefix else get_ipv4_info lip_str rip_str lprefix rprefix);
          Ok (print_vars is_ipv6 v)
  | _ => Err (Exit (if is_help args then 0 else 1))
  end.
End Program.

(** ** Examples *)
Definition show (args : list string) : M (list cstr) := net_vars_main (fun _ => 0) (str <$> args).
Definition exports (name val : string) (l : list cstr) : bool := existsb (streq (str "export " ++ str name ++ str "=" ++ [DQUOTE] ++ str val ++ [DQUOTE])) l.

Example vars_24 : match show ["10.0.0.2/24"; "10.0.0.1/24"]%string with
  | Ok l => exports "IPV4_LNETWORK" "10.0.0" l = true /\ exports "LHOST_IPV4_HOST" "2" l = true /\ exports "IPV4_NET16_UNUSED" "10.23" l = true | _ => False end.
Proof. vm_compute. done. Qed.
Example vars_6 : match show ["fd00:1:1:1::2/64"; "fd00:1:1:1::1/64"]%string with
  | Ok l => exports "IPV6_LNETWORK" "fd00:1:1:1" l = true /\ exports "LHOST_IPV6_HOST" ":2" l = true /\ exports "IPV6_LNETMASK" "ffff:ffff:ffff:ffff::" l = true | _ => False end.
Proof. vm_compute. done. Qed.
(** The network of a prefix of 16 bits consists of the second and third byte. *)
Example vars_16 : match show ["10.23.4.5/16"; "10.23.4.6/16"]%string with Ok l => exports "IPV4_LNETWORK" "23.4" l = true | _ => False end.
Proof. vm_compute. done. Qed.
(** There the program can also end in a failed assertion. *)
Example vars_abort : show ["12.12.1.5/16"; "12.12.1.6/16"]%string = Err Aborted.
Proof. vm_compute. done. Qed.
(** Without a prefix, as the usage allows, and for a short one. *)
Example vars_no_prefix : show ["10.0.0.2"; "10.0.0.1"]%string = Fault.
Proof. vm_compute. done. Qed.
Example vars_7 : show ["10.0.0.2/7"; "10.0.0.1/7"]%string = Fault.
Proof. vm_compute. done. Qed.
(** [inet_ntop] does not shorten a single zero, [get_ipv6_network] does: the host
    part is not found. *)
Example vars_single_zero : inet_ntop6 <$> inet_pton6 (str "fd00:1:0:1:2:3:4:5") = Some (str "fd00:1:0:1:2:3:4:5") /\
  match show ["fd00:1:0:1:2:3:4:5/64"; "fd00:1:0:1:2:3:4:6/64"]%string with Ok l => exports "IPV6_LNETWORK" "fd00:1::1" l = true /\ length l = 5%nat | _ => False end.
Proof. vm_compute. done. Qed.

(** A network of 16 bits is said to be unused although the host is in it. *)
Example vars_unused : match show ["10.23.4.5/24"; "10.23.4.6/24"]%string with Ok l => exports "IPV4_NET16_UNUSED" "10.23" l = true | _ => False end.
Proof. vm_compute. done. Qed.

(** ** IPv4 *)
Definition byte (b : Z) : Prop := 0 <= b < 256.

Lemma testbit_step a x n : byte a -> 0 <= x -> 0 <= n -> Z.testbit (a + 256 * x) n = if n <? 8 then Z.testbit a n else Z.testbit x (n - 8).
Proof.
  intros Ha Hx Hn. unfold byte in Ha. assert (Em : (a + 256 * x) mod 2 ^ 8 = a) by (change (2 ^ 8) with 256; Z.to_euclidean_division_equations; lia).
  assert (Ed : (a + 256 * x) / 2 ^ 8 = x) by (change (2 ^ 8) with 256; Z.to_euclidean_division_equations; lia). destruct (Z.ltb_spec n 8).
  - rewrite <-Em at 2. symmetry. by apply Z.mod_pow2_bits_low.
  - rewrite <-Ed at 2. rewrite Z.div_pow2_bits by lia. f_equal. lia.
Qed.
Lemma addr_steps a b c d : addr_of [a; b; c; d] = a + 256 * (b + 256 * (c + 256 * d)).
Proof. cbn. lia. Qed.
Lemma land_byte a b : byte a -> byte b -> byte (Z.land a b).
Proof.
  unfold byte. intros Ha Hb. assert (0 <= Z.land a b) by (apply Z.land_nonneg; lia). split; [done|]. destruct (Z.eq_dec (Z.land a b) 0) as [->|Hne]; [done|].
  change 256 with (2 ^ 8). apply Z.log2_lt_pow2; [lia|]. pose proof (Z.log2_land a b ltac:(lia) ltac:(lia)). pose proof (Z.log2_le_mono a 255 ltac:(lia)). change (Z.log2 255) with 7 in *. lia.
Qed.
Lemma land_step a b x y : byte a -> byte b -> 0 <= x -> 0 <= y -> Z.land (a + 256 * x) (b + 256 * y) = Z.land a b + 256 * Z.land x y.
Proof.
  intros Ha Hb Hx Hy. apply Z.bits_inj'. intros n Hn. rewrite Z.land_spec, !testbit_step; try done; [|by apply land_byte|apply Z.land_nonneg; lia].
  destruct (n <? 8); by rewrite Z.land_spec.
Qed.
Lemma addr_land a b c d a' b' c' d' : byte a -> byte b -> byte c -> byte d -> byte a' -> byte b' -> byte c' -> byte d' ->
  Z.land (addr_of [a; b; c; d]) (addr_of [a'; b'; c'; d']) = addr_of [Z.land a a'; Z.land b b'; Z.land c c'; Z.land d d'].
Proof. intros. rewrite !addr_steps, !land_step; unfold byte in *; try lia; done. Qed.

Lemma htonl_land x y : 0 <= x < 2 ^ 32 -> 0 <= y < 2 ^ 32 -> htonl (Z.land x y) = Z.land (htonl x) (htonl y).
Proof.
  intros Hx Hy. destruct (addr_split x Hx) as (a & b & c & d & -> & ? & ? & ? & ?), (addr_split y Hy) as (a' & b' & c' & d' & -> & ? & ? & ? & ?).
  rewrite addr_land, !htonl_addr, addr_land; try done; by apply land_byte.
Qed.
Lemma htonl_lnot x : 0 <= x < 2 ^ 32 -> htonl (wrap_u 32 (Z.lnot x)) = wrap_u 32 (Z.lnot (htonl x)).
Proof.
  intros Hx. destruct (addr_split x Hx) as (a & b & c & d & -> & ? & ? & ? & ?). unfold wrap_u, Z.lnot.
  assert (E : forall a b c d, byte a -> byte b -> byte c -> byte d -> Z.pred (- addr_of [a; b; c; d]) mod 2 ^ 32 = addr_of [255 - a; 255 - b; 255 - c; 255 - d]).
  { intros a0 b0 c0 d0 A B C D. unfold byte, addr_of in *. symmetry. apply (Z.mod_unique_pos _ _ (-1)); lia. }
  rewrite E, !htonl_addr, E; unfold byte; try lia; done.
Qed.
Lemma land_range x y : 0 <= x < 2 ^ 32 -> 0 <= y < 2 ^ 32 -> 0 <= Z.land x y < 2 ^ 32.
Proof.
  intros Hx Hy. assert (0 <= Z.land x y) by (apply Z.land_nonneg; lia). split; [done|]. destruct (Z.eq_dec (Z.land x y) 0) as [->|]; [done|]. apply Z.log2_lt_pow2; [lia|].
  pose proof (Z.log2_land x y ltac:(lia) ltac:(lia)). pose proof (Z.log2_le_mono x (2 ^ 32 - 1) ltac:(lia)). change (Z.log2 (2 ^ 32 - 1)) with 31 in *. lia.
Qed.

(** The mask with [h] bits for hosts, as a number. *)
Definition host_mask (h : Z) : Z := 2 ^ 32 - 2 ^ h.
Lemma host_mask_range h : 0 <= h <= 32 -> 0 <= host_mask h < 2 ^ 32.
Proof. intros H. unfold host_mask. pose proof (Z.pow_le_mono_r 2 h 32 ltac:(lia) ltac:(lia)). pose proof (Z.pow_pos_nonneg 2 h ltac:(lia) ltac:(lia)). lia. Qed.
Lemma land_host_mask x h : 0 <= x < 2 ^ 32 -> 0 <= h <= 32 -> Z.land x (host_mask h) = x / 2 ^ h * 2 ^ h.
Proof.
  intros Hx Hh. rewrite <-Z.shiftr_div_pow2, <-Z.shiftl_mul_pow2 by lia. apply Z.bits_inj'. intros n Hn. rewrite Z.land_spec, Z.shiftl_spec by lia.
  assert (E : host_mask h = Z.shiftl (Z.ones (32 - h)) h).
  { unfold host_mask. rewrite Z.shiftl_mul_pow2, Z.ones_equiv by lia. replace 32 with (h + (32 - h)) at 1 by lia. rewrite Z.pow_add_r by lia. lia. }
  rewrite E, Z.shiftl_spec by lia. destruct (Z.ltb_spec n h) as [H|H]; [rewrite !(Z.testbit_neg_r _ (n - h)) by lia; by rewrite andb_false_r|].
  rewrite Z.shiftr_spec by lia. replace (n - h + h) with n by lia. rewrite Z.testbit_ones by lia. destruct (Z.ltb_spec n 32) as [H32|H32].
  - rewrite (proj2 (Z.leb_le _ _)), (proj2 (Z.ltb_lt _ _)) by lia. by rewrite andb_true_r.
  - rewrite (Z.bits_above_log2 x n); [done|lia|]. destruct (Z.eq_dec x 0) as [->|]; [cbn; lia|]. apply Z.log2_lt_pow2; [lia|]. pose proof (Z.pow_le_mono_r 2 32 n ltac:(lia) H32). lia.
Qed.

Lemma prefix2mask_ok p : p = 0 \/ 2 <= p <= 32 -> prefix2mask p = Ok (htonl (host_mask (32 - p))).
Proof.
  intros Hp. unfold prefix2mask. destruct Hp as [->|Hp]; [done|]. rewrite (proj2 (Z.eqb_neq _ _)) by lia. unfold wrap_u. rewrite (Z.mod_small (32 - p)) by lia.
  rewrite (proj2 (Z.ltb_lt _ _)) by lia. do 2 f_equal. unfold Z.lnot, host_mask. pose proof (Z.pow_le_mono_r 2 (32 - p) 30 ltac:(lia) ltac:(lia)). pose proof (Z.pow_pos_nonneg 2 (32 - p) ltac:(lia) ltac:(lia)).
  symmetry. apply (Z.mod_unique_pos _ _ (-1)); lia.
Qed.

Lemma lor_byte a b : byte a -> byte b -> byte (Z.lor a b).
Proof.
  unfold byte. intros Ha Hb. split; [apply Z.lor_nonneg; lia|]. destruct (Z.eq_dec (Z.lor a b) 0) as [->|Hne]; [done|]. change 256 with (2 ^ 8).
  apply Z.log2_lt_pow2; [assert (0 <= Z.lor a b) by (apply Z.lor_nonneg; lia); lia|]. rewrite Z.log2_lor by lia. pose proof (Z.log2_le_mono a 255 ltac:(lia)). pose proof (Z.log2_le_mono b 255 ltac:(lia)).
  change (Z.log2 255) with 7 in *. lia.
Qed.
Lemma lor_step a b x y : byte a -> byte b -> 0 <= x -> 0 <= y -> Z.lor (a + 256 * x) (b + 256 * y) = Z.lor a b + 256 * Z.lor x y.
Proof.
  intros Ha Hb Hx Hy. apply Z.bits_inj'. intros n Hn. rewrite Z.lor_spec, !testbit_step; try done; [|by apply lor_byte|apply Z.lor_nonneg; lia].
  destruct (n <? 8); by rewrite Z.lor_spec.
Qed.
Lemma addr_lor a b c d a' b' c' d' : byte a -> byte b -> byte c -> byte d -> byte a' -> byte b' -> byte c' -> byte d' ->
  Z.lor (addr_of [a; b; c; d]) (addr_of [a'; b'; c'; d']) = addr_of [Z.lor a a'; Z.lor b b'; Z.lor c c'; Z.lor d d'].
Proof. intros. rewrite !addr_steps, !lor_step; unfold byte in *; try lia; done. Qed.
Lemma htonl_lor x y : 0 <= x < 2 ^ 32 -> 0 <= y < 2 ^ 32 -> htonl (Z.lor x y) = Z.lor (htonl x) (htonl y).
Proof.
  intros Hx Hy. destruct (addr_split x Hx) as (a & b & c & d & -> & ? & ? & ? & ?), (addr_split y Hy) as (a' & b' & c' & d' & -> & ? & ? & ? & ?).
  rewrite addr_lor, !htonl_addr, addr_lor; try done; by apply lor_byte.
Qed.
Lemma lor_u32 x y : 0 <= x < 2 ^ 32 -> 0 <= y < 2 ^ 32 -> 0 <= Z.lor x y < 2 ^ 32.
Proof.
  intros Hx Hy. destruct (addr_split x Hx) as (a & b & c & d & -> & ? & ? & ? & ?), (addr_split y Hy) as (a' & b' & c' & d' & -> & ? & ? & ? & ?). rewrite addr_lor by done.
  pose proof (lor_byte a a'). pose proof (lor_byte b b'). pose proof (lor_byte c c'). pose proof (lor_byte d d'). unfold byte, addr_of in *. intuition lia.
Qed.

(** The network bits and all host bits. *)
Lemma lor_hosts x h : 0 <= x < 2 ^ 32 -> 0 <= h <= 32 -> Z.lor (Z.land x (host_mask h)) (2 ^ h - 1) = x / 2 ^ h * 2 ^ h + (2 ^ h - 1).
Proof.
  intros Hx Hh. rewrite land_host_mask by done. pose proof (Z.add_lor_land (x / 2 ^ h * 2 ^ h) (2 ^ h - 1)) as H.
  assert (E : Z.land (x / 2 ^ h * 2 ^ h) (2 ^ h - 1) = 0); [|lia]. replace (2 ^ h - 1) with (Z.ones h) by (rewrite Z.ones_equiv; lia). rewrite Z.land_ones by lia. apply Z.mod_mul. pose proof (Z.pow_pos_nonneg 2 h). lia.
Qed.

Lemma count_host_mask p : 0 <= p <= 32 -> tst_bit_count (host_mask (32 - p)) = p.
Proof.
  intros Hp. assert (H : forallb (fun p => tst_bit_count (host_mask (32 - p)) =? p) (map Z.of_nat (seq 0 33)) = true) by (vm_compute; reflexivity).
  rewrite forallb_forall in H. apply Z.eqb_eq, H, in_map_iff. exists (Z.to_nat p). rewrite in_seq. lia.
Qed.

Lemma broadcast_ok ip p : 0 <= ip < 2 ^ 32 -> p = 0 \/ 2 <= p <= 32 -> let h := 32 - p in
  exists b, get_ipv4_broadcast ip p = Ok (inet_ntop4 b) /\ 0 <= b < 2 ^ 32 /\ ntohl b = ntohl ip / 2 ^ h * 2 ^ h + (2 ^ h - 1).
Proof.
  intros Hip Hp h. assert (Hh : 0 <= h <= 32) by (unfold h; lia). pose proof (host_mask_range h Hh) as Hm. unfold get_ipv4_broadcast. rewrite prefix2mask_ok by done. fold h. cbn [mbind res_bind].
  set (m := htonl (host_mask h)). assert (Rm : 0 <= m < 2 ^ 32) by apply htonl_range. assert (Rn : 0 <= wrap_u 32 (Z.lnot m) < 2 ^ 32) by (apply Z.mod_pos_bound; lia).
  eexists. split; [done|]. split; [apply lor_u32; [by apply land_range|done]|]. rewrite htonl_lor, htonl_land, htonl_lnot by (done || by apply land_range).
  unfold m. rewrite htonl_htonl by done. rewrite <-lor_hosts by (done || apply htonl_range). f_equal. unfold wrap_u, Z.lnot, host_mask. symmetry.
  pose proof (Z.pow_le_mono_r 2 h 32 ltac:(lia) ltac:(lia)). pose proof (Z.pow_pos_nonneg 2 h ltac:(lia) ltac:(lia)). apply (Z.mod_unique_pos _ _ (-1)); lia.
Qed.

Lemma netmask_ok p : p = 0 \/ 2 <= p <= 32 -> get_ipv4_netmask p = Ok (Some (inet_ntop4 (htonl (host_mask (32 - p))))).
Proof. intros Hp. unfold get_ipv4_netmask. rewrite prefix2mask_ok by done. cbn. by rewrite (proj2 (Z.ltb_ge _ _)) by (unfold MAX_IPV4_PREFIX; lia). Qed.

(** The text of the mask is read as the prefix. *)
Lemma netmask_prefix p : 0 <= p <= 32 -> tst_ipv4_mask_to_int (inet_ntop4 (htonl (host_mask (32 - p)))) = p.
Proof. intros Hp. pose proof (host_mask_range (32 - p) ltac:(lia)). rewrite (proj2 (dotted_mask _ (htonl_range _))), htonl_htonl by done. by apply count_host_mask. Qed.

(** *** The network in text *)
Lemma shift_byte a x : byte a -> 0 <= x -> Z.land (Z.shiftr (a + 256 * x) 8) 255 = Z.land x 255.
Proof. intros Ha Hx. unfold byte in Ha. rewrite Z.shiftr_div_pow2 by lia. f_equal. change (2 ^ 8) with 256. Z.to_euclidean_division_equations; lia. Qed.
Lemma low_byte a x : byte a -> Z.land (a + 256 * x) 255 = a.
Proof. intros Ha. unfold byte in Ha. change 255 with (Z.ones 8). rewrite Z.land_ones by lia. change (2 ^ 8) with 256. Z.to_euclidean_division_equations; lia. Qed.

(** For 24 bits the first three bytes; for 16 and 8 bits the bytes before the
    last one, which are not the network. *)
Lemma network_ok a b c d : byte a -> byte b -> byte c -> byte d -> let ip := addr_of [a; b; c; d] in
  get_ipv4_network (wrap_s 32 ip) 24 = Ok (Some (dec a ++ str "." ++ dec b ++ str "." ++ dec c)) /\
  get_ipv4_network (wrap_s 32 ip) 16 = Ok (Some (dec b ++ str "." ++ dec c)) /\ get_ipv4_network (wrap_s 32 ip) 8 = Ok (Some (dec c)).
Proof.
  intros Ha Hb Hc Hd ip. assert (Hip : 0 <= ip < 2 ^ 32) by (unfold ip, byte, addr_of in *; lia). assert (Ew : wrap_u 32 (wrap_s 32 ip) = ip).
  { unfold wrap_u, wrap_s. rewrite Zminus_mod, Zmod_mod, <-Zminus_mod. replace (ip + 2 ^ (32 - 1) - 2 ^ (32 - 1)) with ip by lia. by apply Z.mod_small. }
  assert (Esh : forall i, 0 <= i <= 24 -> Z.land (Z.shiftr (wrap_s 32 (htonl ip)) i) 255 = Z.land (Z.shiftr (htonl ip) i) 255).
  { intros i Hi. apply Z.bits_inj'. intros n Hn. rewrite !Z.land_spec, !Z.shiftr_spec by lia. change 255 with (Z.ones 8). rewrite Z.testbit_ones by lia. destruct (Z.ltb_spec n 8); [|by rewrite !andb_false_r].
    f_equal. rewrite <-(Z.mod_pow2_bits_low (wrap_s 32 _) 32), <-(Z.mod_pow2_bits_low (htonl ip) 32) by lia. f_equal. unfold wrap_s. rewrite Zminus_mod, Zmod_mod, <-Zminus_mod. f_equal. lia. }
  unfold get_ipv4_network. rewrite Ew. assert (E : htonl ip = d + 256 * (c + 256 * (b + 256 * a))) by (unfold ip; rewrite htonl_addr by done; apply addr_steps).
  assert (B8 : Z.land (Z.shiftr (htonl ip) 8) 255 = c) by (rewrite E, shift_byte by (unfold byte in *; lia); by apply low_byte).
  assert (Es : forall i x, 0 <= i -> Z.shiftr x (8 + i) = Z.shiftr (Z.shiftr x 8) i) by (intros; rewrite Z.shiftr_shiftr by lia; done).
  assert (S8 : forall x y, byte x -> 0 <= y -> Z.shiftr (x + 256 * y) 8 = y) by (intros x y Hx Hy; unfold byte in Hx; rewrite Z.shiftr_div_pow2 by lia; change (2 ^ 8) with 256; Z.to_euclidean_division_equations; lia).
  assert (B16 : Z.land (Z.shiftr (htonl ip) 16) 255 = b) by (rewrite E, (Es 8), !S8 by (unfold byte in *; lia); by apply low_byte).
  assert (B24 : Z.land (Z.shiftr (htonl ip) 24) 255 = a).
  { rewrite E, (Es 16), (Es 8), !S8 by (unfold byte in *; lia). rewrite <-(Z.add_0_r a) at 1. apply (low_byte a 0 Ha). }
  set (x := wrap_s 32 (htonl ip)) in *. assert (P8 : Z.land (Z.shiftr x 8) 255 = c) by by rewrite Esh. assert (P16 : Z.land (Z.shiftr x 16) 255 = b) by by rewrite Esh.
  assert (P24 : Z.land (Z.shiftr x 24) 255 = a) by by rewrite Esh. clearbody x. split_and!.
  - change (Ok (Some (dec (Z.land (Z.shiftr x 24) 255) ++ str "." ++ dec (Z.land (Z.shiftr x 16) 255) ++ str "." ++ dec (Z.land (Z.shiftr x 8) 255) ++ [])) = (Ok (Some (dec a ++ str "." ++ dec b ++ str "." ++ dec c)) : M (option cstr))).
    by rewrite P24, P16, P8, app_nil_r.
  - change (Ok (Some (dec (Z.land (Z.shiftr x 16) 255) ++ str "." ++ dec (Z.land (Z.shiftr x 8) 255) ++ [])) = (Ok (Some (dec b ++ str "." ++ dec c)) : M (option cstr))). by rewrite P16, P8, app_nil_r.
  - change (Ok (Some (dec (Z.land (Z.shiftr x 8) 255) ++ [])) = (Ok (Some (dec c)) : M (option cstr))). by rewrite P8, app_nil_r.
Qed.

(** *** A network that is not in use *)
Lemma two4_addr x y : byte x -> byte y -> tst_get_in_addr (two4 x y ++ str ".0.0") = Ok (addr_of [x; y; 0; 0]).
Proof.
  intros Hx Hy. unfold tst_get_in_addr, two4. replace ((dec x ++ str "." ++ dec y) ++ str ".0.0") with (dec x ++ str "." ++ dec y ++ str "." ++ dec 0 ++ str "." ++ dec 0) by by rewrite <-!app_assoc.
  by rewrite pton4_dotted by (done || lia).
Qed.

Lemma subnet_spec net ip h : 0 <= net < 2 ^ 32 -> 0 <= ip < 2 ^ 32 -> 0 <= h <= 32 ->
  is_in_subnet_ipv4 net (htonl (host_mask h)) ip = true <-> ntohl ip / 2 ^ h = ntohl net / 2 ^ h.
Proof.
  intros Hn Hi Hh. pose proof (host_mask_range h Hh) as Hm. pose proof (htonl_range (host_mask h)) as Hm'. pose proof (Z.pow_pos_nonneg 2 h ltac:(lia) ltac:(lia)) as Hpos.
  unfold is_in_subnet_ipv4. rewrite Z.eqb_eq. transitivity (htonl (Z.land ip (htonl (host_mask h))) = htonl (Z.land net (htonl (host_mask h)))).
  - split; [by intros ->|]. intros E. rewrite <-(htonl_htonl (Z.land ip _)), E, htonl_htonl by by apply land_range. done.
  - rewrite !htonl_land, !htonl_htonl, !land_host_mask by (done || apply htonl_range). rewrite Z.mul_cancel_r by lia. done.
Qed.

(** The first byte is part of every network with a prefix of 8 bits or more. *)
Lemma first_byte a b c d x y h : byte a -> byte b -> byte c -> byte d -> byte x -> byte y -> 0 <= h <= 24 ->
  ntohl (addr_of [x; y; 0; 0]) / 2 ^ h = ntohl (addr_of [a; b; c; d]) / 2 ^ h -> x = a.
Proof.
  intros Ha Hb Hc Hd Hx Hy Hh E. rewrite !htonl_addr in E by (done || lia). apply (f_equal (fun z => z / 2 ^ (24 - h))) in E. pose proof (Z.pow_pos_nonneg 2 h ltac:(lia) ltac:(lia)).
  rewrite !Z.div_div, <-!Z.pow_add_r in E by (try apply Z.pow_pos_nonneg; lia). replace (h + (24 - h)) with 24 in E by lia. unfold addr_of, byte in *. change (2 ^ 24) with 16777216 in E. Z.to_euclidean_division_equations; lia.
Qed.

(** The choice between two halves avoids [a]. *)
Lemma other_half r a : byte a -> byte (r mod 128 + if a <? 128 then 128 else 0) /\ r mod 128 + (if a <? 128 then 128 else 0) <> a.
Proof. intros Ha. unfold byte in *. pose proof (Z.mod_pos_bound r 128 ltac:(lia)). destruct (Z.ltb_spec a 128); lia. Qed.

Lemma unused4_ok rand a b c d p : byte a -> byte b -> byte c -> byte d -> 8 <= p <= 32 -> let ip := addr_of [a; b; c; d] in
  exists x y, byte x /\ byte y /\ get_ipv4_net16_unused rand ip p = Ok (Some (two4 x y)) /\ ntohl (addr_of [x; y; 0; 0]) / 2 ^ (32 - p) <> ntohl ip / 2 ^ (32 - p).
Proof.
  intros Ha Hb Hc Hd Hp ip. assert (Hip : 0 <= ip < 2 ^ 32) by (unfold ip, byte, addr_of in *; lia).
  assert (E0 : Z.land ip 255 = a) by (unfold ip; rewrite addr_steps; by apply low_byte). assert (E1 : Z.land (Z.shiftr ip 8) 255 = b).
  { unfold ip. rewrite addr_steps, shift_byte by (unfold byte in *; lia). by apply low_byte. }
  unfold get_ipv4_net16_unused. rewrite prefix2mask_ok by lia. cbn [mbind res_bind]. rewrite E0, E1. pose proof (other_half (rand 0%nat) b Hb) as [Hy _]. pose proof (other_half (rand 1%nat) a Ha) as [Hx Hxa].
  set (y := rand 0%nat mod 128 + _) in *. set (x := rand 1%nat mod 128 + _) in *. unfold DEFAULT_IPV4_UNUSED_PART1, DEFAULT_IPV4_UNUSED_PART2. rewrite !two4_addr by (done || (unfold byte; lia)). cbn [mbind res_bind].
  assert (Hin : forall x y, byte x -> byte y -> is_in_subnet_ipv4 ip (htonl (host_mask (32 - p))) (addr_of [x; y; 0; 0]) = false -> ntohl (addr_of [x; y; 0; 0]) / 2 ^ (32 - p) <> ntohl ip / 2 ^ (32 - p)).
  { intros u v Hu Hv Hf E. apply (subnet_spec ip (addr_of [u; v; 0; 0]) (32 - p)) in E; [congruence|done|unfold byte, addr_of in *; lia|lia]. }
  destruct (is_in_subnet_ipv4 ip _ (addr_of [10; 23; 0; 0])) eqn:S1; cbn [negb]; [|exists 10, 23; split_and!; [unfold byte; lia..|done|apply Hin; [unfold byte; lia..|done]]].
  destruct (is_in_subnet_ipv4 ip _ (addr_of [10; y; 0; 0])) eqn:S2; cbn [negb]; [|exists 10, y; split_and!; [unfold byte; lia|done|done|apply Hin; [unfold byte; lia|done|done]]].
  destruct (is_in_subnet_ipv4 ip _ (addr_of [x; 23; 0; 0])) eqn:S3; cbn [negb]; [|exists x, 23; split_and!; [done|unfold byte; lia|done|apply Hin; [done|unfold byte; lia|done]]].
  exfalso. apply subnet_spec in S3; [|done|unfold byte, addr_of in *; lia|lia]. apply Hxa. apply (first_byte a b c d x 23 (32 - p)); try done; unfold byte; lia.
Qed.

(** ** IPv6 *)

(** The bits of an address from the first one on, and equality of the first [p]. *)
Definition addr_bit (a : list Z) (n : nat) : bool := Z.testbit (nth (n / 8) a 0) (7 - Z.of_nat (n mod 8)).
Definition same_net (p : Z) (a b : list Z) : Prop := forall n, Z.of_nat n < p -> addr_bit a n = addr_bit b n.
Definition addr6 (a : list Z) : Prop := length a = 16%nat /\ Forall byte a.

Definition mask_byte (i : Z) : Z := if 0 <? i then if 8 <=? i then 255 else 255 * 2 ^ (8 - i) mod 256 else 0.
Lemma mask6_lookup n : forall i j, (j < n)%nat -> mask6_loop n i !! j = Some (mask_byte (i - 8 * Z.of_nat j)).
Proof.
  induction n as [|n IH]; intros i j Hj; [lia|]. destruct j as [|j]; cbn [mask6_loop lookup list_lookup]; [by replace (i - 8 * Z.of_nat 0) with i by lia|].
  rewrite IH by lia. do 2 f_equal. lia.
Qed.
Lemma mask6_length n : forall i, length (mask6_loop n i) = n.
Proof. induction n as [|n IH]; intros i; cbn; [done|by rewrite IH]. Qed.
Lemma mask_byte_bit i t : 0 <= t < 8 -> Z.testbit (mask_byte i) (7 - t) = (t <? i).
Proof.
  intros Ht. unfold mask_byte. assert (Hc : t = 0 \/ t = 1 \/ t = 2 \/ t = 3 \/ t = 4 \/ t = 5 \/ t = 6 \/ t = 7) by lia.
  destruct (Z.ltb_spec 0 i) as [H0|H0]; [|rewrite (proj2 (Z.ltb_ge _ _)) by lia; apply Z.testbit_0_l]. destruct (Z.leb_spec 8 i) as [H8|H8].
  - rewrite (proj2 (Z.ltb_lt _ _)) by lia. by repeat (destruct Hc as [-> |Hc]; [done|]); subst t.
  - assert (Hi : i = 1 \/ i = 2 \/ i = 3 \/ i = 4 \/ i = 5 \/ i = 6 \/ i = 7) by lia.
    repeat (destruct Hi as [-> |Hi]); try subst i; repeat (destruct Hc as [-> |Hc]); try subst t; reflexivity.
Qed.
Lemma mask_byte_range i : byte (mask_byte i).
Proof. unfold mask_byte, byte. destruct (0 <? i), (8 <=? i); try lia. apply Z.mod_pos_bound. lia. Qed.
Lemma byte_high x n : byte x -> 8 <= n -> Z.testbit x n = false.
Proof.
  intros Hx Hn. unfold byte in Hx. destruct (Z.eq_dec x 0) as [->|]; [apply Z.testbit_0_l|]. apply Z.bits_above_log2; [lia|]. pose proof (Z.log2_le_mono x 255 ltac:(lia)).
  change (Z.log2 255) with 7 in *. lia.
Qed.

Lemma land_mask_byte x y i : byte x -> byte y -> Z.land x (mask_byte i) = Z.land y (mask_byte i) <-> (forall t, 0 <= t < 8 -> t < i -> Z.testbit x (7 - t) = Z.testbit y (7 - t)).
Proof.
  intros Hx Hy. split.
  - intros E t Ht Hi. pose proof (f_equal (fun z => Z.testbit z (7 - t)) E) as E'. cbv beta in E'. rewrite !Z.land_spec, mask_byte_bit, (proj2 (Z.ltb_lt _ _) Hi), !andb_true_r in E' by done. done.
  - intros H. apply Z.bits_inj'. intros n Hn. rewrite !Z.land_spec. destruct (Z.ltb_spec n 8) as [H8|H8]; [|by rewrite (byte_high _ n (mask_byte_range i) H8), !andb_false_r].
    replace n with (7 - (7 - n)) by lia. rewrite mask_byte_bit by lia. destruct (Z.ltb_spec (7 - n) i); [|by rewrite !andb_false_r]. by rewrite H by lia.
Qed.

Lemma chunks_eq (a b : list Z) : length a = 16%nat -> length b = 16%nat -> (forall i, (i < 4)%nat -> take 4 (drop (4 * i) a) = take 4 (drop (4 * i) b)) -> a = b.
Proof.
  intros La Lb H. assert (Hsplit : forall l : list Z, length l = 16%nat -> l = take 4 (drop (4 * 0) l) ++ take 4 (drop (4 * 1) l) ++ take 4 (drop (4 * 2) l) ++ take 4 (drop (4 * 3) l)).
  { intros l Hl. do 16 (destruct l as [|? l]; [done|]). destruct l; [done|done]. }
  rewrite (Hsplit a La), (Hsplit b Lb), !H by lia. done.
Qed.
Lemma subnet6_chunks net mask ip : length net = 16%nat -> length mask = 16%nat -> length ip = 16%nat -> is_in_subnet_ipv6 net mask ip = true <-> and_bytes ip mask = and_bytes net mask.
Proof.
  intros Ln Lm Li. assert (Hlen : forall l, length l = 16%nat -> length (and_bytes l mask) = 16%nat) by (intros l Hl; unfold and_bytes; rewrite length_zip_with_l_eq; lia).
  assert (Ht : forall l k, and_bytes (take 4 (drop k l)) (take 4 (drop k mask)) = take 4 (drop k (and_bytes l mask))) by (intros l k; unfold and_bytes; by rewrite zip_with_drop, zip_with_take).
  unfold is_in_subnet_ipv6. rewrite forallb_forall. split.
  - intros H. apply chunks_eq; [by apply Hlen..|]. intros i Hi. specialize (H i). rewrite in_seq in H. specialize (H ltac:(lia)). apply bool_decide_eq_true in H. by rewrite !Ht in H.
  - intros E i _. apply bool_decide_eq_true. by rewrite !Ht, E.
Qed.

Lemma subnet6_spec net ip p : addr6 net -> addr6 ip -> 0 <= p <= 128 -> is_in_subnet_ipv6 net (mask6 p) ip = true <-> same_net p ip net.
Proof.
  intros [Ln Bn] [Li Bi] Hp. rewrite subnet6_chunks by (done || apply mask6_length).
  assert (Hb : forall l, Forall byte l -> forall j, byte (nth j l 0)) by (intros l Hl j; destruct (nth_in_or_default j l 0) as [Hin| ->]; [by apply list_elem_of_In, (proj1 (Forall_forall _ _) Hl) in Hin|unfold byte; lia]).
  assert (Hz : forall l j, length l = 16%nat -> (j < 16)%nat -> and_bytes l (mask6 p) !! j = Some (Z.land (nth j l 0) (mask_byte (p - 8 * Z.of_nat j)))).
  { intros l j Hl Hj. unfold and_bytes. rewrite lookup_zip_with, (mask6_lookup 16) by done. destruct (lookup_lt_is_Some_2 l j) as [x Hx]; [lia|]. rewrite Hx. cbn. by rewrite (nth_lookup_Some _ _ _ _ Hx). }
  split.
  - intros E n Hn. unfold addr_bit. assert (Hj : (n / 8 < 16)%nat) by (apply Nat.Div0.div_lt_upper_bound; lia). pose proof (Hz ip _ Li Hj) as H1. rewrite E, (Hz net _ Ln Hj) in H1. injection H1 as H1.
    symmetry. pose proof (Nat.div_mod n 8 ltac:(lia)). pose proof (Nat.mod_upper_bound n 8 ltac:(lia)). apply (land_mask_byte _ _ (p - 8 * Z.of_nat (n / 8))); [by apply Hb..|done|lia|lia].
  - intros H. apply list_eq. intros j. destruct (decide (j < 16)%nat) as [Hj|Hj].
    + rewrite !Hz by done. f_equal. apply land_mask_byte; [by apply Hb..|]. intros t Ht Hi. specialize (H (8 * j + Z.to_nat t)%nat ltac:(lia)). unfold addr_bit in H.
      rewrite <-(Nat.div_unique (8 * j + Z.to_nat t) 8 j (Z.to_nat t)), <-(Nat.mod_unique (8 * j + Z.to_nat t) 8 j (Z.to_nat t)) in H by lia. by rewrite Z2Nat.id in H by lia.
    + rewrite !lookup_ge_None_2; [done|..]; unfold and_bytes, mask6; rewrite length_zip_with, mask6_length; lia.
Qed.

Lemma two6_addr y : byte y -> tst_get_in6_addr (two6 (64768 + y) 35 ++ str "::") = Ok ([253; y; 0; 35] ++ replicate 12 0).
Proof.
  intros Hy. assert (H : forallb (fun y => match inet_pton6 (two6 (64768 + y) 35 ++ str "::") with Some a => bool_decide (a = [253; y; 0; 35] ++ replicate 12 0) | None => false end)
    (map Z.of_nat (seq 0 256)) = true) by (vm_compute; reflexivity).
  apply (bytes_forall _) with (b := y) in H; [|done]. unfold tst_get_in6_addr. destruct (inet_pton6 _) as [a|]; [|done]. by apply bool_decide_eq_true in H as ->.
Qed.
Lemma unused_addr6 y : byte y -> addr6 ([253; y; 0; 35] ++ replicate 12 0).
Proof. intros Hy. split; [done|]. unfold byte in *. repeat constructor; lia. Qed.

(** The first two bytes are part of every network with a prefix of 16 bits or more. *)
Lemma second_byte a y p : addr6 a -> byte y -> 16 <= p -> same_net p ([253; y; 0; 35] ++ replicate 12 0) a -> nth 1 a 0 = y.
Proof.
  intros [La Ba] Hy Hp H. assert (Hb : byte (nth 1 a 0)) by (destruct a as [|? [|? a]]; [done|done|]; by inversion Ba as [|? ? _ Ba']; inversion Ba').
  symmetry. apply Z.bits_inj'. intros n Hn. destruct (Z.ltb_spec n 8) as [H8|H8]; [|by rewrite !byte_high].
  specialize (H (15 - Z.to_nat n)%nat ltac:(lia)). unfold addr_bit in H. rewrite <-(Nat.div_unique _ 8 1 (7 - Z.to_nat n)), <-(Nat.mod_unique _ 8 1 (7 - Z.to_nat n)) in H by lia.
  cbn [nth app] in H. replace (7 - Z.of_nat (7 - Z.to_nat n)) with n in H by lia. done.
Qed.

Lemma unused6_ok rand ip6 p : addr6 ip6 -> 16 <= p <= 128 ->
  exists y, byte y /\ get_ipv6_net32_unused rand ip6 p = Ok (Some (two6 (64768 + y) 35)) /\ ~ same_net p ([253; y; 0; 35] ++ replicate 12 0) ip6.
Proof.
  intros H6 Hp. unfold get_ipv6_net32_unused. rewrite (proj2 (Z.ltb_ge _ _)) by lia. assert (Hb : byte (nth 1 ip6 0)).
  { destruct H6 as [L B]. destruct ip6 as [|? [|? ip6]]; [done|done|]. by inversion B as [|? ? _ B']; inversion B'. }
  pose proof (other_half (rand 0%nat) (nth 1 ip6 0) Hb) as [Hy Hne]. set (y := rand 0%nat mod 128 + _) in *.
  change (256 * DEFAULT_IPV6_UNUSED_PART1) with 64768. unfold DEFAULT_IPV6_UNUSED_PART2. rewrite <-Z.add_assoc. fold y. rewrite (two6_addr 0 ltac:(unfold byte; lia) : tst_get_in6_addr (two6 64768 35 ++ str "::") = _). cbn [mbind res_bind].
  assert (Hspec : forall y, byte y -> is_in_subnet_ipv6 ip6 (mask6 p) ([253; y; 0; 35] ++ replicate 12 0) = true <-> same_net p ([253; y; 0; 35] ++ replicate 12 0) ip6).
  { intros z Hz. apply subnet6_spec; [done|by apply unused_addr6|lia]. }
  destruct (is_in_subnet_ipv6 ip6 (mask6 p) ([253; 0; 0; 35] ++ _)) eqn:S1; cbn [negb]; [|exists 0; split_and!; [unfold byte; lia|done|rewrite <-Hspec by (unfold byte; lia); by rewrite S1]].
  rewrite two6_addr by done. cbn [mbind res_bind]. destruct (is_in_subnet_ipv6 ip6 (mask6 p) ([253; y; 0; 35] ++ _)) eqn:S2; cbn [negb]; [|exists y; split_and!; [done|done|rewrite <-Hspec by done; by rewrite S2]].
  exfalso. apply Hspec in S2; [|done]. apply Hne. symmetry. apply (second_byte ip6 y p); [done|done|lia|done].
Qed.

(** *** Groups *)
Definition group (g : Z) : Prop := 0 <= g < 65536.
Definition text (gs : list Z) : cstr := join (hex <$> gs).

Definition nibbles (g : Z) : list Z := [g / 4096 mod 16; g / 256 mod 16; g / 16 mod 16; g mod 16].
Definition nib (d : Z) : Prop := 0 <= d < 16.
Fixpoint value (v : Z) (ds : list Z) : Z := match ds with [] => v | d :: ds => value (v * 16 + d) ds end.

Lemma nibbles_nib g : Forall nib (nibbles g).
Proof. unfold nibbles, nib. repeat (apply Forall_cons; split; [apply Z.mod_pos_bound; lia|]). by apply Forall_nil. Qed.
Lemma nibbles_value g : group g -> value 0 (nibbles g) = g.
Proof. unfold group, nibbles. intros H. cbn [value]. Z.to_euclidean_division_equations; lia. Qed.

Lemma strip_spec ds : ds <> [] -> strip ds <> [] /\ (length (strip ds) <= length ds)%nat /\ value 0 (strip ds) = value 0 ds /\ (forall P : Z -> Prop, Forall P ds -> Forall P (strip ds)) /\
  (value 0 ds <> 0 -> Forall nib ds -> exists d t, strip ds = d :: t /\ d <> 0).
Proof.
  induction ds as [|d ds IH]; [done|]. intros _. destruct ds as [|e ds]; [cbn; split_and!; try done; intros Hv _; exists d, []; split; [done|lia]|].
  destruct (IH ltac:(done)) as (H1 & H2 & H3 & H4 & H5). assert (E : strip (d :: e :: ds) = if d =? 0 then strip (e :: ds) else d :: e :: ds) by done. rewrite E. destruct (Z.eqb_spec d 0) as [->|Hd].
  - split_and!; [done|cbn [length] in *; lia|by rewrite H3|intros P HP; apply H4; by inversion HP|]. intros Hv Hn. apply H5; [done|by inversion Hn].
  - split_and!; try done. intros _ _. by exists d, (e :: ds).
Qed.

Lemma hex_ne g : hex g <> [].
Proof. unfold hex. fold (nibbles g). destruct (strip_spec (nibbles g)) as (H & _); [done|]. by destruct (strip (nibbles g)). Qed.
Lemma hex_length g : (length (hex g) <= 4)%nat.
Proof. unfold hex. fold (nibbles g). rewrite length_map. by destruct (strip_spec (nibbles g)) as (_ & H & _). Qed.
Lemma hexdigit_reads d : nib d -> hex_digit_value (hexdigit d) = Some d /\ (hexdigit d =? ":"%ch) = false /\ (hexdigit d = "0"%ch -> d = 0).
Proof.
  unfold nib. intros Hd. assert (Hc : d = 0 \/ d = 1 \/ d = 2 \/ d = 3 \/ d = 4 \/ d = 5 \/ d = 6 \/ d = 7 \/ d = 8 \/ d = 9 \/ d = 10 \/ d = 11 \/ d = 12 \/ d = 13 \/ d = 14 \/ d = 15) by lia.
  repeat (destruct Hc as [-> |Hc]); try subst d; split_and!; by try done.
Qed.
Lemma hex_no_colon g : forallb (fun c => negb (c =? ":"%ch)) (hex g) = true.
Proof.
  unfold hex. fold (nibbles g). destruct (strip_spec (nibbles g)) as (_ & _ & _ & H & _); [done|]. specialize (H nib (nibbles_nib g)).
  induction H as [|d ds Hd _ IH]; [done|]. cbn. destruct (hexdigit_reads d Hd) as (_ & -> & _). done.
Qed.
Lemma hex_0 : hex 0 = str "0".
Proof. done. Qed.
Lemma hex_first g t : group g -> g <> 0 -> prefix_len zero_or_colon (hex g ++ t) = 0%nat.
Proof.
  intros Hg Hne. unfold hex. fold (nibbles g). destruct (strip_spec (nibbles g)) as (_ & _ & Hv & Hn & H); [done|]. rewrite nibbles_value in H by done.
  destruct (H Hne (nibbles_nib g)) as (d & ds & E & Hd). specialize (Hn nib (nibbles_nib g)). rewrite E in *. inversion Hn as [|? ? Hd' _]; subst. cbn. unfold zero_or_colon.
  destruct (hexdigit_reads d Hd') as (_ & -> & H0). cbn. destruct (Z.eqb_spec (hexdigit d) "0"%ch) as [E'|]; [by destruct Hd, H0|done].
Qed.

(** Reading the digits of a group. *)
Lemma loop_digits ds : forall rest cur tmp col x v, Forall nib ds -> (x + length ds <= 4)%nat -> 0 <= v < 16 ^ Z.of_nat x ->
  pton6_loop (map hexdigit ds ++ rest) cur tmp col x v = pton6_loop rest cur tmp col (x + length ds) (value v ds).
Proof.
  induction ds as [|d ds IH]; intros rest cur tmp col x v Hn Hx Hv; [cbn; by rewrite Nat.add_0_r|]. inversion Hn as [|? ? Hd Hn']; subst. cbn [map app pton6_loop length value] in *.
  destruct (hexdigit_reads d Hd) as (-> & _ & _). rewrite (proj2 (Nat.eqb_neq x 4)) by lia. unfold nib in Hd. assert (Hb : 16 ^ Z.of_nat (S x) <= 65536).
  { change 65536 with (16 ^ 4). apply Z.pow_le_mono_r; lia. }
  rewrite Nat2Z.inj_succ, Z.pow_succ_r in Hb by lia. rewrite (proj2 (Z.ltb_ge _ _)) by lia. rewrite IH; [by replace (x + S (length ds))%nat with (S x + length ds)%nat by lia|done|lia|].
  rewrite Nat2Z.inj_succ, Z.pow_succ_r by lia. lia.
Qed.
Lemma loop_hex g rest cur tmp col : group g -> exists x, (0 < x)%nat /\ pton6_loop (hex g ++ rest) cur tmp col 0 0 = pton6_loop rest cur tmp col x g.
Proof.
  intros Hg. unfold hex. fold (nibbles g). destruct (strip_spec (nibbles g)) as (Hne & Hl & Hv & Hn & _); [done|]. exists (length (strip (nibbles g))).
  split; [destruct (strip _); [done|cbn; lia]|]. rewrite loop_digits; [by rewrite Hv, nibbles_value|apply Hn, nibbles_nib|exact Hl|cbn; lia].
Qed.

Lemma join_app xs ys : xs <> [] -> ys <> [] -> join (xs ++ ys) = join xs ++ ":"%ch :: join ys.
Proof.
  intros Hx Hy. induction xs as [|x xs IH]; [done|]. destruct xs as [|x' xs]; [by destruct ys|]. cbn [app join] in *. rewrite IH by done. by rewrite <-app_assoc.
Qed.
Lemma text_app xs ys : xs <> [] -> ys <> [] -> text (xs ++ ys) = text xs ++ ":"%ch :: text ys.
Proof. intros Hx Hy. unfold text. rewrite fmap_app. apply join_app; by destruct xs, ys. Qed.
Lemma text_cons g gs : gs <> [] -> text (g :: gs) = hex g ++ ":"%ch :: text gs.
Proof. intros H. by apply (text_app [g] gs). Qed.
Lemma text_one g : text [g] = hex g.
Proof. done. Qed.
Lemma text_ne gs : gs <> [] -> text gs <> [].
Proof. destruct gs as [|g [|h gs]]; [done|intros _; apply hex_ne|]. intros _. rewrite text_cons by done. pose proof (hex_ne g). by destruct (hex g). Qed.

Definition bytes_of (gs : list Z) : list Z := concat ((fun g => [g / 256; g mod 256]) <$> gs).
Lemma bytes_length gs : length (bytes_of gs) = (2 * length gs)%nat.
Proof. induction gs as [|g gs IH]; [done|]. unfold bytes_of in *. cbn [fmap list_fmap concat app length]. rewrite IH. lia. Qed.
Lemma bytes_app xs ys : bytes_of (xs ++ ys) = bytes_of xs ++ bytes_of ys.
Proof. unfold bytes_of. by rewrite fmap_app, concat_app. Qed.

(** A colon after the digits of a group. *)
Lemma loop_colon rest cur tmp col x g : (0 < x)%nat -> rest <> [] -> (length tmp + 2 <= 16)%nat ->
  pton6_loop (":"%ch :: rest) cur tmp col x g = pton6_loop rest rest (tmp ++ [g / 256; g mod 256]) col 0 0.
Proof.
  intros Hx Hr Ht. cbn [pton6_loop]. change (hex_digit_value ":"%ch) with (@None Z). cbn [Z.eqb]. rewrite (proj2 (Nat.eqb_neq x 0)) by lia. destruct rest as [|c rest]; [done|].
  by rewrite (proj2 (Nat.ltb_ge 16 (length tmp + 2))) by lia.
Qed.
Lemma loop_text gs : forall g rest cur tmp col, Forall group (gs ++ [g]) -> (length tmp + 2 * length gs <= 16)%nat ->
  exists x cur', (0 < x)%nat /\ pton6_loop (text (gs ++ [g]) ++ rest) cur tmp col 0 0 = pton6_loop rest cur' (tmp ++ bytes_of gs) col x g.
Proof.
  induction gs as [|h gs IH]; intros g rest cur tmp col Hg Ht.
  - inversion Hg; subst. cbn [app]. rewrite text_one. destruct (loop_hex g rest cur tmp col) as (x & Hx & E); [done|]. exists x, cur. split; [done|]. by rewrite E, app_nil_r.
  - inversion Hg as [|? ? Hh Hg']; subst. cbn [app length] in *. rewrite text_cons by by destruct gs. rewrite <-app_assoc. cbn [app]. destruct (loop_hex h (":"%ch :: text (gs ++ [g]) ++ rest) cur tmp col Hh) as (x & Hx & ->).
    assert (Hne : text (gs ++ [g]) <> []) by (apply text_ne; by destruct gs). rewrite loop_colon; [|done|by destruct (text _)|lia].
    destruct (IH g rest (text (gs ++ [g]) ++ rest) (tmp ++ [h / 256; h mod 256]) col Hg') as (x' & cur' & Hx' & E); [rewrite length_app; cbn [length]; lia|].
    exists x', cur'. split; [done|]. rewrite E, <-app_assoc. done.
Qed.

Lemma not_colon_first gs rest : gs <> [] -> match text gs ++ rest with c :: _ => (c =? ":"%ch) = false | [] => True end.
Proof.
  intros H. assert (Hh : forall g t, match hex g ++ t with c :: _ => (c =? ":"%ch) = false | [] => True end).
  { intros g t. pose proof (hex_no_colon g) as Hc. destruct (hex g) as [|c h] eqn:E; [by destruct (hex_ne g)|]. cbn in Hc |- *. apply andb_true_iff in Hc as [Hc _]. by apply negb_true_iff. }
  destruct gs as [|g gs]; [done|]. destruct gs as [|h gs]; [apply Hh|]. rewrite text_cons by done. rewrite <-app_assoc. apply Hh.
Qed.

Lemma pton6_full gs : Forall group gs -> length gs = 8%nat -> inet_pton6 (text gs) = Some (bytes_of gs).
Proof.
  intros Hg Hl. destruct gs as [|g0 gs] using rev_ind; [done|]. clear IHgs. rewrite length_app in Hl. cbn [length] in Hl. pose proof (not_colon_first (gs ++ [g0]) [] ltac:(by destruct gs)) as Hc.
  rewrite app_nil_r in Hc. unfold inet_pton6. destruct (text (gs ++ [g0])) as [|c s] eqn:E; [by destruct (text_ne (gs ++ [g0])); [destruct gs|]|]. rewrite Hc. cbn [mbind option_bind]. rewrite <-E.
  destruct (loop_text gs g0 [] (text (gs ++ [g0])) [] None Hg) as (x & cur & Hx & E'); [cbn; lia|]. rewrite app_nil_r in E'. rewrite E'. cbn [pton6_loop app mbind option_bind].
  rewrite (proj2 (Nat.ltb_lt _ _) Hx). rewrite bytes_length. rewrite (proj2 (Nat.ltb_ge _ _)) by lia. cbn [mbind option_bind]. rewrite length_app, bytes_length. cbn [length].
  rewrite (proj2 (Nat.eqb_eq _ _)) by lia. by rewrite bytes_app.
Qed.

Lemma pton6_short xs ys : Forall group xs -> Forall group ys -> ys <> [] -> (length xs + length ys <= 7)%nat ->
  inet_pton6 (text xs ++ ":"%ch :: ":"%ch :: text ys) = Some (bytes_of xs ++ replicate (16 - 2 * (length xs + length ys)) 0 ++ bytes_of ys).
Proof.
  intros Hx Hy Hne Hl. destruct ys as [|g ys] using rev_ind; [done|]. clear IHys. rewrite length_app in Hl |- *. cbn [length] in Hl |- *.
  assert (Hend : forall tmp col cur, (length tmp + 2 * length ys <= 14)%nat -> exists x, (0 < x)%nat /\ pton6_loop (text (ys ++ [g])) cur tmp col 0 0 = Some (tmp ++ bytes_of ys, col, x, g)).
  { intros tmp col cur Ht. destruct (loop_text ys g [] cur tmp col Hy) as (x & cur' & Hx' & E); [lia|]. rewrite app_nil_r in E. exists x. by rewrite E. }
  assert (Hloop : exists start x, (match text xs ++ ":"%ch :: ":"%ch :: text (ys ++ [g]) with
       | [] => None | c :: s' => if c =? ":"%ch then match s' with d :: _ => if d =? ":"%ch then Some s' else None | [] => None end else Some (text xs ++ ":"%ch :: ":"%ch :: text (ys ++ [g])) end) = Some start /\
     (0 < x)%nat /\ pton6_loop start start [] None 0 0 = Some (bytes_of xs ++ bytes_of ys, Some (length (bytes_of xs)), x, g)).
  { destruct xs as [|h xs] using rev_ind.
    - exists (":"%ch :: text (ys ++ [g])). destruct (Hend [] (Some 0%nat) (text (ys ++ [g]))) as (x & Hx0 & E); [cbn; lia|]. exists x. split; [done|]. split; [done|]. cbn [pton6_loop]. exact E.
    - clear IHxs. rewrite length_app in Hl. cbn [length] in Hl. exists (text (xs ++ [h]) ++ ":"%ch :: ":"%ch :: text (ys ++ [g])). pose proof (not_colon_first (xs ++ [h]) (":"%ch :: ":"%ch :: text (ys ++ [g])) ltac:(by destruct xs)) as Hc.
      destruct (loop_text xs h (":"%ch :: ":"%ch :: text (ys ++ [g])) (text (xs ++ [h]) ++ ":"%ch :: ":"%ch :: text (ys ++ [g])) [] None Hx) as (x1 & cur1 & Hx1 & E1); [cbn; lia|].
      rewrite loop_colon in E1; [|done|done|rewrite length_app, bytes_length; cbn [length]; lia]. cbn [app] in E1. replace (bytes_of xs ++ [h / 256; h mod 256]) with (bytes_of (xs ++ [h])) in E1 by by rewrite bytes_app.
      destruct (Hend (bytes_of (xs ++ [h])) (Some (length (bytes_of (xs ++ [h])))) (text (ys ++ [g]))) as (x & Hx0 & E); [rewrite bytes_length, length_app; cbn [length]; lia|].
      exists x. split; [destruct (text (xs ++ [h])) eqn:Et; [by destruct (text_ne (xs ++ [h])); [destruct xs|]|]; cbn [app] in Hc |- *; by rewrite Hc|]. split; [done|]. rewrite E1. exact E. }
  destruct Hloop as (start & x & Es & Hx0 & E). unfold inet_pton6. rewrite Es. cbn [mbind option_bind]. rewrite E. cbn [mbind option_bind]. rewrite (proj2 (Nat.ltb_lt _ _) Hx0), length_app, !bytes_length.
  rewrite (proj2 (Nat.ltb_ge _ _)) by lia. cbn [mbind option_bind]. rewrite <-app_assoc, !length_app, !bytes_length. cbn [length]. rewrite (proj2 (Nat.eqb_neq _ _)) by lia.
  rewrite take_app_length', drop_app_length' by by rewrite bytes_length. rewrite bytes_app. do 3 f_equal. f_equal. lia.
Qed.

(** *** Positions of groups in the text *)
Abbreviation pos G k := (length (text (take k G))).

Lemma take_pos k G : take (pos G k) (text G) = text (take k G).
Proof.
  destruct (decide (k = 0)%nat) as [->|Hk]; [done|]. destruct (decide (length G <= k)%nat) as [Hl|Hl]; [rewrite !(take_ge G) by done; by rewrite take_ge|].
  rewrite <-(take_drop k G) at 2. rewrite text_app; [by rewrite take_app_length|..].
  - intros E. apply (f_equal length) in E. rewrite length_take in E. cbn in E. lia.
  - intros E. apply (f_equal length) in E. rewrite length_drop in E. cbn in E. lia.
Qed.
Lemma drop_pos k G : (1 <= k < length G)%nat -> drop (pos G k) (text G) = ":"%ch :: text (drop k G).
Proof.
  intros Hk. rewrite <-(take_drop k G) at 2. rewrite text_app; [by rewrite drop_app_length|..].
  - intros E. apply (f_equal length) in E. rewrite length_take in E. cbn in E. lia.
  - intros E. apply (f_equal length) in E. rewrite length_drop in E. cbn in E. lia.
Qed.
Lemma text_length gs : gs <> [] -> (1 <= length (text gs))%nat.
Proof. intros H. pose proof (text_ne gs H). destruct (text gs); [done|cbn; lia]. Qed.
Lemma pos_lt k n G : (k < n <= length G)%nat -> (pos G k < pos G n)%nat /\ (n < length G -> pos G n + 2 <= length (text G))%nat.
Proof.
  intros Hk. assert (Hstep : forall a b, (a < b <= length G)%nat -> (pos G a + (if (a =? 0)%nat then 1 else 2) <= pos G b)%nat).
  { intros a b Hab. destruct (Nat.eqb_spec a 0) as [->|Ha]; [cbn; apply text_length; intros E; apply (f_equal length) in E; rewrite length_take in E; cbn in E; lia|].
    rewrite <-(take_drop a (take b G)), take_take, Nat.min_l by lia. rewrite text_app, length_app; cbn [length].
    - pose proof (text_length (drop a (take b G))) as H. assert (drop a (take b G) <> []) as Hne by (intros E; apply (f_equal length) in E; rewrite length_drop, length_take in E; cbn in E; lia). specialize (H Hne). lia.
    - intros E. apply (f_equal length) in E. rewrite length_take in E. cbn in E. lia.
    - intros E. apply (f_equal length) in E. rewrite length_drop, length_take in E. cbn in E. lia. }
  split; [pose proof (Hstep k n Hk); destruct (k =? 0)%nat; lia|]. intros Hn. pose proof (Hstep n (length G) ltac:(lia)) as H. rewrite (proj2 (Nat.eqb_neq n 0)) in H by lia.
  rewrite (take_ge G (length G)) in H by lia. done.
Qed.

(** Zeros at the front. *)
Definition nonzero_first (R : list Z) : Prop := match R with [] => True | x :: _ => x <> 0 end.
Lemma split_zeros H : exists m R, H = replicate m 0 ++ R /\ nonzero_first R.
Proof.
  induction H as [|x H IH]; [by exists 0%nat, []|]. destruct (Z.eq_dec x 0) as [->|Hx]; [|by exists 0%nat, (x :: H)]. destruct IH as (m & R & -> & HR). by exists (S m), R.
Qed.
Definition run_len (m : nat) (R : list Z) : nat := match R with [] => 2 * m - 1 | _ => 2 * m end.
Lemma run_length m R : Forall group R -> nonzero_first R -> replicate m 0 ++ R <> [] ->
  prefix_len zero_or_colon (text (replicate m 0 ++ R)) = run_len m R /\ (R <> [] -> drop (2 * m) (text (replicate m 0 ++ R)) = text R).
Proof.
  intros HR HR0. induction m as [|m IH]; intros Hne.
  - cbn [replicate app]. destruct R as [|x R]; [done|]. inversion HR; subst. split; [|done]. destruct R as [|y R]; [rewrite text_one, <-(app_nil_r (hex x)); by apply hex_first|].
    rewrite text_cons by done. by apply hex_first.
  - cbn [replicate app]. destruct (replicate m 0 ++ R) as [|y l] eqn:E.
    + destruct m; [|done]. cbn in E. subst R. done.
    + destruct (IH ltac:(done)) as [IH1 IH2]. rewrite text_cons by done. rewrite hex_0. change (str "0") with ["0"%ch]. cbn [app prefix_len]. cbn [zero_or_colon]. split.
      * change (zero_or_colon "0"%ch) with true. change (zero_or_colon ":"%ch) with true. cbn [prefix_len]. rewrite IH1. unfold run_len. destruct R as [|z R]; [|lia].
        destruct m; [by cbn in E|lia].
      * intros HRne. replace (2 * S m)%nat with (S (S (2 * m))) by lia. cbn [drop]. by apply IH2.
Qed.

(** What [longest] finds. *)
Lemma longest_spec buf : forall i best max b x, longest i buf best max = (b, x) ->
  (b = best /\ x = max) \/ exists j, b = (i + j)%nat /\ x = prefix_len zero_or_colon (drop j buf) /\ (max < x)%nat /\ ((i + j)%nat = 0%nat \/ buf !! j = Some ":"%ch).
Proof.
  induction buf as [|c buf IH]; intros i best max b x E; cbn [longest] in E; [injection E as -> ->; by left|].
  assert (Hlift : forall best' max', longest (S i) buf best' max' = (b, x) -> (b = best' /\ x = max') \/ exists j, b = (i + S j)%nat /\ x = prefix_len zero_or_colon (drop (S j) (c :: buf)) /\ (max' < x)%nat /\ ((i + S j)%nat = 0%nat \/ (c :: buf) !! S j = Some ":"%ch)).
  { intros best' max' E'. destruct (IH _ _ _ _ _ E') as [?|(j & -> & -> & Hm & Hj)]; [by left|right]. exists j. split_and!; [lia|done|done|]. right. destruct Hj as [?|?]; [lia|done]. }
  destruct ((0 <? i)%nat && negb (c =? ":"%ch)) eqn:Ec.
  - destruct (Hlift _ _ E) as [?|(j & ? & ? & ? & ?)]; [by left|right; by exists (S j)].
  - destruct (max <? prefix_len zero_or_colon (c :: buf))%nat eqn:Em.
    + apply Nat.ltb_lt in Em. assert (Hhere : (i + 0)%nat = 0%nat \/ (c :: buf) !! 0%nat = Some ":"%ch).
      { apply andb_false_iff in Ec as [Hi|Hc]; [left; apply Nat.ltb_ge in Hi; lia|right]. apply negb_false_iff, Z.eqb_eq in Hc. by subst c. }
      destruct (Hlift _ _ E) as [[-> ->]|(j & ? & ? & ? & ?)]; right; [exists 0%nat; split_and!; [lia|done|done|done]|exists (S j); split_and!; [done|done|lia|done]].
    + destruct (Hlift _ _ E) as [?|(j & ? & ? & ? & ?)]; [by left|right; by exists (S j)].
Qed.

(** Colons are between groups. *)
Lemma colon_pos G j : text G !! j = Some ":"%ch -> exists k, (1 <= k < length G)%nat /\ j = pos G k.
Proof.
  assert (Hhex : forall g j, hex g !! j <> Some ":"%ch).
  { intros g i E. pose proof (hex_no_colon g) as H. rewrite forallb_forall in H. specialize (H ":"%ch). rewrite <-list_elem_of_In in H. by specialize (H (list_elem_of_lookup_2 _ _ _ E)). }
  revert j. induction G as [|g G IH]; intros j E; [done|]. destruct G as [|h G]; [rewrite text_one in E; by destruct (Hhex g j)|]. rewrite text_cons in E by done.
  apply lookup_app_Some in E as [E|[Hl E]]; [by destruct (Hhex g j)|]. destruct (j - length (hex g))%nat as [|i] eqn:Ei.
  - exists 1%nat. split; [cbn; lia|]. cbn [take]. rewrite text_one. lia.
  - destruct (IH i E) as (k & Hk & ->). exists (S k). split; [cbn in *; lia|]. change (take (S k) (g :: h :: G)) with (g :: take k (h :: G)). rewrite text_cons, length_app; [cbn [length]; lia|]. destruct k; [lia|done].
Qed.

(** The run of zeros that is shortened: [m] groups from the group [k] on. *)
Record zeros_at (G : list Z) (best max k m : nat) : Prop := {
  za_k : (k < length G)%nat;
  za_m : (1 <= m)%nat /\ (k + m <= length G)%nat;
  za_zeros : take m (drop k G) = replicate m 0;
  za_best : best = pos G k;
  za_end : (best + max - 1)%nat = if (k + m =? length G)%nat then (length (text G) - 1)%nat else pos G (k + m);
  za_rest : drop (best + max) (text G) = text (drop (k + m) G);
  za_max : max = ((if (k =? 0)%nat then 0 else 1) + (if (k + m =? length G)%nat then 2 * m - 1 else 2 * m))%nat;
  za_stop : G !! (k + m)%nat <> Some 0
}.

Lemma longest_group G best max : Forall group G -> longest 0 (text G) 0 2 = (best, max) -> (2 < max)%nat -> exists k m, zeros_at G best max k m.
Proof.
  intros HG E Hmax. destruct (longest_spec _ _ _ _ _ _ E) as [[_ ->]|(j & -> & Ex & _ & Hj)]; [lia|]. cbn [Nat.add] in *.
  assert (Hk : exists k, (k < length G)%nat /\ j = pos G k /\ drop j (text G) = (if (k =? 0)%nat then [] else [":"%ch]) ++ text (drop k G)).
  { destruct Hj as [->|Hc]; [exists 0%nat; split_and!; [|done|done]|]. { destruct G; [cbn in Ex; lia|cbn; lia]. }
    destruct (colon_pos G j Hc) as (k & Hk & ->). exists k. split_and!; [lia|done|]. rewrite drop_pos by done. by rewrite (proj2 (Nat.eqb_neq k 0)) by lia. }
  destruct Hk as (k & Hk & Ej & Ed). destruct (split_zeros (drop k G)) as (m & R & EH & HR). exists k, m.
  assert (HH : Forall group (replicate m 0 ++ R)) by (rewrite <-EH; by apply Forall_drop). apply Forall_app in HH as [_ HRg].
  assert (Hne : replicate m 0 ++ R <> []) by (rewrite <-EH; intros E0; apply (f_equal length) in E0; rewrite length_drop in E0; cbn in E0; lia).
  destruct (run_length m R HRg HR Hne) as [Hrun Hdrop]. rewrite Ed, EH in Ex.
  assert (Emax : max = ((if (k =? 0)%nat then 0 else 1) + run_len m R)%nat).
  { rewrite Ex. destruct (k =? 0)%nat; cbn [app]; [done|]. cbn [prefix_len]. change (zero_or_colon ":"%ch) with true. cbv iota. by rewrite Hrun. }
  assert (Hlen : (m + length R = length G - k)%nat) by (apply (f_equal length) in EH; rewrite length_drop, length_app, length_replicate in EH; lia).
  assert (Hm : (1 <= m)%nat) by (unfold run_len in Emax; destruct R, (k =? 0)%nat; lia).
  assert (HR' : drop (k + m) G = R) by (rewrite <-drop_drop, EH; by rewrite drop_app_length' by by rewrite length_replicate).
  assert (Hzl : length (text (replicate m 0)) = (2 * m - 1)%nat).
  { clear -Hm. induction m as [|m IH]; [lia|]. destruct m as [|m]; [done|]. cbn [replicate] in *. rewrite text_cons, length_app, hex_0 by done. cbn [length] in *. rewrite IH by lia. cbn. lia. }
  assert (Hz : take m (drop k G) = replicate m 0) by (rewrite EH; by rewrite take_app_length' by by rewrite length_replicate).
  assert (Hpos : pos G (k + m) = (pos G k + (if (k =? 0)%nat then 0 else 1) + (2 * m - 1))%nat).
  { rewrite <-(take_drop k (take (k + m) G)), take_take, Nat.min_l by lia. rewrite skipn_firstn_comm, Nat.add_comm, Nat.add_sub, Hz. destruct (Nat.eqb_spec k 0) as [->|Hk0]; [change (take 0 G) with (@nil Z); rewrite app_nil_l, Hzl; cbn; lia|].
    rewrite text_app, length_app; [cbn [length]; rewrite Hzl; lia|intros E0; apply (f_equal length) in E0; rewrite length_take in E0; cbn in E0; lia|destruct m; [lia|done]]. }
  split; [done|split; [done|lia]|done|done|..].
  - rewrite Emax, Ej. destruct (Nat.eqb_spec (k + m) (length G)) as [Ee|Ee].
    + assert (R = []) as -> by (apply length_zero_iff_nil; lia). rewrite Ee, (take_ge G (length G)) in Hpos by lia. cbn [run_len]. lia.
    + destruct R as [|y R]; [cbn in Hlen; lia|]. cbn [run_len]. lia.
  - rewrite HR'. rewrite <-drop_drop, Ed, EH, Emax. destruct R as [|y R].
    + cbn [run_len]. apply drop_ge. rewrite app_nil_r, length_app, Hzl. destruct (k =? 0)%nat; cbn [length]; lia.
    + cbn [run_len]. destruct (k =? 0)%nat; cbn [app Nat.add drop]; by apply Hdrop.
  - rewrite Emax. unfold run_len. destruct (Nat.eqb_spec (k + m) (length G)), R; cbn [length] in *; lia.
  - rewrite <-(Nat.add_0_r (k + m)), <-lookup_drop, HR'. destruct R as [|y R]; [done|]. cbn. by intros [= ->].
Qed.

(** The text in short form. *)
Definition short_text (G : list Z) : cstr :=
  let '(best, max) := longest 0 (text G) 0 2 in
  if (2 <? max)%nat then take best (text G) ++ str "::" ++ drop (best + max) (text G) else text G.

(** The short form, and the text of the first [n] groups. *)
Inductive shape (G : list Z) (n : nat) (net : cstr) : Prop :=
| shape_full : short_text G = text G -> net = text (take n G) -> shape G n net
| shape_after k m : (n <= k)%nat -> (k < length G)%nat -> short_text G = text (take k G) ++ str "::" ++ text (drop (k + m) G) -> net = text (take n G) -> shape G n net
| shape_cut k m : (k < n <= k + m)%nat -> (k + m <= length G)%nat -> take m (drop k G) = replicate m 0 -> short_text G = text (take k G) ++ str "::" ++ text (drop (k + m) G) ->
    net = text (take k G) ++ str ":" -> shape G n net
| shape_inside k m : (1 <= m)%nat -> (k + m < n)%nat -> take m (drop k G) = replicate m 0 -> short_text G = text (take k G) ++ str "::" ++ text (drop (k + m) G) ->
    net = text (take k G) ++ str "::" ++ text (drop (k + m) (take n G)) -> shape G n net.

Lemma pair_div x y : 0 <= y < 256 -> (256 * x + y) / 256 = x.
Proof. intros H. Z.to_euclidean_division_equations; lia. Qed.
Lemma pair_mod x y : 0 <= y < 256 -> (256 * x + y) mod 256 = y.
Proof. intros H. Z.to_euclidean_division_equations; lia. Qed.
Lemma words_groups a : addr6 a -> length (words a) = 8%nat /\ Forall group (words a) /\ bytes_of (words a) = a.
Proof.
  intros [L B]. do 16 (destruct a as [|? a]; [done|]). destruct a; [|done]. cbn [words length]. repeat (match goal with H : Forall byte (_ :: _) |- _ => inversion H; clear H; subst end). unfold byte, group in *.
  split_and!; [done|repeat constructor; lia|]. unfold bytes_of. cbn [fmap list_fmap concat app]. by rewrite !pair_div, !pair_mod by lia.
Qed.

Lemma text_bound gs : (length (text gs) <= 5 * length gs)%nat.
Proof.
  induction gs as [|g gs IH]; [cbn; lia|]. pose proof (hex_length g). destruct gs as [|y gs]; [rewrite text_one; cbn [length]; lia|].
  rewrite text_cons, length_app by done. cbn [length] in *. lia.
Qed.
Lemma take_text n k G : (k <= n)%nat -> take (pos G k) (text (take n G)) = text (take k G).
Proof. intros H. rewrite <-(Nat.min_l k n) at 1 by lia. rewrite <-take_take, take_pos, take_take. by rewrite Nat.min_l by lia. Qed.
Lemma drop_text n k G : (1 <= k < n)%nat -> (n <= length G)%nat -> drop (pos G k) (text (take n G)) = ":"%ch :: text (drop k (take n G)).
Proof. intros H Hn. rewrite <-(Nat.min_l k n) at 1 by lia. rewrite <-take_take. apply drop_pos. rewrite length_take. lia. Qed.

Lemma network_shape a p : addr6 a -> 16 <= p < 128 -> exists net, get_ipv6_network a p = Some net /\ shape (words a) (Z.to_nat (Z.shiftr p 4)) net.
Proof.
  intros Ha Hp. destruct (words_groups a Ha) as (L & HG & _). set (G := words a) in *. assert (Hn : (1 <= Z.to_nat (Z.shiftr p 4) <= 7)%nat).
  { rewrite Z.shiftr_div_pow2 by lia. change (2 ^ 4) with 16. pose proof (Z.div_le_mono 16 p 16 ltac:(lia) ltac:(lia)). pose proof (Z.div_lt_upper_bound p 16 8 ltac:(lia) ltac:(lia)). change (16 / 16) with 1 in *. lia. }
  set (n := Z.to_nat (Z.shiftr p 4)) in *. unfold get_ipv6_network. rewrite (proj2 (Z.ltb_ge _ _)), (proj2 (Z.eqb_neq _ _)) by (unfold MAX_IPV6_PREFIX; lia). fold G n.
  cbv zeta. rewrite <-fmap_take. fold (text G) (text (take n G)). destruct (longest 0 (text G) 0 2) as [best max] eqn:El.
  pose proof (text_bound (take n G)) as Hb. rewrite length_take in Hb. rewrite (proj2 (Nat.ltb_lt _ 46)) by lia. eexists. split; [reflexivity|].
  assert (Hs : short_text G = if (2 <? max)%nat then take best (text G) ++ str "::" ++ drop (best + max) (text G) else text G) by (unfold short_text; by rewrite El).
  destruct (Nat.ltb_spec 2 max) as [Hmax|_]; [|by apply shape_full]. destruct (longest_group G best max HG El Hmax) as (k & m & [Hk [Hm Hkm] Hz -> He Hr _ _]).
  rewrite Hr, take_pos in Hs. cbn [andb]. destruct (Nat.ltb_spec (pos G k) (pos G n)) as [Hlt|Hge]; cycle 1.
  { apply (shape_after _ _ _ k m); [|done..]. destruct (Nat.le_gt_cases n k) as [|Hkn]; [done|]. pose proof (pos_lt k n G ltac:(lia)). lia. }
  assert (Hkn : (k < n)%nat). { destruct (Nat.le_gt_cases n k) as [Hnk|]; [|done]. destruct (decide (n = k)) as [->|]; [lia|]. pose proof (pos_lt n k G ltac:(lia)). lia. }
  assert (Hk0 : (pos G k =? 0)%nat = (k =? 0)%nat). { destruct k as [|k]; [done|]. pose proof (pos_lt 0 (S k) G ltac:(lia)). apply Nat.eqb_neq. lia. }
  rewrite Hk0, He. destruct (Nat.le_gt_cases n (k + m)) as [Hc|Hi].
  - assert (Hb2 : (pos G n <= (if (k + m =? length G)%nat then length (text G) - 1 else pos G (k + m)))%nat).
    { destruct (Nat.eqb_spec (k + m) (length G)) as [E|E]; [pose proof (proj2 (pos_lt k n G ltac:(lia)) ltac:(lia)); lia|]. destruct (decide (n = k + m)%nat) as [->|]; [lia|]. pose proof (pos_lt n (k + m) G ltac:(lia)). lia. }
    rewrite (proj2 (Nat.leb_le _ _) Hb2), (proj2 (Nat.ltb_ge _ _) Hb2), andb_false_r. apply (shape_cut _ _ _ k m); [lia|done..|]. destruct (Nat.eqb_spec k 0) as [->|Hk1]; [done|].
    pose proof (pos_lt 0 k G ltac:(lia)). rewrite (proj2 (Nat.ltb_lt 0 _)) by lia. cbn [andb]. by rewrite take_text by lia.
  - rewrite (proj2 (Nat.eqb_neq (k + m) (length G))) by lia. destruct (pos_lt (k + m) n G ltac:(lia)) as [Hb2 _]. rewrite (proj2 (Nat.leb_gt _ _) Hb2), (proj2 (Nat.ltb_lt _ _) Hb2), !andb_false_r, andb_true_r.
    apply (shape_inside _ _ _ k m); [done..|]. rewrite drop_text by lia. destruct (Nat.eqb_spec k 0) as [->|Hk1]; [done|]. by rewrite take_text by lia.
Qed.

(** *** Reading the texts *)
Lemma pton6_gap xs ys : Forall group xs -> Forall group ys -> (length xs + length ys <= 7)%nat ->
  inet_pton6 (text xs ++ str "::" ++ text ys) = Some (bytes_of xs ++ replicate (16 - 2 * (length xs + length ys)) 0 ++ bytes_of ys).
Proof.
  intros Hx Hy Hl. destruct ys as [|y ys]; [|by apply pton6_short]. change (text []) with (@nil Z). change (bytes_of []) with (@nil Z). rewrite !app_nil_r. cbn [length] in *.
  destruct xs as [|h xs _] using rev_ind; [done|]. rewrite length_app in *. cbn [length] in *. pose proof (not_colon_first (xs ++ [h]) (str "::") ltac:(by destruct xs)) as Hc.
  unfold inet_pton6. destruct (text (xs ++ [h]) ++ str "::") as [|c s] eqn:E; [by destruct (text (xs ++ [h]))|]. rewrite Hc. cbn [mbind option_bind]. rewrite <-E.
  destruct (loop_text xs h (str "::") (text (xs ++ [h]) ++ str "::") [] None Hx) as (x & cur & Hx0 & ->); [cbn; lia|].
  rewrite (loop_colon (str ":")) by (done || (rewrite length_app, bytes_length; cbn [length]; lia)). cbn [app]. replace (bytes_of xs ++ [h / 256; h mod 256]) with (bytes_of (xs ++ [h])) by by rewrite bytes_app.
  change (pton6_loop (str ":") (str ":") ?B None 0 0) with (Some (B, Some (length B), 0%nat, 0)). cbn [mbind option_bind Nat.ltb Nat.leb]. rewrite bytes_length, length_app. cbn [length]. rewrite (proj2 (Nat.eqb_neq _ _)) by lia. rewrite take_ge, drop_ge by (rewrite bytes_length, length_app; cbn [length]; lia).
  rewrite app_nil_r. do 3 f_equal. lia.
Qed.
Lemma zero_groups m : bytes_of (replicate m 0) = replicate (2 * m) 0.
Proof. induction m as [|m IH]; [done|]. replace (2 * S m)%nat with (S (S (2 * m))) by lia. cbn [replicate]. rewrite <-IH. done. Qed.
Lemma bytes_take n G : bytes_of (take n G) = take (2 * n) (bytes_of G).
Proof.
  revert n. induction G as [|g G IH]; intros n; [rewrite take_nil; change (bytes_of []) with (@nil Z); by rewrite take_nil|]. destruct n as [|n]; [done|]. replace (2 * S n)%nat with (S (S (2 * n))) by lia. cbn [take]. unfold bytes_of in *. cbn [fmap list_fmap concat app take]. by rewrite IH.
Qed.
Lemma cut_zeros k m n (G : list Z) : (k <= n <= k + m)%nat -> take m (drop k G) = replicate m 0 -> take n G = take k G ++ replicate (n - k) 0.
Proof.
  intros H Hz. rewrite <-(take_drop k (take n G)), take_take, Nat.min_l by lia. f_equal. rewrite skipn_firstn_comm. rewrite <-(Nat.min_l (n - k) m), <-take_take, Hz by lia. rewrite take_replicate. by rewrite Nat.min_l by lia.
Qed.
Lemma gap_bytes k m (G : list Z) : (k + m <= length G)%nat -> take m (drop k G) = replicate m 0 -> bytes_of (take k G) ++ replicate (2 * m) 0 ++ bytes_of (drop (k + m) G) = bytes_of G.
Proof.
  intros H Hz. rewrite <-(take_drop (k + m) G) at 3. rewrite bytes_app, (cut_zeros k m (k + m)) by (done || lia). replace (k + m - k)%nat with m by lia. by rewrite bytes_app, zero_groups, <-app_assoc.
Qed.

Lemma short_reads a : addr6 a -> inet_pton6 (short_text (words a)) = Some a.
Proof.
  intros Ha. destruct (words_groups a Ha) as (L & HG & Hb). unfold short_text. destruct (longest 0 _ 0 2) as [best max] eqn:El. destruct (Nat.ltb_spec 2 max) as [Hmax|_]; [|by rewrite pton6_full, Hb].
  destruct (longest_group _ best max HG El Hmax) as (k & m & [Hk [Hm Hkm] Hz -> _ Hr _ _]). rewrite Hr, take_pos, pton6_gap.
  - rewrite length_take, length_drop. replace (16 - _)%nat with (2 * m)%nat by lia. rewrite gap_bytes by done. by rewrite Hb.
  - by apply Forall_take.
  - by apply Forall_drop.
  - rewrite length_take, length_drop. lia.
Qed.

(** The network and host part of the short form; any host part can follow the
    network. *)
Lemma shape_reads a n net : addr6 a -> (1 <= n <= 7)%nat -> shape (words a) n net -> forall hs, Forall group hs -> length hs = (8 - n)%nat ->
  inet_pton6 (net ++ str ":" ++ text hs) = Some (take (2 * n) a ++ bytes_of hs).
Proof.
  intros Ha Hn Hs hs Hh Hl. destruct (words_groups a Ha) as (L & HG & Hb). set (G := words a) in *. rewrite <-Hb. rewrite <-bytes_take. assert (Hne : hs <> []) by (destruct hs; [cbn in Hl; lia|done]).
  assert (Hfull : net = text (take n G) -> inet_pton6 (net ++ str ":" ++ text hs) = Some (bytes_of (take n G) ++ bytes_of hs)).
  { intros ->. rewrite <-bytes_app. cbn [str app]. change (str ":" ++ text hs) with (":"%ch :: text hs). rewrite <-text_app; [|intros E; apply (f_equal length) in E; rewrite length_take in E; cbn in E; lia|done].
    apply pton6_full; [by apply Forall_app_2; [apply Forall_take|]|rewrite length_app, length_take; lia]. }
  destruct Hs as [_ ->|k m _ _ _ ->|k m Hk Hkm Hz _ ->|k m Hm Hk Hz _ ->]; [by apply Hfull|by apply Hfull|..].
  - rewrite <-app_assoc. change (str ":" ++ str ":" ++ text hs) with (str "::" ++ text hs). rewrite pton6_gap by (done || (by apply Forall_take) || (rewrite length_take; lia)).
    rewrite (cut_zeros k m n) by (done || lia). rewrite bytes_app, zero_groups, <-app_assoc, length_take. do 4 f_equal. lia.
  - rewrite <-!app_assoc. change (str ":" ++ text hs) with (":"%ch :: text hs). assert (Hd : length (drop (k + m) (take n G)) = (n - k - m)%nat) by (rewrite length_drop, length_take; lia).
    rewrite <-text_app by (done || (intros E; rewrite E in Hd; cbn in Hd; lia)). rewrite pton6_gap; [|by apply Forall_take|apply Forall_app_2; [by apply Forall_drop, Forall_take|done]|rewrite length_app, Hd, length_take; lia].
    rewrite <-(gap_bytes k m (take n G)); [|rewrite length_take; lia|by rewrite skipn_firstn_comm, take_take, Nat.min_l by lia]. rewrite take_take, Nat.min_l by lia. rewrite bytes_app, length_app, Hd, length_take, <-!app_assoc. do 4 f_equal. lia.
Qed.

Lemma shape_host G n net : length G = 8%nat -> (1 <= n <= 7)%nat -> shape G n net -> net <> [] /\ exists host, short_text G = net ++ str ":" ++ host.
Proof.
  intros L Hn Hs. assert (Hne : forall i j, (i < j)%nat -> (j <= 8)%nat -> drop i (take j G) <> []) by (intros i j Hi Hj E; apply (f_equal length) in E; rewrite length_drop, length_take in E; cbn in E; lia).
  assert (H0 : text (take n G) <> []) by (apply text_ne, (Hne 0%nat n); lia).
  assert (Hcut : forall i j, (i < n < j)%nat -> (j <= 8)%nat -> text (drop i (take j G)) = text (drop i (take n G)) ++ str ":" ++ text (drop n (take j G))).
  { intros i j Hi Hj. rewrite <-(take_drop (n - i) (drop i (take j G))), drop_drop. replace (i + (n - i))%nat with n by lia. rewrite <-skipn_firstn_comm, take_take, Nat.min_l by lia. by rewrite text_app by (apply Hne; lia). }
  destruct Hs as [-> ->|k m Hk Hl -> ->|k m Hk Hkm _ -> ->|k m Hm Hk _ -> ->].
  - split; [done|]. exists (text (drop n (take 8 G))). pose proof (Hcut 0%nat 8%nat ltac:(lia) ltac:(lia)) as E. rewrite !drop_0, (take_ge G 8) in E by lia. by rewrite (take_ge G 8) by lia.
  - split; [done|]. destruct (decide (n = k)) as [->|Hne2]; [by eexists|]. exists (text (drop n (take k G)) ++ str "::" ++ text (drop (k + m) G)).
    pose proof (Hcut 0%nat k ltac:(lia) ltac:(lia)) as E. rewrite !drop_0 in E. rewrite E, <-!app_assoc. done.
  - split; [by destruct (text (take k G))|]. exists (text (drop (k + m) G)). by rewrite <-!app_assoc.
  - split; [by destruct (text (take k G))|]. exists (text (drop n (take 8 G))). rewrite <-!app_assoc. do 2 f_equal. rewrite <-Hcut by lia. by rewrite (take_ge G 8) by lia.
Qed.

(** *** The text of [inet_ntop] *)

(** [m] groups from the group [k] on are zeros. *)
Definition zeros (G : list Z) (k m : nat) : Prop := (k + m <= length G)%nat /\ take m (drop k G) = replicate m 0.
(** The addresses that [::] shortens in one way: no group but the first and the last
    is zero; or one run of at least two zeros is longer than the others, or as long
    as others behind it and not at the front.  Addresses that end like one of
    IPv4 are left out. *)
Inductive unambiguous (G : list Z) : Prop :=
| no_gap : (forall i, (1 <= i < 7)%nat -> G !! i <> Some 0) -> unambiguous G
| one_gap k m : (2 <= m)%nat -> zeros G k m -> (forall k' m', zeros G k' m' -> (m' <= m)%nat /\ (m' = m -> k' = k \/ (0 < k < k')%nat)) ->
    ~ (k = 0%nat /\ (m = 6%nat \/ m = 5%nat /\ G !! 5%nat = Some 65535)) -> unambiguous G.

Lemma longest_max buf : forall i best max b x, longest i buf best max = (b, x) -> (max <= x)%nat /\
  forall j, (j < length buf)%nat -> (i + j)%nat = 0%nat \/ buf !! j = Some ":"%ch -> (prefix_len zero_or_colon (drop j buf) <= x)%nat /\ (prefix_len zero_or_colon (drop j buf) = x -> (max < x)%nat -> (b <= i + j)%nat).
Proof.
  induction buf as [|c buf IH]; intros i best max b x E; cbn [longest] in E; [injection E as -> ->; split; [done|cbn; lia]|].
  assert (Hlift : forall best' max', longest (S i) buf best' max' = (b, x) -> (max <= max')%nat -> (max <= x)%nat /\ forall j, (j < length buf)%nat -> (i + S j)%nat = 0%nat \/ (c :: buf) !! S j = Some ":"%ch ->
    (prefix_len zero_or_colon (drop (S j) (c :: buf)) <= x)%nat /\ (prefix_len zero_or_colon (drop (S j) (c :: buf)) = x -> (max' < x)%nat -> (b <= i + S j)%nat)).
  { intros best' max' E' Hm. destruct (IH _ _ _ _ _ E') as [H1 H2]. split; [lia|]. intros j Hj [Hi|Hc]; [lia|]. destruct (H2 j Hj (or_intror Hc)) as [H3 H4]. split; [done|]. intros Ex Hx. specialize (H4 Ex Hx). lia. }
  destruct ((0 <? i)%nat && negb (c =? ":"%ch)) eqn:Ec.
  - destruct (Hlift _ _ E ltac:(lia)) as [H1 H2]. split; [done|]. intros [|j] Hj Hc; [|by apply H2; [cbn in Hj; lia|]]. exfalso. apply andb_true_iff in Ec as [Hi Hn]. apply Nat.ltb_lt in Hi. destruct Hc as [?|[= ->]]; [lia|done].
  - destruct (max <? prefix_len zero_or_colon (c :: buf))%nat eqn:Em; [apply Nat.ltb_lt in Em|apply Nat.ltb_ge in Em].
    + destruct (Hlift _ _ E ltac:(lia)) as [H1 H2]. destruct (longest_spec _ _ _ _ _ _ E) as [[-> ->]|(j0 & -> & _ & Hlt & _)].
      * split; [done|]. intros [|j] Hj Hc; [rewrite drop_0; lia|]. destruct (H2 j ltac:(cbn in Hj; lia) Hc). lia.
      * split; [done|]. intros [|j] Hj Hc; [rewrite drop_0; lia|]. destruct (H2 j ltac:(cbn in Hj; lia) Hc) as [H3 H4]. split; [done|]. intros Ex _. by apply H4.
    + destruct (Hlift _ _ E ltac:(lia)) as [H1 H2]. split; [done|]. intros [|j] Hj Hc; [rewrite drop_0; lia|]. by apply H2; [cbn in Hj; lia|].
Qed.

(** The run of colons and zeros at the group [k]. *)
Lemma run_at G k : Forall group G -> (k < length G)%nat -> (pos G k < length (text G))%nat /\ (pos G k = 0%nat \/ text G !! pos G k = Some ":"%ch) /\
  exists m R, drop k G = replicate m 0 ++ R /\ nonzero_first R /\ prefix_len zero_or_colon (drop (pos G k) (text G)) = ((if (k =? 0)%nat then 0 else 1) + run_len m R)%nat.
Proof.
  intros HG Hk. assert (Hd : drop (pos G k) (text G) = (if (k =? 0)%nat then [] else [":"%ch]) ++ text (drop k G)) by (destruct k as [|k]; [done|by rewrite drop_pos by lia]).
  assert (Hne : drop k G <> []) by (intros E0; apply (f_equal length) in E0; rewrite length_drop in E0; cbn in E0; lia). split_and!.
  - apply (f_equal length) in Hd. rewrite length_drop, length_app in Hd. pose proof (text_length _ Hne). lia.
  - destruct k as [|k]; [by left|right]. rewrite <-(Nat.add_0_r (pos G (S k))), <-lookup_drop, Hd. done.
  - destruct (split_zeros (drop k G)) as (m & R & E & HR). exists m, R. split_and!; [done..|]. rewrite Hd, E in *.
    assert (HH : Forall group (replicate m 0 ++ R)) by (rewrite <-E; by apply Forall_drop). apply Forall_app in HH as [_ HRg]. destruct (run_length m R HRg HR Hne) as [Hrun _].
    destruct (k =? 0)%nat; cbn [app]; [by rewrite Hrun|]. cbn [prefix_len]. change (zero_or_colon ":"%ch) with true. cbv iota. by rewrite Hrun.
Qed.
Lemma zeros_run G k m m1 R : zeros G k m -> drop k G = replicate m1 0 ++ R -> nonzero_first R -> (m <= m1)%nat /\ (length R = length G - k - m1)%nat.
Proof.
  intros [Hl Hz] E HR. split; [|apply (f_equal length) in E; rewrite length_drop, length_app, length_replicate in E; lia]. destruct (Nat.le_gt_cases m m1) as [|Hlt]; [done|exfalso]. rewrite E in Hz.
  assert (H : (replicate m1 0 ++ R) !! m1 = Some 0) by (rewrite <-(lookup_take_lt _ m) by done; rewrite Hz; by apply lookup_replicate_2).
  rewrite lookup_app_r, length_replicate, Nat.sub_diag in H by (rewrite length_replicate; lia). destruct R as [|x R]; [done|]. injection H as ->. done.
Qed.

(** The run that is found is the one of [unambiguous]. *)
Lemma short_gap G k m : Forall group G -> length G = 8%nat -> (2 <= m)%nat -> zeros G k m -> (forall k' m', zeros G k' m' -> (m' <= m)%nat /\ (m' = m -> k' = k \/ (0 < k < k')%nat)) ->
  short_text G = text (take k G) ++ str "::" ++ text (drop (k + m) G).
Proof.
  intros HG L Hm Hz Hmax. unfold short_text. destruct (longest 0 (text G) 0 2) as [best max] eqn:El. destruct (longest_max _ _ _ _ _ _ El) as [_ Hbest]. cbn [Nat.add] in Hbest.
  destruct (run_at G k HG ltac:(destruct Hz; lia)) as (Hp & Hc & m1 & R & E & HR & Hrun). destruct (zeros_run G k m m1 R Hz E HR) as [Hm1 HlR]. destruct (Hbest _ Hp Hc) as [Hle Hfirst]. rewrite Hrun in *.
  assert (Hge : (2 < max)%nat) by (unfold run_len in Hle; destruct R, (k =? 0)%nat; lia). rewrite (proj2 (Nat.ltb_lt _ _) Hge). destruct (longest_group G best max HG El Hge) as (k0 & m0 & [Hk0 [Hm0 Hkm0] Hz0 -> _ Hr HM Hstop]).
  destruct (Hmax k0 m0 (conj Hkm0 Hz0)) as [H1 H2]. assert (H3 : zeros G k m1) by (split; [apply (f_equal length) in E; rewrite length_drop, length_app, length_replicate in E; destruct Hz; lia|rewrite E; by rewrite take_app_length' by by rewrite length_replicate]).
  destruct (Hmax k m1 H3) as [H4 _]. assert (m1 = m) by lia. subst m1.
  assert (Hk : k0 = k).
  { destruct (decide (k0 = k)) as [|Hne]; [done|exfalso]. destruct (decide (m0 = m)) as [->|Hlt].
    - destruct (H2 eq_refl) as [?|Hk]; [done|]. destruct R as [|y R]; [cbn in HlR; lia|]. cbn [run_len] in *. rewrite (proj2 (Nat.eqb_neq k 0)) in * by lia. rewrite (proj2 (Nat.eqb_neq k0 0)) in HM by lia.
      assert (max = 1 + 2 * m)%nat by (destruct (k0 + m =? length G)%nat; lia). specialize (Hfirst ltac:(lia) Hge). pose proof (pos_lt k k0 G ltac:(lia)). lia.
    - unfold run_len in Hle. destruct R, (Nat.eqb_spec k 0), (Nat.eqb_spec k0 0), (Nat.eqb_spec (k0 + m0) (length G)); cbn [length] in *; destruct Hz; lia. }
  subst k0. assert (m0 = m) as ->. { destruct (zeros_run G k m0 m R (conj Hkm0 Hz0) E HR). destruct (Nat.lt_ge_cases m0 m) as [Hlt|]; [|lia]. destruct Hstop. rewrite <-lookup_drop, E. rewrite lookup_app_l by (rewrite length_replicate; lia). by apply lookup_replicate_2. }
  by rewrite Hr, take_pos.
Qed.
Lemma short_whole G : Forall group G -> length G = 8%nat -> (forall i, (1 <= i < 7)%nat -> G !! i <> Some 0) -> short_text G = text G.
Proof.
  intros HG L Hno. unfold short_text. destruct (longest 0 (text G) 0 2) as [best max] eqn:El. destruct (Nat.ltb_spec 2 max) as [Hge|]; [exfalso|done].
  destruct (longest_group G best max HG El Hge) as (k & m & [Hk [Hm Hkm] Hz _ _ _ HM _]). assert (Hin : forall i, (i < m)%nat -> G !! (k + i)%nat = Some 0) by (intros i Hi; rewrite <-lookup_drop, <-(lookup_take_lt _ m) by done; rewrite Hz; by apply lookup_replicate_2).
  destruct (decide (1 <= k < 7)%nat) as [H|H]; [apply (Hno k H); rewrite <-(Nat.add_0_r k); apply Hin; lia|]. destruct (Nat.eqb_spec k 0) as [->|Hk0].
  - apply (Hno 1%nat ltac:(lia)), (Hin 1%nat). destruct (0 + m =? length G)%nat; lia.
  - destruct (Nat.eqb_spec (k + m) (length G)); lia.
Qed.

(** The run that [inet_ntop] finds depends on which groups are zeros only: all the
    ways to choose them are looked at. *)
Definition pattern (G : list Z) : list Z := (fun g => if g =? 0 then 0 else 1) <$> G.
Fixpoint patterns (n : nat) : list (list Z) := match n with O => [[]] | S n => flat_map (fun P => [0 :: P; 1 :: P]) (patterns n) end.
Definition zerosb (G : list Z) (k m : nat) : bool := (k + m <=? length G)%nat && bool_decide (take m (drop k G) = replicate m 0).
Definition first_longest (G : list Z) : bool :=
  match zero_run 0 G None None with
  | Some (b, n) => (1 <=? n)%nat && zerosb G b n && forallb (fun k => forallb (fun m => implb (zerosb G k m) ((m <=? n)%nat && implb (m =? n)%nat (b <=? k)%nat)) (seq 0 9)) (seq 0 9)
  | None => forallb (fun g => negb (g =? 0)) G
  end.
Lemma all_patterns : forallb first_longest (patterns 8) = true.
Proof. vm_compute. reflexivity. Qed.
Lemma pattern_in G : pattern G ∈ patterns (length G).
Proof.
  induction G as [|g G IH]; [by apply list_elem_of_singleton|]. cbn [length patterns]. apply list_elem_of_In, in_flat_map. exists (pattern G). split; [by apply list_elem_of_In|]. unfold pattern. cbn [fmap list_fmap]. destruct (g =? 0); cbn; tauto.
Qed.
Lemma pattern_run G : forall i cur best, zero_run i (pattern G) cur best = zero_run i G cur best.
Proof. induction G as [|g G IH]; intros i cur best; [done|]. cbn [pattern fmap list_fmap zero_run]. unfold pattern in IH. destruct (g =? 0); cbn [Z.eqb]; apply IH. Qed.
Lemma pattern_zeros G k m : zerosb (pattern G) k m = true <-> zeros G k m.
Proof.
  unfold zerosb, zeros, pattern. rewrite andb_true_iff, Nat.leb_le, bool_decide_eq_true, length_fmap, <-fmap_drop, <-fmap_take. apply and_iff_compat_l. generalize (take m (drop k G)). intros l. revert m.
  induction l as [|g l IH]; intros [|m]; [done..|]. cbn [fmap list_fmap replicate]. destruct (Z.eqb_spec g 0) as [->|Hg]; [|split; intros [= ?]; done]. split; intros [= H]; f_equal; by apply IH.
Qed.
Lemma zero_run_first G : length G = 8%nat -> match zero_run 0 G None None with
  | Some (b, n) => (1 <= n)%nat /\ zeros G b n /\ forall k m, zeros G k m -> (m <= n)%nat /\ (m = n -> (b <= k)%nat)
  | None => forall i, G !! i <> Some 0
  end.
Proof.
  intros L. pose proof all_patterns as H. rewrite forallb_forall in H. specialize (H (pattern G)). rewrite <-list_elem_of_In, <-L in H. specialize (H (pattern_in G)). unfold first_longest in H. rewrite pattern_run in H. destruct (zero_run 0 G None None) as [[b n]|].
  - rewrite !andb_true_iff, Nat.leb_le, pattern_zeros in H. destruct H as [[H1 H2] H3]. split_and!; [done..|]. intros k m Hz. assert (Hz' := Hz). destruct Hz' as [Hkm _]. rewrite L in Hkm. rewrite forallb_forall in H3. specialize (H3 k ltac:(apply in_seq; lia)). rewrite forallb_forall in H3.
    specialize (H3 m ltac:(apply in_seq; lia)). rewrite (proj2 (pattern_zeros G k m) Hz) in H3. cbn [implb] in H3. apply andb_true_iff in H3 as [H3 H4]. apply Nat.leb_le in H3. split; [done|]. intros ->. rewrite Nat.eqb_refl in H4. by apply Nat.leb_le.
  - intros i E. rewrite forallb_forall in H. specialize (H 0). rewrite <-list_elem_of_In in H. specialize (H ltac:(apply list_elem_of_fmap; exists 0; split; [done|by apply list_elem_of_lookup_2 in E])). done.
Qed.

Lemma ntop6_gap G k m t : length G = 8%nat -> (2 <= m)%nat -> (k + m <= 8)%nat -> ~ (k = 0%nat /\ (m = 6%nat \/ m = 5%nat /\ G !! 5%nat = Some 65535)) ->
  ntop6_loop 0 G (Some (k, m)) t (nth 5 G 0) = text (take k G) ++ str "::" ++ text (drop (k + m) G).
Proof.
  intros L Hm Hkm Hd. do 8 (destruct G as [|? G]; [done|]). destruct G; [|done]. cbn [nth].
  assert (Hw : k = 0%nat /\ m = 5%nat -> (z4 =? 65535) = false) by (intros [-> ->]; apply Z.eqb_neq; intros ->; apply Hd; split; [done|by right]).
  assert (H6 : ~ (k = 0%nat /\ m = 6%nat)) by (intros [-> ->]; apply Hd; split; [done|by left]). clear Hd L. unfold text.
  do 7 (destruct k as [|k]; [do 9 (destruct m as [|m]; [try (exfalso; lia); cbn -[hex str]; try (rewrite Hw by done); rewrite ?app_nil_r; repeat (rewrite <-app_assoc; cbn [app]); reflexivity|]); exfalso; lia|]). exfalso. lia.
Qed.

Lemma ntop6_whole G t w : length G = 8%nat -> ntop6_loop 0 G None t w = text G.
Proof. intros L. do 8 (destruct G as [|? G]; [done|]). destruct G; [|done]. unfold text. cbn -[hex str]. by rewrite app_nil_r. Qed.

(** What the program takes for the text of an address is what [inet_ntop] prints. *)
Lemma ntop6_short a : addr6 a -> unambiguous (words a) -> inet_ntop6 a = short_text (words a).
Proof.
  intros Ha Hu. destruct (words_groups a Ha) as (L & HG & _). unfold inet_ntop6. cbv zeta. pose proof (zero_run_first (words a) L) as Hr. destruct Hu as [Hno|k m Hm Hz Hmax Hd].
  - rewrite short_whole by done. destruct (zero_run 0 (words a) None None) as [[b n]|]; [|by apply ntop6_whole]. destruct (Nat.ltb_spec n 2) as [|Hn]; [by apply ntop6_whole|exfalso]. destruct Hr as (_ & [Hbn Hb] & _).
    assert (Hin : forall i, (i < n)%nat -> words a !! (b + i)%nat = Some 0) by (intros i Hi; rewrite <-lookup_drop, <-(lookup_take_lt _ n) by done; rewrite Hb; by apply lookup_replicate_2).
    destruct b as [|b]; [apply (Hno 1%nat ltac:(lia)), (Hin 1%nat); lia|]. apply (Hno (S b) ltac:(lia)). rewrite <-(Nat.add_0_r (S b)). apply Hin. lia.
  - rewrite (short_gap _ k m) by done. destruct (zero_run 0 (words a) None None) as [[b n]|]; cycle 1.
    { destruct (Hr k). destruct Hz as [_ Hz]. rewrite <-(Nat.add_0_r k), <-lookup_drop, <-(lookup_take_lt _ m), Hz by lia. apply lookup_replicate_2. lia. }
    destruct Hr as (_ & Hb & Hfirst). destruct (Hfirst k m Hz) as [H1 H2], (Hmax b n Hb) as [H3 H4]. assert (n = m) as -> by lia. specialize (H2 eq_refl). assert (b = k) as -> by (destruct (H4 eq_refl); lia).
    rewrite (proj2 (Nat.ltb_ge _ _) Hm). apply ntop6_gap; [done..|destruct Hz; lia|done].
Qed.

Lemma strstr_app (s t : cstr) : strstr (s ++ t) s = Some (s ++ t).
Proof. pose proof (starts_app t s) as H. destruct (s ++ t); cbn [strstr]; by rewrite H. Qed.
Lemma host_found net c host : net <> [] -> c = ":"%ch \/ c = "."%ch -> get_host_from_ip (Some (net ++ c :: host)) (Some net) = Ok (Some host).
Proof.
  intros Hne Hc. unfold get_host_from_ip. rewrite strstr_app, bool_decide_eq_true_2 by done. cbn [negb]. rewrite length_app. cbn [length]. rewrite (proj2 (Nat.eqb_neq _ _)) by lia.
  rewrite (proj2 (Nat.ltb_lt 0 _)), (proj2 (Nat.ltb_lt _ (length net + S (length host)))) by (destruct net; [done|cbn [length]; lia]). cbn [andb]. rewrite at_length_cons.
  assert ((c =? ":"%ch) || (c =? "."%ch) = true) as -> by (destruct Hc as [-> | ->]; done). do 2 f_equal. replace (S (length net)) with (length net + 1)%nat by lia. by rewrite <-drop_drop, drop_app_length.
Qed.
Lemma host_all ip : ip <> [] -> get_host_from_ip (Some ip) (Some []) = Ok (Some ip).
Proof. intros H. unfold get_host_from_ip. rewrite (strstr_app [] ip : strstr ip [] = _), bool_decide_eq_true_2 by done. by destruct ip. Qed.

(** ** The program *)
Lemma strchr_In s c : strchr s c <> None <-> c ∈ s.
Proof.
  induction s as [|x s IH]; cbn; [split; [done|by intros ?%not_elem_of_nil]|]. rewrite elem_of_cons. destruct (Z.eqb_spec x c) as [->|Hne]; [split; [by left|done]|]. rewrite IH. split; [by right|intros [E|E]; [congruence|done]].
Qed.
Lemma not_In (c : Z) s : forallb (fun x => negb (x =? c)) s = true -> c ∉ s.
Proof. intros H Hin. rewrite forallb_forall in H. specialize (H c ltac:(by apply list_elem_of_In)). by rewrite Z.eqb_refl in H. Qed.

Lemma main_runs rand v6 sa sb p q : (forall s, s = sa \/ s = sb -> no_slash s = true /\ (":"%ch ∈ s <-> v6 = true) /\ (if v6 then inet_pton6 s <> None else inet_pton4 s <> None)) -> sa <> sb ->
  0 <= p <= max_prefix v6 -> 0 <= q <= max_prefix v6 ->
  net_vars_main rand [sa ++ str "/" ++ dec p; sb ++ str "/" ++ dec q] = (v ← (if v6 then get_ipv6_info rand sa sb p q else get_ipv4_info rand sa sb p q); Ok (print_vars v6 v)).
Proof.
  intros Hs Hne Hp Hq. destruct (Hs sa (or_introl eq_refl)) as (Na & Ca & Ra), (Hs sb (or_intror eq_refl)) as (Nb & Cb & Rb). unfold net_vars_main. assert (is_help [sa ++ str "/" ++ dec p; sb ++ str "/" ++ dec q] = false) as ->.
  { unfold is_help. assert (Hin : "/"%ch ∈ sa ++ str "/" ++ dec p) by (rewrite !elem_of_app; right; left; by apply list_elem_of_singleton).
    assert (Ht : forall t, forallb (fun x => negb (x =? "/"%ch)) t = true -> streq (sa ++ str "/" ++ dec p) t = false) by (intros t Ht; apply bool_decide_eq_false; intros E; rewrite E in Hin; by apply not_In in Ht). by rewrite !Ht. }
  assert (Hd : forall s p, 0 <= p <= max_prefix v6 -> (":"%ch ∈ s <-> v6 = true) -> bool_decide (strchr (s ++ str "/" ++ dec p) ":"%ch <> None) = v6).
  { intros s r Hr Hc. assert (Hno : forallb (fun x => negb (x =? ":"%ch)) (str "/" ++ dec r) = true).
    { apply (bytes_forall (fun r => forallb (fun x => negb (x =? ":"%ch)) (str "/" ++ dec r))); [vm_compute; reflexivity|]. unfold max_prefix, MAX_IPV6_PREFIX, MAX_IPV4_PREFIX in Hr. destruct v6; lia. }
    apply not_In in Hno. destruct v6; [apply bool_decide_eq_true|apply bool_decide_eq_false]; rewrite strchr_In, elem_of_app; tauto || (intros [H%Hc|H]; done). }
  rewrite (Hd sa p Hp Ca). rewrite !prefix_given by done. cbn [mbind res_bind]. assert (Hf : bool_decide (strchr sb ":"%ch <> None) = v6) by (destruct v6; [apply bool_decide_eq_true|apply bool_decide_eq_false]; rewrite strchr_In; tauto || (intros H%Cb; done)).
  rewrite Hf. rewrite eqb_reflx. cbn [negb]. assert (streq sa sb = false) as -> by by apply bool_decide_eq_false. unfold tst_get_in6_addr, tst_get_in_addr. destruct v6.
  - destruct (inet_pton6 sa), (inet_pton6 sb); done.
  - destruct (inet_pton4 sa), (inet_pton4 sb); done.
Qed.

(** *** IPv4 *)

(** What the variables of one host are to be: the last address of the network, the
    mask of the prefix, the first three bytes and the last one. *)
Definition host4 (ip p : Z) (broadcast netmask network host : option cstr) : Prop :=
  exists b mask net h, broadcast = Some (inet_ntop4 b) /\ netmask = Some mask /\ network = Some net /\ host = Some h /\
    (0 <= b < 2 ^ 32 /\ ntohl b = ntohl ip / 2 ^ (32 - p) * 2 ^ (32 - p) + (2 ^ (32 - p) - 1)) /\ tst_ipv4_mask_to_int mask = p /\
    if p =? 32 then net = [] /\ h = inet_ntop4 ip
    else inet_ntop4 ip = net ++ str "." ++ h /\ forall x, byte x -> exists ip', inet_pton4 (net ++ str "." ++ dec x) = Some ip' /\ ntohl ip' = ntohl ip / 256 * 256 + x.

Lemma round4 p : 24 <= p <= 32 -> wrap_u 32 (round_down_prefix (wrap_u 32 p) false) = if p =? 32 then 32 else 24.
Proof.
  intros Hp. rewrite (wrap_u_id 32 p) by lia. unfold round_down_prefix, BASE_IPV4_PREFIX. assert (E : p / 8 * 8 = if p =? 32 then 32 else 24) by (destruct (Z.eqb_spec p 32) as [->|]; [done|]; Z.to_euclidean_division_equations; lia).
  rewrite E. by destruct (p =? 32).
Qed.
Lemma dec_ne b : byte b -> dec b <> [].
Proof. intros Hb E. pose proof (octet_dec b Hb) as H. by rewrite E in H. Qed.

Lemma info4 ip p : 0 <= ip < 2 ^ 32 -> 24 <= p <= 32 -> exists b mask net h, get_ipv4_broadcast ip (wrap_u 32 p) = Ok b /\ get_ipv4_netmask (wrap_u 32 p) = Ok mask /\
  get_ipv4_network (wrap_s 32 ip) (wrap_u 32 (round_down_prefix (wrap_u 32 p) false)) = Ok net /\ get_host_from_ip (Some (inet_ntop4 ip)) net = Ok h /\ host4 ip p (Some b) mask net h.
Proof.
  intros Hip Hp. rewrite round4, !(wrap_u_id 32 p) by lia. destruct (broadcast_ok ip p Hip ltac:(lia)) as (b & -> & Hb & Eb). rewrite netmask_ok by lia. pose proof (netmask_prefix p ltac:(lia)) as Hm.
  generalize dependent (inet_ntop4 (htonl (host_mask (32 - p)))). intros mask Hm. destruct (addr_split ip Hip) as (x & y & z & w & -> & Hx & Hy & Hz & Hw). unfold host4. destruct (Z.eqb_spec p 32) as [->|Hne].
  - assert (Hn : inet_ntop4 (addr_of [x; y; z; w]) <> []) by (rewrite ntop4_dotted by done; destruct (dec x) eqn:E; [by apply dec_ne in E|discriminate]).
    exists (inet_ntop4 b), (Some mask), (Some []), (Some (inet_ntop4 (addr_of [x; y; z; w]))). split_and!; [reflexivity..|by apply host_all|]. exists b, mask, [], (inet_ntop4 (addr_of [x; y; z; w])). split_and!; [reflexivity..|apply Hb|apply Hb|exact Eb|exact Hm|reflexivity|reflexivity].
  - destruct (network_ok x y z w Hx Hy Hz Hw) as (-> & _ & _). set (net := dec x ++ str "." ++ dec y ++ str "." ++ dec z). assert (E : forall w, byte w -> inet_ntop4 (addr_of [x; y; z; w]) = net ++ "."%ch :: dec w).
    { intros w' Hw'. rewrite ntop4_dotted by done. unfold net. rewrite <-!app_assoc. reflexivity. }
    assert (Hn : net <> []) by (unfold net; destruct (dec x) eqn:Ed; [by apply dec_ne in Ed|discriminate]). exists (inet_ntop4 b), (Some mask), (Some net), (Some (dec w)).
    split_and!; [reflexivity..|rewrite E by done; apply host_found; [exact Hn|by right]|]. exists b, mask, net, (dec w). split_and!; [reflexivity..|apply Hb|apply Hb|exact Eb|exact Hm|by apply E|].
    intros w' Hw'. exists (addr_of [x; y; z; w']). change (str "." ++ dec w') with ("."%ch :: dec w'). rewrite <-E, pton4_ntop4 by (done || (unfold byte, addr_of in *; lia)). split; [reflexivity|].
    rewrite !htonl_addr by done. clear -Hw Hw'. unfold addr_of, byte in *. Z.to_euclidean_division_equations; lia.
Qed.

Lemma ntop4_plain ip : 0 <= ip < 2 ^ 32 -> no_slash (inet_ntop4 ip) = true /\ ":"%ch ∉ inet_ntop4 ip.
Proof.
  intros Hip. destruct (addr_split ip Hip) as (x & y & z & w & -> & Hx & Hy & Hz & Hw). rewrite ntop4_dotted by done.
  assert (H : forall b, byte b -> forallb (fun c => negb (c =? "/"%ch) && negb (c =? ":"%ch)) (dec b) = true) by (apply (bytes_forall (fun b => forallb (fun c => negb (c =? "/"%ch) && negb (c =? ":"%ch)) (dec b))); vm_compute; reflexivity).
  assert (Hall : forallb (fun c => negb (c =? "/"%ch) && negb (c =? ":"%ch)) (dec x ++ str "." ++ dec y ++ str "." ++ dec z ++ str "." ++ dec w) = true) by by rewrite !forallb_app, !H.
  rewrite forallb_forall in Hall. split; [apply forallb_forall|apply not_In, forallb_forall]; intros c Hc; by destruct (andb_prop _ _ (Hall c Hc)).
Qed.

(** C20: the variables of two different IPv4 addresses with prefixes of 24 to 32
    bits, from the command line to the printed lines.  For both hosts the broadcast
    address is the last address of the network, the netmask reads back as the
    prefix, and the address is the network, a dot and the host part, where any
    other last byte put after the network gives the address of that host.  The
    first address of the network said to be unused is not in the network of the
    first host. *)
Theorem ipv4_vars_correct rand lip rip p q : 0 <= lip < 2 ^ 32 -> 0 <= rip < 2 ^ 32 -> lip <> rip -> 24 <= p <= 32 -> 24 <= q <= 32 ->
  exists v, net_vars_main rand [inet_ntop4 lip ++ str "/" ++ dec p; inet_ntop4 rip ++ str "/" ++ dec q] = Ok (print_vars false v) /\
    host4 lip p (lbroadcast v) (lnetmask v) (lnetwork v) (lhost v) /\ host4 rip q (rbroadcast v) (rnetmask v) (rnetwork v) (rhost v) /\
    exists x y u, net_unused v = Some (two4 x y) /\ byte x /\ byte y /\ inet_pton4 (two4 x y ++ str ".0.0") = Some u /\ ntohl u / 2 ^ (32 - p) <> ntohl lip / 2 ^ (32 - p).
Proof.
  intros Hl Hr Hne Hp Hq. destruct (info4 lip p Hl Hp) as (lb & lm & ln & lh & L1 & L2 & L3 & L4 & HL), (info4 rip q Hr Hq) as (rb & rm & rn & rh & R1 & R2 & R3 & R4 & HR).
  assert (Hu : exists x y u, get_ipv4_net16_unused rand lip (wrap_u 32 (round_down_prefix (wrap_u 32 p) false)) = Ok (Some (two4 x y)) /\ byte x /\ byte y /\ inet_pton4 (two4 x y ++ str ".0.0") = Some u /\
    ntohl u / 2 ^ (32 - p) <> ntohl lip / 2 ^ (32 - p)).
  { rewrite round4 by done. destruct (addr_split lip Hl) as (a & b & c & d & -> & Ha & Hb & Hc & Hd). destruct (unused4_ok rand a b c d (if p =? 32 then 32 else 24) Ha Hb Hc Hd ltac:(destruct (p =? 32); lia)) as (x & y & Hx & Hy & E & Hn).
    exists x, y, (addr_of [x; y; 0; 0]). split_and!; [done..|pose proof (two4_addr x y Hx Hy) as H; unfold tst_get_in_addr in H; by destruct (inet_pton4 _); inversion H|]. destruct (Z.eqb_spec p 32) as [->|]; [done|]. intros Heq. apply Hn.
    apply (f_equal (fun z => z / 2 ^ (8 - (32 - p)))) in Heq. rewrite !Z.div_div, <-!Z.pow_add_r in Heq by (lia || (apply Z.pow_nonzero; lia) || (apply Z.pow_pos_nonneg; lia)). by replace (32 - p + (8 - (32 - p))) with (32 - 24) in Heq by lia. }
  destruct Hu as (x & y & u & Eu & Hu). exists (mkVars (Some lb) (Some rb) lm rm ln rn lh rh (Some (two4 x y))). split_and!; [|done|done|exists x, y, u; done].
  rewrite (main_runs rand false); [| | |unfold max_prefix, MAX_IPV4_PREFIX; lia..].
  - unfold get_ipv4_info, tst_get_in_addr. rewrite !pton4_ntop4 by done. cbn [mbind res_bind]. rewrite L1, R1, L2, R2, L3, R3. cbn [mbind res_bind]. rewrite L4, R4. cbn [mbind res_bind]. rewrite Eu. done.
  - intros s [-> | ->]; (split_and!; [by apply ntop4_plain|split; [intros H; by apply ntop4_plain in H|done]|by rewrite pton4_ntop4]).
  - intros E. apply Hne. apply (f_equal inet_pton4) in E. rewrite !pton4_ntop4 in E by done. by inversion E.
Qed.

Lemma ipv4_vars_correct_witness : exists v, net_vars_main (fun _ => 0) [inet_ntop4 33554442 ++ str "/" ++ dec 24; inet_ntop4 16777226 ++ str "/" ++ dec 28] = Ok (print_vars false v) /\ host4 33554442 24 (lbroadcast v) (lnetmask v) (lnetwork v) (lhost v).
Proof. destruct (ipv4_vars_correct (fun _ => 0) 33554442 16777226 24 28) as (v & H & Hl & _); [lia..|]. exists v. split; [exact H|exact Hl]. Defined.

(** *** IPv6 *)
Lemma hex_all (P : Z -> bool) g : (forall d, nib d -> P (hexdigit d) = true) -> forallb P (hex g) = true.
Proof.
  intros HP. unfold hex. fold (nibbles g). destruct (strip_spec (nibbles g)) as (_ & _ & _ & H & _); [done|]. specialize (H nib (nibbles_nib g)).
  induction H as [|d ds Hd _ IH]; [done|]. cbn. by rewrite HP.
Qed.
Lemma text_no_slash gs : no_slash (text gs) = true.
Proof.
  assert (Hh : forall g, no_slash (hex g) = true).
  { intros g. apply hex_all. unfold nib. intros d Hd. unfold hexdigit. destruct (Z.ltb_spec d 10); apply negb_true_iff, Z.eqb_neq; cbn; lia. }
  unfold no_slash in *. induction gs as [|g gs IH]; [done|]. destruct gs as [|h gs]; [rewrite text_one; apply Hh|]. rewrite text_cons, forallb_app by done. rewrite Hh. cbn [forallb andb]. by rewrite IH.
Qed.
Lemma all_take {A} (P : A -> bool) n l : forallb P l = true -> forallb P (take n l) = true.
Proof. rewrite <-(take_drop n l) at 1. rewrite forallb_app. by intros [H _]%andb_true_iff. Qed.
Lemma all_drop {A} (P : A -> bool) n l : forallb P l = true -> forallb P (drop n l) = true.
Proof. rewrite <-(take_drop n l) at 1. rewrite forallb_app. by intros [_ H]%andb_true_iff. Qed.
Lemma short_plain a : addr6 a -> no_slash (short_text (words a)) = true /\ ":"%ch ∈ short_text (words a).
Proof.
  intros Ha. split.
  - unfold short_text. destruct (longest 0 _ 0 2) as [best max]. pose proof (text_no_slash (words a)) as H. destruct (2 <? max)%nat; [|done]. unfold no_slash in *. rewrite !forallb_app, all_take, all_drop by done. done.
  - destruct (network_shape a 16 Ha ltac:(lia)) as (net & _ & Hs). destruct (words_groups a Ha) as (L & _). change (Z.to_nat (Z.shiftr 16 4)) with 1%nat in Hs. destruct (shape_host _ 1%nat net L ltac:(lia) Hs) as (_ & h & ->). rewrite !elem_of_app. right. left. by apply list_elem_of_singleton.
Qed.

(** The netmask has the first [p] bits, and its text is read as it. *)
Lemma mask6_bits p n : 0 <= p -> (n < 128)%nat -> addr_bit (mask6 p) n = (Z.of_nat n <? p).
Proof.
  intros Hp Hn. unfold addr_bit, mask6. pose proof (Nat.div_mod_eq n 8) as Hd. pose proof (Nat.mod_upper_bound n 8 ltac:(lia)). rewrite (nth_lookup_Some _ _ _ (mask_byte (p - 8 * Z.of_nat (n / 8)))) by (apply mask6_lookup; lia).
  rewrite mask_byte_bit by lia. apply Bool.eq_iff_eq_true. rewrite !Z.ltb_lt. lia.
Qed.
Lemma mask6_reads p : 0 <= p <= 128 -> inet_pton6 (inet_ntop6 (mask6 p)) = Some (mask6 p).
Proof.
  intros Hp. assert (H : forallb (fun p => bool_decide (inet_pton6 (inet_ntop6 (mask6 p)) = Some (mask6 p))) (map Z.of_nat (seq 0 129)) = true) by (vm_compute; reflexivity).
  rewrite forallb_forall in H. eapply bool_decide_eq_true_1, H, in_map_iff. exists (Z.to_nat p). rewrite in_seq. lia.
Qed.

(** What the variables of one host are to be: the mask of the prefix, and the two
    parts of the address at the last colon before the prefix ends. *)
Definition host6 (a : list Z) (p : Z) (netmask network host : option cstr) : Prop :=
  exists mask m net h, netmask = Some mask /\ network = Some net /\ host = Some h /\
    inet_pton6 mask = Some m /\ (forall n, (n < 128)%nat -> addr_bit m n = (Z.of_nat n <? p)) /\
    if p =? 128 then net = [] /\ h = inet_ntop6 a
    else let n := Z.to_nat (p / 16) in inet_ntop6 a = net ++ str ":" ++ h /\
      forall hs, Forall group hs -> length hs = (8 - n)%nat -> inet_pton6 (net ++ str ":" ++ text hs) = Some (take (2 * n) a ++ bytes_of hs).

Lemma round6 p : 0 <= p <= 128 -> wrap_u 32 (round_down_prefix (wrap_u 32 p) true) = p / 16 * 16.
Proof.
  intros Hp. rewrite (wrap_u_id 32 p) by lia. unfold round_down_prefix, BASE_IPV6_PREFIX. assert (0 <= p / 16 * 16 <= 128) by (Z.to_euclidean_division_equations; lia).
  rewrite wrap_s_id by lia. apply wrap_u_id. lia.
Qed.

Lemma info6 a p : addr6 a -> unambiguous (words a) -> 16 <= p <= 128 -> exists net h, get_ipv6_network a (wrap_u 32 (round_down_prefix (wrap_u 32 p) true)) = net /\
  get_host_from_ip (Some (inet_ntop6 a)) net = Ok h /\ host6 a p (get_ipv6_netmask (wrap_u 32 p)) net h.
Proof.
  intros Ha Hu Hp. rewrite round6, (wrap_u_id 32 p) by lia. unfold get_ipv6_netmask, host6. rewrite (ntop6_short a Ha Hu). rewrite (proj2 (Z.ltb_ge _ _)) by (unfold MAX_IPV6_PREFIX; lia). pose proof (mask6_reads p ltac:(lia)) as Hm.
  assert (Hbits : forall n, (n < 128)%nat -> addr_bit (mask6 p) n = (Z.of_nat n <? p)) by (intros n Hn; apply mask6_bits; lia).
  generalize dependent (inet_ntop6 (mask6 p)). generalize dependent (mask6 p). intros m Hbits mask Hm. destruct (words_groups a Ha) as (L & _). destruct (Z.eqb_spec p 128) as [->|Hne].
  - assert (Hn : short_text (words a) <> []) by (destruct (short_plain a Ha) as [_ H]; intros E; rewrite E in H; by apply not_elem_of_nil in H).
    exists (Some []), (Some (short_text (words a))). split_and!; [reflexivity|by apply host_all|]. exists mask, m, [], (short_text (words a)). split_and!; [reflexivity..|exact Hm|exact Hbits|reflexivity|reflexivity].
  - assert (Hr : 16 <= p / 16 * 16 < 128) by (Z.to_euclidean_division_equations; lia). destruct (network_shape a (p / 16 * 16) Ha Hr) as (net & -> & Hs).
    assert (En : Z.shiftr (p / 16 * 16) 4 = p / 16) by (rewrite Z.shiftr_div_pow2 by lia; change (2 ^ 4) with 16; apply Z.div_mul; lia). rewrite En in Hs.
    assert (Hn : (1 <= Z.to_nat (p / 16) <= 7)%nat) by (Z.to_euclidean_division_equations; lia). destruct (shape_host _ _ net L Hn Hs) as (Hnet & h & Eh).
    exists (Some net), (Some h). split_and!; [reflexivity|rewrite Eh; apply (host_found net ":"%ch h Hnet); by left|]. exists mask, m, net, h. split_and!; [reflexivity..|exact Hm|exact Hbits|exact Eh|by apply shape_reads].
Qed.

(** C19: the variables of two different IPv6 addresses, in the text that [inet_ntop]
    of glibc gives them, with prefixes of 16 to 128 bits, from the command line to the
    printed lines.  The addresses are those that [::] shortens in one way only
    ([unambiguous]): the program shortens a single zero too and prefers a run that
    does not begin the address, and may then find no host part.  For both hosts the
    netmask reads back as the address whose first bits, as many as the prefix says,
    are ones.  The text of the address is the network, a colon and the host part,
    also where the zeros that [::] stands for are on both sides; the network followed
    by a colon and the groups of any host reads back as the address of that host in
    the network.  The first address of the network said to be unused is not in the
    network of the first host. *)
Theorem ipv6_vars_correct rand a b p q : addr6 a -> addr6 b -> a <> b -> unambiguous (words a) -> unambiguous (words b) -> 16 <= p <= 128 -> 16 <= q <= 128 ->
  exists v, net_vars_main rand [inet_ntop6 a ++ str "/" ++ dec p; inet_ntop6 b ++ str "/" ++ dec q] = Ok (print_vars true v) /\
    host6 a p (lnetmask v) (lnetwork v) (lhost v) /\ host6 b q (rnetmask v) (rnetwork v) (rhost v) /\
    exists net u, net_unused v = Some net /\ inet_pton6 (net ++ str "::") = Some u /\ addr6 u /\ ~ same_net p u a.
Proof.
  intros Ha Hb Hne Ua Ub Hp Hq. destruct (info6 a p Ha Ua Hp) as (ln & lh & L1 & L2 & HL), (info6 b q Hb Ub Hq) as (rn & rh & R1 & R2 & HR).
  destruct (unused6_ok rand a (p / 16 * 16) Ha ltac:(Z.to_euclidean_division_equations; lia)) as (y & Hy & Eu & Hu). rewrite (ntop6_short a Ha Ua) in *. rewrite (ntop6_short b Hb Ub) in *.
  exists (mkVars None None (get_ipv6_netmask (wrap_u 32 p)) (get_ipv6_netmask (wrap_u 32 q)) ln rn lh rh (Some (two6 (64768 + y) 35))). split_and!; [|exact HL|exact HR|].
  - rewrite (main_runs rand true); [| | |unfold max_prefix, MAX_IPV6_PREFIX; lia..].
    + unfold get_ipv6_info, tst_get_in6_addr. rewrite !short_reads by done. cbn [mbind res_bind]. rewrite L1, R1. rewrite L2. cbn [mbind res_bind]. rewrite R2. cbn [mbind res_bind]. rewrite round6, Eu by lia. reflexivity.
    + intros s [-> | ->]; (split_and!; [by apply short_plain|split; [reflexivity|intros _; by apply short_plain]|by rewrite short_reads]).
    + intros E. apply Hne. apply (f_equal inet_pton6) in E. rewrite !short_reads in E by done. by inversion E.
  - exists (two6 (64768 + y) 35), ([253; y; 0; 35] ++ replicate 12 0). split_and!; [reflexivity|pose proof (two6_addr y Hy) as H; unfold tst_get_in6_addr in H; by destruct (inet_pton6 _); inversion H|apply (unused_addr6 y Hy)..|].
    intros Hs. apply Hu. intros n Hn. apply Hs. assert (p / 16 * 16 <= p) by (Z.to_euclidean_division_equations; lia). lia.
Qed.

(** A run of zeros that the others are shorter than, checked on the groups. *)
Lemma one_gap_check G k m : length G = 8%nat -> zerosb G k m && (2 <=? m)%nat && negb (k =? 0)%nat && forallb (fun k' => forallb (fun m' => implb (zerosb G k' m') ((m' <=? m)%nat && implb (m' =? m)%nat (k' =? k)%nat)) (seq 0 9)) (seq 0 9) = true -> unambiguous G.
Proof.
  intros L H. rewrite !andb_true_iff, negb_true_iff, Nat.leb_le, Nat.eqb_neq in H. destruct H as (((Hz & Hm) & Hk) & Hall). assert (Hzs : forall k m, zerosb G k m = true <-> zeros G k m) by (intros; unfold zerosb, zeros; by rewrite andb_true_iff, Nat.leb_le, bool_decide_eq_true).
  apply (one_gap G k m); [done|by apply Hzs| |intros [? _]; done]. intros k' m' Hz'. destruct (Hz') as [Hl _]. rewrite L in Hl. rewrite forallb_forall in Hall. specialize (Hall k' ltac:(apply in_seq; lia)). rewrite forallb_forall in Hall. specialize (Hall m' ltac:(apply in_seq; lia)).
  rewrite (proj2 (Hzs k' m') Hz') in Hall. cbn [implb] in Hall. apply andb_true_iff in Hall as [H1 H2]. apply Nat.leb_le in H1. split; [done|]. intros ->. rewrite Nat.eqb_refl in H2. left. by apply Nat.eqb_eq.
Qed.

Lemma ipv6_vars_correct_witness : let a := [253; 0; 0; 1; 0; 1; 0; 1; 0; 0; 0; 0; 0; 0; 0; 2] in let b := [253; 0; 0; 0; 0; 0; 0; 0; 0; 0; 0; 0; 0; 0; 0; 1] in
  exists v, net_vars_main (fun _ => 0) [str "fd00:1:1:1::2/64"; str "fd00::1/48"] = Ok (print_vars true v) /\ host6 a 64 (lnetmask v) (lnetwork v) (lhost v).
Proof.
  intros a b. destruct (ipv6_vars_correct (fun _ => 0) a b 64 48) as (v & H & Hl & _).
  - split; [reflexivity|repeat constructor; lia].
  - split; [reflexivity|repeat constructor; lia].
  - discriminate.
  - apply (one_gap_check _ 4 3); reflexivity.
  - apply (one_gap_check _ 1 6); reflexivity.
  - lia.
  - lia.
  - exists v. split; [exact H|exact Hl].
Defined.
